(* ===== verification/_CoqProject ===== *)
-Q . S2P
Prelude.v
OrderedSeq.v
CppString.v
Timestamp.v
VersionStore.v
Policy.v
PolicyParse.v
ServerState.v
DemoEnv.v
ServerTxn.v
MVTSO.v
MVTSOSafety.v
Endorse.v
AsyncPrepare.v
Quorum.v
AsyncVerify.v
Phase2.v
Phase2Safety.v
Fallback.v
FallbackSafety.v
FallbackAgreement.v
FallbackExamples.v
MVTSOInv.v
MVTSOSystem.v
MVTSOExamples.v
BatchedSigs.v
BatchedCerts.v
EndorseClient.v
ContactClients.v
ShardClient.v
ClientCommit.v
ClientCerts.v
Reads.v
ReadProtection.v
ReadExamples.v
ReadClient.v
ReadClientSafety.v
ReadRecency.v
ReadClientExamples.v
TableEncoder.v
Validation.v
ValidationSafety.v
ValidationEvidence.v
ForwardRead.v
ValidationExamples.v
Snapshot.v
Digest.v
QueryClient.v
QueryClientSafety.v
Phase1.v
Phase1Votes.v
Phase1Safety.v
ClientFallback.v
ClientFallbackSafety.v
ClientFallbackExamples.v
QuerySync.v
QuerySyncSafety.v
QuerySyncExamples.v
