(* ===== verification/Prelude.v ===== *)
(** * Sintr: a verification library

    Sintr is a Byzantine fault tolerant transactional key-value store.  A
    client executes a transaction speculatively, has other clients endorse it
    as the policies of the keys ask, and asks the replicas of every involved
    group to vote for it (phase 1).  Unanimous votes are a certificate; else
    the decision is logged at one group (phase 2).  A writeback carries the
    certificate and commits or aborts the transaction.  A client that finds a
    transaction stalled can have the replicas elect a leader that finishes it
    (fallback).  A group has [5 f + 1] replicas, [f] of them faulty.

    The library models the replica (its data, concurrency control and
    endorsement check, the certificates it accepts, the handlers of the
    protocol), the client (commit protocol, reads, queries, endorsements) and
    the client that endorses the transaction of another.  Theorems that join
    two of them state what one promises the other.  Paths below are relative
    to src/src; sintrstore stands for store/sintrstore.

    ** Conventions

    - A function that can reach [Panic] or a failed [UW_ASSERT], an exception
      nobody catches or an access outside a buffer returns an [outcome].
    - [uint32_t], [uint64_t] and [int] are integers; conversions and
      arithmetic that can wrap are written out with [u32], [u64] and [int32].
    - [std::set] and [std::map] are strictly sorted lists where their order
      matters (OrderedSeq.v), and finite maps where it does not.
    - The replica is one record, [server] (ServerState.v), which every
      operation takes and returns.  Transactions are objects in a heap, since
      the code shares and changes them.  Locks are not modelled: an operation
      is one step, except where the code releases its locks in between (the
      prepare delayed by the parallel endorsement check, jobs of the thread
      pool), which are separate steps in any order.
    - The parameters of a replica are the class [Env]: its configuration
      flags, and the functions it is given or that are not part of the
      sources (protobuf parsing, the SQL engine's checks, signatures of
      clients).  A client is a record of its own with its events.  Hashes,
      signature verification and serialization are parameters of the sections
      that use them.  A theorem with an assumption on them has an instance in
      which it holds ([.._witness]).

    ** Files

    - Prelude.v: outcomes, machine integers, tactics, shared lemmas.
      OrderedSeq.v: sorted containers and iterators.  CppString.v:
      [std::to_string], [std::stoull], [std::getline] with their inverses.
    - Timestamp.v (store/common/timestamp.h, .cc): [timestamp_order_total].
    - VersionStore.v (store/common/backend/versionstore_generic_safe.h): the
      multi-version store and its refinement of an abstract map from keys and
      timestamps to versions ([version_store_refines],
      [range_is_validity_interval]).
    - Policy.v (store/common/policy/{weight,and,or}_policy.cc,
      policy_client.cc): satisfaction, implication, merging and difference
      agree with the sets of endorsers that satisfy a policy
      ([merge_is_conjunction], [implied_iff_entails],
      [difference_is_sufficient], [policy_client_conjunction],
      [satisfied_int_correct]).  PolicyParse.v (policy_id.h, policy_cache.cc,
      policy_parse_client.cc): round trips and the cache.
    - ServerState.v (sintrstore/server.h, sintr-proto.proto): messages,
      transactions and the replica's state.  DemoEnv.v: a small configuration
      for concrete runs.  ServerTxn.v (sintrstore/server.cc, servertools.cc):
      prepare, commit, abort, clean, dependencies, read timestamps, buffered
      results.
    - MVTSO.v (sintrstore/concurrencycontrol.cc): [DoOCCCheck] and
      [DoMVTSOOCCCheck].  MVTSOSafety.v, MVTSOInv.v and MVTSOSystem.v: the
      indexes the check searches are complete in every reachable state
      ([reachable_index_complete]), and, with the prepare inside the check, no
      two data transactions a replica voted for and that are still prepared or
      committed conflict on a version read that is not that of genesis
      ([voted_transactions_serializable]).  MVTSOExamples.v: instances, and
      runs in which the guarantee is lost.
    - Endorse.v (sintrstore/server.cc): the policies that govern a transaction
      and the validation of its endorsements ([endorsement_check_exact],
      [accepted_transaction_leaks_nothing]).  AsyncPrepare.v (server.h,
      server.cc, servertools.cc): [AsyncValidatePrepare] joins endorsement
      validations on worker threads with the concurrency check; for every
      interleaving it answers once ([async_prepare_answers_once]), and phase 1
      prepares only endorsed transactions ([prepared_only_if_endorsed]).
    - Quorum.v (sintrstore/common.cc, lib/configuration.cc): sequential
      validation of certificates; a fast certificate excludes the opposite
      decision, and phase-2 certificates of a view agree, when few enough of
      the processes the checks admit are faulty
      ([fast_certificates_exclusive], [p2_certificates_agree]).
      AsyncVerify.v (common.cc): the validation on the thread pool, for every
      completion order ([async_p2_exact], [async_decision_agrees]).
    - Phase2.v and Phase2Safety.v (server.cc, servertools.cc): logging a
      decision and writeback; what a writeback finishes, at once or through
      the thread pool, has a valid certificate ([writeback_needs_certificate]).
    - Fallback.v (server_fallback.cc): views, elections, decisions.
      FallbackSafety.v, FallbackAgreement.v, FallbackExamples.v: what a
      replica stores or signs is certified, views and decisions only move
      forward, and a decision signed by a quorum survives later views
      ([fallback_decisions_certified], [fallback_views_monotone],
      [logged_decision_survives]).
    - BatchedSigs.v and BatchedCerts.v (lib/batched_sigs.h, .cc,
      localbatchverifier.cc, sharedbatchverifier.cc): signing a batch with a
      hash tree and verifying with a cache of root signatures
      ([signed_batch_verifies], [cached_signature_certifies]).
    - Phase1.v (server.cc, server_fallback.cc, servertools.cc): reception of
      phase 1 from clients and fallback clients, the check of the proposal,
      and the tasks left to other threads.  Phase1Votes.v and Phase1Safety.v:
      in every run of all handlers a replica's votes for an unfinished
      transaction agree ([one_vote_while_unfinished]).
    - Reads.v, ReadProtection.v (server.cc, concurrencycontrol.cc): the answer
      to a read ([read_answered_exactly]), the bound on chains of dependencies
      ([dependency_depth_terminates]), and older writers abstaining
      ([reads_block_older_writes]).  ReadClient.v, ReadClientSafety.v,
      ReadRecency.v (shardclient.cc): reads at the client and their
      composition with the replica ([read_result_newest],
      [read_sees_replica_versions]).  ReadExamples.v, ReadClientExamples.v:
      instances and runs.
    - ShardClient.v, ClientCommit.v (shardclient.cc, phase1validator.cc,
      client.cc): the commit protocol at the client.  ClientCerts.v: what an
      honest client sends passes the validation of the replicas
      ([client_certificates_validate]).
    - ClientFallback.v (client.cc, shardclient.cc): the client that finishes
      another's transaction: replies, logged decisions by view, views of the
      replicas and the invitation of a leader.  ClientFallbackSafety.v: what
      it writes back and invites with passes the checks of Quorum.v and
      Fallback.v ([fallback_certificates_validate],
      [invitation_accepted_exactly]).  ClientFallbackExamples.v: instances,
      and runs in which an honest client's message is refused.
    - EndorseClient.v, ContactClients.v
      (store/common/sintring/endorsement_client.cc, client2client.cc): whom a
      client asks for endorsements and when it has enough of them
      ([endorsed_transaction_accepted], [contacted_clients_satisfy_policy]).
    - Validation.v, ValidationSafety.v, ValidationEvidence.v
      (validation_client.cc, client2client.cc): the execution of another
      client's transaction on forwarded reads ([endorsed_execution_accounted],
      [endorsed_reads_have_evidence]).  ForwardRead.v: what the reading client
      accepted, the validating client accepts ([forwarded_read_accepted]).
      ValidationExamples.v: instances and runs.
    - Digest.v (common.cc): the byte strings whose hashes the digests of
      transactions, policies and queries are, and what they determine
      ([digest_binds_contents]).
    - Snapshot.v (snapshot_mgr.cc): snapshots of queries, local and merged
      ([merged_snapshot_exact], [merged_txn_vouched],
      [merged_timestamp_injective]).  QueryClient.v, QueryClientSafety.v
      (querysync-client.cc): queries at the client ([query_result_supported],
      [one_replica_fails_query]).
    - QuerySync.v (querysync-server.cc, querysync-servertools.cc, server.h):
      queries at a replica, above the tables: query metadata, snapshots,
      waiting for transactions, waking, transactions between replicas,
      clean-up, and the step relation [rq_step].  QuerySyncSafety.v: its
      invariant, and that a query is executed on transactions that are there
      ([executed_snapshot_materialized]) and woken when they are, by
      transaction or by timestamp ([waiting_query_registered]).  The history of
      materializations is part of the state for these statements only.  QuerySyncExamples.v: instances, and runs
      that show what the code does not check.
    - TableEncoder.v (store/common/table_kv_encoder.cc, partitioner.cc): rows
      as keys ([row_key_roundtrip]).

    Each theorem's comment lists what it assumes of the configuration, of the
    faulty processes and of the messages received, and the cases it leaves
    out.  Where the code does not ensure an assumption, an example shows what
    happens without it: [group_check_ignores_group],
    [p2_check_ignores_membership], [misaddressed_vote_spoils_certificate],
    [foreign_decision_spoils_writeback], [impostor_is_counted],
    [unthreaded_decision_is_unchecked], [second_decision_is_signed],
    [hidden_timestamp_unchecked], [unchecked_read_endorsed],
    [empty_or_merge_weakens], [genesis_read_skips_prepared_writes],
    [stale_wake_executes].

    Theorems of kind "error" state behaviour that differs from what the code
    means to do, each with the run that shows it.

    ** Fuel and bounds

    Loops over containers are structural.  Fuel is used in three places, and
    is shown to be enough in each.  The loops over the node numbers of a hash
    tree: [tree_height], [path] and [climb] use 64, above the number of levels
    of a tree of fewer than [2 ^ 29] leaves, the bound under which node numbers
    fit an [int] for every branch factor of at least 2; [build] uses the number
    of leaves plus one; without fuel left they panic (or stop counting), and
    [signed_batch_verifies] shows that they do not.  The search for the next
    client to contact in ContactClients.v visits every id below a limit once
    before it repeats, and has that many steps and one more.  [DependencyDepth]
    in Reads.v visits every path from a transaction along its dependencies; its
    fuel bounds the number of paths by the number of ongoing transactions and
    the largest number of dependencies of one, and
    [dependency_depth_terminates] shows it is enough when dependencies are
    acyclic.

    ** Not modelled

    - The SQL engine (a modified Peloton), the interpreter of statements and
      the semantic concurrency check over tables; their use by the modelled
      code is a parameter ([TableStore] in QuerySync.v).  Point queries, at the
      replica and at the client, blind writes, and queries of a validated
      transaction depend on them.  Transactions that wait for the cached
      result of a query, and failed queries, which the replicas never report
      outside tests.
    - Gossip between replicas, and the timers of the fallback at the replicas
      and at the client; what a relayed phase 1 does at its receiver is
      modelled.
    - The multi-threaded variant of the client's read handler, the estimation
      of policies by benchmark, client-initiated aborts, injected failures and
      the memory management of messages.
    - The batched variants of certificate validation (deprecated in the
      sources) and the batching of signing and verification jobs.
    - Transport, thread pool, cryptographic and compression libraries,
      benchmarks, and the stores the artifact compares Sintr with.

    ** What is left

    In the order of what it would add: the composition of QuerySync.v with
    phase 1 and writeback (Phase1.v, Phase2.v), whose materializations are
    steps of their own here; point queries composed with Reads.v. *)
From stdpp Require Export base gmap strings list fin_maps sorting pretty.
From Stdlib Require Export ZArith Lia.

#[global] Open Scope Z_scope.

(** ** Outcomes

    [Panic(..)] and a failed [UW_ASSERT] terminate the process
    (src/src/lib/message.h, src/src/lib/assert.h; the Makefile does not set
    [NUW_ASSERT]).  A function that can reach one of them returns an
    [outcome]. *)

Inductive outcome (A : Type) : Type :=
| Done (a : A)
| Panic.
Arguments Done {A} a.
Arguments Panic {A}.

#[export] Instance outcome_ret : MRet outcome := @Done.
#[export] Instance outcome_bind : MBind outcome :=
  λ A B f m, match m with Done a => f a | Panic => Panic end.
#[export] Instance outcome_fmap : FMap outcome :=
  λ A B f m, match m with Done a => Done (f a) | Panic => Panic end.

(** [UW_ASSERT(b)]. *)
Definition uw_assert (b : bool) : outcome unit := if b then Done () else Panic.

(** Left fold of a fallible loop body. *)
Fixpoint foldO {A B} (f : A → B → outcome A) (a : A) (l : list B) : outcome A :=
  match l with
  | [] => Done a
  | x :: l' => f a x ≫= λ a', foldO f a' l'
  end.

Lemma bind_Done {A B} (m : outcome A) (f : A → outcome B) b :
  m ≫= f = Done b ↔ ∃ a, m = Done a ∧ f a = Done b.
Proof.
  split.
  - destruct m as [a|]; [|done]. intros H. by exists a.
  - by intros (a & -> & ?).
Qed.

Lemma uw_assert_Done b u : uw_assert b = Done u ↔ b = true.
Proof. destruct b, u; cbn; naive_solver. Qed.

(** Splits every successful bind in the context. *)
Ltac inv_outcome :=
  repeat match goal with
  | H : mbind _ _ = Done _ |- _ => apply bind_Done in H as (? & ? & ?)
  | H : uw_assert _ = Done _ |- _ => apply uw_assert_Done in H
  | H : Done _ = Done _ |- _ => progress simplify_eq
  | H : Panic = Done _ |- _ => discriminate H
  | H : mret _ = Done _ |- _ => progress simplify_eq
  end.

(** An invariant of a fallible loop. *)
Lemma foldO_inv {A B} (P : A → Prop) (f : A → B → outcome A) l a a' :
  (∀ x b y, b ∈ l → P x → f x b = Done y → P y) →
  P a → foldO f a l = Done a' → P a'.
Proof.
  revert a. induction l as [|b l IH]; intros a Hstep Ha Hf; cbn in Hf.
  { by simplify_eq. }
  inv_outcome. eapply IH; [|eapply Hstep|]; eauto; set_solver.
Qed.

(** An invariant of a total loop. *)
Lemma foldl_inv {A B} (P : A → Prop) (f : A → B → A) l a :
  (∀ x b, b ∈ l → P x → P (f x b)) → P a → P (foldl f a l).
Proof.
  revert a. induction l as [|b l IH]; intros a Hstep Ha; [done|].
  cbn. apply IH; [|apply Hstep]; set_solver.
Qed.

(** ** Fixed-width integers *)

Definition u64 (x : Z) : Z := x `mod` 2^64.
Definition u32 (x : Z) : Z := x `mod` 2^32.
(** Conversion to [int] (32-bit two's complement). *)
Definition int32 (x : Z) : Z :=
  let r := x `mod` 2^32 in if r <? 2^31 then r else r - 2^32.

Lemma u32_small x : 0 ≤ x < 2^32 → u32 x = x.
Proof. apply Z.mod_small. Qed.
Lemma u64_small x : 0 ≤ x < 2^64 → u64 x = x.
Proof. apply Z.mod_small. Qed.
Lemma int32_id x : - 2^31 ≤ x < 2^31 → int32 x = x.
Proof.
  intros Hx. unfold int32. destruct (decide (0 ≤ x)) as [Hp|Hp].
  - rewrite Z.mod_small by lia. by rewrite (proj2 (Z.ltb_lt _ _)) by lia.
  - rewrite <- (Z.mod_unique x (2^32) (-1) (x + 2^32)) by lia.
    rewrite (proj2 (Z.ltb_ge _ _)) by lia. lia.
Qed.

Lemma int32_mod x : int32 (u64 x) = int32 x.
Proof.
  unfold int32, u64.
  rewrite Z.mod_mod_divide; [done|].
  by exists (2^32).
Qed.

Lemma u64_id x : 0 ≤ x < 2^64 → u64 x = x.
Proof. apply Z.mod_small. Qed.

(** ** Strict total orders

    The comparators ([operator<]) of the ordered containers. *)

Class Ltb (K : Type) := ltb : K → K → bool.
#[export] Hint Mode Ltb ! : typeclass_instances.

Class StrictTotal (K : Type) `{!Ltb K} : Prop := {
  ltb_irrefl : ∀ k : K, ltb k k = false;
  ltb_trans : ∀ a b c : K, ltb a b = true → ltb b c = true → ltb a c = true;
  ltb_total : ∀ a b : K, ltb a b = false → ltb b a = false → a = b
}.

Section order.
Context {K : Type} `{!Ltb K} `{!StrictTotal K}.
Implicit Types a b c : K.

Lemma ltb_asym a b : ltb a b = true → ltb b a = false.
Proof.
  intros H. destruct (ltb b a) eqn:E; [|done].
  pose proof (ltb_trans _ _ _ H E). by rewrite ltb_irrefl in *.
Qed.

Lemma ltb_neq a b : ltb a b = true → a ≠ b.
Proof. intros H ->. by rewrite ltb_irrefl in H. Qed.

Lemma ltb_trichotomy a b : ltb a b = true ∨ a = b ∨ ltb b a = true.
Proof.
  destruct (ltb a b) eqn:?; [by left|]. destruct (ltb b a) eqn:?; [by auto|].
  right; left. by apply ltb_total.
Qed.

Lemma ltb_le_trans a b c : ltb a b = true → ltb c b = false → ltb a c = true.
Proof.
  intros H1 H2. destruct (ltb_trichotomy b c) as [H|[->|H]]; [|done|congruence].
  by eapply ltb_trans.
Qed.

Lemma le_ltb_trans a b c : ltb b a = false → ltb b c = true → ltb a c = true.
Proof.
  intros H1 H2. destruct (ltb_trichotomy a b) as [H|[->|H]]; [|done|congruence].
  by eapply ltb_trans.
Qed.

(** Every StrictTotal order decides equality. *)
Lemma eq_by_ltb a b : a = b ↔ ltb a b = false ∧ ltb b a = false.
Proof.
  split; [intros ->; by rewrite ltb_irrefl|]. intros []. by apply ltb_total.
Qed.
End order.

#[export] Instance Z_Ltb : Ltb Z := Z.ltb.
#[export] Instance Z_StrictTotal : StrictTotal Z.
Proof. split; unfold ltb, Z_Ltb; intros; lia. Qed.

#[export] Instance positive_Ltb : Ltb positive := Pos.ltb.
#[export] Instance positive_StrictTotal : StrictTotal positive.
Proof.
  split; unfold ltb, positive_Ltb; intros *; rewrite ?Pos.ltb_lt, ?Pos.ltb_ge; lia.
Qed.

(** Lexicographic order of [std::pair] and [std::tuple]. *)
#[export] Instance prod_Ltb {A B} `{!Ltb A, !Ltb B} : Ltb (A * B) :=
  λ p q, ltb p.1 q.1 || (negb (ltb q.1 p.1) && ltb p.2 q.2).

#[export] Instance prod_StrictTotal {A B} `{!Ltb A, !Ltb B, !StrictTotal A, !StrictTotal B} :
  StrictTotal (A * B).
Proof.
  split; unfold ltb, prod_Ltb.
  - intros [a b]; cbn. by rewrite !ltb_irrefl.
  - intros [a1 b1] [a2 b2] [a3 b3]; cbn. rewrite !orb_true_iff, !andb_true_iff, !negb_true_iff.
    intros [H1|[H1 H1']] [H2|[H2 H2']].
    + left. by eapply ltb_trans.
    + left. by eapply ltb_le_trans.
    + left. by eapply le_ltb_trans.
    + destruct (ltb_trichotomy a1 a2) as [?|[->|?]];
        [left; by eapply ltb_le_trans| |congruence].
      right. split; [done|]. by eapply ltb_trans.
  - intros [a1 b1] [a2 b2]; cbn. rewrite !orb_false_iff, !andb_false_iff, !negb_false_iff.
    intros [H1 H2] [H3 H4].
    assert (a1 = a2) as -> by (by apply ltb_total).
    rewrite ltb_irrefl in *. f_equal. apply ltb_total; naive_solver.
Qed.

Lemma prod_ltb_fst {A B} `{!Ltb A, !Ltb B, !StrictTotal A} (x y : A * B) :
  ltb x y = true → ltb y.1 x.1 = false.
Proof.
  unfold ltb at 1, prod_Ltb. rewrite orb_true_iff, andb_true_iff, negb_true_iff.
  intros [?|[? _]]; [by apply ltb_asym|done].
Qed.

(** [std::string::operator<]: lexicographic on unsigned bytes. *)
Fixpoint string_ltb (s t : string) : bool :=
  match s, t with
  | _, EmptyString => false
  | EmptyString, String _ _ => true
  | String a s', String b t' =>
      (Ascii.N_of_ascii a <? Ascii.N_of_ascii b)%N ||
      ((Ascii.N_of_ascii a =? Ascii.N_of_ascii b)%N && string_ltb s' t')
  end.

#[export] Instance string_Ltb : Ltb string := string_ltb.
#[export] Instance string_StrictTotal : StrictTotal string.
Proof.
  split; unfold ltb, string_Ltb.
  - induction k as [|a s IH]; cbn; [done|]. rewrite N.ltb_irrefl, IH. by destruct (_ =? _)%N.
  - induction a as [|a s IH]; intros [|b t] [|c u]; cbn; try done.
    rewrite !orb_true_iff, !andb_true_iff, !N.ltb_lt, !N.eqb_eq.
    intros [?|[? ?]] [?|[? ?]]; [left; lia..|]. right. split; [congruence|eauto].
  - induction a as [|a s IH]; intros [|b t]; cbn; try done.
    rewrite !orb_false_iff, !N.ltb_ge, !andb_false_iff, !N.eqb_neq.
    intros [? Hs] [? Ht].
    assert (Ascii.N_of_ascii a = Ascii.N_of_ascii b) as Hab by lia.
    rewrite <- (Ascii.ascii_N_embedding a), <- (Ascii.ascii_N_embedding b), Hab.
    f_equal. apply IH; naive_solver.
Qed.
