(* ===== verification/OrderedSeq.v ===== *)
(** * Ordered containers

    [std::set], [std::map] and sets of records ordered by one field, as
    strictly sorted lists.  An iterator into such a container is a split of
    the list: the elements before it and the elements from it on, so that
    [*it] is the head of the second part and [*(it - 1)] the last element of
    the first.  [key] is the part of an element the comparator looks at
    ([fst] for a map, the identity for a set). *)
From S2P Require Import Prelude.

Section seq.
Context {E K : Type} (key : E → K) `{!Ltb K}.

Definition klt (a b : E) : Prop := ltb (key a) (key b) = true.

(** The representation invariant: strictly increasing keys. *)
Definition ssorted (l : list E) : Prop := StronglySorted klt l.

(** [lower_bound(k)]: before it, the elements with a key below [k]. *)
Fixpoint lower_bound (k : K) (l : list E) : list E * list E :=
  match l with
  | [] => ([], [])
  | e :: l' => if ltb (key e) k
               then let p := lower_bound k l' in (e :: p.1, p.2)
               else ([], l)
  end.

(** [upper_bound(k)]: from it on, the elements with a key above [k]. *)
Fixpoint upper_bound (k : K) (l : list E) : list E * list E :=
  match l with
  | [] => ([], [])
  | e :: l' => if ltb k (key e) then ([], l)
               else let p := upper_bound k l' in (e :: p.1, p.2)
  end.

Fixpoint seq_find (k : K) (l : list E) : option E :=
  match l with
  | [] => None
  | e :: l' => if ltb (key e) k then seq_find k l'
               else if ltb k (key e) then None else Some e
  end.

Definition seq_mem (k : K) (l : list E) : bool :=
  match seq_find k l with Some _ => true | None => false end.

(** [insert(e)]: does nothing when the key is present. *)
Fixpoint seq_insert (e : E) (l : list E) : list E :=
  match l with
  | [] => [e]
  | x :: l' => if ltb (key x) (key e) then x :: seq_insert e l'
               else if ltb (key e) (key x) then e :: l else l
  end.

(** [m[k] = v]: replaces the element when the key is present. *)
Fixpoint seq_put (e : E) (l : list E) : list E :=
  match l with
  | [] => [e]
  | x :: l' => if ltb (key x) (key e) then x :: seq_put e l'
               else if ltb (key e) (key x) then e :: l else e :: l'
  end.

Fixpoint seq_erase (k : K) (l : list E) : list E :=
  match l with
  | [] => []
  | x :: l' => if ltb (key x) k then x :: seq_erase k l'
               else if ltb k (key x) then l else l'
  end.

Context `{!StrictTotal K}.
Implicit Types (l : list E) (e x y : E) (k : K).

Lemma seq_insert_length l e : (length (seq_insert e l) ≤ S (length l))%nat.
Proof. induction l as [|x l IH]; cbn; [lia|]. repeat case_match; cbn; lia. Qed.

Lemma ssorted_nil : ssorted [].
Proof. constructor. Qed.

Lemma ssorted_cons x l :
  ssorted (x :: l) ↔ ssorted l ∧ ∀ y, y ∈ l → ltb (key x) (key y) = true.
Proof.
  split.
  - inversion 1 as [|?? Hl Hx]; subst. split; [done|].
    intros y Hy. by apply (proj1 (List.Forall_forall _ _) Hx), list_elem_of_In.
  - intros [Hl Hx]. constructor; [done|].
    apply List.Forall_forall. intros y Hy. by apply Hx, list_elem_of_In.
Qed.

Lemma ssorted_singleton x : ssorted [x].
Proof. apply ssorted_cons. split; [constructor|set_solver]. Qed.

Lemma ssorted_app l1 l2 :
  ssorted (l1 ++ l2) ↔ ssorted l1 ∧ ssorted l2 ∧
    ∀ x y, x ∈ l1 → y ∈ l2 → ltb (key x) (key y) = true.
Proof.
  induction l1 as [|a l1 IH]; cbn.
  - split; [intros; split_and!; [constructor|done|set_solver]|tauto].
  - rewrite !ssorted_cons, IH. set_solver.
Qed.

(** Keys identify elements. *)
Lemma ssorted_inj l x y : ssorted l → x ∈ l → y ∈ l → key x = key y → x = y.
Proof.
  induction l as [|a l IH]; [set_solver|]. rewrite ssorted_cons. intros [Hl Ha].
  rewrite !elem_of_cons. intros [->|Hx] [->|Hy] Hk; auto.
  - apply Ha in Hy. by rewrite Hk, ltb_irrefl in Hy.
  - apply Ha in Hx. by rewrite Hk, ltb_irrefl in Hx.
Qed.

Lemma seq_find_Some l k e :
  ssorted l → seq_find k l = Some e ↔ e ∈ l ∧ key e = k.
Proof.
  induction l as [|a l IH]; [set_solver|]. rewrite ssorted_cons. intros [Hl Ha]. cbn.
  rewrite elem_of_cons. destruct (ltb (key a) k) eqn:E1; [|destruct (ltb k (key a)) eqn:E2].
  - rewrite IH by done. split; [tauto|]. intros [[->|?] <-]; [|done].
    by rewrite ltb_irrefl in E1.
  - split; [done|]. intros [[->|He] <-]; [by rewrite ltb_irrefl in E2|].
    apply Ha in He. by rewrite (ltb_asym _ _ He) in E2.
  - pose proof (ltb_total _ _ E1 E2) as <-. split; [intros; simplify_eq; tauto|].
    intros [[->|He] Hk]; [done|]. apply Ha in He. by rewrite Hk, ltb_irrefl in He.
Qed.

Lemma seq_find_None l k :
  ssorted l → seq_find k l = None ↔ ∀ e, e ∈ l → key e ≠ k.
Proof.
  intros Hl. split.
  - intros Hn e He Hk. by rewrite (proj2 (seq_find_Some l k e Hl) (conj He Hk)) in Hn.
  - intros Hn. destruct (seq_find k l) as [e|] eqn:Ef; [|done].
    apply seq_find_Some in Ef as [He Hk]; [|done]. by destruct (Hn e He).
Qed.

Lemma seq_mem_spec l k : ssorted l → seq_mem k l = true ↔ ∃ e, e ∈ l ∧ key e = k.
Proof.
  intros Hl. unfold seq_mem. destruct (seq_find k l) as [e|] eqn:Ef.
  - split; [|done]. intros _. exists e. by apply seq_find_Some.
  - rewrite seq_find_None in Ef by done. naive_solver.
Qed.

Lemma elem_of_seq_insert l e x :
  ssorted l → x ∈ seq_insert e l ↔ x ∈ l ∨ (x = e ∧ seq_find (key e) l = None).
Proof.
  induction l as [|a l IH]; [set_solver|]. rewrite ssorted_cons. intros [Hl Ha]. cbn.
  destruct (ltb (key a) (key e)) eqn:E1; [|destruct (ltb (key e) (key a)) eqn:E2].
  - rewrite !elem_of_cons, IH by done. tauto.
  - rewrite !elem_of_cons. tauto.
  - split; [tauto|]. by intros [?|[_ ?]].
Qed.

Lemma seq_insert_sorted l e : ssorted l → ssorted (seq_insert e l).
Proof.
  induction l as [|a l IH]; [intros; by apply ssorted_singleton|].
  rewrite ssorted_cons. intros [Hl Ha]. cbn.
  destruct (ltb (key a) (key e)) eqn:E1; [|destruct (ltb (key e) (key a)) eqn:E2].
  - apply ssorted_cons. split; [by apply IH|]. intros y.
    rewrite elem_of_seq_insert by done. by intros [?|[-> _]]; auto.
  - apply ssorted_cons. split; [by apply ssorted_cons|]. intros y.
    rewrite elem_of_cons. intros [->|Hy]; [done|]. eapply ltb_trans; eauto.
  - by apply ssorted_cons.
Qed.

Lemma elem_of_seq_erase l k x :
  ssorted l → x ∈ seq_erase k l ↔ x ∈ l ∧ key x ≠ k.
Proof.
  induction l as [|a l IH]; [set_solver|]. rewrite ssorted_cons. intros [Hl Ha]. cbn.
  destruct (ltb (key a) k) eqn:E1; [|destruct (ltb k (key a)) eqn:E2].
  - rewrite !elem_of_cons, IH by done. apply ltb_neq in E1. naive_solver.
  - split; [|tauto]. rewrite elem_of_cons. intros Hx. split; [done|].
    destruct Hx as [->|Hx]; [by apply not_eq_sym, ltb_neq|].
    apply Ha in Hx. apply not_eq_sym, ltb_neq. eapply ltb_trans; eauto.
  - pose proof (ltb_total _ _ E1 E2) as <-. rewrite elem_of_cons. split.
    + intros Hx. split; [by right|]. apply Ha in Hx. by apply not_eq_sym, ltb_neq.
    + intros [[->|?] ?]; [done|done].
Qed.

Lemma seq_erase_sorted l k : ssorted l → ssorted (seq_erase k l).
Proof.
  induction l as [|a l IH]; [done|].
  rewrite ssorted_cons. intros [Hl Ha]. cbn.
  destruct (ltb (key a) k) eqn:E1; [|destruct (ltb k (key a)) eqn:E2].
  - apply ssorted_cons. split; [by apply IH|]. intros y.
    rewrite elem_of_seq_erase by done. naive_solver.
  - by apply ssorted_cons.
  - done.
Qed.

Lemma elem_of_seq_put l e x :
  ssorted l → x ∈ seq_put e l ↔ x = e ∨ (x ∈ l ∧ key x ≠ key e).
Proof.
  induction l as [|a l IH]; [set_solver|]. rewrite ssorted_cons. intros [Hl Ha]. cbn.
  destruct (ltb (key a) (key e)) eqn:E1; [|destruct (ltb (key e) (key a)) eqn:E2].
  - rewrite !elem_of_cons, IH by done. apply ltb_neq in E1. naive_solver.
  - rewrite !elem_of_cons. split; [|naive_solver].
    intros [->|[->|Hx]]; [by left|right|right]; (split; [by eauto|]).
    + by apply not_eq_sym, ltb_neq.
    + apply Ha in Hx. apply not_eq_sym, ltb_neq. eapply ltb_trans; eauto.
  - pose proof (ltb_total _ _ E1 E2) as Hk. rewrite !elem_of_cons. split.
    + intros [->|Hx]; [by left|]. right. split; [by right|]. apply Ha in Hx.
      rewrite <- Hk. by apply not_eq_sym, ltb_neq.
    + intros [->|[[->|?] ?]]; [by left|done|by right].
Qed.

Lemma seq_put_sorted l e : ssorted l → ssorted (seq_put e l).
Proof.
  induction l as [|a l IH]; [intros; by apply ssorted_singleton|].
  rewrite ssorted_cons. intros [Hl Ha]. cbn.
  destruct (ltb (key a) (key e)) eqn:E1; [|destruct (ltb (key e) (key a)) eqn:E2].
  - apply ssorted_cons. split; [by apply IH|]. intros y.
    rewrite elem_of_seq_put by done. naive_solver.
  - apply ssorted_cons. split; [by apply ssorted_cons|]. intros y.
    rewrite elem_of_cons. intros [->|Hy]; [done|]. eapply ltb_trans; eauto.
  - pose proof (ltb_total _ _ E1 E2) as Hk. apply ssorted_cons. split; [done|].
    rewrite <- Hk. done.
Qed.

Lemma lower_bound_app k l : l = (lower_bound k l).1 ++ (lower_bound k l).2.
Proof. induction l as [|a l IH]; [done|]. cbn. case_match; cbn; [by f_equal|done]. Qed.

Lemma lower_bound_before k l x : x ∈ (lower_bound k l).1 → ltb (key x) k = true.
Proof.
  induction l as [|a l IH]; cbn; [set_solver|]. case_match; cbn; [|set_solver].
  rewrite elem_of_cons. intros [->|?]; auto.
Qed.

Lemma lower_bound_after k l x :
  ssorted l → x ∈ (lower_bound k l).2 → ltb (key x) k = false.
Proof.
  induction l as [|a l IH]; [set_solver|]. rewrite ssorted_cons. intros [Hl Ha]. cbn.
  case_match eqn:Ec; cbn; [auto|]. rewrite elem_of_cons. intros [->|Hx]; [done|].
  apply Ha in Hx. destruct (ltb (key x) k) eqn:Ex; [|done].
  by rewrite (ltb_trans _ _ _ Hx Ex) in Ec.
Qed.

Lemma upper_bound_app k l : l = (upper_bound k l).1 ++ (upper_bound k l).2.
Proof. induction l as [|a l IH]; [done|]. cbn. case_match; cbn; [done|by f_equal]. Qed.

Lemma upper_bound_before k l x : x ∈ (upper_bound k l).1 → ltb k (key x) = false.
Proof.
  induction l as [|a l IH]; cbn; [set_solver|]. case_match; cbn; [set_solver|].
  rewrite elem_of_cons. intros [->|?]; auto.
Qed.

Lemma upper_bound_after k l x :
  ssorted l → x ∈ (upper_bound k l).2 → ltb k (key x) = true.
Proof.
  induction l as [|a l IH]; [set_solver|]. rewrite ssorted_cons. intros [Hl Ha]. cbn.
  case_match eqn:Ec; cbn; [|auto]. rewrite elem_of_cons. intros [->|Hx]; [done|].
  eapply ltb_trans; eauto.
Qed.

(** Two keys below which the same element comes last split the list at the
    same place. *)
Lemma upper_bound_same l k k' x x' :
  ssorted l → last (upper_bound k l).1 = Some x → last (upper_bound k' l).1 = Some x' →
  key x = key x' → upper_bound k l = upper_bound k' l.
Proof.
  induction l as [|a l IH]; [done|]. rewrite ssorted_cons. intros [Hl Ha]. cbn.
  case_match; cbn; [done|]. case_match; cbn; [done|].
  assert (∀ j y, last (upper_bound j l).1 = Some y → ltb (key a) (key y) = true) as Hin.
  { intros j y Hy. apply Ha. rewrite (upper_bound_app j l). apply elem_of_app. left.
    apply last_Some in Hy as [? ->]. set_solver. }
  destruct (upper_bound k l) as [b c] eqn:E1, (upper_bound k' l) as [b' c'] eqn:E2; cbn in *.
  pose proof (upper_bound_app k l) as A1. pose proof (upper_bound_app k' l) as A2.
  rewrite E1 in A1. rewrite E2 in A2. cbn in A1, A2.
  destruct b as [|y b], b' as [|y' b']; intros Hx Hx' Hk.
  - cbn in A1, A2. by rewrite <- A1, <- A2.
  - cbn in Hx. simplify_eq. specialize (Hin k' x'). rewrite E2 in Hin. cbn [fst] in Hin.
    rewrite last_cons_cons in Hx'. rewrite Hk in Hin. rewrite ltb_irrefl in Hin. naive_solver.
  - cbn in Hx'. simplify_eq. specialize (Hin k x). rewrite E1 in Hin. cbn [fst] in Hin.
    rewrite last_cons_cons in Hx. rewrite Hk in Hin. rewrite ltb_irrefl in Hin. naive_solver.
  - rewrite last_cons_cons in Hx, Hx'. assert ((y :: b, c) = (y' :: b', c')) as [= -> -> ->]; [|done].
    apply IH; [done..|]. done.
Qed.

(** The last element of a sorted list is its maximum. *)
Lemma ssorted_last l x y :
  ssorted l → last l = Some x → y ∈ l → y = x ∨ ltb (key y) (key x) = true.
Proof.
  intros Hs Hl Hy. apply last_Some in Hl as [l' ->].
  apply ssorted_app in Hs as (_ & _ & H). apply elem_of_app in Hy as [Hy|Hy]; [|set_solver].
  right. apply H; [done|set_solver].
Qed.

(** The element before [lower_bound(k)] is the largest one below [k]. *)
Lemma last_below l k x :
  ssorted l → x ∈ l → ltb (key x) k = true →
  ∃ e, last (lower_bound k l).1 = Some e ∧ ltb (key e) k = true ∧ ltb (key e) (key x) = false.
Proof.
  intros Hs Hx Hk. pose proof (lower_bound_app k l) as Happ.
  assert (x ∈ (lower_bound k l).1) as Hb.
  { rewrite Happ in Hx. apply elem_of_app in Hx as [?|Hx]; [done|].
    apply lower_bound_after in Hx; [congruence|done]. }
  destruct (last (lower_bound k l).1) as [e|] eqn:Hl.
  - exists e. split; [done|]. split.
    + apply (lower_bound_before k l). apply last_Some in Hl as [l' Hl]. rewrite Hl. set_solver.
    + rewrite Happ in Hs. apply ssorted_app in Hs as (Hs & _ & _).
      destruct (ssorted_last _ _ _ Hs Hl Hb) as [->|?]; [by rewrite ltb_irrefl|by apply ltb_asym].
  - apply last_None in Hl. rewrite Hl in Hb. set_solver.
Qed.
End seq.

(** ** [std::set] of keys, and [std::includes] *)

Section oset.
Context {K : Type} `{!Ltb K}.

(** A [std::set] built from a range, in the order of the range. *)
Definition set_of_list (l : list K) : list K :=
  foldl (λ s k, seq_insert id k s) [] l.

(** [s.insert(l.begin(), l.end())]. *)
Definition set_union (s l : list K) : list K :=
  foldl (λ s k, seq_insert id k s) s l.

(** [std::includes(l1.begin(), l1.end(), l2.begin(), l2.end())]. *)
Fixpoint includes (l1 l2 : list K) : bool :=
  match l2 with
  | [] => true
  | y :: l2' =>
      match l1 with
      | [] => false
      | x :: l1' => if ltb y x then false
                    else if ltb x y then includes l1' l2 else includes l1' l2'
      end
  end.

Context `{!StrictTotal K}.

Lemma elem_of_set_insert (l : list K) e x :
  ssorted id l → x ∈ seq_insert id e l ↔ x = e ∨ x ∈ l.
Proof.
  intros Hl. rewrite elem_of_seq_insert by done. unfold id at 1.
  destruct (seq_find id e l) as [y|] eqn:Hf.
  - apply seq_find_Some in Hf as [Hy <-]; [|done..]. unfold id. naive_solver.
  - naive_solver.
Qed.

Lemma set_union_spec (l s : list K) :
  ssorted id s → ssorted id (set_union s l) ∧ ∀ x, x ∈ set_union s l ↔ x ∈ s ∨ x ∈ l.
Proof.
  unfold set_union. revert s. induction l as [|a l IH]; intros s Hs; cbn; [set_solver|].
  destruct (IH (seq_insert id a s)) as [H1 H2]; [by apply seq_insert_sorted|].
  split; [done|]. intros x. rewrite H2, elem_of_set_insert by done.
  set_solver.
Qed.

Lemma set_of_list_spec (l : list K) :
  ssorted id (set_of_list l) ∧ ∀ x, x ∈ set_of_list l ↔ x ∈ l.
Proof.
  destruct (set_union_spec l []) as [H1 H2]; [constructor|]. split; [done|].
  intros x. unfold set_of_list, set_union in *. rewrite H2. set_solver.
Qed.

(** Sorted lists with the same elements are equal. *)
Lemma ssorted_ext (l1 l2 : list K) :
  ssorted id l1 → ssorted id l2 → (∀ x, x ∈ l1 ↔ x ∈ l2) → l1 = l2.
Proof.
  revert l2. induction l1 as [|a l1 IH]; intros [|b l2].
  - done.
  - intros _ _ H. exfalso. apply (not_elem_of_nil b), H. by left.
  - intros _ _ H. exfalso. apply (not_elem_of_nil a), H. by left.
  - rewrite !ssorted_cons. intros [H1 Ha] [H2 Hb] H. unfold id in Ha, Hb.
    assert (a = b) as <-.
    { assert (a ∈ b :: l2) as Hab by (apply H; set_solver).
      assert (b ∈ a :: l1) as Hba by (apply H; set_solver).
      apply elem_of_cons in Hab as [?|Hab], Hba as [?|Hba]; [done..|].
      apply Hb in Hab. apply Ha in Hba. by rewrite (ltb_asym _ _ Hab) in Hba. }
    f_equal. apply IH; [done..|]. intros x. specialize (H x). rewrite !elem_of_cons in H.
    split; intros Hx; destruct (decide_rel (=) true (ltb a x)) as [Hl|Hl].
    + destruct (proj1 H (or_intror Hx)) as [->|?]; [|done]. by rewrite ltb_irrefl in Hl.
    + by destruct Hl; rewrite (Ha x Hx).
    + destruct (proj2 H (or_intror Hx)) as [->|?]; [|done]. by rewrite ltb_irrefl in Hl.
    + by destruct Hl; rewrite (Hb x Hx).
Qed.

Lemma set_of_list_id (l : list K) : ssorted id l → set_of_list l = l.
Proof.
  intros Hl. destruct (set_of_list_spec l) as [H1 H2]. by apply ssorted_ext.
Qed.

Lemma includes_spec (l1 l2 : list K) :
  ssorted id l1 → ssorted id l2 → includes l1 l2 = true ↔ ∀ x, x ∈ l2 → x ∈ l1.
Proof.
  revert l2. induction l1 as [|a l1 IH]; intros [|b l2]; [set_solver..|].
  rewrite !ssorted_cons. intros [H1 Ha] [H2 Hb]. unfold id in Ha, Hb. cbn.
  destruct (ltb b a) eqn:E1; [|destruct (ltb a b) eqn:E2].
  - split; [done|]. intros Hs.
    assert (b ∈ a :: l1) as [->|Hin]%elem_of_cons by (apply Hs; set_solver).
    + by rewrite ltb_irrefl in E1.
    + apply Ha in Hin. by rewrite (ltb_asym _ _ Hin) in E1.
  - rewrite IH by (done || by apply ssorted_cons). split; [set_solver|].
    intros Hs x Hx. pose proof (Hs x Hx) as [->|?]%elem_of_cons; [|done].
    apply elem_of_cons in Hx as [->|Hx]; [by rewrite ltb_irrefl in E2|].
    apply Hb in Hx. by rewrite (ltb_asym _ _ Hx) in E2.
  - pose proof (ltb_total _ _ E1 E2) as ->. rewrite IH by done. split; [set_solver|].
    intros Hs x Hx. assert (x ∈ a :: l1) as [->|?]%elem_of_cons by (apply Hs; set_solver); [|done].
    apply Hb in Hx. by rewrite ltb_irrefl in Hx.
Qed.

Lemma ssorted_NoDup (l : list K) : ssorted id l → NoDup l.
Proof.
  induction l as [|a l IH]; [constructor|]. rewrite ssorted_cons. intros [Hl Ha].
  constructor; [|by apply IH]. intros Hin. apply Ha in Hin. unfold id in Hin.
  by rewrite ltb_irrefl in Hin.
Qed.
End oset.

Create HintDb seqdb.
#[export] Hint Resolve ssorted_nil ssorted_singleton seq_insert_sorted seq_put_sorted
  seq_erase_sorted : seqdb.

(** Side conditions of the lemmas above: the order instance and sortedness. *)
Ltac seq_side := solve [apply _ | done | eauto 10 with seqdb typeclass_instances].
