(* ===== verification/CppString.v ===== *)
(** * Text conversions of the C++ library

    [std::to_string], [std::stoull] and the [std::getline(.., ' ')] loop, as
    far as the policy and table code uses them. *)
From S2P Require Import Prelude.

(** [std::to_string(uint64_t)]. *)
Definition to_string (n : Z) : string := pretty (Z.to_N n).

Definition is_digit (c : Ascii.ascii) : bool :=
  let n := Ascii.N_of_ascii c in ((48 <=? n) && (n <=? 57))%N.
Definition digit_val (c : Ascii.ascii) : N := (Ascii.N_of_ascii c - 48)%N.
(** [isspace] in the "C" locale. *)
Definition is_space (c : Ascii.ascii) : bool :=
  let n := Ascii.N_of_ascii c in ((n =? 32) || ((9 <=? n) && (n <=? 13)))%N.

(** The digits at the head of a string, most significant first. *)
Fixpoint parse_digits (acc : N) (s : string) : N :=
  match s with
  | EmptyString => acc
  | String c s' => if is_digit c then parse_digits (10 * acc + digit_val c) s' else acc
  end.

Fixpoint skip_spaces (s : string) : string :=
  match s with
  | String c s' => if is_space c then skip_spaces s' else s
  | EmptyString => s
  end.

(** What [strtoull] and [strtol] read, base 10: leading white space and a sign
    are accepted, what follows the digits is ignored; no number makes the
    callers throw [std::invalid_argument]. *)
Definition scan_number (s : string) : outcome (bool * Z) :=
  let s1 := skip_spaces s in
  let '(neg, s2) := match s1 with
                    | String c s' => if (Ascii.N_of_ascii c =? 45)%N then (true, s')
                                     else if (Ascii.N_of_ascii c =? 43)%N then (false, s')
                                     else (false, s1)
                    | EmptyString => (false, s1)
                    end in
  match s2 with
  | String c _ => if is_digit c then Done (neg, Z.of_N (parse_digits 0 s2)) else Panic
  | EmptyString => Panic
  end.

(** [std::stoull(s)] and [std::stoi(s)]: a value that does not fit throws
    [std::out_of_range]; nothing in the callers catches the exceptions.  A
    minus sign negates modulo [2 ^ 64] in [stoull]. *)
Definition stoull (s : string) : outcome Z :=
  r ← scan_number s;
  let '(neg, v) := r in
  if v <? 2^64 then Done (if neg : bool then u64 (- v) else v) else Panic.
Definition stoi (s : string) : outcome Z :=
  r ← scan_number s;
  let '(neg, v) := r in
  let v := if neg : bool then - v else v in
  if (- 2^31 <=? v) && (v <? 2^31) then Done v else Panic.

(** The strings delivered by repeated [std::getline(iss, temp, d)]: a part
    ends at each delimiter; what follows the last one is a part only when it
    is not empty. *)
Fixpoint getline_from (d : Ascii.ascii) (cur s : string) : list string :=
  match s with
  | EmptyString => if decide (cur = "") then [] else [cur]
  | String c s' => if decide (c = d) then cur :: getline_from d "" s'
                   else getline_from d (cur +:+ String c "") s'
  end.
Definition getline_all (d : Ascii.ascii) (s : string) : list string := getline_from d "" s.

Definition space : Ascii.ascii := Ascii.Ascii false false false false false true false false.

(** Every character of [s] satisfies [p]. *)
Fixpoint all_chars (p : Ascii.ascii → bool) (s : string) : bool :=
  match s with EmptyString => true | String c s' => p c && all_chars p s' end.

Lemma string_app_cons c (a b : string) : String c a +:+ b = String c (a +:+ b).
Proof. done. Qed.
Lemma string_app_nil_l (b : string) : "" +:+ b = b.
Proof. done. Qed.
Lemma string_app_assoc (a b c : string) : (a +:+ b) +:+ c = a +:+ (b +:+ c).
Proof. induction a as [|x a IH]; [done|]. by rewrite !string_app_cons, IH. Qed.
Lemma string_app_nil_r (a : string) : a +:+ "" = a.
Proof. induction a as [|x a IH]; [done|]. by rewrite string_app_cons, IH. Qed.

Lemma all_chars_app p a b : all_chars p (a +:+ b) = all_chars p a && all_chars p b.
Proof.
  induction a as [|c a IH]; [done|]. rewrite string_app_cons. cbn. by rewrite IH, andb_assoc.
Qed.

Create HintDb strdb.
#[export] Hint Rewrite string_app_cons string_app_nil_l string_app_nil_r string_app_assoc : strdb.

(** ** Decimal printing *)

Lemma pretty_char_digit (x : N) :
  (x < 10)%N → is_digit (pretty_N_char x) = true ∧ digit_val (pretty_N_char x) = x.
Proof.
  intros Hx. unfold pretty_N_char, is_digit, digit_val.
  assert (x = 0 ∨ x = 1 ∨ x = 2 ∨ x = 3 ∨ x = 4 ∨ x = 5 ∨ x = 6 ∨ x = 7 ∨ x = 8 ∨ x = 9)%N
    as Hc by lia.
  by destruct Hc as [->|[->|[->|[->|[->|[->|[->|[->|[->| ->]]]]]]]]].
Qed.

Lemma pretty_go_spec (x : N) s :
  parse_digits 0 (pretty_N_go x s) = parse_digits x s ∧
  (all_chars is_digit s = true → all_chars is_digit (pretty_N_go x s) = true).
Proof.
  revert s. induction (N.lt_wf_0 x) as [x _ IH]; intros s.
  destruct (decide (0 < x)%N) as [Hx|Hx].
  - rewrite pretty_N_go_step by done.
    assert (x `div` 10 < x)%N as Hlt by (by apply N.div_lt).
    assert (x `mod` 10 < 10)%N as Hmod by (by apply N.mod_lt).
    destruct (pretty_char_digit _ Hmod) as [Hd Hv].
    destruct (IH _ Hlt (String (pretty_N_char (x `mod` 10)) s)) as [H1 H2]. split.
    + rewrite H1. cbn. rewrite Hd, Hv. f_equal. symmetry. by apply N.div_mod.
    + intros Hs. apply H2. cbn. by rewrite Hd, Hs.
  - assert (x = 0%N) as -> by lia. by rewrite pretty_N_go_0.
Qed.

Lemma pretty_N_spec (x : N) :
  parse_digits 0 (pretty x) = x ∧ all_chars is_digit (pretty x) = true ∧ pretty x ≠ "".
Proof.
  unfold pretty, pretty_N. destruct (decide (x = 0%N)) as [->|Hx]; [done|].
  destruct (pretty_go_spec x "") as [H1 H2]. cbn in *. split_and!; [done|auto|].
  intros He. rewrite He in H1. cbn in H1. congruence.
Qed.

Lemma digit_not_space c : is_digit c = true → is_space c = false.
Proof.
  unfold is_digit, is_space. rewrite andb_true_iff, !N.leb_le. intros [? ?].
  rewrite orb_false_iff, andb_false_iff, N.eqb_neq, !N.leb_gt. lia.
Qed.

(** Reading back a printed number. *)
Lemma scan_to_string n : 0 ≤ n → scan_number (to_string n) = Done (false, n).
Proof.
  intros Hn. destruct (pretty_N_spec (Z.to_N n)) as (Hp & Hd & He).
  unfold scan_number, to_string. destruct (pretty (Z.to_N n)) as [|c s]; [done|].
  cbn in Hd. apply andb_true_iff in Hd as [Hc _]. cbn [skip_spaces].
  rewrite digit_not_space by done.
  assert ((Ascii.N_of_ascii c =? 45)%N = false ∧ (Ascii.N_of_ascii c =? 43)%N = false) as [-> ->].
  { unfold is_digit in Hc. rewrite andb_true_iff, !N.leb_le in Hc. rewrite !N.eqb_neq. lia. }
  by rewrite Hc, Hp, Z2N.id by lia.
Qed.
Lemma stoull_to_string n : 0 ≤ n < 2^64 → stoull (to_string n) = Done n.
Proof.
  intros Hn. unfold stoull. rewrite scan_to_string by lia. cbn.
  by rewrite (proj2 (Z.ltb_lt _ _)) by lia.
Qed.
Lemma stoi_to_string n : 0 ≤ n < 2^31 → stoi (to_string n) = Done n.
Proof.
  intros Hn. unfold stoi. rewrite scan_to_string by lia. cbn.
  rewrite (proj2 (Z.leb_le _ _)), (proj2 (Z.ltb_lt _ _)) by lia. done.
Qed.

Lemma to_string_inj m n :
  0 ≤ m < 2^64 → 0 ≤ n < 2^64 → to_string m = to_string n → m = n.
Proof.
  intros Hm Hn He. apply (f_equal stoull) in He. rewrite !stoull_to_string in He by done.
  by simplify_eq.
Qed.

(** ** Splitting *)

(** [s] does not contain the character [d]. *)
Definition free_of (d : Ascii.ascii) (s : string) : bool :=
  all_chars (λ c, negb (bool_decide (c = d))) s.
Definition no_space (s : string) : bool := free_of space s.

Lemma getline_from_part d cur a rest :
  free_of d a = true →
  getline_from d cur (a +:+ String d rest) = (cur +:+ a) :: getline_from d "" rest.
Proof.
  revert cur. induction a as [|c a IH]; intros cur Ha; autorewrite with strdb; cbn.
  - by rewrite decide_True.
  - cbn in Ha. apply andb_true_iff in Ha as [Hc Ha].
    rewrite negb_true_iff, bool_decide_eq_false in Hc. rewrite decide_False by done.
    rewrite IH by done. by autorewrite with strdb.
Qed.

Lemma getline_from_last cur a :
  no_space a = true → cur +:+ a ≠ "" → getline_from space cur a = [cur +:+ a].
Proof.
  revert cur. induction a as [|c a IH]; intros cur Ha Hne; cbn.
  - autorewrite with strdb in *. by rewrite decide_False.
  - cbn in Ha. apply andb_true_iff in Ha as [Hc Ha].
    rewrite negb_true_iff, bool_decide_eq_false in Hc. rewrite decide_False by done.
    rewrite IH by (done || by autorewrite with strdb in * ). by autorewrite with strdb.
Qed.

(** [a ++ " " ++ b1 ++ " " ++ ...]. *)
Definition join_words (a : string) (bs : list string) : string :=
  foldl (λ acc b, acc +:+ String space b) a bs.

Lemma join_words_app a b bs :
  join_words (a +:+ String space b) bs = a +:+ String space (join_words b bs).
Proof.
  unfold join_words. revert b. induction bs as [|x bs IH]; intros b; cbn; [done|].
  autorewrite with strdb. apply IH.
Qed.

Lemma getline_join a bs :
  no_space a = true → a ≠ "" → Forall (λ b, no_space b = true ∧ b ≠ "") bs →
  getline_all space (join_words a bs) = a :: bs.
Proof.
  unfold getline_all. intros Ha Hne Hbs. revert a Ha Hne.
  induction Hbs as [|b bs [Hb Hbne] Hbs IH]; intros a Ha Hne.
  - by apply getline_from_last.
  - change (join_words a (b :: bs)) with (join_words (a +:+ String space b) bs).
    rewrite join_words_app, getline_from_part by done. f_equal. by apply IH.
Qed.

Lemma all_chars_impl p q s :
  (∀ c, p c = true → q c = true) → all_chars p s = true → all_chars q s = true.
Proof. intros Hpq. induction s as [|c s IH]; cbn; [done|]. rewrite !andb_true_iff. naive_solver. Qed.

(** A printed number contains no delimiter that is not a digit. *)
Lemma to_string_free d n : is_digit d = false → free_of d (to_string n) = true.
Proof.
  intros Hd. destruct (pretty_N_spec (Z.to_N n)) as (_ & Hs & _). unfold to_string, free_of.
  eapply all_chars_impl; [|done]. intros c Hc. cbn. rewrite negb_true_iff, bool_decide_eq_false.
  congruence.
Qed.

Lemma to_string_word n : no_space (to_string n) = true ∧ to_string n ≠ "".
Proof.
  destruct (pretty_N_spec (Z.to_N n)) as (_ & _ & He). split; [|done]. by apply to_string_free.
Qed.

(** A text of lines, each ended by the delimiter, splits into its lines. *)
Fixpoint unlines (d : Ascii.ascii) (ls : list string) : string :=
  match ls with [] => "" | l :: ls' => l +:+ String d (unlines d ls') end.

Lemma getline_unlines d ls :
  Forall (λ l, free_of d l = true) ls → getline_all d (unlines d ls) = ls.
Proof.
  unfold getline_all. induction 1 as [|l ls Hl Hls IH]; [done|]. cbn.
  rewrite getline_from_part, IH by done. done.
Qed.
