(* ===== verification/Timestamp.v ===== *)
(** * Timestamps

    [class Timestamp] of src/src/store/common/timestamp.h and timestamp.cc: a
    pair of 64-bit words, the clock value and the client id that breaks
    ties.  Every ordered container of the server is sorted by
    [operator<]. *)
From S2P Require Import Prelude.

Record Timestamp := mkTs { timestamp : Z; ts_id : Z }.

#[export] Instance Timestamp_eq_dec : EqDecision Timestamp.
Proof. solve_decision. Defined.
#[export] Instance Timestamp_countable : Countable Timestamp.
Proof.
  refine (inj_countable' (λ t, (timestamp t, ts_id t)) (λ p, mkTs p.1 p.2) _).
  by intros [].
Defined.

(** [Timestamp()]. *)
Definition ts_zero : Timestamp := mkTs 0 0.
(** [Timestamp(uint64_t t)]. *)
Definition ts_of_time (t : Z) : Timestamp := mkTs t 0.

Definition ts_eq (a t : Timestamp) : bool :=
  (timestamp a =? timestamp t) && (ts_id a =? ts_id t).
Definition ts_ne (a t : Timestamp) : bool :=
  negb (timestamp a =? timestamp t) || negb (ts_id a =? ts_id t).
Definition ts_gt (a t : Timestamp) : bool :=
  if timestamp a =? timestamp t then ts_id a >? ts_id t else timestamp a >? timestamp t.
Definition ts_lt (a t : Timestamp) : bool :=
  if timestamp a =? timestamp t then ts_id a <? ts_id t else timestamp a <? timestamp t.
Definition ts_ge (a t : Timestamp) : bool :=
  if timestamp a =? timestamp t then ts_id a >=? ts_id t else timestamp a >=? timestamp t.
Definition ts_le (a t : Timestamp) : bool :=
  if timestamp a =? timestamp t then ts_id a <=? ts_id t else timestamp a <=? timestamp t.
Definition isValid (a : Timestamp) : bool := (timestamp a >? 0) && (ts_id a >? 0).
Definition setTimestamp (t : Z) (a : Timestamp) : Timestamp := mkTs t (ts_id a).

(** [message TimestampMessage], and the two conversions. *)
Record TimestampMessage := mkTsMsg { tm_timestamp : Z; tm_id : Z }.
Definition serialize (a : Timestamp) : TimestampMessage := mkTsMsg (timestamp a) (ts_id a).
Definition of_message (msg : TimestampMessage) : Timestamp :=
  mkTs (tm_timestamp msg) (tm_id msg).

#[export] Instance Timestamp_Ltb : Ltb Timestamp := ts_lt.

Ltac ts_unfold :=
  unfold ltb, Timestamp_Ltb, ts_eq, ts_ne, ts_gt, ts_lt, ts_ge, ts_le in *.

(** Case analysis on every comparison of the goal and the context. *)
Ltac ts_solve :=
  ts_unfold;
  repeat match goal with
  | t : Timestamp |- _ => destruct t
  end; cbn [timestamp ts_id] in *;
  repeat match goal with
  | H : context [if ?b then _ else _] |- _ => destruct b eqn:?
  | |- context [if ?b then _ else _] => destruct b eqn:?
  end;
  try (f_equal; lia); try lia.

#[export] Instance Timestamp_StrictTotal : StrictTotal Timestamp.
Proof. split; intros; ts_solve. Qed.

(** The six operators describe one order: [>] is [<] flipped, [<=] and [>=]
    are the negations of [>] and [<], [==] is equality of the two words. *)
Lemma ts_gt_lt a b : ts_gt a b = ts_lt b a.
Proof. ts_solve. Qed.
Lemma ts_le_lt a b : ts_le a b = negb (ts_lt b a).
Proof. ts_solve. Qed.
Lemma ts_ge_lt a b : ts_ge a b = negb (ts_lt a b).
Proof. ts_solve. Qed.
Lemma ts_eq_spec a b : ts_eq a b = true ↔ a = b.
Proof.
  split; [intros; ts_solve|intros ->; ts_solve].
Qed.
Lemma ts_ne_eq a b : ts_ne a b = negb (ts_eq a b).
Proof. ts_solve. Qed.

Create HintDb tsdb.
#[export] Hint Rewrite ts_gt_lt ts_le_lt ts_ge_lt ts_ne_eq : tsdb.

(** C40: [Timestamp]'s operators define one strict total order: [operator<] is
    irreflexive, transitive and total, and the other five operators are the
    relations it determines.  The ordered containers keyed by timestamps
    rely on it. *)
Theorem timestamp_order_total :
  (∀ a, ts_lt a a = false) ∧
  (∀ a b c, ts_lt a b = true → ts_lt b c = true → ts_lt a c = true) ∧
  (∀ a b, ts_lt a b = true ∨ ts_eq a b = true ∨ ts_gt a b = true) ∧
  (∀ a b, ts_gt a b = ts_lt b a ∧ ts_le a b = negb (ts_gt a b) ∧
          ts_ge a b = negb (ts_lt a b) ∧ ts_ne a b = negb (ts_eq a b)) ∧
  (∀ a b, ts_eq a b = true ↔ a = b).
Proof.
  split_and!.
  - apply ltb_irrefl.
  - apply ltb_trans.
  - intros a b. rewrite ts_eq_spec, ts_gt_lt. apply ltb_trichotomy.
  - intros a b. autorewrite with tsdb. done.
  - apply ts_eq_spec.
Qed.

(** A timestamp survives its message form. *)
Lemma of_message_serialize a : of_message (serialize a) = a.
Proof. by destruct a. Qed.
