(* ===== verification/VersionStore.v ===== *)
(** * Versioned key-value store

    [VersionedKVStoreGeneric<K, T, V>] of
    src/src/store/common/backend/versionstore_generic_safe.h (the same code as
    versionstore_safe.h with a generic key type): for every key the set of
    committed versions ordered by write timestamp, and for every key a map
    from a version to the latest committed read of it.  The server keeps one
    for the data ([store]) and one for the policies ([policyStore]). *)
From S2P Require Import Prelude OrderedSeq.

Section store.
Context {K : Type} `{!EqDecision K, !Countable K}.
Context {T V : Type} `{!Ltb T}.

(** A [std::set<VersionedValue>] and a [std::map<T, T>]. *)
Notation versions := (list (T * V)).
Notation reads := (list (T * T)).

Record vstore := mkVStore { vs_store : gmap K versions; vs_lastReads : gmap K reads }.

Definition vs_empty : vstore := mkVStore ∅ ∅.

Implicit Types (s : vstore) (key : K) (t : T).

Definition inStore s key : bool :=
  match vs_store s !! key with
  | Some vs => negb (bool_decide (length vs = 0%nat))
  | None => false
  end.

(** [getValue]: the iterator at the last version not above [t], as the
    element it points to and the versions after it; [None] is [end()]. *)
Definition getValue s key t : option ((T * V) * versions) :=
  match vs_store s !! key with
  | Some vs => let b := upper_bound fst t vs in
               match last b.1 with
               | Some e => Some (e, b.2)
               | None => None
               end
  | None => None
  end.

(** [get(key, value)]: the most recent version. *)
Definition get_latest s key : option (T * V) :=
  if inStore s key then
    match vs_store s !! key with Some vs => last vs | None => None end
  else None.

(** [get(key, t, value)]: the version valid at [t]. *)
Definition get s key t : option (T * V) :=
  if inStore s key then fst <$> getValue s key t else None.

(** [getRange(key, t, range)]; [range] keeps its second component when
    there is no later version. *)
Definition getRange s key t (range : T * T) : option (T * T) :=
  if inStore s key then
    match getValue s key t with
    | Some (e, next :: _) => Some (e.1, next.1)
    | Some (e, []) => Some (e.1, range.2)
    | None => None
    end
  else None.

(** [getUpperBound(key, t, result)]; creates the entry of [key]. *)
Definition getUpperBound s key t : vstore * option T :=
  let vs := default [] (vs_store s !! key) in
  (mkVStore (<[key := vs]> (vs_store s)) (vs_lastReads s),
   fst <$> head (upper_bound fst t vs).2).

(** [put(key, value, t)]. *)
Definition put s key (v : V) t : vstore :=
  let vs := default [] (vs_store s !! key) in
  mkVStore (<[key := seq_insert fst (t, v) vs]> (vs_store s)) (vs_lastReads s).

(** [commitGet(key, readTime, commit)]. *)
Definition commitGet s key (readTime commit : T) : vstore :=
  if inStore s key then
    match getValue s key readTime with
    | Some (e, _) =>
        match vs_lastReads s !! key with
        | Some b =>
            match seq_find fst e.1 b with
            | Some r => if ltb r.2 commit
                        then mkVStore (vs_store s)
                               (<[key := seq_put fst (e.1, commit) b]> (vs_lastReads s))
                        else s
            | None => s
            end
        | None => s
        end
    | None => s
    end
  else s.

(** [getLastRead(key, lastRead)]. *)
Definition getLastRead_latest s key : option T :=
  if inStore s key then
    match (match vs_store s !! key with Some vs => last vs | None => None end),
          vs_lastReads s !! key with
    | Some v, Some b => snd <$> seq_find fst v.1 b
    | _, _ => None
    end
  else None.

(** [getLastRead(key, t, lastRead)]; when the key has recorded reads the
    code dereferences the iterator without testing it, which is undefined at
    [end()]. *)
Definition getLastRead s key t : outcome (option T) :=
  if inStore s key then
    match vs_lastReads s !! key with
    | Some b => match getValue s key t with
                | Some (e, _) => Done (snd <$> seq_find fst e.1 b)
                | None => Panic
                end
    | None => Done None
    end
  else Done None.

(** [getCommittedAfter(key, t, values)]; [values] is appended to. *)
Definition getCommittedAfter s key t (values : versions) : bool * versions :=
  match vs_store s !! key with
  | Some vs => (true, values ++ (upper_bound fst t vs).2)
  | None => (false, values)
  end.

(** [getPreceedingCommit(key, t, value)]: the last version before [t]. *)
Definition getPreceedingCommit s key t : option (T * V) :=
  match vs_store s !! key with
  | Some vs => last (lower_bound fst t vs).1
  | None => None
  end.

(** ** Specification: the versions of a key *)

Definition versions_of s key : versions := default [] (vs_store s !! key).

Definition vs_wf s : Prop :=
  (∀ key vs, vs_store s !! key = Some vs → ssorted fst vs) ∧
  (∀ key rs, vs_lastReads s !! key = Some rs → ssorted fst rs).

(** The steps that change the store. *)
Inductive vstep : vstore → vstore → Prop :=
| vstep_put s key v t : vstep s (put s key v t)
| vstep_upper s key t : vstep s (getUpperBound s key t).1
| vstep_commitGet s key r c : vstep s (commitGet s key r c).

Definition vs_reachable : vstore → Prop := rtc vstep vs_empty.
End store.
Arguments vstore K {_ _} T V.

(** ** Lemmas *)

Section lemmas.
Context {K : Type} `{!EqDecision K, !Countable K}.
Context {T V : Type} `{!Ltb T, !StrictTotal T}.
Implicit Types (s : vstore K T V) (key : K) (t w : T) (v : V).

Lemma versions_of_put s key v t key' :
  versions_of (put s key v t) key' =
    if decide (key = key') then seq_insert fst (t, v) (versions_of s key)
    else versions_of s key'.
Proof. unfold versions_of, put; cbn. rewrite lookup_insert. by case_decide. Qed.

Lemma versions_of_upper s key t key' :
  versions_of (getUpperBound s key t).1 key' = versions_of s key'.
Proof.
  unfold versions_of, getUpperBound; cbn. rewrite lookup_insert.
  case_decide; [by subst|done].
Qed.

Lemma vs_store_commitGet s key r c : vs_store (commitGet s key r c) = vs_store s.
Proof. unfold commitGet. by repeat case_match. Qed.

Lemma versions_of_commitGet s key r c key' :
  versions_of (commitGet s key r c) key' = versions_of s key'.
Proof. unfold versions_of. by rewrite vs_store_commitGet. Qed.

Lemma versions_of_sorted s key : vs_wf s → ssorted fst (versions_of s key).
Proof.
  intros [Hs _]. unfold versions_of. destruct (vs_store s !! key) eqn:E; cbn; eauto with seqdb.
Qed.

Lemma vs_wf_empty : vs_wf (vs_empty : vstore K T V).
Proof. split; intros ??; cbn; rewrite lookup_empty; done. Qed.

Lemma vs_wf_insert s key vs :
  vs_wf s → ssorted fst vs → vs_wf (mkVStore (<[key := vs]> (vs_store s)) (vs_lastReads s)).
Proof.
  intros [H1 H2] Hvs. split; cbn; [|done]. intros k ws. rewrite lookup_insert.
  case_decide; intros; simplify_eq; eauto.
Qed.

Lemma vs_wf_put s key v t : vs_wf s → vs_wf (put s key v t).
Proof.
  intros Hs. apply vs_wf_insert; [done|].
  apply seq_insert_sorted; [done|]. by apply versions_of_sorted.
Qed.

Lemma vs_wf_upper s key t : vs_wf s → vs_wf (getUpperBound s key t).1.
Proof. intros Hs. apply vs_wf_insert; [done|]. by apply versions_of_sorted. Qed.

Lemma vs_wf_commitGet s key r c : vs_wf s → vs_wf (commitGet s key r c).
Proof.
  intros [H1 H2]. split; [by rewrite vs_store_commitGet|].
  unfold commitGet. repeat case_match; try done. intros k rs; cbn. rewrite lookup_insert.
  case_decide; intros; simplify_eq; eauto with seqdb.
Qed.

(** What the iterator of [getValue] points to. *)
Lemma getValue_versions s key t :
  getValue s key t =
    match last (upper_bound fst t (versions_of s key)).1 with
    | Some e => Some (e, (upper_bound fst t (versions_of s key)).2)
    | None => None
    end.
Proof. unfold getValue, versions_of. by destruct (vs_store s !! key). Qed.

Lemma inStore_versions s key : inStore s key = negb (bool_decide (length (versions_of s key) = 0%nat)).
Proof. unfold inStore, versions_of. by destruct (vs_store s !! key). Qed.

Lemma get_versions s key t :
  get s key t = last (upper_bound fst t (versions_of s key)).1.
Proof.
  unfold get. rewrite inStore_versions, getValue_versions.
  destruct (versions_of s key) as [|e l]; [done|]. cbn [length negb bool_decide].
  rewrite bool_decide_eq_false_2 by done. cbn [negb].
  by destruct (last _).
Qed.

Lemma getPreceedingCommit_versions s key t :
  getPreceedingCommit s key t = last (lower_bound fst t (versions_of s key)).1.
Proof. unfold getPreceedingCommit, versions_of. by destruct (vs_store s !! key). Qed.

(** [last] of a filtered prefix, in the terms of the specification. *)
Lemma last_prefix_spec (l a b : list (T * V)) (P : T * V → Prop) :
  ssorted fst l → l = a ++ b →
  (∀ x, x ∈ a → P x) → (∀ x, x ∈ b → ¬ P x) →
  (∀ e, last a = Some e ↔
     e ∈ l ∧ P e ∧ ∀ x, x ∈ l → P x → x = e ∨ ltb x.1 e.1 = true) ∧
  (last a = None ↔ ∀ x, x ∈ l → ¬ P x).
Proof.
  intros Hs -> Ha Hb. apply ssorted_app in Hs as (Hsa & Hsb & Hab); [|done].
  assert (∀ e, last a = Some e → e ∈ a) as Hin.
  { intros e He. apply last_Some in He as [? ->]. set_solver. }
  split; [intros e; split|split].
  - intros He. split_and!; [|by apply Ha, Hin|].
    { apply elem_of_app. left. by apply Hin. }
    intros x [Hx|Hx]%elem_of_app HP; [|by destruct (Hb x Hx)].
    by apply (ssorted_last fst a e x Hsa He Hx).
  - intros ([He|He]%elem_of_app & HP & Hmax); [|by destruct (Hb e He)].
    destruct (last a) as [e'|] eqn:E; [|apply last_None in E; subst; set_solver].
    destruct (Hmax e') as [->|Hlt]; [apply elem_of_app; eauto|auto|done|].
    destruct (ssorted_last fst _ _ _ Hsa E He) as [->|Hlt']; [done|].
    by rewrite (ltb_asym _ _ Hlt) in Hlt'.
  - intros Hn x [Hx|Hx]%elem_of_app; [|by apply Hb]. apply last_None in Hn. subst. set_solver.
  - intros Hn. destruct (last a) as [e|] eqn:E; [|done].
    destruct (Hn e); [apply elem_of_app; eauto|auto].
Qed.
End lemmas.

(** ** Abstract specification

    A multi-version store is a function from keys and write timestamps to
    values; a write to an occupied slot is ignored, and a read asks for the
    largest occupied timestamp of a window. *)
Section spec.
Context {K : Type} `{!EqDecision K, !Countable K}.
Context {T V : Type} `{!Ltb T, !StrictTotal T}.
Implicit Types (s : vstore K T V) (key : K) (t w : T) (v : V).

Definition mvspec : Type := K → T → option V.

Definition spec_put (f : mvspec) key v t : mvspec :=
  λ k' t', if decide (key = k') then
             if negb (ltb t t') && negb (ltb t' t)
             then Some (default v (f key t)) else f k' t'
           else f k' t'.

Definition spec_latest (f : mvspec) key (window : T → bool) (e : T * V) : Prop :=
  f key e.1 = Some e.2 ∧ window e.1 = true ∧
  ∀ w v, f key w = Some v → window w = true → ltb e.1 w = false.

Definition abs s : mvspec := λ key t, snd <$> seq_find fst t (versions_of s key).

Lemma abs_Some s key t v : vs_wf s → abs s key t = Some v ↔ (t, v) ∈ versions_of s key.
Proof.
  intros Hs. pose proof (versions_of_sorted s key Hs) as Hsort.
  unfold abs. rewrite fmap_Some. split.
  - intros ([t' v'] & Hf & ->). apply seq_find_Some in Hf as [? <-]; [done..].
  - intros Hin. exists (t, v). split; [|done]. by apply seq_find_Some.
Qed.

Lemma abs_put s key v t k' t' :
  vs_wf s → abs (put s key v t) k' t' = spec_put (abs s) key v t k' t'.
Proof.
  intros Hs. pose proof (versions_of_sorted s key Hs) as Hsort.
  apply option_eq. intros x. rewrite abs_Some by by apply vs_wf_put.
  rewrite versions_of_put. unfold spec_put. case_decide; subst; [|by rewrite abs_Some].
  rewrite elem_of_seq_insert by done. cbn [fst].
  destruct (negb (ltb t t') && negb (ltb t' t)) eqn:E.
  - assert (t = t') as <- by (rewrite andb_true_iff, !negb_true_iff in E; destruct E; by apply ltb_total).
    unfold abs at 1. destruct (seq_find fst t (versions_of s k')) as [[t1 v1]|] eqn:F; cbn.
    + apply seq_find_Some in F as [F ?]; [|done..]; cbn in *; subst. split.
      * intros [Hx|[]]; [|done]. f_equal.
        by pose proof (ssorted_inj fst _ _ _ Hsort F Hx eq_refl) as [=].
      * intros [= ->]. by left.
    + pose proof (proj1 (seq_find_None fst _ _ Hsort) F) as F'. split.
      * intros [Hx|[[=] _]]; [by destruct (F' _ Hx)|by subst].
      * intros [= ->]. by right.
  - rewrite abs_Some by done. split; [|by left].
    intros [?|[[= -> ->] _]]; [done|]. by rewrite ltb_irrefl in E.
Qed.

Lemma spec_latest_versions s key (w : T → bool) e :
  vs_wf s →
  (e ∈ versions_of s key ∧ w e.1 = true ∧
   ∀ x, x ∈ versions_of s key → w x.1 = true → x = e ∨ ltb x.1 e.1 = true) ↔
  spec_latest (abs s) key w e.
Proof.
  intros Hs. pose proof (versions_of_sorted s key Hs) as Hsort.
  unfold spec_latest. rewrite abs_Some by done. destruct e as [t v]; cbn.
  split; intros (Hin & Hw & Hmax); (split_and!; [done..|]).
  - intros t' v' Hx%abs_Some Hw'; [|done]. destruct (Hmax (t', v') Hx Hw') as [[= -> ->]|Hlt].
    + apply ltb_irrefl.
    + by apply ltb_asym.
  - intros [t' v'] Hx Hw'; cbn in *.
    destruct (ltb_trichotomy t' t) as [?|[->|Hlt]]; [by right|left|].
    + by apply (ssorted_inj fst _ _ _ Hsort Hx Hin).
    + apply abs_Some in Hx; [|done]. by rewrite (Hmax _ _ Hx Hw') in Hlt.
Qed.

(** A window closed downwards selects a prefix; its last element is the
    latest version of the window. *)
Lemma latest_of_split s key (w : T → bool) a b e :
  vs_wf s → versions_of s key = a ++ b →
  (∀ x, x ∈ a → w x.1 = true) → (∀ x, x ∈ b → w x.1 = false) →
  last a = Some e ↔ spec_latest (abs s) key w e.
Proof.
  intros Hs Hab Ha Hb. rewrite <- (spec_latest_versions s key w e Hs).
  apply (proj1 (last_prefix_spec (versions_of s key) a b (λ x, w x.1 = true)
                  (versions_of_sorted s key Hs) Hab Ha
                  (λ x Hx, proj2 (not_true_iff_false _) (Hb x Hx)))).
Qed.

(** C34: the store implements the abstract multi-version map.  A [put]
    occupies a free version and leaves every other version of every key
    alone (a second [put] at one timestamp is ignored); [get(key, t)] returns
    the latest version not above [t], [get(key)] the latest version, and
    [getPreceedingCommit(key, t)], which the concurrency control uses, the
    latest version strictly below [t]. *)
Theorem version_store_refines s key :
  vs_wf s →
  (∀ v t k' t', abs (put s key v t) k' t' = spec_put (abs s) key v t k' t') ∧
  (∀ t e, get s key t = Some e ↔ spec_latest (abs s) key (λ w, negb (ltb t w)) e) ∧
  (∀ e, get_latest s key = Some e ↔ spec_latest (abs s) key (λ _, true) e) ∧
  (∀ t e, getPreceedingCommit s key t = Some e ↔ spec_latest (abs s) key (λ w, ltb w t) e).
Proof.
  intros Hs. pose proof (versions_of_sorted s key Hs) as Hsort. split_and!.
  - intros. by apply abs_put.
  - intros t e. rewrite get_versions. eapply latest_of_split; [done|apply upper_bound_app| |].
    + intros x Hx. by rewrite (upper_bound_before fst _ _ _ Hx).
    + intros x Hx. by rewrite (upper_bound_after fst _ _ _ Hsort Hx).
  - intros e. assert (get_latest s key = last (versions_of s key)) as ->.
    { unfold get_latest. rewrite inStore_versions. unfold versions_of.
      destruct (vs_store s !! key) as [[|]|]; done. }
    eapply (latest_of_split _ _ _ _ []); [done|by rewrite app_nil_r|done|set_solver].
  - intros t e. rewrite getPreceedingCommit_versions.
    eapply latest_of_split; [done|apply lower_bound_app| |].
    + intros x Hx. by apply (lower_bound_before fst _ _ _ Hx).
    + intros x Hx. by apply (lower_bound_after fst _ _ _ Hsort Hx).
Qed.

(** every store reached from the empty one by [put], [getUpperBound] and
    [commitGet] keeps its version and read sets strictly sorted, and never
    records a read: [commitGet] updates an entry of [lastReads] but nothing
    creates one, so both forms of [getLastRead] find nothing and the
    unchecked iterator is never dereferenced. *)
Theorem reachable_store_records_no_reads s :
  vs_reachable s →
  vs_wf s ∧ vs_lastReads s = ∅ ∧
  ∀ key, getLastRead_latest s key = None ∧ ∀ t, getLastRead s key t = Done None.
Proof.
  intros Hr. assert (vs_wf s ∧ vs_lastReads s = ∅) as [Hwf He].
  { revert s Hr. apply (rtc_ind_r (λ s, vs_wf s ∧ vs_lastReads s = ∅)).
    { split; [apply vs_wf_empty|done]. }
    intros s1 s2 _ Hstep [Hwf He]. destruct Hstep as [s key v t|s key t|s key r c].
    - split; [by apply vs_wf_put|done].
    - split; [by apply vs_wf_upper|done].
    - split; [by apply vs_wf_commitGet|]. unfold commitGet. rewrite He.
      by repeat case_match. }
  split_and!; [done..|]. intros key. unfold getLastRead_latest, getLastRead.
  rewrite He, lookup_empty. split; [by repeat case_match|]. intros t. by case_match.
Qed.

(** [getRange] returns the version valid at [t] and, when there is one,
    the version that ends its validity: the smallest version above [t].
    [getCommittedAfter] appends exactly the versions above [t], and
    [getUpperBound] returns the first of them without changing the versions
    of any key. *)
Theorem range_is_validity_interval s key t r0 :
  vs_wf s →
  (∀ r, getRange s key t r0 = Some r →
    ∃ v, get s key t = Some (r.1, v) ∧
    ((∃ v', (r.2, v') ∈ versions_of s key ∧ ltb t r.2 = true ∧
        ∀ x, x ∈ versions_of s key → ltb t x.1 = true → ltb x.1 r.2 = false) ∨
     (r.2 = r0.2 ∧ ∀ x, x ∈ versions_of s key → ltb t x.1 = false))) ∧
  (∀ x, x ∈ (getCommittedAfter s key t []).2 ↔ x ∈ versions_of s key ∧ ltb t x.1 = true) ∧
  (∀ key', versions_of (getUpperBound s key t).1 key' = versions_of s key') ∧
  (getUpperBound s key t).2 = fst <$> head (getCommittedAfter s key t []).2.
Proof.
  intros Hs. pose proof (versions_of_sorted s key Hs) as Hsort.
  pose proof (upper_bound_app fst t (versions_of s key)) as Happ.
  assert (∀ x, x ∈ (upper_bound fst t (versions_of s key)).2 ↔
            x ∈ versions_of s key ∧ ltb t x.1 = true) as Hafter.
  { intros x. split.
    - intros Hx. split; [rewrite Happ; set_solver|by apply (upper_bound_after fst _ _ _ Hsort Hx)].
    - intros [Hx Hlt]. rewrite Happ in Hx. apply elem_of_app in Hx as [Hx|Hx]; [|done].
      by rewrite (upper_bound_before fst _ _ _ Hx) in Hlt. }
  split_and!.
  - intros r. unfold getRange. rewrite inStore_versions, getValue_versions, get_versions.
    destruct (negb _); [|done].
    destruct (last (upper_bound fst t (versions_of s key)).1) as [[w v]|] eqn:E; [|done].
    destruct (upper_bound fst t (versions_of s key)).2 as [|[w' v'] l] eqn:E2; intros [= <-];
      exists v; (split; [done|]).
    + right. split; [done|]. intros x Hx. destruct (ltb t x.1) eqn:Ex; [|done].
      assert (x ∈ ([] : list (T * V))) as H by (by apply Hafter). set_solver.
    + left. exists v'. cbn. destruct (proj1 (Hafter (w', v'))) as [? ?]; [set_solver|].
      split_and!; [done..|]. intros x Hx Hlt.
      pose proof (proj2 (Hafter x) (conj Hx Hlt)) as Hin.
      rewrite Happ in Hsort. apply ssorted_app in Hsort as (_ & Hsort & _); [|done].
      apply ssorted_cons in Hsort as [_ Hh]. apply elem_of_cons in Hin as [->|Hin].
      * apply ltb_irrefl.
      * by apply ltb_asym, (Hh x).
  - intros x. rewrite <- Hafter. unfold getCommittedAfter, versions_of.
    by destruct (vs_store s !! key).
  - apply versions_of_upper.
  - unfold getUpperBound, getCommittedAfter. by destruct (vs_store s !! key).
Qed.
End spec.

(** ** Concrete instances *)

Definition demo_store : vstore string Z Z :=
  put (put (put vs_empty "x" 7 10) "x" 8 20) "x" 9 20.

Lemma demo_store_wf : vs_wf demo_store.
Proof. repeat apply vs_wf_put. apply vs_wf_empty. Qed.

Lemma version_store_refines_witness :
  get demo_store "x" 15 = Some (10, 7) ∧ getPreceedingCommit demo_store "x" 20 = Some (10, 7) ∧
  spec_latest (abs demo_store) "x" (λ w, negb (ltb 15 w)) (10, 7).
Proof.
  split; [vm_compute; reflexivity|]. split; [vm_compute; reflexivity|].
  apply (version_store_refines demo_store "x" demo_store_wf). vm_compute; reflexivity.
Defined.

Lemma reachable_store_records_no_reads_witness :
  getLastRead (commitGet demo_store "x" 15 30) "x" 15 = Done None.
Proof.
  apply (reachable_store_records_no_reads (commitGet demo_store "x" 15 30)).
  unfold vs_reachable, demo_store. eapply rtc_r; [|apply vstep_commitGet].
  do 3 (eapply rtc_r; [|apply vstep_put]). apply rtc_refl.
Defined.

Lemma range_is_validity_interval_witness :
  getRange demo_store "x" 15 (0, 0) = Some (10, 20) ∧
  ∃ v, get demo_store "x" 15 = Some (10, v).
Proof.
  split; [vm_compute; reflexivity|].
  destruct (range_is_validity_interval demo_store "x" 15 (0, 0) demo_store_wf) as [H _].
  destruct (H (10, 20) eq_refl) as (v & Hv & _). by exists v.
Defined.
