(* ===== verification/Policy.v ===== *)
(** * Endorsement policies

    src/src/store/common/policy: the abstract class [Policy] with its three
    implementations [WeightPolicy], [ANDPolicy] and [ORPolicy], the
    [PolicyClient] that accumulates the policy of a transaction, policy ids,
    the text and message forms, and the [PolicyCache].

    A [std::set<uint64_t>] of client ids is a sorted list of integers. *)
From S2P Require Import Prelude OrderedSeq CppString Timestamp.

Notation cids := (list Z).

(** policy_types.h. *)
Inductive PolicyType := POLICY_TYPE_WEIGHT | POLICY_TYPE_AND | POLICY_TYPE_OR.

#[export] Instance PolicyType_eq_dec : EqDecision PolicyType.
Proof. solve_decision. Defined.

Definition GetPolicyTypeName (t : PolicyType) : string :=
  match t with
  | POLICY_TYPE_WEIGHT => "weight"
  | POLICY_TYPE_AND => "and"
  | POLICY_TYPE_OR => "or"
  end.

Definition GetPolicyTypeEnum (name : string) : outcome PolicyType :=
  if decide (name = "weight") then Done POLICY_TYPE_WEIGHT
  else if decide (name = "and") then Done POLICY_TYPE_AND
  else if decide (name = "or") then Done POLICY_TYPE_OR
  else Panic.

(** ** WeightPolicy (weight_policy.cc) *)
Module Weight.
(** The object is its [weight] field. *)
Definition eq (p other : Z) : bool := p =? other.
Definition ne (p other : Z) : bool := negb (eq p other).
Definition lt (p other : Z) : bool := p <? other.
Definition gt (p other : Z) : bool := negb (lt other p).
Definition le (p other : Z) : bool := lt p other || eq p other.
Definition ge (p other : Z) : bool := le other p.

Definition IsSatisfied (p : Z) (endorsements : cids) : bool :=
  Z.of_nat (length endorsements) >=? p.
(** [size_t] minus [uint64_t], returned as an [int]. *)
Definition IsSatisfiedInt (p : Z) (endorsements : cids) : Z :=
  int32 (u64 (Z.of_nat (length endorsements) - p)).
Definition MergePolicy (p other : Z) : Z := if other >? p then other else p.
Definition DifferenceToSatisfied (p : Z) (potentialEndorsements : cids) : list Z :=
  let diff := int32 (u64 (p - Z.of_nat (length potentialEndorsements))) in
  if diff <=? 0 then [] else replicate (Z.to_nat diff) (-1).
Definition IsImpliedBy (p other : Z) : bool := ge other p.
Definition Reset (p : Z) : Z := 0.
Definition ToString (p : Z) : string :=
  GetPolicyTypeName POLICY_TYPE_WEIGHT +:+ " " +:+ to_string p.
End Weight.

(** The [" " + std::to_string(client_id)] suffixes of [ToString]. *)
Definition append_ids (s : string) (ids : cids) : string :=
  foldl (λ ret c, ret +:+ " " +:+ to_string c) s ids.

(** ** ANDPolicy (and_policy.cc) *)
Module AND.
Definition eq (p other : cids) : bool := bool_decide (p = other).
Definition ne (p other : cids) : bool := negb (eq p other).
Definition le (p other : cids) : bool := includes other p.
Definition lt (p other : cids) : bool := le p other && ne p other.
Definition gt (p other : cids) : bool := lt other p.
Definition ge (p other : cids) : bool := le other p.

Definition IsSatisfied (p : cids) (endorsements : cids) : bool := includes endorsements p.
Definition IsSatisfiedInt (p : cids) (endorsements : cids) : Z :=
  if negb (includes endorsements p) then -1
  else if bool_decide (length endorsements = length p) then 0 else 1.
Definition MergePolicy (p other : cids) : cids := set_union p other.
(** A missing [uint64_t] id is pushed as an [int]. *)
Definition DifferenceToSatisfied (p : cids) (potentialEndorsements : cids) : list Z :=
  foldl (λ ret c, if seq_mem id c potentialEndorsements then ret else ret ++ [int32 c]) [] p.
Definition IsImpliedBy (p other : cids) : bool := ge other p.
Definition Reset (p : cids) : cids := [].
Definition ToString (p : cids) : string := append_ids (GetPolicyTypeName POLICY_TYPE_AND) p.
End AND.

(** ** ORPolicy (or_policy.cc) *)
Module OR.
Definition eq (p other : cids) : bool := bool_decide (p = other).
Definition ne (p other : cids) : bool := negb (eq p other).
Definition le (p other : cids) : bool := includes p other.
Definition lt (p other : cids) : bool := le p other && ne p other.
Definition gt (p other : cids) : bool := lt other p.
Definition ge (p other : cids) : bool := le other p.

Definition IsSatisfied (p : cids) (endorsements : cids) : bool :=
  bool_decide (length p = 0%nat) ||
  existsb (λ c, seq_mem id c endorsements) p.

(** The loop over the endorsers with its two flags and early return. *)
Fixpoint IsSatisfiedInt_loop (p : cids) (satisfied extra : bool) (endorsements : cids) : Z :=
  match endorsements with
  | [] => if negb satisfied then -1 else 0
  | e :: es =>
      let satisfied' := if seq_mem id e p then true else satisfied in
      let extra' := if seq_mem id e p then extra else true in
      if satisfied' && extra' then 1 else IsSatisfiedInt_loop p satisfied' extra' es
  end.
Definition IsSatisfiedInt (p : cids) (endorsements : cids) : Z :=
  if bool_decide (length p = 0%nat) then 0
  else IsSatisfiedInt_loop p false false endorsements.

Definition MergePolicy (p other : cids) : outcome cids :=
  if ge p other then Done p
  else if le p other then Done other
  else Panic.
(** [rand] is the value of [std::rand()], an [int] not below 0. *)
Definition DifferenceToSatisfied (rand : Z) (p : cids) (potentialEndorsements : cids) : list Z :=
  if IsSatisfied p potentialEndorsements then []
  else let offset := int32 (rand `mod` Z.of_nat (length p)) in
       match p !! Z.to_nat offset with
       | Some c => [int32 c]
       | None => []
       end.
Definition IsImpliedBy (p other : cids) : bool := ge other p.
Definition Reset (p : cids) : cids := [].
Definition ToString (p : cids) : string := append_ids (GetPolicyTypeName POLICY_TYPE_OR) p.
End OR.

(** ** The abstract class (policy.h): an object of one of the three classes *)

Inductive Policy :=
| WeightPolicy (weight : Z)
| ANDPolicy (client_ids : cids)
| ORPolicy (client_ids : cids).

#[export] Instance Policy_eq_dec : EqDecision Policy.
Proof. solve_decision. Defined.

Definition Type_ (p : Policy) : PolicyType :=
  match p with
  | WeightPolicy _ => POLICY_TYPE_WEIGHT
  | ANDPolicy _ => POLICY_TYPE_AND
  | ORPolicy _ => POLICY_TYPE_OR
  end.

Definition IsSatisfied (p : Policy) (es : cids) : bool :=
  match p with
  | WeightPolicy w => Weight.IsSatisfied w es
  | ANDPolicy s => AND.IsSatisfied s es
  | ORPolicy s => OR.IsSatisfied s es
  end.

Definition IsSatisfiedInt (p : Policy) (es : cids) : Z :=
  match p with
  | WeightPolicy w => Weight.IsSatisfiedInt w es
  | ANDPolicy s => AND.IsSatisfiedInt s es
  | ORPolicy s => OR.IsSatisfiedInt s es
  end.

(** [UW_ASSERT(type == other->Type())], then the merge of the class. *)
Definition MergePolicy (p other : Policy) : outcome Policy :=
  match p, other with
  | WeightPolicy w, WeightPolicy w' => Done (WeightPolicy (Weight.MergePolicy w w'))
  | ANDPolicy s, ANDPolicy s' => Done (ANDPolicy (AND.MergePolicy s s'))
  | ORPolicy s, ORPolicy s' => ORPolicy <$> OR.MergePolicy s s'
  | _, _ => Panic
  end.

Definition DifferenceToSatisfied (rand : Z) (p : Policy) (es : cids) : list Z :=
  match p with
  | WeightPolicy w => Weight.DifferenceToSatisfied w es
  | ANDPolicy s => AND.DifferenceToSatisfied s es
  | ORPolicy s => OR.DifferenceToSatisfied rand s es
  end.

Definition IsImpliedBy (p other : Policy) : outcome bool :=
  match p, other with
  | WeightPolicy w, WeightPolicy w' => Done (Weight.IsImpliedBy w w')
  | ANDPolicy s, ANDPolicy s' => Done (AND.IsImpliedBy s s')
  | ORPolicy s, ORPolicy s' => Done (OR.IsImpliedBy s s')
  | _, _ => Panic
  end.

Definition ToString (p : Policy) : string :=
  match p with
  | WeightPolicy w => Weight.ToString w
  | ANDPolicy s => AND.ToString s
  | ORPolicy s => OR.ToString s
  end.

(** The objects the code builds: 64-bit numbers, ids in increasing order. *)
Definition policy_wf (p : Policy) : Prop :=
  match p with
  | WeightPolicy w => 0 ≤ w < 2^64
  | ANDPolicy s | ORPolicy s => ssorted id s ∧ ∀ c, c ∈ s → 0 ≤ c < 2^64
  end.

(** ... of which the ids and weights also fit an [int], as the [int] results
    assume, and an OR policy names somebody. *)
Definition policy_small (p : Policy) : Prop :=
  match p with
  | WeightPolicy w => 0 ≤ w < 2^31
  | ANDPolicy s => ∀ c, c ∈ s → 0 ≤ c < 2^31
  | ORPolicy s => (Z.of_nat (length s) < 2^31) ∧ ∀ c, c ∈ s → 0 ≤ c < 2^31
  end.
Definition policy_nonempty (p : Policy) : Prop :=
  match p with ORPolicy s => s ≠ [] | _ => True end.

(** ** PolicyClient (policy_client.cc): the policy of a transaction *)
Module PolicyClient.
(** [Policy *policy], initially null. *)
Definition t := option Policy.
Definition init : t := None.

Definition IsSatisfied (c : t) (es : cids) : bool :=
  match c with None => true | Some p => IsSatisfied p es end.
Definition IsSatisfiedInt (c : t) (es : cids) : Z :=
  match c with None => 0 | Some p => IsSatisfiedInt p es end.
Definition AddPolicy (c : t) (other : Policy) : outcome t :=
  match c with
  | None => Done (Some other)
  | Some p => _ ← uw_assert (bool_decide (Type_ p = Type_ other));
              Some <$> MergePolicy p other
  end.
Definition DifferenceToSatisfied (rand : Z) (c : t) (es : cids) : list Z :=
  match c with None => [] | Some p => DifferenceToSatisfied rand p es end.
Definition IsImpliedBy (c : t) (other : Policy) : outcome bool :=
  match c with
  | None => Done true
  | Some p => _ ← uw_assert (bool_decide (Type_ other = Type_ p)); IsImpliedBy p other
  end.
Definition Reset (c : t) : t := None.
Definition ToString (c : t) : string :=
  match c with None => "" | Some p => ToString p end.
End PolicyClient.

(** ** What a policy means

    Three lemmas read [IsSatisfied] as a statement on the set of endorsers;
    everything below is proved from them. *)
Section meaning.
Implicit Types (s es : cids) (p q r : Policy).

Lemma weight_sat w es :
  IsSatisfied (WeightPolicy w) es = true ↔ w ≤ Z.of_nat (length es).
Proof. cbn. unfold Weight.IsSatisfied. lia. Qed.

Lemma and_sat s es :
  ssorted id s → ssorted id es →
  IsSatisfied (ANDPolicy s) es = true ↔ ∀ c, c ∈ s → c ∈ es.
Proof. intros. by apply includes_spec. Qed.

Lemma seq_mem_id c es : ssorted id es → seq_mem id c es = true ↔ c ∈ es.
Proof.
  intros Hs. rewrite (seq_mem_spec id es c Hs). unfold id. naive_solver.
Qed.

Lemma or_sat s es :
  ssorted id es →
  IsSatisfied (ORPolicy s) es = true ↔ s = [] ∨ ∃ c, c ∈ s ∧ c ∈ es.
Proof.
  intros Hes. cbn. unfold OR.IsSatisfied.
  rewrite orb_true_iff, bool_decide_eq_true, length_zero_iff_nil, existsb_exists.
  setoid_rewrite (λ c, seq_mem_id c es Hes). by setoid_rewrite list_elem_of_In.
Qed.

Lemma or_ge s s' :
  ssorted id s → ssorted id s' → OR.ge s s' = true ↔ ∀ c, c ∈ s → c ∈ s'.
Proof. intros. by apply includes_spec. Qed.

(** The ids [0 .. n-1] in increasing order: [n] endorsers. *)
Definition first_ids (n : nat) : cids := seqZ 0 (Z.of_nat n).
Lemma first_ids_spec n : ssorted id (first_ids n) ∧ length (first_ids n) = n.
Proof.
  unfold first_ids. rewrite length_seqZ, Nat2Z.id. split; [|done].
  induction n as [|n IH]; [constructor|].
  rewrite seqZ_S. apply (ssorted_app id). split_and!.
  - done.
  - apply (ssorted_singleton id).
  - intros x y Hx Hy. apply elem_of_seqZ in Hx. apply list_elem_of_singleton in Hy as ->.
    unfold ltb, Z_Ltb, id. lia.
Qed.

(** What a merge leaves is again an object the code can build. *)
Lemma merge_wf p q r :
  policy_wf p → policy_wf q → MergePolicy p q = Done r → policy_wf r.
Proof.
  destruct p as [w|s|s], q as [w'|s'|s']; cbn; intros Hp Hq Hm; try done.
  - simplify_eq. cbn. unfold Weight.MergePolicy. case_match; lia.
  - simplify_eq. cbn. unfold AND.MergePolicy.
    destruct Hp as [Hs1 Hs2], (set_union_spec s' s) as [H1 H2]; [done|].
    split; [done|]. intros c. rewrite H2. set_solver.
  - unfold OR.MergePolicy in Hm. repeat case_match; by simplify_eq/=.
Qed.

Lemma merge_nonempty p q r :
  policy_nonempty p → policy_nonempty q → MergePolicy p q = Done r → policy_nonempty r.
Proof.
  destruct p, q; cbn; intros Hp Hq Hm; simplify_eq; try done.
  unfold OR.MergePolicy in Hm. repeat case_match; by simplify_eq/=.
Qed.

Lemma merge_sat p q r es :
  policy_wf p → policy_wf q → policy_nonempty p → policy_nonempty q → ssorted id es →
  MergePolicy p q = Done r →
  IsSatisfied r es = IsSatisfied p es && IsSatisfied q es.
Proof.
  intros Hp Hq Hnp Hnq Hes Hm. apply eq_true_iff_eq. rewrite andb_true_iff.
  destruct p as [w|s|s], q as [w'|s'|s']; try done; cbn [MergePolicy] in Hm.
  - simplify_eq. rewrite !weight_sat. unfold Weight.MergePolicy. case_match; lia.
  - simplify_eq. destruct Hp as [Hs _], Hq as [Hs' _].
    destruct (set_union_spec s' s) as [H1 H2]; [done|].
    rewrite !and_sat by done. setoid_rewrite H2. set_solver.
  - cbn in Hm. unfold OR.MergePolicy in Hm. destruct Hp as [Hs _], Hq as [Hs' _].
    rewrite !or_sat by done. destruct (OR.ge s s') eqn:E1; cbn in Hm; simplify_eq.
    + rewrite or_sat by done. rewrite or_ge in E1 by done. cbn in *. naive_solver.
    + destruct (OR.le s s') eqn:E2; cbn in Hm; simplify_eq.
      rewrite or_sat by done. change (OR.ge s' s = true) in E2. rewrite or_ge in E2 by done. cbn in *. naive_solver.
Qed.

(** Merging fails exactly for two OR policies neither of which contains the
    other, and across classes. *)
Lemma merge_Panic p q :
  policy_wf p → policy_wf q →
  MergePolicy p q = Panic ↔
  Type_ p ≠ Type_ q ∨
  ∃ s s' c c', p = ORPolicy s ∧ q = ORPolicy s' ∧ c ∈ s ∧ c ∉ s' ∧ c' ∈ s' ∧ c' ∉ s.
Proof.
  intros Hp Hq. destruct p as [w|s|s], q as [w'|s'|s']; cbn; try naive_solver.
  destruct Hp as [Hs _], Hq as [Hs' _]. unfold OR.MergePolicy.
  destruct (OR.ge s s') eqn:E1.
  { rewrite or_ge in E1 by done. cbn. split; [done|naive_solver]. }
  destruct (OR.le s s') eqn:E2; change (OR.le s s') with (OR.ge s' s) in E2.
  { rewrite or_ge in E2 by done. cbn. split; [done|naive_solver]. }
  split; [|done]. intros _. right.
  assert (∀ a b : cids, ssorted id a → ssorted id b → OR.ge a b = false →
            ∃ c, c ∈ a ∧ c ∉ b) as Hex.
  { intros a b Ha Hb Hf. destruct (decide (Forall (λ c, c ∈ b) a)) as [Hall|Hall].
    - rewrite Forall_forall, <- or_ge in Hall by done. congruence.
    - apply not_Forall_Exists, Exists_exists in Hall; [|apply _]. naive_solver. }
  destruct (Hex s s') as (c & ? & ?), (Hex s' s) as (c' & ? & ?); [done..|].
  by exists s, s', c, c'.
Qed.
End meaning.

(** The contract of [MergePolicy], [IsImpliedBy] and [PolicyClient], for
    policies the code builds whose OR sets name somebody. *)
Definition policy_ok (p : Policy) : Prop := policy_wf p ∧ policy_nonempty p.

(** C35: merging two policies is conjunction.  For two policies whose sets are
    sorted and whose weights are not negative, as the code builds them, and of
    which an OR policy names at least one client, [MergePolicy] either returns such
    a policy, satisfied by exactly the (sorted) endorser sets that satisfy both, or
    panics; it panics if and only if the classes differ, or both are OR policies
    and each names a client the other does not.  Without the condition on OR
    policies merging weakens: see [empty_or_merge_weakens]. *)
Theorem merge_is_conjunction p q :
  policy_ok p → policy_ok q →
  (∀ r, MergePolicy p q = Done r → policy_ok r ∧
     ∀ es, ssorted id es → IsSatisfied r es = IsSatisfied p es && IsSatisfied q es) ∧
  (MergePolicy p q = Panic ↔ Type_ p ≠ Type_ q ∨
     ∃ s s' c c', p = ORPolicy s ∧ q = ORPolicy s' ∧ c ∈ s ∧ c ∉ s' ∧ c' ∈ s' ∧ c' ∉ s).
Proof.
  intros [Hp Hnp] [Hq Hnq]. split; [|by apply merge_Panic]. intros r Hm.
  split; [split; [by apply (merge_wf p q)|by apply (merge_nonempty p q)]|].
  intros es Hes. by apply (merge_sat p q r).
Qed.

Lemma implied_sound p q es :
  policy_ok p → policy_ok q → ssorted id es → IsImpliedBy p q = Done true →
  IsSatisfied q es = true → IsSatisfied p es = true.
Proof.
  intros [Hp Hnp] [Hq Hnq] Hes. destruct p as [w|s|s], q as [w'|s'|s']; cbn [IsImpliedBy]; try done.
  - rewrite !weight_sat. intros [= H]. unfold Weight.IsImpliedBy, Weight.ge, Weight.le in H.
    unfold Weight.lt, Weight.eq in H. lia.
  - destruct Hp as [Hs _], Hq as [Hs' _]. rewrite !and_sat by done. intros [= H].
    unfold AND.IsImpliedBy, AND.ge, AND.le in H. rewrite includes_spec in H by done. set_solver.
  - destruct Hp as [Hs _], Hq as [Hs' _]. rewrite !or_sat by done. intros [= H].
    change (OR.ge s' s = true) in H. rewrite or_ge in H by done. cbn in *. naive_solver.
Qed.

Lemma implied_complete p q b :
  policy_ok p → policy_ok q → IsImpliedBy p q = Done b →
  (∀ es, ssorted id es → IsSatisfied q es = true → IsSatisfied p es = true) → b = true.
Proof.
  intros [Hp Hnp] [Hq Hnq]. destruct p as [w|s|s], q as [w'|s'|s']; cbn [IsImpliedBy];
    intros [= <-] Himp; try done.
  - destruct (first_ids_spec (Z.to_nat w')) as [H1 H2].
    specialize (Himp _ H1). rewrite !weight_sat, H2 in Himp.
    cbn in Hp, Hq. unfold Weight.IsImpliedBy, Weight.ge, Weight.le, Weight.lt, Weight.eq. lia.
  - destruct Hp as [Hs _], Hq as [Hs' _]. specialize (Himp s' Hs').
    rewrite !and_sat in Himp by done. apply includes_spec; [done..|]. auto.
  - destruct Hp as [Hs _], Hq as [Hs' _]. apply (or_ge s' s); [done..|]. intros c Hc.
    specialize (Himp [c] (ssorted_singleton id c)).
    rewrite !or_sat in Himp by apply (ssorted_singleton id).
    destruct Himp as [->|(c' & ? & ?)]; [right; exists c; set_solver|done|set_solver].
Qed.

(** C36: [IsImpliedBy] decides entailment.  For two policies of one class whose
    sets are sorted and whose weights are not negative, as the code builds them,
    and of which an OR policy names at least one client, [p->IsImpliedBy(q)]
    returns, and returns true exactly when every (sorted) endorser set that
    satisfies [q] satisfies [p].  With an empty OR policy it does not: see
    [empty_or_merge_weakens]. *)
Theorem implied_iff_entails p q :
  policy_ok p → policy_ok q → Type_ p = Type_ q →
  ∃ b, IsImpliedBy p q = Done b ∧
    (b = true ↔ ∀ es, ssorted id es → IsSatisfied q es = true → IsSatisfied p es = true).
Proof.
  intros Hp Hq Ht.
  assert (∃ b, IsImpliedBy p q = Done b) as [b Hb] by (destruct p, q; cbn; eauto; done).
  exists b. split; [done|]. split.
  - intros -> es Hes. by apply implied_sound.
  - by apply (implied_complete p q).
Qed.

(** The flags of the OR loop. *)
Lemma or_loop_spec s es sat extra :
  ssorted id s → ¬ (sat = true ∧ extra = true) →
  OR.IsSatisfiedInt_loop s sat extra es =
    (if sat || existsb (λ e, seq_mem id e s) es
     then if extra || existsb (λ e, negb (seq_mem id e s)) es then 1 else 0
     else -1).
Proof.
  intros Hs. revert sat extra. induction es as [|e es IH]; intros sat extra Hse; cbn.
  { destruct sat, extra; naive_solver. }
  destruct (seq_mem id e s), sat, extra; cbn; rewrite ?IH by naive_solver; cbn;
    repeat case_match; naive_solver.
Qed.

Lemma satisfied_int_sign p es :
  policy_wf p → policy_small p → ssorted id es → Z.of_nat (length es) < 2^31 →
  IsSatisfied p es = (0 <=? IsSatisfiedInt p es).
Proof.
  intros Hp Hsm Hes Hlen. destruct p as [w|s|s]; cbn in *.
  - unfold Weight.IsSatisfied, Weight.IsSatisfiedInt.
    rewrite int32_mod, int32_id by lia. lia.
  - unfold AND.IsSatisfied, AND.IsSatisfiedInt. destruct (includes es s); cbn; [|done].
    by case_bool_decide.
  - destruct Hp as [Hs _]. apply eq_true_iff_eq. change (OR.IsSatisfied s es) with (IsSatisfied (ORPolicy s) es).
    rewrite or_sat by done. unfold OR.IsSatisfiedInt.
    case_bool_decide as Hl; [apply length_zero_iff_nil in Hl as ->; naive_solver|].
    rewrite or_loop_spec by naive_solver. cbn.
    assert (existsb (λ e, seq_mem id e s) es = true ↔ ∃ c, c ∈ s ∧ c ∈ es) as Hex.
    { rewrite existsb_exists. setoid_rewrite (λ c, seq_mem_id c s Hs).
      setoid_rewrite <- (list_elem_of_In es). naive_solver. }
    destruct (existsb (λ e, seq_mem id e s) es).
    + split; [intros _; by case_match|]. intros _. right. by apply Hex.
    + split; [|done]. intros [->|H]; [done|]. by apply Hex in H.
Qed.

(** The meaning of the three results of [IsSatisfiedInt]: an endorser can be
    spared exactly when the result is positive (WEIGHT, AND); a positive
    result of OR leaves an endorser the policy does not name. *)
Definition spare (p : Policy) (es : cids) : Prop :=
  match p with
  | WeightPolicy w => w < Z.of_nat (length es)
  | ANDPolicy s => ∃ c, c ∈ es ∧ c ∉ s
  | ORPolicy s => s ≠ [] ∧ ∃ c, c ∈ es ∧ c ∉ s
  end.

Lemma sorted_subset_length (s es : cids) :
  ssorted id s → ssorted id es → (∀ c, c ∈ s → c ∈ es) →
  length es ≠ length s ↔ ∃ c, c ∈ es ∧ c ∉ s.
Proof.
  intros Hs Hes Hsub. pose proof (ssorted_NoDup s Hs) as Hnd. pose proof (ssorted_NoDup es Hes) as Hnd'.
  split.
  - intros Hne. destruct (decide (Forall (λ c, c ∈ s) es)) as [Hall|Hall].
    + rewrite Forall_forall in Hall. destruct Hne. f_equal.
      apply ssorted_ext; [done..|]. naive_solver.
    + apply not_Forall_Exists, Exists_exists in Hall; [|apply _]. naive_solver.
  - intros (c & Hc & Hn) Hlen. destruct Hn.
    assert (es ≡ₚ s) as Hperm; [|by rewrite <- Hperm].
    symmetry. apply submseteq_length_Permutation; [|lia].
    by apply NoDup_submseteq.
Qed.

Lemma satisfied_int_spare p es :
  policy_wf p → policy_small p → ssorted id es → Z.of_nat (length es) < 2^31 →
  0 < IsSatisfiedInt p es ↔ IsSatisfied p es = true ∧ spare p es.
Proof.
  intros Hp Hsm Hes Hlen. rewrite (satisfied_int_sign p es) by done.
  destruct p as [w|s|s]; cbn in *.
  - unfold Weight.IsSatisfiedInt. rewrite int32_mod, int32_id by lia. lia.
  - destruct Hp as [Hs _]. unfold AND.IsSatisfiedInt.
    destruct (includes es s) eqn:Hi; cbn; [|by split; [lia|intros [? _]]].
    rewrite includes_spec in Hi by done. rewrite <- (sorted_subset_length s es) by done.
    case_bool_decide as Hl.
    + split; [lia|]. by intros [_ []].
    + by split; [intros _; split|].
  - destruct Hp as [Hs _]. unfold OR.IsSatisfiedInt.
    case_bool_decide as Hl; [by apply length_zero_iff_nil in Hl as ->; split; [lia|intros [_ []]]|].
    assert (s ≠ []) as Hne by (by intros ->). rewrite or_loop_spec by naive_solver. cbn.
    assert (existsb (λ e, negb (seq_mem id e s)) es = true ↔ ∃ c, c ∈ es ∧ c ∉ s) as Hex.
    { rewrite existsb_exists. setoid_rewrite negb_true_iff.
      setoid_rewrite <- not_true_iff_false. setoid_rewrite (λ c, seq_mem_id c s Hs).
      by setoid_rewrite <- (list_elem_of_In es). }
    destruct (existsb (λ e, seq_mem id e s) es); [|by split; [lia|intros [? _]]].
    destruct (existsb (λ e, negb (seq_mem id e s)) es).
    + split; [|lia]. intros _. split_and!; [done..|]. by apply Hex.
    + split; [lia|]. intros (_ & _ & Hx). by apply Hex in Hx.
Qed.

(** [IsSatisfiedInt] agrees with [IsSatisfied]: it is negative exactly when
    the policy is not satisfied, and positive exactly when it is satisfied
    with endorsers to spare, as long as weights and sizes fit an [int]. *)
Theorem satisfied_int_correct p es :
  policy_wf p → policy_small p → ssorted id es → Z.of_nat (length es) < 2^31 →
  (IsSatisfiedInt p es < 0 ↔ IsSatisfied p es = false) ∧
  (IsSatisfiedInt p es = 0 ↔ IsSatisfied p es = true ∧ ¬ spare p es) ∧
  (0 < IsSatisfiedInt p es ↔ IsSatisfied p es = true ∧ spare p es).
Proof.
  intros Hp Hsm Hes Hlen. pose proof (satisfied_int_sign p es Hp Hsm Hes Hlen) as Hsg.
  pose proof (satisfied_int_spare p es Hp Hsm Hes Hlen) as Hsp.
  rewrite Hsg in *. split_and!; [|split|done].
  - lia.
  - intros H0. split; [lia|]. intros Hx.
    assert (0 < IsSatisfiedInt p es) by (apply Hsp; split; [lia|done]). lia.
  - intros [H1 H2]. destruct (decide (0 < IsSatisfiedInt p es)); [naive_solver|lia].
Qed.

(** [es'] answers the request [d]: it keeps [es], contains the ids named, and
    has one further endorser for each [-1]. *)
Definition answers (d : list Z) (es es' : cids) : Prop :=
  ssorted id es' ∧ (∀ c, c ∈ es → c ∈ es') ∧ (∀ c, c ∈ d → 0 ≤ c → c ∈ es') ∧
  (length es + length (filter (λ c, c = (-1)%Z) d) ≤ length es')%nat.

Lemma and_difference (s es acc : cids) :
  (∀ c, c ∈ s → 0 ≤ c < 2^31) →
  foldl (λ ret c, if seq_mem id c es then ret else ret ++ [int32 c]) acc s =
  acc ++ filter (λ c, seq_mem id c es = false) s.
Proof.
  revert acc. induction s as [|a s IH]; intros acc Hs;
    cbn [foldl]; [by rewrite app_nil_r|].
  rewrite IH by set_solver. rewrite filter_cons.
  destruct (seq_mem id a es); cbn [decide bool_eq_dec]; [by rewrite decide_False|].
  rewrite decide_True by done. rewrite int32_id; [by rewrite <- app_assoc|].
  assert (0 ≤ a < 2^31) by (apply Hs; set_solver). lia.
Qed.

Lemma list_empty_iff {A} (l : list A) : (∀ x, x ∉ l) ↔ l = [].
Proof.
  split; [|by intros -> x ?%not_elem_of_nil]. destruct l as [|a l]; [done|].
  intros H. destruct (H a). by left.
Qed.

Lemma filter_replicate_m1 n : length (filter (λ c, c = -1) (replicate n (-1))) = n.
Proof.
  induction n as [|n IH]; [done|]. cbn [replicate]. rewrite filter_cons, decide_True by done.
  cbn [length]. by rewrite IH.
Qed.

Lemma or_difference rand (s es : cids) :
  (∀ c, c ∈ s → 0 ≤ c < 2^31) → Z.of_nat (length s) < 2^31 → 0 ≤ rand →
  OR.IsSatisfied s es = false →
  ∃ c, c ∈ s ∧ OR.DifferenceToSatisfied rand s es = [c].
Proof.
  intros Hs Hlen Hr Hf. unfold OR.DifferenceToSatisfied. rewrite Hf.
  assert (s ≠ []) as Hne by (by intros ->).
  assert (0 < length s)%nat by (destruct s; cbn; [done|lia]).
  pose proof (Z.mod_pos_bound rand (Z.of_nat (length s))).
  rewrite int32_id by lia.
  destruct (lookup_lt_is_Some_2 s (Z.to_nat (rand `mod` Z.of_nat (length s)))) as [c Hc]; [lia|].
  rewrite Hc. apply list_elem_of_lookup_2 in Hc as Hin. exists c. split; [done|].
  rewrite int32_id; [done|]. specialize (Hs c Hin). lia.
Qed.

Lemma difference_empty rand p es :
  policy_wf p → policy_small p → ssorted id es → Z.of_nat (length es) < 2^31 → 0 ≤ rand →
  DifferenceToSatisfied rand p es = [] ↔ IsSatisfied p es = true.
Proof.
  intros Hp Hsm Hes Hlen Hr. destruct p as [w|s|s]; cbn in Hp, Hsm.
  - rewrite weight_sat. cbn. unfold Weight.DifferenceToSatisfied.
    rewrite int32_mod, int32_id by lia. case_match eqn:Hd; [split; [lia|done]|].
    rewrite <- length_zero_iff_nil, length_replicate. lia.
  - destruct Hp as [Hs _]. rewrite and_sat by done. cbn. unfold AND.DifferenceToSatisfied.
    rewrite and_difference by done. rewrite app_nil_l, <- list_empty_iff.
    setoid_rewrite list_elem_of_filter. split.
    + intros Hn c Hc. apply seq_mem_id; [done|]. apply not_false_iff_true. naive_solver.
    + intros Hall c [Hm Hc]. apply Hall in Hc. rewrite <- seq_mem_id in Hc by done. congruence.
  - cbn. destruct (OR.IsSatisfied s es) eqn:Hf.
    + split; [done|]. intros _. unfold OR.DifferenceToSatisfied. by rewrite Hf.
    + destruct (or_difference rand s es) as (c & _ & ->); naive_solver.
Qed.

Lemma difference_answered rand p es es' :
  policy_wf p → policy_small p → ssorted id es → Z.of_nat (length es) < 2^31 → 0 ≤ rand →
  answers (DifferenceToSatisfied rand p es) es es' → IsSatisfied p es' = true.
Proof.
  intros Hp Hsm Hes Hlen Hr (Hes' & Hsub & Hin & Hsize). destruct p as [w|s|s]; cbn in Hp, Hsm.
  - rewrite weight_sat. cbn in Hsize. unfold Weight.DifferenceToSatisfied in Hsize.
    rewrite int32_mod, int32_id in Hsize by lia. case_match eqn:Hd; [cbn in Hsize; lia|].
    rewrite filter_replicate_m1 in Hsize. lia.
  - destruct Hp as [Hs _]. rewrite and_sat by done. intros c Hc.
    cbn in Hin. unfold AND.DifferenceToSatisfied in Hin. rewrite and_difference in Hin by done.
    destruct (seq_mem id c es) eqn:Hm.
    + rewrite seq_mem_id in Hm by done. auto.
    + apply Hin; [|by apply Hsm]. cbn. by apply list_elem_of_filter.
  - destruct (OR.IsSatisfied s es) eqn:Hf.
    + change (IsSatisfied (ORPolicy s) es = true) in Hf. rewrite or_sat in Hf |- * by done.
      naive_solver.
    + destruct (or_difference rand s es) as (c & Hc & Heq); [naive_solver..|]. cbn in Hin.
      rewrite Heq in Hin. apply or_sat; [done|]. right. exists c. split; [done|].
      apply Hin; [set_solver|]. naive_solver.
Qed.

(** [DifferenceToSatisfied] tells a client what is missing: it returns the
    empty vector exactly when the endorsers already satisfy the policy, and
    any set of endorsers that adds what it returns (the named ids and one
    more endorser for each [-1]) satisfies the policy, whatever
    [std::rand()] returned. *)
Theorem difference_is_sufficient rand p es :
  policy_wf p → policy_small p → ssorted id es → Z.of_nat (length es) < 2^31 → 0 ≤ rand →
  (DifferenceToSatisfied rand p es = [] ↔ IsSatisfied p es = true) ∧
  (∀ es', answers (DifferenceToSatisfied rand p es) es es' → IsSatisfied p es' = true).
Proof.
  intros. split; [by apply difference_empty|]. intros es'. by apply (difference_answered rand p es).
Qed.

(** ** The policy accumulated by a [PolicyClient] *)

(** [AddPolicy] for each policy in turn. *)
Definition add_policies (ps : list Policy) : outcome PolicyClient.t :=
  foldO PolicyClient.AddPolicy PolicyClient.init ps.

Definition client_ok (c : PolicyClient.t) : Prop :=
  match c with None => True | Some p => policy_ok p end.

Lemma add_policy_sat c p c' es :
  client_ok c → policy_ok p → ssorted id es → PolicyClient.AddPolicy c p = Done c' →
  client_ok c' ∧ PolicyClient.IsSatisfied c' es = PolicyClient.IsSatisfied c es && IsSatisfied p es.
Proof.
  intros Hc Hp Hes Ha. destruct c as [q|]; cbn in Ha; [|by simplify_eq].
  inv_outcome. destruct (MergePolicy q p) as [r|] eqn:Hm; cbn in *; simplify_eq.
  destruct Hc as [Hq Hnq], Hp as [Hp Hnp].
  split; [split; [by apply (merge_wf q p)|by apply (merge_nonempty q p)]|].
  by apply (merge_sat q p r).
Qed.

(** Adding policies to a client that already has some. *)
Lemma add_policies_from c0 ps c es :
  client_ok c0 → Forall policy_ok ps → ssorted id es → foldO PolicyClient.AddPolicy c0 ps = Done c →
  client_ok c ∧
  PolicyClient.IsSatisfied c es = PolicyClient.IsSatisfied c0 es && forallb (λ p, IsSatisfied p es) ps.
Proof.
  intros Hc0 Hps Hes. revert c0 Hc0.
  induction Hps as [|p ps Hp Hps IH]; intros c0 Hc0 Hf; cbn in Hf.
  - simplify_eq. by rewrite andb_true_r.
  - inv_outcome. destruct (add_policy_sat c0 p x es) as [Hx Hs]; [done..|].
    destruct (IH x) as [Hok ->]; [done..|]. cbn. by rewrite Hs, andb_assoc.
Qed.

(** The numbers of a merged policy fit an [int] when those of its parts do. *)
Lemma merge_small p q r :
  policy_wf p → policy_small p → policy_small q → MergePolicy p q = Done r → policy_small r.
Proof.
  destruct p as [w|s|s], q as [w'|s'|s']; cbn; intros Hw Hp Hq Hm; try done.
  - simplify_eq. cbn. unfold Weight.MergePolicy. case_match; lia.
  - simplify_eq. cbn. unfold AND.MergePolicy.
    destruct Hw as [Hs1 _], (set_union_spec s' s) as [H1 H2]; [done|].
    intros c. rewrite H2. set_solver.
  - unfold OR.MergePolicy in Hm. repeat case_match; by simplify_eq/=.
Qed.

Definition client_small (c : PolicyClient.t) : Prop :=
  match c with None => True | Some p => policy_small p end.

Lemma add_policies_small c0 ps c :
  client_ok c0 → client_small c0 → Forall (λ p, policy_ok p ∧ policy_small p) ps →
  foldO PolicyClient.AddPolicy c0 ps = Done c → client_small c.
Proof.
  intros Hc0 Hs0 Hps. revert c0 Hc0 Hs0.
  induction Hps as [|p ps [Hp Hsp] Hps IH]; intros c0 Hc0 Hs0 Hf; cbn in Hf; [by simplify_eq|].
  inv_outcome. destruct (add_policy_sat c0 p x [] Hc0 Hp (ssorted_nil id)) as [Hx _]; [done|].
  apply (IH x); [done| |done]. destruct c0 as [q|]; [|cbn in *; by simplify_eq].
  match goal with H : PolicyClient.AddPolicy _ _ = _ |- _ => cbn in H end.
  inv_outcome. destruct (MergePolicy q p) eqn:Hm; cbn in *; simplify_eq.
  apply (merge_small q p); [apply Hc0|done..].
Qed.

Lemma client_int_sign c es :
  client_ok c → client_small c → ssorted id es → Z.of_nat (length es) < 2^31 →
  PolicyClient.IsSatisfied c es = (0 <=? PolicyClient.IsSatisfiedInt c es).
Proof. destruct c as [p|]; [|done]. intros [? ?] ? ? ?. by apply satisfied_int_sign. Qed.

(** A [PolicyClient] represents the conjunction of the policies added to
    it: after any sequence of [AddPolicy] calls that returns, its
    [IsSatisfied] holds of an endorser set exactly when every added policy
    is satisfied by it. *)
Theorem policy_client_conjunction ps c es :
  Forall policy_ok ps → ssorted id es → add_policies ps = Done c →
  PolicyClient.IsSatisfied c es = forallb (λ p, IsSatisfied p es) ps.
Proof.
  intros Hps Hes Hf. by destruct (add_policies_from PolicyClient.init ps c es) as [_ ->].
Qed.

(** ** Concrete instances *)

Ltac sorted_ids := repeat (first [apply (ssorted_nil id) | apply (ssorted_cons id); split;
  [|intros ?; rewrite ?elem_of_cons; intros; repeat destruct_or?; subst; first [reflexivity|set_solver]]]).

Lemma merge_is_conjunction_witness :
  MergePolicy (ANDPolicy [1; 4]) (ANDPolicy [2]) = Done (ANDPolicy [1; 2; 4]) ∧
  ∀ es, ssorted id es → IsSatisfied (ANDPolicy [1; 2; 4]) es =
    IsSatisfied (ANDPolicy [1; 4]) es && IsSatisfied (ANDPolicy [2]) es.
Proof.
  split; [vm_compute; reflexivity|].
  destruct (merge_is_conjunction (ANDPolicy [1; 4]) (ANDPolicy [2])) as [H _].
  - split; [split; [sorted_ids|set_solver by lia]|done].
  - split; [split; [sorted_ids|set_solver by lia]|done].
  - apply (H (ANDPolicy [1; 2; 4])). vm_compute; reflexivity.
Defined.

Lemma implied_iff_entails_witness :
  IsImpliedBy (ORPolicy [1; 2]) (ORPolicy [2]) = Done true ∧
  ∀ es, ssorted id es → IsSatisfied (ORPolicy [2]) es = true →
    IsSatisfied (ORPolicy [1; 2]) es = true.
Proof.
  split; [vm_compute; reflexivity|].
  destruct (implied_iff_entails (ORPolicy [1; 2]) (ORPolicy [2])) as (b & Hb & Hiff).
  - split; [split; [sorted_ids|set_solver by lia]|done].
  - split; [split; [sorted_ids|set_solver by lia]|done].
  - reflexivity.
  - apply Hiff. vm_compute in Hb. congruence.
Defined.

Lemma satisfied_int_correct_witness :
  IsSatisfiedInt (WeightPolicy 2) [3; 5; 9] = 1 ∧ spare (WeightPolicy 2) [3; 5; 9].
Proof.
  split; [vm_compute; reflexivity|].
  destruct (satisfied_int_correct (WeightPolicy 2) [3; 5; 9]) as (_ & _ & H);
    [cbn; lia|cbn; lia|sorted_ids|cbn; lia|]. apply (proj1 H). vm_compute; reflexivity.
Defined.

Lemma difference_is_sufficient_witness :
  DifferenceToSatisfied 7 (WeightPolicy 3) [5] = [-1; -1] ∧
  IsSatisfied (WeightPolicy 3) [5; 6; 7] = true.
Proof.
  split; [vm_compute; reflexivity|].
  apply (difference_is_sufficient 7 (WeightPolicy 3) [5]); [cbn; lia|cbn; lia|sorted_ids|cbn; lia|lia|].
  change (DifferenceToSatisfied 7 (WeightPolicy 3) [5]) with [-1; -1].
  split_and!; [sorted_ids|set_solver|set_solver by lia|apply Nat.leb_le; reflexivity].
Defined.

Lemma policy_client_conjunction_witness :
  add_policies [WeightPolicy 1; WeightPolicy 3; WeightPolicy 2] = Done (Some (WeightPolicy 3)) ∧
  PolicyClient.IsSatisfied (Some (WeightPolicy 3)) [4; 5] =
    forallb (λ p, IsSatisfied p [4; 5]) [WeightPolicy 1; WeightPolicy 3; WeightPolicy 2].
Proof.
  split; [vm_compute; reflexivity|]. apply policy_client_conjunction.
  - repeat constructor; cbn; lia.
  - sorted_ids.
  - vm_compute; reflexivity.
Defined.

(** ** Where the operators and the empty OR policy differ from their intent *)

(** [WeightPolicy::operator>] is [<=]. *)
Lemma weight_gt_is_le p q : Weight.gt p q = true ↔ p ≤ q.
Proof. unfold Weight.gt, Weight.lt. lia. Qed.

(** An OR policy without clients accepts every endorser set, yet the order of
    OR policies places it above all others: merging a policy with it replaces
    the policy by one that is always satisfied. *)
Lemma empty_or_merge_weakens s es :
  s ≠ [] →
  MergePolicy (ORPolicy s) (ORPolicy []) = Done (ORPolicy []) ∧
  IsSatisfied (ORPolicy []) es = true ∧
  IsSatisfied (ORPolicy s) [] = false ∧
  IsImpliedBy (ORPolicy s) (ORPolicy []) = Done true.
Proof.
  intros Hne. destruct s as [|a s]; [done|]. split_and!; try done.
  cbn. unfold OR.IsSatisfied. cbn. induction s as [|b s IH]; [done|]. cbn. by apply IH.
Qed.
