(* ===== verification/PolicyParse.v ===== *)
(** * Policy ids, messages, configuration text and the policy cache

    src/src/store/common/policy: policy_id.h, policy_cache.cc and
    policy_parse_client.cc, with the [SerializeToProtoMessage] of the three
    policy classes. *)
From S2P Require Import Prelude OrderedSeq CppString Timestamp Policy.

(** ** policy_id.h *)

Definition policy_id_prefix : string := "p".
Definition policy_id_delimiter : string := "#".

Definition PolicyIdString (policy_id : Z) : string :=
  policy_id_prefix +:+ policy_id_delimiter +:+ to_string policy_id.

(** [s.length() > 1 && s[0] == prefix[0] && s[1] == delimiter[0]]. *)
Definition IsPolicyId (s : string) : bool :=
  match s with
  | String c0 (String c1 _) =>
      bool_decide (String.get 0 policy_id_prefix = Some c0) &&
      bool_decide (String.get 0 policy_id_delimiter = Some c1)
  | _ => false
  end.

Lemma PolicyIdString_IsPolicyId n : IsPolicyId (PolicyIdString n) = true.
Proof. done. Qed.

Lemma PolicyIdString_inj m n :
  0 ≤ m < 2^64 → 0 ≤ n < 2^64 → PolicyIdString m = PolicyIdString n → m = n.
Proof.
  intros Hm Hn. unfold PolicyIdString, policy_id_prefix, policy_id_delimiter.
  autorewrite with strdb. intros [= H]. by apply to_string_inj.
Qed.

(** ** PolicyCache (policy_cache.cc): a [std::map] from policy id to version
    and policy *)
Module PolicyCache.
Definition t := list (string * (Timestamp * Policy)).
Definition empty : t := [].

Definition IsEmpty (c : t) : bool := match c with [] => true | _ => false end.
Definition Get (c : t) (policyId : string) : option Policy :=
  match seq_find fst policyId c with Some e => Some e.2.2 | None => None end.
Definition GetTimestamp (c : t) (policyId : string) : Timestamp :=
  match seq_find fst policyId c with Some e => e.2.1 | None => ts_zero end.
Definition Take (c : t) (policyId : string) : option Policy * t :=
  match seq_find fst policyId c with
  | Some e => (Some e.2.2, seq_erase fst policyId c)
  | None => (None, c)
  end.
(** A null [policy] fails the assertion. *)
Definition Put (c : t) (policyId : string) (policy : option Policy) (timestamp : Timestamp) :
    outcome t :=
  match policy with
  | Some p => Done (seq_put fst (policyId, (timestamp, p)) c)
  | None => Panic
  end.
Definition GetAllKeys (c : t) : list string := fst <$> c.

Definition wf (c : t) : Prop := ssorted fst c.

(** The cache as a finite map. *)
Definition lookup (c : t) (k : string) : option (Timestamp * Policy) :=
  snd <$> seq_find fst k c.

Lemma lookup_Some c k v : wf c → lookup c k = Some v ↔ (k, v) ∈ c.
Proof.
  intros Hc. unfold lookup. rewrite fmap_Some. setoid_rewrite (λ e, seq_find_Some fst c k e Hc).
  split; [by intros ([] & [? <-] & ->)|]. intros. by exists (k, v).
Qed.

Lemma lookup_put c k v k' :
  wf c → lookup (seq_put fst (k, v) c) k' = if decide (k' = k) then Some v else lookup c k'.
Proof.
  intros Hc. apply option_eq. intros v'.
  rewrite lookup_Some by by apply (seq_put_sorted fst).
  rewrite elem_of_seq_put by seq_side. cbn. case_decide as Hk.
  - subst k'. split; [intros [?|[_ ?]]; by simplify_eq|]. intros. left. congruence.
  - rewrite lookup_Some by done. split; [intros [?|[? _]]; by simplify_eq|]. intros. by right.
Qed.

Lemma lookup_erase c k k' :
  wf c → lookup (seq_erase fst k c) k' = if decide (k' = k) then None else lookup c k'.
Proof.
  intros Hc. apply option_eq. intros v'.
  rewrite lookup_Some by by apply (seq_erase_sorted fst).
  rewrite elem_of_seq_erase by seq_side. cbn. case_decide as Hk; [naive_solver|].
  rewrite lookup_Some by done. naive_solver.
Qed.

(** The observers in terms of [lookup]. *)
Lemma Get_lookup c k : Get c k = snd <$> lookup c k.
Proof. unfold Get, lookup. by destruct (seq_find fst k c) as [[? []]|]. Qed.
Lemma GetTimestamp_lookup c k : GetTimestamp c k = default ts_zero (fst <$> lookup c k).
Proof. unfold GetTimestamp, lookup. by destruct (seq_find fst k c) as [[? []]|]. Qed.
End PolicyCache.

(** The policy cache is a finite map with versions: every operation keeps
    its representation sorted, [Put] makes exactly its key answer with the
    new policy and version, [Take] returns the policy and removes exactly its
    key, and a missing key has no policy and version 0.0. *)
Theorem policy_cache_is_map c k p ts :
  PolicyCache.wf c →
  (∃ c', PolicyCache.Put c k (Some p) ts = Done c' ∧ PolicyCache.wf c' ∧
     ∀ k', PolicyCache.Get c' k' = (if decide (k' = k) then Some p else PolicyCache.Get c k') ∧
           PolicyCache.GetTimestamp c' k' =
             (if decide (k' = k) then ts else PolicyCache.GetTimestamp c k')) ∧
  (let '(r, c') := PolicyCache.Take c k in
   r = PolicyCache.Get c k ∧ PolicyCache.wf c' ∧
   ∀ k', PolicyCache.Get c' k' = (if decide (k' = k) then None else PolicyCache.Get c k') ∧
         PolicyCache.GetTimestamp c' k' =
           (if decide (k' = k) then ts_zero else PolicyCache.GetTimestamp c k')) ∧
  (∀ k', k' ∈ PolicyCache.GetAllKeys c ↔ PolicyCache.Get c k' ≠ None).
Proof.
  intros Hc. split_and!.
  - eexists. split; [done|]. split; [by apply (seq_put_sorted fst)|]. intros k'.
    rewrite !PolicyCache.Get_lookup, !PolicyCache.GetTimestamp_lookup, PolicyCache.lookup_put by done.
    by case_decide.
  - unfold PolicyCache.Take, PolicyCache.Get at 1. destruct (seq_find fst k c) as [e|] eqn:Hf.
    + split; [done|]. split; [by apply (seq_erase_sorted fst)|]. intros k'.
      rewrite !PolicyCache.Get_lookup, !PolicyCache.GetTimestamp_lookup,
        PolicyCache.lookup_erase by done. by case_decide.
    + split_and!; [done..|]. intros k'. case_decide as Hk; [subst k'|done].
      unfold PolicyCache.Get, PolicyCache.GetTimestamp. by rewrite Hf.
  - intros k'. unfold PolicyCache.GetAllKeys. rewrite list_elem_of_fmap, PolicyCache.Get_lookup.
    split.
    + intros ([k'' v] & -> & Hin). apply PolicyCache.lookup_Some in Hin; [|done].
      cbn. by rewrite Hin.
    + destruct (PolicyCache.lookup c k') as [v|] eqn:Hl; [|done]. intros _.
      exists (k', v). split; [done|]. by apply PolicyCache.lookup_Some.
Qed.

(** ** Messages (policy-proto.proto, common-proto.proto)

    The wire format is protobuf's: the codec of the [uint64] field and of the
    repeated [uint64] field are parameters, with the documented round trip. *)
Class ProtoCodec := {
  ser_u64 : Z → string;
  parse_u64 : string → Z;
  ser_ids : cids → string;
  parse_ids : string → cids
}.
Class ProtoCodecLaws (C : ProtoCodec) : Prop := {
  parse_ser_u64 : ∀ w, 0 ≤ w < 2^64 → parse_u64 (ser_u64 w) = w;
  parse_ser_ids : ∀ l, (∀ c, c ∈ l → 0 ≤ c < 2^64) → parse_ids (ser_ids l) = l
}.

Inductive policy_type := WEIGHT_POLICY | AND_POLICY | OR_POLICY.
Record PolicyObject := mkPolicyObject { po_type : policy_type; policy_data : string }.

Section messages.
Context {C : ProtoCodec}.

Definition SerializeToProtoMessage (p : Policy) : PolicyObject :=
  match p with
  | WeightPolicy w => mkPolicyObject WEIGHT_POLICY (ser_u64 w)
  | ANDPolicy s => mkPolicyObject AND_POLICY (ser_ids s)
  | ORPolicy s => mkPolicyObject OR_POLICY (ser_ids s)
  end.

Definition Parse (protoPolicy : PolicyObject) : Policy :=
  match po_type protoPolicy with
  | WEIGHT_POLICY => WeightPolicy (parse_u64 (policy_data protoPolicy))
  | AND_POLICY => ANDPolicy (set_of_list (parse_ids (policy_data protoPolicy)))
  | OR_POLICY => ORPolicy (set_of_list (parse_ids (policy_data protoPolicy)))
  end.

(** A policy survives its message form: for every policy the code can
    hold, [Parse] of the [PolicyObject] built by [SerializeToProtoMessage]
    is the same policy, given that protobuf reads back the fields it
    wrote. *)
Theorem policy_message_roundtrip {L : ProtoCodecLaws C} p :
  policy_wf p → Parse (SerializeToProtoMessage p) = p.
Proof.
  destruct p as [w|s|s]; cbn.
  - intros. by rewrite parse_ser_u64.
  - intros [Hs Hb]. by rewrite parse_ser_ids, set_of_list_id by (done || apply _).
  - intros [Hs Hb]. by rewrite parse_ser_ids, set_of_list_id by (done || apply _).
Qed.
End messages.

(** ** PolicyParseClient::Create and ParseConfigFile *)

(** The loop that inserts every argument into [client_ids]. *)
Definition insert_args (policyArgs : list string) : outcome cids :=
  foldO (λ s arg, c ← stoull arg; Done (seq_insert id c s)) [] policyArgs.

Definition Create (policyType : string) (policyArgs : list string) : outcome Policy :=
  t ← GetPolicyTypeEnum policyType;
  match t with
  | POLICY_TYPE_WEIGHT =>
      match policyArgs with
      | [arg] => WeightPolicy <$> stoull arg
      | _ => Panic
      end
  | POLICY_TYPE_AND => ANDPolicy <$> insert_args policyArgs
  | POLICY_TYPE_OR => ORPolicy <$> insert_args policyArgs
  end.

Definition newline : Ascii.ascii := Ascii.Ascii false true false true false false false false.

(** The word loop of one line: [i == 0] is the id, [i == 1] the type, the
    rest are arguments. *)
Record line_st := mkLine { l_policyId : string; l_policyType : string; l_args : list string; l_i : Z }.
Definition line_step (st : line_st) (temp : string) : outcome line_st :=
  if l_i st =? 0 then
    n ← stoull temp;
    Done (mkLine (PolicyIdString n) (l_policyType st) (l_args st) (l_i st + 1))
  else if l_i st =? 1 then
    Done (mkLine (l_policyId st) temp (l_args st) (l_i st + 1))
  else Done (mkLine (l_policyId st) (l_policyType st) (l_args st ++ [temp]) (l_i st + 1)).

Definition parse_line (policyCache : PolicyCache.t) (line : string) : outcome PolicyCache.t :=
  st ← foldO line_step (mkLine "" "" [] 0) (getline_all space line);
  match PolicyCache.Get policyCache (l_policyId st) with
  | Some _ => Panic
  | None => p ← Create (l_policyType st) (l_args st);
            PolicyCache.Put policyCache (l_policyId st) (Some p) ts_zero
  end.

(** [file] is the content of the file, [None] when it cannot be opened. *)
Definition ParseConfigFile (file : option string) : outcome PolicyCache.t :=
  match file with
  | None => Panic
  | Some contents => foldO parse_line PolicyCache.empty (getline_all newline contents)
  end.

Lemma insert_args_to_string s l :
  ssorted id s → (∀ c, c ∈ l → 0 ≤ c < 2^64) →
  foldO (λ s arg, c ← stoull arg; Done (seq_insert id c s)) s (to_string <$> l) =
  Done (set_union s l).
Proof.
  revert s. induction l as [|a l IH]; intros s Hs Hl; [done|].
  cbn. rewrite stoull_to_string by set_solver. cbn. rewrite IH; [done| |set_solver].
  by apply (seq_insert_sorted id).
Qed.

(** The words of [ToString]: the type name and the arguments. *)
Definition words (p : Policy) : string * list string :=
  match p with
  | WeightPolicy w => ("weight", [to_string w])
  | ANDPolicy s => ("and", to_string <$> s)
  | ORPolicy s => ("or", to_string <$> s)
  end.

Lemma append_ids_words s l : append_ids s l = join_words s (to_string <$> l).
Proof.
  unfold append_ids, join_words. revert s. induction l as [|a l IH]; intros s; [done|].
  cbn [fmap list_fmap foldl]. rewrite IH. done.
Qed.

Lemma ToString_words p : ToString p = join_words (words p).1 (words p).2.
Proof. destruct p; cbn; [done|apply append_ids_words..]. Qed.

Definition is_word (b : string) : Prop := no_space b = true ∧ b ≠ "".

Lemma words_are_words p : is_word (words p).1 ∧ Forall is_word (words p).2.
Proof.
  destruct p; cbn; (split; [done|]); [repeat constructor; apply to_string_word|..];
    apply Forall_fmap, Forall_forall; intros c _; apply to_string_word.
Qed.

Lemma Create_words p : policy_wf p → Create (words p).1 (words p).2 = Done p.
Proof.
  assert (∀ s, policy_wf (ANDPolicy s) → insert_args (to_string <$> s) = Done s) as Hargs.
  { intros s [Hs Hb]. unfold insert_args. rewrite insert_args_to_string by (done || constructor).
    f_equal. by apply set_of_list_id. }
  destruct p as [w|s|s]; unfold Create; intros Hp; cbn.
  - by rewrite stoull_to_string.
  - by rewrite Hargs.
  - by rewrite Hargs.
Qed.

(** [Create] reads back what [ToString] prints: the first word names the
    class and the others are its arguments, for every policy the code can
    hold. *)
Theorem create_tostring p :
  policy_wf p →
  ∃ ty args, getline_all space (ToString p) = ty :: args ∧ Create ty args = Done p.
Proof.
  intros Hp. exists (words p).1, (words p).2. rewrite ToString_words.
  destruct (words_are_words p) as [[? ?] ?].
  split; [by apply getline_join|by apply Create_words].
Qed.

(** A configuration line: ["policyId policyType args..."]. *)
Definition config_line (e : Z * Policy) : string :=
  to_string e.1 +:+ String space (ToString e.2).

Lemma config_line_words e :
  config_line e = join_words (to_string e.1) ((words e.2).1 :: (words e.2).2).
Proof. unfold config_line. rewrite ToString_words. symmetry. apply join_words_app. Qed.

Lemma line_step_arg pid ty args i a :
  2 ≤ i → line_step (mkLine pid ty args i) a = Done (mkLine pid ty (args ++ [a]) (i + 1)).
Proof.
  intros Hi. unfold line_step. cbn.
  by rewrite (proj2 (Z.eqb_neq i 0)), (proj2 (Z.eqb_neq i 1)) by lia.
Qed.

Lemma line_args pid ty args0 args i :
  2 ≤ i → foldO line_step (mkLine pid ty args0 i) args =
  Done (mkLine pid ty (args0 ++ args) (i + Z.of_nat (length args))).
Proof.
  revert args0 i. induction args as [|a args IH]; intros args0 i Hi.
  - cbn. by rewrite app_nil_r, Z.add_0_r.
  - cbn [foldO]. rewrite line_step_arg by lia. cbn [mbind outcome_bind length].
    rewrite IH by lia. rewrite <- app_assoc. do 2 f_equal. lia.
Qed.

Lemma line_words n ty args :
  0 ≤ n < 2^64 →
  foldO line_step (mkLine "" "" [] 0) (to_string n :: ty :: args) =
  Done (mkLine (PolicyIdString n) ty args (2 + Z.of_nat (length args))).
Proof.
  intros Hn. cbn [foldO].
  assert (line_step (mkLine "" "" [] 0) (to_string n) = Done (mkLine (PolicyIdString n) "" [] 1))
    as -> by (unfold line_step; cbn [l_i Z.eqb]; by rewrite stoull_to_string).
  cbn [mbind outcome_bind].
  change (line_step (mkLine (PolicyIdString n) "" [] 1) ty)
    with (Done (mkLine (PolicyIdString n) ty [] 2)).
  cbn [mbind outcome_bind]. by rewrite line_args.
Qed.

Lemma parse_config_line c e :
  0 ≤ e.1 < 2^64 → policy_wf e.2 → PolicyCache.Get c (PolicyIdString e.1) = None →
  parse_line c (config_line e) = Done (seq_put fst (PolicyIdString e.1, (ts_zero, e.2)) c).
Proof.
  intros He Hp Hget. unfold parse_line. rewrite config_line_words, getline_join.
  - rewrite line_words by done. cbn [mbind outcome_bind l_policyId l_policyType l_args].
    by rewrite Hget, Create_words.
  - apply to_string_word.
  - apply to_string_word.
  - constructor; apply words_are_words.
Qed.

Lemma free_of_join d a bs :
  d ≠ space → free_of d a = true → Forall (λ b, free_of d b = true) bs →
  free_of d (join_words a bs) = true.
Proof.
  intros Hd Ha Hbs. unfold join_words. revert a Ha.
  induction Hbs as [|b bs Hb Hbs IH]; intros a Ha; cbn [foldl]; [done|]. apply IH.
  unfold free_of in *. rewrite all_chars_app, Ha. cbn. rewrite Hb, andb_true_r.
  by rewrite bool_decide_eq_false_2 by done.
Qed.

Lemma config_line_no_newline e : free_of newline (config_line e) = true.
Proof.
  rewrite config_line_words. apply free_of_join; [done|by apply to_string_free|].
  destruct e as [n [w|s|s]]; cbn; repeat constructor; try by apply to_string_free.
  - apply Forall_fmap, Forall_forall. intros. by apply to_string_free.
  - apply Forall_fmap, Forall_forall. intros. by apply to_string_free.
Qed.

(** [ParseConfigFile] loads a policy configuration file faithfully: from a
    file with one line per policy, with distinct 64-bit ids, it builds the
    cache that holds exactly those policies, each under its policy id with
    version 0.0. *)
Theorem parse_config_roundtrip entries :
  NoDup entries.*1 → (∀ e, e ∈ entries → 0 ≤ e.1 < 2^64 ∧ policy_wf e.2) →
  ∃ c, ParseConfigFile (Some (unlines newline (config_line <$> entries))) = Done c ∧
    PolicyCache.wf c ∧
    ∀ k v, PolicyCache.lookup c k = Some v ↔
      ∃ e, e ∈ entries ∧ k = PolicyIdString e.1 ∧ v = (ts_zero, e.2).
Proof.
  intros Hnd Hok. cbn. rewrite getline_unlines;
    [|by apply Forall_fmap, Forall_forall; intros; apply config_line_no_newline].
  assert (∀ c0, PolicyCache.wf c0 →
    (∀ e, e ∈ entries → PolicyCache.lookup c0 (PolicyIdString e.1) = None) →
    ∃ c, foldO parse_line c0 (config_line <$> entries) = Done c ∧ PolicyCache.wf c ∧
    ∀ k v, PolicyCache.lookup c k = Some v ↔ PolicyCache.lookup c0 k = Some v ∨
      ∃ e, e ∈ entries ∧ k = PolicyIdString e.1 ∧ v = (ts_zero, e.2)) as Hgen.
  { induction entries as [|e entries IH]; intros c0 Hc0 Hfree; [exists c0; set_solver|].
    apply NoDup_cons in Hnd as [Hni Hnd]. cbn [fmap list_fmap foldO].
    destruct (Hok e) as [He Hp]; [set_solver|].
    rewrite parse_config_line;
      [|done|done|rewrite PolicyCache.Get_lookup, Hfree by set_solver; done].
    destruct (IH Hnd) with (c0 := seq_put fst (PolicyIdString e.1, (ts_zero, e.2)) c0)
      as (c & H1 & H2 & H3); [set_solver|by apply (seq_put_sorted fst)| |].
    - intros e' He'. rewrite PolicyCache.lookup_put by done. rewrite decide_False; [set_solver|].
      intros Heq. apply Hni. apply PolicyIdString_inj in Heq; [|apply Hok; set_solver|done].
      rewrite <- Heq. by apply list_elem_of_fmap_2.
    - exists c. split_and!; [done..|]. intros k v. rewrite H3, PolicyCache.lookup_put by done.
      pose proof (Hfree e (list_elem_of_here _ _)) as Hne. case_decide as Hk; split.
      + subst k. intros [[= <-]|(e' & ? & ? & ?)]; right;
          [exists e; by split; [left|]|exists e'; by split; [right|]].
      + subst k. rewrite Hne. intros [?|(e' & [->|?]%elem_of_cons & ? & ->)]; [done|by left|].
        right. by exists e'.
      + intros [?|(e' & ? & ? & ?)]; [by left|]. right. exists e'. by split; [right|].
      + intros [?|(e' & [->|?]%elem_of_cons & ? & ?)]; [by left|done|]. right. by exists e'. }
  destruct (Hgen PolicyCache.empty) as (c & H1 & H2 & H3); [constructor|done|].
  exists c. split_and!; [done..|]. intros k v. rewrite H3. cbn. naive_solver.
Qed.

(** ** Concrete instances *)

(** A codec that writes decimal numbers, one per line. *)
Definition text_codec : ProtoCodec := {|
  ser_u64 := to_string;
  parse_u64 := λ s, match stoull s with Done w => w | Panic => 0 end;
  ser_ids := λ l, unlines newline (to_string <$> l);
  parse_ids := λ s, (λ w, match stoull w with Done c => c | Panic => 0 end) <$> getline_all newline s
|}.

Lemma text_codec_laws : ProtoCodecLaws text_codec.
Proof.
  split.
  - intros w Hw. cbn. by rewrite stoull_to_string.
  - intros l Hl. unfold parse_ids, ser_ids, text_codec. rewrite getline_unlines;
      [|by apply Forall_fmap, Forall_forall; intros; apply to_string_free].
    induction l as [|a l IH]; [done|]. cbn. rewrite stoull_to_string by set_solver.
    f_equal. apply IH. set_solver.
Qed.

Lemma policy_message_roundtrip_witness :
  Parse (C := text_codec) (SerializeToProtoMessage (C := text_codec) (ANDPolicy [1; 4])) =
  ANDPolicy [1; 4].
Proof.
  apply (policy_message_roundtrip (C := text_codec) (L := text_codec_laws)).
  split; [sorted_ids|set_solver by lia].
Defined.

Lemma policy_cache_is_map_witness :
  (PolicyCache.Take [("p#0", (ts_zero, WeightPolicy 1))] "p#0").1 = Some (WeightPolicy 1).
Proof.
  destruct (policy_cache_is_map [("p#0", (ts_zero, WeightPolicy 1))] "p#0" (WeightPolicy 1) ts_zero)
    as (_ & H & _); [apply (ssorted_singleton fst)|]. apply H.
Defined.

Lemma create_tostring_witness :
  ToString (ORPolicy [3; 12]) = "or 3 12" ∧
  ∃ ty args, getline_all space (ToString (ORPolicy [3; 12])) = ty :: args ∧
             Create ty args = Done (ORPolicy [3; 12]).
Proof.
  split; [vm_compute; reflexivity|]. apply create_tostring. split; [sorted_ids|set_solver by lia].
Defined.

Lemma parse_config_roundtrip_witness :
  ∃ c, ParseConfigFile (Some (unlines newline
         (config_line <$> [(0, WeightPolicy 2); (7, ANDPolicy [1; 3])]))) = Done c ∧
       PolicyCache.lookup c "p#7" = Some (ts_zero, ANDPolicy [1; 3]).
Proof.
  destruct (parse_config_roundtrip [(0, WeightPolicy 2); (7, ANDPolicy [1; 3])]) as (c & Hc & _ & Hl).
  - apply (bool_decide_unpack _). vm_compute; exact I.
  - intros e. rewrite !elem_of_cons. intros [->|[->|?%not_elem_of_nil]]; [cbn; lia| |done].
    cbn. split; [lia|]. split; [sorted_ids|set_solver by lia].
  - exists c. split; [exact Hc|]. apply Hl. exists (7, ANDPolicy [1; 3]).
    split; [set_solver|]. split; vm_compute; reflexivity.
Defined.
