(* ===== verification/ServerState.v ===== *)
(** * State of a Sintr replica

    The data of src/src/store/sintrstore/server.h and the messages it stores
    (sintr-proto.proto, common-proto.proto).

    Transactions are objects in a heap, referred to by pointers, because the
    server keeps several references to one object and changes it in place
    (the digest, the implicit policy reads and the merged dependencies are
    written into the object held by [ongoing]).  A [CommittedProof] owns its
    transaction, so a proof pointer is [0] (null) or the number of the
    transaction object. *)
From S2P Require Import Prelude OrderedSeq CppString Timestamp VersionStore Policy PolicyParse.

Notation ptr := positive.
Notation digest := string.
Notation proof := Z.

Definition null : proof := 0.
Definition proof_of (p : ptr) : proof := Zpos p.

(** ** Messages *)

Record ReadMessage := mkRead {
  r_key : string;
  r_readtime : Timestamp;
  r_is_table_col_version : bool;
  r_hashed_readtime : string
}.

(** [value] is optional; [w_value] is the value with its default. *)
Record WriteMessage := mkWrite {
  w_key : string;
  w_opt_value : option string;
  w_is_table_col_version : bool
}.
Definition w_value (w : WriteMessage) : string := default "" (w_opt_value w).

(** [Dependency] with the two fields of its [Write] the server looks at. *)
Record Dependency := mkDep {
  d_prepared_txn_digest : digest;
  d_prepared_timestamp : Timestamp;
  d_involved_group : Z
}.

Inductive TxnPolicyType := NONE | POLICY_ID_POLICY.
#[export] Instance TxnPolicyType_eq_dec : EqDecision TxnPolicyType.
Proof. solve_decision. Defined.

(** [ReadSet]: a merged read set. *)
Record MergedReadSet := mkMerged {
  m_read_set : list ReadMessage;
  m_deps : list Dependency;
  m_read_predicates : list string
}.

(** [SignedMessage]: the signer, the payload and the signature. *)
Record SignedMessage := mkSigned { sm_process_id : Z; sm_data : string; sm_signature : string }.

Record PolicyVersion := mkPolicyVersion { pv_policy_id : string; pv_timestamp : Timestamp }.

Record Transaction := mkTxn {
  client_id : Z;
  client_seq_num : Z;
  read_set : list ReadMessage;
  write_set : list WriteMessage;
  deps : list Dependency;
  t_timestamp : Timestamp;
  query_set : list digest;
  table_writes : list (string * string);
  read_predicates : list string;
  txndigest : option digest;
  merged_read_set : option MergedReadSet;
  policy_type : TxnPolicyType;
  implicit_policy_reads : list ReadMessage;
  endorsements : list SignedMessage;
  hashed_timestamp : string;
  lift_keys : list string;
  policy_versions : list PolicyVersion;
  involved_groups : list Z
}.

Definition set_merged (m : MergedReadSet) (t : Transaction) : Transaction :=
  mkTxn (client_id t) (client_seq_num t) (read_set t) (write_set t) (deps t) (t_timestamp t)
    (query_set t) (table_writes t) (read_predicates t) (txndigest t) (Some m) (policy_type t)
    (implicit_policy_reads t) (endorsements t) (hashed_timestamp t) (lift_keys t) (policy_versions t)
    (involved_groups t).

Definition add_implicit_policy_reads (rs : list ReadMessage) (t : Transaction) : Transaction :=
  mkTxn (client_id t) (client_seq_num t) (read_set t) (write_set t) (deps t) (t_timestamp t)
    (query_set t) (table_writes t) (read_predicates t) (txndigest t) (merged_read_set t) (policy_type t)
    (implicit_policy_reads t ++ rs) (endorsements t) (hashed_timestamp t) (lift_keys t)
    (policy_versions t) (involved_groups t).

Definition set_txndigest (d : digest) (t : Transaction) : Transaction :=
  mkTxn (client_id t) (client_seq_num t) (read_set t) (write_set t) (deps t) (t_timestamp t)
    (query_set t) (table_writes t) (read_predicates t) (Some d) (merged_read_set t) (policy_type t)
    (implicit_policy_reads t) (endorsements t) (hashed_timestamp t) (lift_keys t) (policy_versions t)
    (involved_groups t).

(** [ConcurrencyControl::Result]. *)
Inductive Result := COMMIT | ABORT | ABSTAIN | WAIT | RETRY | IGNORE.
#[export] Instance Result_eq_dec : EqDecision Result.
Proof. solve_decision. Defined.

(** [CommitDecision]. *)
Inductive CommitDecision := DCOMMIT | DABORT.
#[export] Instance CommitDecision_eq_dec : EqDecision CommitDecision.
Proof. solve_decision. Defined.
#[export] Instance CommitDecision_countable : Countable CommitDecision.
Proof.
  refine (inj_countable' (λ d, match d with DCOMMIT => false | DABORT => true end)
            (λ b : bool, if b then DABORT else DCOMMIT) _).
  by intros [].
Defined.

Record Signature := mkSig { sig_process_id : Z; sig_bytes : string }.
(** [map<uint64, Signatures>] in its iteration order. *)
Notation GroupedSignatures := (list (Z * list Signature)).

(** The signatures of a [CommittedProof]. *)
Inductive ProofSigs := ByP1 (sigs : GroupedSignatures) | ByP2 (sigs : GroupedSignatures) (view : Z).

(** [CommittedProof] as a message; the view is that of its phase-2
    signatures. *)
Record CommittedProof := mkProof { cp_txn : Transaction; cp_sigs : option ProofSigs }.

(** [Writeback]: the oneof of certificates, then the message.  The
    transactions of messages are objects of the heap. *)
Inductive WbReply :=
| WbNone
| WbP1 (sigs : GroupedSignatures)
| WbP2 (sigs : GroupedSignatures)
| WbConflict (conflict : CommittedProof).
Record Writeback := mkWb {
  wb_decision : CommitDecision;
  wb_txn_digest : option digest;
  wb_txn : option ptr;
  wb_reply : WbReply;
  wb_p2_view : option Z
}.

Record Phase2 := mkPhase2 {
  p2_req_id : Z;
  p2m_decision : CommitDecision;
  p2_txn : option ptr;
  p2_digest : option digest;
  p2_grouped_sigs : GroupedSignatures;
  p2_simulated_equiv : bool
}.

(** A message that came before its transaction. *)
Inductive ooMsg := OoP2 (remote : Z) (m : Phase2) | OoWb (remote : Z) (m : Writeback).

(** ** Data of the server *)

Record Value := mkValue { val : string; v_proof : proof }.
Record PolicyStoreValue := mkPolicyValue { psv_policy : Policy; psv_proof : proof }.

(** 1) timestamp of the reading transaction, 2) timestamp of the value read,
    3) its proof. *)
Notation committedRead := (Timestamp * Timestamp * proof)%type.

(** [WaitingDependency_new]. *)
Record WaitingDependency := mkWaiting { wd_reqId : Z; wd_deps : gset digest }.

Record P1MetaData := mkP1Meta {
  pm_reqId : Z;
  pm_result : Result;
  pm_conflict : proof;
  pm_hasP1 : bool;
  pm_hasSignedP1 : bool;
  pm_sub_original : bool;
  pm_original : option Z;
  pm_fallbacks_interested : bool;
  pm_forceMaterialize : bool;
  pm_alreadyForceMaterialized : bool
}.
(** [P1MetaData()]; [result] is not initialised there and not read before
    [hasP1] is set. *)
Definition P1MetaData_init : P1MetaData :=
  mkP1Meta 0 COMMIT null false false false None false false false.

(** Per-transaction state of the second phase; [original_address] is null
    until [has_original]. *)
Record P2MetaData := mkP2Meta {
  p2m_current_view : Z;
  p2m_decision_view : Z;
  p2m_hasP2 : bool;
  p2m_p2Decision : CommitDecision;
  p2m_original : option (Z * Z)
}.
(** [P2MetaData()]; [p2Decision] is not read before [hasP2] is set. *)
Definition P2MetaData_init : P2MetaData := mkP2Meta 0 0 false DCOMMIT None.

(** The votes for one decision in one view: who voted, the signatures kept
    and their number. *)
Record VoteQuorum := mkVQ { vq_ids : gset Z; vq_sigs : list Signature; vq_count : Z }.
Record ElectFBorganizer := mkEO {
  view_complete : gset Z;
  view_quorums : gmap (Z * CommitDecision) VoteQuorum;
  move_view_counts : gmap Z (Z * bool)
}.
Definition VoteQuorum_init : VoteQuorum := mkVQ ∅ [] 0.
Definition ElectFBorganizer_init : ElectFBorganizer := mkEO ∅ ∅ ∅.

(** Work handed to the thread pool when [ASYNC_WRITES] is set. *)
Inductive job :=
| ApplyPrepare (p : ptr) (ts : Timestamp) (d : digest)
| ApplyCommit (v : Value) (p : ptr) (ts : Timestamp) (d : digest)
| PurgeTable (p : ptr) (ts : Timestamp) (d : digest).

(** What [SetP1] puts into a reply: result, conflict, abstain conflict. *)
Record P1Part := mkP1Part { p1p_result : Result; p1p_conflict : proof; p1p_abstain : option ptr }.
(** What [SetP2] puts into a reply. *)
Record P2Part := mkP2Part { p2p_decision : CommitDecision; p2p_view : Z }.

(** Calls that leave the server core: messages and wake-ups.  Addresses are
    numbers; a reply to the interested clients carries the map of them. *)
Inductive event :=
| RelayP1 (remote : Z) (dep : digest) (conflict_id : Z) (d : digest)
| Phase1Reply (reqId : Z) (r : Result) (conflict : proof) (d : digest) (remote : option Z)
    (abstain_conflict : option ptr) (failEndorsementCheck tooManyEndorsements : bool)
| Phase2Reply (reqId : Z) (d : digest) (p2 : P2Part) (remote : Z)
| Phase1FBReply (reqId : Z) (d : digest) (p1 : option P1Part) (p2 : option P2Part)
    (view : option Z) (remotes : gmap Z Z)
| Phase2FBReply (reqId : Z) (d : digest) (p2 : P2Part) (view : option Z) (original : option Z)
    (remotes : gmap Z Z)
| ForwardWb (reqId : Z) (d : digest) (wb : Writeback) (remote : Z)
| SendViewMsg (remote : Z) (d : digest) (view : Z)
| ElectFBMsg (group replicaIdx : Z) (d : digest) (decision : CommitDecision) (view : Z)
| ElectFBOwn (d : digest) (decision : CommitDecision) (view : Z)
| DecisionFBMsg (d : digest) (decision : CommitDecision) (view : Z) (sigs : list Signature)
| MoveViewMsg (d : digest) (view : Z)
| CleanQueriesCall (d : digest) (is_commit : bool)
| CheckWaitingQueriesCall (d : digest) (is_abort : bool) (prepare_or_commit : Z)
| ForceMaterializationCall (r : Result) (d : digest).

(** ** Configuration and what the server calls outside its own code

    [part] is the partitioner passed to the constructor, [policyIdFunction]
    the policy function chosen at start-up, [TimestampDigest] a hash,
    [parse_PolicyObject] and the codec protobuf's.  The semantic concurrency
    control over SQL predicates keeps a state of its own, of which nothing is
    assumed; [mergeQueries] is the merge of a transaction's query read sets
    once it has queries. *)
Class Env := {
  validateProofs : bool;
  signedMessages : bool;
  verifyDeps : bool;
  signClientProposals : bool;
  multiThreading : bool;
  mainThreadDispatching : bool;
  dispatchMessageReceive : bool;
  all_to_all_fb : bool;
  rtsMode : Z;
  maxDepDepth : Z;
  no_fallback : bool;
  sql_mode : bool;
  useSemanticCC : bool;
  cacheReadSet : bool;
  mergeActiveAtClient : bool;
  hideTimestamps : bool;
  policyCCC : bool;
  parallelEndorsementCheck : bool;
  serverSkipEndorsementCheck : bool;
  includeReadsetForTxnPolicy : bool;
  checkPolicyLeak : bool;
  signFinishValidation : bool;
  simulate_inconsistency : bool;
  disable_prepare_visibility : bool;
  config_n : Z;
  idx : Z;
  replica_id : Z;
  groupIdx : Z;
  numGroups : Z;
  timeDelta : Z;
  part : string → Z;
  policyIdFunction : string → string → string;
  TimestampDigest : Timestamp → string;
  parse_PolicyObject : string → PolicyObject;
  proto_codec :: ProtoCodec;
  parse_ValTxnMsg : string → digest;
  verify_client : Z → string → string → bool;
  sem_state : Type;
  CheckMonotonicTableColVersions : sem_state → digest → Transaction → bool;
  CheckPredicates : sem_state → Transaction → Timestamp → list ReadMessage → list string →
    Result * list digest;
  RecordReadPredicatesAndWrites : sem_state → Transaction → Timestamp → bool → sem_state;
  ClearPredicateAndWrites : sem_state → Transaction → sem_state;
  ApplyTableWrites : Transaction → Timestamp → digest → list string;
  mergeQueries : Transaction → digest → Result * option MergedReadSet
}.

(** [IsKeyOwned]: the partitioner's group, as an [int], is this one. *)
Definition IsKeyOwned `{Env} (key : string) : bool := int32 (part key `mod` numGroups) =? groupIdx.

Section state.
Context `{E : Env}.

Record server := mkServer {
  heap : gmap ptr Transaction;
  ongoing : gmap digest ptr;
  prepared : gmap digest (Timestamp * ptr);
  preparedReads : gmap string (gset ptr);
  preparedWrites : gmap string (list (Timestamp * ptr));
  committed : gmap digest proof;
  aborted : gset digest;
  committedReads : gmap string (list committedRead);
  store : vstore string Timestamp Value;
  policyStore : vstore string Timestamp PolicyStoreValue;
  rts : gmap string Z;
  rts_list : gmap string (list Timestamp);
  dependents : gmap digest (gset digest);
  waitingDependencies : gmap digest WaitingDependency;
  p1MetaData : gmap digest P1MetaData;
  interestedClients : gmap digest (gmap Z Z);
  p2MetaDatas : gmap digest P2MetaData;
  ElectQuorums : gmap digest ElectFBorganizer;
  proofSigs : gmap proof ProofSigs;
  TxnMissingQueries : gset digest;
  materialized : gset digest;
  dropped_p : gset digest;
  writebackMessages : gmap digest Writeback;
  ooMessages : gmap digest ooMsg;
  dropped_c : gmap digest (option Writeback);
  supplied_sync : gset digest;
  sem : sem_state;
  jobs : list job;
  out : list event
}.

(** Functional update of one field. *)
Definition upd_heap (f : gmap ptr Transaction → gmap ptr Transaction) (s : server) : server :=
  mkServer (f (heap s)) (ongoing s) (prepared s) (preparedReads s) (preparedWrites s) (committed s) (aborted s) (committedReads s) (store s) (policyStore s) (rts s) (rts_list s) (dependents s) (waitingDependencies s) (p1MetaData s) (interestedClients s) (p2MetaDatas s) (ElectQuorums s) (proofSigs s) (TxnMissingQueries s) (materialized s) (dropped_p s) (writebackMessages s) (ooMessages s) (dropped_c s) (supplied_sync s) (sem s) (jobs s) (out s).
Definition upd_ongoing (f : gmap digest ptr → gmap digest ptr) (s : server) : server :=
  mkServer (heap s) (f (ongoing s)) (prepared s) (preparedReads s) (preparedWrites s) (committed s) (aborted s) (committedReads s) (store s) (policyStore s) (rts s) (rts_list s) (dependents s) (waitingDependencies s) (p1MetaData s) (interestedClients s) (p2MetaDatas s) (ElectQuorums s) (proofSigs s) (TxnMissingQueries s) (materialized s) (dropped_p s) (writebackMessages s) (ooMessages s) (dropped_c s) (supplied_sync s) (sem s) (jobs s) (out s).
Definition upd_prepared (f : gmap digest (Timestamp * ptr) → gmap digest (Timestamp * ptr)) (s : server) : server :=
  mkServer (heap s) (ongoing s) (f (prepared s)) (preparedReads s) (preparedWrites s) (committed s) (aborted s) (committedReads s) (store s) (policyStore s) (rts s) (rts_list s) (dependents s) (waitingDependencies s) (p1MetaData s) (interestedClients s) (p2MetaDatas s) (ElectQuorums s) (proofSigs s) (TxnMissingQueries s) (materialized s) (dropped_p s) (writebackMessages s) (ooMessages s) (dropped_c s) (supplied_sync s) (sem s) (jobs s) (out s).
Definition upd_preparedReads (f : gmap string (gset ptr) → gmap string (gset ptr)) (s : server) : server :=
  mkServer (heap s) (ongoing s) (prepared s) (f (preparedReads s)) (preparedWrites s) (committed s) (aborted s) (committedReads s) (store s) (policyStore s) (rts s) (rts_list s) (dependents s) (waitingDependencies s) (p1MetaData s) (interestedClients s) (p2MetaDatas s) (ElectQuorums s) (proofSigs s) (TxnMissingQueries s) (materialized s) (dropped_p s) (writebackMessages s) (ooMessages s) (dropped_c s) (supplied_sync s) (sem s) (jobs s) (out s).
Definition upd_preparedWrites (f : gmap string (list (Timestamp * ptr)) → gmap string (list (Timestamp * ptr))) (s : server) : server :=
  mkServer (heap s) (ongoing s) (prepared s) (preparedReads s) (f (preparedWrites s)) (committed s) (aborted s) (committedReads s) (store s) (policyStore s) (rts s) (rts_list s) (dependents s) (waitingDependencies s) (p1MetaData s) (interestedClients s) (p2MetaDatas s) (ElectQuorums s) (proofSigs s) (TxnMissingQueries s) (materialized s) (dropped_p s) (writebackMessages s) (ooMessages s) (dropped_c s) (supplied_sync s) (sem s) (jobs s) (out s).
Definition upd_committed (f : gmap digest proof → gmap digest proof) (s : server) : server :=
  mkServer (heap s) (ongoing s) (prepared s) (preparedReads s) (preparedWrites s) (f (committed s)) (aborted s) (committedReads s) (store s) (policyStore s) (rts s) (rts_list s) (dependents s) (waitingDependencies s) (p1MetaData s) (interestedClients s) (p2MetaDatas s) (ElectQuorums s) (proofSigs s) (TxnMissingQueries s) (materialized s) (dropped_p s) (writebackMessages s) (ooMessages s) (dropped_c s) (supplied_sync s) (sem s) (jobs s) (out s).
Definition upd_aborted (f : gset digest → gset digest) (s : server) : server :=
  mkServer (heap s) (ongoing s) (prepared s) (preparedReads s) (preparedWrites s) (committed s) (f (aborted s)) (committedReads s) (store s) (policyStore s) (rts s) (rts_list s) (dependents s) (waitingDependencies s) (p1MetaData s) (interestedClients s) (p2MetaDatas s) (ElectQuorums s) (proofSigs s) (TxnMissingQueries s) (materialized s) (dropped_p s) (writebackMessages s) (ooMessages s) (dropped_c s) (supplied_sync s) (sem s) (jobs s) (out s).
Definition upd_committedReads (f : gmap string (list committedRead) → gmap string (list committedRead)) (s : server) : server :=
  mkServer (heap s) (ongoing s) (prepared s) (preparedReads s) (preparedWrites s) (committed s) (aborted s) (f (committedReads s)) (store s) (policyStore s) (rts s) (rts_list s) (dependents s) (waitingDependencies s) (p1MetaData s) (interestedClients s) (p2MetaDatas s) (ElectQuorums s) (proofSigs s) (TxnMissingQueries s) (materialized s) (dropped_p s) (writebackMessages s) (ooMessages s) (dropped_c s) (supplied_sync s) (sem s) (jobs s) (out s).
Definition upd_store (f : vstore string Timestamp Value → vstore string Timestamp Value) (s : server) : server :=
  mkServer (heap s) (ongoing s) (prepared s) (preparedReads s) (preparedWrites s) (committed s) (aborted s) (committedReads s) (f (store s)) (policyStore s) (rts s) (rts_list s) (dependents s) (waitingDependencies s) (p1MetaData s) (interestedClients s) (p2MetaDatas s) (ElectQuorums s) (proofSigs s) (TxnMissingQueries s) (materialized s) (dropped_p s) (writebackMessages s) (ooMessages s) (dropped_c s) (supplied_sync s) (sem s) (jobs s) (out s).
Definition upd_policyStore (f : vstore string Timestamp PolicyStoreValue → vstore string Timestamp PolicyStoreValue) (s : server) : server :=
  mkServer (heap s) (ongoing s) (prepared s) (preparedReads s) (preparedWrites s) (committed s) (aborted s) (committedReads s) (store s) (f (policyStore s)) (rts s) (rts_list s) (dependents s) (waitingDependencies s) (p1MetaData s) (interestedClients s) (p2MetaDatas s) (ElectQuorums s) (proofSigs s) (TxnMissingQueries s) (materialized s) (dropped_p s) (writebackMessages s) (ooMessages s) (dropped_c s) (supplied_sync s) (sem s) (jobs s) (out s).
Definition upd_rts (f : gmap string Z → gmap string Z) (s : server) : server :=
  mkServer (heap s) (ongoing s) (prepared s) (preparedReads s) (preparedWrites s) (committed s) (aborted s) (committedReads s) (store s) (policyStore s) (f (rts s)) (rts_list s) (dependents s) (waitingDependencies s) (p1MetaData s) (interestedClients s) (p2MetaDatas s) (ElectQuorums s) (proofSigs s) (TxnMissingQueries s) (materialized s) (dropped_p s) (writebackMessages s) (ooMessages s) (dropped_c s) (supplied_sync s) (sem s) (jobs s) (out s).
Definition upd_rts_list (f : gmap string (list Timestamp) → gmap string (list Timestamp)) (s : server) : server :=
  mkServer (heap s) (ongoing s) (prepared s) (preparedReads s) (preparedWrites s) (committed s) (aborted s) (committedReads s) (store s) (policyStore s) (rts s) (f (rts_list s)) (dependents s) (waitingDependencies s) (p1MetaData s) (interestedClients s) (p2MetaDatas s) (ElectQuorums s) (proofSigs s) (TxnMissingQueries s) (materialized s) (dropped_p s) (writebackMessages s) (ooMessages s) (dropped_c s) (supplied_sync s) (sem s) (jobs s) (out s).
Definition upd_dependents (f : gmap digest (gset digest) → gmap digest (gset digest)) (s : server) : server :=
  mkServer (heap s) (ongoing s) (prepared s) (preparedReads s) (preparedWrites s) (committed s) (aborted s) (committedReads s) (store s) (policyStore s) (rts s) (rts_list s) (f (dependents s)) (waitingDependencies s) (p1MetaData s) (interestedClients s) (p2MetaDatas s) (ElectQuorums s) (proofSigs s) (TxnMissingQueries s) (materialized s) (dropped_p s) (writebackMessages s) (ooMessages s) (dropped_c s) (supplied_sync s) (sem s) (jobs s) (out s).
Definition upd_waitingDependencies (f : gmap digest WaitingDependency → gmap digest WaitingDependency) (s : server) : server :=
  mkServer (heap s) (ongoing s) (prepared s) (preparedReads s) (preparedWrites s) (committed s) (aborted s) (committedReads s) (store s) (policyStore s) (rts s) (rts_list s) (dependents s) (f (waitingDependencies s)) (p1MetaData s) (interestedClients s) (p2MetaDatas s) (ElectQuorums s) (proofSigs s) (TxnMissingQueries s) (materialized s) (dropped_p s) (writebackMessages s) (ooMessages s) (dropped_c s) (supplied_sync s) (sem s) (jobs s) (out s).
Definition upd_p1MetaData (f : gmap digest P1MetaData → gmap digest P1MetaData) (s : server) : server :=
  mkServer (heap s) (ongoing s) (prepared s) (preparedReads s) (preparedWrites s) (committed s) (aborted s) (committedReads s) (store s) (policyStore s) (rts s) (rts_list s) (dependents s) (waitingDependencies s) (f (p1MetaData s)) (interestedClients s) (p2MetaDatas s) (ElectQuorums s) (proofSigs s) (TxnMissingQueries s) (materialized s) (dropped_p s) (writebackMessages s) (ooMessages s) (dropped_c s) (supplied_sync s) (sem s) (jobs s) (out s).
Definition upd_interestedClients (f : gmap digest (gmap Z Z) → gmap digest (gmap Z Z)) (s : server) : server :=
  mkServer (heap s) (ongoing s) (prepared s) (preparedReads s) (preparedWrites s) (committed s) (aborted s) (committedReads s) (store s) (policyStore s) (rts s) (rts_list s) (dependents s) (waitingDependencies s) (p1MetaData s) (f (interestedClients s)) (p2MetaDatas s) (ElectQuorums s) (proofSigs s) (TxnMissingQueries s) (materialized s) (dropped_p s) (writebackMessages s) (ooMessages s) (dropped_c s) (supplied_sync s) (sem s) (jobs s) (out s).
Definition upd_p2MetaDatas (f : gmap digest P2MetaData → gmap digest P2MetaData) (s : server) : server :=
  mkServer (heap s) (ongoing s) (prepared s) (preparedReads s) (preparedWrites s) (committed s) (aborted s) (committedReads s) (store s) (policyStore s) (rts s) (rts_list s) (dependents s) (waitingDependencies s) (p1MetaData s) (interestedClients s) (f (p2MetaDatas s)) (ElectQuorums s) (proofSigs s) (TxnMissingQueries s) (materialized s) (dropped_p s) (writebackMessages s) (ooMessages s) (dropped_c s) (supplied_sync s) (sem s) (jobs s) (out s).
Definition upd_ElectQuorums (f : gmap digest ElectFBorganizer → gmap digest ElectFBorganizer) (s : server) : server :=
  mkServer (heap s) (ongoing s) (prepared s) (preparedReads s) (preparedWrites s) (committed s) (aborted s) (committedReads s) (store s) (policyStore s) (rts s) (rts_list s) (dependents s) (waitingDependencies s) (p1MetaData s) (interestedClients s) (p2MetaDatas s) (f (ElectQuorums s)) (proofSigs s) (TxnMissingQueries s) (materialized s) (dropped_p s) (writebackMessages s) (ooMessages s) (dropped_c s) (supplied_sync s) (sem s) (jobs s) (out s).
Definition upd_proofSigs (f : gmap proof ProofSigs → gmap proof ProofSigs) (s : server) : server :=
  mkServer (heap s) (ongoing s) (prepared s) (preparedReads s) (preparedWrites s) (committed s) (aborted s) (committedReads s) (store s) (policyStore s) (rts s) (rts_list s) (dependents s) (waitingDependencies s) (p1MetaData s) (interestedClients s) (p2MetaDatas s) (ElectQuorums s) (f (proofSigs s)) (TxnMissingQueries s) (materialized s) (dropped_p s) (writebackMessages s) (ooMessages s) (dropped_c s) (supplied_sync s) (sem s) (jobs s) (out s).
Definition upd_TxnMissingQueries (f : gset digest → gset digest) (s : server) : server :=
  mkServer (heap s) (ongoing s) (prepared s) (preparedReads s) (preparedWrites s) (committed s) (aborted s) (committedReads s) (store s) (policyStore s) (rts s) (rts_list s) (dependents s) (waitingDependencies s) (p1MetaData s) (interestedClients s) (p2MetaDatas s) (ElectQuorums s) (proofSigs s) (f (TxnMissingQueries s)) (materialized s) (dropped_p s) (writebackMessages s) (ooMessages s) (dropped_c s) (supplied_sync s) (sem s) (jobs s) (out s).
Definition upd_materialized (f : gset digest → gset digest) (s : server) : server :=
  mkServer (heap s) (ongoing s) (prepared s) (preparedReads s) (preparedWrites s) (committed s) (aborted s) (committedReads s) (store s) (policyStore s) (rts s) (rts_list s) (dependents s) (waitingDependencies s) (p1MetaData s) (interestedClients s) (p2MetaDatas s) (ElectQuorums s) (proofSigs s) (TxnMissingQueries s) (f (materialized s)) (dropped_p s) (writebackMessages s) (ooMessages s) (dropped_c s) (supplied_sync s) (sem s) (jobs s) (out s).
Definition upd_dropped_p (f : gset digest → gset digest) (s : server) : server :=
  mkServer (heap s) (ongoing s) (prepared s) (preparedReads s) (preparedWrites s) (committed s) (aborted s) (committedReads s) (store s) (policyStore s) (rts s) (rts_list s) (dependents s) (waitingDependencies s) (p1MetaData s) (interestedClients s) (p2MetaDatas s) (ElectQuorums s) (proofSigs s) (TxnMissingQueries s) (materialized s) (f (dropped_p s)) (writebackMessages s) (ooMessages s) (dropped_c s) (supplied_sync s) (sem s) (jobs s) (out s).
Definition upd_writebackMessages (f : gmap digest Writeback → gmap digest Writeback) (s : server) : server :=
  mkServer (heap s) (ongoing s) (prepared s) (preparedReads s) (preparedWrites s) (committed s) (aborted s) (committedReads s) (store s) (policyStore s) (rts s) (rts_list s) (dependents s) (waitingDependencies s) (p1MetaData s) (interestedClients s) (p2MetaDatas s) (ElectQuorums s) (proofSigs s) (TxnMissingQueries s) (materialized s) (dropped_p s) (f (writebackMessages s)) (ooMessages s) (dropped_c s) (supplied_sync s) (sem s) (jobs s) (out s).
Definition upd_ooMessages (f : gmap digest ooMsg → gmap digest ooMsg) (s : server) : server :=
  mkServer (heap s) (ongoing s) (prepared s) (preparedReads s) (preparedWrites s) (committed s) (aborted s) (committedReads s) (store s) (policyStore s) (rts s) (rts_list s) (dependents s) (waitingDependencies s) (p1MetaData s) (interestedClients s) (p2MetaDatas s) (ElectQuorums s) (proofSigs s) (TxnMissingQueries s) (materialized s) (dropped_p s) (writebackMessages s) (f (ooMessages s)) (dropped_c s) (supplied_sync s) (sem s) (jobs s) (out s).
Definition upd_dropped_c (f : gmap digest (option Writeback) → gmap digest (option Writeback)) (s : server) : server :=
  mkServer (heap s) (ongoing s) (prepared s) (preparedReads s) (preparedWrites s) (committed s) (aborted s) (committedReads s) (store s) (policyStore s) (rts s) (rts_list s) (dependents s) (waitingDependencies s) (p1MetaData s) (interestedClients s) (p2MetaDatas s) (ElectQuorums s) (proofSigs s) (TxnMissingQueries s) (materialized s) (dropped_p s) (writebackMessages s) (ooMessages s) (f (dropped_c s)) (supplied_sync s) (sem s) (jobs s) (out s).
Definition upd_supplied_sync (f : gset digest → gset digest) (s : server) : server :=
  mkServer (heap s) (ongoing s) (prepared s) (preparedReads s) (preparedWrites s) (committed s) (aborted s) (committedReads s) (store s) (policyStore s) (rts s) (rts_list s) (dependents s) (waitingDependencies s) (p1MetaData s) (interestedClients s) (p2MetaDatas s) (ElectQuorums s) (proofSigs s) (TxnMissingQueries s) (materialized s) (dropped_p s) (writebackMessages s) (ooMessages s) (dropped_c s) (f (supplied_sync s)) (sem s) (jobs s) (out s).
Definition upd_sem (f : sem_state → sem_state) (s : server) : server :=
  mkServer (heap s) (ongoing s) (prepared s) (preparedReads s) (preparedWrites s) (committed s) (aborted s) (committedReads s) (store s) (policyStore s) (rts s) (rts_list s) (dependents s) (waitingDependencies s) (p1MetaData s) (interestedClients s) (p2MetaDatas s) (ElectQuorums s) (proofSigs s) (TxnMissingQueries s) (materialized s) (dropped_p s) (writebackMessages s) (ooMessages s) (dropped_c s) (supplied_sync s) (f (sem s)) (jobs s) (out s).
Definition upd_jobs (f : list job → list job) (s : server) : server :=
  mkServer (heap s) (ongoing s) (prepared s) (preparedReads s) (preparedWrites s) (committed s) (aborted s) (committedReads s) (store s) (policyStore s) (rts s) (rts_list s) (dependents s) (waitingDependencies s) (p1MetaData s) (interestedClients s) (p2MetaDatas s) (ElectQuorums s) (proofSigs s) (TxnMissingQueries s) (materialized s) (dropped_p s) (writebackMessages s) (ooMessages s) (dropped_c s) (supplied_sync s) (sem s) (f (jobs s)) (out s).
Definition upd_out (f : list event → list event) (s : server) : server :=
  mkServer (heap s) (ongoing s) (prepared s) (preparedReads s) (preparedWrites s) (committed s) (aborted s) (committedReads s) (store s) (policyStore s) (rts s) (rts_list s) (dependents s) (waitingDependencies s) (p1MetaData s) (interestedClients s) (p2MetaDatas s) (ElectQuorums s) (proofSigs s) (TxnMissingQueries s) (materialized s) (dropped_p s) (writebackMessages s) (ooMessages s) (dropped_c s) (supplied_sync s) (sem s) (jobs s) (f (out s)).

Definition emit (e : event) : server → server := upd_out (λ l, l ++ [e]).
Definition dispatch (j : job) : server → server := upd_jobs (λ l, l ++ [j]).

(** The transaction object a pointer refers to; a dangling pointer is
    undefined behaviour. *)
Definition deref (s : server) (p : ptr) : outcome Transaction :=
  match heap s !! p with Some t => Done t | None => Panic end.

(** The proof a pointer refers to, as it is copied into a message. *)
Definition read_proof (s : server) (pr : proof) : outcome CommittedProof :=
  match pr with
  | Zpos p => t ← deref s p; Done (mkProof t (proofSigs s !! pr))
  | _ => Panic
  end.

(** A replica before any message. *)
Definition server_init (sem0 : sem_state) : server :=
  mkServer ∅ ∅ ∅ ∅ ∅ ∅ ∅ ∅ vs_empty vs_empty ∅ ∅ ∅ ∅ ∅ ∅ ∅ ∅ ∅ ∅ ∅ ∅ ∅ ∅ ∅ ∅ sem0 [] [].

End state.
