(* ===== verification/DemoEnv.v ===== *)
(** * A small configuration for concrete runs

    One group of six replicas, one of them faulty, that owns every key, no SQL engine, one policy
    id for all keys, a validation message that is the digest itself. *)
From S2P Require Import Prelude OrderedSeq CppString Timestamp VersionStore Policy PolicyParse ServerState.

(** [par] is [parallelEndorsementCheck], [incl] [includeReadsetForTxnPolicy],
    [leak] [checkPolicyLeak], [sign] [signFinishValidation], [parse] reads the
    digest from a validation. *)
Definition demo_env_sign (par incl leak sign : bool) (parse : string → string) : Env := {|
  validateProofs := true; signedMessages := false; verifyDeps := false;
  signClientProposals := false; multiThreading := false; mainThreadDispatching := false;
  dispatchMessageReceive := false; all_to_all_fb := false;
  rtsMode := 0; maxDepDepth := -1; no_fallback := true; sql_mode := false;
  useSemanticCC := false; cacheReadSet := false; mergeActiveAtClient := true;
  hideTimestamps := false; policyCCC := false; parallelEndorsementCheck := par;
  serverSkipEndorsementCheck := false; includeReadsetForTxnPolicy := incl;
  checkPolicyLeak := leak; signFinishValidation := sign; simulate_inconsistency := false;
  disable_prepare_visibility := true; config_n := 6; idx := 0; replica_id := 0; groupIdx := 0; numGroups := 1;
  timeDelta := 0; part := λ _, 0; policyIdFunction := λ _ _, "p#0"; TimestampDigest := λ _, "";
  parse_PolicyObject := λ _, mkPolicyObject WEIGHT_POLICY "0"; proto_codec := {| ser_u64 := λ _, ""; parse_u64 := λ _, 0;
    ser_ids := λ _, ""; parse_ids := λ _, [] |};
  parse_ValTxnMsg := parse; verify_client := λ _ _ _, true;
  sem_state := unit; CheckMonotonicTableColVersions := λ _ _ _, true;
  CheckPredicates := λ _ _ _ _ _, (COMMIT, []);
  RecordReadPredicatesAndWrites := λ x _ _ _, x; ClearPredicateAndWrites := λ x _, x;
  ApplyTableWrites := λ _ _ _, []; mergeQueries := λ _ _, (COMMIT, None)
|}.
Definition demo_env_with (par incl leak : bool) : Env := demo_env_sign par incl leak false (λ x, x).
Definition demo_env (par : bool) : Env := demo_env_with par false false.
