(* ===== verification/ServerTxn.v ===== *)
(** * Life cycle of a transaction at a replica

    From src/src/store/sintrstore: [Prepare], [Commit], [CommitWithProof],
    [Abort] and [Clean] with what they call (server.cc), the dependency
    bookkeeping (concurrencycontrol.cc), the buffered phase-1 results and the
    read timestamps (servertools.cc).  Every operation takes the state of the
    replica and returns the new one; [Panic] is a failed assertion. *)
From S2P Require Import Prelude OrderedSeq Timestamp VersionStore Policy PolicyParse ServerState.

Section ops.
Context `{E : Env}.
Implicit Types (s : server) (d : digest) (p : ptr) (ts : Timestamp).

(** ** Read and write indexes *)

(** [preparedReads[key].insert(txn)] and [.erase(txn)]. *)
Definition add_prepared_read (key : string) p s : server :=
  upd_preparedReads (λ m, <[key := {[p]} ∪ default ∅ (m !! key)]> m) s.
Definition remove_prepared_read (key : string) p s : server :=
  upd_preparedReads (λ m, <[key := default ∅ (m !! key) ∖ {[p]}]> m) s.
(** [preparedWrites[key].insert({ts, txn})] and [.erase(ts)]. *)
Definition add_prepared_write (key : string) ts p s : server :=
  upd_preparedWrites (λ m, <[key := seq_insert fst (ts, p) (default [] (m !! key))]> m) s.
Definition remove_prepared_write (key : string) ts s : server :=
  upd_preparedWrites (λ m, <[key := seq_erase fst ts (default [] (m !! key))]> m) s.

(** ** Prepare (server.cc) *)

(** The test mode that drops the first prepare of a transaction at two
    replicas. *)
Definition drop_prepare d (t : Transaction) s : bool * server :=
  if simulate_inconsistency then
    let target_replica := client_id t `mod` config_n in
    let drop_at_this_replica :=
      existsb (λ i, (target_replica + i) `mod` config_n =? idx) [0; 1] in
    if drop_at_this_replica then
      if bool_decide (d ∈ dropped_p s) then (false, s)
      else (true, upd_dropped_p (λ x, {[d]} ∪ x) s)
    else (false, s)
  else (false, s).

Definition prepare_read p s (read : ReadMessage) : server :=
  if negb (r_is_table_col_version read) && IsKeyOwned (r_key read)
  then add_prepared_read (r_key read) p s else s.

(** Records the policy read in the index and in the transaction object. *)
Definition prepare_policy_read p s (policyRead : string * Timestamp) : server :=
  let s1 := add_prepared_read policyRead.1 p s in
  upd_heap (alter (add_implicit_policy_reads
    [mkRead policyRead.1 policyRead.2 false ""]) p) s1.

Definition prepare_write (pt : TxnPolicyType) ts p s (write : WriteMessage) : server :=
  if w_is_table_col_version write then s
  else if negb (bool_decide (pt = POLICY_ID_POLICY)) && negb (IsKeyOwned (w_key write)) then s
  else add_prepared_write (w_key write) ts p s.

Definition Prepare s d (ptxn : ptr) (readSet : list ReadMessage)
    (implicitPolicyReads : list (string * Timestamp)) : outcome server :=
  txn ← deref s ptxn;
  let '(dropped, s) := drop_prepare d txn s in
  if dropped : bool then Done s else
  let ts := t_timestamp txn in
  match ongoing s !! d with
  | None => Done s
  | Some p =>
      ongoingTxn ← deref s p;
      _ ← uw_assert (bool_decide (is_Some (txndigest ongoingTxn)));
      match prepared s !! d with
      | Some _ => Done s
      | None =>
          let s := upd_prepared (insert d (ts, p)) s in
          let s := foldl (prepare_read p) s readSet in
          let s := foldl (prepare_policy_read p) s implicitPolicyReads in
          let s := foldl (prepare_write (policy_type ongoingTxn) ts p) s (write_set txn) in
          s ← (if useSemanticCC then
                 t ← deref s p;
                 Done (upd_sem (λ x, RecordReadPredicatesAndWrites x t ts false) s)
               else Done s);
          Done (if disable_prepare_visibility then s else dispatch (ApplyPrepare p ts d) s)
      end
  end.

(** ** Merging the read sets of queries (concurrencycontrol.cc)

    The paths that need no query state; the rest is [mergeQueries].  The
    object caches the merged set. *)
Definition mergeTxReadSets s d p :
    outcome (server * Result * (list ReadMessage * list Dependency * list string)) :=
  txn ← deref s p;
  let base := (read_set txn, deps txn, read_predicates txn) in
  if negb cacheReadSet && mergeActiveAtClient then Done (s, COMMIT, base)
  else match query_set txn with
  | [] => Done (s, COMMIT, base)
  | _ :: _ =>
      match merged_read_set txn with
      | Some m => Done (s, COMMIT, (m_read_set m, m_deps m, m_read_predicates m))
      | None =>
          let '(res, om) := mergeQueries txn d in
          match res, om with
          | COMMIT, Some m =>
              Done (upd_heap (alter (set_merged m) p) s, COMMIT,
                    (m_read_set m, m_deps m, m_read_predicates m))
          | _, _ => Done (s, res, base)
          end
      end
  end.

(** ** Committing (server.cc) *)

Definition add_committed_read ts (pr : proof) s (key : string) (readtime : Timestamp) : server :=
  upd_committedReads
    (λ m, <[key := seq_insert id (ts, readtime, pr) (default [] (m !! key))]> m) s.

Definition UpdateCommittedReads s p d ts (pr : proof) : outcome server :=
  '(s, _, (readSet, _, _)) ← mergeTxReadSets s d p;
  txn ← deref s p;
  let s := foldl (λ s read,
    if r_is_table_col_version read || negb (IsKeyOwned (r_key read)) then s
    else add_committed_read ts pr s (r_key read) (r_readtime read)) s readSet in
  Done (foldl (λ s read, add_committed_read ts pr s (r_key read) (r_readtime read)) s
          (implicit_policy_reads txn)).

(** [rts_set.erase(lower_bound(ts), end())]. *)
Definition drop_rts_from (key : string) ts s : server :=
  upd_rts_list (λ m, <[key := (lower_bound id ts (default [] (m !! key))).1]> m) s.

(** The write loop of [CommitToStore]; [None] for the value is the [return]
    that follows the first policy. *)
Fixpoint commit_writes (txn : Transaction) d ts (pr : proof) s (v : Value)
    (writes : list WriteMessage) : outcome (server * option Value) :=
  match writes with
  | [] => Done (s, Some v)
  | write :: rest =>
      if w_is_table_col_version write then commit_writes txn d ts pr s v rest
      else match policy_type txn with
      | NONE =>
          if negb (IsKeyOwned (w_key write)) then commit_writes txn d ts pr s v rest
          else
            v ← match w_opt_value write with
                | Some x => Done (mkValue x (v_proof v))
                | None => if sql_mode then Done v else Panic
                end;
            _ ← uw_assert (bool_decide (is_Some (txndigest txn)));
            _ ← uw_assert (bool_decide (txndigest txn = Some d));
            let s := upd_store (λ st, put st (w_key write) v ts) s in
            let s := if rtsMode =? 2 then drop_rts_from (w_key write) ts s else s in
            commit_writes txn d ts pr s v rest
      | POLICY_ID_POLICY =>
          let policy := Parse (parse_PolicyObject (w_value write)) in
          Done (upd_policyStore (λ st, put st (w_key write) (mkPolicyValue policy pr) ts) s, None)
      end
  end.

Definition CommitToStore s (pr : proof) p d ts (v : Value) : outcome server :=
  s ← UpdateCommittedReads s p d ts pr;
  txn ← deref s p;
  '(s, ov) ← commit_writes txn d ts pr s v (write_set txn);
  match ov with
  | None => Done s
  | Some v =>
      let s := if useSemanticCC
               then upd_sem (λ x, RecordReadPredicatesAndWrites x txn ts true) s else s in
      Done (dispatch (ApplyCommit v p ts d) s)
  end.

(** ** Clean (server.cc) *)

Definition clean_read p s (read : ReadMessage) : server :=
  if r_is_table_col_version read then s
  else if IsKeyOwned (r_key read) then remove_prepared_read (r_key read) p s else s.
Definition clean_write (pt : TxnPolicyType) ts s (write : WriteMessage) : server :=
  if w_is_table_col_version write || IsKeyOwned (w_key write) ||
     bool_decide (pt = POLICY_ID_POLICY)
  then remove_prepared_write (w_key write) ts s else s.

Definition clean_prepared s d (abort hard : bool) : outcome server :=
  match prepared s !! d with
  | None => Done s
  | Some (ts, p) =>
      txn ← deref s p;
      let s := foldl (clean_read p) s (read_set txn) in
      let s := foldl (λ s read, remove_prepared_read (r_key read) p s) s
                 (implicit_policy_reads txn) in
      let s := foldl (clean_write (policy_type txn) ts) s (write_set txn) in
      let s := upd_prepared (delete d) s in
      Done (if abort || hard then dispatch (PurgeTable p ts d) s else s)
  end.

Definition clear_signed (m : P1MetaData) : P1MetaData :=
  mkP1Meta (pm_reqId m) (pm_result m) (pm_conflict m) (pm_hasP1 m) false (pm_sub_original m)
    (pm_original m) (pm_fallbacks_interested m) (pm_forceMaterialize m)
    (pm_alreadyForceMaterialized m).

Definition Clean s d (abort hard : bool) : outcome server :=
  let is_ongoing := bool_decide (is_Some (ongoing s !! d)) in
  let s := if is_ongoing && hard then upd_aborted (λ x, {[d]} ∪ x) s else s in
  let s := if is_ongoing then upd_ongoing (delete d) s else s in
  s ← clean_prepared s d abort hard;
  let s := upd_interestedClients (delete d) s in
  let s := upd_ElectQuorums (delete d) s in
  let s := upd_p1MetaData (alter clear_signed d) s in
  let s := if hard then upd_p1MetaData (delete d) s else s in
  Done (upd_TxnMissingQueries (λ x, x ∖ {[d]}) s).

(** ** Buffered phase-1 results (servertools.cc) *)

(** The outputs of [BufferP1Result] besides the state. *)
Record buffered := mkBuffered {
  b_original_sub : bool;
  b_result : Result;
  b_reqId : Z;
  b_remote : option Z;
  b_wake_fallbacks : bool;
  b_forceMaterialize : bool
}.

Definition SubscribeOriginal (remote : option Z) (reqId : Z) (m : P1MetaData) : P1MetaData :=
  mkP1Meta reqId (pm_result m) (pm_conflict m) (pm_hasP1 m) (pm_hasSignedP1 m) true remote
    (pm_fallbacks_interested m) (pm_forceMaterialize m) (pm_alreadyForceMaterialized m).
Definition SubscribeAllInterestedFallbacks (m : P1MetaData) : P1MetaData :=
  mkP1Meta (pm_reqId m) (pm_result m) (pm_conflict m) (pm_hasP1 m) (pm_hasSignedP1 m)
    (pm_sub_original m) (pm_original m) true (pm_forceMaterialize m) (pm_alreadyForceMaterialized m).
Definition buffer_result (result : Result) (conflict : proof) (m : P1MetaData) : P1MetaData :=
  mkP1Meta (pm_reqId m) result conflict true (pm_hasSignedP1 m) (pm_sub_original m) (pm_original m)
    (pm_fallbacks_interested m) (pm_forceMaterialize m) (pm_alreadyForceMaterialized m).
Definition set_flags (sub_original fallbacks forceMat already : bool) (m : P1MetaData) : P1MetaData :=
  mkP1Meta (pm_reqId m) (pm_result m) (pm_conflict m) (pm_hasP1 m) (pm_hasSignedP1 m) sub_original
    (pm_original m) fallbacks forceMat already.

(** The part that works on the entry of the transaction. *)
Definition buffer_entry (m : P1MetaData) (result : Result) (conflict : proof) (reqId : Z)
    (remote : option Z) (wake_fallbacks forceMaterialize isGossip : bool) (fb : Z) :
    P1MetaData * buffered :=
  let '(m, result) :=
    if negb (pm_hasP1 m) then (buffer_result result conflict m, result)
    else if bool_decide (result ≠ WAIT) then
      if bool_decide (pm_result m ≠ WAIT) then (m, pm_result m)
      else (buffer_result result conflict m, result)
    else (m, result) in
  let m := if negb isGossip && bool_decide (result = WAIT) then
             if fb =? 0 then SubscribeOriginal remote reqId m
             else if fb =? 1 then SubscribeAllInterestedFallbacks m else m
           else m in
  let notify := bool_decide (result ≠ WAIT) in
  let original_sub := notify && pm_sub_original m in
  let wake := if notify && pm_fallbacks_interested m then true else wake_fallbacks in
  let forceOut := if forceMaterialize then negb (pm_alreadyForceMaterialized m)
                  else pm_forceMaterialize m in
  let already := if forceMaterialize then true else pm_alreadyForceMaterialized m in
  (set_flags (if notify then false else pm_sub_original m)
     (if notify then false else pm_fallbacks_interested m) false already m,
   mkBuffered original_sub result
     (if original_sub then pm_reqId m else reqId)
     (if original_sub then pm_original m else remote) wake forceOut).

Definition BufferP1Result s (result : Result) (conflict : proof) d (reqId : Z) (remote : option Z)
    (wake_fallbacks forceMaterialize isGossip : bool) (fb : Z) : outcome (server * buffered) :=
  if bool_decide (result = IGNORE) then
    s ← Clean s d true true;
    Done (s, mkBuffered false result reqId remote wake_fallbacks forceMaterialize)
  else
    let m := default P1MetaData_init (p1MetaData s !! d) in
    let '(m, b) := buffer_entry m result conflict reqId remote wake_fallbacks forceMaterialize
                     isGossip fb in
    Done (upd_p1MetaData (insert d m) s, b).

Definition LookupP1Decision s d : option Result :=
  match p1MetaData s !! d with
  | Some m => if pm_hasP1 m && bool_decide (pm_result m ≠ WAIT) then Some (pm_result m) else None
  | None => None
  end.

(** *** Replies to fallback clients (server_fallback.cc)

    [p2MetaDatas.insert(p, d)]: the entry is created when there is none. *)
Definition touch_p2 s d : server :=
  upd_p2MetaDatas (λ m, match m !! d with Some _ => m | None => <[d := P2MetaData_init]> m end) s.
Definition p2_meta s d : P2MetaData := default P2MetaData_init (p2MetaDatas s !! d).

Definition LookupCurrentView s d : Z :=
  match p2MetaDatas s !! d with Some m => p2m_current_view m | None => 0 end.
Definition LookupP2Decision s d : option CommitDecision :=
  match p2MetaDatas s !! d with
  | Some m => if p2m_hasP2 m then Some (p2m_p2Decision m) else None
  | None => None
  end.

(** The writeback made from a proof of commitment; one without signatures is
    a [Panic]. *)
Definition committed_writeback s d (pr : proof) : outcome Writeback :=
  match proofSigs s !! pr with
  | Some (ByP1 g) => Done (mkWb DCOMMIT (Some d) None (WbP1 g) None)
  | Some (ByP2 g view) => Done (mkWb DCOMMIT (Some d) None (WbP2 g) (Some view))
  | None => Panic
  end.
Definition find_writeback s d : outcome (option Writeback) :=
  match committed s !! d with
  | Some pr => wb ← committed_writeback s d pr; Done (Some wb)
  | None => Done (writebackMessages s !! d)
  end.
Definition ForwardWriteback s (remote reqId : Z) d : outcome (server * bool) :=
  ow ← find_writeback s d;
  Done (match ow with
        | Some wb => (emit (ForwardWb reqId d wb remote) s, true)
        | None => (s, false)
        end).
Definition ForwardWritebackMulti s d (clients : gmap Z Z) : outcome (server * bool) :=
  ow ← find_writeback s d;
  Done (match ow with
        | Some wb =>
            (upd_interestedClients (delete d)
               (foldl (λ s c, emit (ForwardWb 0 d wb c.2) s) s (map_to_list clients)), true)
        | None => (s, false)
        end).

(** An abstain conflict is sent along while it is unfinished, when client
    proposals are signed. *)
Definition abstain_part s (abstain_conflict : option ptr) : outcome (option ptr) :=
  match abstain_conflict with
  | None => Done None
  | Some p =>
      if signClientProposals then
        t ← deref s p;
        Done (match p1MetaData s !! default "" (txndigest t) with
              | Some m => if pm_hasSignedP1 m then Some p else None
              | None => None
              end)
      else Done (Some p)
  end.
Definition SetP1 s (result : Result) (conflict : proof) (abstain_conflict : option ptr) :
    outcome P1Part :=
  _ ← uw_assert (negb validateProofs || negb (bool_decide (result = ABORT)) || negb (conflict =? null));
  ac ← abstain_part s abstain_conflict;
  Done (mkP1Part result conflict ac).
Definition attached_view s d : option Z :=
  if all_to_all_fb then None else Some (LookupCurrentView s d).
Definition SendPhase1FBReply s (reqId : Z) d (p1 : option P1Part) (p2 : option P2Part)
    (remotes : gmap Z Z) : server :=
  emit (Phase1FBReply reqId d p1 p2 (attached_view s d) remotes) s.

Definition stored_p2 (m : P2MetaData) : option P2Part :=
  if p2m_hasP2 m then Some (mkP2Part (p2m_p2Decision m) (p2m_decision_view m)) else None.

Definition WakeAllInterestedFallbacks s d (result : Result) (conflict : proof) : outcome server :=
  match interestedClients s !! d with
  | None => Done s
  | Some clients =>
      '(s, forwarded) ← ForwardWritebackMulti s d clients;
      if forwarded : bool then Done s
      else
        p1 ← SetP1 s result conflict None;
        let s := touch_p2 s d in
        Done (SendPhase1FBReply s 0 d (Some p1) (stored_p2 (p2_meta s d)) clients)
  end.

(** ** Dependencies (concurrencycontrol.cc) *)

Definition is_committed s d : bool := bool_decide (is_Some (committed s !! d)).
Definition is_aborted s d : bool := bool_decide (d ∈ aborted s).

(** The dependencies that count: the merged set when there is one. *)
Definition dep_set (txn : Transaction) : list Dependency :=
  match merged_read_set txn with Some m => m_deps m | None => deps txn end.

Fixpoint CheckDependencies_set s (txn : Transaction) (depSet : list Dependency) : Result :=
  match depSet with
  | [] => COMMIT
  | dep :: rest =>
      if negb (d_involved_group dep =? groupIdx) then CheckDependencies_set s txn rest
      else if is_committed s (d_prepared_txn_digest dep) then
        if ts_gt (d_prepared_timestamp dep) (t_timestamp txn) then ABSTAIN
        else CheckDependencies_set s txn rest
      else ABSTAIN
  end.
Definition CheckDependencies_txn s (txn : Transaction) : Result :=
  CheckDependencies_set s txn (dep_set txn).
Definition CheckDependencies s d : outcome Result :=
  match ongoing s !! d with
  | None => if is_committed s d then Done COMMIT
            else if is_aborted s d then Done ABSTAIN else Panic
  | Some p => txn ← deref s p; Done (CheckDependencies_txn s txn)
  end.

(** One waiting transaction of [CheckDependents]. *)
Definition wake_dependent d s (dependent : digest) : outcome server :=
  match waitingDependencies s !! dependent with
  | None => Done s
  | Some w =>
      let deps' := wd_deps w ∖ {[d]} in
      let s := upd_waitingDependencies (insert dependent (mkWaiting (wd_reqId w) deps')) s in
      if bool_decide (deps' = ∅) then
        result ← CheckDependencies s dependent;
        _ ← uw_assert (bool_decide (result ≠ ABORT));
        '(s, b) ← BufferP1Result s result null dependent 0 None false false false 2;
        let s := if b_original_sub b
                 then emit (Phase1Reply (b_reqId b) (b_result b) null dependent (b_remote b) None
                              false false) s
                 else s in
        s ← WakeAllInterestedFallbacks s dependent (b_result b) null;
        Done (upd_waitingDependencies (delete dependent) s)
      else Done s
  end.

Definition CheckDependents s d : outcome server :=
  match dependents s !! d with
  | None => Done s
  | Some ds =>
      s ← foldO (wake_dependent d) s (elements ds);
      Done (upd_dependents (delete d) s)
  end.

Definition CleanDependencies s d : server := upd_waitingDependencies (delete d) s.

(** [RegisterWaitingTxn]: is the dependency finished?  The missing ones are
    collected.  An entry of [dependents] created for a finished dependency is
    erased again in the same call. *)
Definition RegisterWaitingTxn s (dep_id txnDigest : digest) (remote reqId : Z)
    (fallback_flow isGossip : bool) (missing_deps : list digest) (new_waiting_dep : bool) :
    bool * server * list digest :=
  if negb (is_committed s dep_id) && negb (is_aborted s dep_id) then
    let s := if new_waiting_dep
             then upd_dependents (λ m, <[dep_id := {[txnDigest]} ∪ default ∅ (m !! dep_id)]> m) s
             else s in
    let s := if negb no_fallback && negb isGossip
             then emit (RelayP1 remote dep_id (if negb fallback_flow then reqId else 2^64 - 1)
                          txnDigest) s
             else s in
    (false, s, missing_deps ++ [dep_id])
  else
    (true, s, missing_deps).

Fixpoint manage_loop s (depSet : list Dependency) txnDigest (remote reqId : Z)
    (fallback_flow isGossip new_waiting_dep : bool) (allFinished : bool) (missing : list digest) :
    bool * server * list digest :=
  match depSet with
  | [] => (allFinished, s, missing)
  | dep :: rest =>
      if negb (d_involved_group dep =? groupIdx) then
        manage_loop s rest txnDigest remote reqId fallback_flow isGossip new_waiting_dep
          allFinished missing
      else
        let '(fin, s, missing) := RegisterWaitingTxn s (d_prepared_txn_digest dep) txnDigest remote
          reqId fallback_flow isGossip missing new_waiting_dep in
        manage_loop s rest txnDigest remote reqId fallback_flow isGossip new_waiting_dep
          (if fin : bool then allFinished else false) missing
  end.

Definition ManageDependencies_set s (depSet : list Dependency) txnDigest (remote reqId : Z)
    (fallback_flow isGossip : bool) : bool * server :=
  if maxDepDepth >? -2 then
    let new_waiting_dep := negb (bool_decide (is_Some (waitingDependencies s !! txnDigest))) in
    let w0 := default (mkWaiting 0 ∅) (waitingDependencies s !! txnDigest) in
    let '(allFinished, s, missing) := manage_loop s depSet txnDigest remote reqId fallback_flow
      isGossip new_waiting_dep true [] in
    if negb allFinished then
      let w := mkWaiting (if negb fallback_flow && negb isGossip then reqId else wd_reqId w0)
                 (if new_waiting_dep then list_to_set missing else wd_deps w0) in
      (false, upd_waitingDependencies (insert txnDigest w) s)
    else (true, s)
  else (true, s).
Definition ManageDependencies s txnDigest (txn : Transaction) (remote reqId : Z)
    (fallback_flow isGossip : bool) : bool * server :=
  ManageDependencies_set s (dep_set txn) txnDigest remote reqId fallback_flow isGossip.

(** ** Read timestamps (servertools.cc) *)

Definition SetRTS s ts (key : string) : server :=
  if rtsMode =? 1 then
    match rts s !! key with
    | Some r => if timestamp ts >? r then upd_rts (insert key (timestamp ts)) s else s
    | None => upd_rts (insert key (timestamp ts)) s
    end
  else if rtsMode =? 2 then
    upd_rts_list (λ m, <[key := seq_insert id ts (default [] (m !! key))]> m) s
  else s.

Definition ClearRTS s (reads : list ReadMessage) ts : server :=
  if rtsMode =? 1 then s
  else if rtsMode =? 2 then
    foldl (λ s read, upd_rts_list
      (λ m, <[r_key read := seq_erase id ts (default [] (m !! r_key read))]> m) s) s reads
  else s.

(** ** Commit and Abort (server.cc) *)

(** What [Commit] and [CommitWithProof] do after the first insertion into
    [committed]. *)
Definition finish_commit s (pr : proof) p d ts (v : Value) : outcome server :=
  s ← CommitToStore s pr p d ts v;
  s ← Clean s d false false;
  s ← CheckDependents s d;
  let s := CleanDependencies s d in
  Done (emit (CleanQueriesCall d true) s).

Definition insert_committed s d (pr : proof) : bool * server :=
  match committed s !! d with
  | Some _ => (false, s)
  | None => (true, upd_committed (insert d pr) s)
  end.

Definition commit_value (txn : Transaction) (pr : proof) : Value :=
  mkValue "" (match policy_type txn with NONE => pr | POLICY_ID_POLICY => null end).

(** [view] is unused for [p1Sigs].  The signatures of a proof object that is
    not inserted are dropped with it. *)
Definition Commit s d p (groupedSigs : GroupedSignatures) (p1Sigs : bool) (view : Z) : outcome server :=
  txn ← deref s p;
  let pr := if validateProofs then proof_of p else null in
  let ts := t_timestamp txn in
  let '(first_commit, s) := insert_committed s d pr in
  let s := if first_commit && validateProofs && signedMessages
           then upd_proofSigs (insert pr (if p1Sigs then ByP1 groupedSigs else ByP2 groupedSigs view)) s
           else s in
  _ ← uw_assert (negb hideTimestamps ||
        (validateProofs && bool_decide (TimestampDigest ts = hashed_timestamp txn)));
  if first_commit : bool then finish_commit s pr p d ts (commit_value txn pr) else Done s.

(** The proof object [p] comes with its signatures. *)
Definition CommitWithProof s d p : outcome server :=
  txn ← deref s p;
  let pr := proof_of p in
  let ts := t_timestamp txn in
  let '(first_commit, s) := insert_committed s d pr in
  if first_commit : bool then finish_commit s pr p d ts (commit_value txn pr) else Done s.

Definition Abort s d p : outcome server :=
  let s := upd_aborted (λ x, {[d]} ∪ x) s in
  s ← Clean s d true false;
  s ← CheckDependents s d;
  let s := CleanDependencies s d in
  txn ← deref s p;
  let s := ClearRTS s (read_set txn) (t_timestamp txn) in
  let s := emit (CleanQueriesCall d false) s in
  let s := if useSemanticCC then upd_sem (λ x, ClearPredicateAndWrites x txn) s else s in
  let first_mat := negb (bool_decide (d ∈ materialized s)) in
  let s := upd_materialized (λ x, {[d]} ∪ x) s in
  Done (emit (CheckWaitingQueriesCall d true (if first_mat then 0 else 1)) s).

(** ** Thread-pool jobs *)

Definition run_job s (j : job) : outcome server :=
  match j with
  | ApplyPrepare p ts d =>
      txn ← deref s p;
      Done (foldl (λ s table, add_prepared_write table ts p s) s (ApplyTableWrites txn ts d))
  | ApplyCommit v p ts d =>
      txn ← deref s p;
      Done (foldl (λ s table, upd_store (λ st, put st table (mkValue "" (v_proof v)) ts) s) s
              (ApplyTableWrites txn ts d))
  | PurgeTable _ _ _ => Done s
  end.

(** [AddOngoing]: the transaction object becomes the one of its digest. *)
Definition AddOngoing s d p : server := upd_ongoing (insert d p) s.

End ops.
