(* ===== verification/MVTSO.v ===== *)
(** * Concurrency control: multi-version timestamp ordering

    [DoOCCCheck] and [DoMVTSOOCCCheck] of
    src/src/store/sintrstore/concurrencycontrol.cc with the functions they
    call.  A [return] inside the loops is a [Verdict]; the callback that
    delays the prepare until the endorsement check is done is a value of
    [Delayed], run by [run_delayed]. *)
From S2P Require Import Prelude OrderedSeq Timestamp VersionStore Policy PolicyParse ServerState ServerTxn.

(** The result with the conflicting proof or the conflicting prepared
    transaction. *)
Record Verdict := mkVerdict {
  v_result : Result;
  v_conflict : proof;
  v_abstain_conflict : option ptr
}.
Definition plain (r : Result) : Verdict := mkVerdict r null None.

Section check.
Context `{E : Env}.
Implicit Types (s : server) (d : digest) (p : ptr) (ts : Timestamp).

Definition is_genesis ts : bool := (timestamp ts =? 0) && (ts_id ts =? 0).

(** [CheckHighWatermark]; [now] is [timeServer.GetTime()]. *)
Definition CheckHighWatermark (now : Z) ts : bool :=
  let highWatermark := setTimestamp (u64 (now + timeDelta)) (ts_of_time now) in
  ts_gt ts highWatermark.

(** [GetPreceedingPreparedWrite]: the last prepared write below [ts]. *)
Definition GetPreceedingPreparedWrite (preparedKeyWrites : list (Timestamp * ptr)) ts :
    option (Timestamp * ptr) :=
  last (lower_bound fst ts preparedKeyWrites).1.

(** The loop of [FindPreparedVersion] over the prepared writes of the key in
    timestamp order; [co] is the committed version when there is one. *)
Fixpoint find_prepared s ts (co : option Timestamp) (ty : TxnPolicyType) (mostRecent : option ptr)
    (l : list (Timestamp * ptr)) : outcome (option ptr) :=
  match l with
  | [] => Done mostRecent
  | (t, q) :: l' =>
      if ts_gt t ts then Done mostRecent
      else if match co with Some c => ts_le t c | None => false end
      then find_prepared s ts co ty mostRecent l'
      else
        newer ← match mostRecent with
                | None => Done true
                | Some m => tm ← deref s m; Done (ts_gt t (t_timestamp tm))
                end;
        if newer : bool then
          tq ← deref s q;
          find_prepared s ts co ty
            (if bool_decide (policy_type tq = ty) then Some q else mostRecent) l'
        else find_prepared s ts co ty mostRecent l'
  end.
Definition FindPreparedVersion s (key : string) ts (co : option Timestamp) (ty : TxnPolicyType) :
    outcome (option ptr) :=
  match preparedWrites s !! key with
  | Some l => find_prepared s ts co ty None l
  | None => Done None
  end.

(** ** Read set *)

(** The conflict against prepared writes; the exemption for a deletion that
    follows a read of nothing never holds. *)
Definition check_prepared_writes s ts (read : ReadMessage) : outcome (option Verdict) :=
  match preparedWrites s !! r_key read with
  | None => Done None
  | Some l =>
      match GetPreceedingPreparedWrite l ts with
      | None => Done None
      | Some (preparedTs, preparedTx) =>
          if ts_lt (r_readtime read) preparedTs && ts_lt preparedTs ts then
            exempt ← (if is_genesis (r_readtime read) then
                        t ← deref s preparedTx;
                        Done (foldl (λ exempt write,
                          if bool_decide (r_key read = w_key write) &&
                             bool_decide (w_value write = "d")
                          then false else exempt) false (write_set t))
                      else Done false);
            if exempt : bool then Done None
            else Done (Some (mkVerdict ABSTAIN null (Some preparedTx)))
          else Done None
      end
  end.

Definition check_read s ts (read : ReadMessage) : outcome (option Verdict) :=
  if r_is_table_col_version read then Done None
  else if negb (IsKeyOwned (r_key read)) then Done None
  else
    _ ← uw_assert (negb (hideTimestamps && negb (is_genesis (r_readtime read)) &&
          negb (bool_decide (TimestampDigest (r_readtime read) = r_hashed_readtime read))));
    match getPreceedingCommit (store s) (r_key read) ts with
    | Some (committedTs, v) =>
        if is_genesis (r_readtime read) && bool_decide (val v = "d") then Done None
        else if ts_lt (r_readtime read) committedTs then
          _ ← uw_assert (negb validateProofs || negb (v_proof v =? null));
          Done (Some (mkVerdict ABORT (if validateProofs then v_proof v else null) None))
        else check_prepared_writes s ts read
    | None => check_prepared_writes s ts read
    end.

Fixpoint check_reads s ts (readSet : list ReadMessage) : outcome (option Verdict) :=
  match readSet with
  | [] => Done None
  | read :: rest =>
      ov ← check_read s ts read;
      match ov with Some v => Done (Some v) | None => check_reads s ts rest end
  end.

(** ** Write set *)

(** The committed reads of a key from the latest reader down. *)
Fixpoint check_committed_reads ts (value : string) (reads : list committedRead) :
    outcome (option Verdict) :=
  match reads with
  | [] => Done None
  | (readerTs, readVersion, pr) :: rest =>
      if ts_ge ts readerTs then Done None
      else if ts_lt readVersion ts then
        if is_genesis readVersion && bool_decide (value = "d")
        then check_committed_reads ts value rest
        else
          _ ← uw_assert (negb validateProofs || negb (pr =? null));
          Done (Some (mkVerdict ABORT (if validateProofs then pr else null) None))
      else check_committed_reads ts value rest
  end.

(** The version of [key] a transaction read, by the first entry of its read
    set. *)
Definition read_version (reads : list ReadMessage) (key : string) : option Timestamp :=
  r_readtime <$> List.find (λ r, bool_decide (r_key r = key)) reads.

Fixpoint check_prepared_reads s ts (key value : string) (readers : list ptr) :
    outcome (option Verdict) :=
  match readers with
  | [] => Done None
  | q :: rest =>
      t ← deref s q;
      if negb (ts_lt ts (t_timestamp t)) then check_prepared_reads s ts key value rest
      else match read_version (read_set t) key with
      | Some readTs =>
          if ts_lt readTs ts then
            if is_genesis readTs && bool_decide (value = "d")
            then check_prepared_reads s ts key value rest
            else Done (Some (plain ABSTAIN))
          else check_prepared_reads s ts key value rest
      | None => check_prepared_reads s ts key value rest
      end
  end.

(** The read timestamps of tentative reads; mode 2 creates the entry. *)
Definition check_rts s ts (key : string) : server * option Verdict :=
  if rtsMode =? 1 then
    match rts s !! key with
    | Some r => (s, if r >? timestamp ts then Some (plain ABSTAIN) else None)
    | None => (s, None)
    end
  else if rtsMode =? 2 then
    let l := default [] (rts_list s !! key) in
    let s := upd_rts_list (insert key l) s in
    let from_ts := (lower_bound id ts l).2 in
    let from_ts := match from_ts with
                   | t :: l' => if ts_eq t ts then l' else from_ts
                   | [] => [] end in
    (s, match from_ts with
        | t :: _ => if ts_gt t ts then Some (plain ABSTAIN) else None
        | [] => None end)
  else (s, None).

(** Implicit reads of policies: [std::set<pair<string, Timestamp>>]. *)
Notation policy_reads := (list (string * Timestamp)).

Definition policyCheckHelper s (policyId : string) ts (implicitPolicyReads : policy_reads) :
    outcome (server * policy_reads * option Verdict) :=
  let tsPolicy := get (policyStore s) policyId ts in
  preparedTxn ← FindPreparedVersion s policyId ts (fst <$> tsPolicy) POLICY_ID_POLICY;
  match preparedTxn with
  | Some q => Done (s, implicitPolicyReads, Some (mkVerdict ABSTAIN null (Some q)))
  | None =>
      let '(ps, upperTs) := getUpperBound (policyStore s) policyId ts in
      let s := upd_policyStore (λ _, ps) s in
      if match upperTs with Some u => ts_gt u ts | None => false end
      then Done (s, implicitPolicyReads, Some (plain ABSTAIN))
      else Done (s, seq_insert id (policyId, default ts_zero (fst <$> tsPolicy)) implicitPolicyReads,
                 None)
  end.

(** What the write loop carries: the state, the policies already verified and
    the implicit policy reads. *)
Record wloop := mkWloop { wl_s : server; wl_verified : list string; wl_implicit : policy_reads }.

Definition check_policy (w : wloop) (policyId : string) ts : outcome (wloop * option Verdict) :=
  if bool_decide (policyId ∈ wl_verified w) then Done (w, None)
  else
    '(s, impl, ov) ← policyCheckHelper (wl_s w) policyId ts (wl_implicit w);
    match ov with
    | Some v => Done (mkWloop s (wl_verified w) impl, Some v)
    | None => Done (mkWloop s (policyId :: wl_verified w) impl, None)
    end.

(** The conflict checks of one write. *)
Definition check_write_conflicts s ts (write : WriteMessage) : outcome (server * option Verdict) :=
  ov ← check_committed_reads ts (w_value write)
         (reverse (default [] (committedReads s !! w_key write)));
  match ov with
  | Some v => Done (s, Some v)
  | None =>
      ov ← check_prepared_reads s ts (w_key write) (w_value write)
             (elements (default ∅ (preparedReads s !! w_key write)));
      match ov with
      | Some v => Done (s, Some v)
      | None => Done (check_rts s ts (w_key write))
      end
  end.

Definition check_write (pt : TxnPolicyType) ts (w : wloop) (write : WriteMessage) :
    outcome (wloop * option Verdict) :=
  if w_is_table_col_version write then Done (w, None)
  else if negb (bool_decide (pt = POLICY_ID_POLICY)) && negb (IsKeyOwned (w_key write))
  then Done (w, None)
  else
    '(w, ov) ←
      match pt with
      | POLICY_ID_POLICY => check_policy w (w_key write) ts
      | NONE => if policyCCC
                then check_policy w (policyIdFunction (w_key write) (w_value write)) ts
                else Done (w, None)
      end;
    match ov with
    | Some v => Done (w, Some v)
    | None =>
        '(s, ov) ← check_write_conflicts (wl_s w) ts write;
        Done (mkWloop s (wl_verified w) (wl_implicit w), ov)
    end.

Fixpoint check_writes (pt : TxnPolicyType) ts (w : wloop) (writes : list WriteMessage) :
    outcome (wloop * option Verdict) :=
  match writes with
  | [] => Done (w, None)
  | write :: rest =>
      '(w, ov) ← check_write pt ts w write;
      match ov with Some v => Done (w, Some v) | None => check_writes pt ts w rest end
  end.

(** ** Dependencies known locally *)

Definition CheckTxLocalPresence s (txn_id : digest) : Result :=
  if is_aborted s txn_id then ABSTAIN
  else if negb (is_committed s txn_id) && negb (is_aborted s txn_id) then
    if bool_decide (is_Some (prepared s !! txn_id)) then COMMIT else ABSTAIN
  else COMMIT.
Fixpoint CheckDepLocalPresence s (depSet : list Dependency) : Result :=
  match depSet with
  | [] => COMMIT
  | dep :: rest =>
      if negb (d_involved_group dep =? groupIdx) then CheckDepLocalPresence s rest
      else match CheckTxLocalPresence s (d_prepared_txn_digest dep) with
           | COMMIT => CheckDepLocalPresence s rest
           | r => r
           end
  end.

(** The dynamic dependencies found by the predicate check join the merged
    dependencies of the transaction object. *)
Definition add_dynamic_deps s p (depSet : list Dependency) (dyn : list digest) : outcome server :=
  let fresh := filter (λ x, x ∉ d_prepared_txn_digest <$> depSet) dyn in
  match fresh with
  | [] => Done s
  | _ :: _ =>
      txn ← deref s p;
      let m := default (mkMerged [] (deps txn) []) (merged_read_set txn) in
      let new := (λ x, mkDep x ts_zero groupIdx) <$> fresh in
      Done (upd_heap (alter (set_merged (mkMerged (m_read_set m) (m_deps m ++ new)
                                           (m_read_predicates m))) p) s)
  end.

(** ** The checks 1) to 5.5) for a transaction that is not prepared yet *)
Definition occ_checks s (now : Z) d p (readSet : list ReadMessage) (depSet : list Dependency)
    (predSet : list string) : outcome (server * (Verdict + policy_reads)) :=
  txn ← deref s p;
  let ts := t_timestamp txn in
  if CheckHighWatermark now ts then Done (s, inl (plain ABSTAIN))
  else if useSemanticCC && negb (bool_decide (write_set txn = [])) &&
          negb (CheckMonotonicTableColVersions (sem s) d txn)
  then Done (s, inl (plain ABSTAIN))
  else
    _ ← uw_assert (negb (hideTimestamps &&
          negb (bool_decide (TimestampDigest ts = hashed_timestamp txn))));
    ov ← check_reads s ts readSet;
    match ov with
    | Some v => Done (s, inl v)
    | None =>
        '(w, ov) ← check_writes (policy_type txn) ts (mkWloop s [] []) (write_set txn);
        let s := wl_s w in
        match ov with
        | Some v => Done (s, inl v)
        | None =>
            let res := if validateProofs && signedMessages && negb verifyDeps
                       then CheckDepLocalPresence s depSet else COMMIT in
            if bool_decide (res ≠ COMMIT) then Done (s, inl (plain res))
            else if useSemanticCC then
              let '(res, dyn) := CheckPredicates (sem s) txn ts readSet predSet in
              if bool_decide (res ≠ COMMIT) then Done (s, inl (plain res))
              else s ← add_dynamic_deps s p depSet dyn; Done (s, inr (wl_implicit w))
            else Done (s, inr (wl_implicit w))
        end
    end.

(** 7) and 8): wait for the dependencies, or look at their outcome. *)
Definition dependency_stage s d p (remote reqId : Z) (fallback_flow isGossip : bool) :
    outcome (server * Result) :=
  txn ← deref s p;
  let '(allFinished, s) := ManageDependencies s d txn remote reqId fallback_flow isGossip in
  if allFinished : bool then Done (s, CheckDependencies_txn s txn) else Done (s, WAIT).

(** The delayed callback: the pending [Prepare], when there is one. *)
Record Delayed := mkDelayed { dl_prepare : option (list ReadMessage * policy_reads) }.

(** Endorsements are checked before the concurrency control, or not at all. *)
Definition sync_prepare : bool := negb parallelEndorsementCheck || serverSkipEndorsementCheck.

Definition DoMVTSOOCCCheck s (now : Z) d p (readSet : list ReadMessage) (depSet : list Dependency)
    (predSet : list string) (remote reqId : Z) (fallback_flow isGossip : bool)
    (delay_prepare_cb : bool) : outcome (server * Verdict * option Delayed) :=
  '(s, early, call_prepare) ←
    (if bool_decide (is_Some (prepared s !! d)) then Done (s, None, None)
     else
       '(s, r) ← occ_checks s now d p readSet depSet predSet;
       match r with
       | inl v => Done (s, Some v, None)
       | inr implicitPolicyReads =>
           if sync_prepare then
             s ← Prepare s d p readSet implicitPolicyReads; Done (s, None, None)
           else Done (s, None, Some (readSet, implicitPolicyReads))
       end);
  match early with
  | Some v => Done (s, v, None)
  | None =>
      if sync_prepare || fallback_flow then
        '(s, r) ← dependency_stage s d p remote reqId fallback_flow isGossip;
        Done (s, plain r, None)
      else
        _ ← uw_assert delay_prepare_cb;
        Done (s, plain COMMIT, Some (mkDelayed call_prepare))
  end.

(** [*delay_prepare_cb()]. *)
Definition run_delayed s d p (remote reqId : Z) (isGossip : bool) (dl : Delayed) :
    outcome (server * Result) :=
  s ← match dl_prepare dl with
      | Some (readSet, implicitPolicyReads) => Prepare s d p readSet implicitPolicyReads
      | None => Done s
      end;
  dependency_stage s d p remote reqId false isGossip.

(** [DoOCCCheck] with [occType == MVTSO]. *)
Definition DoOCCCheck s (now : Z) d p (remote reqId : Z) (fallback_flow isGossip : bool)
    (delay_prepare_cb : bool) : outcome (server * Verdict * option Delayed) :=
  _ ← uw_assert (delay_prepare_cb || sync_prepare || fallback_flow);
  txn ← deref s p;
  _ ← uw_assert (negb (timestamp (t_timestamp txn) <=? 10000));
  '(s, result, (readSet, depSet, predSet)) ← mergeTxReadSets s d p;
  if bool_decide (result ≠ COMMIT) then Done (s, plain result, None)
  else
    '(s, v, dl) ← DoMVTSOOCCCheck s now d p readSet depSet predSet remote reqId fallback_flow
                    isGossip delay_prepare_cb;
    if bool_decide (v_result v = ABORT) then
      _ ← uw_assert (negb (v_conflict v =? null));
      cp ← read_proof s (v_conflict v);
      let s := upd_writebackMessages
        (λ m, match m !! d with
              | Some _ => m
              | None => <[d := mkWb DABORT (Some d) None (WbConflict cp) None]> m
              end) s in
      s ← Abort s d p;
      Done (s, if cacheReadSet then mkVerdict ABSTAIN null (v_abstain_conflict v) else v, dl)
    else Done (s, v, dl).

End check.
