(* ===== verification/MVTSOSafety.v ===== *)
(** * Transactions a replica voted for do not conflict

    The invariant behind serializability: as long as the prepare is not
    delayed, any two transactions that a replica prepared, and that are still
    prepared or have committed, can be ordered by their timestamps.  A read
    of one is never made stale by a write of the other.  *)
From S2P Require Import Prelude OrderedSeq Timestamp VersionStore Policy PolicyParse ServerState ServerTxn MVTSO.

(** ** Framing

    The part of the state the argument is about; most operations leave it
    alone. *)
Section frame.
Context `{E : Env}.
Implicit Types (s : server) (d : digest) (p : ptr).

Definition core s :=
  (heap s, ongoing s, prepared s, preparedReads s, preparedWrites s, committed s,
   committedReads s, store s).
Definition frame s s' : Prop := core s' = core s.

#[export] Instance frame_preorder : PreOrder frame.
Proof. split; [done|]. intros s1 s2 s3 H1 H2. unfold frame in *. congruence. Qed.

Lemma frame_fields s s' :
  frame s s' →
  heap s' = heap s ∧ ongoing s' = ongoing s ∧ prepared s' = prepared s ∧
  preparedReads s' = preparedReads s ∧ preparedWrites s' = preparedWrites s ∧
  committed s' = committed s ∧ committedReads s' = committedReads s ∧ store s' = store s.
Proof. unfold frame, core. intros [= -> -> -> -> -> -> -> ->]. done. Qed.

Lemma frame_foldl {A} (f : server → A → server) l s :
  (∀ s a, frame s (f s a)) → frame s (foldl f s l).
Proof.
  intros Hf. revert s. induction l as [|a l IH]; intros s; [done|]. cbn. etrans; [apply Hf|apply IH].
Qed.

Lemma frame_foldO {A} (f : server → A → outcome server) l s s' :
  (∀ s a s', f s a = Done s' → frame s s') → foldO f s l = Done s' → frame s s'.
Proof.
  intros Hf. revert s. induction l as [|a l IH]; intros s Heq; cbn in Heq; inv_outcome; [done|].
  etrans; [by eapply Hf|by apply IH].
Qed.

Lemma CheckDependencies_result s d r :
  CheckDependencies s d = Done r → r = COMMIT ∨ r = ABSTAIN.
Proof.
  assert (∀ txn l, CheckDependencies_set s txn l = COMMIT ∨ CheckDependencies_set s txn l = ABSTAIN)
    as Hset.
  { intros txn l. induction l as [|dep l IH]; cbn; [by left|]. repeat case_match; auto. }
  unfold CheckDependencies, CheckDependencies_txn. intros H.
  destruct (ongoing s !! d); inv_outcome; [apply Hset|].
  repeat case_match; simplify_eq; auto.
Qed.

Lemma BufferP1Result_frame s r c d q rem wf fm g fb s' b :
  r ≠ IGNORE → BufferP1Result s r c d q rem wf fm g fb = Done (s', b) → frame s s'.
Proof.
  intros Hr. unfold BufferP1Result. rewrite bool_decide_eq_false_2 by done.
  destruct (buffer_entry _ _ _ _ _ _ _ _ _) as [m b']. intros [= <- <-]. done.
Qed.

Lemma ForwardWritebackMulti_frame s d cl s' b :
  ForwardWritebackMulti s d cl = Done (s', b) → frame s s'.
Proof.
  unfold ForwardWritebackMulti. intros (ow & _ & Hd)%bind_Done.
  destruct ow as [wb|]; cbn in Hd; simplify_eq; [|done].
  etrans; [apply (frame_foldl (λ s c, emit (ForwardWb 0 d wb c.2) s) (map_to_list cl)); done|done].
Qed.

Lemma WakeAll_frame s d r c s' : WakeAllInterestedFallbacks s d r c = Done s' → frame s s'.
Proof.
  unfold WakeAllInterestedFallbacks. destruct (interestedClients s !! d) as [cl|]; [|by intros [= ->]].
  intros ([s1 fw] & Hf & Hw)%bind_Done. apply ForwardWritebackMulti_frame in Hf.
  destruct fw; [by simplify_eq|]. apply bind_Done in Hw as (p1 & _ & [= <-]). exact Hf.
Qed.

Lemma wake_dependent_frame d s x s' : wake_dependent d s x = Done s' → frame s s'.
Proof.
  unfold wake_dependent. destruct (waitingDependencies s !! x) as [w|]; [|by intros [= ->]].
  case_bool_decide; [|by intros [= <-]]. intros Heq. inv_outcome.
  destruct x2 as [s2 b]. inv_outcome.
  match goal with Hw : WakeAllInterestedFallbacks _ _ _ _ = _ |- _ => apply WakeAll_frame in Hw end.
  etrans; [|by etrans; [eassumption|]].
  match goal with Hb : BufferP1Result _ _ _ _ _ _ _ _ _ _ = _ |- _ =>
    apply BufferP1Result_frame in Hb as Hf end.
  - etrans; [by apply Hf|]. by case_match.
  - match goal with Hc : CheckDependencies _ _ = _ |- _ =>
      apply CheckDependencies_result in Hc as [-> | ->] end; done.
Qed.

Lemma CheckDependents_frame s d s' : CheckDependents s d = Done s' → frame s s'.
Proof.
  unfold CheckDependents. destruct (dependents s !! d); [|by intros [= ->]].
  intros Heq. inv_outcome. etrans; [eapply frame_foldO; [|done]|done].
  intros. by eapply wake_dependent_frame.
Qed.

Lemma ClearRTS_frame s l ts : frame s (ClearRTS s l ts).
Proof. unfold ClearRTS. repeat case_match; try done. by apply frame_foldl. Qed.

Lemma RegisterWaitingTxn_frame s a b r q f g m n fin s' m' :
  RegisterWaitingTxn s a b r q f g m n = (fin, s', m') → frame s s'.
Proof. unfold RegisterWaitingTxn. intros Heq. repeat case_match; by simplify_eq. Qed.

Lemma manage_loop_frame depSet s d r q f g n fin m fin' s' m' :
  manage_loop s depSet d r q f g n fin m = (fin', s', m') → frame s s'.
Proof.
  revert s fin m. induction depSet as [|dep depSet IH]; intros s fin m Heq; cbn in Heq.
  - by simplify_eq.
  - case_match; [by eapply IH|].
    destruct (RegisterWaitingTxn _ _ _ _ _ _ _ _ _) as [[fin1 s1] m1] eqn:Hr.
    etrans; [by eapply RegisterWaitingTxn_frame|]. case_match; by eapply IH.
Qed.

Lemma ManageDependencies_frame s d t r q f g b s' :
  ManageDependencies s d t r q f g = (b, s') → frame s s'.
Proof.
  unfold ManageDependencies, ManageDependencies_set. case_match; [|by intros [= _ ->]].
  destruct (manage_loop _ _ _ _ _ _ _ _ _ _) as [[fin s1] m] eqn:Hm.
  apply manage_loop_frame in Hm as Hf. case_match; intros [= _ <-]; (etrans; [exact Hf|]); done.
Qed.

Lemma dependency_stage_frame s d p r q f g s' res :
  dependency_stage s d p r q f g = Done (s', res) → frame s s'.
Proof.
  unfold dependency_stage. intros Heq. inv_outcome.
  destruct (ManageDependencies _ _ _ _ _ _ _) as [b s1] eqn:Hm.
  apply ManageDependencies_frame in Hm. case_match; by simplify_eq.
Qed.

Lemma check_rts_frame s ts k s' ov : check_rts s ts k = (s', ov) → frame s s'.
Proof. unfold check_rts. intros Heq. repeat case_match; by simplify_eq. Qed.

Lemma check_write_conflicts_frame s ts w s' ov :
  check_write_conflicts s ts w = Done (s', ov) → frame s s'.
Proof.
  unfold check_write_conflicts. intros Heq. inv_outcome.
  case_match; inv_outcome; [done|]. case_match; inv_outcome; [done|].
  by eapply check_rts_frame.
Qed.

Lemma check_policy_frame w pid ts w' ov :
  check_policy w pid ts = Done (w', ov) → frame (wl_s w) (wl_s w').
Proof.
  unfold check_policy, policyCheckHelper. case_bool_decide; [by intros [= ->]|].
  intros Heq. inv_outcome. destruct x as [[s1 impl] ov1].
  assert (frame (wl_s w) s1).
  { repeat case_match; by simplify_eq. }
  repeat case_match; by simplify_eq.
Qed.

Lemma check_write_frame pt ts w x w' ov :
  check_write pt ts w x = Done (w', ov) → frame (wl_s w) (wl_s w').
Proof.
  unfold check_write. do 2 (case_match; [by intros [= <- <-]|]). intros Heq. inv_outcome.
  destruct x0 as [w1 ov1]. trans (wl_s w1).
  { repeat case_match; simplify_eq; try done; by eapply check_policy_frame. }
  destruct ov1; inv_outcome; [done|]. destruct x0 as [s2 ov2]. inv_outcome. cbn.
  by eapply check_write_conflicts_frame.
Qed.

Lemma check_writes_frame pt ts w l w' ov :
  check_writes pt ts w l = Done (w', ov) → frame (wl_s w) (wl_s w').
Proof.
  revert w. induction l as [|x l IH]; intros w Heq; cbn in Heq; inv_outcome; [done|].
  destruct x0 as [w1 [v|]]; inv_outcome; [by eapply check_write_frame|].
  etrans; [by eapply check_write_frame|by apply IH].
Qed.
Lemma occ_checks_prepared s now d p rs ds ps s' r :
  occ_checks s now d p rs ds ps = Done (s', r) → prepared s' = prepared s.
Proof.
  unfold occ_checks. intros Hc. inv_outcome. do 2 (case_match; [by simplify_eq|]). inv_outcome.
  match goal with Hr : check_reads _ _ _ = Done ?o |- _ => destruct o; [by simplify_eq|] end.
  inv_outcome.
  match goal with Hw : check_writes _ _ _ _ = Done ?o |- _ => destruct o as [w ov];
    apply check_writes_frame, frame_fields in Hw as (_ & _ & Hw & _) end.
  cbn in *. destruct ov; [by simplify_eq|]. case_match; [by simplify_eq|].
  destruct useSemanticCC; [|by simplify_eq].
  destruct (CheckPredicates _ _ _ _ _). case_match; [by simplify_eq|]. inv_outcome.
  unfold add_dynamic_deps in *. case_match; by inv_outcome.
Qed.

(** [Clean] and [Abort] only remove from [prepared]. *)
Lemma clean_prepared_shrinks s d a h s' :
  clean_prepared s d a h = Done s' → prepared s' ⊆ prepared s.
Proof.
  unfold clean_prepared. destruct (prepared s !! d) as [[ts p]|]; [|by intros [= ->]].
  intros Hc. inv_outcome.
  match goal with |- prepared ?x ⊆ _ => assert (prepared x = delete d (prepared s)) as ->;
    [|by apply delete_subseteq] end.
  assert (∀ y, prepared (if a || h then dispatch (PurgeTable p ts d) y else y) = prepared y) as ->
    by (intros; by case_match).
  cbn. f_equal.
  repeat (apply (foldl_inv (λ y, prepared y = prepared s)); [intros y b _ <-|]); [..|done].
  - unfold clean_write. by case_match.
  - done.
  - unfold clean_read. by repeat case_match.
Qed.

Lemma Clean_shrinks s d a h s' : Clean s d a h = Done s' → prepared s' ⊆ prepared s.
Proof.
  unfold Clean. intros Hc. inv_outcome.
  match goal with H : clean_prepared ?y _ _ _ = Done ?x |- _ => apply clean_prepared_shrinks in H;
    assert (prepared y = prepared s) as Hy by (by repeat case_match); rewrite Hy in H end.
  by destruct h.
Qed.

Lemma Abort_shrinks s d p s' : Abort s d p = Done s' → prepared s' ⊆ prepared s.
Proof.
  unfold Abort. intros Ha. inv_outcome.
  match goal with H : Clean _ _ _ _ = _ |- _ => apply Clean_shrinks in H end.
  match goal with H : CheckDependents _ _ = _ |- _ =>
    apply CheckDependents_frame, frame_fields in H as (_ & _ & Hp & _) end.
  etrans; [|done]. rewrite <- Hp. cbn.
  pose proof (ClearRTS_frame (CleanDependencies x0 d) (read_set x1) (t_timestamp x1)) as Hf.
  apply frame_fields in Hf as (_ & _ & Hr & _). case_match; cbn; rewrite Hr; done.
Qed.

(** When the prepare is delayed, the check itself prepares nothing. *)
Lemma DoOCCCheck_delayed_shrinks s now d p rem rq fb g cb s' v dl :
  sync_prepare = false →
  DoOCCCheck s now d p rem rq fb g cb = Done (s', v, dl) → prepared s' ⊆ prepared s.
Proof.
  intros Hsync Hc. unfold DoOCCCheck in Hc. inv_outcome.
  match goal with H : mergeTxReadSets _ _ _ = Done ?x |- _ => destruct x as [[s1 r] [[rs ds] ps]];
    assert (prepared s1 = prepared s) as Hm1 by
      (unfold mergeTxReadSets in H; inv_outcome; repeat case_match; by inv_outcome) end.
  case_bool_decide; inv_outcome; [by rewrite Hm1|].
  match goal with H : DoMVTSOOCCCheck _ _ _ _ _ _ _ _ _ _ _ _ = Done ?x |- _ =>
    destruct x as [[s2 v2] dl2]; rename H into Hd end.
  assert (prepared s2 = prepared s) as Hm2.
  { unfold DoMVTSOOCCCheck in Hd. rewrite Hsync in Hd. cbn [orb] in Hd. inv_outcome.
    match goal with H : (if bool_decide (is_Some _) then _ else _) = Done ?x |- _ =>
      destruct x as [[s3 early] cp]; rename H into Hcp;
      assert (prepared s3 = prepared s) as Hm3 end.
    { destruct (bool_decide (is_Some _)); inv_outcome; [done|].
      match goal with H : occ_checks _ _ _ _ _ _ _ = Done ?x |- _ => destruct x as [sA rr];
        apply occ_checks_prepared in H; rewrite Hm1 in H end.
      destruct rr; cbn in *; by simplify_eq. }
    destruct early; [by inv_outcome|]. destruct fb; [|by inv_outcome].
    inv_outcome. destruct x2 as [s4 r4]. inv_outcome.
    match goal with H : dependency_stage _ _ _ _ _ _ _ = _ |- _ =>
      apply dependency_stage_frame, frame_fields in H as (_ & _ & Hp & _) end. by rewrite Hp. }
  case_bool_decide; inv_outcome; [|by rewrite Hm2].
  match goal with H : Abort _ _ _ = _ |- _ => apply Abort_shrinks in H; cbn in H end. by rewrite <- Hm2.
Qed.

End frame.

(** ** Conflicts *)

Section conflicts.
Context `{E : Env}.
Implicit Types (s : server) (d : digest) (p : ptr) (t : Transaction).

(** The version of an owned key a transaction read (the first entry of the
    read set for the key, which is the one the server looks at), and the owned
    keys it writes. *)
Definition reads t (k : string) (v : Timestamp) : Prop :=
  ∃ r, List.find (λ r, bool_decide (r_key r = k)) (read_set t) = Some r ∧
    r_is_table_col_version r = false ∧ r_readtime r = v ∧ IsKeyOwned k = true.
Definition writes t (k : string) : Prop :=
  policy_type t = NONE ∧ IsKeyOwned k = true ∧
  ∃ w, w ∈ write_set t ∧ w_key w = k ∧ w_is_table_col_version w = false.

(** [tw] overwrites a version read by [tr] before the timestamp of [tr].
    Reads of the genesis version are not covered: the server exempts them
    when the preceding committed write is a deletion. *)
Definition rw_conflict tr tw : Prop :=
  ∃ k v, reads tr k v ∧ writes tw k ∧ is_genesis v = false ∧
    ts_lt v (t_timestamp tw) = true ∧ ts_lt (t_timestamp tw) (t_timestamp tr) = true.

Lemma reads_elem t k v :
  reads t k v → ∃ r, r ∈ read_set t ∧ r_key r = k ∧ r_is_table_col_version r = false ∧
    r_readtime r = v ∧ IsKeyOwned k = true.
Proof.
  intros (r & Hf & Ht & Hv & Ho). apply find_some in Hf as [Hin Hk].
  apply bool_decide_eq_true in Hk. exists r. split_and!; try done. by apply list_elem_of_In.
Qed.

Lemma check_reads_None s ts l :
  check_reads s ts l = Done None → ∀ r, r ∈ l → check_read s ts r = Done None.
Proof.
  induction l as [|a l IH]; intros Heq r Hr; [set_solver|]. cbn in Heq. inv_outcome.
  destruct x as [v|]; inv_outcome. apply elem_of_cons in Hr as [->|Hr]; [done|by apply IH].
Qed.

(** A read that passes the check has no committed and no prepared write of
    its key between the version read and the timestamp. *)
Lemma check_read_no_committed s ts r tw x :
  vs_wf (store s) → check_read s ts r = Done None →
  r_is_table_col_version r = false → IsKeyOwned (r_key r) = true →
  is_genesis (r_readtime r) = false →
  (tw, x) ∈ versions_of (store s) (r_key r) →
  ts_lt (r_readtime r) tw = true → ts_lt tw ts = true → False.
Proof.
  intros Hwf Hc Ht Ho Hg Hin H1 H2. unfold check_read in Hc. rewrite Ht, Ho, Hg in Hc. cbn in Hc.
  inv_outcome. rewrite getPreceedingCommit_versions in *.
  destruct (last_below fst (versions_of (store s) (r_key r)) ts (tw, x)) as (e & Hl & He1 & He2);
    [by apply versions_of_sorted|done|done|].
  rewrite Hl in *. destruct e as [c v]. cbn in He1, He2.
  assert (ts_lt (r_readtime r) c = true) as Hlt by (eapply (ltb_le_trans (K := Timestamp)); done).
  rewrite Hlt in *. inv_outcome.
Qed.

Lemma check_read_no_prepared s ts r tw q l :
  check_read s ts r = Done None →
  r_is_table_col_version r = false → IsKeyOwned (r_key r) = true →
  is_genesis (r_readtime r) = false →
  preparedWrites s !! r_key r = Some l → ssorted fst l → (tw, q) ∈ l →
  ts_lt (r_readtime r) tw = true → ts_lt tw ts = true → False.
Proof.
  intros Hc Ht Ho Hg Hl Hs Hin H1 H2. unfold check_read in Hc. rewrite Ht, Ho, Hg in Hc. cbn in Hc.
  inv_outcome. assert (check_prepared_writes s ts r ≠ Done None) as Hne.
  { unfold check_prepared_writes, GetPreceedingPreparedWrite. rewrite Hl.
    destruct (last_below fst l ts (tw, q)) as (e & He & He1 & He2); [done..|].
    rewrite He. destruct e as [c p]. cbn in He1, He2.
    assert (ts_lt (r_readtime r) c = true) as -> by (eapply (ltb_le_trans (K := Timestamp)); done).
    assert (ts_lt c ts = true) as -> by done. cbn. by rewrite Hg. }
  repeat case_match; inv_outcome; done.
Qed.

(** A write that passes the check: no prepared and no committed reader above
    its timestamp read a version below it. *)
Lemma check_prepared_reads_None s ts k x l q t v :
  check_prepared_reads s ts k x l = Done None → q ∈ l → heap s !! q = Some t →
  reads t k v → is_genesis v = false →
  ts_lt v ts = true → ts_lt ts (t_timestamp t) = true → False.
Proof.
  intros Hc Hin Hq (r & Hf & _ & Hv & _) Hg H1 H2.
  induction l as [|a l IH]; [set_solver|]. cbn in Hc. inv_outcome.
  apply elem_of_cons in Hin as [<-|Hin].
  - unfold deref in *. rewrite Hq in *. simplify_eq. rewrite H2 in *. cbn in *.
    unfold read_version in *. rewrite Hf in *. cbn in *. rewrite H1, Hg in *. done.
  - repeat case_match; inv_outcome; by apply IH.
Qed.

Lemma committed_reads_loop_None ts x l tr v pr :
  check_committed_reads ts x l = Done None → (tr, v, pr) ∈ l →
  (∀ l1 l2, l = l1 ++ (tr, v, pr) :: l2 → ∀ e, e ∈ l1 → ts_lt e.1.1 tr = false) →
  is_genesis v = false → ts_lt v ts = true → ts_lt ts tr = true → False.
Proof.
  intros Hc Hin Hord Hg H1 H2. induction l as [|[[r0 v0] p0] l IH]; [set_solver|]. cbn in Hc.
  apply elem_of_cons in Hin as [[= <- <- <-]|Hin].
  - rewrite ts_ge_lt, H2 in Hc. cbn in Hc. rewrite H1, Hg in Hc. cbn in Hc. inv_outcome.
  - assert (ts_ge ts r0 = false) as Hge.
    { rewrite ts_ge_lt, negb_false_iff. apply (ltb_le_trans (K := Timestamp)) with tr; [done|].
      apply list_elem_of_split in Hin as (l1 & l2 & ->).
      apply (Hord ((r0, v0, p0) :: l1) l2 eq_refl (r0, v0, p0)). by left. }
    rewrite Hge in Hc.
    assert (check_committed_reads ts x l = Done None) as Hl.
    { repeat case_match; inv_outcome; done. }
    apply IH; [done..|]. intros l1 l2 -> e He. apply (Hord ((r0, v0, p0) :: l1) l2); [done|]. set_solver.
Qed.

Lemma check_committed_reads_None ts x l tr v pr :
  check_committed_reads ts x (reverse l) = Done None → ssorted id l → (tr, v, pr) ∈ l →
  is_genesis v = false → ts_lt v ts = true → ts_lt ts tr = true → False.
Proof.
  intros Hc Hs Hin Hg H1 H2. eapply committed_reads_loop_None; [done|by rewrite elem_of_reverse|..|done|done|done].
  intros l1 l2 Hl e He. apply (f_equal reverse) in Hl.
  rewrite reverse_involutive, reverse_app, reverse_cons, <- app_assoc in Hl. subst l.
  apply (ssorted_app id) in Hs as (_ & Hs & _). cbn in Hs. apply (ssorted_cons id) in Hs as [_ Hs].
  specialize (Hs e). unfold id in Hs. rewrite elem_of_reverse in Hs. specialize (Hs He).
  destruct (ts_lt e.1.1 tr) eqn:Ha; [|done].
  assert (ltb e.1 (tr, v) = true) as Hlt by (unfold ltb, prod_Ltb, ltb, Timestamp_Ltb; cbn; by rewrite Ha).
  apply prod_ltb_fst in Hs. cbn in Hs. congruence.
Qed.
End conflicts.
