(* ===== verification/Endorse.v ===== *)
(** * Endorsement check of a replica

    From src/src/store/sintrstore/server.cc: [GetPolicy], [ExtractPolicy] (the
    policy a transaction has to satisfy, with the policy leak check),
    [ValidateEndorsementHelper], [ValidateEndorsements] and the sequential
    [EndorsementCheck].  The theorem says what a non-negative result means for
    the keys the transaction writes. *)
From S2P Require Import Prelude OrderedSeq CppString Timestamp VersionStore Policy PolicyParse ServerState DemoEnv ServerTxn MVTSO.

Section endorse.
Context `{E : Env}.
Implicit Types (s : server) (d : digest) (ts : Timestamp) (txn : Transaction).

(** [std::unordered_set<const Policy *>] is iterated in an order of its own:
    [iter] takes the policies in insertion order to that order. *)
Variable iter : list Policy → list Policy.

(** [GetPolicy]; the second component is [*preparedTxn]. *)
Definition GetPolicy s (policyId : string) ts (checkPrepared : bool) :
    outcome ((Timestamp * PolicyStoreValue) * option ptr) :=
  let tsPolicy := get (policyStore s) policyId ts in
  mostRecentPrepared ←
    (if checkPrepared && (maxDepDepth >? -2)
     then FindPreparedVersion s policyId ts (fst <$> tsPolicy) POLICY_ID_POLICY
     else Done None);
  let committed_policy := match tsPolicy with Some v => Done (v, None) | None => Panic end in
  match mostRecentPrepared with
  | None => committed_policy
  | Some q =>
      t ← deref s q;
      match List.find (λ w, bool_decide (w_key w = policyId)) (write_set t) with
      | Some w => Done ((t_timestamp t,
                         mkPolicyValue (Parse (parse_PolicyObject (w_value w))) null), Some q)
      | None => committed_policy
      end
  end.

(** ** ExtractPolicy *)

(** The writes whose policy counts at this replica, and the policy id of a
    write. *)
Definition governed txn (w : WriteMessage) : bool :=
  negb (w_is_table_col_version w) &&
  (bool_decide (policy_type txn = POLICY_ID_POLICY) || IsKeyOwned (w_key w)).
Definition write_policy_id txn (w : WriteMessage) : string :=
  match policy_type txn with
  | POLICY_ID_POLICY => w_key w
  | NONE => policyIdFunction (w_key w) (w_value w)
  end.

(** The loop over the write set: the policy so far and [policiesChecked]. *)
Definition extract_write s txn (acc : PolicyClient.t * list string) (w : WriteMessage) :
    outcome (PolicyClient.t * list string) :=
  let '(policyClient, policiesChecked) := acc in
  if negb (governed txn w) then Done acc
  else
    let policyId := write_policy_id txn w in
    if bool_decide (policyId ∈ policiesChecked) then Done acc
    else
      '(tsPolicy, _) ← GetPolicy s policyId (t_timestamp txn) false;
      policyClient ← PolicyClient.AddPolicy policyClient (psv_policy tsPolicy.2);
      Done (policyClient, policyId :: policiesChecked).

(** A lifted transaction has to name the policy versions in force. *)
Fixpoint versions_match s ts (pvs : list PolicyVersion) : outcome bool :=
  match pvs with
  | [] => Done true
  | pv :: rest =>
      '(tsPolicy, _) ← GetPolicy s (pv_policy_id pv) ts false;
      if ts_eq (pv_timestamp pv) tsPolicy.1 then versions_match s ts rest else Done false
  end.

Definition is_lifted txn : bool :=
  negb includeReadsetForTxnPolicy &&
  (negb checkPolicyLeak || negb (bool_decide (lift_keys txn = []))) &&
  negb (bool_decide (lift_keys txn = [])).

(** What the loop over the read set carries: the state, [policiesChecked],
    [policyTSSet] and [readsetPoliciesToAdd]. *)
Record racc := mkRacc {
  ra_s : server;
  ra_checked : list string;
  ra_ts_set : list (string * Timestamp);
  ra_to_add : list Policy
}.

(** The reads looked at. *)
Definition counted (lift_keys_set : list string) (read : ReadMessage) : bool :=
  negb (r_is_table_col_version read) && IsKeyOwned (r_key read) &&
  negb (bool_decide (r_key read ∈ lift_keys_set)).

Definition include_read ts (a : racc) (policyId : string) : outcome racc :=
  if includeReadsetForTxnPolicy && negb (bool_decide (policyId ∈ ra_checked a)) then
    '(tsPolicy, _) ← GetPolicy (ra_s a) policyId ts false;
    Done (mkRacc (ra_s a) (policyId :: ra_checked a) (ra_ts_set a)
            (ra_to_add a ++ [psv_policy tsPolicy.2]))
  else Done a.

(** The leak check of one read: [false] is a leak. *)
Definition leak_check (policyClient : PolicyClient.t) (a : racc) (policyId : string)
    (readtime : Timestamp) : outcome (racc * bool) :=
  if checkPolicyLeak then
    '(tsPolicy, _) ← GetPolicy (ra_s a) policyId readtime false;
    if bool_decide ((policyId, tsPolicy.1) ∈ ra_ts_set a) then Done (a, true)
    else
      let '(ps, upperTs) := getUpperBound (policyStore (ra_s a)) policyId readtime in
      let a := mkRacc (upd_policyStore (λ _, ps) (ra_s a)) (ra_checked a)
                 ((policyId, tsPolicy.1) :: ra_ts_set a) (ra_to_add a) in
      if match upperTs with Some u => ts_gt u readtime | None => false end then Done (a, true)
      else ok ← PolicyClient.IsImpliedBy policyClient (psv_policy tsPolicy.2); Done (a, ok)
  else Done (a, true).

Fixpoint extract_reads ts (policyClient : PolicyClient.t) (lift_keys_set : list string) (a : racc)
    (reads : list ReadMessage) : outcome (racc * bool) :=
  match reads with
  | [] => Done (a, true)
  | read :: rest =>
      if negb (counted lift_keys_set read) then extract_reads ts policyClient lift_keys_set a rest
      else
        let policyId := policyIdFunction (r_key read) "" in
        a ← include_read ts a policyId;
        '(a, ok) ← leak_check policyClient a policyId (r_readtime read);
        if ok : bool then extract_reads ts policyClient lift_keys_set a rest else Done (a, false)
  end.

Definition ExtractPolicy s txn (policyClient : PolicyClient.t) :
    outcome (server * PolicyClient.t * bool) :=
  let ts := t_timestamp txn in
  '(policyClient, policiesChecked) ← foldO (extract_write s txn) (policyClient, []) (write_set txn);
  ok ← (if is_lifted txn then versions_match s ts (policy_versions txn) else Done true);
  if negb ok then Done (s, policyClient, false)
  else
    let lift_keys_set := if is_lifted txn then lift_keys txn else [] in
    '(a, ok) ← extract_reads ts policyClient lift_keys_set (mkRacc s policiesChecked [] [])
                 (read_set txn);
    if negb ok then Done (ra_s a, policyClient, false)
    else
      policyClient ← (if includeReadsetForTxnPolicy
                      then foldO PolicyClient.AddPolicy policyClient (iter (ra_to_add a))
                      else Done policyClient);
      Done (ra_s a, policyClient, true).

(** ** Validating endorsements *)

Definition ValidateEndorsementHelper (e : SignedMessage) (txnDigest : digest) : bool :=
  negb (bool_decide (sm_data e = "")) &&
  bool_decide (txnDigest = parse_ValTxnMsg (sm_data e)) &&
  (negb signFinishValidation || verify_client (sm_process_id e) (sm_data e) (sm_signature e)).

(** [endorsers.insert(process_id)] for a valid endorsement. *)
Definition add_endorser (txnDigest : digest) (endorsers : cids) (e : SignedMessage) : cids :=
  if ValidateEndorsementHelper e txnDigest then seq_insert id (sm_process_id e) endorsers
  else endorsers.
Definition endorser_set (sigs : list SignedMessage) (client_id : Z) (txnDigest : digest) : cids :=
  foldl (add_endorser txnDigest) [client_id] sigs.

Definition ValidateEndorsements (policyClient : PolicyClient.t) (sigs : list SignedMessage)
    (client_id : Z) (txnDigest : digest) : Z :=
  PolicyClient.IsSatisfiedInt policyClient (endorser_set sigs client_id txnDigest).

(** [EndorsementCheck(txnDigest, txn)]. *)
Definition EndorsementCheck s (txnDigest : digest) txn : outcome (server * Z) :=
  '(s, policyClient, ok) ← ExtractPolicy s txn PolicyClient.init;
  if negb ok then Done (s, -1)
  else Done (s, ValidateEndorsements policyClient (endorsements txn) (client_id txn) txnDigest).

(** ** What the check establishes *)

(** The policies in the store are objects the code can build, with numbers
    that fit an [int]. *)
Definition store_policies_ok s : Prop :=
  ∀ policyId ts v, get (policyStore s) policyId ts = Some v →
    policy_ok (psv_policy v.2) ∧ policy_small (psv_policy v.2).

(** The policy of [policyId] in force at the transaction's timestamp. *)
Definition in_force s txn (policyId : string) (pol : Policy) : Prop :=
  ∃ v, get (policyStore s) policyId (t_timestamp txn) = Some v ∧ psv_policy v.2 = pol.

(** The policies the transaction has to satisfy: those of the keys it writes
    and, when reads are included, of the keys it reads. *)
Definition required s txn (pol : Policy) : Prop :=
  (∃ w, w ∈ write_set txn ∧ governed txn w = true ∧ in_force s txn (write_policy_id txn w) pol) ∨
  (includeReadsetForTxnPolicy = true ∧
   ∃ read, read ∈ read_set txn ∧ counted [] read = true ∧
     in_force s txn (policyIdFunction (r_key read) "") pol).

Lemma GetPolicy_committed s policyId ts r :
  GetPolicy s policyId ts false = Done r ↔
  ∃ v, get (policyStore s) policyId ts = Some v ∧ r = (v, None).
Proof. unfold GetPolicy. cbn. destruct (get _ _ _); naive_solver. Qed.

(** Every policy id already checked has its policy among those collected. *)
Definition covers s txn (ids : list string) (ps : list Policy) : Prop :=
  ∀ i, i ∈ ids → ∃ pol, in_force s txn i pol ∧ pol ∈ ps.

Lemma covers_cons s txn i ids ps pol :
  covers s txn ids ps → in_force s txn i pol → covers s txn (i :: ids) (ps ++ [pol]).
Proof. intros Hc Hi j [->|Hj%Hc]%elem_of_cons; set_solver. Qed.

Lemma foldO_app {A B} (f : A → B → outcome A) a l1 l2 :
  foldO f a (l1 ++ l2) = (a' ← foldO f a l1; foldO f a' l2).
Proof. revert a. induction l1 as [|x l1 IH]; intros a; [done|]. cbn. by destruct (f a x); cbn. Qed.

Lemma extract_writes_spec s txn ws c ids :
  (∀ w, w ∈ ws → w ∈ write_set txn) →
  foldO (extract_write s txn) (PolicyClient.init, []) ws = Done (c, ids) →
  ∃ ps, foldO PolicyClient.AddPolicy PolicyClient.init ps = Done c ∧
    covers s txn ids ps ∧ (∀ pol, pol ∈ ps → required s txn pol) ∧
    (∀ w, w ∈ ws → governed txn w = true → write_policy_id txn w ∈ ids).
Proof.
  revert c ids. induction ws as [|w ws IH] using rev_ind; intros c ids Hsub Hf.
  { cbn in Hf. simplify_eq. exists []. split_and!; [done|intros i|set_solver..]. set_solver. }
  rewrite foldO_app in Hf. apply bind_Done in Hf as ([c1 ids1] & H1 & H2). cbn [foldO] in H2. inv_outcome.
  destruct (IH c1 ids1) as (ps & Hps & Hcov & Hreq & Hin); [set_solver|done|].
  match goal with H : extract_write _ _ _ _ = _ |- _ => unfold extract_write in H end.
  destruct (governed txn w) eqn:Hg; cbn [negb] in *.
  2:{ simplify_eq. exists ps. split; [done|]. split; [done|]. split; [done|].
      intros w' [?| ->%list_elem_of_singleton]%elem_of_app; [auto|congruence]. }
  case_bool_decide as Hid.
  { simplify_eq. exists ps. split; [done|]. split; [done|]. split; [done|].
    intros w' [?| ->%list_elem_of_singleton]%elem_of_app; auto. }
  inv_outcome.
  match goal with H : GetPolicy _ _ _ _ = Done ?x |- _ => destruct x as [tsPolicy o];
    apply GetPolicy_committed in H as (v & Hv & [= -> ->]) end.
  inv_outcome. exists (ps ++ [psv_policy v.2]).
  assert (in_force s txn (write_policy_id txn w) (psv_policy v.2)) as Hforce by (by exists v).
  split; [|split; [|split]].
  - rewrite foldO_app, Hps. cbn. match goal with H : PolicyClient.AddPolicy _ _ = _ |- _ => by rewrite H end.
  - by apply covers_cons.
  - intros pol [?| ->%list_elem_of_singleton]%elem_of_app; [auto|].
    left. exists w. split_and!; [set_solver|done..].
  - intros w' [Hw'| ->%list_elem_of_singleton]%elem_of_app Hg'; [right; auto|left].
Qed.

(** The same versions of every policy. *)
Definition same_policies s s' : Prop :=
  ∀ i, versions_of (policyStore s') i = versions_of (policyStore s) i.
Lemma same_get s s' i t :
  same_policies s s' → get (policyStore s') i t = get (policyStore s) i t.
Proof. intros H. by rewrite !get_versions, H. Qed.

Lemma leak_check_frame c a i rt a' ok :
  leak_check c a i rt = Done (a', ok) →
  same_policies (ra_s a) (ra_s a') ∧ ra_checked a' = ra_checked a ∧ ra_to_add a' = ra_to_add a.
Proof.
  unfold leak_check. destruct checkPolicyLeak; [|by intros [= <- <-]]. intros H. inv_outcome.
  destruct x as [tsPolicy o]. case_bool_decide; [by simplify_eq|].
  destruct (getUpperBound _ _ _) as [ps u] eqn:Hu.
  assert (same_policies (ra_s a) (upd_policyStore (λ _, ps) (ra_s a))) as Hsame.
  { intros j. cbn. change ps with (ps, u).1. rewrite <- Hu. by apply versions_of_upper. }
  case_match; inv_outcome; by split_and!.
Qed.

Lemma include_read_spec ts a i a' :
  include_read ts a i = Done a' →
  ra_s a' = ra_s a ∧
  (a' = a ∧ (includeReadsetForTxnPolicy = true → i ∈ ra_checked a) ∨
   includeReadsetForTxnPolicy = true ∧ ∃ v, get (policyStore (ra_s a)) i ts = Some v ∧
     ra_checked a' = i :: ra_checked a ∧ ra_to_add a' = ra_to_add a ++ [psv_policy v.2]).
Proof.
  unfold include_read. destruct includeReadsetForTxnPolicy; cbn [andb];
    [|intros [= <-]; split; [done|]; by left].
  case_bool_decide; cbn [negb]; [intros [= <-]; split; [done|]; by left|].
  intros H'. inv_outcome. destruct x as [tsPolicy o].
  match goal with H : GetPolicy _ _ _ _ = _ |- _ => apply GetPolicy_committed in H as (v & Hv & [= -> ->]) end.
  inv_outcome. split; [done|]. right. split; [done|]. by exists v.
Qed.

Lemma include_read_ts_set ts a i a' : include_read ts a i = Done a' → ra_ts_set a' = ra_ts_set a.
Proof.
  unfold include_read. intros H'. case_match; [|by simplify_eq].
  inv_outcome. destruct x as [? ?]. by inv_outcome.
Qed.

Lemma extract_reads_spec s txn c ids reads a ps a' :
  (∀ read, read ∈ reads → read ∈ read_set txn) →
  same_policies s (ra_s a) → covers s txn (ra_checked a) (ps ++ ra_to_add a) →
  (∀ pol, pol ∈ ps ++ ra_to_add a → required s txn pol) →
  (includeReadsetForTxnPolicy = true → ids = []) →
  extract_reads (t_timestamp txn) c ids a reads = Done (a', true) →
  covers s txn (ra_checked a') (ps ++ ra_to_add a') ∧
  (∀ pol, pol ∈ ps ++ ra_to_add a' → required s txn pol) ∧
  (∀ i, i ∈ ra_checked a → i ∈ ra_checked a') ∧
  (includeReadsetForTxnPolicy = true → ∀ read, read ∈ reads → counted [] read = true →
     policyIdFunction (r_key read) "" ∈ ra_checked a').
Proof.
  revert a. induction reads as [|read reads IH]; intros a Hsub Hsame Hcov Hreq Hids Hf; cbn in Hf.
  { simplify_eq. split_and!; [done..|set_solver]. }
  destruct (counted ids read) eqn:Hc; cbn in Hf.
  2:{ destruct (IH a) as (? & ? & ? & Hin); [set_solver|done..|]. split_and!; [done..|].
      intros Hi r [->|Hr]%elem_of_cons Hr'; [|by apply Hin]. rewrite Hids in Hc by done. congruence. }
  inv_outcome. destruct x0 as [a2 ok]. destruct ok; [|done].
  match goal with H : leak_check _ _ _ _ = _ |- _ => apply leak_check_frame in H as (Hs2 & Hc2 & Ha2) end.
  set (i := policyIdFunction (r_key read) "") in *.
  assert (same_policies (ra_s a) (ra_s x) ∧ covers s txn (ra_checked x) (ps ++ ra_to_add x) ∧
    (∀ pol, pol ∈ ps ++ ra_to_add x → required s txn pol) ∧
    (∀ j, j ∈ ra_checked a → j ∈ ra_checked x) ∧
    (includeReadsetForTxnPolicy = true → i ∈ ra_checked x)) as (Hsx & Hcx & Hrx & Hmx & Hix).
  { match goal with H : include_read _ _ _ = _ |- _ =>
      apply include_read_spec in H as (-> & [(-> & Hi)|(Hincl & v & Hv & -> & ->)]) end; [by split_and!|].
    rewrite (same_get _ _ _ _ Hsame) in Hv. rewrite app_assoc.
    assert (in_force s txn i (psv_policy v.2)) as Hforce by (by exists v).
    split_and!; [done|by apply covers_cons| |by right|by left].
    intros pol [?| ->%list_elem_of_singleton]%elem_of_app; [auto|].
    right. split; [done|]. exists read. rewrite Hids in Hc by done. split_and!; [|done..].
    apply Hsub. by left. }
  destruct (IH a2) as (? & ? & Hmono & Hin); [set_solver|..| |done|done|].
  - intros j. rewrite (Hs2 j), (Hsx j). apply Hsame.
  - by rewrite Hc2, Ha2.
  - by rewrite Ha2.
  - rewrite Hc2 in Hmono. split_and!; [done|done|auto|].
    intros Hi r [->|Hr]%elem_of_cons Hr'; [auto|by apply Hin].
Qed.

(** The endorsers: the initiator and whoever signed this digest. *)
Lemma endorser_set_spec sigs cid d :
  ssorted id (endorser_set sigs cid d) ∧
  (length (endorser_set sigs cid d) ≤ 1 + length sigs)%nat ∧
  ∀ c, c ∈ endorser_set sigs cid d ↔
    c = cid ∨ ∃ e, e ∈ sigs ∧ ValidateEndorsementHelper e d = true ∧ sm_process_id e = c.
Proof.
  unfold endorser_set. induction sigs as [|e sigs IH] using rev_ind; cbn.
  { split_and!; [apply (ssorted_singleton id)|lia|]. set_solver. }
  rewrite foldl_snoc, length_app. cbn. set (es := foldl _ _ _) in *. destruct IH as (Hs & Hl & Hin).
  unfold add_endorser. destruct (ValidateEndorsementHelper e d) eqn:Hv.
  - split_and!; [by apply (seq_insert_sorted id)| |].
    + pose proof (seq_insert_length id es (sm_process_id e)). lia.
    + intros c. rewrite elem_of_set_insert by done. rewrite Hin.
      setoid_rewrite elem_of_app. setoid_rewrite list_elem_of_singleton. naive_solver.
  - split_and!; [done|lia|]. intros c. rewrite Hin.
    setoid_rewrite elem_of_app. setoid_rewrite list_elem_of_singleton. split; [naive_solver|].
    intros [?|(e0 & [?| ->] & ? & ?)]; [by left|right; by exists e0|congruence].
Qed.

Lemma extract_policy_spec s txn s' c :
  (∀ l, iter l ≡ₚ l) → ExtractPolicy s txn PolicyClient.init = Done (s', c, true) →
  ∃ ps, foldO PolicyClient.AddPolicy PolicyClient.init ps = Done c ∧
    (∀ pol, pol ∈ ps → required s txn pol) ∧
    (∀ w, w ∈ write_set txn → governed txn w = true →
       ∃ pol, in_force s txn (write_policy_id txn w) pol ∧ pol ∈ ps) ∧
    (includeReadsetForTxnPolicy = true → ∀ read, read ∈ read_set txn → counted [] read = true →
       ∃ pol, in_force s txn (policyIdFunction (r_key read) "") pol ∧ pol ∈ ps).
Proof.
  intros Hiter Hx. unfold ExtractPolicy in Hx. inv_outcome. destruct x as [c1 ids]. inv_outcome.
  destruct x; cbn [negb] in *; [|done]. inv_outcome. destruct x as [a ok]. destruct ok; cbn [negb] in *; [|done].
  inv_outcome.
  match goal with H : foldO (extract_write _ _) _ _ = _ |- _ =>
    apply extract_writes_spec in H as (ps & Hps & Hcov & Hreq & Hw); [|done] end.
  match goal with H : extract_reads _ _ _ _ _ = _ |- _ =>
    apply (extract_reads_spec s txn _ _ _ _ ps) in H as (Hcov' & Hreq' & Hmono & Hr) end.
  2: done. 2: done. 2, 3: cbn; by rewrite app_nil_r.
  2: { intros Hi. unfold is_lifted. by rewrite Hi. }
  cbn in Hmono. destruct includeReadsetForTxnPolicy eqn:Hincl.
  - exists (ps ++ iter (ra_to_add a)). split; [by rewrite foldO_app, Hps|].
    assert (∀ pol, pol ∈ ps ++ iter (ra_to_add a) ↔ pol ∈ ps ++ ra_to_add a) as Hperm
      by (intros; by rewrite Hiter).
    setoid_rewrite Hperm. split; [done|]. split; [|intros _; naive_solver].
    intros w Hin Hg. by apply Hcov', Hmono, Hw.
  - inv_outcome. exists ps. split; [done|]. split; [done|]. split; [|done].
    intros w Hin Hg. by apply Hcov, Hw.
Qed.

(** The accumulated policy accepts exactly the endorsers that satisfy every
    required policy. *)
Lemma extract_policy_sat s txn s1 c es :
  (∀ l, iter l ≡ₚ l) → store_policies_ok s → ssorted id es → Z.of_nat (length es) < 2^31 →
  ExtractPolicy s txn PolicyClient.init = Done (s1, c, true) →
  (0 ≤ PolicyClient.IsSatisfiedInt c es ↔ ∀ pol, required s txn pol → IsSatisfied pol es = true).
Proof.
  intros Hiter Hok Hs Hlen Hx. apply extract_policy_spec in Hx as (ps & Hps & Hreq & Hw & Hr); [|done].
  assert (Forall (λ p, policy_ok p ∧ policy_small p) ps) as Hall.
  { apply Forall_forall. intros pol Hp%Hreq.
    destruct Hp as [(? & _ & _ & v & Hv & <-)|(_ & ? & _ & _ & v & Hv & <-)]; by eapply Hok. }
  destruct (add_policies_from PolicyClient.init ps c es) as [Hcok Hsat]; [done| |done..|].
  { eapply Forall_impl; [exact Hall|]. naive_solver. }
  assert (client_small c) as Hsm by (by eapply (add_policies_small PolicyClient.init)).
  rewrite client_int_sign in Hsat by (done || lia). cbn in Hsat.
  rewrite <- Z.leb_le, Hsat, forallb_forall. setoid_rewrite <- list_elem_of_In. split; [|naive_solver].
  intros Hps' pol [(w & Hw1 & Hw2 & v & Hv & <-)|(Hi & rd & Hr1 & Hr2 & v & Hv & <-)].
  - destruct (Hw w Hw1 Hw2) as (pol & (v' & Hv' & <-) & Hp). rewrite Hv in Hv'. simplify_eq. auto.
  - destruct (Hr Hi rd Hr1 Hr2) as (pol & (v' & Hv' & <-) & Hp). rewrite Hv in Hv'. simplify_eq. auto.
Qed.


(** ** The policy leak check *)

(** The policy read has been replaced since. *)
Definition replaced s (policyId : string) ts : bool :=
  match (getUpperBound (policyStore s) policyId ts).2 with
  | Some u => ts_gt u ts
  | None => false
  end.
(** A read of [policyId] at [ts] passes: its policy was replaced, or it
    implies the policy of the writes. *)
Definition cleared s (c : PolicyClient.t) (policyId : string) ts : Prop :=
  ∃ v, get (policyStore s) policyId ts = Some v ∧
    (replaced s policyId ts = true ∨ PolicyClient.IsImpliedBy c (psv_policy v.2) = Done true).

Lemma upper_versions s i t :
  (getUpperBound (policyStore s) i t).2 =
    fst <$> head (upper_bound fst t (versions_of (policyStore s) i)).2.
Proof. done. Qed.

(** A later version is above the time of the read. *)
Lemma replaced_upper s i t :
  vs_wf (policyStore s) →
  replaced s i t = negb (bool_decide ((upper_bound fst t (versions_of (policyStore s) i)).2 = [])).
Proof.
  intros Hwf. unfold replaced. rewrite upper_versions.
  pose proof (λ x, upper_bound_after fst t _ x (versions_of_sorted (policyStore s) i Hwf)) as Ha.
  destruct (upper_bound _ _ _).2 as [|x l]; [done|]. cbn. rewrite ts_gt_lt.
  apply Ha. by left.
Qed.

(** Two reads of one version of a policy pass or fail together. *)
Lemma cleared_same_version s c i t t' v v' :
  vs_wf (policyStore s) → get (policyStore s) i t = Some v → get (policyStore s) i t' = Some v' →
  v.1 = v'.1 → cleared s c i t → cleared s c i t'.
Proof.
  intros Hwf Hv Hv' Heq (w & Hw & Hc). rewrite Hw in Hv. simplify_eq.
  rewrite get_versions in Hw. pose proof Hv' as Hg. rewrite get_versions in Hg.
  pose proof (versions_of_sorted (policyStore s) i Hwf) as Hs.
  pose proof (upper_bound_same fst _ t t' v v' Hs Hw Hg Heq) as Hub.
  rewrite Hub in Hw. rewrite Hw in Hg. simplify_eq.
  exists v'. split; [done|]. rewrite replaced_upper in * by done. by rewrite Hub in Hc.
Qed.

Lemma leak_check_ok s c a i rt a' :
  checkPolicyLeak = true → vs_wf (policyStore s) → same_policies s (ra_s a) →
  (∀ j t, (j, t) ∈ ra_ts_set a → ∃ rt v, get (policyStore s) j rt = Some v ∧ v.1 = t ∧ cleared s c j rt) →
  leak_check c a i rt = Done (a', true) →
  cleared s c i rt ∧
  (∀ j t, (j, t) ∈ ra_ts_set a' → ∃ rt v, get (policyStore s) j rt = Some v ∧ v.1 = t ∧ cleared s c j rt).
Proof.
  intros Hpl Hwf Hsame Hset H. unfold leak_check in H. rewrite Hpl in H. inv_outcome.
  match goal with H : GetPolicy _ _ _ _ = Done ?x |- _ => destruct x as [w o];
    apply GetPolicy_committed in H as (v & Hv & [= -> ->]) end.
  rewrite (same_get s) in Hv by done. case_bool_decide as Hin.
  { simplify_eq. split; [|done]. destruct (Hset _ _ Hin) as (rt' & v' & Hv' & Hk & Hc).
    by apply (cleared_same_version s c i rt' rt v' v). }
  destruct (getUpperBound _ _ _) as [ps u] eqn:Hu.
  assert (u = (getUpperBound (policyStore s) i rt).2) as Hus.
  { change u with (ps, u).2. rewrite <- Hu, !upper_versions. by rewrite Hsame. }
  assert (cleared s c i rt ∧ ra_ts_set a' = (i, v.1) :: ra_ts_set a) as [Hc Hs'].
  { destruct (match u with Some u => ts_gt u rt | None => false end) eqn:Hr; inv_outcome.
    - split; [|done]. exists v. split; [done|]. left. exact Hr.
    - split; [|done]. exists v. split; [done|]. by right. }
  split; [done|]. rewrite Hs'. intros j t [[= -> ->]|Hj]%elem_of_cons; [|by apply Hset].
  by exists rt, v.
Qed.

Lemma extract_reads_leak s ts c ids reads a a' :
  checkPolicyLeak = true → vs_wf (policyStore s) → same_policies s (ra_s a) →
  (∀ j t, (j, t) ∈ ra_ts_set a → ∃ rt v, get (policyStore s) j rt = Some v ∧ v.1 = t ∧ cleared s c j rt) →
  extract_reads ts c ids a reads = Done (a', true) →
  ∀ read, read ∈ reads → counted ids read = true →
    cleared s c (policyIdFunction (r_key read) "") (r_readtime read).
Proof.
  intros Hpl Hwf. revert a. induction reads as [|rd reads IH]; intros a Hsame Hset Hf; [set_solver|].
  cbn [extract_reads] in Hf. destruct (counted ids rd) eqn:Hc; cbn [negb] in Hf.
  2:{ intros read [->|Hr]%elem_of_cons Hcr; [congruence|]. by eapply IH. }
  inv_outcome. destruct x0 as [a2 ok]. destruct ok; [|done].
  match goal with H : include_read _ _ _ = _ |- _ => pose proof (include_read_spec _ _ _ _ H) as [Hsx _];
    pose proof (include_read_ts_set _ _ _ _ H) as Htx end.
  match goal with H : leak_check _ _ _ _ = _ |- _ => pose proof (leak_check_frame _ _ _ _ _ _ H) as (Hs2 & _);
    apply (leak_check_ok s) in H as [Hcl Hset']; [|done|done|by rewrite Hsx|by rewrite Htx] end.
  intros read [->|Hr]%elem_of_cons Hcr; [done|]. eapply (IH a2); [|done..].
  intros j. rewrite (Hs2 j), Hsx. apply Hsame.
Qed.

End endorse.

(** ** Concrete instances *)

Module EndorseExample.
#[local] Instance env : Env := demo_env_with false false true.
(** Two endorsers needed; client 1 writes ["k"] after reading ["j"], client 5
    endorses. *)
Definition pol2 : PolicyStoreValue := mkPolicyValue (WeightPolicy 2) null.
Definition state : server :=
  upd_policyStore (λ st, put st "p#0" pol2 (mkTs 1 1)) (server_init (E := env) tt).
Definition txn : Transaction :=
  mkTxn 1 1 [mkRead "j" (mkTs 9 1) false ""] [mkWrite "k" (Some "x") false] [] (mkTs 20000 1)
    [] [] [] (Some "t") None NONE [] [mkSigned 5 "dg" ""; mkSigned 6 "other" ""] "" [] [] [0].

Lemma state_versions i :
  versions_of (policyStore state) i = if decide ("p#0" = i) then [(mkTs 1 1, pol2)] else [].
Proof. unfold state. cbn [policyStore upd_policyStore]. by rewrite versions_of_put. Qed.

Lemma state_policies_ok : store_policies_ok state.
Proof.
  intros i ts v. rewrite get_versions, state_versions. case_decide; [|done]. cbn.
  case_match; intros [= <-]; cbn. split; [split; [cbn; lia|done]|cbn; lia].
Qed.
Lemma state_wf : vs_wf (policyStore state).
Proof. apply vs_wf_put, vs_wf_empty. Qed.


End EndorseExample.
