(* ===== verification/AsyncPrepare.v ===== *)
(** * Phase 1 at a replica: endorsement check and concurrency control together

    [AsyncValidatePrepare] (src/src/store/sintrstore/server.h) joins the
    endorsement validations run by worker threads with the result of the
    concurrency control; [TryPrepare] (servertools.cc) starts both and
    [HandlePhase1CB] (server.cc) answers.  Each method holds the object's
    mutex, so a concurrent execution is a sequence of method calls. *)
From S2P Require Import Prelude OrderedSeq CppString Timestamp VersionStore Policy PolicyParse ServerState DemoEnv ServerTxn MVTSO MVTSOSafety Endorse.

Section avp.
(** What the callbacks change. *)
Context {St : Type}.
Variable phase1_cb : Result → proof → option ptr → bool → bool → St → outcome St.
Implicit Types (s : St) (es : cids).

(** [result], [committedProof] and [abstain_conflict] are read after
    [ccDone] only. *)
Record AsyncValidatePrepare := mkAVP {
  av_done : bool;
  av_endorsers : cids;
  av_policyClient : PolicyClient.t;
  av_total_validations : Z;
  av_completed_validations : Z;
  av_policyLeak : bool;
  av_delay_prepare_cb : option (St → outcome (St * Result));
  av_ccDone : bool;
  av_result : Result;
  av_committedProof : proof;
  av_abstain_conflict : option ptr;
  av_cbDone : bool
}.
Implicit Types a : AsyncValidatePrepare.

(** The constructor, after [ExtractPolicy] has filled the policy client. *)
Definition avp_new (total_validations : Z) (c : PolicyClient.t) : AsyncValidatePrepare :=
  mkAVP false [] c total_validations 0 false None false COMMIT null None false.

Definition set_done (b : bool) a : AsyncValidatePrepare :=
  mkAVP b (av_endorsers a) (av_policyClient a) (av_total_validations a) (av_completed_validations a)
    (av_policyLeak a) (av_delay_prepare_cb a) (av_ccDone a) (av_result a) (av_committedProof a)
    (av_abstain_conflict a) (av_cbDone a).
Definition set_leak (b : bool) a : AsyncValidatePrepare :=
  mkAVP (av_done a) (av_endorsers a) (av_policyClient a) (av_total_validations a)
    (av_completed_validations a) b (av_delay_prepare_cb a) (av_ccDone a) (av_result a)
    (av_committedProof a) (av_abstain_conflict a) (av_cbDone a).
Definition set_cbDone (r : Result) a : AsyncValidatePrepare :=
  mkAVP (av_done a) (av_endorsers a) (av_policyClient a) (av_total_validations a)
    (av_completed_validations a) (av_policyLeak a) (av_delay_prepare_cb a) (av_ccDone a) r
    (av_committedProof a) (av_abstain_conflict a) true.
Definition set_endorsed es (completed : Z) a : AsyncValidatePrepare :=
  mkAVP (av_done a) es (av_policyClient a) (av_total_validations a) completed (av_policyLeak a)
    (av_delay_prepare_cb a) (av_ccDone a) (av_result a) (av_committedProof a)
    (av_abstain_conflict a) (av_cbDone a).
Definition set_cc (r : Result) (pr : proof) (ac : option ptr)
    (cb : option (St → outcome (St * Result))) a : AsyncValidatePrepare :=
  mkAVP (av_done a) (av_endorsers a) (av_policyClient a) (av_total_validations a)
    (av_completed_validations a) (av_policyLeak a) cb true r pr ac (av_cbDone a).

(** The answer once both parts are done: prepare if the endorsers satisfy the
    policy, otherwise abstain. *)
Definition answer a s : outcome (St * AsyncValidatePrepare) :=
  let endorseStatus := PolicyClient.IsSatisfiedInt (av_policyClient a) (av_endorsers a) in
  if endorseStatus >=? 0 then
    '(s, r) ← match av_delay_prepare_cb a with Some f => f s | None => Done (s, av_result a) end;
    s ← phase1_cb r (av_committedProof a) (av_abstain_conflict a) false (endorseStatus >? 0) s;
    Done (s, set_cbDone r a)
  else
    s ← phase1_cb ABSTAIN null None true false s;
    Done (s, set_cbDone (av_result a) a).

(** Every method returns [done]: the caller then deletes the object. *)
Definition SetPolicyLeak a s : outcome (St * AsyncValidatePrepare * bool) :=
  let a := set_leak true a in
  a ← (if av_ccDone a then Done (set_done true a)
       else _ ← uw_assert (negb (av_cbDone a)); Done a);
  '(s, a) ← (if negb (av_cbDone a) then
               s ← phase1_cb ABSTAIN null None true false s; Done (s, set_cbDone (av_result a) a)
             else Done (s, a));
  Done (s, a, av_done a).

Definition AddCompletedValidation (valid : bool) (endorser_id : Z) a s :
    outcome (St * AsyncValidatePrepare * bool) :=
  _ ← uw_assert (negb (av_policyLeak a));
  let es := if valid then seq_insert id endorser_id (av_endorsers a) else av_endorsers a in
  let a := set_endorsed es (u32 (av_completed_validations a + 1)) a in
  let all := av_completed_validations a =? av_total_validations a in
  '(s, a) ←
    (if av_ccDone a && all then
       let a := set_done true a in
       if negb (av_cbDone a) then answer a s else Done (s, a)
     else if all then
       if PolicyClient.IsSatisfiedInt (av_policyClient a) (av_endorsers a) <? 0 then
         s ← phase1_cb ABSTAIN null None true false s; Done (s, set_cbDone (av_result a) a)
       else Done (s, a)
     else Done (s, a));
  Done (s, a, av_done a).

Definition SetCCResult (r : Result) (pr : proof) (ac : option ptr)
    (cb : option (St → outcome (St * Result))) a s : outcome (St * AsyncValidatePrepare * bool) :=
  let a := set_cc r pr ac cb a in
  '(s, a) ←
    (if av_policyLeak a then
       let a := set_done true a in _ ← uw_assert (av_cbDone a); Done (s, a)
     else if av_completed_validations a =? av_total_validations a then
       let a := set_done true a in
       if negb (av_cbDone a) then answer a s else Done (s, a)
     else if bool_decide (r = ABSTAIN) || bool_decide (r = ABORT) then
       s ← phase1_cb r pr ac false false s; Done (s, set_cbDone r a)
     else Done (s, a));
  Done (s, a, av_done a).

(** ** Executions *)

(** The result of the concurrency control as [SetCCResult] gets it. *)
Record cc_result := mkCC {
  cc_r : Result; cc_proof : proof; cc_conflict : option ptr;
  cc_cb : option (St → outcome (St * Result))
}.
Inductive avp_call := CallValidation (v : bool * Z) | CallCC (c : cc_result).
Definition do_call (c : avp_call) a s : outcome (St * AsyncValidatePrepare * bool) :=
  match c with
  | CallValidation v => AddCompletedValidation v.1 v.2 a s
  | CallCC c => SetCCResult (cc_r c) (cc_proof c) (cc_conflict c) (cc_cb c) a s
  end.
(** A sequence of calls, with what each returned. *)
Fixpoint run_calls a s (cs : list avp_call) : outcome (St * AsyncValidatePrepare * list bool) :=
  match cs with
  | [] => Done (s, a, [])
  | c :: cs' =>
      '(s, a, b) ← do_call c a s;
      '(s, a, bs) ← run_calls a s cs';
      Done (s, a, b :: bs)
  end.

(** The endorsers after a list of validations. *)
Definition endorse es (v : bool * Z) : cids := if v.1 then seq_insert id v.2 es else es.

(** The one answer a run gives: [late] validations were outstanding when the
    result of the concurrency control came. *)
Definition single_answer (c : PolicyClient.t) es (late : bool) (cc : cc_result) s : outcome St :=
  let st := PolicyClient.IsSatisfiedInt c es in
  if late && (bool_decide (cc_r cc = ABSTAIN) || bool_decide (cc_r cc = ABORT))
  then phase1_cb (cc_r cc) (cc_proof cc) (cc_conflict cc) false false s
  else if st <? 0 then phase1_cb ABSTAIN null None true false s
  else
    '(s, r) ← match cc_cb cc with Some f => f s | None => Done (s, cc_r cc) end;
    phase1_cb r (cc_proof cc) (cc_conflict cc) false (0 <? st) s.

(** ** Exactly one answer *)


(** A validation that is not the last one only records the endorser. *)
Lemma add_validation_quiet a s v :
  av_policyLeak a = false → av_done a = false →
  0 ≤ av_completed_validations a → av_completed_validations a + 1 < av_total_validations a < 2^32 →
  AddCompletedValidation v.1 v.2 a s =
    Done (s, set_endorsed (endorse (av_endorsers a) v) (av_completed_validations a + 1) a, false).
Proof.
  intros Hl Hd H0 Hlt. unfold AddCompletedValidation. rewrite Hl. cbn. rewrite u32_small by lia.
  rewrite (proj2 (Z.eqb_neq _ _)) by lia. rewrite andb_false_r. cbn. by rewrite Hd.
Qed.

Lemma run_calls_app a s cs1 cs2 :
  run_calls a s (cs1 ++ cs2) =
    ('(s, a, b1) ← run_calls a s cs1; '(s, a, b2) ← run_calls a s cs2; Done (s, a, b1 ++ b2)).
Proof.
  revert a s. induction cs1 as [|c cs1 IH]; intros a s; cbn.
  { by destruct (run_calls a s cs2) as [[[? ?] ?]|]. }
  destruct (do_call c a s) as [[[s1 a1] b]|]; cbn; [|done]. rewrite IH.
  destruct (run_calls a1 s1 cs1) as [[[s2 a2] b1]|]; cbn; [|done].
  by destruct (run_calls a2 s2 cs2) as [[[? ?] ?]|].
Qed.

Lemma run_quiet a s vs :
  av_policyLeak a = false → av_done a = false → 0 ≤ av_completed_validations a →
  av_completed_validations a + Z.of_nat (length vs) < av_total_validations a < 2^32 →
  run_calls a s (CallValidation <$> vs) =
    Done (s, set_endorsed (foldl endorse (av_endorsers a) vs)
               (av_completed_validations a + Z.of_nat (length vs)) a, replicate (length vs) false).
Proof.
  revert a. induction vs as [|v vs IH]; intros a Hl Hd H0 Hlt; cbn [fmap list_fmap run_calls do_call].
  { cbn. rewrite Z.add_0_r. by destruct a. }
  cbn [length] in Hlt. rewrite add_validation_quiet by (done || lia). cbn [mbind outcome_bind].
  rewrite IH by (cbn; done || lia). cbn. do 3 f_equal. unfold set_endorsed. cbn. f_equal. lia.
Qed.

(** The last validation after the concurrency control. *)
Lemma add_validation_last a s v :
  av_policyLeak a = false → av_ccDone a = true → av_done a = false →
  0 ≤ av_completed_validations a → av_completed_validations a + 1 = av_total_validations a →
  av_total_validations a < 2^32 →
  AddCompletedValidation v.1 v.2 a s =
    (let a := set_done true (set_endorsed (endorse (av_endorsers a) v) (av_total_validations a) a) in
     if av_cbDone a then Done (s, a, true)
     else '(s, a) ← answer a s; Done (s, a, true)).
Proof.
  intros Hl Hc Hd H0 Heq Hlt. unfold AddCompletedValidation. rewrite Hl. cbn. rewrite u32_small by lia.
  rewrite Heq, Z.eqb_refl, Hc. cbn. destruct (av_cbDone a); cbn; [done|].
  unfold answer. cbn. fold (endorse (av_endorsers a) v). case_match; cbn.
  - match goal with |- context [match av_delay_prepare_cb a with _ => _ end ≫= _] =>
      destruct (match av_delay_prepare_cb a with Some f => f s | None => Done (s, av_result a) end)
        as [[s1 r]|] end; cbn; [|done].
    by destruct (phase1_cb _ _ _ _ _ _).
  - by destruct (phase1_cb _ _ _ _ _ _).
Qed.

(** [answer] is [single_answer] when no early answer was given. *)
Lemma answer_single c es cc a s :
  av_policyClient a = c → av_endorsers a = es → av_result a = cc_r cc →
  av_committedProof a = cc_proof cc → av_abstain_conflict a = cc_conflict cc →
  av_delay_prepare_cb a = cc_cb cc →
  match single_answer c es false cc s with
  | Done s' => ∃ r, answer a s = Done (s', set_cbDone r a)
  | Panic => answer a s = Panic
  end.
Proof.
  intros Hc He Hr Hp Ha Hd. unfold single_answer, answer. cbn. rewrite Hc, He, Hr, Hp, Ha, Hd.
  set (st := PolicyClient.IsSatisfiedInt c es). rewrite Z.geb_leb, Z.gtb_ltb.
  destruct (Z.ltb_spec st 0), (Z.leb_spec 0 st); try lia.
  - destruct (phase1_cb _ _ _ _ _ _); cbn; eauto.
  - destruct (match cc_cb cc with Some f => f s | None => _ end) as [[s1 r]|]; cbn; [|done].
    destruct (phase1_cb _ _ _ _ _ _); cbn; eauto.
Qed.

(** A launched object: the initiator is an endorser already. *)
Definition launched (n : nat) (c : PolicyClient.t) (cid : Z) : AsyncValidatePrepare :=
  set_endorsed [cid] 0 (avp_new (Z.of_nat n) c).

(** All validations come first. *)
Lemma run_cc_last c cid vs cc s :
  Z.of_nat (length vs) < 2^32 →
  match single_answer c (foldl endorse [cid] vs) false cc s with
  | Done s' => ∃ a, run_calls (launched (length vs) c cid) s ((CallValidation <$> vs) ++ [CallCC cc]) =
                    Done (s', a, replicate (length vs) false ++ [true])
  | Panic => run_calls (launched (length vs) c cid) s ((CallValidation <$> vs) ++ [CallCC cc]) = Panic
  end.
Proof.
  intros Hn. destruct vs as [|v vs _] using rev_ind.
  { cbn -[answer single_answer]. set (a := set_done _ _).
    pose proof (answer_single c [cid] cc a s eq_refl eq_refl eq_refl eq_refl eq_refl eq_refl) as Ha.
    destruct (single_answer _ _ _ _ _) as [s'|]; [destruct Ha as [r ->]|rewrite Ha]; cbn; eauto. }
  rewrite length_app in *. cbn [length] in *. rewrite fmap_app, <- app_assoc, run_calls_app.
  rewrite run_quiet by (cbn; done || lia). cbn [mbind outcome_bind]. rewrite foldl_snoc.
  cbn [fmap list_fmap app run_calls do_call]. unfold AddCompletedValidation. cbn -[answer single_answer u32].
  rewrite u32_small by lia. rewrite (proj2 (Z.eqb_eq _ _)) by lia. cbn -[answer single_answer].
  fold (endorse (foldl endorse [cid] vs) v). set (es := endorse _ v). unfold SetCCResult.
  destruct (PolicyClient.IsSatisfiedInt c es <? 0) eqn:Hst.
  - unfold single_answer. cbn [andb]. rewrite Hst. destruct (phase1_cb _ _ _ _ _ _) as [s'|]; cbn; [|done].
    rewrite (proj2 (Z.eqb_eq _ _)) by lia. cbn. eexists. by rewrite replicate_add, <- app_assoc.
  - cbn -[answer single_answer]. rewrite (proj2 (Z.eqb_eq _ _)) by lia. cbn -[answer single_answer]. set (a := set_done _ _).
    pose proof (answer_single c es cc a s eq_refl eq_refl eq_refl eq_refl eq_refl eq_refl) as Ha.
    destruct (single_answer _ _ _ _ _) as [s'|]; [destruct Ha as [r ->]|rewrite Ha]; cbn; [|done].
    eexists. by rewrite replicate_add, <- app_assoc.
Qed.

(** Some validations come after the concurrency control. *)
Lemma run_cc_early c cid vs1 vs v cc s :
  let n := (length vs1 + S (length vs))%nat in
  Z.of_nat n < 2^32 →
  let cs := (CallValidation <$> vs1) ++ CallCC cc :: (CallValidation <$> vs ++ [v]) in
  match single_answer c (foldl endorse [cid] (vs1 ++ vs ++ [v])) true cc s with
  | Done s' => ∃ a, run_calls (launched n c cid) s cs = Done (s', a, replicate n false ++ [true])
  | Panic => run_calls (launched n c cid) s cs = Panic
  end.
Proof.
  intros n Hn cs. subst cs. rewrite run_calls_app, run_quiet by (cbn; done || lia).
  cbn [mbind outcome_bind run_calls do_call]. unfold SetCCResult. cbn -[answer single_answer].
  rewrite (proj2 (Z.eqb_neq _ _)) by lia.
  set (a1 := set_cc _ _ _ _ _). set (early := bool_decide (cc_r cc = ABSTAIN) || _).
  assert (∀ s1 a2, av_policyLeak a2 = false → av_ccDone a2 = true → av_done a2 = false →
    av_endorsers a2 = foldl endorse [cid] vs1 → av_completed_validations a2 = Z.of_nat (length vs1) →
    av_total_validations a2 = Z.of_nat n →
    run_calls a2 s1 (CallValidation <$> vs ++ [v]) =
      (let a3 := set_done true (set_endorsed (foldl endorse [cid] (vs1 ++ vs ++ [v])) (Z.of_nat n) a2) in
       '(s2, a4) ← (if av_cbDone a2 then Done (s1, a3) else answer a3 s1);
       Done (s2, a4, replicate (length vs) false ++ [true]))) as Hlast.
  { intros s1 a2 Hl Hc Hd He Hcomp Htot. rewrite fmap_app, run_calls_app.
    rewrite run_quiet by (done || lia). cbn [mbind outcome_bind fmap list_fmap run_calls do_call].
    rewrite add_validation_last by (cbn; done || lia). cbn [av_cbDone set_done set_endorsed].
    rewrite He, !foldl_app. unfold set_endorsed. cbn. rewrite Htot.
    destruct (av_cbDone a2); [done|]. by destruct (answer _ _) as [[s2 a4]|]. }
  unfold single_answer at 1. cbn [andb]. fold early. destruct early.
  - destruct (phase1_cb _ _ _ _ _ _) as [s'|]; cbn -[answer run_calls replicate]; [|done].
    rewrite Hlast by (cbn; done || lia). cbn -[replicate]. eexists. do 2 f_equal.
    unfold n. by rewrite replicate_add, <- app_assoc.
  - cbn -[answer single_answer run_calls replicate]. rewrite Hlast by (cbn; done || lia).
    cbn -[answer single_answer replicate]. set (a3 := set_done _ _).
    pose proof (answer_single c (foldl endorse [cid] (vs1 ++ vs ++ [v])) cc a3 s
      eq_refl eq_refl eq_refl eq_refl eq_refl eq_refl) as Ha.
    unfold single_answer in Ha. cbn [andb] in Ha.
    case_match; [destruct Ha as [r ->]|by rewrite Ha]. cbn -[replicate]. eexists. do 2 f_equal.
    unfold n. by rewrite replicate_add, <- app_assoc.
Qed.

(** C7: however the endorsement validations (fewer than [2^32]) and the result
    of the concurrency control interleave, phase 1 is answered exactly once and the
    object is released exactly once, by the last of the calls.  The answer depends on
    the order in one case: when the concurrency control says ABSTAIN or ABORT while
    validations are outstanding, this is the answer, whether or not the endorsements
    turn out to suffice.  Otherwise the answer is ABSTAIN if the initiator and the
    valid endorsers do not satisfy the policy, and else the transaction is prepared (if
    the concurrency control left a prepare to run) and the result of that is reported.
    The calls panic exactly when the phase-1 callback, or the prepare that was left,
    panics. *)
Theorem async_prepare_answers_once c cid vs1 vs2 cc s :
  let n := length (vs1 ++ vs2) in
  Z.of_nat n < 2^32 →
  let cs := (CallValidation <$> vs1) ++ CallCC cc :: (CallValidation <$> vs2) in
  match single_answer c (foldl endorse [cid] (vs1 ++ vs2)) (negb (bool_decide (vs2 = []))) cc s with
  | Done s' => ∃ a, run_calls (launched n c cid) s cs = Done (s', a, replicate n false ++ [true])
  | Panic => run_calls (launched n c cid) s cs = Panic
  end.
Proof.
  intros n Hn cs. subst n cs. destruct vs2 as [|v vs2 _] using rev_ind.
  - rewrite app_nil_r in *. cbn [negb bool_decide]. by apply run_cc_last.
  - rewrite bool_decide_eq_false_2 by (by destruct vs2). cbn [negb].
    assert (length (vs1 ++ vs2 ++ [v]) = length vs1 + S (length vs2))%nat as Hlen
      by (rewrite !length_app; cbn; lia).
    rewrite Hlen in *. by apply run_cc_early.
Qed.

(** The endorsers do not depend on the order of the validations. *)
Lemma endorse_spec cid vs :
  ssorted id (foldl endorse [cid] vs) ∧
  ∀ c, c ∈ foldl endorse [cid] vs ↔ c = cid ∨ (true, c) ∈ vs.
Proof.
  induction vs as [|[b e] vs IH] using rev_ind; [split; [apply (ssorted_singleton id)|set_solver]|].
  rewrite foldl_snoc. set (es := foldl _ _ _) in *. destruct IH as [Hs Hin]. unfold endorse. cbn.
  setoid_rewrite elem_of_app. setoid_rewrite list_elem_of_singleton. destruct b.
  - split; [by apply (seq_insert_sorted id)|]. intros c. rewrite elem_of_set_insert by done.
    rewrite Hin. naive_solver.
  - split; [done|]. intros c. rewrite Hin. naive_solver.
Qed.
End avp.

(** ** TryPrepare and the answer *)
Section phase1.
Context `{E : Env}.
Implicit Types (s : server) (d : digest) (p : ptr).
Variable iter : list Policy → list Policy.

(** [HandlePhase1CB]; the request id sent is that of the call, not the one
    [BufferP1Result] returns. *)
Definition HandlePhase1CB (reqId : Z) d p (remote : Z) (isGossip forceMaterialize : bool)
    (result : Result) (pr : proof) (abstain_conflict : option ptr)
    (failEndorsementCheck tooManyEndorsements : bool) s : outcome server :=
  if bool_decide (result = IGNORE) then Done s
  else
    '(s, b) ← BufferP1Result s result pr d reqId (Some remote) false forceMaterialize isGossip 0;
    let result := b_result b in
    let send_reply := (bool_decide (result ≠ WAIT) && negb isGossip) || b_original_sub b in
    let s := if send_reply
             then emit (Phase1Reply reqId result pr d (b_remote b) abstain_conflict
                          failEndorsementCheck tooManyEndorsements) s
             else s in
    s ← (if b_wake_fallbacks b then WakeAllInterestedFallbacks s d result pr else Done s);
    Done (if b_forceMaterialize b then emit (ForceMaterializationCall result d) s else s).

(** What a worker thread does first: the transaction may have finished. *)
Definition still_ongoing (reqId : Z) d (remote : Z) s : outcome (server * bool) :=
  match ongoing s !! d with
  | Some _ => Done (s, true)
  | None =>
      if is_committed s d
      then Done (emit (Phase1Reply reqId COMMIT null d (Some remote) None false false) s, false)
      else if is_aborted s d
      then Done (emit (Phase1Reply reqId ABSTAIN null d (Some remote) None false false) s, false)
      else Panic
  end.

(** [TryPrepare] when the endorsements are checked first or not at all;
    [parallel] is [parallel_CCC && mainThreadDispatching].
    [oldTxnDigest] is the digest the endorsers sign. *)
Definition TryPrepare_sync (parallel : bool) s (now reqId : Z) (remote : Z) d (oldTxnDigest : digest) p
    (isGossip forceMaterialize : bool) : outcome server :=
  '(s, go) ← (if parallel then still_ongoing reqId d remote s else Done (s, true));
  if negb go then Done s
  else
    txn ← deref s p;
    '(s, endorseStatus) ←
      (if negb serverSkipEndorsementCheck then EndorsementCheck iter s oldTxnDigest txn
       else Done (s, 0));
    if endorseStatus <? 0 then
      HandlePhase1CB reqId d p remote isGossip forceMaterialize ABSTAIN null None true false s
    else
      '(s, v, _) ← DoOCCCheck s now d p remote reqId false isGossip false;
      HandlePhase1CB reqId d p remote isGossip forceMaterialize (v_result v) (v_conflict v)
        (v_abstain_conflict v) false (endorseStatus >? 0) s.

(** The callback the object gets; the path on the main thread asserts that an
    ABORT has its proof. *)
Definition phase1_callback (parallel : bool) (reqId : Z) d p (remote : Z) (isGossip forceMaterialize : bool)
    (r : Result) (pr : proof) (ac : option ptr) (fail too_many : bool) s : outcome server :=
  _ ← uw_assert (parallel || negb (bool_decide (r = ABORT)) || negb (pr =? null));
  HandlePhase1CB reqId d p remote isGossip forceMaterialize r pr ac fail too_many s.

Notation avp := (AsyncValidatePrepare (St := server)).

(** [EndorsementCheck(asyncValidatePrepare, ..)] of a new object: extracts
    the policy, reports a leak, or makes the initiator an endorser and
    dispatches the validations (the second component). *)
Definition launch (phase1_cb : Result → proof → option ptr → bool → bool → server → outcome server)
    (txn : Transaction) s : outcome (server * avp * list SignedMessage) :=
  '(s, c, ok) ← ExtractPolicy iter s txn PolicyClient.init;
  let a := avp_new (Z.of_nat (length (endorsements txn))) c in
  if negb ok then '(s, a, _) ← SetPolicyLeak phase1_cb a s; Done (s, a, [])
  else Done (s, set_endorsed (seq_insert id (client_id txn) (av_endorsers a))
                  (av_completed_validations a) a, endorsements txn).

(** The concurrency control on this path. *)
Definition run_cc s (now : Z) d p (remote reqId : Z) (isGossip : bool) :
    outcome (server * cc_result (St := server)) :=
  '(s, v, dl) ← DoOCCCheck s now d p remote reqId false isGossip true;
  Done (s, mkCC (v_result v) (v_conflict v) (v_abstain_conflict v)
             (match dl with
              | Some dl => Some (λ s, run_delayed s d p remote reqId isGossip dl)
              | None => None
              end)).

(** One validation job. *)
Definition validation_of (oldTxnDigest : digest) (e : SignedMessage) : bool * Z :=
  (ValidateEndorsementHelper e oldTxnDigest, sm_process_id e).

(** [TryPrepare] with the parallel endorsement check.  The validations [e1]
    run before the concurrency control has started, [e2] before its result is
    recorded, [e3] afterwards. *)
Definition TryPrepare_async (parallel : bool) s (now reqId : Z) (remote : Z) d (oldTxnDigest : digest) p
    (isGossip forceMaterialize : bool) (e1 e2 e3 : list SignedMessage) : outcome server :=
  '(s, go) ← (if parallel then still_ongoing reqId d remote s else Done (s, true));
  if negb go then Done s
  else
    txn ← deref s p;
    let cb := phase1_callback parallel reqId d p remote isGossip forceMaterialize in
    let job e := CallValidation (validation_of oldTxnDigest e) in
    '(s, a, jobs) ← launch cb txn s;
    '(s, a, _) ← run_calls cb a s (if av_policyLeak a then [] else job <$> e1);
    '(s, cc) ← run_cc s now d p remote reqId isGossip;
    '(s, _, _) ← run_calls cb a s
      (if av_policyLeak a then [CallCC cc] else (job <$> e2) ++ CallCC cc :: (job <$> e3));
    Done s.

Definition TryPrepare (parallel : bool) s (now reqId : Z) (remote : Z) d (oldTxnDigest : digest) p
    (isGossip forceMaterialize : bool) (e1 e2 e3 : list SignedMessage) : outcome server :=
  if sync_prepare
  then TryPrepare_sync parallel s now reqId remote d oldTxnDigest p isGossip forceMaterialize
  else TryPrepare_async parallel s now reqId remote d oldTxnDigest p isGossip forceMaterialize e1 e2 e3.

(** ** Only endorsed transactions are prepared *)

Lemma HandlePhase1CB_frame q d p rem g f r pr ac fl tm s s' :
  HandlePhase1CB q d p rem g f r pr ac fl tm s = Done s' → frame s s'.
Proof.
  unfold HandlePhase1CB. case_bool_decide as Hr; [by intros [= ->]|]. intros H. inv_outcome.
  match goal with H : BufferP1Result _ _ _ _ _ _ _ _ _ _ = Done ?x |- _ => destruct x as [s1 b];
    apply BufferP1Result_frame in H; [|done]; rename H into Hb end. inv_outcome.
  etrans; [exact Hb|]. unfold frame.
  assert (∀ (o : bool) x y, core y = core x → core (if o then y else x) = core x) as Hif by (by intros []).
  match goal with H : (if ?w then WakeAllInterestedFallbacks _ _ _ _ else _) = Done _ |- _ =>
    assert (frame (if (bool_decide (b_result b ≠ WAIT) && negb g) || b_original_sub b
                   then emit (Phase1Reply q (b_result b) pr d (b_remote b) ac fl tm) s1 else s1) x) as Hx;
    [destruct w; [by eapply WakeAll_frame|by simplify_eq]|] end.
  rewrite Hif by done. unfold frame in Hx. rewrite Hx. by rewrite Hif.
Qed.

Lemma phase1_callback_frame par q d p rem g f r pr ac fl tm s s' :
  phase1_callback par q d p rem g f r pr ac fl tm s = Done s' → frame s s'.
Proof. unfold phase1_callback. intros H. inv_outcome. by eapply HandlePhase1CB_frame. Qed.

Lemma frame_prepared s s' : frame s s' → prepared s' = prepared s.
Proof. by intros (_ & _ & ? & _)%frame_fields. Qed.

Section endorsed.
Context (cb : Result → proof → option ptr → bool → bool → server → outcome server).
Hypothesis cb_frame : ∀ r pr ac fl tm s s', cb r pr ac fl tm s = Done s' → frame s s'.
Context (c : PolicyClient.t) (cid : Z) (n : nat) (d : digest).
Implicit Types (a : avp) (vs : list (bool * Z)).

(** The validations [vs] have been counted. *)
Record counted_as a vs : Prop := {
  ca_policy : av_policyClient a = c;
  ca_endorsers : av_endorsers a = foldl endorse [cid] vs;
  ca_completed : av_completed_validations a = Z.of_nat (length vs);
  ca_total : av_total_validations a = Z.of_nat n;
  ca_leak : av_policyLeak a = false
}.
(** [d] is prepared only once all validations are in and satisfy the policy. *)
Definition endorsed_only s vs : Prop :=
  prepared s !! d = None ∨
  length vs = n ∧ 0 ≤ PolicyClient.IsSatisfiedInt c (foldl endorse [cid] vs).

Lemma endorsed_only_frame s s' vs : frame s s' → endorsed_only s vs → endorsed_only s' vs.
Proof. intros Hf. unfold endorsed_only. by rewrite (frame_prepared _ _ Hf). Qed.

Lemma counted_as_done a vs b : counted_as a vs → counted_as (set_done b a) vs.
Proof. by intros []. Qed.
Lemma counted_as_cbDone a vs r : counted_as a vs → counted_as (set_cbDone r a) vs.
Proof. by intros []. Qed.
Lemma counted_as_cc a vs r pr ac f : counted_as a vs → counted_as (set_cc r pr ac f a) vs.
Proof. by intros []. Qed.
#[local] Hint Resolve counted_as_done counted_as_cbDone counted_as_cc : core.

Lemma answer_endorsed a vs s s' a' :
  counted_as a vs → length vs = n → endorsed_only s vs → answer cb a s = Done (s', a') →
  counted_as a' vs ∧ endorsed_only s' vs.
Proof.
  intros Ha Hn Hs H. unfold answer in H. rewrite (ca_policy _ _ Ha), (ca_endorsers _ _ Ha) in H.
  case_match eqn:Hst.
  - inv_outcome. destruct x as [s1 r]. inv_outcome. split; [auto|]. right. split; [done|lia].
  - inv_outcome. split; [auto|]. eapply endorsed_only_frame; [by eapply cb_frame|done].
Qed.

Lemma add_validation_endorsed a vs s v s' a' b :
  counted_as a vs → (length vs < n)%nat → Z.of_nat n < 2^32 → endorsed_only s vs →
  AddCompletedValidation cb v.1 v.2 a s = Done (s', a', b) →
  counted_as a' (vs ++ [v]) ∧ endorsed_only s' (vs ++ [v]).
Proof.
  intros [H1 H2 H3 H4 H5] Hlt Hn Hs H. unfold AddCompletedValidation in H. rewrite H3 in H. inv_outcome.
  destruct Hs as [Hs|[? _]]; [|lia].
  rewrite u32_small in * by lia. fold (endorse (av_endorsers a) v) in *.
  set (a1 := set_endorsed _ _ _) in *.
  assert (counted_as a1 (vs ++ [v])) as Ha1.
  { split; cbn; [done|by rewrite foldl_snoc, H2|rewrite length_app; cbn; lia|done..]. }
  assert (endorsed_only s (vs ++ [v])) as Hs1 by (by left).
  match goal with H : (if _ then _ else _) = Done ?x |- _ => destruct x as [s2 a2]; rename H into Hc end.
  inv_outcome. destruct (av_ccDone a1 && _) eqn:Hcc.
  - apply andb_true_iff in Hcc as [_ Hcc]. apply Z.eqb_eq in Hcc.
    rewrite (ca_completed _ _ Ha1), (ca_total _ _ Ha1) in Hcc.
    case_match; [|simplify_eq; split; auto]. eapply (answer_endorsed (set_done true a1)); [by auto|lia|done|done].
  - case_match; [|simplify_eq; auto]. case_match; [|simplify_eq; auto].
    inv_outcome. split; [auto|]. eapply endorsed_only_frame; [by eapply cb_frame|done].
Qed.

Lemma set_cc_endorsed a vs s cc s' a' b :
  counted_as a vs → endorsed_only s vs →
  SetCCResult cb (cc_r cc) (cc_proof cc) (cc_conflict cc) (cc_cb cc) a s = Done (s', a', b) →
  counted_as a' vs ∧ endorsed_only s' vs.
Proof.
  intros Ha Hs H. unfold SetCCResult in H. inv_outcome.
  set (a1 := set_cc _ _ _ _ _) in *. assert (counted_as a1 vs) as Ha1 by (unfold a1; auto).
  match goal with H : (if _ then _ else _) = Done ?x |- _ => destruct x as [s2 a2]; rename H into Hc end.
  inv_outcome. rewrite (ca_leak _ _ Ha1) in Hc. destruct (_ =? _) eqn:Heq.
  - apply Z.eqb_eq in Heq. rewrite (ca_completed _ _ Ha1), (ca_total _ _ Ha1) in Heq.
    case_match; [|simplify_eq; split; auto]. eapply (answer_endorsed (set_done true a1)); [by auto|lia|done|done].
  - case_match; [|simplify_eq; auto]. inv_outcome. split; [auto|].
    eapply endorsed_only_frame; [by eapply cb_frame|done].
Qed.

Lemma run_validations_endorsed a vs s ws s' a' bs :
  counted_as a vs → (length vs + length ws ≤ n)%nat → Z.of_nat n < 2^32 → endorsed_only s vs →
  run_calls cb a s (CallValidation <$> ws) = Done (s', a', bs) →
  counted_as a' (vs ++ ws) ∧ endorsed_only s' (vs ++ ws).
Proof.
  revert a s vs bs. induction ws as [|w ws IH]; intros a s vs bs Ha Hlen Hn Hs H.
  { cbn in H. simplify_eq. by rewrite app_nil_r. }
  cbn [fmap list_fmap run_calls do_call] in H. cbn [length] in Hlen. inv_outcome. destruct x as [[s1 a1] b].
  inv_outcome. destruct x as [[s2 a2] bs2]. inv_outcome.
  match goal with H : AddCompletedValidation _ _ _ _ _ = _ |- _ =>
    apply (add_validation_endorsed a vs) in H as [Ha1 Hs1]; [|done|lia|done..] end.
  rewrite (cons_middle w vs ws), app_assoc. eapply (IH a1 s1); [done| |done..].
  rewrite length_app. cbn. lia.
Qed.
End endorsed.

Lemma endorse_endorser_set sigs cid d :
  foldl endorse [cid] (validation_of d <$> sigs) = endorser_set sigs cid d.
Proof.
  unfold endorser_set. generalize [cid]. induction sigs as [|e sigs IH]; intros es; [done|]. cbn. apply IH.
Qed.

Lemma endorser_set_perm sigs sigs' cid d :
  sigs ≡ₚ sigs' → endorser_set sigs cid d = endorser_set sigs' cid d.
Proof.
  intros Hp. destruct (endorser_set_spec sigs cid d) as (H1 & _ & H2).
  destruct (endorser_set_spec sigs' cid d) as (H1' & _ & H2').
  apply ssorted_ext; [done..|]. intros x. rewrite H2, H2'. by setoid_rewrite Hp.
Qed.

Lemma still_ongoing_frame q d rem s s' b : still_ongoing q d rem s = Done (s', b) → frame s s' ∧ heap s' = heap s ∧ policyStore s' = policyStore s.
Proof. unfold still_ongoing. intros H. repeat case_match; by simplify_eq. Qed.

Lemma ExtractPolicy_state s txn c s' c' b :
  ExtractPolicy iter s txn c = Done (s', c', b) → frame s s'.
Proof.
  assert (∀ ts c ids reads a a' ok, extract_reads ts c ids a reads = Done (a', ok) → frame (ra_s a) (ra_s a'))
    as Hreads.
  { intros ts c0 ids reads. induction reads as [|r reads IH]; intros a a' ok H; cbn in H; [by simplify_eq|].
    case_match; [by eapply IH|]. inv_outcome.
    match goal with H : include_read _ _ _ = _ |- _ => apply include_read_spec in H as [<- _] end.
    match goal with H : leak_check _ ?a _ _ = Done ?x |- _ => destruct x as [a2 ok2];
      assert (frame (ra_s a) (ra_s a2)) as Hf end.
    { match goal with H : leak_check _ _ _ _ = _ |- _ => unfold leak_check in H; rename H into Hlk end.
      destruct checkPolicyLeak; [|by simplify_eq]. inv_outcome. destruct x0 as [v o].
      destruct (bool_decide _); [by simplify_eq|]. destruct (getUpperBound _ _ _).
      repeat case_match; by inv_outcome. }
    destruct ok2; [etrans; [done|by eapply IH]|by simplify_eq]. }
  unfold ExtractPolicy. intros H. inv_outcome. destruct x as [c1 ids]. inv_outcome.
  destruct x; cbn [negb] in *; [|by simplify_eq]. inv_outcome. destruct x as [a ok].
  match goal with H : extract_reads _ _ _ _ _ = _ |- _ => apply Hreads in H end.
  destruct ok; cbn [negb] in *; inv_outcome; done.
Qed.

(** Running the validations and the result of the concurrency control on a
    launched object. *)
Lemma run_all_endorsed cb c cid n d a s s1 e2 e3 cc s' a' bs vs1 :
  (∀ r pr ac fl tm s s', cb r pr ac fl tm s = Done s' → frame s s') →
  counted_as c cid n a vs1 → endorsed_only c cid n d s vs1 → prepared s1 ⊆ prepared s →
  (length vs1 + length e2 + length e3 ≤ n)%nat → Z.of_nat n < 2^32 →
  run_calls cb a s1 ((CallValidation <$> e2) ++ CallCC cc :: (CallValidation <$> e3)) = Done (s', a', bs) →
  endorsed_only c cid n d s' (vs1 ++ e2 ++ e3).
Proof.
  intros Hcb Ha Hs Hsub Hlen Hn H. rewrite run_calls_app in H. inv_outcome. destruct x as [[s2 a2] b2].
  inv_outcome. destruct x as [[s3 a3] b3]. inv_outcome.
  assert (endorsed_only c cid n d s1 vs1) as Hs1.
  { destruct Hs as [Hs|Hs]; [left|by right]. by eapply lookup_weaken_None. }
  match goal with H : run_calls _ a _ _ = _ |- _ =>
    apply (run_validations_endorsed cb Hcb c cid n d a vs1) in H as [Ha2 Hs2]; [|done|lia|done..] end.
  match goal with H : run_calls _ a2 _ _ = _ |- _ => cbn [run_calls do_call] in H end. inv_outcome.
  destruct x as [[s4 a4] b4]. inv_outcome. destruct x as [[s5 a5] b5]. inv_outcome.
  match goal with H : SetCCResult _ _ _ _ _ _ _ = _ |- _ =>
    apply (set_cc_endorsed cb Hcb c cid n d a2 (vs1 ++ e2)) in H as [Ha4 Hs4]; [|done..] end.
  match goal with H : run_calls _ a4 _ _ = _ |- _ =>
    apply (run_validations_endorsed cb Hcb c cid n d a4 (vs1 ++ e2)) in H as [_ Hs5];
      [|done|rewrite length_app; lia|done..] end.
  by rewrite app_assoc.
Qed.

Lemma try_sync_endorsed par s now q rem d od p g f txn s' :
  (∀ l, iter l ≡ₚ l) → store_policies_ok s → serverSkipEndorsementCheck = false →
  heap s !! p = Some txn → Z.of_nat (length (endorsements txn)) + 1 < 2^31 →
  prepared s !! d = None →
  TryPrepare_sync par s now q rem d od p g f = Done s' → is_Some (prepared s' !! d) →
  ∀ pol, required s txn pol →
    IsSatisfied pol (endorser_set (endorsements txn) (client_id txn) od) = true.
Proof.
  intros Hiter Hok Hskip Hp Hlen Hnone Ht [e He]. unfold TryPrepare_sync in Ht. inv_outcome.
  destruct x as [s1 go].
  assert (frame s s1 ∧ heap s1 = heap s ∧ policyStore s1 = policyStore s) as (Hf1 & Hh1 & Hps1).
  { destruct par; [by eapply still_ongoing_frame|by simplify_eq]. }
  destruct go; cbn [negb] in *; inv_outcome; [|rewrite (frame_prepared _ _ Hf1) in He; congruence].
  match goal with H : deref _ _ = Done ?t |- _ =>
    assert (t = txn) as -> by (unfold deref in H; rewrite Hh1, Hp in H; by simplify_eq); clear H end.
  rewrite Hskip in *. cbn [negb] in *.
  match goal with H : EndorsementCheck _ _ _ _ = Done ?x |- _ => destruct x as [s2 st];
    unfold EndorsementCheck in H; rename H into Hec end. inv_outcome.
  match goal with H : ExtractPolicy _ _ _ _ = Done ?x |- _ => destruct x as [[s3 c] ok]; rename H into Hx end.
  destruct (endorser_set_spec (endorsements txn) (client_id txn) od) as (Hs & Hl & _).
  assert (s2 = s3 ∧ (ok = false → st = -1) ∧
    (ok = true → st = PolicyClient.IsSatisfiedInt c (endorser_set (endorsements txn) (client_id txn) od)))
    as (-> & Hst1 & Hst2) by (by destruct ok; cbn [negb] in *; inv_outcome).
  apply ExtractPolicy_state in Hx as Hf3.
  destruct (Z.ltb_spec st 0) as [Hneg|Hpos].
  - match goal with H : HandlePhase1CB _ _ _ _ _ _ _ _ _ _ _ _ = _ |- _ => apply HandlePhase1CB_frame in H as Hf4 end.
    rewrite (frame_prepared _ _ Hf4), (frame_prepared _ _ Hf3), (frame_prepared _ _ Hf1) in He. congruence.
  - destruct ok; [|rewrite Hst1 in Hpos; [lia|done]]. rewrite Hst2 in Hpos by done.
    assert (store_policies_ok s1) as Hok1 by (unfold store_policies_ok; by rewrite Hps1).
    rewrite (extract_policy_sat iter s1 txn s3 c) in Hpos by (done || lia).
    intros pol Hreq. apply Hpos. unfold required, in_force in *. by rewrite Hps1.
Qed.

(** A leak is answered at once, and the result of the concurrency control is
    then ignored. *)
Lemma leak_answers cb n c s s' a b :
  SetPolicyLeak (St := server) cb (avp_new n c) s = Done (s', a, b) →
  cb ABSTAIN null None true false s = Done s' ∧ av_policyLeak a = true ∧ av_cbDone a = true.
Proof. unfold SetPolicyLeak. cbn. intros H. inv_outcome. by destruct (cb _ _ _ _ _ _); cbn in *; simplify_eq. Qed.

Lemma leak_cc_quiet cb a s cc s' a' bs :
  av_policyLeak a = true → av_cbDone a = true →
  run_calls (St := server) cb a s [CallCC cc] = Done (s', a', bs) → s' = s.
Proof. intros Hl Hc. cbn. unfold SetCCResult. cbn. rewrite Hl, Hc. cbn. by intros [= <- _ _]. Qed.

Lemma try_async_endorsed par s now q rem d od p g f e1 e2 e3 txn s' :
  (∀ l, iter l ≡ₚ l) → store_policies_ok s → sync_prepare = false →
  heap s !! p = Some txn → Z.of_nat (length (endorsements txn)) + 1 < 2^31 →
  e1 ++ e2 ++ e3 ≡ₚ endorsements txn → prepared s !! d = None →
  TryPrepare_async par s now q rem d od p g f e1 e2 e3 = Done s' → is_Some (prepared s' !! d) →
  ∀ pol, required s txn pol →
    IsSatisfied pol (endorser_set (endorsements txn) (client_id txn) od) = true.
Proof.
  intros Hiter Hok Hsync Hp Hlen Hperm Hnone Ht [e He]. unfold TryPrepare_async in Ht.
  apply bind_Done in Ht as ([s1 go] & Hgo & Ht).
  assert (frame s s1 ∧ heap s1 = heap s ∧ policyStore s1 = policyStore s) as (Hf1 & Hh1 & Hps1).
  { destruct par; [by eapply still_ongoing_frame|by simplify_eq]. }
  destruct go; cbn [negb] in *; [|simplify_eq; rewrite (frame_prepared _ _ Hf1) in He; congruence].
  unfold deref in Ht. rewrite Hh1, Hp in Ht. cbn [mbind outcome_bind] in Ht.
  set (cb := phase1_callback par q d p rem g f) in *.
  assert (∀ r pr ac fl tm s s', cb r pr ac fl tm s = Done s' → frame s s') as Hcb
    by (intros; by eapply phase1_callback_frame).
  apply bind_Done in Ht as ([[s2 a] jobs] & Hla & Ht). apply bind_Done in Ht as ([[s3 a3] b3] & Hv1 & Ht).
  apply bind_Done in Ht as ([s4 cc] & Hcc & Ht). apply bind_Done in Ht as ([[s5 a5] b5] & Hv2 & Ht). inv_outcome.
  unfold run_cc in Hcc. apply bind_Done in Hcc as ([[sd v] dl] & Hd & Hr).
  apply DoOCCCheck_delayed_shrinks in Hd; [|done]. inv_outcome.
  unfold launch in Hla. apply bind_Done in Hla as ([[sx c] ok] & Hx & Hla).
  apply ExtractPolicy_state in Hx as Hfx.
  assert (prepared sx !! d = None) as Hnx
    by (by rewrite (frame_prepared _ _ Hfx), (frame_prepared _ _ Hf1)).
  destruct ok; cbn [negb] in Hla.
  2:{ exfalso. apply bind_Done in Hla as ([[sl al] bl] & Hl & ?). inv_outcome.
      apply leak_answers in Hl as (Hc1 & Hleak & Hcbd).
      rewrite Hleak in Hv1. cbn in Hv1. simplify_eq. rewrite Hleak in Hv2.
      apply leak_cc_quiet in Hv2 as ->; [|done..].
      assert (prepared s4 !! d = None); [|congruence].
      eapply lookup_weaken_None; [|done]. by rewrite (frame_prepared _ _ (Hcb _ _ _ _ _ _ _ Hc1)). }
  inv_outcome. cbn [av_policyLeak set_endorsed avp_new] in *.
  set (n := length (endorsements txn)) in *.
  set (job := validation_of od) in *.
  assert (∀ l, (λ e, CallValidation (St := server) (job e)) <$> l = CallValidation <$> (job <$> l)) as Hjob
    by (intros l; by rewrite <- list_fmap_compose).
  rewrite Hjob in Hv1. rewrite (Hjob e2), (Hjob e3) in Hv2.
  apply Permutation_length in Hperm as Hplen. rewrite !length_app in Hplen. fold n in Hplen.
  apply (run_validations_endorsed cb Hcb c (client_id txn) n d _ []) in Hv1 as [Ha3 Hs3];
    [|done|rewrite length_fmap; cbn; lia|lia|by left].
  rewrite (ca_leak _ _ _ _ _ Ha3) in Hv2.
  apply (run_all_endorsed cb c (client_id txn) n d a3 s3 s4) with (vs1 := job <$> e1) in Hv2 as [?|[_ Hsat]];
    [congruence| |done|done|done|done|rewrite !length_fmap; lia|lia].
  rewrite <- !fmap_app in Hsat. unfold job in Hsat. rewrite endorse_endorser_set in Hsat.
  rewrite (endorser_set_perm _ _ _ _ Hperm) in Hsat.
  destruct (endorser_set_spec (endorsements txn) (client_id txn) od) as (Hs & Hl & _).
  assert (store_policies_ok s1) as Hok1 by (unfold store_policies_ok; by rewrite Hps1).
  rewrite (extract_policy_sat iter s1 txn s2 c) in Hsat by (done || lia).
  intros pol Hreq. apply Hsat. unfold required, in_force in *. by rewrite Hps1.
Qed.

End phase1.

(** ** Concrete instances *)

Module AsyncExample.
(** A log of the answers; two of three endorsers needed, one validation is
    invalid, the last one comes after the concurrency control. *)
Definition log_cb (r : Result) (_ : proof) (_ : option ptr) (fail too_many : bool)
    (s : list (Result * bool * bool)) : outcome (list (Result * bool * bool)) :=
  Done (s ++ [(r, fail, too_many)]).
Definition cc_ok : cc_result (St := list (Result * bool * bool)) :=
  mkCC COMMIT null None (Some (λ s, Done (s, WAIT))).

Lemma async_prepare_answers_once_witness :
  ∃ a, run_calls log_cb (launched 3 (Some (WeightPolicy 2)) 1) []
         [CallValidation (false, 7); CallValidation (true, 5); CallCC cc_ok; CallValidation (true, 6)] =
       Done ([(WAIT, false, true)], a, [false; false; false; true]).
Proof.
  pose proof (async_prepare_answers_once log_cb (Some (WeightPolicy 2)) 1 [(false, 7); (true, 5)] [(true, 6)]
    cc_ok [] ltac:(cbn; lia)) as H.
  cbn in H. exact H.
Defined.

#[local] Instance env : Env := demo_env_with true false true.
Definition txn : Transaction :=
  mkTxn 1 1 [mkRead "j" (mkTs 9 1) false ""] [mkWrite "k" (Some "x") false] [] (mkTs 20000 1)
    [] [] [] (Some "t") None NONE [] [mkSigned 5 "dg" ""; mkSigned 6 "other" ""] "" [] [] [0].
Definition state : server :=
  AddOngoing (upd_heap (insert 1%positive txn)
    (upd_policyStore (λ st, put st "p#0" (mkPolicyValue (WeightPolicy 2) null) (mkTs 1 1))
       (server_init (E := env) tt))) "t" 1%positive.

Lemma async_state_policies_ok : store_policies_ok state.
Proof.
  intros i ts v. rewrite get_versions.
  assert (versions_of (policyStore state) i =
    if decide ("p#0" = i) then [(mkTs 1 1, mkPolicyValue (WeightPolicy 2) null)] else []) as ->
    by (exact (versions_of_put vs_empty "p#0" (mkPolicyValue (WeightPolicy 2) null) (mkTs 1 1) i)).
  case_decide; [|done]. cbn. case_match; intros [= <-]; cbn. split; [split; [cbn; lia|done]|cbn; lia].
Qed.

(** The endorsement of client 5 is validated before the concurrency control
    runs, the useless one of client 6 after it. *)
Definition run : outcome server :=
  TryPrepare (E := env) id false state (2^40) 7 3 "t" "dg" 1%positive false false
    [mkSigned 5 "dg" ""] [] [mkSigned 6 "other" ""].

End AsyncExample.
