(* ===== verification/Quorum.v ===== *)
(** * Quorum certificates

    src/src/lib/configuration.cc (the host table of a configuration) and
    src/src/store/sintrstore/common.cc (quorum sizes, validation of phase-1
    and phase-2 certificates, of fallback views and decisions, of committed
    proofs and dependencies).  Signature verification and protobuf
    serialization are parameters. *)
From S2P Require Import Prelude OrderedSeq CppString Timestamp Policy PolicyParse ServerState.

(** ** Configuration *)

(** [replicas]: the host names of each group's replicas, in order. *)
Record Configuration := mkConfig {
  cf_n : Z;
  cf_f : Z;
  cf_replicas : gmap Z (list string);
  cf_replicaHosts : gmap Z (gmap Z Z)
}.

(** The loop of the constructors over the replicas of one group: [hosts]
    numbers the host names as they come, [replicaHosts] gets an entry for the
    first replica of each host. *)
Fixpoint assign_hosts (hosts : gmap string Z) (replicaHosts : gmap Z Z) (idx : Z) (addrs : list string) :
    gmap Z Z :=
  match addrs with
  | [] => replicaHosts
  | host :: rest =>
      match hosts !! host with
      | Some _ => assign_hosts hosts replicaHosts (idx + 1) rest
      | None => let k := Z.of_nat (size hosts) in
                assign_hosts (<[host := k]> hosts) (<[idx := k]> replicaHosts) (idx + 1) rest
      end
  end.

Definition Configuration_new (n f : Z) (replicas : gmap Z (list string)) : Configuration :=
  mkConfig n f replicas (assign_hosts ∅ ∅ 0 <$> replicas).

Definition replicaHost (config : Configuration) (group idx : Z) : Z :=
  match cf_replicaHosts config !! group with
  | Some m => default (-1) (m !! idx)
  | None => -1
  end.

Section quorum.
Variable config : Configuration.

(** *** Sizes; the results are [uint64_t]. *)
Definition QuorumSize : Z := u64 (4 * u64 (cf_f config) + 1).
Definition FastQuorumSize : Z := u64 (cf_n config).
Definition SlowCommitQuorumSize : Z := u64 (3 * u64 (cf_f config) + 1).
Definition FastAbortQuorumSize : Z := u64 (3 * u64 (cf_f config) + 1).
Definition SlowAbortQuorumSize : Z := u64 (u64 (cf_f config) + 1).

(** [id] is a [uint64_t], [group] a [uint32_t]; [replicaHost] takes [int]s. *)
Definition IsReplicaInGroup (pid group : Z) : bool :=
  let host := replicaHost config (int32 (pid `div` cf_n config)) (int32 (pid `mod` cf_n config)) in
  existsb (λ i, host =? replicaHost config (int32 group) i) (seqZ 0 (cf_n config)).

(** The byte [txnDigest[0]] modulo the number of involved groups. *)
Definition GetLogGroup (groups : list Z) (txnDigest : digest) : outcome Z :=
  let b := match txnDigest with String c _ => Z.of_N (Ascii.N_of_ascii c) | EmptyString => 0 end in
  if bool_decide (groups = []) then Panic
  else match groups !! Z.to_nat (b `mod` Z.of_nat (length groups)) with
       | Some g => Done g
       | None => Panic
       end.

(** ** Messages *)

(** [ConcurrencyControl], [Phase2Decision], [CurrentView] and [ElectMessage]
    as they are signed. *)
Record CCMsg := mkCCMsg { cc_ccr : Result; cc_txn_digest : digest; cc_involved_group : Z }.
Record P2Msg := mkP2Msg { p2_decision : CommitDecision; p2_view : Z; p2_involved_group : Z; p2_txn_digest : digest }.
Record ViewMsg := mkView { vw_current_view : Z; vw_txn_digest : digest }.
Record ElectMsg := mkElect { el_req_id : Z; el_decision : CommitDecision; el_view : Z; el_txn_digest : digest }.

(** Serialization, and [verifier->Verify(keyManager->GetPublicKey(id), ..)]. *)
Variable ser_cc : CCMsg → string.
Variable ser_p2 : P2Msg → string.
Variable Verify : Z → string → string → bool.

(** ** Phase-1 certificates *)

(** The loop over one group's signatures; [None] is [return false]. *)
Fixpoint p1_sigs (group myProcessId : Z) (mine_matches : bool) (msg : string) (replicasVerified : list Z)
    (verified : Z) (sigs : list Signature) : option Z :=
  match sigs with
  | [] => Some verified
  | sig :: rest =>
      let pid := sig_process_id sig in
      let mine := (pid =? myProcessId) && (myProcessId >=? 0) in
      if negb (IsReplicaInGroup pid group) then None
      else if mine && negb mine_matches then None
      else if negb mine && negb (Verify pid msg (sig_bytes sig)) then None
      else if bool_decide (pid ∈ replicasVerified) then None
      else p1_sigs group myProcessId mine_matches msg (pid :: replicasVerified) (u32 (verified + 1)) rest
  end.

Definition p1_vote (decision : CommitDecision) : Result :=
  match decision with DCOMMIT => COMMIT | DABORT => ABSTAIN end.
Definition p1_quorum (decision : CommitDecision) (fast : bool) : Z :=
  u32 (match decision, fast with
       | DCOMMIT, true => cf_n config
       | DCOMMIT, false => SlowCommitQuorumSize
       | DABORT, true => FastAbortQuorumSize
       | DABORT, false => SlowAbortQuorumSize
       end).

Fixpoint p1_groups (decision : CommitDecision) (fast : bool) (txnDigest : digest) (myProcessId : Z)
    (myResult : Result) (groupsVerified : list Z) (gs : GroupedSignatures) : option (list Z) :=
  match gs with
  | [] => Some groupsVerified
  | (group, sigs) :: rest =>
      let ccMsg := ser_cc (mkCCMsg (p1_vote decision) txnDigest group) in
      match p1_sigs group myProcessId (bool_decide (p1_vote decision = myResult)) ccMsg [] 0 sigs with
      | None => None
      | Some verified =>
          if negb (verified =? p1_quorum decision fast) then None
          else p1_groups decision fast txnDigest myProcessId myResult (int32 group :: groupsVerified) rest
      end
  end.

Definition ValidateP1Replies (decision : CommitDecision) (fast : bool) (groups : list Z)
    (txnDigest : digest) (groupedSigs : GroupedSignatures) (myProcessId : Z) (myResult : Result) : bool :=
  match p1_groups decision fast txnDigest myProcessId myResult [] groupedSigs with
  | None => false
  | Some groupsVerified =>
      match decision with
      | DCOMMIT => forallb (λ g, bool_decide (int32 g ∈ groupsVerified)) groups
      | DABORT => true
      end
  end.

(** ** Phase-2 certificates *)

Fixpoint p2_sigs (myProcessId : Z) (mine_matches : bool) (msg : string) (replicasVerified : list Z)
    (verified : Z) (sigs : list Signature) : option Z :=
  match sigs with
  | [] => Some verified
  | sig :: rest =>
      let pid := sig_process_id sig in
      let mine := (pid =? myProcessId) && (myProcessId >=? 0) in
      if mine && negb mine_matches then None
      else if negb mine && negb (Verify pid msg (sig_bytes sig)) then None
      else if bool_decide (pid ∈ replicasVerified) then None
      else p2_sigs myProcessId mine_matches msg (pid :: replicasVerified) (u32 (verified + 1)) rest
  end.

Definition ValidateP2Replies (decision : CommitDecision) (view : Z) (groups : list Z)
    (txnDigest : digest) (groupedSigs : GroupedSignatures) (myProcessId : Z)
    (myDecision : CommitDecision) : outcome bool :=
  logGrp ← GetLogGroup groups txnDigest;
  let p2DecisionMsg := ser_p2 (mkP2Msg decision view logGrp txnDigest) in
  match groupedSigs with
  | [(_, sigs)] =>
      match p2_sigs myProcessId (bool_decide (decision = myDecision)) p2DecisionMsg [] 0 sigs with
      | None => Done false
      | Some verified => Done (verified =? QuorumSize)
      end
  | _ => Done false
  end.

(** ** Fallback: views and elections *)

(** [proposed_view - (1 - catch_up)] is unsigned. *)
Definition needed_view (proposed_view : Z) (catch_up : bool) : Z :=
  u64 (proposed_view - (if catch_up then 0 else 1)).

Fixpoint view_sigs (parse_view : string → ViewMsg) (proposed_view : Z) (catch_up : bool) (logGrp : Z) (txnDigest : digest)
    (myProcessId myCurrentView quorumSize : Z) (replicasVerified : list Z) (verified : Z)
    (msgs : list SignedMessage) : bool :=
  match msgs with
  | [] => false
  | m :: rest =>
      let pid := sm_process_id m in
      let v := parse_view (sm_data m) in
      if negb (IsReplicaInGroup pid (u32 logGrp)) then false
      else if bool_decide (pid ∈ replicasVerified) then false
      else if negb (bool_decide (vw_txn_digest v = txnDigest)) ||
              (vw_current_view v <? needed_view proposed_view catch_up) then false
      else
        let skip := (pid =? myProcessId) && (myProcessId >=? 0) &&
                    (myCurrentView >=? needed_view proposed_view catch_up) in
        if negb skip && negb (Verify pid (sm_data m) (sm_signature m)) then false
        else if u64 (verified + 1) =? quorumSize then true
        else view_sigs parse_view proposed_view catch_up logGrp txnDigest myProcessId myCurrentView quorumSize
               (pid :: replicasVerified) (u64 (verified + 1)) rest
  end.
Definition VerifyFBViews (parse_view : string → ViewMsg) (proposed_view : Z) (catch_up : bool) (logGrp : Z) (txnDigest : digest)
    (msgs : list SignedMessage) (myProcessId myCurrentView : Z) : bool :=
  view_sigs parse_view proposed_view catch_up logGrp txnDigest myProcessId myCurrentView
    (u64 (if catch_up then cf_f config + 1 else 3 * cf_f config + 1)) [] 0 msgs.

Fixpoint elect_sigs (logGrp myProcessId : Z) (mine_matches : bool) (msg : string) (quorumSize : Z)
    (replicasVerified : list Z) (verified : Z) (sigs : list Signature) : bool :=
  match sigs with
  | [] => false
  | sig :: rest =>
      let pid := sig_process_id sig in
      if negb (IsReplicaInGroup pid (u32 logGrp)) then false
      else if bool_decide (pid ∈ replicasVerified) then false
      else
        let skip := (pid =? myProcessId) && (myProcessId >=? 0) && mine_matches in
        if negb skip && negb (Verify pid msg (sig_bytes sig)) then false
        else if u32 (verified + 1) =? quorumSize then true
        else elect_sigs logGrp myProcessId mine_matches msg quorumSize (pid :: replicasVerified)
               (u32 (verified + 1)) rest
  end.
Definition ValidateFBDecision (ser_elect : ElectMsg → string) (decision : CommitDecision) (view : Z) (groups : list Z)
    (txnDigest : digest) (sigs : list Signature) (myProcessId : Z) (myDecision : CommitDecision) : outcome bool :=
  logGrp ← GetLogGroup groups txnDigest;
  Done (elect_sigs logGrp myProcessId (bool_decide (decision = myDecision))
          (ser_elect (mkElect 0 decision view txnDigest)) (u64 (2 * cf_f config + 1)) [] 0 sigs).

(** ** Proofs of commitment *)

(** The transaction that loads the initial data has no proof. *)
Definition is_genesis_txn (txn : Transaction) : bool := (client_id txn =? 0) && (client_seq_num txn =? 0).

Definition ValidateCommittedProof (proof : CommittedProof) (committedTxnDigest : digest) : outcome bool :=
  if is_genesis_txn (cp_txn proof) then Done true
  else match cp_sigs proof with
  | Some (ByP1 sigs) =>
      Done (ValidateP1Replies DCOMMIT true (involved_groups (cp_txn proof)) committedTxnDigest sigs (-1) ABORT)
  | Some (ByP2 sigs view) =>
      ValidateP2Replies DCOMMIT view (involved_groups (cp_txn proof)) committedTxnDigest sigs (-1) DABORT
  | None => Done false
  end.

(** A value returned by a read, against the transaction that wrote it. *)
Definition ValidateTransactionWrite (proof : CommittedProof) (txnDigest : digest) (key v : string)
    (ts : Timestamp) (signedMessages : bool) (tsDigest : string) : outcome bool :=
  let txn := cp_txn proof in
  if is_genesis_txn txn then Done true
  else
    ok ← (if signedMessages then ValidateCommittedProof proof txnDigest else Done true);
    if negb ok then Done false
    else if (bool_decide (tsDigest = "") && ts_ne (t_timestamp txn) ts) ||
            (negb (bool_decide (tsDigest = "")) && negb (bool_decide (hashed_timestamp txn = tsDigest)))
    then Done false
    else match List.find (λ w, bool_decide (w_key w = key)) (write_set txn) with
         | Some w => Done (bool_decide (w_value w = v))
         | None => Done false
         end.

(** ** Conflicts and dependencies

    Never [false]: a pair without a visible conflict is a [Panic]. *)
Definition reads_from (a b : Transaction) : bool :=
  existsb (λ r, existsb (λ w, bool_decide (r_key r = w_key w)) (write_set b)) (read_set a).
Definition merged_size (t : Transaction) : nat :=
  match merged_read_set t with Some m => length (m_read_set m) | None => 0 end.

(** [a] is the transaction of the proof, [b] the one to abort. *)
Definition policy_conflict (policyFn : string → string → string) (a b : Transaction) : bool :=
  match policy_type a, policy_type b with
  | POLICY_ID_POLICY, POLICY_ID_POLICY =>
      existsb (λ wb, existsb (λ wa, bool_decide (w_key wb = w_key wa)) (write_set a)) (write_set b)
  | NONE, POLICY_ID_POLICY =>
      existsb (λ wb, existsb (λ wa, bool_decide (policyFn (w_key wa) (w_value wa) = w_key wb)) (write_set a))
        (write_set b)
  | POLICY_ID_POLICY, NONE =>
      existsb (λ wb, existsb (λ wa, bool_decide (policyFn (w_key wb) (w_value wb) = w_key wa)) (write_set a))
        (write_set b)
  | NONE, NONE => false
  end.

Definition TransactionsConflict (policyFn : string → string → string) (a b : Transaction) : outcome bool :=
  if reads_from a b || reads_from b a then Done true
  else if (length (read_set a) <? merged_size a)%nat || negb (bool_decide (query_set b = [])) ||
          negb (bool_decide (query_set a = [])) then Done true
  else if policy_conflict policyFn a b then Done true
  else Panic.

Definition ValidateCommittedConflict (policyFn : string → string → string) (proof : CommittedProof)
    (committedTxnDigest : digest) (txn : Transaction) (signedMessages : bool) : outcome bool :=
  ok ← TransactionsConflict policyFn (cp_txn proof) txn;
  _ ← uw_assert ok;
  if signedMessages then ValidateCommittedProof proof committedTxnDigest else Done true.

(** The fields of [Write] its [operator==] compares. *)
Record PreparedWrite := mkPW { pw_value : string; pw_timestamp : Timestamp; pw_txn_digest : digest }.
Definition write_eq (a b : PreparedWrite) : bool :=
  bool_decide (pw_value a = pw_value b) && ts_eq (pw_timestamp a) (pw_timestamp b) &&
  bool_decide (pw_txn_digest a = pw_txn_digest b).

(** A signed payload other than the write of the dependency is a [Panic]. *)
Fixpoint dependency_sigs (parse_write : string → PreparedWrite) (w : PreparedWrite) (msgs : list SignedMessage) :
    outcome bool :=
  match msgs with
  | [] => Done true
  | m :: rest =>
      _ ← uw_assert (write_eq (parse_write (sm_data m)) w);
      if negb (Verify (sm_process_id m) (sm_data m) (sm_signature m)) then Done false
      else dependency_sigs parse_write w rest
  end.
Definition ValidateDependency (parse_write : string → PreparedWrite) (w : PreparedWrite) (readDepSize : Z)
    (msgs : list SignedMessage) : outcome bool :=
  if Z.of_nat (length msgs) <? readDepSize then Done false else dependency_sigs parse_write w msgs.

(** ** What a certificate contains *)

Definition pids (sigs : list Signature) : list Z := sig_process_id <$> sigs.

(** A signer counts: its signature verifies, or it is the validator itself
    with the same vote. *)
Definition approves (myProcessId : Z) (mine_matches : bool) (msg : string) (sig : Signature) : Prop :=
  Verify (sig_process_id sig) msg (sig_bytes sig) = true ∨
  sig_process_id sig = myProcessId ∧ 0 ≤ myProcessId ∧ mine_matches = true.

Lemma u32_succ_add v k : u32 (u32 (v + 1) + k) = u32 (v + (k + 1)).
Proof. unfold u32. rewrite Zplus_mod_idemp_l. f_equal. lia. Qed.

Lemma p1_sigs_spec group my ok msg R v sigs v' :
  p1_sigs group my ok msg R v sigs = Some v' → u32 v = v →
  NoDup (pids sigs) ∧ (∀ pid, pid ∈ pids sigs → pid ∉ R) ∧
  (∀ sig, sig ∈ sigs → IsReplicaInGroup (sig_process_id sig) group = true ∧ approves my ok msg sig) ∧
  v' = u32 (v + Z.of_nat (length sigs)).
Proof.
  revert R v. induction sigs as [|sig sigs IH]; intros R v H Hv; cbn in H.
  { simplify_eq. cbn. rewrite Z.add_0_r. split_and!; [constructor|set_solver..|done]. }
  set (pid := sig_process_id sig) in *. set (mine := (pid =? my) && (my >=? 0)) in *.
  destruct (IsReplicaInGroup pid group) eqn:Hg; [|done]. cbn [negb] in H.
  destruct (mine && negb ok) eqn:Hm; [done|].
  destruct (negb mine && negb (Verify pid msg (sig_bytes sig))) eqn:Hs; [done|].
  case_bool_decide as Hin; [done|].
  apply IH in H as (Hnd & Hfresh & Hall & ->); [|unfold u32; by rewrite Z.mod_mod].
  split_and!.
  - constructor; [|done]. intros ?%Hfresh. set_solver.
  - intros p [->|Hp]%elem_of_cons; [done|]. apply Hfresh in Hp. set_solver.
  - intros x [->|Hx]%elem_of_cons; [|by apply Hall]. split; [done|]. unfold approves. fold pid.
    destruct (Verify pid msg (sig_bytes sig)); [by left|right].
    rewrite andb_true_r in Hs. apply negb_false_iff in Hs. rewrite Hs in Hm. apply negb_false_iff in Hm.
    apply andb_true_iff in Hs as [? ?]. split_and!; [lia|lia|done].
  - rewrite u32_succ_add. do 2 f_equal. cbn. lia.
Qed.

Lemma p2_sigs_spec my ok msg R v sigs v' :
  p2_sigs my ok msg R v sigs = Some v' → u32 v = v →
  NoDup (pids sigs) ∧ (∀ pid, pid ∈ pids sigs → pid ∉ R) ∧
  (∀ sig, sig ∈ sigs → approves my ok msg sig) ∧ v' = u32 (v + Z.of_nat (length sigs)).
Proof.
  revert R v. induction sigs as [|sig sigs IH]; intros R v H Hv; cbn in H.
  { simplify_eq. cbn. rewrite Z.add_0_r. split_and!; [constructor|set_solver..|done]. }
  set (pid := sig_process_id sig) in *. set (mine := (pid =? my) && (my >=? 0)) in *.
  destruct (mine && negb ok) eqn:Hm; [done|].
  destruct (negb mine && negb (Verify pid msg (sig_bytes sig))) eqn:Hs; [done|].
  case_bool_decide as Hin; [done|].
  apply IH in H as (Hnd & Hfresh & Hall & ->); [|unfold u32; by rewrite Z.mod_mod].
  split_and!.
  - constructor; [|done]. intros ?%Hfresh. set_solver.
  - intros p [->|Hp]%elem_of_cons; [done|]. apply Hfresh in Hp. set_solver.
  - intros x [->|Hx]%elem_of_cons; [|by apply Hall]. unfold approves. fold pid.
    destruct (Verify pid msg (sig_bytes sig)); [by left|right].
    rewrite andb_true_r in Hs. apply negb_false_iff in Hs. rewrite Hs in Hm. apply negb_false_iff in Hm.
    apply andb_true_iff in Hs as [? ?]. split_and!; [lia|lia|done].
  - rewrite u32_succ_add. do 2 f_equal. cbn. lia.
Qed.

Lemma u32_le x : 0 ≤ x → u32 x ≤ x.
Proof. intros. unfold u32. apply Z.mod_le; lia. Qed.

Lemma p1_groups_spec dec fast d my myres gv gs gv' group sigs :
  p1_groups dec fast d my myres gv gs = Some gv' → (group, sigs) ∈ gs →
  NoDup (pids sigs) ∧ p1_quorum dec fast ≤ Z.of_nat (length sigs) ∧
  ∀ sig, sig ∈ sigs → IsReplicaInGroup (sig_process_id sig) group = true ∧
    approves my (bool_decide (p1_vote dec = myres)) (ser_cc (mkCCMsg (p1_vote dec) d group)) sig.
Proof.
  revert gv. induction gs as [|[g l] gs IH]; intros gv H Hin; [set_solver|]. cbn in H.
  destruct (p1_sigs _ _ _ _ _ _ _) as [k|] eqn:Hs; [|done].
  destruct (k =? p1_quorum dec fast) eqn:Hk; [|done]. cbn in H.
  apply elem_of_cons in Hin as [[= -> ->]|Hin]; [|by eapply IH].
  apply p1_sigs_spec in Hs as (Hnd & _ & Hall & ->); [|done].
  split_and!; [done| |done]. apply Z.eqb_eq in Hk. rewrite <- Hk. apply u32_le. lia.
Qed.

Lemma p2_quorum_value : 0 ≤ cf_f config < 2^28 → QuorumSize = 4 * cf_f config + 1.
Proof. intros. unfold QuorumSize, u64. rewrite !Z.mod_small; [done|lia|rewrite Z.mod_small; lia]. Qed.

(** ** Agreement of certificates

    One group [g] of [5 f + 1] replicas.  The checks take signatures of
    processes outside the group: those of every replica for votes
    ([group_check_ignores_group]), of every process with a key for decisions
    ([p2_check_ignores_membership]).  A faulty process outside the group can
    sign on both sides without taking the place of a correct member, so it
    counts twice: with [b] faulty members and [o] faulty outsiders,
    [b + 2 o <= f].  A correct process signs only as a member, and one vote (see
    BufferP1Result in ServerTxn.v). *)
Section agreement.
Context (g : Z) (members faulty : gset Z).
Hypothesis size_members : Z.of_nat (size members) = 5 * cf_f config + 1.
Hypothesis n_members : cf_n config = 5 * cf_f config + 1.
Hypothesis f_range : 0 ≤ cf_f config < 2^28.
Hypothesis size_faulty :
  Z.of_nat (size (faulty ∩ members)) + 2 * Z.of_nat (size (faulty ∖ members)) ≤ cf_f config.

(** Two sets of signers that are large enough share a correct member. *)
Lemma correct_signers (l : list Z) :
  NoDup l → (∀ p, p ∈ l → p ∈ members ∨ p ∈ faulty) →
  Z.of_nat (length l) ≤ Z.of_nat (size ((list_to_set l : gset Z) ∖ faulty)) +
    Z.of_nat (size (faulty ∩ members)) + Z.of_nat (size (faulty ∖ members)).
Proof.
  clear - size_members size_faulty. intros Hn Hl. rewrite <- (size_list_to_set (C := gset Z) l Hn). set (A := list_to_set l : gset Z).
  assert (∀ X Y : gset Z, (size (X ∪ Y) ≤ size X + size Y)%nat) as Hu.
  { intros X Y. rewrite size_union_alt. assert (size (Y ∖ X) ≤ size Y)%nat by (apply subseteq_size; set_solver). lia. }
  assert (A ⊆ (A ∖ faulty) ∪ ((faulty ∩ members) ∪ (faulty ∖ members))) as H%subseteq_size.
  { intros p Hp. destruct (decide (p ∈ faulty)), (decide (p ∈ members)); set_solver. }
  pose proof (Hu (A ∖ faulty) ((faulty ∩ members) ∪ (faulty ∖ members))).
  pose proof (Hu (faulty ∩ members) (faulty ∖ members)). lia.
Qed.
Lemma quorum_overlap (l1 l2 : list Z) :
  NoDup l1 → NoDup l2 → (∀ p, p ∈ l1 → p ∈ members ∨ p ∈ faulty) → (∀ p, p ∈ l2 → p ∈ members ∨ p ∈ faulty) →
  6 * cf_f config + 2 ≤ Z.of_nat (length l1) + Z.of_nat (length l2) →
  ∃ p, p ∈ l1 ∧ p ∈ l2 ∧ p ∉ faulty.
Proof.
  clear - size_members size_faulty. intros Hn1 Hn2 H1 H2 Hlen. pose proof (correct_signers l1 Hn1 H1) as Hc1. pose proof (correct_signers l2 Hn2 H2) as Hc2.
  set (A := (list_to_set l1 : gset Z) ∖ faulty) in *. set (B := (list_to_set l2 : gset Z) ∖ faulty) in *.
  assert (∀ p, p ∈ A ↔ p ∈ l1 ∧ p ∉ faulty) as HA by (intros; unfold A; rewrite elem_of_difference, elem_of_list_to_set; done).
  assert (∀ p, p ∈ B ↔ p ∈ l2 ∧ p ∉ faulty) as HB by (intros; unfold B; rewrite elem_of_difference, elem_of_list_to_set; done).
  clearbody A B. destruct (set_choose_or_empty (A ∩ B)) as [[p [[? ?]%HA [? _]%HB]%elem_of_intersection]|He]; [eauto|exfalso].
  assert (A ∪ B ⊆ members ∖ (faulty ∩ members)) as Hsub%subseteq_size.
  { intros p [[Hp ?]%HA|[Hp ?]%HB]%elem_of_union; [destruct (H1 p Hp)|destruct (H2 p Hp)]; set_solver. }
  rewrite size_union in Hsub by set_solver. rewrite size_difference in Hsub by set_solver.
  assert (size (faulty ∩ members) ≤ size members)%nat by (apply subseteq_size; set_solver). lia.
Qed.

Lemma p1_quorum_value dec fast :
  p1_quorum dec fast =
    match dec, fast with
    | DCOMMIT, true => 5 * cf_f config + 1
    | DCOMMIT, false | DABORT, true => 3 * cf_f config + 1
    | DABORT, false => cf_f config + 1
    end.
Proof.
  unfold p1_quorum, SlowCommitQuorumSize, FastAbortQuorumSize, SlowAbortQuorumSize, u64, u32.
  rewrite n_members. destruct dec, fast; rewrite ?(Z.mod_small (cf_f config)) by lia;
    rewrite !Z.mod_small; try lia; rewrite Z.mod_small; lia.
Qed.

Context (d : digest) (vote : Z → option Result).
Hypothesis vote_sound : ∀ pid r s,
  pid ∉ faulty → IsReplicaInGroup pid g = true → Verify pid (ser_cc (mkCCMsg r d g)) s = true →
  pid ∈ members ∧ vote pid = Some r.

(** The validator reports its own vote, if it is a replica. *)
Definition validator_ok (my : Z) (myResult : Result) : Prop :=
  my < 0 ∨ my ∈ members ∧ (my ∉ faulty → vote my = Some myResult).

Lemma certified_vote dec fast my myres gs gv sigs p :
  validator_ok my myres → p1_groups dec fast d my myres [] gs = Some gv → (g, sigs) ∈ gs →
  p ∈ pids sigs → p ∈ faulty ∨ p ∈ members ∧ vote p = Some (p1_vote dec).
Proof.
  intros Hv H Hin Hp. destruct (decide (p ∈ faulty)) as [|Hf]; [by left|right].
  eapply p1_groups_spec in H as (_ & _ & Hall); [|done]. apply list_elem_of_fmap in Hp as (sig & -> & Hsig).
  destruct (Hall sig Hsig) as [Hg [Hok|(Heq & Hpos & Hm)]]; [by eapply vote_sound|].
  apply bool_decide_eq_true in Hm as ->. rewrite Heq in *. destruct Hv as [?|[? Hv]]; [lia|split; [done|by apply Hv]].
Qed.

(** C9: fast phase-1 certificates are final.  The group has [5 f + 1 = n]
    replicas, [f < 2^28]; of the processes that the group check admits (it admits
    the replicas of every group), [b] members and [o] others are faulty, with
    [b + 2 o <= f]; a correct one signs votes on the transaction for this group
    only as a member, and one vote; a validator with an id of its own is a member.
    Then, if [ValidateP1Replies] accepts a COMMIT certificate and an ABORT
    certificate for the transaction, both with signatures for the group, neither
    is fast: a fast COMMIT excludes every ABORT and a fast ABORT every COMMIT
    certificate.  A slow COMMIT and a slow ABORT certificate can both be valid
    ([fast_certificates_exclusive_witness]); phase 2 decides between them. *)
Theorem fast_certificates_exclusive fast1 fast2 inv1 inv2 gs1 gs2 sigs1 sigs2 my1 my2 res1 res2 :
  validator_ok my1 res1 → validator_ok my2 res2 →
  ValidateP1Replies DCOMMIT fast1 inv1 d gs1 my1 res1 = true → (g, sigs1) ∈ gs1 →
  ValidateP1Replies DABORT fast2 inv2 d gs2 my2 res2 = true → (g, sigs2) ∈ gs2 →
  fast1 = false ∧ fast2 = false.
Proof.
  intros Hok1 Hok2 H1 Hin1 H2 Hin2. unfold ValidateP1Replies in H1, H2.
  destruct (p1_groups DCOMMIT _ _ _ _ _ _) as [gv1|] eqn:Hg1; [|done].
  destruct (p1_groups DABORT _ _ _ _ _ _) as [gv2|] eqn:Hg2; [|done].
  destruct (p1_groups_spec _ _ _ _ _ _ _ _ _ _ Hg1 Hin1) as (Hn1 & Hq1 & Ha1).
  destruct (p1_groups_spec _ _ _ _ _ _ _ _ _ _ Hg2 Hin2) as (Hn2 & Hq2 & Ha2).
  destruct (fast1 || fast2) eqn:Hfast; [exfalso|by apply orb_false_iff in Hfast].
  destruct (quorum_overlap (pids sigs1) (pids sigs2)) as (p & Hp1 & Hp2 & Hf); [done..| | | |].
  - intros p Hp. destruct (certified_vote _ _ _ _ _ _ _ _ Hok1 Hg1 Hin1 Hp) as [?|[? _]]; auto.
  - intros p Hp. destruct (certified_vote _ _ _ _ _ _ _ _ Hok2 Hg2 Hin2 Hp) as [?|[? _]]; auto.
  - unfold pids. rewrite !length_fmap. rewrite p1_quorum_value in *. destruct fast1, fast2; try done; lia.
  - destruct (certified_vote _ _ _ _ _ _ _ _ Hok1 Hg1 Hin1 Hp1) as [?|[_ Hv1]]; [done|].
    destruct (certified_vote _ _ _ _ _ _ _ _ Hok2 Hg2 Hin2 Hp2) as [?|[_ Hv2]]; [done|].
    rewrite Hv1 in Hv2. done.
Qed.

(** *** Phase 2 *)

Context (view logGrp : Z) (decided : Z → option CommitDecision).
Hypothesis p2_sound : ∀ pid dec s,
  pid ∉ faulty → Verify pid (ser_p2 (mkP2Msg dec view logGrp d)) s = true → pid ∈ members ∧ decided pid = Some dec.
Definition p2_validator_ok (my : Z) (myDecision : CommitDecision) : Prop :=
  my < 0 ∨ my ∈ members ∧ (my ∉ faulty → decided my = Some myDecision).

Lemma p2_signer dec my mydec sigs v sig :
  p2_validator_ok my mydec →
  p2_sigs my (bool_decide (dec = mydec)) (ser_p2 (mkP2Msg dec view logGrp d)) [] 0 sigs = Some v →
  sig ∈ sigs →
  sig_process_id sig ∈ faulty ∨ sig_process_id sig ∈ members ∧ decided (sig_process_id sig) = Some dec.
Proof.
  intros Hv H Hin. destruct (decide (sig_process_id sig ∈ faulty)) as [|Hf]; [by left|right].
  apply p2_sigs_spec in H as (_ & _ & Hall & _); [|done].
  destruct (Hall sig Hin) as [Hok|(Heq & Hpos & Hm)]; [by eapply p2_sound|].
  apply bool_decide_eq_true in Hm as ->. rewrite Heq in *. destruct Hv as [?|[? Hv]]; [lia|split; [done|by apply Hv]].
Qed.

(** C10: two phase-2 certificates for the same transaction and view that
    [ValidateP2Replies] accepts carry the same decision.  The logging group has
    [5 f + 1] replicas, [f < 2^28]; of all processes with a key (the check does not
    look at membership), [b] members and [o] others are faulty, with
    [b + 2 o <= f]; a correct process signs decisions on the transaction for the
    logging group and view only as a member, and one decision; a validator with an
    id of its own is a member.  Without the bound on the others the certificates
    can differ: [p2_check_ignores_membership]. *)
Theorem p2_certificates_agree dec1 dec2 inv gs1 gs2 my1 my2 mydec1 mydec2 :
  GetLogGroup inv d = Done logGrp →
  p2_validator_ok my1 mydec1 → p2_validator_ok my2 mydec2 →
  ValidateP2Replies dec1 view inv d gs1 my1 mydec1 = Done true →
  ValidateP2Replies dec2 view inv d gs2 my2 mydec2 = Done true → dec1 = dec2.
Proof.
  intros Hlog Hok1 Hok2 H1 H2. unfold ValidateP2Replies in H1, H2. rewrite Hlog in H1, H2.
  cbn [mbind outcome_bind] in H1, H2.
  destruct gs1 as [|[k1 sigs1] [|]], gs2 as [|[k2 sigs2] [|]]; try done.
  destruct (p2_sigs my1 _ _ _ _ _) as [v1|] eqn:Hs1; [|done].
  destruct (p2_sigs my2 _ _ _ _ _) as [v2|] eqn:Hs2; [|done].
  injection H1 as Hq1%Z.eqb_eq. injection H2 as Hq2%Z.eqb_eq. rewrite p2_quorum_value in Hq1, Hq2 by done.
  destruct (p2_sigs_spec _ _ _ _ _ _ _ Hs1 eq_refl) as (Hn1 & _ & _ & E1).
  destruct (p2_sigs_spec _ _ _ _ _ _ _ Hs2 eq_refl) as (Hn2 & _ & _ & E2).
  pose proof (u32_le (0 + Z.of_nat (length sigs1)) ltac:(lia)).
  pose proof (u32_le (0 + Z.of_nat (length sigs2)) ltac:(lia)).
  assert (∀ dec my mydec sigs v, p2_validator_ok my mydec →
    p2_sigs my (bool_decide (dec = mydec)) (ser_p2 (mkP2Msg dec view logGrp d)) [] 0 sigs = Some v →
    ∀ p, p ∈ pids sigs → p ∈ faulty ∨ p ∈ members ∧ decided p = Some dec) as Hs.
  { intros dec my mydec sigs v Hv Hs p Hp. apply list_elem_of_fmap in Hp as (sig & -> & Hsig).
    by eapply p2_signer. }
  pose proof (Hs _ _ _ _ _ Hok1 Hs1) as Hp1. pose proof (Hs _ _ _ _ _ Hok2 Hs2) as Hp2.
  destruct (quorum_overlap (pids sigs1) (pids sigs2)) as (p & Hi1 & Hi2 & Hf);
    [done|done|intros p Hp; destruct (Hp1 p Hp) as [?|[? _]]; [by right|by left]
    |intros p Hp; destruct (Hp2 p Hp) as [?|[? _]]; [by right|by left]|unfold pids; rewrite !length_fmap; lia|].
  apply Hp1 in Hi1 as [?|[_ Hi1]]; [done|]. apply Hp2 in Hi2 as [?|[_ Hi2]]; [done|].
  rewrite Hi1 in Hi2. by simplify_eq.
Qed.
End agreement.
End quorum.

(** ** What the checks do not ask for *)
Section unchecked.
Context (config : Configuration) (ser_cc : CCMsg → string) (ser_p2 : P2Msg → string)
  (Verify : Z → string → string → bool).

(** A proof that names client 0 and sequence number 0 is accepted without a
    single signature: any value is a valid read at any timestamp, and any
    transaction with a write can be aborted by a conflict made up for it. *)
Theorem genesis_proof_is_unchecked proof digest0 policyFn txn w key v ts tsDigest :
  client_id (cp_txn proof) = 0 → client_seq_num (cp_txn proof) = 0 →
  ValidateTransactionWrite config ser_cc ser_p2 Verify proof digest0 key v ts true tsDigest = Done true ∧
  (w ∈ write_set txn → (∃ r, r ∈ read_set (cp_txn proof) ∧ r_key r = w_key w) →
   ValidateCommittedConflict config ser_cc ser_p2 Verify policyFn proof digest0 txn true = Done true).
Proof.
  intros Hc Hs. assert (is_genesis_txn (cp_txn proof) = true) as Hg by (unfold is_genesis_txn; by rewrite Hc, Hs).
  split; [unfold ValidateTransactionWrite; by rewrite Hg|]. intros Hw (r & Hr & Hk).
  assert (reads_from (cp_txn proof) txn = true) as Hf.
  { apply existsb_exists. exists r. split; [by apply list_elem_of_In|]. apply existsb_exists. exists w.
    split; [by apply list_elem_of_In|]. by apply bool_decide_eq_true. }
  unfold ValidateCommittedConflict, TransactionsConflict, ValidateCommittedProof. by rewrite Hf, Hg.
Qed.

(** The check of a dependency counts messages, not replicas: one valid
    message of one replica, repeated, supports a dependency of any required
    size. *)
Theorem dependency_check_counts_duplicates parse_write w readDepSize m n :
  write_eq (parse_write (sm_data m)) w = true →
  Verify (sm_process_id m) (sm_data m) (sm_signature m) = true → readDepSize ≤ Z.of_nat n →
  ValidateDependency Verify parse_write w readDepSize (replicate n m) = Done true.
Proof.
  intros Hw Hv Hn. unfold ValidateDependency. rewrite length_replicate, (proj2 (Z.ltb_ge _ _)) by lia.
  clear Hn. induction n as [|n IH]; [done|]. cbn [replicate dependency_sigs]. by rewrite Hw, Hv.
Qed.
End unchecked.

(** ** The host table does not tell groups apart *)

Lemma assign_hosts_spec addrs hosts m idx j :
  NoDup addrs → (∀ h, h ∈ addrs → hosts !! h = None) → idx = Z.of_nat (size hosts) →
  assign_hosts hosts m idx addrs !! j =
    if decide (idx ≤ j < idx + Z.of_nat (length addrs)) then Some j else m !! j.
Proof.
  revert hosts m idx. induction addrs as [|h addrs IH]; intros hosts m idx Hnd Hfree Hidx; cbn.
  { by rewrite decide_False by lia. }
  apply NoDup_cons in Hnd as [Hh Hnd]. rewrite (Hfree h) by set_solver. rewrite <- Hidx.
  rewrite IH; [|done| |].
  - destruct (decide (j = idx)) as [->|Hne].
    + rewrite decide_False by lia. rewrite lookup_insert_eq. by rewrite decide_True by lia.
    + rewrite lookup_insert_ne by done. repeat case_decide; (done || lia).
  - intros h' Hh'. rewrite lookup_insert_ne by (intros ->; done). apply Hfree. set_solver.
  - rewrite map_size_insert_None by (apply Hfree; set_solver). lia.
Qed.

Lemma replicaHost_new n f replicas group addrs idx :
  replicas !! group = Some addrs → NoDup addrs → 0 ≤ idx < Z.of_nat (length addrs) →
  replicaHost (Configuration_new n f replicas) group idx = idx.
Proof.
  intros Hg Hnd Hidx. unfold replicaHost. cbn. rewrite lookup_fmap, Hg. cbn.
  rewrite assign_hosts_spec; [|done|intros; apply lookup_empty|done]. by rewrite decide_True by lia.
Qed.

(** [IsReplicaInGroup] does not tell groups apart: the table it compares
    numbers the hosts of every group from 0, so in a configuration whose
    groups have [n] replicas on [n] distinct hosts each, every replica of
    every group passes as a member of every other group. *)
Theorem group_check_ignores_group n f replicas g1 g2 addrs1 addrs2 idx :
  replicas !! g1 = Some addrs1 → replicas !! g2 = Some addrs2 →
  NoDup addrs1 → NoDup addrs2 → Z.of_nat (length addrs1) = n → Z.of_nat (length addrs2) = n →
  0 ≤ idx < n → n < 2^31 → 0 ≤ g1 < 2^31 → 0 ≤ g2 < 2^31 →
  IsReplicaInGroup (Configuration_new n f replicas) (g1 * n + idx) g2 = true.
Proof.
  intros Hg1 Hg2 Hn1 Hn2 Hl1 Hl2 Hidx Hn Hb1 Hb2. unfold IsReplicaInGroup. cbn [cf_n Configuration_new].
  rewrite Z.div_add_l, Z.div_small, Z.add_0_r by lia.
  rewrite (Z.add_comm (g1 * n)), Z_mod_plus_full, Z.mod_small by lia.
  rewrite !int32_id by lia. rewrite (replicaHost_new _ _ _ g1 addrs1) by (done || lia).
  apply existsb_exists. exists idx. split.
  - apply list_elem_of_In, elem_of_seqZ. lia.
  - rewrite (replicaHost_new _ _ _ g2 addrs2) by (done || lia). lia.
Qed.

(** ** Certificates that should not pass *)

(** A phase-1 ABORT certificate needs no signature: [ValidateP1Replies]
    accepts the empty one. *)
Lemma empty_abort_certificate config ser_cc Verify fast inv d my res :
  ValidateP1Replies config ser_cc Verify DABORT fast inv d [] my res = true.
Proof. done. Qed.

(** The validator's own signature is not verified, its own result has to
    match. *)
Definition own_matches (my : Z) (ok : bool) (sigs : list Signature) : Prop := 0 ≤ my → my ∈ pids sigs → ok = true.
Lemma own_matches_cons my ok sig sigs :
  own_matches my ok (sig :: sigs) →
  (sig_process_id sig =? my) && (my >=? 0) && negb ok = false ∧ own_matches my ok sigs.
Proof.
  intros H. split; [|intros Hp Hin; apply H; [done|by right]].
  destruct (sig_process_id sig =? my) eqn:He; [|done]. destruct (my >=? 0) eqn:Hp; [|done].
  apply Z.eqb_eq in He as <-. rewrite H; [done|lia|by left].
Qed.

Lemma p2_sigs_accept Verify msg R v sigs my ok :
  NoDup (pids sigs) → (∀ pid, pid ∈ pids sigs → pid ∉ R) →
  (∀ sig, sig ∈ sigs → Verify (sig_process_id sig) msg (sig_bytes sig) = true) →
  own_matches my ok sigs → 0 ≤ v → v + Z.of_nat (length sigs) < 2^32 →
  p2_sigs Verify my ok msg R v sigs = Some (v + Z.of_nat (length sigs)).
Proof.
  revert R v. induction sigs as [|sig sigs IH]; intros R v Hnd Hfresh Hver Hown Hv Hlen; cbn [p2_sigs].
  { cbn. by rewrite Z.add_0_r. }
  cbn [length] in *. apply NoDup_cons in Hnd as [Hp Hnd]. apply own_matches_cons in Hown as [-> Hown].
  rewrite Hver by (by left). rewrite andb_false_r.
  rewrite bool_decide_eq_false_2 by (apply Hfresh; by left).
  assert (u32 (v + 1) = v + 1) as -> by (unfold u32; apply Z.mod_small; lia).
  rewrite IH; [f_equal; lia|done| |intros; apply Hver; by right|done|lia|lia].
  intros pid Hpid [->|Hin]%elem_of_cons; [done|]. apply (Hfresh pid); [by right|done].
Qed.

(** The sequential phase-2 check does not look at who signed: any [4 f + 1]
    processes with distinct ids whose signatures verify (clients have keys
    too) make a certificate it accepts, under any group label. *)
Theorem p2_check_ignores_membership config ser_p2 Verify dec view inv d logGrp label sigs mydec :
  0 ≤ cf_f config < 2^28 → GetLogGroup inv d = Done logGrp →
  NoDup (pids sigs) → Z.of_nat (length sigs) = 4 * cf_f config + 1 →
  (∀ sig, sig ∈ sigs →
     Verify (sig_process_id sig) (ser_p2 (mkP2Msg dec view logGrp d)) (sig_bytes sig) = true) →
  ValidateP2Replies config ser_p2 Verify dec view inv d [(label, sigs)] (-1) mydec = Done true.
Proof.
  intros Hf Hlog Hnd Hlen Hver. unfold ValidateP2Replies. rewrite Hlog. cbn [mbind outcome_bind].
  rewrite p2_sigs_accept; [|done|set_solver|done|by intros []|lia|lia].
  rewrite p2_quorum_value by done. do 2 f_equal. lia.
Qed.

(** ** Concrete instances *)

Module QuorumExample.
(** One group of six replicas on six hosts; the first four vote COMMIT, the
    other two ABSTAIN. *)
Definition hosts : list string := ["a"; "b"; "c"; "d"; "e"; "f"].
Definition config : Configuration := Configuration_new 6 1 {[0 := hosts; 1 := hosts]}.
Definition ser_cc (m : CCMsg) : string :=
  match cc_ccr m with COMMIT => "c" | ABSTAIN => "a" | _ => "x" end.
Definition ser_p2 (m : P2Msg) : string := match p2_decision m with DCOMMIT => "c" | DABORT => "a" end.
Definition vote (pid : Z) : option Result := if pid <? 4 then Some COMMIT else Some ABSTAIN.
Definition members : gset Z := list_to_set (seqZ 0 6).
Definition Verify (pid : Z) (msg _ : string) : bool :=
  (0 <=? pid) && (pid <? 6) && bool_decide (msg = if pid <? 4 then "c" else "a").
Definition Verify2 (pid : Z) (msg _ : string) : bool := (0 <=? pid) && (pid <? 6) && bool_decide (msg = "c").
Definition sigs (l : list Z) : list Signature := (λ p, mkSig p "") <$> l.

Lemma member_range pid : (0 <=? pid) && (pid <? 6) = true → pid ∈ members.
Proof. intros H. apply elem_of_list_to_set, elem_of_seqZ. lia. Qed.

Lemma fast_certificates_exclusive_witness :
  ValidateP1Replies config ser_cc Verify DCOMMIT false [0] "d" [(0, sigs [0; 1; 2; 3])] (-1) ABORT = true ∧
  ValidateP1Replies config ser_cc Verify DABORT false [0] "d" [(0, sigs [4; 5])] (-1) ABORT = true ∧
  false = false.
Proof.
  split; [vm_compute; reflexivity|]. split; [vm_compute; reflexivity|].
  apply (fast_certificates_exclusive config ser_cc Verify 0 members ∅) with (d := "d") (vote := vote)
    (fast2 := false) (inv1 := [0]) (inv2 := [0]) (gs1 := [(0, sigs [0; 1; 2; 3])])
    (gs2 := [(0, sigs [4; 5])]) (sigs1 := sigs [0; 1; 2; 3]) (sigs2 := sigs [4; 5])
    (my1 := -1) (my2 := -1) (res1 := ABORT) (res2 := ABORT).
  - vm_compute; reflexivity.
  - reflexivity.
  - cbn; lia.
  - vm_compute; congruence.
  - intros pid r s _ _ Hv. unfold Verify, vote in *. apply andb_true_iff in Hv as [Hr Hv%bool_decide_eq_true].
    split; [by apply member_range|]. destruct (pid <? 4), r; cbn in Hv; congruence.
  - left; lia.
  - left; lia.
  - vm_compute; reflexivity.
  - left.
  - vm_compute; reflexivity.
  - left.
Defined.

Lemma p2_certificates_agree_witness :
  ValidateP2Replies config ser_p2 Verify2 DCOMMIT 0 [0] "d" [(0, sigs [0; 1; 2; 3; 4])] (-1) DABORT = Done true ∧
  DCOMMIT = DCOMMIT.
Proof.
  split; [vm_compute; reflexivity|].
  apply (p2_certificates_agree config ser_p2 Verify2 members ∅) with (d := "d") (view := 0) (logGrp := 0)
    (decided := λ _, Some DCOMMIT) (inv := [0]) (gs1 := [(0, sigs [0; 1; 2; 3; 4])])
    (gs2 := [(0, sigs [1; 2; 3; 4; 5])]) (my1 := -1) (my2 := -1) (mydec1 := DABORT) (mydec2 := DABORT).
  - vm_compute; reflexivity.
  - cbn; lia.
  - vm_compute; congruence.
  - intros pid dec s _ Hv. unfold Verify2 in Hv. apply andb_true_iff in Hv as [Hr Hv%bool_decide_eq_true].
    split; [by apply member_range|]. destruct dec; cbn in Hv; congruence.
  - vm_compute; reflexivity.
  - left; lia.
  - left; lia.
  - vm_compute; reflexivity.
  - vm_compute; reflexivity.
Defined.

(** Replica 8 is the third one of group 1. *)
Lemma group_check_ignores_group_witness : IsReplicaInGroup config 8 0 = true.
Proof.
  apply (group_check_ignores_group 6 1 {[0 := hosts; 1 := hosts]} 1 0 hosts hosts 2);
    [vm_compute; reflexivity|vm_compute; reflexivity|apply (bool_decide_unpack _); vm_compute; exact I
    |apply (bool_decide_unpack _); vm_compute; exact I|reflexivity|reflexivity|lia|lia|lia|lia].
Defined.

(** Five clients, whose key ids follow those of the twelve replicas. *)
Lemma p2_check_ignores_membership_witness :
  ValidateP2Replies config ser_p2 (λ pid _ _, 12 <=? pid) DABORT 0 [0] "d"
    [(0, sigs [12; 13; 14; 15; 16])] (-1) DCOMMIT = Done true.
Proof.
  apply (p2_check_ignores_membership config ser_p2 (λ pid _ _, 12 <=? pid) DABORT 0 [0] "d" 0 0);
    [cbn; lia|reflexivity|apply (bool_decide_unpack _); vm_compute; exact I|reflexivity|].
  intros sig Hin. assert (Forall (λ x, 12 <=? sig_process_id x = true) (sigs [12; 13; 14; 15; 16])) as Hall.
  { repeat constructor. }
  rewrite Forall_forall in Hall. by apply Hall.
Defined.
Definition reader (c : Z) : Transaction :=
  mkTxn c c [mkRead "k" ts_zero false ""] [mkWrite "k" (Some "x") false] [] ts_zero [] [] []
    None None NONE [] [] "" [] [] [0].
Lemma genesis_proof_is_unchecked_witness :
  ValidateTransactionWrite config ser_cc ser_p2 Verify (mkProof (reader 0) None) "g" "j" "any" (mkTs 5 5) true ""
    = Done true ∧
  ValidateCommittedConflict config ser_cc ser_p2 Verify (λ _ _, "") (mkProof (reader 0) None) "g" (reader 1) true
    = Done true.
Proof.
  destruct (genesis_proof_is_unchecked config ser_cc ser_p2 Verify (mkProof (reader 0) None) "g" (λ _ _, "") (reader 1)
    (mkWrite "k" (Some "x") false) "j" "any" (mkTs 5 5) "") as [H1 H2]; [reflexivity|reflexivity|].
  split; [exact H1|]. apply H2; [by left|]. exists (mkRead "k" ts_zero false ""). split; [by left|reflexivity].
Defined.

Lemma dependency_check_counts_duplicates_witness :
  let m := mkSigned 2 "w" "s" in
  ValidateDependency (λ _ _ _, true) (λ x, mkPW x (mkTs 1 1) "d") (mkPW "w" (mkTs 1 1) "d") 2 [m; m] = Done true.
Proof.
  cbn zeta. apply (dependency_check_counts_duplicates (λ _ _ _, true) (λ x, mkPW x (mkTs 1 1) "d") (mkPW "w" (mkTs 1 1) "d")
    2 (mkSigned 2 "w" "s") 2); [reflexivity|reflexivity|cbn; lia].
Defined.
End QuorumExample.
