(* ===== verification/AsyncVerify.v ===== *)
(** * Validation of certificates on the thread pool

    src/src/store/sintrstore/common.cc: the [asyncVerification] object, its
    two callbacks and the validators that dispatch one job per signature
    ([asyncValidateP1Replies], [asyncValidateP2Replies],
    [asyncValidateFBP2Replies], [asyncVerifyFBViews],
    [asyncValidateFBDecision]).  The jobs run in any order; the callback given
    by the caller ([mcb]) is the list of the values it is called with. *)
From S2P Require Import Prelude OrderedSeq CppString Timestamp Policy PolicyParse ServerState Quorum.

(** ** The object *)

Record asyncVerification := mkAsync {
  quorumSize : Z;
  groupCounts : gmap Z Z;
  groupTotals : Z;
  groupsVerified : Z;
  av_decision : CommitDecision;
  deletable : Z;
  terminate : bool;
  callback : bool
}.
Definition asyncVerification_new (quorumSize groupTotals : Z) (decision : CommitDecision) : asyncVerification :=
  mkAsync (u32 quorumSize) ∅ groupTotals 0 decision 0 false true.

Implicit Types v : asyncVerification.

Definition set_deletable (n : Z) v : asyncVerification :=
  mkAsync (quorumSize v) (groupCounts v) (groupTotals v) (groupsVerified v) (av_decision v) n
    (terminate v) (callback v).
Definition count (v : asyncVerification) (g : Z) : Z := default 0 (groupCounts v !! g).
Definition bump (g : Z) v : asyncVerification :=
  mkAsync (quorumSize v) (<[g := u32 (count v g + 1)]> (groupCounts v)) (groupTotals v)
    (groupsVerified v) (av_decision v) (deletable v) (terminate v) (callback v).
Definition add_group v : asyncVerification :=
  mkAsync (quorumSize v) (groupCounts v) (groupTotals v) (groupsVerified v + 1) (av_decision v)
    (deletable v) (terminate v) (callback v).
Definition set_terminate v : asyncVerification :=
  mkAsync (quorumSize v) (groupCounts v) (groupTotals v) (groupsVerified v) (av_decision v)
    (deletable v) true (callback v).
(** [terminate = true; callback = false;] *)
Definition set_success v : asyncVerification :=
  mkAsync (quorumSize v) (groupCounts v) (groupTotals v) (groupsVerified v) (av_decision v)
    (deletable v) true false.

(** Deletes the object if this was the last job; every such path panics
    first. *)
Definition last_job_panics v : outcome (asyncVerification * list bool) :=
  if deletable v =? 0 then Panic else Done (v, []).

Definition asyncValidateP2RepliesCallback v (groupId : Z) (result : bool) :
    outcome (asyncVerification * list bool) :=
  let v := set_deletable (u32 (deletable v - 1)) v in
  if terminate v then last_job_panics v
  else if negb result then Panic
  else
    let v := bump (u32 groupId) v in
    _ ← uw_assert (bool_decide (size (groupCounts v) = 1%nat));
    if count v (u32 groupId) =? quorumSize v then Done (set_success v, [true])
    else last_job_panics v.

Definition asyncValidateP1RepliesCallback v (groupId : Z) (result : bool) :
    outcome (asyncVerification * list bool) :=
  let v := set_deletable (u32 (deletable v - 1)) v in
  if terminate v then last_job_panics v
  else if negb result then last_job_panics (set_terminate v)
  else
    let v := bump (u32 groupId) v in
    if count v (u32 groupId) =? quorumSize v then
      let v := add_group v in
      if bool_decide (av_decision v = DCOMMIT) && negb (groupsVerified v =? groupTotals v)
      then last_job_panics v
      else Done (set_success v, [true])
    else last_job_panics v.

(** The jobs in the order in which they complete: the group and the result of
    the verification.  All calls of [mcb] are collected. *)
Fixpoint run_jobs (cb : asyncVerification → Z → bool → outcome (asyncVerification * list bool))
    v (jobs : list (Z * bool)) : outcome (asyncVerification * list bool) :=
  match jobs with
  | [] => Done (v, [])
  | (g, r) :: rest =>
      '(v, o1) ← cb v g r;
      '(v, o2) ← run_jobs cb v rest;
      Done (v, o1 ++ o2)
  end.

(** What a validator does before any job runs: it calls back at once, returns
    without ever calling back, or dispatches the jobs. *)
Inductive launched :=
| Immediate (b : bool)
| Dropped
| Dispatched (v : asyncVerification) (jobs : list (Z * bool)).

Definition jobs_of (l : launched) : list (Z * bool) :=
  match l with Dispatched _ js => js | _ => [] end.

(** Everything [mcb] is called with when the jobs complete in the order
    [order]. *)
Definition mcb_calls (cb : asyncVerification → Z → bool → outcome (asyncVerification * list bool))
    (l : launched) (order : list (Z * bool)) : outcome (list bool) :=
  match l with
  | Immediate b => Done [b]
  | Dropped => Done []
  | Dispatched v _ => '(_, o) ← run_jobs cb v order; Done o
  end.

(** ** The loop over the signatures of one group *)

(** A vote: its sender, whether the checks other than the duplicate check
    pass, whether it is the validator's own vote and counted without
    verification, and the result the verification will have. *)
Record vote := mkVote { vt_pid : Z; vt_ok : bool; vt_skip : bool; vt_valid : bool }.

(** [bad] is what a failed check does. *)
Fixpoint collect (group : Z) v (replicasVerified : list Z) (jobs : list (Z * bool)) (vs : list vote) : launched :=
  match vs with
  | [] => Dispatched (set_deletable (u32 (Z.of_nat (length jobs))) v) jobs
  | x :: rest =>
      if negb (vt_ok x) then Immediate false
      else if bool_decide (vt_pid x ∈ replicasVerified) then Immediate false
      else if vt_skip x then
        let v := bump group v in
        if count v group =? quorumSize v then Immediate true
        else collect group v (vt_pid x :: replicasVerified) jobs rest
      else collect group v (vt_pid x :: replicasVerified) (jobs ++ [(group, vt_valid x)]) rest
  end.

(** ** Validations under way *)

Inductive validation :=
| ByP1Jobs (l : launched)
| ByP2Jobs (l : launched)
| ByVerify (valid : bool).
(** What the callback can be called with. *)
Definition reports (v : validation) (b : bool) : Prop :=
  match v with
  | ByP1Jobs l => ∃ order outs, order ≡ₚ jobs_of l ∧
                    mcb_calls asyncValidateP1RepliesCallback l order = Done outs ∧ b ∈ outs
  | ByP2Jobs l => ∃ order outs, order ≡ₚ jobs_of l ∧
                    mcb_calls asyncValidateP2RepliesCallback l order = Done outs ∧ b ∈ outs
  | ByVerify valid => b = valid
  end.

Section validators.
Variable config : Configuration.
Variable ser_cc : CCMsg → string.
Variable ser_p2 : P2Msg → string.
Variable ser_elect : ElectMsg → string.
Variable parse_p2 : string → P2Msg.
Variable parse_view : string → ViewMsg.
Variable Verify : Z → string → string → bool.

Definition mine (pid myProcessId : Z) : bool := (pid =? myProcessId) && (myProcessId >=? 0).

Definition sig_vote (group myProcessId : Z) (matches : bool) (msg : string) (sig : Signature) : vote :=
  mkVote (sig_process_id sig) (IsReplicaInGroup config (sig_process_id sig) (u32 group))
    (mine (sig_process_id sig) myProcessId && matches) (Verify (sig_process_id sig) msg (sig_bytes sig)).

Definition asyncValidateP2Replies (decision : CommitDecision) (view : Z) (groups : list Z)
    (txnDigest : digest) (groupedSigs : GroupedSignatures) (myProcessId : Z)
    (myDecision : CommitDecision) : outcome launched :=
  logGrp ← GetLogGroup groups txnDigest;
  match groupedSigs with
  | [(group, sigs)] =>
      if negb (group =? logGrp) then Done (Immediate false)
      else
        _ ← uw_assert (negb (cf_f config =? 1) ||
              ((u32 (QuorumSize config) =? 5) && (Z.of_nat (length sigs) =? 5)));
        let msg := ser_p2 (mkP2Msg decision view logGrp txnDigest) in
        Done (collect group (asyncVerification_new (QuorumSize config) 1 decision) [] []
                (sig_vote group myProcessId (bool_decide (decision = myDecision)) msg <$> sigs))
  | _ => Done (Immediate false)
  end.

Definition asyncValidateFBDecision (decision : CommitDecision) (view : Z) (groups : list Z)
    (txnDigest : digest) (sigs : list Signature) (myProcessId : Z) (myDecision : CommitDecision) :
    outcome launched :=
  logGrp ← GetLogGroup groups txnDigest;
  let msg := ser_elect (mkElect 0 decision view txnDigest) in
  Done (collect logGrp (asyncVerification_new (2 * cf_f config + 1) 1 decision) [] []
          (sig_vote logGrp myProcessId (bool_decide (decision = myDecision)) msg <$> sigs)).

(** A reply of [P2Replies]: the oneof of [Phase2Reply]. *)
Inductive P2ReplyMsg := P2Unset | P2Plain (m : P2Msg) | P2Signed (m : SignedMessage).

(** The votes of the replies before the first one without a signed decision,
    and whether there is such a reply. *)
Definition p2_reply_vote (decision : CommitDecision) (txnDigest : digest) (logGrp myProcessId : Z)
    (matches : bool) (m : SignedMessage) : vote :=
  let p2 := parse_p2 (sm_data m) in
  mkVote (sm_process_id m)
    (bool_decide (p2_decision p2 = decision) && bool_decide (p2_txn_digest p2 = txnDigest) &&
     IsReplicaInGroup config (sm_process_id m) (u32 logGrp))
    (mine (sm_process_id m) myProcessId && matches)
    (Verify (sm_process_id m) (sm_data m) (sm_signature m)).
Fixpoint signed_prefix (rs : list P2ReplyMsg) : list SignedMessage * bool :=
  match rs with
  | P2Signed m :: rest => let '(ms, b) := signed_prefix rest in (m :: ms, b)
  | [] => ([], false)
  | _ => ([], true)
  end.

Definition asyncValidateFBP2Replies (decision : CommitDecision) (groups : list Z) (txnDigest : digest)
    (p2Replies : list P2ReplyMsg) (myProcessId : Z) (myDecision : CommitDecision) : outcome launched :=
  if negb (Z.of_nat (length p2Replies) =? cf_f config + 1) then Done (Immediate false)
  else
    logGrp ← GetLogGroup groups txnDigest;
    let '(ms, unsigned) := signed_prefix p2Replies in
    let l := collect logGrp (asyncVerification_new (cf_f config + 1) 1 decision) [] []
               (p2_reply_vote decision txnDigest logGrp myProcessId (bool_decide (decision = myDecision)) <$> ms) in
    Done (match l with
          | Dispatched _ _ => if unsigned : bool then Dropped else l
          | _ => l
          end).

Definition view_vote (proposed_view : Z) (catch_up : bool) (logGrp : Z) (txnDigest : digest)
    (myProcessId myCurrentView : Z) (m : SignedMessage) : vote :=
  let w := parse_view (sm_data m) in
  mkVote (sm_process_id m)
    (IsReplicaInGroup config (sm_process_id m) (u32 logGrp) && bool_decide (vw_txn_digest w = txnDigest) &&
     negb (vw_current_view w <? needed_view proposed_view catch_up))
    (mine (sm_process_id m) myProcessId && (myCurrentView >=? needed_view proposed_view catch_up))
    (Verify (sm_process_id m) (sm_data m) (sm_signature m)).

Definition asyncVerifyFBViews (proposed_view : Z) (catch_up : bool) (logGrp : Z) (txnDigest : digest)
    (msgs : list SignedMessage) (myProcessId myCurrentView : Z) : outcome launched :=
  let quorum := u64 (if catch_up then cf_f config + 1 else 3 * cf_f config + 1) in
  let l := collect logGrp (asyncVerification_new quorum 1 DCOMMIT) [] []
             (view_vote proposed_view catch_up logGrp txnDigest myProcessId myCurrentView <$> msgs) in
  match l with
  | Dispatched v _ => _ ← uw_assert (deletable v <=? quorum); Done l
  | _ => Done l
  end.

(** ** Phase-1 certificates *)

(** The signatures of one group; [inr] is the state after the loop, [inl] an
    early call of [mcb].  Foreign, repeated and contradicting signatures
    panic. *)
Fixpoint p1_collect (group myProcessId : Z) (mine_matches : bool) (msg : string) v
    (replicasVerified : list Z) (jobs : list (Z * bool)) (sigs : list Signature) :
    outcome (bool + asyncVerification * list (Z * bool)) :=
  match sigs with
  | [] => Done (inr (v, jobs))
  | sig :: rest =>
      let pid := sig_process_id sig in
      _ ← uw_assert (IsReplicaInGroup config pid (u32 group));
      _ ← uw_assert (negb (bool_decide (pid ∈ replicasVerified)));
      if mine pid myProcessId then
        _ ← uw_assert mine_matches;
        let v := bump group v in
        if count v group =? quorumSize v then
          let v := add_group v in
          if bool_decide (av_decision v = DCOMMIT) && negb (groupsVerified v =? groupTotals v)
          then p1_collect group myProcessId mine_matches msg v (pid :: replicasVerified) jobs rest
          else Done (inl true)
        else p1_collect group myProcessId mine_matches msg v (pid :: replicasVerified) jobs rest
      else p1_collect group myProcessId mine_matches msg v (pid :: replicasVerified)
             (jobs ++ [(group, Verify pid msg (sig_bytes sig))]) rest
  end.

Fixpoint p1_collect_groups (decision : CommitDecision) (txnDigest : digest) (myProcessId : Z)
    (myResult : Result) v (jobs : list (Z * bool)) (gs : GroupedSignatures) : outcome launched :=
  match gs with
  | [] => Done (Dispatched (set_deletable (u32 (Z.of_nat (length jobs))) v) jobs)
  | (group, sigs) :: rest =>
      let msg := ser_cc (mkCCMsg (p1_vote decision) txnDigest group) in
      r ← p1_collect group myProcessId (bool_decide (p1_vote decision = myResult)) msg v [] jobs sigs;
      match r with
      | inl b => Done (Immediate b)
      | inr (v, jobs) =>
          if bool_decide (decision = DABORT)
          then Done (Dispatched (set_deletable (u32 (Z.of_nat (length jobs))) v) jobs)
          else p1_collect_groups decision txnDigest myProcessId myResult v jobs rest
      end
  end.

Definition asyncValidateP1Replies (decision : CommitDecision) (fast : bool) (groups : list Z)
    (txnDigest : digest) (groupedSigs : GroupedSignatures) (myProcessId : Z) (myResult : Result) :
    outcome launched :=
  p1_collect_groups decision txnDigest myProcessId myResult
    (asyncVerification_new (p1_quorum config decision fast) (Z.of_nat (length groups)) decision) [] groupedSigs.

(** ** Committed proofs and conflicts *)

Definition asyncValidateCommittedProof (proof : CommittedProof) (committedTxnDigest : digest) : outcome validation :=
  if is_genesis_txn (cp_txn proof) then Done (ByVerify true)
  else match cp_sigs proof with
  | Some (ByP1 sigs) =>
      l ← asyncValidateP1Replies DCOMMIT true (involved_groups (cp_txn proof)) committedTxnDigest sigs (-1) ABORT;
      Done (ByP1Jobs l)
  | Some (ByP2 sigs view) =>
      l ← asyncValidateP2Replies DCOMMIT view (involved_groups (cp_txn proof)) committedTxnDigest sigs (-1) DABORT;
      Done (ByP2Jobs l)
  | None => Done (ByVerify false)
  end.

(** Without signed messages the callback is never called. *)
Definition asyncValidateCommittedConflict (policyFn : string → string → string) (proof : CommittedProof)
    (committedTxnDigest : digest) (txn : Transaction) (signedMessages multithread : bool) : outcome validation :=
  ok ← TransactionsConflict policyFn (cp_txn proof) txn;
  _ ← uw_assert ok;
  if signedMessages && multithread then asyncValidateCommittedProof proof committedTxnDigest
  else Done (ByP2Jobs Dropped).
End validators.

(** ** The callback of one group is exact *)

Notation P2cb := asyncValidateP2RepliesCallback.

Lemma P2cb_eq v g r :
  P2cb v g r =
    let v := set_deletable (u32 (deletable v - 1)) v in
    if terminate v then last_job_panics v
    else if negb r then Panic
    else
      _ ← uw_assert (bool_decide (size (groupCounts (bump (u32 g) v)) = 1%nat));
      if count (bump (u32 g) v) (u32 g) =? quorumSize v then Done (set_success (bump (u32 g) v), [true])
      else last_job_panics (bump (u32 g) v).
Proof. done. Qed.

Lemma run_terminated v jobs :
  terminate v = true → deletable v = Z.of_nat (length jobs) → Z.of_nat (length jobs) < 2^32 →
  jobs ≠ [] → run_jobs P2cb v jobs = Panic.
Proof.
  revert v. induction jobs as [|[g r] jobs IH]; intros v Ht Hd Hlt Hne; [done|].
  cbn [run_jobs length] in *. rewrite P2cb_eq.
  assert (u32 (deletable v - 1) = Z.of_nat (length jobs)) as Hd1.
  { unfold u32. rewrite Z.mod_small; lia. }
  cbn [terminate set_deletable]. rewrite Ht, Hd1. unfold last_job_panics. cbn [deletable set_deletable].
  destruct jobs as [|j jobs]; [done|]. rewrite (proj2 (Z.eqb_neq _ _)) by (cbn; lia).
  cbn [mbind outcome_bind]. rewrite IH; [done|done|done|cbn in *; lia|done].
Qed.

Lemma run_p2_exact g k v jobs :
  0 ≤ g < 2^32 → (∀ j, j ∈ jobs → j.1 = g) → terminate v = false →
  deletable v = Z.of_nat (length jobs) → Z.of_nat (length jobs) < 2^32 →
  (dom (groupCounts v) ⊆ {[g]}) → count v g = k → 0 ≤ k < quorumSize v → quorumSize v < 2^32 →
  jobs ≠ [] →
  ('(_, o) ← run_jobs P2cb v jobs; Done o) =
    if forallb snd jobs && (k + Z.of_nat (length jobs) =? quorumSize v) then Done [true] else Panic.
Proof.
  intros Hg. revert k v. induction jobs as [|[g' r] jobs IH]; intros k v Hj Ht Hd Hlt Hdom Hk Hk0 HQ Hne; [done|].
  assert (g' = g) as -> by (apply (Hj (g', r)); set_solver).
  cbn [run_jobs length forallb snd] in *. rewrite P2cb_eq.
  assert (u32 (deletable v - 1) = Z.of_nat (length jobs)) as Hd1.
  { unfold u32. rewrite Z.mod_small; lia. }
  assert (u32 g = g) as Hu by (apply Z.mod_small; lia).
  cbn [terminate set_deletable]. rewrite Ht, Hd1, Hu. destruct r; [|done]. cbn [negb andb].
  assert (size (groupCounts (bump g (set_deletable (Z.of_nat (length jobs)) v))) = 1%nat) as Hsz.
  { cbn. rewrite <- size_dom, dom_insert_L. replace (_ ∪ _) with ({[g]} : gset Z) by set_solver. by rewrite size_singleton. }
  rewrite bool_decide_eq_true_2 by exact Hsz. cbn [uw_assert mbind outcome_bind].
  assert (count (bump g (set_deletable (Z.of_nat (length jobs)) v)) g = k + 1) as Hc.
  { unfold count at 1. cbn [groupCounts bump]. rewrite lookup_insert_eq. cbn [default].
    change (count (set_deletable _ v) g) with (count v g). rewrite Hk.
    unfold u32. cbn. rewrite Z.mod_small; lia. }
  rewrite Hc. change (quorumSize (set_deletable _ v)) with (quorumSize v).
  destruct (Z.eqb_spec (k + 1) (quorumSize v)) as [He|He].
  - cbn [mbind outcome_bind]. destruct jobs as [|j jobs].
    + cbn [length] in *. change (Z.of_nat 1) with 1. rewrite (proj2 (Z.eqb_eq (k + 1) _) He). done.
    + rewrite run_terminated; [|done|done|cbn in *; lia|done]. cbn [mbind outcome_bind].
      rewrite (proj2 (Z.eqb_neq (k + _) _)) by (cbn [length] in *; lia). by rewrite andb_false_r.
  - unfold last_job_panics. cbn [deletable bump set_deletable]. destruct jobs as [|j jobs].
    + rewrite (proj2 (Z.eqb_neq (k + _) _)) by (cbn; lia). done.
    + rewrite (proj2 (Z.eqb_neq _ _)) by (cbn; lia). cbn [mbind outcome_bind].
      set (v1 := bump g (set_deletable (Z.of_nat (length (j :: jobs))) v)) in *.
      specialize (IH (k + 1) v1). replace (k + Z.of_nat (S (length (j :: jobs))))
        with (k + 1 + Z.of_nat (length (j :: jobs))) by lia.
      change (quorumSize v) with (quorumSize v1). rewrite <- IH.
      * by destruct (run_jobs P2cb v1 (j :: jobs)) as [[v2 o]|].
      * intros x Hx. apply Hj. set_solver.
      * done.
      * done.
      * cbn [length] in *; lia.
      * cbn. rewrite dom_insert. set_solver.
      * exact Hc.
      * cbn. lia.
      * exact HQ.
      * done.
Qed.

(** ** The loop over the votes *)

(** No vote is repeated or comes from [rv]. *)
Definition fresh (rv : list Z) (vs : list vote) : Prop :=
  NoDup (vt_pid <$> vs) ∧ ∀ x, x ∈ vs → vt_pid x ∉ rv.
#[export] Instance fresh_dec rv vs : Decision (fresh rv vs).
Proof.
  refine (cast_if_and (decide (NoDup (vt_pid <$> vs)))
            (decide (Forall (λ x, vt_pid x ∉ rv) vs))); unfold fresh; rewrite ?Forall_forall in *; tauto.
Defined.

Lemma fresh_cons rv x vs : fresh rv (x :: vs) ↔ vt_pid x ∉ rv ∧ fresh (vt_pid x :: rv) vs.
Proof.
  unfold fresh. cbn. rewrite NoDup_cons, list_elem_of_fmap. split.
  - intros [[H1 H2] H3]. split; [apply H3; by left|]. split; [done|].
    intros y Hy [He|Hr]%elem_of_cons; [apply H1; by exists y|]. apply (H3 y); [by right|done].
  - intros [H1 [H2 H3]]. split; [split; [|done]|].
    + intros (y & He & Hy). apply (H3 y Hy). rewrite He. by left.
    + intros y [->|Hy]%elem_of_cons; [done|]. intros Hr. apply (H3 y Hy). by right.
Qed.

Definition vote_jobs (g : Z) (vs : list vote) : list (Z * bool) :=
  (λ x, (g, vt_valid x)) <$> filter (λ x, vt_skip x = false) vs.
Definition skipped (vs : list vote) : list vote := filter (λ x, vt_skip x = true) vs.

Lemma vote_jobs_length g vs : (length (vote_jobs g vs) + length (skipped vs) = length vs)%nat.
Proof.
  unfold vote_jobs, skipped. rewrite length_fmap.
  induction vs as [|x vs IH]; [done|]. rewrite !filter_cons.
  destruct (vt_skip x) eqn:Hs; [rewrite decide_False, decide_True by congruence
    |rewrite decide_True, decide_False by congruence]; cbn [length]; lia.
Qed.

Lemma collect_exact my g v rv jobs vs :
  (∀ x, x ∈ vs → vt_skip x = true → vt_pid x = my) → (my ∈ rv ∨ count v g = 0) →
  1 < quorumSize v →
  if decide (Forall (λ x, vt_ok x = true) vs ∧ fresh rv vs) then
    ∃ v', collect g v rv jobs vs =
            Dispatched (set_deletable (u32 (Z.of_nat (length (jobs ++ vote_jobs g vs)))) v') (jobs ++ vote_jobs g vs) ∧
          quorumSize v' = quorumSize v ∧ terminate v' = terminate v ∧
          count v' g = count v g + Z.of_nat (length (skipped vs)) ∧
          dom (groupCounts v') ⊆ dom (groupCounts v) ∪ {[g]}
  else collect g v rv jobs vs = Immediate false.
Proof.
  revert v rv jobs. induction vs as [|x vs IH]; intros v rv jobs Hmy Hc HQ.
  { rewrite decide_True by (split; [constructor|split; [constructor|set_solver]]).
    exists v. unfold vote_jobs. cbn. rewrite app_nil_r. repeat split; [lia|set_solver]. }
  cbn [collect]. destruct (vt_ok x) eqn:Hok; cbn [negb].
  2: { rewrite decide_False; [done|]. intros [HF _]. apply Forall_cons in HF as [? _]. congruence. }
  case_bool_decide as Hin.
  { rewrite decide_False; [done|]. intros [_ [? _]%fresh_cons]. done. }
  assert ((Forall (λ x, vt_ok x = true) (x :: vs) ∧ fresh rv (x :: vs)) ↔
            (Forall (λ x, vt_ok x = true) vs ∧ fresh (vt_pid x :: rv) vs)) as Hiff.
  { rewrite Forall_cons, fresh_cons. tauto. }
  assert (∀ y, y ∈ vs → vt_skip y = true → vt_pid y = my) as Hmy' by (intros; apply Hmy; [by right|done]).
  destruct (vt_skip x) eqn:Hs.
  - assert (vt_pid x = my) as Hx by (apply Hmy; [by left|done]).
    assert (count v g = 0) as Hc0 by (destruct Hc; [congruence|done]).
    assert (count (bump g v) g = 1) as Hc1.
    { unfold count at 1. cbn [groupCounts bump]. rewrite lookup_insert_eq. cbn. by rewrite Hc0. }
    rewrite Hc1. change (quorumSize (bump g v)) with (quorumSize v).
    rewrite (proj2 (Z.eqb_neq 1 _)) by lia.
    specialize (IH (bump g v) (vt_pid x :: rv) jobs Hmy').
    specialize (IH ltac:(left; rewrite Hx; by left) HQ).
    destruct (decide (_ ∧ fresh (vt_pid x :: rv) vs)) as [Hd|Hd].
    + rewrite decide_True by (by apply Hiff). destruct IH as (v' & IH1 & IH2 & IH3 & IH4 & IH5).
      exists v'. unfold vote_jobs, skipped in *. rewrite !filter_cons.
      rewrite decide_False, decide_True by congruence. repeat split; [done|done|done| |].
      * rewrite IH4, Hc1, Hc0. cbn [length]. lia.
      * etrans; [exact IH5|]. cbn. rewrite dom_insert. set_solver.
    + rewrite decide_False by (by rewrite Hiff). done.
  - specialize (IH v (vt_pid x :: rv) (jobs ++ [(g, vt_valid x)]) Hmy').
    specialize (IH ltac:(destruct Hc; [left; by right|by right]) HQ).
    destruct (decide (_ ∧ fresh (vt_pid x :: rv) vs)) as [Hd|Hd].
    + rewrite decide_True by (by apply Hiff). destruct IH as (v' & IH1 & IH2 & IH3 & IH4 & IH5).
      exists v'. unfold vote_jobs, skipped in *. rewrite !filter_cons.
      rewrite decide_True, decide_False by congruence. cbn [fmap list_fmap].
      rewrite <- app_assoc in IH1. by repeat split.
    + rewrite decide_False by (by rewrite Hiff). done.
Qed.

Definition good (x : vote) : Prop := vt_skip x = true ∨ vt_valid x = true.
#[export] Instance good_dec x : Decision (good x).
Proof. unfold good. apply _. Defined.

Lemma vote_jobs_good g vs : forallb snd (vote_jobs g vs) = true ↔ Forall good vs.
Proof.
  unfold vote_jobs, good. induction vs as [|x vs IH]; [by split; [constructor|]|].
  rewrite filter_cons, Forall_cons, <- IH. destruct (vt_skip x) eqn:Hs.
  - rewrite decide_False by congruence. tauto.
  - rewrite decide_True by congruence. cbn. rewrite andb_true_iff. naive_solver congruence.
Qed.

Lemma forallb_perm {A} (f : A → bool) l1 l2 : l1 ≡ₚ l2 → forallb f l1 = forallb f l2.
Proof. induction 1; cbn; rewrite ?andb_assoc; try congruence. f_equal. apply andb_comm. Qed.

Lemma vote_jobs_nil g vs : vote_jobs g vs = [] ↔ Forall (λ x, vt_skip x = true) vs.
Proof.
  unfold vote_jobs. induction vs as [|x vs IH]; [done|]. rewrite filter_cons, Forall_cons, <- IH.
  destruct (vt_skip x) eqn:Hs.
  - rewrite decide_False by congruence. tauto.
  - rewrite decide_True by congruence. split; [done|intros [? _]; done].
Qed.

Lemma skipped_at_most_one my vs :
  NoDup (vt_pid <$> vs) → (∀ x, x ∈ vs → vt_skip x = true → vt_pid x = my) →
  (length (skipped vs) ≤ 1)%nat.
Proof.
  intros Hnd Hmy.
  assert (NoDup (vt_pid <$> skipped vs)) as Hn.
  { eapply sublist_NoDup; [exact Hnd|]. apply fmap_sublist, sublist_filter. }
  assert (∀ x, x ∈ skipped vs → vt_pid x = my) as Hall.
  { intros x Hx. apply list_elem_of_filter in Hx as [? ?]. auto. }
  destruct (skipped vs) as [|x [|y l]]; cbn in *; [lia|lia|].
  exfalso. rewrite (Hall x), (Hall y) in Hn by set_solver. apply NoDup_cons in Hn as [[] _]. by left.
Qed.

(** What the caller's callback gets, for every order of the jobs: [false] if
    a check before the jobs fails, nothing if no job is left, [true] if there
    are exactly [Q] votes and all are valid; in every other case the process
    panics. *)
Lemma group_votes_exact my g Q dec vs order :
  0 ≤ g < 2^32 → 1 < Q < 2^32 → Z.of_nat (length vs) < 2^32 →
  (∀ x, x ∈ vs → vt_skip x = true → vt_pid x = my) →
  order ≡ₚ jobs_of (collect g (asyncVerification_new Q 1 dec) [] [] vs) →
  mcb_calls P2cb (collect g (asyncVerification_new Q 1 dec) [] [] vs) order =
    if decide (Forall (λ x, vt_ok x = true) vs ∧ fresh [] vs) then
      if decide (Forall (λ x, vt_skip x = true) vs) then Done []
      else if decide (Forall good vs ∧ Z.of_nat (length vs) = Q) then Done [true] else Panic
    else Done [false].
Proof.
  intros Hg HQ Hlen Hmy. set (v0 := asyncVerification_new Q 1 dec).
  assert (quorumSize v0 = Q) as Hq by (apply Z.mod_small; lia).
  pose proof (collect_exact my g v0 [] [] vs Hmy ltac:(by right) ltac:(lia)) as Hc.
  destruct (decide (Forall (λ x, vt_ok x = true) vs ∧ fresh [] vs)) as [Hd|Hd]; [|by rewrite Hc].
  destruct Hc as (v & Hc & Hq' & Ht & Hcnt & Hdom). rewrite Hc. cbn [app jobs_of mcb_calls].
  intros Hp. pose proof (vote_jobs_length g vs) as Hl. pose proof (Permutation_length Hp) as Hpl.
  destruct (decide (Forall (λ x, vt_skip x = true) vs)) as [Hs|Hs].
  - rewrite (proj2 (vote_jobs_nil g vs) Hs) in Hp. apply Permutation_nil_r in Hp. by rewrite Hp.
  - assert (vote_jobs g vs ≠ []) as Hne by (by rewrite vote_jobs_nil).
    rewrite (run_p2_exact g (Z.of_nat (length (skipped vs)))).
    + assert (forallb snd order = forallb snd (vote_jobs g vs)) as Hfb.
      { apply forallb_perm, Hp. }
      rewrite Hfb. change (quorumSize (set_deletable _ v)) with (quorumSize v). rewrite Hq', Hq.
      replace (Z.of_nat (length (skipped vs)) + Z.of_nat (length order)) with (Z.of_nat (length vs)) by lia.
      destruct (decide (Forall good vs ∧ Z.of_nat (length vs) = Q)) as [[Hf He]|Hn].
      * by rewrite (proj2 (vote_jobs_good g vs) Hf), He, Z.eqb_refl.
      * destruct (forallb snd (vote_jobs g vs)) eqn:Hf; [|done]. apply vote_jobs_good in Hf.
        rewrite (proj2 (Z.eqb_neq _ _)) by naive_solver. done.
    + lia.
    + intros j Hj. rewrite Hp in Hj. apply list_elem_of_fmap in Hj as (? & -> & _). done.
    + exact Ht.
    + cbn [deletable set_deletable]. unfold u32. rewrite Z.mod_small; lia.
    + lia.
    + etrans; [exact Hdom|]. apply union_subseteq. split; [apply empty_subseteq|done].
    + exact Hcnt.
    + change (quorumSize (set_deletable _ v)) with (quorumSize v). rewrite Hq', Hq. split; [lia|].
      pose proof (skipped_at_most_one my vs (proj1 (proj2 Hd)) Hmy). lia.
    + change (quorumSize (set_deletable _ v)) with (quorumSize v). lia.
    + intros ->. apply Permutation_nil_l in Hp. done.
Qed.

(** ** The phase-1 callback when one group decides *)

Notation P1cb := asyncValidateP1RepliesCallback.

Lemma P1cb_eq v g r :
  P1cb v g r =
    let v := set_deletable (u32 (deletable v - 1)) v in
    if terminate v then last_job_panics v
    else if negb r then last_job_panics (set_terminate v)
    else
      let v := bump (u32 g) v in
      if count v (u32 g) =? quorumSize v then
        let v := add_group v in
        if bool_decide (av_decision v = DCOMMIT) && negb (groupsVerified v =? groupTotals v)
        then last_job_panics v
        else Done (set_success v, [true])
      else last_job_panics v.
Proof. done. Qed.

Lemma run_terminated1 v jobs :
  terminate v = true → deletable v = Z.of_nat (length jobs) → Z.of_nat (length jobs) < 2^32 →
  jobs ≠ [] → run_jobs P1cb v jobs = Panic.
Proof.
  revert v. induction jobs as [|[g r] jobs IH]; intros v Ht Hd Hlt Hne; [done|].
  cbn [run_jobs length] in *. rewrite P1cb_eq.
  assert (u32 (deletable v - 1) = Z.of_nat (length jobs)) as Hd1.
  { unfold u32. rewrite Z.mod_small; lia. }
  cbn [terminate set_deletable]. rewrite Ht, Hd1. unfold last_job_panics. cbn [deletable set_deletable].
  destruct jobs as [|j jobs]; [done|]. rewrite (proj2 (Z.eqb_neq _ _)) by (cbn; lia).
  cbn [mbind outcome_bind]. rewrite IH; [done|done|done|cbn in *; lia|done].
Qed.

Definition one_group_decides v : Prop :=
  av_decision v = DABORT ∨ (groupTotals v = 1 ∧ groupsVerified v = 0).

Lemma run_p1_exact g k v jobs :
  0 ≤ g < 2^32 → one_group_decides v → (∀ j, j ∈ jobs → j.1 = g) → terminate v = false →
  deletable v = Z.of_nat (length jobs) → Z.of_nat (length jobs) < 2^32 →
  count v g = k → 0 ≤ k < quorumSize v → quorumSize v < 2^32 → jobs ≠ [] →
  ('(_, o) ← run_jobs P1cb v jobs; Done o) =
    if forallb snd jobs && (k + Z.of_nat (length jobs) =? quorumSize v) then Done [true] else Panic.
Proof.
  intros Hg. revert k v. induction jobs as [|[g' r] jobs IH]; intros k v H1 Hj Ht Hd Hlt Hk Hk0 HQ Hne; [done|].
  assert (g' = g) as -> by (apply (Hj (g', r)); set_solver).
  cbn [run_jobs length forallb snd] in *. rewrite P1cb_eq.
  assert (u32 (deletable v - 1) = Z.of_nat (length jobs)) as Hd1.
  { unfold u32. rewrite Z.mod_small; lia. }
  assert (u32 g = g) as Hu by (apply Z.mod_small; lia).
  cbn [terminate set_deletable]. rewrite Ht, Hd1, Hu. destruct r; cbn [negb andb].
  2: { unfold last_job_panics. cbn [deletable set_terminate set_deletable].
       destruct jobs as [|j jobs]; [done|]. rewrite (proj2 (Z.eqb_neq _ _)) by (cbn; lia).
       cbn [mbind outcome_bind]. rewrite run_terminated1; [done|done|done|cbn in *; lia|done]. }
  set (v1 := bump g (set_deletable (Z.of_nat (length jobs)) v)).
  assert (count v1 g = k + 1) as Hc.
  { unfold count at 1. cbn [v1 groupCounts bump]. rewrite lookup_insert_eq. cbn [default].
    change (count (set_deletable _ v) g) with (count v g). rewrite Hk.
    unfold u32. cbn. rewrite Z.mod_small; lia. }
  cbn zeta. rewrite Hc. change (quorumSize v1) with (quorumSize v).
  destruct (Z.eqb_spec (k + 1) (quorumSize v)) as [He|He].
  - assert (bool_decide (av_decision (add_group v1) = DCOMMIT) &&
            negb (groupsVerified (add_group v1) =? groupTotals (add_group v1)) = false) as ->.
    { cbn. destruct H1 as [->|[-> ->]]; [done|]. apply andb_false_r. }
    cbn [mbind outcome_bind]. destruct jobs as [|j jobs].
    + cbn [length] in *. change (Z.of_nat 1) with 1. rewrite (proj2 (Z.eqb_eq (k + 1) _) He). done.
    + rewrite run_terminated1; [|done|done|cbn in *; lia|done]. cbn [mbind outcome_bind].
      rewrite (proj2 (Z.eqb_neq (k + _) _)) by (cbn [length] in *; lia). by rewrite andb_false_r.
  - unfold last_job_panics. cbn [v1 deletable bump set_deletable]. destruct jobs as [|j jobs].
    + rewrite (proj2 (Z.eqb_neq (k + _) _)) by (cbn; lia). done.
    + rewrite (proj2 (Z.eqb_neq _ _)) by (cbn; lia). cbn [mbind outcome_bind]. fold v1.
      specialize (IH (k + 1) v1). replace (k + Z.of_nat (S (length (j :: jobs))))
        with (k + 1 + Z.of_nat (length (j :: jobs))) by lia.
      change (quorumSize v) with (quorumSize v1). rewrite <- IH; try done.
      * by destruct (run_jobs P1cb v1 (j :: jobs)) as [[v2 o]|].
      * intros x Hx. apply Hj. set_solver.
      * cbn [length] in *; lia.
      * change (quorumSize v1) with (quorumSize v). lia.
Qed.

(** ** The validators *)
Section results.
Context (config : Configuration) (ser_cc : CCMsg → string) (ser_p2 : P2Msg → string)
  (ser_elect : ElectMsg → string) (Verify : Z → string → string → bool).
Hypothesis f_small : 1 ≤ cf_f config < 2^29.
Implicit Types (sigs : list Signature) (d : digest).

Definition in_group (g : Z) (sig : Signature) : Prop :=
  IsReplicaInGroup config (sig_process_id sig) (u32 g) = true.
(** The validator's own vote, when it agrees, needs no verification. *)
Definition accepted (my : Z) (matches : bool) (msg : string) (sig : Signature) : Prop :=
  mine (sig_process_id sig) my && matches = true ∨ Verify (sig_process_id sig) msg (sig_bytes sig) = true.
Definition own (my : Z) (matches : bool) (sig : Signature) : Prop :=
  mine (sig_process_id sig) my && matches = true.

Lemma sig_votes_ok g my mm msg sigs :
  (Forall (λ x, vt_ok x = true) (sig_vote config Verify g my mm msg <$> sigs) ∧
   fresh [] (sig_vote config Verify g my mm msg <$> sigs)) ↔
  Forall (in_group g) sigs ∧ NoDup (pids sigs).
Proof.
  unfold fresh. rewrite <- list_fmap_compose, Forall_fmap. unfold pids. split.
  - intros (H1 & H2 & _). done.
  - intros [H1 H2]. split; [done|]. split; [done|]. set_solver.
Qed.
Lemma sig_votes_good g my mm msg sigs :
  Forall good (sig_vote config Verify g my mm msg <$> sigs) ↔ Forall (accepted my mm msg) sigs.
Proof. by rewrite Forall_fmap. Qed.
Lemma sig_votes_own g my mm msg sigs :
  Forall (λ x, vt_skip x = true) (sig_vote config Verify g my mm msg <$> sigs) ↔ Forall (own my mm) sigs.
Proof. by rewrite Forall_fmap. Qed.
Lemma sig_votes_mine g my mm msg sigs x :
  x ∈ (sig_vote config Verify g my mm msg <$> sigs) → vt_skip x = true → vt_pid x = my.
Proof.
  intros (sig & -> & _)%list_elem_of_fmap. cbn. unfold mine.
  intros [[?%Z.eqb_eq _]%andb_true_iff _]%andb_true_iff. done.
Qed.

#[local] Instance in_group_dec g sig : Decision (in_group g sig).
Proof. unfold in_group. apply _. Defined.
#[local] Instance accepted_dec my mm msg sig : Decision (accepted my mm msg sig).
Proof. unfold accepted. apply _. Defined.
#[local] Instance own_dec my mm sig : Decision (own my mm sig).
Proof. unfold own. apply _. Defined.

Lemma decide_ext' {A} (P Q : Prop) `{Decision P, Decision Q} (x y : A) :
  (P ↔ Q) → (if decide P then x else y) = (if decide Q then x else y).
Proof. intros. by apply decide_ext. Qed.

Lemma sig_votes_exact g my mm msg Q dec sigs order :
  0 ≤ g < 2^32 → 1 < Q < 2^32 → Z.of_nat (length sigs) < 2^32 →
  order ≡ₚ jobs_of (collect g (asyncVerification_new Q 1 dec) [] []
                      (sig_vote config Verify g my mm msg <$> sigs)) →
  mcb_calls P2cb (collect g (asyncVerification_new Q 1 dec) [] []
                    (sig_vote config Verify g my mm msg <$> sigs)) order =
    if decide (Forall (in_group g) sigs ∧ NoDup (pids sigs)) then
      if decide (Forall (own my mm) sigs) then Done []
      else if decide (Forall (accepted my mm msg) sigs ∧ Z.of_nat (length sigs) = Q) then Done [true]
      else Panic
    else Done [false].
Proof.
  intros Hg HQ Hl Hp. rewrite (group_votes_exact my); [|done|done|by rewrite length_fmap| |done].
  2: { intros x. apply sig_votes_mine. }
  rewrite (decide_ext' _ _ _ _ (sig_votes_ok g my mm msg sigs)).
  destruct (decide (_ ∧ NoDup _)); [|done].
  rewrite (decide_ext' _ _ _ _ (sig_votes_own g my mm msg sigs)).
  destruct (decide (Forall (own _ _) _)); [done|]. apply decide_ext'.
  by rewrite sig_votes_good, length_fmap.
Qed.


(** *** Elections: the sequential and the parallel check *)

Lemma elect_sigs_exact g my mm msg Q rv n sigs :
  sigs ≠ [] → 0 ≤ n → n + Z.of_nat (length sigs) = Q → Q < 2^32 →
  elect_sigs config Verify g my mm msg Q rv n sigs = true ↔
  Forall (in_group g) sigs ∧ (NoDup (pids sigs) ∧ ∀ p, p ∈ pids sigs → p ∉ rv) ∧
  Forall (accepted my mm msg) sigs.
Proof.
  revert rv n. induction sigs as [|sig sigs IH]; intros rv n Hne Hn HQ Hlt; [done|].
  cbn [elect_sigs pids fmap list_fmap length] in *. rewrite !Forall_cons. unfold in_group at 1, accepted at 1.
  fold (pids sigs). destruct (IsReplicaInGroup _ _ _) eqn:Hg; cbn [negb]; [|naive_solver].
  case_bool_decide as Hin.
  { split; [done|]. intros (_ & [_ Hf] & _). by destruct (Hf (sig_process_id sig) ltac:(by left)). }
  unfold mine. destruct (_ && mm) eqn:Hs; cbn [negb andb]; [|destruct (Verify _ _ _) eqn:Hv; cbn [negb]].
  3: { naive_solver. }
  all: assert (u32 (n + 1) = n + 1) as Hu by (apply Z.mod_small; lia); rewrite Hu;
    destruct (Z.eqb_spec (n + 1) Q) as [He|He].
  1,3: (destruct sigs; [|cbn in *; lia]); split; [|done]; intros _;
    (split; [by split; [|constructor]|]); (split; [|by split; [auto|constructor]]);
    (split; [apply NoDup_singleton|]); intros p Hp; rewrite list_elem_of_singleton in Hp; by subst.
  all: rewrite IH by first [lia|intros ->; cbn in *; lia]; rewrite NoDup_cons; split;
    [intros (H1 & [H2 H3] & H4); (split; [done|]); (split; [|auto]); split;
       [split; [intros Hc; by apply (H3 _ Hc); left|done]
       |intros p [->|Hp]%elem_of_cons; [done|]; intros Hr; apply (H3 p Hp); by right]
    |intros ([_ H1] & [[H2 H2'] H3] & [_ H4]); (split; [done|]); (split; [|done]); split; [done|];
       intros p Hp [->|Hr]%elem_of_cons; [done|]; apply (H3 p); [by right|done]].
Qed.

(** For a decision with exactly [2 f + 1] signatures the parallel check
    and the sequential one agree: whatever the order of the jobs, the callback
    is called exactly once with [true] if and only if [ValidateFBDecision]
    accepts. *)
Theorem async_decision_agrees dec view groups d logGrp sigs my myDec l order :
  GetLogGroup groups d = Done logGrp → 0 ≤ logGrp < 2^32 →
  Z.of_nat (length sigs) = 2 * cf_f config + 1 →
  asyncValidateFBDecision config ser_elect Verify dec view groups d sigs my myDec = Done l →
  order ≡ₚ jobs_of l →
  mcb_calls asyncValidateP2RepliesCallback l order = Done [true] ↔
  ValidateFBDecision config Verify ser_elect dec view groups d sigs my myDec = Done true.
Proof.
  intros Hg Hr Hl Ha Hp. unfold asyncValidateFBDecision in Ha. unfold ValidateFBDecision.
  rewrite Hg in *. cbn [mbind outcome_bind] in *. injection Ha as <-.
  rewrite u64_id by lia.
  rewrite sig_votes_exact; [|done|lia|lia|done].
  set (mm := bool_decide (dec = myDec)). set (msg := ser_elect _).
  assert (sigs ≠ []) as Hne by (intros ->; cbn in *; lia).
  assert (¬ Forall (own my mm) sigs ∨ ¬ NoDup (pids sigs)) as Hown.
  { destruct sigs as [|s1 [|s2 sigs]]; [done|cbn in *; lia|].
    destruct (decide (Forall (own my mm) (s1 :: s2 :: sigs))) as [HF|HF]; [right|by left].
    apply Forall_cons in HF as [H1 HF]. apply Forall_cons in HF as [H2 _]. unfold own, mine in *.
    rewrite !andb_true_iff, Z.eqb_eq in H1, H2. cbn. intros [Hx _]%NoDup_cons. apply Hx.
    replace (sig_process_id s1) with (sig_process_id s2) by (destruct H1 as [[-> _] _], H2 as [[-> _] _]; done).
    by left. }
  pose proof (elect_sigs_exact logGrp my mm msg (2 * cf_f config + 1) [] 0 sigs Hne ltac:(lia) ltac:(lia) ltac:(lia)) as He.
  split.
  - intros Hd. destruct (decide _) as [[H1 H2]|]; [|done].
    destruct (decide _); [done|]. destruct (decide _) as [[H3 H4]|]; [|done].
    f_equal. apply He. split; [done|]. split; [split; [done|set_solver]|done].
  - intros [= H]. apply He in H as (H1 & [H2 _] & H3).
    rewrite decide_True by done. rewrite decide_False by tauto. by rewrite decide_True by (split; [done|lia]).
Qed.
End results.

(** *** Phase-1 certificates *)
Section p1_results.
Context (config : Configuration) (ser_cc : CCMsg → string) (Verify : Z → string → string → bool).
Implicit Types (sigs : list Signature) (d : digest).

Definition verified (msg : string) (sig : Signature) : Prop :=
  Verify (sig_process_id sig) msg (sig_bytes sig) = true.
#[local] Instance verified_dec msg sig : Decision (verified msg sig).
Proof. unfold verified. apply _. Defined.

(** The jobs of a validator that takes no part ([myProcessId] is [-1]). *)
Definition p1_jobs (g : Z) (msg : string) sigs : list (Z * bool) :=
  (λ sig, (g, Verify (sig_process_id sig) msg (sig_bytes sig))) <$> sigs.

Lemma p1_collect_outsider g mm msg v rv jobs sigs :
  Forall (in_group config g) sigs → NoDup (pids sigs) → (∀ p, p ∈ pids sigs → p ∉ rv) →
  p1_collect config Verify g (-1) mm msg v rv jobs sigs = Done (inr (v, jobs ++ p1_jobs g msg sigs)).
Proof.
  revert rv jobs. induction sigs as [|sig sigs IH]; intros rv jobs HF Hnd Hrv.
  { cbn. by rewrite app_nil_r. }
  apply Forall_cons in HF as [Hg HF]. cbn [pids fmap list_fmap] in *. fold (pids sigs) in *.
  apply NoDup_cons in Hnd as [Hn Hnd]. cbn [p1_collect]. unfold in_group in Hg. rewrite Hg.
  rewrite (bool_decide_eq_false_2 (sig_process_id sig ∈ rv)) by (apply Hrv; by left). cbn [uw_assert mbind outcome_bind negb].
  unfold mine. rewrite andb_false_r. cbn [andb]. rewrite IH; [|done|done|].
  - by rewrite <- app_assoc.
  - intros p Hp [->|Hr]%elem_of_cons; [done|]. by apply (Hrv p); [right|].
Qed.

Lemma p1_jobs_verified g msg sigs : forallb snd (p1_jobs g msg sigs) = true ↔ Forall (verified msg) sigs.
Proof.
  unfold p1_jobs, verified. induction sigs as [|sig sigs IH]; [by split; [constructor|]|].
  cbn. by rewrite andb_true_iff, Forall_cons, <- IH.
Qed.

(** One group of signatures, whatever the involved groups. *)
Lemma p1_one_group dec fast groups d g sigs r l order :
  (dec = DABORT ∨ length groups = 1%nat) → 0 ≤ g < 2^32 → 0 < p1_quorum config dec fast →
  Forall (in_group config g) sigs → NoDup (pids sigs) → sigs ≠ [] → Z.of_nat (length sigs) < 2^32 →
  asyncValidateP1Replies config ser_cc Verify dec fast groups d [(g, sigs)] (-1) r = Done l →
  order ≡ₚ jobs_of l →
  mcb_calls P1cb l order =
    if decide (Forall (verified (ser_cc (mkCCMsg (p1_vote dec) d g))) sigs ∧
               Z.of_nat (length sigs) = p1_quorum config dec fast) then Done [true] else Panic.
Proof.
  intros Hone Hg HQ HF Hnd Hne Hl Ha Hp. unfold asyncValidateP1Replies in Ha. cbn [p1_collect_groups] in Ha.
  rewrite p1_collect_outsider in Ha; [|done|done|set_solver]. cbn [mbind outcome_bind app] in Ha.
  set (msg := ser_cc _) in *. set (Q := p1_quorum config dec fast) in *.
  set (v0 := asyncVerification_new Q (Z.of_nat (length groups)) dec) in *.
  assert (l = Dispatched (set_deletable (u32 (Z.of_nat (length (p1_jobs g msg sigs)))) v0) (p1_jobs g msg sigs))
    as ->.
  { destruct dec; [|by injection Ha as <-]. by injection Ha as <-. }
  clear Ha. cbn [jobs_of mcb_calls] in *.
  assert (length order = length sigs) as Hlo by (rewrite (Permutation_length Hp); apply length_fmap).
  assert (0 ≤ Q < 2^32) as HQ2 by (apply Z.mod_pos_bound; lia).
  assert (quorumSize v0 = Q) as Hq by (apply Z.mod_small; lia).
  assert (length (p1_jobs g msg sigs) = length sigs) as Hlj by apply length_fmap.
  rewrite (run_p1_exact g 0).
  - rewrite (forallb_perm snd _ _ Hp), Hlo. change (quorumSize (set_deletable _ v0)) with (quorumSize v0).
    rewrite Hq, Z.add_0_l. destruct (decide _) as [[H1 H2]|Hn].
    + by rewrite (proj2 (p1_jobs_verified g msg sigs) H1), H2, Z.eqb_refl.
    + destruct (forallb snd _) eqn:Hf; [|done]. apply p1_jobs_verified in Hf.
      rewrite (proj2 (Z.eqb_neq _ _)); [done|naive_solver].
  - done.
  - destruct Hone as [->|He]; [by left|]. right. cbn. by rewrite He.
  - intros j Hj. rewrite Hp in Hj. apply list_elem_of_fmap in Hj as (? & -> & _). done.
  - done.
  - cbn [deletable set_deletable]. unfold u32. rewrite Hlj, Hlo, Z.mod_small; lia.
  - lia.
  - done.
  - change (quorumSize (set_deletable _ v0)) with (quorumSize v0). lia.
  - change (quorumSize (set_deletable _ v0)) with (quorumSize v0). lia.
  - intros ->. destruct sigs; [done|]. cbn in Hlo. lia.
Qed.

(** The parallel validation of a COMMIT certificate counts groups instead of
    comparing them: a full quorum of another group is accepted, in every
    order of the jobs, for a transaction that involves only [g0], while the
    sequential validation rejects the same certificate. *)
Theorem async_commit_ignores_involved_groups fast d g0 g sigs r l order :
  int32 g0 ≠ int32 g → 0 ≤ g < 2^32 → 0 < p1_quorum config DCOMMIT fast →
  Forall (in_group config g) sigs → NoDup (pids sigs) →
  Z.of_nat (length sigs) = p1_quorum config DCOMMIT fast →
  Forall (verified (ser_cc (mkCCMsg COMMIT d g))) sigs →
  asyncValidateP1Replies config ser_cc Verify DCOMMIT fast [g0] d [(g, sigs)] (-1) r = Done l →
  order ≡ₚ jobs_of l →
  mcb_calls asyncValidateP1RepliesCallback l order = Done [true] ∧
  ValidateP1Replies config ser_cc Verify DCOMMIT fast [g0] d [(g, sigs)] (-1) r = false.
Proof.
  intros Hne Hg HQ HF Hnd Hl Hv Ha Hp.
  assert (p1_quorum config DCOMMIT fast < 2^32) as HQ2 by (apply Z.mod_pos_bound; lia).
  split.
  - rewrite (p1_one_group DCOMMIT fast [g0] d g sigs r); try done.
    + by rewrite decide_True.
    + by right.
    + intros ->. cbn in *. lia.
    + lia.
  - unfold ValidateP1Replies. cbn [p1_groups]. destruct (p1_sigs _ _ _ _ _ _ _ _ _) as [n|]; [|done].
    destruct (negb _); [done|]. cbn. rewrite bool_decide_eq_false_2; [done|]. set_solver.
Qed.

(** A replica that validates an ABORT certificate in parallel accepts it only
    with exactly the quorum of valid signatures; one signature too many, or one
    that does not verify, makes the replica panic in every order of the jobs,
    although the sequential validation just rejects. *)
Theorem async_abort_panics_or_accepts fast groups d g sigs r l order :
  0 ≤ g < 2^32 → 0 < p1_quorum config DABORT fast →
  Forall (in_group config g) sigs → NoDup (pids sigs) → sigs ≠ [] → Z.of_nat (length sigs) < 2^32 →
  asyncValidateP1Replies config ser_cc Verify DABORT fast groups d [(g, sigs)] (-1) r = Done l →
  order ≡ₚ jobs_of l →
  (mcb_calls asyncValidateP1RepliesCallback l order = Done [true] ↔
     Forall (verified (ser_cc (mkCCMsg ABSTAIN d g))) sigs ∧
     Z.of_nat (length sigs) = p1_quorum config DABORT fast) ∧
  (mcb_calls asyncValidateP1RepliesCallback l order = Done [true] ∨
   mcb_calls asyncValidateP1RepliesCallback l order = Panic).
Proof.
  intros Hg HQ HF Hnd Hne Hl Ha Hp.
  rewrite (p1_one_group DABORT fast groups d g sigs r); [|by left|done..].
  cbn [p1_vote]. destruct (decide _); split; try tauto; done.
Qed.
End p1_results.

(** ** Concrete runs: two groups of six replicas, one faulty *)
Module AsyncVerifyExample.
Definition hosts : list string := ["a"; "b"; "c"; "d"; "e"; "f"].
Definition config : Configuration := Configuration_new 6 1 {[0 := hosts; 1 := hosts]}.
Definition ser_cc (m : CCMsg) : string := match cc_ccr m with COMMIT => "c" | _ => "a" end.
Definition ser_p2 (m : P2Msg) : string := match p2_decision m with DCOMMIT => "c" | DABORT => "a" end.
Definition ser_elect (m : ElectMsg) : string := match el_decision m with DCOMMIT => "c" | DABORT => "a" end.
Definition Verify (_ : Z) (_ s : string) : bool := bool_decide (s = "ok").
Definition sigs (l : list Z) : list Signature := (λ p, mkSig p "ok") <$> l.
(** The jobs of a launched validation, in reverse order. *)
Definition backwards (l : launched) : list (Z * bool) := reverse (jobs_of l).
Definition launch (o : outcome launched) : launched := match o with Done l => l | Panic => Dropped end.

Lemma backwards_perm l : backwards l ≡ₚ jobs_of l.
Proof. apply reverse_Permutation. Qed.


Lemma async_decision_agrees_witness :
  let l := launch (asyncValidateFBDecision config ser_elect Verify DABORT 1 [0] "x" (sigs [0; 1; 2]) 5 DCOMMIT) in
  mcb_calls asyncValidateP2RepliesCallback l (backwards l) = Done [true].
Proof.
  cbn zeta. apply (async_decision_agrees config ser_elect Verify ltac:(cbn; lia) DABORT 1 [0] "x" 0 (sigs [0; 1; 2]) 5
    DCOMMIT); [reflexivity|lia|reflexivity|vm_compute; reflexivity|apply backwards_perm|vm_compute; reflexivity].
Defined.

(** The transaction involves group 0; group 1 signs. *)
Lemma async_commit_ignores_involved_groups_witness :
  let l := launch (asyncValidateP1Replies config ser_cc Verify DCOMMIT true [0] "x" [(1, sigs [6; 7; 8; 9; 10; 11])] (-1) ABORT) in
  mcb_calls asyncValidateP1RepliesCallback l (backwards l) = Done [true] ∧
  ValidateP1Replies config ser_cc Verify DCOMMIT true [0] "x" [(1, sigs [6; 7; 8; 9; 10; 11])] (-1) ABORT = false.
Proof.
  cbn zeta. apply (async_commit_ignores_involved_groups config ser_cc Verify true "x" 0 1 (sigs [6; 7; 8; 9; 10; 11]));
    [done|lia|vm_compute; reflexivity|repeat constructor
    |by apply (bool_decide_unpack _); vm_compute|reflexivity|repeat constructor|vm_compute; reflexivity|apply backwards_perm].
Defined.

(** Three abstentions, when two are enough. *)
Lemma async_abort_panics_or_accepts_witness :
  let l := launch (asyncValidateP1Replies config ser_cc Verify DABORT false [0] "x" [(0, sigs [0; 1; 2])] (-1) ABORT) in
  mcb_calls asyncValidateP1RepliesCallback l (backwards l) = Panic.
Proof.
  cbn zeta. edestruct (async_abort_panics_or_accepts config ser_cc Verify false [0] "x" 0 (sigs [0; 1; 2]) ABORT)
    as [Hiff [Ht|Hp]]; [lia|vm_compute; reflexivity|repeat constructor
    |by apply (bool_decide_unpack _); vm_compute|done|cbn; lia|vm_compute; reflexivity|apply backwards_perm| |exact Hp].
  apply Hiff in Ht as [_ Hl]. vm_compute in Hl. discriminate Hl.
Defined.
End AsyncVerifyExample.
