(* ===== verification/Phase2.v ===== *)
(** * Phase 2 and writeback

    src/src/store/sintrstore/server.cc and servertools.cc: the handlers of
    [Phase2] (log a decision) and [Writeback] (commit or abort), the
    validation of their certificates and the callbacks.  Batched verification
    is off.  The transaction digest is a hash, a parameter. *)
From S2P Require Import Prelude OrderedSeq CppString Timestamp VersionStore Policy PolicyParse ServerState ServerTxn Quorum AsyncVerify.

(** The callbacks bound to a validation. *)
Inductive p2call :=
| CbPhase2 (remote : Z) (msg : Phase2) (d : digest)
| CbWriteback (msg : Writeback) (d : digest) (p : ptr).
Notation p2pending := (list (p2call * validation)).

Section phase2.
Context `{E : Env}.
Variable config : Configuration.
Variable ser_cc : CCMsg → string.
Variable ser_p2 : P2Msg → string.
Variable Verify : Z → string → string → bool.
Variable TransactionDigest : Transaction → digest.
Implicit Types (s : server) (d : digest).

(** Messages received by pointer belong to the handler. *)
Definition owns_message : bool := multiThreading || (mainThreadDispatching && negb dispatchMessageReceive).

(** [LookupP1Decision] and [LookupP2Decision]: this replica's id and result,
    when it has one. *)
Definition my_p1 s d : Z * Result :=
  match LookupP1Decision s d with Some r => (replica_id, r) | None => (-1, COMMIT) end.
Definition my_p2 s d : Z * CommitDecision :=
  match LookupP2Decision s d with Some x => (replica_id, x) | None => (-1, DCOMMIT) end.

Definition SendPhase2Reply s (reqId : Z) d (decision : CommitDecision) (view remote : Z) : server :=
  emit (Phase2Reply reqId d (mkP2Part decision view) remote) s.

(** The original client subscribes to later decisions. *)
Definition set_original (reqId remote : Z) (m : P2MetaData) : P2MetaData :=
  mkP2Meta (p2m_current_view m) (p2m_decision_view m) (p2m_hasP2 m) (p2m_p2Decision m) (Some (reqId, remote)).
Definition log_decision (decision : CommitDecision) (m : P2MetaData) : P2MetaData :=
  if p2m_hasP2 m then m
  else mkP2Meta (p2m_current_view m) (p2m_decision_view m) true decision (p2m_original m).

Definition HandlePhase2CB s (remote : Z) (msg : Phase2) d (valid : bool) : outcome server :=
  _ ← uw_assert (valid || p2_simulated_equiv msg);
  let s := touch_p2 s d in
  let m := log_decision (p2m_decision msg) (p2_meta s d) in
  let s := upd_p2MetaDatas (insert d (set_original (p2_req_id msg) remote m)) s in
  Done (SendPhase2Reply s (p2_req_id msg) d (p2m_p2Decision m)
          (if validateProofs then p2m_decision_view m else 0) remote).

(** Without threads a valid certificate ends the processing. *)
Definition ManagePhase2Validation s (remote : Z) (msg : Phase2) d (txn : Transaction)
    (myProcessId : Z) (myResult : Result) : outcome (server * p2pending) :=
  if multiThreading then
    l ← asyncValidateP1Replies config ser_cc Verify (p2m_decision msg) false (involved_groups txn) d
          (p2_grouped_sigs msg) myProcessId myResult;
    Done (s, [(CbPhase2 remote msg d, ByP1Jobs l)])
  else if negb (ValidateP1Replies config ser_cc Verify (p2m_decision msg) false (involved_groups txn) d
                  (p2_grouped_sigs msg) myProcessId myResult)
  then s ← HandlePhase2CB s remote msg d false; Done (s, [])
  else Done (s, []).

(** The transaction of a message: [inl] the object, [inr] the state in which
    handling ends here. *)
Definition phase2_txn s (remote : Z) (msg : Phase2) d : outcome (ptr + server) :=
  match p2_digest msg with
  | None => match p2_txn msg with Some p => Done (inl p) | None => Panic end
  | Some _ =>
      match ongoing s !! d with
      | Some p => Done (inl p)
      | None =>
          match p2_txn msg with
          | Some p => t ← deref s p;
                      Done (if bool_decide (d = TransactionDigest t) then inl p else inr s)
          | None => Done (inr (match ooMessages s !! d with
                               | Some _ => s
                               | None => upd_ooMessages (insert d (OoP2 remote msg)) s
                               end))
          end
      end
  end.

Definition HandlePhase2 s (remote : Z) (msg : Phase2) : outcome (server * p2pending) :=
  od ← (if validateProofs then
          match p2_digest msg, p2_txn msg with
          | Some d, _ => Done (Some d)
          | None, Some p => t ← deref s p; Done (Some (TransactionDigest t))
          | None, None => Done None
          end
        else Done (Some ""));
  match od with
  | None => Done (s, [])
  | Some d =>
      let s := touch_p2 s d in
      let m := p2_meta s d in
      if p2m_hasP2 m then
        let s := upd_p2MetaDatas (insert d (set_original (p2_req_id msg) remote m)) s in
        Done (SendPhase2Reply s (p2_req_id msg) d (p2m_p2Decision m)
                (if validateProofs then p2m_decision_view m else 0) remote, [])
      else if is_committed s d then Done (SendPhase2Reply s (p2_req_id msg) d DCOMMIT 0 remote, [])
      else if is_aborted s d then Done (SendPhase2Reply s (p2_req_id msg) d DABORT 0 remote, [])
      else
        let '(myProcessId, myResult) := if p2_simulated_equiv msg then (-1, COMMIT) else my_p1 s d in
        if negb (validateProofs && signedMessages)
        then Done (SendPhase2Reply s (p2_req_id msg) d (p2m_decision msg) 0 remote, [])
        else
          r ← phase2_txn s remote msg d;
          match r with
          | inr s => Done (s, [])
          | inl p => txn ← deref s p; ManagePhase2Validation s remote msg d txn myProcessId myResult
          end
  end.

(** ** Writeback *)

Definition set_wb_txn (p : ptr) (wb : Writeback) : Writeback :=
  mkWb (wb_decision wb) (wb_txn_digest wb) (Some p) (wb_reply wb) (wb_p2_view wb).

(** The certificate given to [Commit]; without phase-1 signatures the view is
    that of the message, [0] when there is none. *)
Definition commit_args (msg : Writeback) : GroupedSignatures * bool * Z :=
  match wb_reply msg with
  | WbP1 g => (g, true, 2^64 - 1)
  | WbP2 g => (g, false, default 0 (wb_p2_view msg))
  | _ => ([], false, 0)
  end.

Definition WritebackCallback s (msg : Writeback) d (p : ptr) (valid : bool) : outcome server :=
  _ ← uw_assert valid;
  if is_committed s d || is_aborted s d then Done s
  else match wb_decision msg with
  | DCOMMIT => let '(g, p1Sigs, view) := commit_args msg in Commit s d p g p1Sigs view
  | DABORT =>
      let s := upd_writebackMessages
        (λ m, match m !! d with Some _ => m | None => <[d := set_wb_txn p msg]> m end) s in
      Abort s d p
  end.

Definition ManageWritebackValidation s (msg : Writeback) d (p : ptr) : outcome (server * p2pending) :=
  txn ← deref s p;
  let pend v := Done (s, [(CbWriteback msg d p, v)]) in
  let finish valid := s ← WritebackCallback s msg d p valid; Done (s, []) in
  if negb validateProofs then finish true
  else match signedMessages, wb_reply msg with
  | true, WbP1 sigs =>
      let '(my, myResult) := my_p1 s d in
      if multiThreading then
        l ← asyncValidateP1Replies config ser_cc Verify (wb_decision msg) true (involved_groups txn) d sigs my myResult;
        pend (ByP1Jobs l)
      else finish (ValidateP1Replies config ser_cc Verify (wb_decision msg) true (involved_groups txn) d sigs my myResult)
  | true, WbP2 sigs =>
      match wb_p2_view msg with
      | None => Done (s, [])
      | Some view =>
          let '(my, myDecision) := my_p2 s d in
          if multiThreading then
            l ← asyncValidateP2Replies config ser_p2 Verify (wb_decision msg) view (involved_groups txn) d sigs my
                  myDecision;
            pend (ByP2Jobs l)
          else
            valid ← ValidateP2Replies config ser_p2 Verify (wb_decision msg) view (involved_groups txn) d sigs my
                      myDecision;
            finish valid
      end
  | _, WbConflict conflict =>
      if bool_decide (wb_decision msg = DABORT) then
        let digest0 := TransactionDigest (cp_txn conflict) in
        if multiThreading then
          v ← asyncValidateCommittedConflict config ser_cc ser_p2 Verify policyIdFunction conflict digest0 txn
                signedMessages true;
          pend v
        else
          valid ← ValidateCommittedConflict config ser_cc ser_p2 Verify policyIdFunction conflict digest0 txn
                    signedMessages;
          finish valid
      else if signedMessages then (if multiThreading then Panic else finish false)
      else finish true
  | true, WbNone => if multiThreading then Panic else finish false
  | false, _ => finish true
  end.

(** A replica chosen for the inconsistency experiment holds the first commit
    of a transaction back, until it has been synchronised. *)
Definition drops_commit s (msg : Writeback) d (txn : Transaction) : bool * server :=
  let target := client_id txn `mod` config_n in
  let here := (target `mod` config_n =? idx) || ((target + 1) `mod` config_n =? idx) in
  if simulate_inconsistency && here then
    match dropped_c s !! d with
    | Some _ => (false, s)
    | None =>
        if negb (bool_decide (d ∈ supplied_sync s)) && bool_decide (wb_decision msg = DCOMMIT)
        then (true, upd_dropped_c (insert d (Some msg)) s)
        else (false, upd_dropped_c (insert d None) s)
    end
  else (false, s).

Definition finished s d : bool := is_committed s d || is_aborted s d.
Definition clean_again s d : outcome (server * p2pending) :=
  s ← (if owns_message then Clean s d false false else Done s); Done (s, []).

(** The transaction of a writeback that names a digest; a message without it
    waits for the transaction. *)
Definition writeback_txn s (remote : Z) (msg : Writeback) d : outcome (ptr + server) :=
  match ongoing s !! d with
  | Some p => Done (inl p)
  | None =>
      match wb_txn msg with
      | Some p => t ← deref s p; Done (if bool_decide (d = TransactionDigest t) then inl p else inr s)
      | None =>
          _ ← uw_assert (negb simulate_inconsistency);
          Done (inr (match ooMessages s !! d with
                     | Some (OoWb _ _) => s
                     | Some (OoP2 first _) => upd_ooMessages (insert d (OoWb first msg)) s
                     | None => upd_ooMessages (insert d (OoWb remote msg)) s
                     end))
      end
  end.

Definition HandleWriteback s (remote : Z) (msg : Writeback) : outcome (server * p2pending) :=
  let validate s d p :=
    txn ← deref s p;
    let '(dropped, s) := drops_commit s msg d txn in
    if dropped : bool then Done (s, []) else ManageWritebackValidation s msg d p in
  match wb_txn_digest msg with
  | Some d =>
      if finished s d then clean_again s d
      else
        r ← writeback_txn s remote msg d;
        match r with inr s => Done (s, []) | inl p => validate s d p end
  | None =>
      match wb_txn msg with
      | None => Panic
      | Some p =>
          t ← deref s p;
          let d := TransactionDigest t in
          if finished s d then clean_again s d else validate s d p
      end
  end.

Definition run_p2call s (c : p2call) (valid : bool) : outcome server :=
  match c with
  | CbPhase2 remote msg d => HandlePhase2CB s remote msg d valid
  | CbWriteback msg d p => WritebackCallback s msg d p valid
  end.
End phase2.
