(* ===== verification/Phase2Safety.v ===== *)
(** * Phase 2 and writebacks: what is needed to finish a transaction

    A replica that checks proofs commits or aborts a transaction on a
    writeback only with a valid certificate; an invalid one stops it.  Without
    the thread pool phase 2 never logs anything. *)
From S2P Require Import Prelude OrderedSeq CppString Timestamp VersionStore Policy PolicyParse ServerState ServerTxn MVTSO MVTSOSafety DemoEnv Quorum AsyncVerify Phase2.

Section safety.
Context `{E : Env}.
Variable config : Configuration.
Variable ser_cc : CCMsg → string.
Variable ser_p2 : P2Msg → string.
Variable Verify : Z → string → string → bool.
Variable TransactionDigest : Transaction → digest.
Implicit Types (s : server) (d : digest).

Definition same_end s s' : Prop := committed s' = committed s ∧ aborted s' = aborted s.
#[local] Instance same_end_preorder : PreOrder same_end.
Proof. split; [done|]. intros s1 s2 s3 [A1 B1] [A2 B2]. split; congruence. Qed.
Lemma same_end_foldl {A} (f : server → A → server) l s :
  (∀ s a, same_end s (f s a)) → same_end s (foldl f s l).
Proof. intros Hf. revert s. induction l as [|a l IH]; intros s; [done|]. cbn. etrans; [apply Hf|apply IH]. Qed.

Lemma clean_prepared_same_end s d a h s' : clean_prepared s d a h = Done s' → same_end s s'.
Proof.
  unfold clean_prepared. destruct (prepared s !! d) as [[ts p]|]; [|by intros [= ->]].
  intros (txn & _ & H)%bind_Done. simplify_eq.
  assert (same_end s (foldl (clean_write (policy_type txn) ts)
    (foldl (λ s read, remove_prepared_read (r_key read) p s) (foldl (clean_read p) s (read_set txn))
       (implicit_policy_reads txn)) (write_set txn))) as Hs.
  { trans (foldl (clean_read p) s (read_set txn)).
    - apply same_end_foldl. intros s1 x. unfold clean_read. by repeat case_match.
    - etrans; [|apply same_end_foldl; intros s1 x; unfold clean_write; by case_match]. by apply same_end_foldl. }
  etrans; [exact Hs|]. by destruct (a || h).
Qed.
(** A [Clean] that is not a hard one finishes nothing. *)
Lemma Clean_same_end s d a s' : Clean s d a false = Done s' → same_end s s'.
Proof.
  unfold Clean. rewrite andb_false_r. intros (s1 & Hc & [= <-])%bind_Done. apply clean_prepared_same_end in Hc.
  assert (same_end s s1) as H1 by (etrans; [|exact Hc]; by case_match). etrans; [exact H1|done].
Qed.

(** What the end of a commit or an abort calls finishes nothing either. *)
Lemma WakeAll_same_end s d r c s' : WakeAllInterestedFallbacks s d r c = Done s' → same_end s s'.
Proof.
  unfold WakeAllInterestedFallbacks. destruct (interestedClients s !! d) as [cl|]; [|by intros [= ->]].
  intros ([s1 fw] & Hf & Hw)%bind_Done. assert (same_end s s1) as H1.
  { unfold ForwardWritebackMulti in Hf. apply bind_Done in Hf as ([wb|] & _ & [= <- <-]); [|done].
    etrans; [apply (same_end_foldl (λ s c, emit (ForwardWb 0 d wb c.2) s) (map_to_list cl)); done|done]. }
  destruct fw; [by simplify_eq|]. apply bind_Done in Hw as (p1 & _ & [= <-]). exact H1.
Qed.
Lemma wake_dependent_same_end d s x s' : wake_dependent d s x = Done s' → same_end s s'.
Proof.
  unfold wake_dependent. destruct (waitingDependencies s !! x) as [w|]; [|by intros [= ->]].
  case_bool_decide as Hdeps; [|by intros [= <-]]. intros (r & Hr & H)%bind_Done. apply bind_Done in H as (_ & _ & H).
  apply bind_Done in H as ([s2 b] & Hb & H). apply bind_Done in H as (s3 & Hw & [= <-]). apply WakeAll_same_end in Hw.
  unfold BufferP1Result in Hb. rewrite bool_decide_eq_false_2 in Hb by (by apply CheckDependencies_result in Hr as [-> | ->]).
  destruct (buffer_entry _ _ _ _ _ _ _ _ _) as [m b']. injection Hb as <- <-.
  etrans; [|exact Hw]. by case_match.
Qed.
Lemma CheckDependents_same_end s d s' : CheckDependents s d = Done s' → same_end s s'.
Proof.
  unfold CheckDependents. destruct (dependents s !! d); [|by intros [= ->]]. intros (s1 & H & [= <-])%bind_Done.
  revert H. apply (foldO_inv (same_end s)); [|done]. intros x s2 s3 _ H2 H3. etrans; [exact H2|by eapply wake_dependent_same_end].
Qed.
Lemma ClearRTS_same_end s l ts : same_end s (ClearRTS s l ts).
Proof. unfold ClearRTS. repeat case_match; try done. by apply same_end_foldl. Qed.
Lemma commit_writes_same_end txn d ts pr s v ws s' ov : commit_writes txn d ts pr s v ws = Done (s', ov) → same_end s s'.
Proof.
  revert s v. induction ws as [|w ws IH]; intros s v; cbn; [by intros [= <- _]|]. destruct (w_is_table_col_version w); [apply IH|].
  destruct (policy_type txn); [|by intros [= <- _]]. destruct (negb _); [apply IH|]. intros (v' & _ & H)%bind_Done.
  apply bind_Done in H as (_ & _ & H). apply bind_Done in H as (_ & _ & H). etrans; [|by eapply IH]. by case_match.
Qed.
Lemma CommitToStore_same_end s pr p d ts v s' : CommitToStore s pr p d ts v = Done s' → same_end s s'.
Proof.
  unfold CommitToStore, UpdateCommittedReads. intros (s1 & H1 & H)%bind_Done.
  apply bind_Done in H1 as ([[s0 r] [[rs ds] ps]] & H0 & H1). apply bind_Done in H1 as (t0 & _ & [= <-]).
  apply bind_Done in H as (txn & _ & H). apply bind_Done in H as ([s2 ov] & H2 & H). apply commit_writes_same_end in H2.
  assert (same_end s s0) as E0 by (unfold mergeTxReadSets in H0; inv_outcome; repeat case_match; by inv_outcome).
  etrans; [exact E0|]. etrans; [|etrans; [exact H2|destruct ov; injection H as <-; [destruct useSemanticCC; done|done]]].
  etrans; [|apply same_end_foldl; done]. apply same_end_foldl. intros s2' a. cbn. by destruct (_ || _).
Qed.

(** The certificate of a writeback, as the sequential validators judge it. *)
Definition wb_valid s (msg : Writeback) d (txn : Transaction) : Prop :=
  match wb_reply msg with
  | WbP1 sigs =>
      let '(my, myResult) := my_p1 s d in
      ValidateP1Replies config ser_cc Verify (wb_decision msg) true (involved_groups txn) d sigs my myResult = true
  | WbP2 sigs =>
      let '(my, myDecision) := my_p2 s d in
      ∃ view, wb_p2_view msg = Some view ∧
        ValidateP2Replies config ser_p2 Verify (wb_decision msg) view (involved_groups txn) d sigs my myDecision = Done true
  | WbConflict conflict => wb_decision msg = DABORT ∧
      ValidateCommittedConflict config ser_cc ser_p2 Verify policyIdFunction conflict
        (TransactionDigest (cp_txn conflict)) txn true = Done true
  | WbNone => False
  end.

(** The validation of that certificate, launched on the thread pool. *)
Definition wb_launched s (msg : Writeback) d (txn : Transaction) (v : validation) : Prop :=
  match wb_reply msg with
  | WbP1 sigs => ∃ l, v = ByP1Jobs l ∧
      asyncValidateP1Replies config ser_cc Verify (wb_decision msg) true (involved_groups txn) d sigs
        (my_p1 s d).1 (my_p1 s d).2 = Done l
  | WbP2 sigs => ∃ view l, wb_p2_view msg = Some view ∧ v = ByP2Jobs l ∧
      asyncValidateP2Replies config ser_p2 Verify (wb_decision msg) view (involved_groups txn) d sigs
        (my_p2 s d).1 (my_p2 s d).2 = Done l
  | WbConflict conflict => wb_decision msg = DABORT ∧
      asyncValidateCommittedConflict config ser_cc ser_p2 Verify policyIdFunction conflict
        (TransactionDigest (cp_txn conflict)) txn true true = Done v
  | WbNone => False
  end.

(** A decision is logged. *)
Definition has_logged s d : bool := p2m_hasP2 (p2_meta s d).
Lemma touched_hasP2 s d d' : p2m_hasP2 (p2_meta (touch_p2 s d) d') = p2m_hasP2 (p2_meta s d').
Proof.
  unfold p2_meta, touch_p2. cbn. destruct (p2MetaDatas s !! d) eqn:Hd; [done|].
  destruct (decide (d = d')) as [->|Hne]; [by rewrite lookup_insert_eq, Hd|by rewrite lookup_insert_ne].
Qed.

Hypothesis proofs : validateProofs = true.
Hypothesis signing : signedMessages = true.

Lemma WritebackCallback_only s msg d p valid s' x :
  WritebackCallback s msg d p valid = Done s' → x ≠ d → finished s' x = finished s x.
Proof.
  intros H Hx. assert (∀ s1 s2, same_end s1 s2 → finished s2 x = finished s1 x) as Hsame.
  { intros s1 s2 [Hc Ha]. unfold finished, is_committed, is_aborted. by rewrite Hc, Ha. }
  unfold WritebackCallback in H. apply bind_Done in H as (_ & _ & H). destruct (_ || _); [by injection H as <-|].
  destruct (wb_decision msg).
  - destruct (commit_args msg) as [[g b] view]. unfold Commit in H. apply bind_Done in H as (txn & _ & H).
    unfold insert_committed in H. destruct (committed s !! d); apply bind_Done in H as (_ & _ & H); [by injection H as <-|].
    set (s1 := if _ : bool then _ else upd_committed _ s) in H.
    assert (finished s1 x = finished s x) as <-.
    { unfold s1. rewrite proofs, signing. unfold finished, is_committed, is_aborted. cbn. by rewrite lookup_insert_ne. }
    apply Hsame. unfold finish_commit in H. apply bind_Done in H as (s2 & H2 & H). apply bind_Done in H as (s3 & H3 & H).
    apply bind_Done in H as (s4 & H4 & [= <-]). etrans; [by eapply CommitToStore_same_end|].
    etrans; [by eapply Clean_same_end|]. by apply CheckDependents_same_end in H4.
  - unfold Abort in H. set (s1 := upd_writebackMessages _ s) in H. apply bind_Done in H as (s2 & H2 & H).
    apply bind_Done in H as (s3 & H3 & H). apply bind_Done in H as (txn & _ & [= <-]).
    assert (finished (upd_aborted (λ y, {[d]} ∪ y) s1) x = finished s x) as <-.
    { unfold finished, is_committed, is_aborted. cbn. f_equal. apply bool_decide_ext. set_solver. }
    apply Hsame. etrans; [by eapply Clean_same_end|]. apply CheckDependents_same_end in H3. etrans; [exact H3|].
    etrans; [apply (ClearRTS_same_end (CleanDependencies s3 d) (read_set txn) (t_timestamp txn))|]. by destruct useSemanticCC.
Qed.
Lemma WritebackCallback_invalid s msg d p : WritebackCallback s msg d p false = Panic.
Proof. done. Qed.

Lemma validated_or_panics s msg d p s' Q :
  ManageWritebackValidation config ser_cc ser_p2 Verify TransactionDigest s msg d p = Done (s', Q) →
  (s' = s ∨ multiThreading = false ∧ ∃ txn, heap s !! p = Some txn ∧ wb_valid s msg d txn) ∧
  (∀ x, x ≠ d → finished s' x = finished s x).
Proof.
  intros H. split; cycle 1.
  { intros x Hx. unfold ManageWritebackValidation in H. rewrite proofs, signing in H. cbn [negb] in H. apply bind_Done in H as (txn & _ & H).
    repeat (case_match || (apply bind_Done in H as (? & ?Hb & H)) || (injection H as <- <-) || done); by eapply WritebackCallback_only. }
  revert H. unfold ManageWritebackValidation, wb_valid. intros (txn & Ht & H)%bind_Done. rewrite proofs, signing in H.
  cbn [negb] in H. unfold deref in Ht. destruct (heap s !! p) as [t|]; [|done]. simplify_eq.
  assert (∀ valid, (s ← WritebackCallback s msg d p valid; Done (s, [])) = Done (s', Q) → valid = true) as Hf.
  { intros [|] (s1 & Hw & _)%bind_Done; [done|]. by rewrite WritebackCallback_invalid in Hw. }
  assert (∀ (o : outcome launched) s1 c, (l ← o; Done (s1, [(c, ByP1Jobs l)])) = Done (s', Q) ∨
    (l ← o; Done (s1, [(c, ByP2Jobs l)])) = Done (s', Q) → s' = s1) as Hp.
  { intros o s1 c [H'|H']; apply bind_Done in H' as (l & _ & H'); by simplify_eq. }
  destruct (my_p1 s d) as [my1 r1], (my_p2 s d) as [my2 d2], (wb_reply msg) as [|sigs|sigs|conflict] eqn:Hr.
  - destruct multiThreading; [done|]. by apply Hf in H.
  - destruct multiThreading; [left; by eapply Hp; left|]. apply Hf in H. by right; split; [|exists txn].
  - destruct (wb_p2_view msg) as [view|]; [|left; by simplify_eq].
    destruct multiThreading; [left; by eapply Hp; right|]. apply bind_Done in H as (valid & Hv & H). apply Hf in H as ->.
    right; split; [done|]. exists txn. split; [done|]. by exists view.
  - case_bool_decide as Hd.
    + destruct multiThreading.
      * left. apply bind_Done in H as (v & _ & H). by simplify_eq.
      * apply bind_Done in H as (valid & Hv & H). apply Hf in H as ->. right; split; [done|]. by exists txn.
    + destruct multiThreading; [done|]. by apply Hf in H.
Qed.

Lemma drops_commit_valid s msg d txn b s' :
  drops_commit s msg d txn = (b, s') →
  same_end s s' ∧ heap s' = heap s ∧ (∀ d1 t, wb_valid s' msg d1 t ↔ wb_valid s msg d1 t) ∧
  ∀ d1 t v, wb_launched s' msg d1 t v ↔ wb_launched s msg d1 t v.
Proof. unfold drops_commit. intros H. repeat case_match; by simplify_eq. Qed.
Lemma manage_pending s msg d p s' Q c v :
  ManageWritebackValidation config ser_cc ser_p2 Verify TransactionDigest s msg d p = Done (s', Q) → (c, v) ∈ Q →
  multiThreading = true ∧ c = CbWriteback msg d p ∧ ∃ txn, heap s !! p = Some txn ∧ wb_launched s msg d txn v.
Proof.
  unfold ManageWritebackValidation, wb_launched. intros (txn & Ht & H)%bind_Done Hin. rewrite proofs, signing in H.
  cbn [negb] in H. unfold deref in Ht. destruct (heap s !! p) as [t|]; [|done]. injection Ht as ->.
  assert (∀ o : outcome server, (s ← o; Done (s, [])) = Done (s', Q) → False) as Hf.
  { intros o (s1 & _ & [= <- <-])%bind_Done. by apply elem_of_nil in Hin. }
  assert (∀ v', [(CbWriteback msg d p, v')] = Q → c = CbWriteback msg d p ∧ v = v') as Hq.
  { intros v' <-. apply list_elem_of_singleton in Hin. by injection Hin. }
  destruct (my_p1 s d) as [my1 r1], (my_p2 s d) as [my2 d2], (wb_reply msg) as [|sigs|sigs|conflict]; cbn [fst snd].
  - destruct multiThreading; [done|by apply Hf in H].
  - destruct multiThreading; [|by apply Hf in H]. apply bind_Done in H as (l & Hl & [= _ H]). apply Hq in H as [-> ->].
    eauto 8.
  - destruct (wb_p2_view msg) as [view|]; [|injection H as <- <-; by apply elem_of_nil in Hin].
    destruct multiThreading; [|by apply bind_Done in H as (? & _ & H); apply Hf in H].
    apply bind_Done in H as (l & Hl & [= _ H]). apply Hq in H as [-> ->]. split_and!; [done..|]. exists txn. split; [done|]. eauto 8.
  - case_bool_decide; [|destruct multiThreading; [done|by apply Hf in H]].
    destruct multiThreading; [|by apply bind_Done in H as (? & _ & H); apply Hf in H].
    apply bind_Done in H as (l & Hl & [= _ H]). apply Hq in H as [-> ->]. eauto 8.
Qed.

(** The digest a writeback is about. *)
Definition wb_about (msg : Writeback) d (txn : Transaction) : Prop :=
  wb_txn_digest msg = Some d ∨ wb_txn_digest msg = None ∧ d = TransactionDigest txn.

Lemma same_end_finished s s' d : same_end s s' → finished s' d = finished s d.
Proof. intros [Hc Ha]. unfold finished, is_committed, is_aborted. by rewrite Hc, Ha. Qed.
Lemma validate_spec s msg d1 p s' Q :
  (txn ← deref s p; let '(dropped, s) := drops_commit s msg d1 txn in
   if dropped : bool then Done (s, [])
   else ManageWritebackValidation config ser_cc ser_p2 Verify TransactionDigest s msg d1 p) = Done (s', Q) →
  (∀ d, finished s d = false → finished s' d = true →
     d = d1 ∧ multiThreading = false ∧ ∃ txn, heap s !! p = Some txn ∧ wb_valid s msg d1 txn) ∧
  (∀ c v, (c, v) ∈ Q → multiThreading = true ∧ c = CbWriteback msg d1 p ∧
     ∃ txn, heap s !! p = Some txn ∧ wb_launched s msg d1 txn v).
Proof.
  intros (txn & _ & H)%bind_Done. destruct (drops_commit s msg d1 txn) as [dropped s2] eqn:Hd.
  apply drops_commit_valid in Hd as (Hs & Hh & Hv & Hl). destruct dropped.
  { injection H as <- <-. split; [|by intros c v ?%elem_of_nil]. intros d Hn Hy. rewrite (same_end_finished _ _ d Hs) in Hy. congruence. }
  split.
  - intros d Hn Hy. rewrite <- (same_end_finished _ _ d Hs) in Hn. apply validated_or_panics in H as [H Hx].
    destruct (decide (d = d1)) as [->|Hne]; [|rewrite Hx in Hy by done; congruence]. split; [done|].
    destruct H as [->|[Ht (t & Ht2 & Hv2)]]; [congruence|]. split; [done|]. exists t. rewrite <- Hh. split; [done|]. by apply Hv.
  - intros c v Hin. destruct (manage_pending _ _ _ _ _ _ _ _ H Hin) as (Ht & -> & t & Ht2 & Hl2). split_and!; [done..|].
    exists t. rewrite <- Hh. split; [done|]. by apply Hl.
Qed.

(** C11: a writeback finishes nothing without a certificate.  At a replica with
    [validateProofs] and [signedMessages], let [HandleWriteback] return.  If it
    committed or aborted a transaction [d], then the replica has no worker threads
    ([multiThreading = false]), the message is about [d], and its certificate is
    valid for [d] by the sequential validators: fast phase-1 signatures, phase-2
    signatures of a view, or, for an abort, a conflicting committed transaction.
    With worker threads the handler finishes nothing itself; what it leaves pending
    is the validation of that certificate on the thread pool, for the transaction
    the message is about, with [WritebackCallback] as its callback, which, when the
    certificate turns out invalid, stops the replica, and otherwise finishes no
    other transaction. *)
Theorem writeback_needs_certificate s remote msg s' Q :
  HandleWriteback config ser_cc ser_p2 Verify TransactionDigest s remote msg = Done (s', Q) →
  (∀ d, finished s d = false → finished s' d = true →
     multiThreading = false ∧ ∃ p txn, heap s !! p = Some txn ∧ wb_about msg d txn ∧ wb_valid s msg d txn) ∧
  (∀ c v, (c, v) ∈ Q → multiThreading = true ∧ ∃ d p txn, c = CbWriteback msg d p ∧
     heap s !! p = Some txn ∧ wb_about msg d txn ∧ wb_launched s msg d txn v ∧
     ∀ s1, run_p2call s1 c false = Panic ∧
       ∀ s2 x, run_p2call s1 c true = Done s2 → x ≠ d → finished s2 x = finished s1 x).
Proof.
  intros H. set (G := _ ∧ _). assert (same_end s s' → Q = [] → G) as Hquiet.
  { intros Hs ->. split; [|by intros c v ?%elem_of_nil]. intros d Hn. rewrite (same_end_finished _ _ d Hs). congruence. }
  assert (∀ d1 p, (∀ txn, heap s !! p = Some txn → wb_about msg d1 txn) →
    (txn ← deref s p; let '(dropped, s) := drops_commit s msg d1 txn in
     if dropped : bool then Done (s, [])
     else ManageWritebackValidation config ser_cc ser_p2 Verify TransactionDigest s msg d1 p) = Done (s', Q) → G) as Hval.
  { intros d1 p Hab [H1 H2]%validate_spec. split.
    - intros d Hn Hy. destruct (H1 d Hn Hy) as (-> & ? & txn & ? & ?). eauto 8.
    - intros c v Hin. destruct (H2 c v Hin) as (? & -> & txn & ? & ?). split; [done|]. exists d1, p, txn. split_and!; auto.
      intros s1. split; [done|]. intros s2 x Hr Hx. by eapply WritebackCallback_only. }
  assert (∀ d1, clean_again s d1 = Done (s', Q) → G) as Hcl.
  { intros d1 (s1 & Hc & [= <- <-])%bind_Done. apply Hquiet; [|done]. destruct owns_message; [by eapply Clean_same_end|by simplify_eq]. }
  clearbody G. unfold HandleWriteback in H. destruct (wb_txn_digest msg) as [d1|] eqn:Hdig.
  - destruct (finished s d1); [by apply (Hcl d1)|]. apply bind_Done in H as (r & Hr & H).
    destruct r as [p|s1]; [apply (Hval d1 p); [intros; by left|exact H]|].
    injection H as <- <-. apply Hquiet; [|done].
    unfold writeback_txn in Hr. destruct (ongoing s !! d1); [done|]. destruct (wb_txn msg).
    + apply bind_Done in Hr as (t & _ & Hr). case_bool_decide; by simplify_eq.
    + apply bind_Done in Hr as (_ & _ & Hr). simplify_eq. by repeat case_match.
  - destruct (wb_txn msg) as [p|]; [|done]. apply bind_Done in H as (t & Hdr & H).
    destruct (finished s _); [by apply (Hcl (TransactionDigest t))|].
    apply (Hval (TransactionDigest t) p); [|exact H]. intros txn Hh. right. split; [done|].
    unfold deref in Hdr. rewrite Hh in Hdr. by simplify_eq.
Qed.

(** Without the thread pool phase 2 logs nothing: a message whose
    certificate is valid is dropped without a reply, because the callback is
    only called, and then stops the replica, when the certificate is invalid.
    No decision becomes logged, and nothing is left pending. *)
Theorem unthreaded_phase2_never_logs s remote msg s' Q :
  multiThreading = false → p2_simulated_equiv msg = false →
  HandlePhase2 config ser_cc Verify TransactionDigest s remote msg = Done (s', Q) →
  Q = [] ∧ ∀ d, has_logged s' d = has_logged s d.
Proof.
  unfold has_logged. intros Ht Heq H. unfold HandlePhase2 in H. apply bind_Done in H as (od & _ & H). destruct od as [d0|]; [|by simplify_eq].
  assert (∀ d m', p2m_hasP2 m' = p2m_hasP2 (p2_meta s d0) →
    p2m_hasP2 (p2_meta (upd_p2MetaDatas (insert d0 m') (touch_p2 s d0)) d) = p2m_hasP2 (p2_meta s d)) as Hins.
  { intros d m' Hm. unfold p2_meta at 1. cbn. destruct (decide (d0 = d)) as [->|]; [by rewrite lookup_insert_eq|].
    rewrite lookup_insert_ne by done. apply touched_hasP2. }
  cbn zeta in H. destruct (p2m_hasP2 (p2_meta (touch_p2 s d0) d0)) eqn:Hh.
  { simplify_eq. split; [done|]. intros d. apply Hins. exact (touched_hasP2 s d0 d0). }
  assert (∀ q x r, [] = Q → SendPhase2Reply (touch_p2 s d0) q d0 x 0 r = s' →
    Q = [] ∧ ∀ d, p2m_hasP2 (p2_meta s' d) = p2m_hasP2 (p2_meta s d)) as Hrep.
  { intros q x r <- <-. split; [done|]. intros d. apply touched_hasP2. }
  destruct (is_committed _ d0); [injection H as H1 H2; by eapply Hrep|].
  destruct (is_aborted _ d0); [injection H as H1 H2; by eapply Hrep|]. rewrite Heq in H.
  destruct (my_p1 _ d0) as [my r]. rewrite proofs, signing in H. cbn [andb negb] in H.
  apply bind_Done in H as (r1 & Htx & H). destruct r1 as [p|s2].
  - apply bind_Done in H as (txn & _ & H). unfold ManagePhase2Validation in H. rewrite Ht in H.
    destruct (negb _).
    + unfold HandlePhase2CB in H. rewrite Heq in H. done.
    + simplify_eq. split; [done|]. intros d. apply touched_hasP2.
  - simplify_eq. split; [done|]. intros d. rewrite <- (touched_hasP2 s d0 d). unfold phase2_txn in Htx.
    destruct (p2_digest msg); [|by case_match]. destruct (ongoing _ !! _); [done|]. destruct (p2_txn msg).
    + apply bind_Done in Htx as (t & _ & Htx). case_bool_decide; by simplify_eq.
    + simplify_eq. by case_match.
Qed.
End safety.
