(* ===== verification/Fallback.v ===== *)
(** * The fallback protocol

    src/src/store/sintrstore/server_fallback.cc: a client that finds a
    transaction stalled finishes it.  Replicas of the transaction's log group
    keep, per transaction, a view, a decision and the view of the decision;
    they elect a leader per view, which gathers [2 f + 1] matching votes and
    sends the decision; replicas adopt it and sign it for the clients.

    Signing is immediate here; validations on the thread pool are pending
    calls that complete later ([pending], [resolve]). *)
From S2P Require Import Prelude OrderedSeq CppString Timestamp VersionStore Policy PolicyParse ServerState ServerTxn MVTSO Quorum AsyncVerify Phase2.

(** ** Messages *)

Record Phase2FB := mkP2FB {
  f2_req_id : Z;
  f2_decision : CommitDecision;
  f2_txn : option Transaction;
  f2_txn_digest : digest;
  f2_p1_sigs : option GroupedSignatures;
  f2_p2_replies : option (list P2ReplyMsg)
}.

Record InvokeFB := mkInvoke {
  iv_req_id : Z;
  iv_txn_digest : digest;
  iv_p2fb : option Phase2FB;
  iv_proposed_view : Z;
  iv_catchup : bool;
  iv_view_signed : option (list SignedMessage)
}.

Record DecisionFB := mkDecisionFB {
  df_txn_digest : digest;
  df_decision : CommitDecision;
  df_view : Z;
  df_elect_sigs : list Signature
}.

Record MoveViewMessage := mkMoveView { mv_txn_digest : digest; mv_view : Z }.
(** [MoveView]: the oneof of a plain and an authenticated message. *)
Inductive MoveView := MvPlain (m : MoveViewMessage) | MvSigned (m : SignedMessage).

(** The callbacks bound to a validation. *)
Inductive fbcall :=
| CbP2FB (p2fb : Phase2FB) (d : digest) (remote : Z)
| CbInvokeP2FB (msg : InvokeFB) (p2fb : Phase2FB) (d : digest) (remote : Z)
| CbInvoke (d : digest) (proposed_view logGrp remote : Z)
| CbDecision (d : digest) (view : Z) (decision : CommitDecision)
| CbElect (d : digest) (view : Z) (decision : CommitDecision) (signature : string) (pid : Z).

Notation pending := (list (fbcall * validation)).

Section fallback.
Context `{E : Env}.
Variable config : Configuration.
Variable ser_cc : CCMsg → string.
Variable ser_p2 : P2Msg → string.
Variable ser_elect : ElectMsg → string.
Variable parse_p2 : string → P2Msg.
Variable parse_view : string → ViewMsg.
Variable parse_elect : string → ElectMsg.
Variable parse_move : string → MoveViewMessage.
Variable Verify : Z → string → string → bool.
(** [MessageToSign]: the signature of this replica; [ValidateHMACedMessage]. *)
Variable sign : string → string.
Variable hmac_ok : SignedMessage → bool.
Implicit Types (s : server) (d : digest).

(** ** State of a transaction *)

Definition set_p2_meta s d (m : P2MetaData) : server := upd_p2MetaDatas (insert d m) s.
Definition set_current_view (view : Z) (m : P2MetaData) : P2MetaData :=
  mkP2Meta view (p2m_decision_view m) (p2m_hasP2 m) (p2m_p2Decision m) (p2m_original m).
Definition set_decision (view : Z) (decision : CommitDecision) (m : P2MetaData) : P2MetaData :=
  mkP2Meta (p2m_current_view m) view true decision (p2m_original m).

Definition elect_org s d : ElectFBorganizer := default ElectFBorganizer_init (ElectQuorums s !! d).
Definition set_org s d (e : ElectFBorganizer) : server := upd_ElectQuorums (insert d e) s.
Definition set_quorum (view : Z) (decision : CommitDecision) (q : VoteQuorum) (e : ElectFBorganizer) :
    ElectFBorganizer :=
  mkEO (view_complete e) (<[(view, decision) := q]> (view_quorums e)) (move_view_counts e).
Definition quorum_of (e : ElectFBorganizer) (view : Z) (decision : CommitDecision) : VoteQuorum :=
  default VoteQuorum_init (view_quorums e !! (view, decision)).
Definition set_complete (view : Z) (e : ElectFBorganizer) : ElectFBorganizer :=
  mkEO ({[view]} ∪ view_complete e) (view_quorums e) (move_view_counts e).
Definition set_move (view : Z) (c : Z * bool) (e : ElectFBorganizer) : ElectFBorganizer :=
  mkEO (view_complete e) (view_quorums e) (<[view := c]> (move_view_counts e)).

(** [if(jtr) if(ForwardWritebackMulti(..)) return;] *)
Definition finished_multi s d : outcome (server * bool) :=
  match interestedClients s !! d with
  | Some clients => ForwardWritebackMulti s d clients
  | None => Done (s, false)
  end.

(** ** Adopting a decision *)

Definition SendPhase2FBReply s (reqId : Z) d (p2 : P2Part) (original : option Z) (remotes : gmap Z Z) : server :=
  emit (Phase2FBReply reqId d p2 (attached_view s d) original remotes) s.

Definition AdoptDecision s d (view : Z) (decision : CommitDecision) : server :=
  let s := touch_p2 s d in
  let m := p2_meta s d in
  if p2m_current_view m >? view then s
  else
    let m1 := if p2m_current_view m <? view then set_current_view view m else m in
    let m2 := if p2m_decision_view m <? view then set_decision view decision m1 else m1 in
    let s := set_p2_meta s d m2 in
    SendPhase2FBReply s (match p2m_original m with Some (req_id, _) => req_id | None => 0 end) d
      (mkP2Part decision view) (snd <$> p2m_original m) (default ∅ (interestedClients s !! d)).

(** ** Elections *)

(** [txnDigest[0]] is a (signed) [char]; the sum is taken in [uint64_t]. *)
Definition digest_char d : Z :=
  match d with
  | String c _ => let b := Z.of_N (Ascii.N_of_ascii c) in if b <? 128 then b else b - 256
  | EmptyString => 0
  end.
Definition leader_of (view : Z) d : Z := u64 (view + digest_char d) `mod` u64 (cf_n config).

Definition PreProcessElectFB s d (elect_view : Z) (decision : CommitDecision) (pid : Z) : server * bool :=
  let e := elect_org s d in
  let q := quorum_of e elect_view decision in
  if bool_decide (pid ∈ vq_ids q) then (set_org s d (set_quorum elect_view decision q e), false)
  else (set_org s d (set_quorum elect_view decision (mkVQ ({[pid]} ∪ vq_ids q) (vq_sigs q) (vq_count q)) e), true).

Definition ProcessElectFB s d (elect_view : Z) (decision : CommitDecision) (signature : string) (pid : Z) : server :=
  match ElectQuorums s !! d with
  | None => s
  | Some e =>
      if bool_decide (elect_view ∈ view_complete e) then s
      else
        let q := quorum_of e elect_view decision in
        let sigs := vq_sigs q ++ [mkSig pid signature] in
        let n := u64 (vq_count q + 1) in
        if n =? u64 (2 * cf_f config + 1) then
          let e := set_complete elect_view (set_quorum elect_view decision (mkVQ (vq_ids q) [] n) e) in
          let s := emit (DecisionFBMsg d decision elect_view sigs) (set_org s d e) in
          AdoptDecision s d elect_view decision
        else set_org s d (set_quorum elect_view decision (mkVQ (vq_ids q) sigs n) e)
  end.

(** An own vote for a view this replica leads is signed (the event
    [ElectFBOwn]) and processed directly. *)
Definition SendElectFB s d (proposed_view : Z) (decision : CommitDecision) (logGrp : Z) : server :=
  let replicaIdx := leader_of proposed_view d in
  if negb (idx =? replicaIdx) then emit (ElectFBMsg logGrp replicaIdx d decision proposed_view) s
  else
    let signature := if signedMessages then sign (ser_elect (mkElect 0 decision proposed_view d)) else "" in
    let s := emit (ElectFBOwn d decision proposed_view) s in
    let '(s, first) := PreProcessElectFB s d proposed_view decision replica_id in
    if first : bool then ProcessElectFB s d proposed_view decision signature replica_id else s.

Definition ElectFBcallback s d (elect_view : Z) (decision : CommitDecision) (signature : string) (pid : Z)
    (valid : bool) : outcome server :=
  if negb valid then Done s
  else
    '(s, fin) ← finished_multi s d;
    if fin : bool then Done s else Done (ProcessElectFB s d elect_view decision signature pid).

(** [None]: no signed vote in the message.  Without threads the signature has
    been moved out of the message when it is verified. *)
Definition HandleElectFB s (msg : option SignedMessage) : outcome (server * pending) :=
  _ ← uw_assert signedMessages;
  match msg with
  | None => Done (s, [])
  | Some m =>
      if negb (IsReplicaInGroup config (sm_process_id m) groupIdx) then Done (s, [])
      else
        let em := parse_elect (sm_data m) in
        let d := el_txn_digest em in
        if negb (leader_of (el_view em) d =? idx) then Done (s, [])
        else
          '(s, fin) ← finished_multi s d;
          if fin : bool then Done (s, [])
          else
            let '(s, first) := PreProcessElectFB s d (el_view em) (el_decision em) (sm_process_id m) in
            if negb first then Done (s, [])
            else if multiThreading then
              Done (s, [(CbElect d (el_view em) (el_decision em) (sm_signature m) (sm_process_id m),
                         ByVerify (Verify (sm_process_id m) (sm_data m) (sm_signature m)))])
            else if negb (Verify (sm_process_id m) (sm_data m) "") then Done (s, [])
            else Done (ProcessElectFB s d (el_view em) (el_decision em) (sm_signature m) (sm_process_id m), [])
  end.

(** ** Decisions *)

Definition FBDecisionCallback s d (view : Z) (decision : CommitDecision) (valid : bool) : outcome server :=
  if negb valid then Done s
  else
    '(s, fin) ← finished_multi s d;
    if fin : bool then Done s else Done (AdoptDecision s d view decision).

Definition HandleDecisionFB s (msg : DecisionFB) : outcome (server * pending) :=
  let d := df_txn_digest msg in
  '(s, fin) ← finished_multi s d;
  if fin : bool then Done (s, [])
  else
    let s := touch_p2 s d in
    if (p2m_current_view (p2_meta s d) >? df_view msg) || (df_view msg <=? 0) then Done (s, [])
    else match ongoing s !! d with
    | None => Done (s, [])
    | Some p =>
        txn ← deref s p;
        let '(myProcessId, myDecision) := my_p2 s d in
        if multiThreading then
          l ← asyncValidateFBDecision config ser_elect Verify (df_decision msg) (df_view msg) (involved_groups txn)
                d (df_elect_sigs msg) myProcessId myDecision;
          Done (s, [(CbDecision d (df_view msg) (df_decision msg), ByP2Jobs l)])
        else
          _ ← ValidateFBDecision config Verify ser_elect (df_decision msg) (df_view msg) (involved_groups txn)
                d (df_elect_sigs msg) myProcessId myDecision;
          s ← FBDecisionCallback s d (df_view msg) (df_decision msg) true;
          Done (s, [])
    end.

(** ** Moving to a view *)

Definition BroadcastMoveView s d (proposed_view : Z) : server := emit (MoveViewMsg d proposed_view) s.

(** The counter of the view and whether this replica still has to broadcast. *)
Definition move_count (e : ElectFBorganizer) (view : Z) : Z * bool :=
  default (0, true) (move_view_counts e !! view).
(** Broadcast, and count the own vote. *)
Definition broadcast_and_count s d (view : Z) : server * Z :=
  let e := elect_org s d in
  let n := u64 ((move_count e view).1 + 1) in
  (set_org (BroadcastMoveView s d view) d (set_move view (n, false) e), n).

Definition ProcessMoveView s d (proposed_view : Z) (self : bool) : server :=
  let e := elect_org s d in
  let s := set_org s d (set_move proposed_view (move_count e proposed_view) e) in
  let '(s, count) :=
    if self then
      if (move_count e proposed_view).2 then broadcast_and_count s d proposed_view else (s, 0)
    else
      let n := u64 ((move_count e proposed_view).1 + 1) in
      (set_org s d (set_move proposed_view (n, (move_count e proposed_view).2) e), n) in
  let s := touch_p2 s d in
  if proposed_view >? p2m_current_view (p2_meta s d) then
    let '(s, count) :=
      if (count =? u64 (cf_f config + 1)) && (move_count (elect_org s d) proposed_view).2
      then broadcast_and_count s d proposed_view else (s, count) in
    if count =? u64 (2 * cf_f config + 1)
    then set_p2_meta s d (set_current_view proposed_view (p2_meta s d))
    else s
  else s.

(** The part of the oneof that is not set reads as an empty message. *)
Definition move_view_message (msg : MoveView) : option MoveViewMessage :=
  if signedMessages then
    let sm := match msg with MvSigned sm => sm | MvPlain _ => mkSigned 0 "" "" end in
    if hmac_ok sm then Some (parse_move (sm_data sm)) else None
  else Some (match msg with MvPlain m => m | MvSigned _ => mkMoveView "" 0 end).

Definition HandleMoveView s (msg : MoveView) : outcome server :=
  match move_view_message msg with
  | None => Done s
  | Some m =>
      '(s, fin) ← finished_multi s (mv_txn_digest m);
      if fin : bool then Done s else Done (ProcessMoveView s (mv_txn_digest m) (mv_view m) false)
  end.

(** ** Invoking the fallback *)

Definition SendView s (remote : Z) d : server := emit (SendViewMsg remote d (LookupCurrentView s d)) s.

Definition InvokeFBcallback s d (proposed_view logGrp remote : Z) (valid : bool) : outcome server :=
  if negb valid then Done s
  else
    '(s, fw) ← ForwardWriteback s remote 0 d;
    if fw : bool then Done s
    else
      let s := touch_p2 s d in
      let m := p2_meta s d in
      if negb (p2m_hasP2 m) then Done s
      else if negb all_to_all_fb && (p2m_current_view m >=? proposed_view) then Done (SendView s remote d)
      else
        let s := set_p2_meta s d (set_current_view proposed_view m) in
        Done (SendElectFB s d proposed_view (p2m_p2Decision m) logGrp).

Definition VerifyViews s (msg : InvokeFB) (logGrp remote : Z) : outcome (server * pending) :=
  match iv_view_signed msg with
  | None => Done (s, [])
  | Some signed_messages =>
      let d := iv_txn_digest msg in
      let myCurrentView := LookupCurrentView s d in
      if multiThreading then
        l ← asyncVerifyFBViews config parse_view Verify (iv_proposed_view msg) (iv_catchup msg) (u32 logGrp) d
              signed_messages replica_id myCurrentView;
        Done (s, [(CbInvoke d (iv_proposed_view msg) (u32 logGrp) remote, ByP2Jobs l)])
      else
        s ← InvokeFBcallback s d (iv_proposed_view msg) (u32 logGrp) remote
              (VerifyFBViews config Verify parse_view (iv_proposed_view msg) (iv_catchup msg) (u32 logGrp) d
                 signed_messages replica_id myCurrentView);
        Done (s, [])
  end.

(** What follows once this replica has a decision. *)
Definition invoke_view s (msg : InvokeFB) d (current_view : Z) (decision : CommitDecision) (logGrp remote : Z) :
    outcome (server * pending) :=
  if all_to_all_fb then
    let proposed_view := u64 (current_view + 1) in
    let s := ProcessMoveView s d proposed_view true in
    Done (SendElectFB s d proposed_view decision logGrp, [])
  else VerifyViews s msg logGrp remote.

(** The transaction of a request: the ongoing one, or the one sent along. *)
Definition request_txn s d (sent : option Transaction) : outcome (option Transaction) :=
  match ongoing s !! d with
  | Some p => t ← deref s p; Done (Some t)
  | None => Done sent
  end.

Definition store_p2 s d (decision : CommitDecision) (reset_view : bool) : server * P2MetaData :=
  let s := touch_p2 s d in
  let m := p2_meta s d in
  if p2m_hasP2 m then (s, m)
  else
    let m := mkP2Meta (p2m_current_view m) (if reset_view then 0 else p2m_decision_view m) true decision
               (p2m_original m) in
    (set_p2_meta s d m, m).

Definition InvokeFBProcessP2FBCallback s (msg : InvokeFB) (p2fb : Phase2FB) d (remote : Z) (valid : bool) :
    outcome (server * pending) :=
  if negb valid then Done (s, [])
  else
    '(s, fw) ← ForwardWriteback s remote 0 d;
    if fw : bool then Done (s, [])
    else
      let '(s, m) := store_p2 s d (f2_decision p2fb) false in
      invoke_view s msg d (p2m_current_view m) (p2m_p2Decision m) groupIdx remote.

Definition ProcessP2FBCallback s (p2fb : Phase2FB) d (remote : Z) (valid : bool) : outcome server :=
  if negb valid then Done s
  else
    '(s, fw) ← ForwardWriteback s remote 0 d;
    if fw : bool then Done s
    else
      let '(s, m) := store_p2 s d (f2_decision p2fb) true in
      Done (SendPhase2FBReply s 0 d (mkP2Part (p2m_p2Decision m) (p2m_decision_view m)) None {[0 := remote]}).

(** Unsigned replies are counted down from [f + 1]. *)
Fixpoint plain_replies (decision : CommitDecision) d (counter : Z) (rs : list P2ReplyMsg) : bool :=
  match rs with
  | [] => false
  | r :: rest =>
      let counter := match r with
                     | P2Plain m => if bool_decide (p2_decision m = decision) && bool_decide (p2_txn_digest m = d)
                                    then u32 (counter - 1) else counter
                     | _ => counter
                     end in
      if counter =? 0 then true else plain_replies decision d counter rest
  end.

(** The proof of a [Phase2FB]: [inl] a validation under way, [inr] its
    result at once; [None] when there is no proof. *)
Definition validate_p2fb s d (txn : Transaction) (p2fb : Phase2FB) : outcome (option (validation + bool)) :=
  match f2_p2_replies p2fb with
  | Some rs =>
      if signedMessages then
        let '(myProcessId, myDecision) := my_p2 s d in
        l ← asyncValidateFBP2Replies config parse_p2 Verify (f2_decision p2fb) (involved_groups txn) d rs
              myProcessId myDecision;
        Done (Some (inl (ByP2Jobs l)))
      else Done (Some (inr (plain_replies (f2_decision p2fb) (f2_txn_digest p2fb) (u32 (cf_f config + 1)) rs)))
  | None =>
      match f2_p1_sigs p2fb with
      | Some grpSigs =>
          let '(myProcessId, myResult) := my_p1 s d in
          if multiThreading then
            l ← asyncValidateP1Replies config ser_cc Verify (f2_decision p2fb) false (involved_groups txn) d
                  grpSigs myProcessId myResult;
            Done (Some (inl (ByP1Jobs l)))
          else Done (Some (inr (ValidateP1Replies config ser_cc Verify (f2_decision p2fb) false
                                  (involved_groups txn) d grpSigs myProcessId myResult)))
      | None => Done None
      end
  end.

(** Too few unsigned replies: the code goes on to a second call of the
    callback, with [true]. *)
Definition ProcessP2FB s (remote : Z) d (p2fb : Phase2FB) : outcome (server * pending) :=
  '(s, fw) ← ForwardWriteback s remote 0 d;
  if fw : bool then Done (s, [])
  else
    let s := touch_p2 s d in
    let m := p2_meta s d in
    if p2m_hasP2 m then
      Done (SendPhase2FBReply s 0 d (mkP2Part (p2m_p2Decision m) (p2m_decision_view m)) None {[0 := remote]}, [])
    else
      otxn ← request_txn s d (f2_txn p2fb);
      match otxn with
      | None => Done (s, [])
      | Some txn =>
          r ← validate_p2fb s d txn p2fb;
          match r with
          | None => Done (s, [])
          | Some (inl v) => Done (s, [(CbP2FB p2fb d remote, v)])
          | Some (inr valid) =>
              s ← ProcessP2FBCallback s p2fb d remote valid;
              s ← (if negb valid && bool_decide (is_Some (f2_p2_replies p2fb))
                   then ProcessP2FBCallback s p2fb d remote true else Done s);
              Done (s, [])
          end
      end.

Definition HandlePhase2FB s (remote : Z) (msg : Phase2FB) : outcome (server * pending) :=
  let d := f2_txn_digest msg in
  '(s, fw) ← ForwardWriteback s remote (f2_req_id msg) d;
  if fw : bool then Done (s, [])
  else
    let s := touch_p2 s d in
    let m := p2_meta s d in
    if p2m_hasP2 m then
      Done (SendPhase2FBReply s (f2_req_id msg) d (mkP2Part (p2m_p2Decision m) (p2m_decision_view m)) None
              {[0 := remote]}, [])
    else ProcessP2FB s remote d msg.

Definition InvokeFBProcessP2FB s (remote : Z) d (p2fb : Phase2FB) (msg : InvokeFB) : outcome (server * pending) :=
  otxn ← request_txn s d (f2_txn p2fb);
  match otxn with
  | None => Done (s, [])
  | Some txn =>
      logGrp ← GetLogGroup (involved_groups txn) d;
      if negb (groupIdx =? logGrp) then Done (s, [])
      else
        r ← validate_p2fb s d txn p2fb;
        match r with
        | None => Done (s, [])
        | Some (inl v) => Done (s, [(CbInvokeP2FB msg p2fb d remote, v)])
        | Some (inr valid) => InvokeFBProcessP2FBCallback s msg p2fb d remote valid
        end
  end.

Definition HandleInvokeFB s (remote : Z) (msg : InvokeFB) : outcome (server * pending) :=
  let d := iv_txn_digest msg in
  '(s, fw) ← ForwardWriteback s remote (iv_req_id msg) d;
  if fw : bool then Done (s, [])
  else
    let s := touch_p2 s d in
    let m := p2_meta s d in
    if negb all_to_all_fb && (iv_proposed_view msg <=? p2m_current_view m) then Done (SendView s remote d, [])
    else if negb (p2m_hasP2 m) then
      match iv_p2fb msg with
      | None => Done (s, [])
      | Some p2fb => InvokeFBProcessP2FB s remote d p2fb msg
      end
    else
      otxn ← request_txn s d (p2fb ← iv_p2fb msg; f2_txn p2fb);
      match otxn with
      | None => Done (s, [])
      | Some txn =>
          logGrp ← GetLogGroup (involved_groups txn) d;
          if negb (groupIdx =? logGrp) then Done (s, [])
          else invoke_view s msg d (p2m_current_view m) (p2m_p2Decision m) logGrp remote
      end.

(** ** The concurrency control on the fallback path *)

(** [ExecP1]: [Some] when the result is to be sent. *)
Definition ExecP1 s (now : Z) (remote reqId : Z) d (p : ptr) :
    outcome (server * option (Result * proof * option ptr)) :=
  '(s, v, _) ← DoOCCCheck s now d p remote reqId true false false;
  '(s, b) ← BufferP1Result s (v_result v) (v_conflict v) d reqId None false false false 1;
  let result := b_result b in
  let s := if b_original_sub b
           then emit (Phase1Reply (b_reqId b) result (v_conflict v) d (b_remote b) (v_abstain_conflict v)
                        false false) s
           else s in
  let s := if b_forceMaterialize b then emit (ForceMaterializationCall result d) s else s in
  if bool_decide (result = IGNORE) || bool_decide (result = WAIT) then Done (s, None)
  else Done (s, Some (result, v_conflict v, v_abstain_conflict v)).

Definition TryExec s (now : Z) (remote reqId : Z) d (p : ptr) : outcome server :=
  '(s, r) ← ExecP1 s now remote reqId d p;
  match r with
  | None => Done s
  | Some (result, conflict, abstain_conflict) =>
      p1 ← SetP1 s result conflict abstain_conflict;
      Done (SendPhase1FBReply s reqId d (Some p1) None {[0 := remote]})
  end.

(** ** Completing a validation *)

Definition run_call s (c : fbcall) (valid : bool) : outcome (server * pending) :=
  match c with
  | CbP2FB p2fb d remote => s ← ProcessP2FBCallback s p2fb d remote valid; Done (s, [])
  | CbInvokeP2FB msg p2fb d remote => InvokeFBProcessP2FBCallback s msg p2fb d remote valid
  | CbInvoke d view logGrp remote => s ← InvokeFBcallback s d view logGrp remote valid; Done (s, [])
  | CbDecision d view decision => s ← FBDecisionCallback s d view decision valid; Done (s, [])
  | CbElect d view decision signature pid =>
      s ← ElectFBcallback s d view decision signature pid valid; Done (s, [])
  end.
End fallback.
