(* ===== verification/FallbackSafety.v ===== *)
(** * Decisions of the fallback are certified

    The invariant of a replica that validates on the thread pool: whatever it
    stores or signs for a view other than the first was voted for, in that
    view, by [2 f + 1] replicas of its group. *)
From S2P Require Import Prelude OrderedSeq CppString Timestamp VersionStore Policy PolicyParse ServerState ServerTxn MVTSO Quorum AsyncVerify Phase2 Fallback.

(** The decision a message signs, with its view. *)
Definition signed_p2 (e : event) : option (digest * P2Part) :=
  match e with
  | Phase2Reply _ d p _ => Some (d, p)
  | Phase1FBReply _ d _ (Some p) _ _ => Some (d, p)
  | Phase2FBReply _ d p _ _ _ => Some (d, p)
  | _ => None
  end.

(** The vote in an election that a message carries. *)
Definition vote_of (e : event) : option (digest * CommitDecision * Z) :=
  match e with
  | ElectFBMsg _ _ d x view | ElectFBOwn d x view => Some (d, x, view)
  | _ => None
  end.

Section safety.
Context `{E : Env}.
Variable config : Configuration.
Variable ser_cc : CCMsg → string.
Variable ser_p2 : P2Msg → string.
Variable ser_elect : ElectMsg → string.
Variable parse_p2 : string → P2Msg.
Variable parse_view : string → ViewMsg.
Variable parse_elect : string → ElectMsg.
Variable parse_move : string → MoveViewMessage.
Variable Verify : Z → string → string → bool.
Variable sign : string → string.
Variable hmac_ok : SignedMessage → bool.
Variable TransactionDigest : Transaction → digest.
Implicit Types (s : server) (d : digest) (P : pending).

(** [pid] sent a correctly signed vote for the decision in the view. *)
Definition voted (pid : Z) d (x : CommitDecision) (view : Z) : Prop :=
  ∃ data sig, Verify pid data sig = true ∧ el_txn_digest (parse_elect data) = d ∧
    el_decision (parse_elect data) = x ∧ el_view (parse_elect data) = view.
Definition certified d (x : CommitDecision) (view : Z) : Prop :=
  ∃ voters : list Z, NoDup voters ∧ Z.of_nat (length voters) = 2 * cf_f config + 1 ∧
    ∀ pid, pid ∈ voters → voted pid d x view.

(** The votes being verified. *)
Definition vote_pid d (view : Z) (x : CommitDecision) (c : fbcall * validation) : option Z :=
  match c.1 with
  | CbElect d' view' x' _ pid =>
      if bool_decide (d' = d) && bool_decide (view' = view) && bool_decide (x' = x) then Some pid else None
  | _ => None
  end.
Definition pending_votes d (view : Z) (x : CommitDecision) P : list Z := omap (vote_pid d view x) P.

Definition meta_ok s : Prop :=
  ∀ d, let m := p2_meta s d in
    0 ≤ p2m_decision_view m ≤ p2m_current_view m ∧
    (0 < p2m_decision_view m → p2m_hasP2 m = true ∧ certified d (p2m_p2Decision m) (p2m_decision_view m)).
Definition out_ok s : Prop :=
  ∀ e d x view, e ∈ out s → signed_p2 e = Some (d, mkP2Part x view) → 0 < view → certified d x view.
Definition votes_ok s P : Prop :=
  ∀ d view x, let q := quorum_of (elect_org s d) view x in
    view ∉ view_complete (elect_org s d) →
    vq_count q = Z.of_nat (length (vq_sigs q)) ∧ vq_count q < 2 * cf_f config + 1 ∧
    NoDup (pids (vq_sigs q) ++ pending_votes d view x P) ∧
    (∀ pid, pid ∈ pids (vq_sigs q) ++ pending_votes d view x P → pid ∈ vq_ids q) ∧
    (∀ pid, pid ∈ pids (vq_sigs q) → voted pid d x view).
Definition call_ok (c : fbcall * validation) : Prop :=
  match c.1 with
  | CbElect d view x _ pid => reports c.2 true → voted pid d x view
  | CbDecision d view x => reports c.2 true → certified d x view
  | CbInvoke _ _ _ _ => all_to_all_fb = false
  | _ => True
  end.

(** Views only grow, and the decision of a view stays. *)
Definition later (m m' : P2MetaData) : Prop :=
  p2m_current_view m ≤ p2m_current_view m' ∧ p2m_decision_view m ≤ p2m_decision_view m' ∧
  (p2m_hasP2 m = true → p2m_hasP2 m' = true ∧
     (p2m_decision_view m' = p2m_decision_view m → p2m_p2Decision m' = p2m_p2Decision m)).
#[export] Instance later_preorder : PreOrder later.
Proof.
  split; [by intros m|]. intros m1 m2 m3 (A1 & B1 & C1) (A2 & B2 & C2).
  split; [lia|]. split; [lia|]. intros H1. destruct (C1 H1) as [H2 D1]. destruct (C2 H2) as [H3 D2].
  split; [done|]. intros H. rewrite D2, D1; [done|lia|lia].
Qed.

(** What the replica signed and voted for, over time: it votes for what it
    stores, and a decision signed in an earlier view was only given up for one
    that was certified in between. *)
Definition signs s d (x : CommitDecision) (view : Z) : Prop :=
  ∃ e, e ∈ out s ∧ signed_p2 e = Some (d, mkP2Part x view).
Definition votes s d (x : CommitDecision) (view : Z) : Prop :=
  ∃ e, e ∈ out s ∧ vote_of e = Some (d, x, view).
Definition follows d (x : CommitDecision) (v : Z) (y : CommitDecision) (w : Z) : Prop :=
  0 < v < w → y = x ∨ ∃ v', v ≤ v' < w ∧ certified d y v'.
Definition history s : Prop :=
  (∀ d y w, votes s d y w → w ≤ p2m_current_view (p2_meta s d)) ∧
  (∀ d x v, signs s d x v → 0 < v → v ≤ p2m_decision_view (p2_meta s d)) ∧
  (∀ d x v y w, signs s d x v → votes s d y w → follows d x v y w) ∧
  (∀ d y w, votes s d y w →
     follows d (p2m_p2Decision (p2_meta s d)) (p2m_decision_view (p2_meta s d)) y w).

(** The invariant, relative to an earlier state. *)
Variable sinit : server.
Record inv s P : Prop := {
  inv_meta : meta_ok s;
  inv_later : ∀ d, later (p2_meta sinit d) (p2_meta s d);
  inv_out : out_ok s;
  inv_votes : votes_ok s P;
  inv_calls : Forall call_ok P;
  inv_hist : all_to_all_fb = false → history s
}.

(** ** Steps that change none of this *)

(** Only stored decisions, and decisions of the first view, are signed. *)
Definition p2_says s s' : Prop :=
  ∀ e, e ∈ out s' → e ∈ out s ∨ vote_of e = None ∧ (signed_p2 e = None ∨
    ∃ d p, signed_p2 e = Some (d, p) ∧ (stored_p2 (p2_meta s d) = Some p ∨ p2p_view p = 0)).
Lemma p2_says_refl s : p2_says s s.
Proof. intros e. by left. Qed.
Lemma p2_says_trans s1 s2 s3 :
  (∀ d, p2_meta s2 d = p2_meta s1 d) → p2_says s1 s2 → p2_says s2 s3 → p2_says s1 s3.
Proof.
  intros Hm H1 H2 e He. destruct (H2 e He) as [H|[Hv [H|(d & p & H & Hs)]]]; [by apply H1|by auto|].
  right. split; [done|]. right. exists d, p. split; [done|]. by rewrite <- Hm.
Qed.

Lemma says_signs s s' d x v :
  p2_says s s' → signs s' d x v → signs s d x v ∨ v = 0 ∨
    p2m_hasP2 (p2_meta s d) = true ∧ x = p2m_p2Decision (p2_meta s d) ∧ v = p2m_decision_view (p2_meta s d).
Proof.
  intros Hsay (e & He & Hs). destruct (Hsay e He) as [H|[_ [H|(d' & p & H & [Hp|Hp])]]].
  - left. by exists e.
  - congruence.
  - rewrite Hs in H. simplify_eq. unfold stored_p2 in Hp. case_match; simplify_eq. auto.
  - rewrite Hs in H. simplify_eq. auto.
Qed.
Lemma says_votes s s' d x v : p2_says s s' → votes s' d x v → votes s d x v.
Proof. intros Hsay (e & He & Hv). destruct (Hsay e He) as [H|[H _]]; [by exists e|congruence]. Qed.

(** The part of the invariant about decisions. *)
Lemma decisions_says s s' :
  (∀ d, p2_meta s' d = p2_meta s d) → p2_says s s' →
  (meta_ok s → meta_ok s') ∧ (meta_ok s → out_ok s → out_ok s') ∧ (history s → history s').
Proof.
  intros Hm Hsay. split; [|split].
  - intros H d. cbn. rewrite Hm. apply H.
  - intros H1 H2 e d x view Hin Hs Hv.
    destruct (says_signs _ _ d x view Hsay) as [(e' & He' & Hs')|[->|(Hh & -> & ->)]]; [by exists e|by eapply H2|lia|].
    by apply H1.
  - intros (A & B & C & D). split; [|split; [|split]]; intros d; rewrite ?Hm.
    + intros y w Hv. apply says_votes with (s := s) in Hv; [by eapply A|done].
    + intros x v Hs Hv. apply says_signs with (s := s) in Hs as [Hs|[->|(Hh & -> & ->)]]; [by eapply B|lia|done|done].
    + intros x v y w Hs Hv. apply says_votes with (s := s) in Hv; [|done].
      apply says_signs with (s := s) in Hs as [Hs|[->|(Hh & -> & ->)]]; [by apply C|unfold follows; lia|by apply D|done].
    + intros y w Hv. apply says_votes with (s := s) in Hv; [|done]. by apply D.
Qed.

Definition p2_quiet s s' : Prop :=
  (∀ d, p2_meta s' d = p2_meta s d) ∧ (∀ d, elect_org s' d = elect_org s d) ∧
  p2_says s s'.

#[export] Instance p2_quiet_preorder : PreOrder p2_quiet.
Proof.
  split.
  - intros s. split; [done|]. split; [done|]. apply p2_says_refl.
  - intros s1 s2 s3 (A1 & B1 & C1) (A2 & B2 & C2).
    split; [intros d; by rewrite A2, A1|]. split; [intros d; by rewrite B2, B1|]. by eapply p2_says_trans.
Qed.

Lemma p2_quiet_inv s s' P : p2_quiet s s' → inv s P → inv s' P.
Proof.
  intros (Hm & He & Ho) [H1 HL H2 H3 H4 H5]. destruct (decisions_says s s' Hm Ho) as (D1 & D2 & D3).
  split; [auto| |auto| |done|auto].
  - intros d. rewrite Hm. apply HL.
  - intros d view x. cbn. rewrite He. apply H3.
Qed.

Lemma touch_p2_meta s d d' : p2_meta (touch_p2 s d) d' = p2_meta s d'.
Proof.
  unfold p2_meta, touch_p2. cbn. destruct (p2MetaDatas s !! d) eqn:Hd; [done|].
  destruct (decide (d = d')) as [->|Hne]; [by rewrite lookup_insert_eq, Hd|by rewrite lookup_insert_ne].
Qed.
Lemma touch_p2_quiet s d : p2_quiet s (touch_p2 s d).
Proof. split; [apply touch_p2_meta|]. split; [done|]. intros e He. left. exact He. Qed.

Lemma emit_quiet e s : vote_of e = None → signed_p2 e = None → p2_quiet s (emit e s).
Proof.
  intros Hv He. split; [done|]. split; [done|]. cbn. intros e' [H| ->%list_elem_of_singleton]%elem_of_app; [by left|auto].
Qed.
Lemma emit_stored_quiet e s d p :
  signed_p2 e = Some (d, p) → stored_p2 (p2_meta s d) = Some p ∨ p2p_view p = 0 → p2_quiet s (emit e s).
Proof.
  intros He Hs. split; [done|]. split; [done|]. cbn.
  intros e' [H| ->%list_elem_of_singleton]%elem_of_app; [by left|]. right.
  split; [by destruct e|]. right. by exists d, p.
Qed.

Lemma forward_multi_quiet s d cl s' b : ForwardWritebackMulti s d cl = Done (s', b) → p2_quiet s s'.
Proof.
  unfold ForwardWritebackMulti. intros (ow & _ & Hd)%bind_Done.
  destruct ow as [wb|]; cbn in Hd; simplify_eq; [|reflexivity].
  assert (∀ (l : list (Z * Z)) s, p2_quiet s (foldl (λ s (c : Z * Z), emit (ForwardWb 0 d wb c.2) s) s l)) as Hl.
  { induction l as [|c l IH]; intros s0; [reflexivity|]. cbn. etrans; [|apply IH]. by apply emit_quiet. }
  etrans; [apply Hl|]. split; [done|]. split; [done|]. intros e He. left. exact He.
Qed.
Lemma finished_multi_quiet s d s' b : finished_multi s d = Done (s', b) → p2_quiet s s'.
Proof.
  unfold finished_multi. destruct (interestedClients s !! d); [apply forward_multi_quiet|].
  intros [= <- <-]. reflexivity.
Qed.
Lemma forward_quiet s r q d s' b : ForwardWriteback s r q d = Done (s', b) → p2_quiet s s'.
Proof.
  unfold ForwardWriteback. intros (ow & _ & Hd)%bind_Done.
  destruct ow as [wb|]; cbn in Hd; simplify_eq; [|reflexivity]. by apply emit_quiet.
Qed.

(** ** The list of pending calls *)

Lemma inv_drop s P c : inv s (c :: P) → inv s P.
Proof.
  intros [H1 HL H2 H3 H4 H5]. split; [done|done|done| |by inv H4|done].
  intros d view x q Hc. destruct (H3 d view x Hc) as (A & B & C & D & F). repeat split; [done|done| | |done].
  - eapply sublist_NoDup; [exact C|]. apply sublist_app; [done|]. unfold pending_votes. cbn.
    case_match; [by constructor|done].
  - intros pid Hp. apply D. apply elem_of_app in Hp as [Hp|Hp]; apply elem_of_app; [by left|right].
    unfold pending_votes in *. cbn. case_match; [by right|done].
Qed.

Lemma inv_perm s P P' : P ≡ₚ P' → inv s P → inv s P'.
Proof.
  intros Hp [H1 HL H2 H3 H4 H5]. split; [done|done|done| |by rewrite <- Hp|done].
  intros d view x q Hc. destruct (H3 d view x Hc) as (A & B & C & D & F).
  assert (pending_votes d view x P ≡ₚ pending_votes d view x P') as Hv.
  { unfold pending_votes. by rewrite Hp. }
  repeat split; [done|done|by rewrite <- Hv|intros pid; rewrite <- Hv; apply D|done].
Qed.

Lemma inv_add s P c :
  (∀ d view x, vote_pid d view x c = None) → call_ok c → inv s P → inv s (c :: P).
Proof.
  intros Hn Hc [H1 HL H2 H3 H4 H5]. split; [done|done|done| |by constructor|done].
  intros d view x q Hv. unfold pending_votes. cbn. rewrite Hn. apply (H3 d view x Hv).
Qed.

(** ** Changes of one transaction *)

Lemma set_p2_meta_meta s d m d' : p2_meta (set_p2_meta s d m) d' = if decide (d' = d) then m else p2_meta s d'.
Proof.
  unfold p2_meta, set_p2_meta. cbn. case_decide as Hd; [subst; by rewrite lookup_insert_eq|].
  by rewrite lookup_insert_ne.
Qed.

Lemma set_p2_meta_same s d m : p2_meta (set_p2_meta s d m) d = m.
Proof. by rewrite set_p2_meta_meta, decide_True. Qed.

(** A new state of one transaction. *)
Lemma inv_set_meta s P d m :
  later (p2_meta s d) m →
  0 ≤ p2m_decision_view m ≤ p2m_current_view m →
  (0 < p2m_decision_view m → p2m_hasP2 m = true ∧ certified d (p2m_p2Decision m) (p2m_decision_view m)) →
  p2m_decision_view m = p2m_decision_view (p2_meta s d) ∨ p2m_current_view (p2_meta s d) ≤ p2m_decision_view m →
  inv s P → inv (set_p2_meta s d m) P.
Proof.
  intros Hl Hv Hc Hk [H1 HL H2 H3 H4 H5]. split; [| |done|done|done|].
  - intros d'. cbn. rewrite set_p2_meta_meta. case_decide; [subst; by split|apply H1].
  - intros d'. rewrite set_p2_meta_meta. case_decide; [subst; by trans (p2_meta s d)|apply HL].
  - intros Ha. destruct (H5 Ha) as (A & B & C & D). destruct Hl as (L1 & L2 & L3). pose proof (H1 d) as [Hv1 Hc1].
    split; [|split; [|split; [done|]]]; intros d'; rewrite set_p2_meta_meta; (case_decide as Hd;
      [subst d'|first [exact (A d') | exact (B d') | exact (D d')]]).
    + intros y w Hw%A. lia.
    + intros x v Hs Hp. apply B in Hs; [lia|done].
    + intros y w Hw. destruct Hk as [Hk|Hk]; [|intros Hvw; apply A in Hw; lia].
      intros [Hp Hlt]. rewrite Hk in Hp, Hlt. apply Hc1 in Hp as Hh. destruct (L3 (proj1 Hh)) as [_ Hdec].
      rewrite Hk, Hdec by done. by apply D.
Qed.

Lemma inv_emit s P e d x view :
  signed_p2 e = Some (d, mkP2Part x view) → certified d x view →
  p2m_current_view (p2_meta s d) = view → p2m_decision_view (p2_meta s d) = view →
  inv s P → inv (emit e s) P.
Proof.
  intros He Hc Hcv Hdv [H1 HL H2 H3 H4 H5].
  assert (∀ d' y w, votes (emit e s) d' y w → votes s d' y w) as Hvs.
  { intros d' y w (e' & Hin & Hs). cbn in Hin. apply elem_of_app in Hin as [Hin| ->%list_elem_of_singleton]; [by exists e'|].
    by destruct e. }
  assert (∀ d' y v, signs (emit e s) d' y v → signs s d' y v ∨ d' = d ∧ v = view) as Hss.
  { intros d' y v (e' & Hin & Hs). cbn in Hin. apply elem_of_app in Hin as [Hin| ->%list_elem_of_singleton].
    - left. by exists e'.
    - rewrite Hs in He. simplify_eq. by right. }
  split; [done|done| |done|done|].
  - intros e' d' x' v'. cbn. intros [Hin| ->%list_elem_of_singleton]%elem_of_app Hs Hv; [by eapply H2|].
    rewrite Hs in He. by simplify_eq.
  - intros Ha. destruct (H5 Ha) as (A & B & C & D). split; [|split; [|split]].
    + intros d' y w Hw%Hvs. by eapply A.
    + intros d' y v [Hs|[-> ->]]%Hss Hp; [by eapply B|]. change (view ≤ p2m_decision_view (p2_meta s d)). lia.
    + intros d' x' v y w [Hs|[-> ->]]%Hss Hw%Hvs; [by apply C|]. intros Hlt. apply A in Hw. lia.
    + intros d' y w Hw%Hvs. by apply D.
Qed.

(** A vote for the stored decision, in the view just entered. *)
Lemma inv_vote s P e d y w :
  vote_of e = Some (d, y, w) →
  (all_to_all_fb = false → p2m_current_view (p2_meta s d) = w ∧ p2m_p2Decision (p2_meta s d) = y ∧
     p2m_decision_view (p2_meta s d) < w) →
  inv s P → inv (emit e s) P.
Proof.
  intros He Hst [H1 HL H2 H3 H4 H5].
  assert (∀ d' y' v, signs (emit e s) d' y' v → signs s d' y' v) as Hss.
  { intros d' y' v (e' & Hin & Hs). cbn in Hin. apply elem_of_app in Hin as [Hin| ->%list_elem_of_singleton]; [by exists e'|].
    by destruct e. }
  assert (∀ d' y' w', votes (emit e s) d' y' w' → votes s d' y' w' ∨ (d', y', w') = (d, y, w)) as Hvs.
  { intros d' y' v (e' & Hin & Hs). cbn in Hin. apply elem_of_app in Hin as [Hin| ->%list_elem_of_singleton].
    - left. by exists e'.
    - rewrite Hs in He. simplify_eq. by right. }
  split; [done|done| |done|done|].
  - intros e' d' x' v' Hin Hs Hv. destruct (Hss d' x' v') as (e2 & Hin2 & Hs2); [by exists e'|]. by eapply H2.
  - intros Ha. destruct (H5 Ha) as (A & B & C & D). destruct (Hst Ha) as (E1 & E2 & E3).
    split; [|split; [|split]].
    + intros d' y' w' [Hw|[= -> -> ->]]%Hvs; [by eapply A|]. change (w ≤ p2m_current_view (p2_meta s d)). lia.
    + intros d' x' v Hs%Hss Hp. by eapply B.
    + intros d' x' v y' w' Hs%Hss [Hw|[= -> -> ->]]%Hvs; [by apply C|]. intros [Hp Hlt].
      right. exists (p2m_decision_view (p2_meta s d)). apply B in Hs as Hle; [|done].
      pose proof (H1 d) as [_ Hc]. destruct Hc as [_ Hc]; [lia|]. rewrite E2 in Hc. split; [lia|done].
    + intros d' y' w' [Hw|[= -> -> ->]]%Hvs; [by apply D|]. intros _. left. symmetry. exact E2.
Qed.

Lemma AdoptDecision_inv s P d view x :
  certified d x view → inv s P → inv (AdoptDecision s d view x) P.
Proof.
  intros Hc Hi. unfold AdoptDecision. apply (p2_quiet_inv s (touch_p2 s d)) in Hi; [|apply touch_p2_quiet].
  set (s1 := touch_p2 s d) in *. destruct (Z.gtb_spec (p2m_current_view (p2_meta s1 d)) view) as [Hgt|Hle]; [done|].
  pose proof (inv_meta _ _ Hi d) as [Hv Hd]. cbn in Hv, Hd.
  unfold SendPhase2FBReply. eapply inv_emit; [reflexivity|done| | |apply inv_set_meta; [| | | |done]];
    rewrite ?set_p2_meta_same;
    destruct (Z.ltb_spec (p2m_current_view (p2_meta s1 d)) view),
      (Z.ltb_spec (p2m_decision_view (p2_meta s1 d)) view); unfold later; cbn; try lia; auto;
    (split; [lia|]); (split; [lia|]); intros; (split; [done|]); intros; done || lia.
Qed.

(** ** Votes *)

Lemma set_org_org s d e d' : elect_org (set_org s d e) d' = if decide (d' = d) then e else elect_org s d'.
Proof.
  unfold elect_org, set_org. cbn. case_decide as Hd; [subst; by rewrite lookup_insert_eq|].
  by rewrite lookup_insert_ne.
Qed.
Lemma set_quorum_of e view x q view' x' :
  quorum_of (set_quorum view x q e) view' x' =
    if decide ((view', x') = (view, x)) then q else quorum_of e view' x'.
Proof.
  unfold quorum_of, set_quorum. cbn. case_decide as Hd; [simplify_eq; by rewrite lookup_insert_eq|].
  by rewrite lookup_insert_ne.
Qed.

(** Only the votes of one transaction, view and decision change. *)
Lemma votes_ok_set s P P' d e :
  votes_ok s P →
  (∀ d' view x, d' ≠ d → pending_votes d' view x P' = pending_votes d' view x P) →
  (∀ view x, let q := quorum_of e view x in view ∉ view_complete e →
    vq_count q = Z.of_nat (length (vq_sigs q)) ∧ vq_count q < 2 * cf_f config + 1 ∧
    NoDup (pids (vq_sigs q) ++ pending_votes d view x P') ∧
    (∀ pid, pid ∈ pids (vq_sigs q) ++ pending_votes d view x P' → pid ∈ vq_ids q) ∧
    (∀ pid, pid ∈ pids (vq_sigs q) → voted pid d x view)) →
  votes_ok (set_org s d e) P'.
Proof.
  intros H Hp He d' view x q. subst q. rewrite set_org_org. case_decide as Hd; [subst; apply He|].
  rewrite Hp by done. apply H.
Qed.

Lemma vote_pid_same d view x sig pid v : vote_pid d view x (CbElect d view x sig pid, v) = Some pid.
Proof. unfold vote_pid. cbn. by rewrite !bool_decide_eq_true_2. Qed.
Lemma vote_pid_other d view x d' view' x' sig pid v :
  (d', view', x') ≠ (d, view, x) → vote_pid d view x (CbElect d' view' x' sig pid, v) = None.
Proof.
  intros Hne. unfold vote_pid. cbn.
  destruct (bool_decide (d' = d) && bool_decide (view' = view) && bool_decide (x' = x)) eqn:Hb; [|done].
  rewrite !andb_true_iff, !bool_decide_eq_true in Hb. naive_solver.
Qed.

Lemma pending_same d view x sig pid v P :
  pending_votes d view x ((CbElect d view x sig pid, v) :: P) = pid :: pending_votes d view x P.
Proof. unfold pending_votes. cbn [omap list_omap]. by rewrite vote_pid_same. Qed.
Lemma pending_other d view x d' view' x' sig pid v P :
  (d', view', x') ≠ (d, view, x) →
  pending_votes d view x ((CbElect d' view' x' sig pid, v) :: P) = pending_votes d view x P.
Proof. intros. unfold pending_votes. cbn [omap list_omap]. by rewrite vote_pid_other. Qed.

Lemma PreProcessElectFB_inv s P d view x pid s' first sig v :
  PreProcessElectFB s d view x pid = (s', first) →
  (reports v true → voted pid d x view) → inv s P →
  inv s' (if first then (CbElect d view x sig pid, v) :: P else P).
Proof.
  intros Hp Hv [H1 HL H2 H3 H4 H5]. unfold PreProcessElectFB in Hp. case_bool_decide as Hin; simplify_eq.
  - split; [done|done|done| |done|done]. apply (votes_ok_set s P); [done|done|]. intros view' x'. cbn.
    rewrite set_quorum_of. case_decide; simplify_eq; apply H3.
  - split; [done|done|done| |by constructor|done]. apply (votes_ok_set s P); [done| |].
    + intros d' view' x' Hd. rewrite pending_other by congruence. done.
    + intros view' x'. cbn zeta. cbn [view_complete set_quorum]. rewrite set_quorum_of.
      case_decide as Hd; simplify_eq.
      * rewrite pending_same. cbn [vq_count vq_sigs vq_ids]. intros Hc.
        destruct (H3 d view x Hc) as (A & B & C & D & F). repeat split; [done|done| | |done].
        -- rewrite <- Permutation_middle. apply NoDup_cons. split; [|done]. intros Hq. by apply Hin, D.
        -- intros p. rewrite <- Permutation_middle. intros [->|Hq]%elem_of_cons; [set_solver|].
           apply elem_of_union_r. by apply D.
      * rewrite pending_other by congruence. apply H3.
Qed.

Hypothesis f_small : 1 ≤ cf_f config < 2^29.

Lemma ProcessElectFB_inv s P d view x sig pid v :
  reports v true → inv s ((CbElect d view x sig pid, v) :: P) →
  inv (ProcessElectFB config s d view x sig pid) P.
Proof.
  intros Hr Hi. unfold ProcessElectFB. destruct (ElectQuorums s !! d) as [e|] eqn:He; [|by apply inv_drop in Hi].
  assert (elect_org s d = e) as Ho by (unfold elect_org; by rewrite He).
  case_bool_decide as Hc; [by apply inv_drop in Hi|].
  pose proof Hi as [H1 HL H2 H3 H4 H5]. apply Forall_cons in H4 as [Hcall H4]. specialize (Hcall Hr).
  destruct (H3 d view x) as (A & B & C & D & F); [by rewrite Ho|]. rewrite Ho in *.
  set (q := quorum_of e view x) in *.
  rewrite pending_same in C, D.
  assert (u64 (vq_count q + 1) = vq_count q + 1) as Hu by (apply Z.mod_small; lia).
  assert (u64 (2 * cf_f config + 1) = 2 * cf_f config + 1) as Hf by (apply Z.mod_small; lia).
  assert (pids (vq_sigs q ++ [mkSig pid sig]) = pids (vq_sigs q) ++ [pid]) as Hpids by (unfold pids; by rewrite fmap_app).
  assert (∀ p, p ∈ pids (vq_sigs q) ++ [pid] → voted p d x view) as Hvot.
  { intros p [Hp| ->%list_elem_of_singleton]%elem_of_app; [by apply F|done]. }
  assert (NoDup ((pids (vq_sigs q) ++ [pid]) ++ pending_votes d view x P)) as Hnd by (by rewrite <- app_assoc).
  rewrite Hu, Hf. destruct (Z.eqb_spec (vq_count q + 1) (2 * cf_f config + 1)) as [Heq|Hneq].
  - apply AdoptDecision_inv.
    { exists (pids (vq_sigs q) ++ [pid]). split; [by apply NoDup_app in Hnd as (? & _)|]. split; [|done].
      unfold pids. rewrite length_app, length_fmap. cbn. lia. }
    eapply p2_quiet_inv; [by apply emit_quiet|]. split; [done|done|done| |done|done].
    apply (votes_ok_set s ((CbElect d view x sig pid, v) :: P)); [done| |].
    + intros d' view' x' Hd. rewrite pending_other by congruence. done.
    + intros view' x'. cbn zeta. cbn [view_complete set_complete set_quorum]. intros Hn.
      assert (view' ≠ view) as Hvne by set_solver.
      specialize (H3 d view' x'). rewrite Ho in H3. destruct H3 as (A' & B' & C' & D' & F'); [set_solver|].
      assert (quorum_of (set_complete view (set_quorum view x (mkVQ (vq_ids q) [] (vq_count q + 1)) e)) view' x' = quorum_of e view' x') as Hq.
      { unfold quorum_of, set_complete, set_quorum. cbn. rewrite lookup_insert_ne by congruence. done. }
      rewrite Hq. rewrite pending_other in C', D' by congruence. by repeat split.
  - split; [done|done|done| |done|done].
    apply (votes_ok_set s ((CbElect d view x sig pid, v) :: P)); [done| |].
    + intros d' view' x' Hd. rewrite pending_other by congruence. done.
    + intros view' x'. cbn zeta. cbn [view_complete set_quorum]. rewrite set_quorum_of.
      case_decide as Hd; simplify_eq; intros Hn.
      * cbn [vq_count vq_sigs vq_ids]. rewrite Hpids. repeat split; [|lia|done| |done].
        -- rewrite length_app, Nat2Z.inj_add, <- A. cbn. lia.
        -- intros p Hp. apply D. by rewrite <- app_assoc in Hp.
      * specialize (H3 d view' x'). try rewrite Ho in H3. destruct H3 as (A' & B' & C' & D' & F'); [done|].
        rewrite pending_other in C', D' by congruence. by repeat split.
Qed.

(** [made]: the votes this replica makes in the run at hand; it signs them. *)
Variable made : digest → CommitDecision → Z → Prop.
Definition makes s : Prop := ∀ d x view, votes s d x view → made d x view.
Hypothesis signing : signedMessages = true.
Hypothesis sign_ok : ∀ d x view, made d x view →
  Verify replica_id (ser_elect (mkElect 0 x view d)) (sign (ser_elect (mkElect 0 x view d))) = true.
Hypothesis parse_ser_elect : ∀ m, parse_elect (ser_elect m) = m.

Lemma voted_own d x view : made d x view → voted replica_id d x view.
Proof.
  intros Hm. eexists _, _. split; [by apply sign_ok|]. by rewrite parse_ser_elect.
Qed.

Lemma emit_votes e s d x view : votes s d x view → votes (emit e s) d x view.
Proof. intros (e' & Hin & He). exists e'. split; [|done]. cbn. apply elem_of_app. by left. Qed.
Lemma AdoptDecision_votes s d0 v0 x0 d x view : votes s d x view → votes (AdoptDecision s d0 v0 x0) d x view.
Proof. intros H. unfold AdoptDecision. case_match; [done|]. by apply emit_votes. Qed.
Lemma SendElectFB_votes s d view x g : votes (SendElectFB config ser_elect sign s d view x g) d x view.
Proof.
  assert (∀ e, vote_of e = Some (d, x, view) → votes (emit e s) d x view) as He.
  { intros e He. exists e. split; [|done]. cbn. apply elem_of_app. right. by left. }
  unfold SendElectFB. case_match; [by apply He|]. specialize (He (ElectFBOwn d x view) eq_refl).
  unfold PreProcessElectFB. case_bool_decide; [done|]. unfold ProcessElectFB. repeat case_match; try done.
  by apply AdoptDecision_votes, emit_votes.
Qed.

Lemma SendElectFB_inv s P d view x g :
  (all_to_all_fb = false → p2m_current_view (p2_meta s d) = view ∧ p2m_p2Decision (p2_meta s d) = x ∧
     p2m_decision_view (p2_meta s d) < view) →
  makes (SendElectFB config ser_elect sign s d view x g) →
  inv s P → inv (SendElectFB config ser_elect sign s d view x g) P.
Proof.
  intros Hst Hmk Hi. specialize (Hmk _ _ _ (SendElectFB_votes s d view x g)). revert Hmk.
  unfold SendElectFB. destruct (negb _); intros Hmk; [by eapply inv_vote|].
  apply (inv_vote s P (ElectFBOwn d x view) d x view) in Hi; [|done|done].
  destruct (PreProcessElectFB _ d view x replica_id) as [s1 first] eqn:Hp.
  eapply (PreProcessElectFB_inv _ _ _ _ _ _ _ _ _ (ByVerify true)) in Hp; [|intros _; by apply voted_own|exact Hi].
  destruct first; [|exact Hp]. by eapply ProcessElectFB_inv; [|exact Hp].
Qed.

(** ** Views *)

Lemma inv_set_move s P d e view c :
  elect_org s d = e → inv s P → inv (set_org s d (set_move view c e)) P.
Proof.
  intros He [H1 HL H2 H3 H4 H5]. split; [done|done|done| |done|done]. apply (votes_ok_set s P); [done|done|].
  intros view' x'. subst e. apply H3.
Qed.

Lemma inv_set_view s P d view :
  p2m_current_view (p2_meta s d) ≤ view → inv s P →
  inv (set_p2_meta s d (set_current_view view (p2_meta s d))) P.
Proof.
  intros Hle Hi. pose proof (inv_meta _ _ Hi d) as [Hv Hc]. apply inv_set_meta; [|cbn; lia|cbn; exact Hc|by left|done].
  split; [done|]. split; [done|]. by intros.
Qed.

Lemma broadcast_inv s P d view s' n :
  broadcast_and_count s d view = (s', n) → inv s P → inv s' P.
Proof.
  unfold broadcast_and_count. intros [= <- <-] Hi. apply inv_set_move; [done|].
  eapply p2_quiet_inv; [by apply emit_quiet|done].
Qed.

Lemma ProcessMoveView_inv s P d view self : inv s P → inv (ProcessMoveView config s d view self) P.
Proof.
  intros Hi. unfold ProcessMoveView. set (e := elect_org s d).
  apply (inv_set_move s P d e view (move_count e view)) in Hi; [|done].
  set (s1 := set_org s d _) in *.
  set (r := if self then _ else _). assert (inv r.1 P) as Hr.
  { subst r. destruct self; [destruct (_.2); [|done]|].
    - destruct (broadcast_and_count s1 d view) as [s2 n] eqn:Hb. by eapply broadcast_inv.
    - cbn [fst]. destruct Hi as [H1 HL H2 H3 H4 H5]. split; [done|done|done| |done|done].
      apply (votes_ok_set s1 P); [done|done|]. intros view' x'.
      specialize (H3 d view' x'). subst s1. rewrite set_org_org, decide_True in H3 by done. exact H3. }
  destruct r as [s2 n]. cbn [fst] in Hr. clearbody s1. clear Hi.
  apply (p2_quiet_inv _ (touch_p2 s2 d)) in Hr; [|apply touch_p2_quiet]. set (s3 := touch_p2 s2 d) in *.
  destruct (Z.gtb_spec view (p2m_current_view (p2_meta s3 d))) as [Hgt|]; [|done].
  set (r := if _ && _ then _ else _). assert (inv r.1 P ∧ p2_meta r.1 d = p2_meta s3 d) as [Hr2 Hm].
  { subst r. destruct (_ && _); [|done]. destruct (broadcast_and_count s3 d view) as [s4 n'] eqn:Hb.
    split; [by eapply broadcast_inv|]. unfold broadcast_and_count in Hb. by simplify_eq. }
  destruct r as [s4 n']. cbn [fst] in *. destruct (_ =? _); [|done]. apply inv_set_view; [rewrite Hm; lia|done].
Qed.

Lemma store_p2_inv s P d x reset s' m :
  store_p2 s d x reset = (s', m) → inv s P → inv s' P ∧ p2_meta s' d = m ∧ p2m_hasP2 m = true.
Proof.
  unfold store_p2. intros Hs Hi. apply (p2_quiet_inv s (touch_p2 s d)) in Hi; [|apply touch_p2_quiet].
  set (s1 := touch_p2 s d) in *. pose proof (inv_meta _ _ Hi d) as [Hv Hc].
  destruct (p2m_hasP2 (p2_meta s1 d)) eqn:Hh; simplify_eq; [by split|].
  assert (p2m_decision_view (p2_meta s1 d) = 0) as H0.
  { destruct (decide (0 < p2m_decision_view (p2_meta s1 d))) as [Hp|]; [|lia]. apply Hc in Hp as [? _]. congruence. }
  rewrite H0. split; [|split; [|done]].
  - apply inv_set_meta; [|destruct reset; cbn; lia|destruct reset; cbn; lia|destruct reset; cbn; lia|done].
    split; [done|]. split; [destruct reset; cbn; lia|]. congruence.
  - rewrite set_p2_meta_meta, decide_True by done. done.
Qed.

Lemma InvokeFBcallback_inv s P d view g remote valid s' :
  all_to_all_fb = false → InvokeFBcallback config ser_elect sign s d view g remote valid = Done s' →
  makes s' → inv s P → inv s' P.
Proof.
  intros Ha Hc Hmk Hi. unfold InvokeFBcallback in Hc. destruct valid; [|by simplify_eq/=].
  cbn [negb] in Hc. apply bind_Done in Hc as ([s1 fw] & Hf & Hc).
  apply (p2_quiet_inv s s1) in Hi; [|by eapply forward_quiet]. destruct fw; [by simplify_eq|].
  apply (p2_quiet_inv _ (touch_p2 s1 d)) in Hi; [|apply touch_p2_quiet]. set (s2 := touch_p2 s1 d) in *.
  destruct (negb (p2m_hasP2 _)); [by simplify_eq|]. rewrite Ha in Hc. cbn [negb andb] in Hc.
  destruct (Z.geb_spec (p2m_current_view (p2_meta s2 d)) view) as [Hge|Hlt]; simplify_eq.
  - eapply p2_quiet_inv; [by apply emit_quiet|done].
  - pose proof (inv_meta _ _ Hi d) as [Hv _]. apply SendElectFB_inv; [|done|apply inv_set_view; [lia|done]].
    intros _. rewrite set_p2_meta_same. cbn. split; [done|]. split; [done|lia].
Qed.

Hypothesis threaded : multiThreading = true.

Notation H_VerifyViews := (VerifyViews config ser_elect parse_view Verify sign).
Notation H_invoke_view := (invoke_view config ser_elect parse_view Verify sign).

Lemma VerifyViews_inv s P msg g remote s' P' :
  all_to_all_fb = false → H_VerifyViews s msg g remote = Done (s', P') → inv s P → inv s' (P' ++ P).
Proof.
  intros Ha Hv Hi. unfold VerifyViews in Hv. destruct (iv_view_signed msg) as [ms|]; [|by simplify_eq].
  rewrite threaded in Hv. apply bind_Done in Hv as (l & _ & Hv). simplify_eq. cbn [app].
  by apply inv_add.
Qed.

Lemma invoke_view_inv s P msg d cv x g remote s' P' :
  H_invoke_view s msg d cv x g remote = Done (s', P') → makes s' → inv s P → inv s' (P' ++ P).
Proof.
  intros Hv Hmk Hi. unfold invoke_view in Hv. destruct all_to_all_fb eqn:Ha; [|by eapply VerifyViews_inv].
  simplify_eq. cbn [app]. apply SendElectFB_inv; [congruence|done|by apply ProcessMoveView_inv].
Qed.

Lemma InvokeFBProcessP2FBCallback_inv s P msg p2fb d remote valid s' P' :
  InvokeFBProcessP2FBCallback config ser_elect parse_view Verify sign s msg p2fb d remote valid = Done (s', P') →
  makes s' → inv s P → inv s' (P' ++ P).
Proof.
  intros Hc Hmk Hi. unfold InvokeFBProcessP2FBCallback in Hc. destruct valid; [|by simplify_eq/=].
  cbn [negb] in Hc. apply bind_Done in Hc as ([s1 fw] & Hf & Hc).
  apply (p2_quiet_inv s s1) in Hi; [|by eapply forward_quiet]. destruct fw; [by simplify_eq|].
  destruct (store_p2 s1 d (f2_decision p2fb) false) as [s2 m] eqn:Hs.
  destruct (store_p2_inv _ _ _ _ _ _ _ Hs Hi) as [Hi2 _]. by eapply invoke_view_inv.
Qed.

Lemma ProcessP2FBCallback_inv s P p2fb d remote valid s' :
  ProcessP2FBCallback s p2fb d remote valid = Done s' → inv s P → inv s' P.
Proof.
  intros Hc Hi. unfold ProcessP2FBCallback in Hc. destruct valid; [|by simplify_eq/=].
  cbn [negb] in Hc. apply bind_Done in Hc as ([s1 fw] & Hf & Hc).
  apply (p2_quiet_inv s s1) in Hi; [|by eapply forward_quiet]. destruct fw; [by simplify_eq|].
  destruct (store_p2 s1 d (f2_decision p2fb) true) as [s2 m] eqn:Hs. simplify_eq.
  destruct (store_p2_inv _ _ _ _ _ _ _ Hs Hi) as (Hi2 & Hm & Hh).
  eapply p2_quiet_inv; [|exact Hi2]. eapply emit_stored_quiet; [done|]. left. unfold stored_p2. by rewrite Hm, Hh.
Qed.

(** ** Handlers *)

(** The reply with the stored decision. *)
Lemma stored_reply_inv s P q d remote :
  p2m_hasP2 (p2_meta s d) = true → inv s P →
  inv (SendPhase2FBReply s q d (mkP2Part (p2m_p2Decision (p2_meta s d)) (p2m_decision_view (p2_meta s d))) None
         {[0 := remote]}) P.
Proof.
  intros Hh Hi. eapply p2_quiet_inv; [|exact Hi]. eapply emit_stored_quiet; [done|]. left.
  unfold stored_p2. by rewrite Hh.
Qed.

Lemma ProcessP2FB_inv s P remote d p2fb s' P' :
  ProcessP2FB config ser_cc parse_p2 Verify s remote d p2fb = Done (s', P') → inv s P → inv s' (P' ++ P).
Proof.
  intros Hc Hi. unfold ProcessP2FB in Hc. apply bind_Done in Hc as ([s1 fw] & Hf & Hc).
  apply (p2_quiet_inv s s1) in Hi; [|by eapply forward_quiet]. destruct fw; [by simplify_eq|].
  apply (p2_quiet_inv _ (touch_p2 s1 d)) in Hi; [|apply touch_p2_quiet]. set (s2 := touch_p2 s1 d) in *.
  destruct (p2m_hasP2 (p2_meta s2 d)) eqn:Hh; [simplify_eq; by apply stored_reply_inv|].
  apply bind_Done in Hc as (otxn & _ & Hc). destruct otxn as [txn|]; [|by simplify_eq].
  apply bind_Done in Hc as (r & _ & Hc). destruct r as [[v|valid]|]; [| |by simplify_eq].
  - simplify_eq. by apply inv_add.
  - apply bind_Done in Hc as (s3 & Hc & Hd). apply ProcessP2FBCallback_inv with (P := P) in Hc; [|done].
    apply bind_Done in Hd as (s4 & Hd & He). simplify_eq.
    destruct (negb valid && _); [by eapply ProcessP2FBCallback_inv|by simplify_eq].
Qed.

Lemma HandlePhase2FB_inv s P remote msg s' P' :
  HandlePhase2FB config ser_cc parse_p2 Verify s remote msg = Done (s', P') → inv s P → inv s' (P' ++ P).
Proof.
  intros Hc Hi. unfold HandlePhase2FB in Hc. apply bind_Done in Hc as ([s1 fw] & Hf & Hc).
  apply (p2_quiet_inv s s1) in Hi; [|by eapply forward_quiet]. destruct fw; [by simplify_eq|].
  set (d := f2_txn_digest msg) in *.
  apply (p2_quiet_inv _ (touch_p2 s1 d)) in Hi; [|apply touch_p2_quiet]. set (s2 := touch_p2 s1 d) in *.
  destruct (p2m_hasP2 (p2_meta s2 d)) eqn:Hh; [simplify_eq; by apply stored_reply_inv|].
  by eapply ProcessP2FB_inv.
Qed.

Lemma InvokeFBProcessP2FB_inv s P remote d p2fb msg s' P' :
  InvokeFBProcessP2FB config ser_cc ser_elect parse_p2 parse_view Verify sign s remote d p2fb msg = Done (s', P') →
  makes s' → inv s P → inv s' (P' ++ P).
Proof.
  intros Hc Hmk Hi. unfold InvokeFBProcessP2FB in Hc.
  apply bind_Done in Hc as (otxn & _ & Hc). destruct otxn as [txn|]; [|by simplify_eq].
  apply bind_Done in Hc as (g & _ & Hc). destruct (negb _); [by simplify_eq|].
  apply bind_Done in Hc as (r & _ & Hc). destruct r as [[v|valid]|]; [| |by simplify_eq].
  - simplify_eq. by apply inv_add.
  - by eapply InvokeFBProcessP2FBCallback_inv.
Qed.

Lemma HandleInvokeFB_inv s P remote msg s' P' :
  HandleInvokeFB config ser_cc ser_elect parse_p2 parse_view Verify sign s remote msg = Done (s', P') →
  makes s' → inv s P → inv s' (P' ++ P).
Proof.
  intros Hc Hmk Hi. unfold HandleInvokeFB in Hc. apply bind_Done in Hc as ([s1 fw] & Hf & Hc).
  apply (p2_quiet_inv s s1) in Hi; [|by eapply forward_quiet]. destruct fw; [by simplify_eq|].
  set (d := iv_txn_digest msg) in *.
  apply (p2_quiet_inv _ (touch_p2 s1 d)) in Hi; [|apply touch_p2_quiet]. set (s2 := touch_p2 s1 d) in *.
  destruct (negb all_to_all_fb && _).
  { simplify_eq. eapply p2_quiet_inv; [by apply emit_quiet|done]. }
  destruct (negb (p2m_hasP2 _)).
  - destruct (iv_p2fb msg) as [p2fb|]; [|by simplify_eq]. by eapply InvokeFBProcessP2FB_inv.
  - apply bind_Done in Hc as (otxn & _ & Hc). destruct otxn as [txn|]; [|by simplify_eq].
    apply bind_Done in Hc as (g & _ & Hc). destruct (negb _); [by simplify_eq|].
    by eapply invoke_view_inv.
Qed.

Lemma HandleElectFB_inv s P msg s' P' :
  HandleElectFB config parse_elect Verify s msg = Done (s', P') → inv s P → inv s' (P' ++ P).
Proof.
  intros Hc Hi. unfold HandleElectFB in Hc. apply bind_Done in Hc as (_ & _ & Hc).
  destruct msg as [m|]; [|by simplify_eq]. destruct (negb (IsReplicaInGroup _ _ _)); [by simplify_eq|].
  cbn zeta in Hc. set (em := parse_elect (sm_data m)) in *. destruct (negb (leader_of _ _ _ =? idx)); [by simplify_eq|].
  apply bind_Done in Hc as ([s1 fin] & Hf & Hc).
  apply (p2_quiet_inv s s1) in Hi; [|by eapply finished_multi_quiet]. destruct fin; [by simplify_eq|].
  destruct (PreProcessElectFB s1 _ _ _ _) as [s2 first] eqn:Hp. rewrite threaded in Hc.
  eapply (PreProcessElectFB_inv _ _ _ _ _ _ _ _ (sm_signature m)
    (ByVerify (Verify (sm_process_id m) (sm_data m) (sm_signature m)))) in Hp; [| |exact Hi].
  - destruct first; simplify_eq/=; done.
  - cbn. intros Hv. exists (sm_data m), (sm_signature m). by rewrite <- Hv.
Qed.

Lemma ElectFBcallback_inv s P d view x sig pid valid v s' :
  reports v valid → ElectFBcallback config s d view x sig pid valid = Done s' →
  inv s ((CbElect d view x sig pid, v) :: P) → inv s' P.
Proof.
  intros Hr Hc Hi. unfold ElectFBcallback in Hc. destruct valid; [|simplify_eq/=; by apply inv_drop in Hi].
  cbn [negb] in Hc. apply bind_Done in Hc as ([s1 fin] & Hf & Hc).
  apply (p2_quiet_inv s s1) in Hi; [|by eapply finished_multi_quiet].
  destruct fin; simplify_eq; [by apply inv_drop in Hi|by eapply ProcessElectFB_inv].
Qed.

Lemma FBDecisionCallback_inv s P d view x valid s' :
  (valid = true → certified d x view) → FBDecisionCallback s d view x valid = Done s' → inv s P → inv s' P.
Proof.
  intros Hr Hc Hi. unfold FBDecisionCallback in Hc. destruct valid; [|by simplify_eq/=].
  cbn [negb] in Hc. apply bind_Done in Hc as ([s1 fin] & Hf & Hc).
  apply (p2_quiet_inv s s1) in Hi; [|by eapply finished_multi_quiet].
  destruct fin; simplify_eq; [done|]. by apply AdoptDecision_inv; [apply Hr|].
Qed.

(** A parallel validation reports [true] only for a certificate. *)
Lemma decision_certified x view groups d g sigs my myDec l :
  GetLogGroup groups d = Done g → 0 ≤ g < 2^32 → Z.of_nat (length sigs) < 2^32 →
  (∀ sig, sig ∈ sigs → 0 ≤ my → sig_process_id sig = my →
     Verify my (ser_elect (mkElect 0 x view d)) (sig_bytes sig) = true) →
  asyncValidateFBDecision config ser_elect Verify x view groups d sigs my myDec = Done l →
  reports (ByP2Jobs l) true → certified d x view.
Proof.
  intros Hg Hr Hl Hmy Ha (order & outs & Hp & Hm & Hin). unfold asyncValidateFBDecision in Ha.
  rewrite Hg in Ha. cbn [mbind outcome_bind] in Ha. injection Ha as <-.
  rewrite sig_votes_exact in Hm; [|done|done|lia|done|done].
  destruct (decide _) as [[_ Hnd]|]; [|simplify_eq; set_solver].
  destruct (decide _); [simplify_eq; set_solver|].
  destruct (decide _) as [[Hacc Hlen]|]; [|done].
  exists (pids sigs). split; [done|]. split; [unfold pids; by rewrite length_fmap|].
  intros pid (sig & -> & Hs)%list_elem_of_fmap. rewrite Forall_forall in Hacc.
  assert (Verify (sig_process_id sig) (ser_elect (mkElect 0 x view d)) (sig_bytes sig) = true) as Hv.
  { destruct (Hacc sig Hs) as [Hown|Hv]; [|done]. unfold mine in Hown.
    rewrite !andb_true_iff, Z.eqb_eq, Z.geb_le in Hown. destruct Hown as [[Heq Hge] _]. rewrite Heq. by apply Hmy. }
  exists (ser_elect (mkElect 0 x view d)), (sig_bytes sig). by rewrite parse_ser_elect.
Qed.

(** A signature this replica may recognise as its own. *)
Definition genuine (msg : DecisionFB) (sig : Signature) : Prop :=
  Verify (sig_process_id sig) (ser_elect (mkElect 0 (df_decision msg) (df_view msg) (df_txn_digest msg)))
    (sig_bytes sig) = true.

Lemma HandleDecisionFB_inv s P msg s' P' :
  Z.of_nat (length (df_elect_sigs msg)) < 2^32 →
  (∀ p t g, heap s !! p = Some t → g ∈ involved_groups t → 0 ≤ g < 2^32) →
  (∀ sig, sig ∈ df_elect_sigs msg → sig_process_id sig = replica_id → genuine msg sig) →
  HandleDecisionFB config ser_elect Verify s msg = Done (s', P') → inv s P → inv s' (P' ++ P).
Proof.
  intros Hl Hgr Hown Hc Hi. unfold HandleDecisionFB in Hc. apply bind_Done in Hc as ([s1 fin] & Hf & Hc).
  assert (heap s1 = heap s) as Hh.
  { unfold finished_multi, ForwardWritebackMulti in Hf. destruct (interestedClients s !! _); [|by simplify_eq].
    apply bind_Done in Hf as (ow & _ & Hf). destruct ow; simplify_eq/=; [|done].
    match goal with |- context [foldl ?f s ?l] => generalize l; generalize s end.
    intros s0 l. revert s0. induction l as [|c l IH]; intros s0; [done|]. cbn. by rewrite IH. }
  apply (p2_quiet_inv s s1) in Hi; [|by eapply finished_multi_quiet]. destruct fin; [by simplify_eq|].
  set (d := df_txn_digest msg) in *.
  apply (p2_quiet_inv _ (touch_p2 s1 d)) in Hi; [|apply touch_p2_quiet]. set (s2 := touch_p2 s1 d) in *.
  destruct (_ || _); [by simplify_eq|]. destruct (ongoing s2 !! d) as [p|]; [|by simplify_eq].
  apply bind_Done in Hc as (txn & Ht & Hc). destruct (my_p2 s2 d) as [my myDec] eqn:Hmy. rewrite threaded in Hc.
  apply bind_Done in Hc as (l & Ha & Hc). simplify_eq. cbn [app]. apply inv_add; [done| |done].
  cbn. intros Hrep. unfold asyncValidateFBDecision in Ha. pose proof Ha as Ha'. apply bind_Done in Ha' as (g & Hg & _).
  eapply (decision_certified (df_decision msg) (df_view msg) (involved_groups txn) d g (df_elect_sigs msg) my myDec);
    [done| |done| |exact Ha|exact Hrep].
  - unfold deref in Ht. destruct (heap _ !! p) as [t|] eqn:Hp; [|done]. simplify_eq.
    apply (Hgr p txn); [by rewrite <- Hh|].
    unfold GetLogGroup in Hg. case_bool_decide; [done|]. case_match eqn:Hlk; [|done]. simplify_eq.
    by eapply list_elem_of_lookup_2.
  - intros sig Hs Hge Heq. unfold my_p2 in Hmy. destruct (LookupP2Decision _ d); injection Hmy as <- <-; [|lia].
    specialize (Hown sig Hs Heq). unfold genuine in Hown. by rewrite Heq in Hown.
Qed.

Lemma HandleMoveView_inv s P msg s' :
  HandleMoveView config parse_move hmac_ok s msg = Done s' → inv s P → inv s' P.
Proof.
  intros Hc Hi. unfold HandleMoveView in Hc. destruct (move_view_message _ _ _) as [m|]; [|by simplify_eq].
  apply bind_Done in Hc as ([s1 fin] & Hf & Hc).
  apply (p2_quiet_inv s s1) in Hi; [|by eapply finished_multi_quiet].
  destruct fin; simplify_eq; [done|by apply ProcessMoveView_inv].
Qed.

Lemma run_call_inv s P c v b s' P' :
  reports v b → run_call config ser_elect parse_view Verify sign s c b = Done (s', P') →
  makes s' → inv s ((c, v) :: P) → inv s' (P' ++ P).
Proof.
  intros Hr Hc Hmk Hi. pose proof (Forall_inv (inv_calls _ _ Hi)) as Hcall. destruct c; cbn in Hc, Hcall.
  - apply inv_drop in Hi. inv_outcome. by eapply ProcessP2FBCallback_inv.
  - apply inv_drop in Hi. by eapply InvokeFBProcessP2FBCallback_inv.
  - apply inv_drop in Hi. inv_outcome. by eapply InvokeFBcallback_inv.
  - apply inv_drop in Hi. inv_outcome. eapply FBDecisionCallback_inv; [|done|done]. intros ->. by apply Hcall.
  - inv_outcome. by eapply ElectFBcallback_inv.
Qed.

(** ** Phase 2 *)

Lemma inv_original s P d q remote m :
  p2_meta s d = m → inv s P → inv (set_p2_meta s d (set_original q remote m)) P.
Proof. intros <- Hi. pose proof (inv_meta _ _ Hi d) as [Hv Hc]. apply inv_set_meta; [|done|done|by left|done].
  split; [done|]. split; [done|]. by intros. Qed.

Lemma phase2_reply_inv s P q d remote (b : bool) m :
  p2_meta s d = m → p2m_hasP2 m = true → inv s P →
  inv (SendPhase2Reply s q d (p2m_p2Decision m) (if b then p2m_decision_view m else 0) remote) P.
Proof.
  intros Hm Hh Hi. eapply p2_quiet_inv; [|exact Hi]. eapply emit_stored_quiet; [done|]. destruct b; [left|by right].
  unfold stored_p2. by rewrite Hm, Hh.
Qed.

Lemma HandlePhase2CB_inv s P remote msg d valid s' :
  HandlePhase2CB s remote msg d valid = Done s' → inv s P → inv s' P.
Proof.
  intros Hc Hi. unfold HandlePhase2CB in Hc. inv_outcome.
  apply (p2_quiet_inv s (touch_p2 s d)) in Hi; [|apply touch_p2_quiet]. set (s1 := touch_p2 s d) in *.
  set (m := log_decision (p2m_decision msg) (p2_meta s1 d)).
  pose proof (inv_meta _ _ Hi d) as [Hv Hc].
  assert (p2m_hasP2 m = true) as Hh.
  { subst m. unfold log_decision. by destruct (p2m_hasP2 _) eqn:?. }
  apply (phase2_reply_inv _ _ _ _ _ _ (set_original (p2_req_id msg) remote m)); [|done|].
  - apply (set_p2_meta_same s1 d).
  - clear Hh. apply inv_set_meta; [| | | |done]; subst m; unfold later, log_decision;
      destruct (p2m_hasP2 (p2_meta s1 d)) eqn:Hp; cbn; try done; try (by left).
    all: intros H0; apply Hc in H0 as [Hx Hy]; congruence || by split.
Qed.

Lemma HandlePhase2_inv s P remote msg s' Q :
  HandlePhase2 config ser_cc Verify TransactionDigest s remote msg = Done (s', Q) → inv s P → inv s' P.
Proof.
  intros Hc Hi. unfold HandlePhase2 in Hc. apply bind_Done in Hc as (od & _ & Hc).
  destruct od as [d|]; [|by simplify_eq].
  apply (p2_quiet_inv s (touch_p2 s d)) in Hi; [|apply touch_p2_quiet]. set (s1 := touch_p2 s d) in *.
  cbn zeta in Hc. destruct (p2m_hasP2 (p2_meta s1 d)) eqn:Hh.
  { simplify_eq. apply (phase2_reply_inv _ _ _ _ _ _ (set_original (p2_req_id msg) remote (p2_meta s1 d))); [|done|].
    - apply (set_p2_meta_same s1 d).
    - by apply inv_original. }
  assert (∀ q x r, inv (SendPhase2Reply s1 q d x 0 r) P) as H0.
  { intros q x r. eapply p2_quiet_inv; [|exact Hi]. eapply emit_stored_quiet; [done|]. by right. }
  destruct (is_committed s1 d); [by simplify_eq|]. destruct (is_aborted s1 d); [by simplify_eq|].
  destruct (if p2_simulated_equiv msg then _ else _) as [my r]. destruct (negb _); [by simplify_eq|].
  apply bind_Done in Hc as (r1 & Ht & Hc). destruct r1 as [p|s2].
  - apply bind_Done in Hc as (txn & _ & Hc). unfold ManagePhase2Validation in Hc. rewrite threaded in Hc.
    apply bind_Done in Hc as (l & _ & Hc). by simplify_eq.
  - simplify_eq. eapply p2_quiet_inv; [|exact Hi]. unfold phase2_txn in Ht.
    destruct (p2_digest msg); [|by case_match]. destruct (ongoing s1 !! d); [by simplify_eq|].
    destruct (p2_txn msg).
    + apply bind_Done in Ht as (t & _ & Ht). case_bool_decide; by simplify_eq.
    + simplify_eq. case_match; (split; [done|]); (split; [done|]); intros e He; left; exact He.
Qed.

(** ** Finishing a transaction *)

(** The part of the state this file is about. *)
Definition fbpart s := (p2MetaDatas s, ElectQuorums s, out s).
Definition fb_same s s' : Prop := fbpart s' = fbpart s.
#[local] Instance fb_same_preorder : PreOrder fb_same.
Proof. split; [done|]. intros s1 s2 s3 H1 H2. unfold fb_same in *. congruence. Qed.

(** Like [p2_quiet], but votes may be discarded. *)
Definition p2_discards s s' : Prop :=
  (∀ d, p2_meta s' d = p2_meta s d) ∧
  (∀ d, elect_org s' d = elect_org s d ∨ elect_org s' d = ElectFBorganizer_init) ∧
  p2_says s s'.
#[local] Instance p2_discards_preorder : PreOrder p2_discards.
Proof.
  split.
  - intros s. split; [done|]. split; [auto|]. apply p2_says_refl.
  - intros s1 s2 s3 (A1 & B1 & C1) (A2 & B2 & C2).
    split; [intros d; by rewrite A2, A1|]. split; [intros d; destruct (B2 d) as [->| ->]; auto|].
    by eapply p2_says_trans.
Qed.
Lemma quiet_discards s s' : p2_quiet s s' → p2_discards s s'.
Proof. intros (A & B & C). split; [done|]. split; auto. Qed.
Lemma same_discards s s' : fb_same s s' → p2_discards s s'.
Proof.
  intros [= Hp He Ho]. split; [intros d; unfold p2_meta; by rewrite Hp|].
  split; [intros d; left; unfold elect_org; by rewrite He|]. intros e. rewrite Ho. auto.
Qed.

Lemma fb_same_foldl {A} (f : server → A → server) l s :
  (∀ s a, fb_same s (f s a)) → fb_same s (foldl f s l).
Proof. intros Hf. revert s. induction l as [|a l IH]; intros s; [done|]. cbn. etrans; [apply Hf|apply IH]. Qed.

Lemma mergeTxReadSets_same s d p s' r x : mergeTxReadSets s d p = Done (s', r, x) → fb_same s s'.
Proof.
  unfold mergeTxReadSets. intros (txn & _ & H)%bind_Done. repeat case_match; simplify_eq; done.
Qed.
Lemma UpdateCommittedReads_same s p d ts pr s' : UpdateCommittedReads s p d ts pr = Done s' → fb_same s s'.
Proof.
  unfold UpdateCommittedReads. intros ([[s1 r] [[rs ds] ps]] & Hm & H)%bind_Done.
  apply bind_Done in H as (txn & _ & H). simplify_eq. etrans; [by eapply mergeTxReadSets_same|].
  etrans; [|by apply fb_same_foldl]. apply fb_same_foldl. intros s2 a. by case_match.
Qed.
Lemma commit_writes_same txn d ts pr s v ws s' ov :
  commit_writes txn d ts pr s v ws = Done (s', ov) → fb_same s s'.
Proof.
  revert s v. induction ws as [|w ws IH]; intros s v H; cbn in H; [by simplify_eq|].
  destruct (w_is_table_col_version w); [by eapply IH|]. destruct (policy_type txn); [|by simplify_eq].
  destruct (negb _); [by eapply IH|]. apply bind_Done in H as (v1 & _ & H).
  apply bind_Done in H as (_ & _ & H). apply bind_Done in H as (_ & _ & H).
  etrans; [|by eapply IH]. by case_match.
Qed.
Lemma CommitToStore_same s pr p d ts v s' : CommitToStore s pr p d ts v = Done s' → fb_same s s'.
Proof.
  unfold CommitToStore. intros (s1 & Hu & H)%bind_Done. apply bind_Done in H as (txn & _ & H).
  apply bind_Done in H as ([s2 ov] & Hw & H). etrans; [by eapply UpdateCommittedReads_same|].
  etrans; [by eapply commit_writes_same|]. destruct ov; simplify_eq; [|done]. by destruct useSemanticCC.
Qed.
Lemma clean_prepared_same s d a h s' : clean_prepared s d a h = Done s' → fb_same s s'.
Proof.
  unfold clean_prepared. destruct (prepared s !! d) as [[ts p]|]; [|by intros [= ->]].
  intros (txn & _ & H)%bind_Done. simplify_eq.
  set (s1 := foldl (clean_read p) s _). set (s2 := foldl _ s1 _). set (s3 := foldl _ s2 _).
  assert (fb_same s s3) as Hs.
  { trans s2; [trans s1|].
    - apply fb_same_foldl. intros s0 x0. unfold clean_read. repeat case_match; done.
    - by apply fb_same_foldl.
    - apply fb_same_foldl. intros s0 x0. unfold clean_write. by case_match. }
  etrans; [exact Hs|]. by destruct (a || h).
Qed.
Lemma Clean_discards s d a h s' : Clean s d a h = Done s' → p2_discards s s'.
Proof.
  unfold Clean. intros (s2 & Hc & H)%bind_Done. apply clean_prepared_same in Hc.
  match type of Hc with fb_same ?s1 _ => assert (fb_same s s1) as Hs by (by repeat case_match) end.
  etrans; [apply same_discards; etrans; [exact Hs|exact Hc]|]. simplify_eq. clear.
  assert (∀ s', out s' = out s2 → p2MetaDatas s' = p2MetaDatas s2 → ElectQuorums s' = delete d (ElectQuorums s2) →
            p2_discards s2 s') as Hd.
  { intros s' Ho Hp He. split; [intros x; unfold p2_meta; by rewrite Hp|]. split; [|intros e; rewrite Ho; auto].
    intros x. unfold elect_org. rewrite He. destruct (decide (d = x)) as [->|].
    - rewrite lookup_delete_eq. by right.
    - rewrite lookup_delete_ne by done. by left. }
  destruct h; by apply Hd.
Qed.

Lemma WakeAll_quiet s d r c s' : WakeAllInterestedFallbacks s d r c = Done s' → p2_quiet s s'.
Proof.
  unfold WakeAllInterestedFallbacks. destruct (interestedClients s !! d) as [cl|]; [|by intros [= ->]].
  intros ([s1 fw] & Hf & Hw)%bind_Done. apply forward_multi_quiet in Hf.
  destruct fw; [by simplify_eq|]. apply bind_Done in Hw as (p1 & _ & [= <-]).
  etrans; [exact Hf|]. etrans; [apply touch_p2_quiet|].
  set (s2 := touch_p2 s1 d). destruct (stored_p2 (p2_meta s2 d)) as [p|] eqn:Hs.
  - eapply emit_stored_quiet; [reflexivity|]. by left.
  - by apply emit_quiet.
Qed.
Lemma wake_dependent_discards d s x s' : wake_dependent d s x = Done s' → p2_discards s s'.
Proof.
  unfold wake_dependent. destruct (waitingDependencies s !! x) as [w|]; [|by intros [= ->]].
  case_bool_decide; [|intros [= <-]; by apply same_discards]. intros (r & Hr & Hw0)%bind_Done.
  apply bind_Done in Hw0 as (_ & _ & Hw1). apply bind_Done in Hw1 as ([s2 b] & Hb & Hw2).
  apply bind_Done in Hw2 as (s3 & Hw & Hw3). simplify_eq.
  assert (p2_discards s s2) as H2.
  { unfold BufferP1Result in Hb. case_bool_decide.
    - apply bind_Done in Hb as (s4 & Hcl & Hb). simplify_eq. by apply Clean_discards in Hcl.
    - destruct (buffer_entry _ _ _ _ _ _ _ _ _) as [m b']. simplify_eq. by apply same_discards. }
  etrans; [exact H2|]. apply WakeAll_quiet, quiet_discards in Hw. etrans; [|by etrans; [exact Hw|apply same_discards]].
  destruct (b_original_sub b); [|done]. by apply quiet_discards, emit_quiet.
Qed.
Lemma CheckDependents_discards s d s' : CheckDependents s d = Done s' → p2_discards s s'.
Proof.
  unfold CheckDependents. destruct (dependents s !! d); [|by intros [= ->]].
  intros (s1 & Hf & H)%bind_Done. simplify_eq. trans s1; [|by apply same_discards].
  revert s Hf. generalize (elements g). induction l as [|x l IH]; intros s Hf; cbn in Hf; [simplify_eq; reflexivity|].
  apply bind_Done in Hf as (s2 & Hw & Hf). etrans; [by eapply wake_dependent_discards|by apply IH].
Qed.
Lemma emit_discards e s s' : vote_of e = None → signed_p2 e = None → p2_discards s s' → p2_discards s (emit e s').
Proof. intros Hv He H. etrans; [exact H|]. by apply quiet_discards, emit_quiet. Qed.

Lemma Commit_discards s d p g b v s' : Commit s d p g b v = Done s' → p2_discards s s'.
Proof.
  unfold Commit. intros (txn & _ & H)%bind_Done. unfold insert_committed in H.
  destruct (committed s !! d); apply bind_Done in H as (_ & _ & H); cbn [andb] in H; [by simplify_eq|].
  unfold finish_commit in H. apply bind_Done in H as (s1 & H1 & H). apply bind_Done in H as (s2 & H2 & H).
  apply bind_Done in H as (s3 & H3 & H). simplify_eq. apply emit_discards; [done|done|].
  apply CommitToStore_same, same_discards in H1. apply Clean_discards in H2. apply CheckDependents_discards in H3.
  etrans; [|by etrans; [exact H1|etrans; [exact H2|etrans; [exact H3|apply same_discards]]]].
  apply same_discards. by destruct (validateProofs && signedMessages).
Qed.
Lemma Abort_discards s d p s' : Abort s d p = Done s' → p2_discards s s'.
Proof.
  unfold Abort. intros (s2 & H2 & H)%bind_Done. apply bind_Done in H as (s3 & H3 & H).
  apply bind_Done in H as (txn & _ & H). simplify_eq.
  apply Clean_discards in H2. apply CheckDependents_discards in H3. apply emit_discards; [done|done|].
  etrans; [etrans; [by apply same_discards|etrans; [exact H2|exact H3]]|].
  set (s4 := ClearRTS _ _ _). assert (fb_same s3 s4) as H4.
  { trans (CleanDependencies s3 d); [done|]. subst s4. unfold ClearRTS. repeat case_match; try done. by apply fb_same_foldl. }
  etrans; [apply same_discards; exact H4|].
  etrans; [apply (quiet_discards _ (emit (CleanQueriesCall d false) s4)), emit_quiet; done|].
  apply same_discards. by destruct useSemanticCC.
Qed.
Lemma WritebackCallback_discards s msg d p valid s' :
  WritebackCallback s msg d p valid = Done s' → p2_discards s s'.
Proof.
  unfold WritebackCallback. intros (_ & _ & H)%bind_Done. destruct (_ || _); [by simplify_eq|].
  destruct (wb_decision msg).
  - destruct (commit_args msg) as [[g b] v]. by eapply Commit_discards.
  - by apply Abort_discards in H.
Qed.
Lemma clean_again_discards s d s' Q : clean_again s d = Done (s', Q) → p2_discards s s'.
Proof.
  unfold clean_again. intros (s1 & H & He)%bind_Done. simplify_eq.
  destruct owns_message; [by eapply Clean_discards|by simplify_eq].
Qed.
Lemma ManageWritebackValidation_discards s msg d p s' Q :
  ManageWritebackValidation config ser_cc ser_p2 Verify TransactionDigest s msg d p = Done (s', Q) → p2_discards s s'.
Proof.
  unfold ManageWritebackValidation. intros (txn & _ & H)%bind_Done. rewrite threaded in H.
  assert (∀ valid, (s ← WritebackCallback s msg d p valid; Done (s, [])) = Done (s', Q) → p2_discards s s') as Hf.
  { intros valid (s1 & Hw & He)%bind_Done. simplify_eq. by eapply WritebackCallback_discards. }
  destruct (negb validateProofs); [by eapply Hf|].
  destruct (my_p1 s d) as [my1 r1], (my_p2 s d) as [my2 d2], signedMessages, (wb_reply msg); try done;
    repeat case_match; try done; try (by eapply Hf); try (by simplify_eq);
    apply bind_Done in H as (l & _ & H); by simplify_eq.
Qed.
Lemma writeback_txn_discards s remote msg d s' :
  writeback_txn TransactionDigest s remote msg d = Done (inr s') → p2_discards s s'.
Proof.
  unfold writeback_txn. destruct (ongoing s !! d); [done|]. destruct (wb_txn msg) as [p|].
  - intros (t & _ & H)%bind_Done. case_bool_decide; by simplify_eq.
  - intros (_ & _ & H)%bind_Done. simplify_eq. apply same_discards. by repeat case_match.
Qed.
Lemma HandleWriteback_discards s remote msg s' Q :
  HandleWriteback config ser_cc ser_p2 Verify TransactionDigest s remote msg = Done (s', Q) → p2_discards s s'.
Proof.
  unfold HandleWriteback.
  assert (∀ s d p, (txn ← deref s p; let '(dropped, s) := drops_commit s msg d txn in
    if dropped : bool then Done (s, [])
    else ManageWritebackValidation config ser_cc ser_p2 Verify TransactionDigest s msg d p) = Done (s', Q) →
    p2_discards s s') as Hval.
  { intros s1 d p (txn & _ & H)%bind_Done.
    destruct (drops_commit s1 msg d txn) as [dropped s2] eqn:Hd.
    assert (fb_same s1 s2) as Hs by (unfold drops_commit in Hd; repeat case_match; by simplify_eq).
    etrans; [by apply same_discards|].
    destruct dropped; [by simplify_eq|by eapply ManageWritebackValidation_discards]. }
  destruct (wb_txn_digest msg) as [d|].
  - destruct (finished s d); [apply clean_again_discards|]. intros (r & Hr & H)%bind_Done.
    destruct r as [p|s1]; [by eapply Hval|]. simplify_eq. by eapply writeback_txn_discards.
  - destruct (wb_txn msg) as [p|]; [|done]. intros (t & _ & H)%bind_Done.
    destruct (finished s _); [by eapply clean_again_discards|by eapply Hval].
Qed.

(** Votes may be discarded when none of them is being verified. *)
Definition keeps P s s' : Prop :=
  ∀ d, elect_org s' d = elect_org s d ∨ ∀ view x, pending_votes d view x P = [].
Lemma inv_discards s s' P : p2_discards s s' → keeps P s s' → inv s P → inv s' P.
Proof.
  intros (Hm & He & Ho) Hk [H1 HL H2 H3 H4 H5]. destruct (decisions_says s s' Hm Ho) as (D1 & D2 & D3).
  split; [auto| |auto| |done|auto].
  - intros d. rewrite Hm. apply HL.
  - intros d view x. cbn zeta. destruct (Hk d) as [->|Hn]; [apply H3|]. destruct (He d) as [->| ->]; [apply H3|].
    intros _. rewrite Hn. change (quorum_of _ view x) with VoteQuorum_init. split; [done|].
    split; [change (0 < 2 * cf_f config + 1); lia|]. split; [constructor|].
    by split; intros pid Hp%elem_of_nil.
Qed.

(** ** The replica as a transition system

    A message is handled, or a validation of the fallback completes.  The
    validations of phase 2 and of writebacks are not tracked: their callbacks
    may run with any result.  Steps of the rest of the server
    ([fs_other]) leave this part of the state alone, up to replies with stored
    decisions. *)
Inductive fb_step : server * pending → server * pending → Prop :=
| fs_phase2fb s P remote msg s' P' :
    HandlePhase2FB config ser_cc parse_p2 Verify s remote msg = Done (s', P') → fb_step (s, P) (s', P' ++ P)
| fs_invoke s P remote msg s' P' :
    HandleInvokeFB config ser_cc ser_elect parse_p2 parse_view Verify sign s remote msg = Done (s', P') →
    fb_step (s, P) (s', P' ++ P)
| fs_elect s P msg s' P' :
    HandleElectFB config parse_elect Verify s msg = Done (s', P') → fb_step (s, P) (s', P' ++ P)
| fs_decision s P msg s' P' :
    Z.of_nat (length (df_elect_sigs msg)) < 2^32 →
    (∀ p t g, heap s !! p = Some t → g ∈ involved_groups t → 0 ≤ g < 2^32) →
    (∀ sig, sig ∈ df_elect_sigs msg → sig_process_id sig = replica_id → genuine msg sig) →
    HandleDecisionFB config ser_elect Verify s msg = Done (s', P') → fb_step (s, P) (s', P' ++ P)
| fs_move s P msg s' :
    HandleMoveView config parse_move hmac_ok s msg = Done s' → fb_step (s, P) (s', P)
| fs_complete s P c v b P1 s' P' :
    P ≡ₚ (c, v) :: P1 → reports v b →
    run_call config ser_elect parse_view Verify sign s c b = Done (s', P') → fb_step (s, P) (s', P' ++ P1)
| fs_phase2 s P remote msg s' Q :
    HandlePhase2 config ser_cc Verify TransactionDigest s remote msg = Done (s', Q) → fb_step (s, P) (s', P)
| fs_phase2_cb s P remote msg d valid s' :
    HandlePhase2CB s remote msg d valid = Done s' → fb_step (s, P) (s', P)
| fs_writeback s P remote msg s' Q :
    HandleWriteback config ser_cc ser_p2 Verify TransactionDigest s remote msg = Done (s', Q) →
    keeps P s s' → fb_step (s, P) (s', P)
| fs_writeback_cb s P msg d p valid s' :
    WritebackCallback s msg d p valid = Done s' → keeps P s s' → fb_step (s, P) (s', P)
| fs_other s P s' : p2_discards s s' → keeps P s s' → fb_step (s, P) (s', P).

Definition made_step (c c' : server * pending) : Prop := fb_step c c' ∧ makes c'.1.

Lemma made_step_inv s P s' P' : made_step (s, P) (s', P') → inv s P → inv s' P'.
Proof.
  intros [Hs Hmk] Hi. inv Hs.
  - by eapply HandlePhase2FB_inv.
  - by eapply HandleInvokeFB_inv.
  - by eapply HandleElectFB_inv.
  - by eapply HandleDecisionFB_inv.
  - by eapply HandleMoveView_inv.
  - eapply run_call_inv; [done|done|done|]. by eapply inv_perm.
  - by eapply HandlePhase2_inv.
  - by eapply HandlePhase2CB_inv.
  - eapply inv_discards; [by eapply HandleWriteback_discards|done|done].
  - eapply inv_discards; [by eapply WritebackCallback_discards|done|done].
  - by eapply inv_discards.
Qed.
Lemma made_steps_inv s P s' P' : rtc made_step (s, P) (s', P') → inv s P → inv s' P'.
Proof.
  intros H. remember (s, P) as c eqn:Hc. remember (s', P') as c' eqn:Hc'. revert s P Hc.
  induction H as [|c [s1 P1] c' Hs _ IH]; intros; simplify_eq; [done|].
  eapply IH; [done|done|]. by eapply made_step_inv.
Qed.
End safety.
