(* ===== verification/FallbackExamples.v ===== *)
(** * Concrete runs of the fallback

    Six replicas, the first of them faulty.  The others log COMMIT, elect in
    view 1, adopt the decision of view 1 and vote in view 2. *)
From Stdlib Require Import Ascii.
From S2P Require Import Prelude OrderedSeq CppString Timestamp VersionStore Policy PolicyParse ServerState ServerTxn MVTSO MVTSOSafety DemoEnv Quorum AsyncVerify Phase2 Fallback FallbackSafety FallbackAgreement Phase2Safety.

(** ** An injective encoding of votes *)

#[export] Instance ElectMsg_eq_dec : EqDecision ElectMsg.
Proof. solve_decision. Defined.
#[export] Instance P2Part_eq_dec : EqDecision P2Part.
Proof. solve_decision. Defined.
#[export] Program Instance ElectMsg_countable : Countable ElectMsg :=
  inj_countable' (λ m, (el_req_id m, el_decision m, el_view m, el_txn_digest m)) (λ t, let '(a, b, c, d) := t in mkElect a b c d) _.
Next Obligation. by intros []. Qed.

Fixpoint pos_str (p : positive) : string :=
  match p with xH => EmptyString | xO p => String "0"%char (pos_str p) | xI p => String "1"%char (pos_str p) end.
Fixpoint str_pos (s : string) : positive :=
  match s with EmptyString => xH | String c s => if bool_decide (c = "0"%char) then xO (str_pos s) else xI (str_pos s) end.
Lemma str_pos_str p : str_pos (pos_str p) = p.
Proof. induction p as [p IH|p IH|]; cbn; [by rewrite IH..|done]. Qed.

Definition ser_elect (m : ElectMsg) : string := String "E"%char (pos_str (encode m)).
Definition no_vote : ElectMsg := mkElect 0 DCOMMIT 0 "".
Definition parse_elect (s : string) : ElectMsg :=
  match s with
  | String c s => if bool_decide (c = "E"%char) then default no_vote (decode (str_pos s)) else no_vote
  | EmptyString => no_vote
  end.
Lemma parse_ser_elect m : parse_elect (ser_elect m) = m.
Proof. cbn. by rewrite str_pos_str, decode_encode. Qed.

(** ** The replicas *)

Definition fb_env (threads : bool) (pid : Z) : Env := {|
  validateProofs := true; signedMessages := true; verifyDeps := false;
  signClientProposals := false; multiThreading := threads; mainThreadDispatching := false;
  dispatchMessageReceive := false; all_to_all_fb := false;
  rtsMode := 0; maxDepDepth := -1; no_fallback := false; sql_mode := false;
  useSemanticCC := false; cacheReadSet := false; mergeActiveAtClient := true;
  hideTimestamps := false; policyCCC := false; parallelEndorsementCheck := false;
  serverSkipEndorsementCheck := false; includeReadsetForTxnPolicy := false;
  checkPolicyLeak := false; signFinishValidation := false; simulate_inconsistency := false;
  disable_prepare_visibility := true; config_n := 6; idx := pid; replica_id := pid; groupIdx := 0; numGroups := 1;
  timeDelta := 0; part := λ _, 0; policyIdFunction := λ _ _, "p#0"; TimestampDigest := λ _, "";
  parse_PolicyObject := λ _, mkPolicyObject WEIGHT_POLICY "0"; proto_codec := {| ser_u64 := λ _, ""; parse_u64 := λ _, 0;
    ser_ids := λ _, ""; parse_ids := λ _, [] |};
  parse_ValTxnMsg := λ x, x; verify_client := λ _ _ _, true;
  sem_state := unit; CheckMonotonicTableColVersions := λ _ _ _, true;
  CheckPredicates := λ _ _ _ _ _, (COMMIT, []);
  RecordReadPredicatesAndWrites := λ x _ _ _, x; ClearPredicateAndWrites := λ x _, x;
  ApplyTableWrites := λ _ _ _, []; mergeQueries := λ _ _, (COMMIT, None)
|}.

Definition config : Configuration := Configuration_new 6 1 {[0 := ["a"; "b"; "c"; "d"; "e"; "f"]]}.
Definition no_cc (_ : CCMsg) : string := "".
Definition no_p2 (_ : P2Msg) : string := "".
Definition parse_p2 (_ : string) : P2Msg := mkP2Msg DCOMMIT 0 0 "".
Definition parse_view (s : string) : ViewMsg := mkView (if bool_decide (s = "V1") then 1 else 0) "A".
Definition parse_move (_ : string) : MoveViewMessage := mkMoveView "" 0.
Definition no_digest (_ : Transaction) : digest := "".
Definition hmac_ok (_ : SignedMessage) : bool := true.
Definition sign (_ : string) : string := "ok".
Definition ballot (x : CommitDecision) (view : Z) : string := ser_elect (mkElect 0 x view "A").
(** Each member has signed its current views and a COMMIT vote in views 1 and 2. *)
Definition Verify (pid : Z) (data sig : string) : bool :=
  (0 <=? pid) && (pid <? 6) && bool_decide (sig = "ok") &&
  bool_decide (data ∈ ["V0"; "V1"; ballot DCOMMIT 1; ballot DCOMMIT 2]).

Definition txn : Transaction :=
  mkTxn 1 1 [] [] [] (mkTs 20000 1) [] [] [] (Some "A") None NONE [] [] "" [] [] [0].
Definition start {E : Env} (sem0 : sem_state) : server :=
  upd_ongoing (insert "A" 1%positive) (upd_heap (insert 1%positive txn) (server_init sem0)).

(** ** Executing steps *)

Inductive cmd := LogCommit | Invoke (view : Z) (data : string) | Decide (msg : DecisionFB) | Complete.
Definition phase2_msg : Phase2 := mkPhase2 1 DCOMMIT None (Some "A") [] false.
Definition invoke_msg (view : Z) (data : string) : InvokeFB :=
  mkInvoke 1 "A" None view false (Some ((λ pid, mkSigned pid data "ok") <$> [2; 3; 4; 5])).
Definition decision_msg (x : CommitDecision) (view : Z) (l : list Z) : DecisionFB :=
  mkDecisionFB "A" x view ((λ pid, mkSig pid "ok") <$> l).

Section votes_of.
Context `{E : Env}.
Definition votes_of (s : server) : list (digest * CommitDecision * Z) := omap vote_of (out s).

Lemma votes_of_spec (s : server) d x view : (d, x, view) ∈ votes_of s ↔ votes s d x view.
Proof. unfold votes_of, votes. rewrite list_elem_of_omap. naive_solver. Qed.
End votes_of.

Section exec.
Variable Vf : Z → string → string → bool.
Context `{E : Env}.

Definition calls (v : validation) : outcome (list bool) :=
  match v with
  | ByP1Jobs l => mcb_calls asyncValidateP1RepliesCallback l (jobs_of l)
  | ByP2Jobs l => mcb_calls asyncValidateP2RepliesCallback l (jobs_of l)
  | ByVerify b => Done [b]
  end.
Lemma calls_reports v outs b : calls v = Done outs → b ∈ outs → reports v b.
Proof.
  destruct v as [l|l|x]; cbn; intros Hc Hin; [by eexists _, outs..|]. simplify_eq. by apply list_elem_of_singleton in Hin.
Qed.

Definition groups_ok (s : server) : bool :=
  bool_decide (map_Forall (λ _ t, Forall (λ g, 0 ≤ g < 2^32) (involved_groups t)) (heap s)).
Definition sigs_ok (msg : DecisionFB) : bool :=
  (Z.of_nat (length (df_elect_sigs msg)) <? 2^32) &&
  forallb (λ sig, Vf (sig_process_id sig)
    (ser_elect (mkElect 0 (df_decision msg) (df_view msg) (df_txn_digest msg))) (sig_bytes sig)) (df_elect_sigs msg).
Definition exec (c : cmd) (q : server * pending) : outcome (server * pending) :=
  let '(s, P) := q in
  match c with
  | LogCommit => s ← HandlePhase2CB s 9 phase2_msg "A" true; Done (s, P)
  | Invoke view data =>
      '(s, P') ← HandleInvokeFB config no_cc ser_elect parse_p2 parse_view Vf sign s 9 (invoke_msg view data);
      Done (s, P' ++ P)
  | Decide msg =>
      _ ← uw_assert (groups_ok s && sigs_ok msg);
      '(s, P') ← HandleDecisionFB config ser_elect Vf s msg; Done (s, P' ++ P)
  | Complete =>
      match P with
      | [] => Panic
      | (c, v) :: P =>
          outs ← calls v;
          _ ← uw_assert (bool_decide (true ∈ outs));
          '(s, P') ← run_call config ser_elect parse_view Vf sign s c true; Done (s, P' ++ P)
      end
  end.
(** The states of a run, the first one included. *)
Fixpoint trace (cs : list cmd) (q : server * pending) : outcome (list (server * pending)) :=
  match cs with
  | [] => Done [q]
  | c :: cs => q' ← exec c q; l ← trace cs q'; Done (q :: l)
  end.
Fixpoint final (cs : list cmd) (q : server * pending) : server * pending :=
  match cs with
  | [] => q
  | c :: cs => match exec c q with Done q' => final cs q' | Panic => q end
  end.
Notation step := (fb_step config no_cc no_p2 ser_elect parse_p2 parse_view parse_elect parse_move Vf sign hmac_ok no_digest).

Lemma exec_step c q q' : exec c q = Done q' → step q q'.
Proof.
  destruct q as [s P], c; cbn [exec]; intros H.
  - apply bind_Done in H as (s' & Hs & [= <-]). by eapply fs_phase2_cb.
  - apply bind_Done in H as ([s' P'] & Hs & [= <-]). by eapply fs_invoke.
  - apply bind_Done in H as (u & Ha & H). apply bind_Done in H as ([s' P'] & Hs & [= <-]).
    unfold uw_assert in Ha. destruct (groups_ok s && sigs_ok msg) eqn:Hok; [|done].
    apply andb_true_iff in Hok as [Hg Hs2]. unfold groups_ok in Hg. apply bool_decide_eq_true in Hg.
    unfold sigs_ok in Hs2. apply andb_true_iff in Hs2 as [Hl Hv]. apply Z.ltb_lt in Hl.
    eapply fs_decision; [done| | |done].
    + intros p t g Hp Hin. specialize (Hg p t Hp). rewrite Forall_forall in Hg. by apply Hg.
    + intros sig Hin _. unfold genuine. rewrite forallb_forall in Hv. apply Hv. by apply list_elem_of_In.
  - destruct P as [|[c v] P]; [done|]. apply bind_Done in H as (outs & Hc & H). apply bind_Done in H as (u & Ha & H).
    apply bind_Done in H as ([s' P'] & Hs & [= <-]).
    unfold uw_assert in Ha. case_bool_decide; [|done]. by eapply fs_complete; [|eapply calls_reports|].
Qed.

Definition made_ok (made : list (digest * CommitDecision * Z)) (q : server * pending) : bool :=
  forallb (λ v, bool_decide (v ∈ made)) (votes_of q.1).
Lemma made_ok_makes (sf : server) q : made_ok (votes_of sf) q = true → makes (votes sf) q.1.
Proof.
  intros H d x view Hv%votes_of_spec. apply votes_of_spec. unfold made_ok in H. rewrite forallb_forall in H.
  apply list_elem_of_In in Hv. apply H in Hv. by apply bool_decide_eq_true in Hv.
Qed.
Lemma trace_run cs q l (sf : server) :
  trace cs q = Done l → forallb (made_ok (votes_of sf)) l = true →
  rtc (made_step config no_cc no_p2 ser_elect parse_p2 parse_view parse_elect parse_move Vf sign hmac_ok no_digest
         (votes sf)) q (final cs q).
Proof.
  revert q l. induction cs as [|c cs IH]; intros q l H Hok; cbn in *; [apply rtc_refl|].
  apply bind_Done in H as (q' & He & H). apply bind_Done in H as (l' & Hl & [= <-]). rewrite He.
  cbn in Hok. apply andb_true_iff in Hok as [_ Hok]. eapply rtc_l; [|by eapply IH].
  split; [by eapply exec_step|]. apply made_ok_makes.
  destruct cs; cbn in Hl; [simplify_eq; cbn in Hok; by apply andb_true_iff in Hok as [? _]|].
  apply bind_Done in Hl as (q2 & _ & Hl). apply bind_Done in Hl as (l2 & _ & [= <-]).
  cbn in Hok. by apply andb_true_iff in Hok as [? _].
Qed.
End exec.

(** ** Agreement *)

Module Agreement.
Definition script : list cmd :=
  [LogCommit; Invoke 1 "V0"; Complete; Decide (decision_msg DCOMMIT 1 [2; 3; 4]); Complete; Invoke 2 "V1"; Complete].
Definition last (pid : Z) : @server (fb_env true pid) * pending :=
  @final Verify (fb_env true pid) script (@start (fb_env true pid) tt, []).
Definition replica_at (pid : Z) (q : @server (fb_env true pid) * pending) : replica :=
  mkReplica (fb_env true pid) sign hmac_ok (@start (fb_env true pid) tt) q.1 q.2.
Definition run (pid : Z) : replica := replica_at pid (last pid).
Definition members : gset Z := list_to_set (seqZ 0 6).
Definition faulty : gset Z := {[0]}.

(** What is checked by evaluation, of each replica. *)
Definition all_votes : list (digest * CommitDecision * Z) := [("A", DCOMMIT, 1); ("A", DCOMMIT, 2)].
Definition good (pid : Z) : bool :=
  ((0 <=? pid) && (pid <? 6)) &&
  match @trace Verify (fb_env true pid) script (@start (fb_env true pid) tt, []) with
  | Panic => false
  | Done l => forallb (@made_ok (fb_env true pid) (@votes_of (fb_env true pid) (last pid).1)) l
  end &&
  bool_decide (@votes_of (fb_env true pid) (last pid).1 = all_votes) &&
  bool_decide (("A", mkP2Part DCOMMIT 1) ∈ omap signed_p2 (@out (fb_env true pid) (last pid).1)).
Lemma all_good : forallb good [1; 2; 3; 4; 5] = true.
Proof. vm_compute. reflexivity. Qed.

Lemma good_all pid : pid ∈ members → pid ∉ faulty → good pid = true.
Proof.
  intros Hm Hf. assert (pid ∈ [1; 2; 3; 4; 5]) as Hin.
  { unfold members, faulty in *. rewrite elem_of_list_to_set, elem_of_seqZ in Hm.
    assert (pid ≠ 0) by set_solver. assert (pid = 1 ∨ pid = 2 ∨ pid = 3 ∨ pid = 4 ∨ pid = 5) by lia. set_solver. }
  pose proof all_good as H. rewrite forallb_forall in H. apply H. by apply list_elem_of_In.
Qed.
Lemma good_votes pid x view :
  good pid = true → @votes (fb_env true pid) (last pid).1 "A" x view ↔ x = DCOMMIT ∧ (view = 1 ∨ view = 2).
Proof.
  unfold good. rewrite !andb_true_iff. intros [[_ Hv] _]. apply bool_decide_eq_true in Hv.
  rewrite <- votes_of_spec, Hv. unfold all_votes. rewrite !elem_of_cons, elem_of_nil.
  split; [intros [[= -> ->]|[[= -> ->]|[]]]; auto|]. intros [-> [->| ->]]; auto.
Qed.
Lemma Verify_ballot pid view : good pid = true → view = 1 ∨ view = 2 → Verify pid (ballot DCOMMIT view) "ok" = true.
Proof.
  unfold good, Verify. rewrite !andb_true_iff. intros [[[[? ?] _] _] _] Hv. split; [by split_and!|].
  apply bool_decide_eq_true. destruct Hv as [-> | ->]; rewrite !elem_of_cons; auto.
Qed.
Lemma replica_run pid q l :
  @trace Verify (fb_env true pid) script (@start (fb_env true pid) tt, []) = Done l →
  @final Verify (fb_env true pid) script (@start (fb_env true pid) tt, []) = q →
  forallb (@made_ok (fb_env true pid) (@votes_of (fb_env true pid) q.1)) l = true →
  @votes_of (fb_env true pid) q.1 = all_votes → (∀ view, view = 1 ∨ view = 2 → Verify pid (ballot DCOMMIT view) "ok" = true) →
  correct_run config no_cc no_p2 ser_elect parse_p2 parse_view parse_elect parse_move Verify no_digest pid
    (replica_at pid q).
Proof.
  intros Ht Hf Hm Hl Hb. split; [done|done|done| |by split_and!|].
  - intros d x view Hv. apply votes_of_spec in Hv. cbn [replica_at r_env r_state r_sign] in *.
    rewrite Hl in Hv. unfold all_votes in Hv. rewrite !elem_of_cons, elem_of_nil in Hv.
    destruct Hv as [[= -> -> ->]|[[= -> -> ->]|[]]]; apply Hb; auto.
  - pose proof (trace_run Verify script _ l q.1 Ht Hm) as Hr. rewrite Hf in Hr. by destruct q.
Qed.
Lemma good_run pid : good pid = true →
  correct_run config no_cc no_p2 ser_elect parse_p2 parse_view parse_elect parse_move Verify no_digest pid (run pid).
Proof.
  intros Hg. pose proof (λ view, Verify_ballot pid view Hg) as Hb. unfold good in Hg. rewrite !andb_true_iff in Hg.
  destruct Hg as [[[_ Hg] Hl] _]. apply bool_decide_eq_true in Hl.
  destruct (trace _ _ _) as [l|] eqn:Ht; [|done]. exact (replica_run pid (last pid) l Ht eq_refl Hg Hl Hb).
Qed.

(** Everything signed under the name of a member is a vote it made. *)
Lemma votes_made pid z u :
  0 < u → pid ∉ faulty → voted parse_elect Verify pid "A" z u →
  pid ∈ members ∧ @votes (r_env (run pid)) (r_state (run pid)) "A" z u.
Proof.
  intros Hu Hf (data & sig & Hv & Hd & Hz & Hw). unfold Verify in Hv. rewrite !andb_true_iff in Hv.
  destruct Hv as [[[H0 H6] _] Hin]. apply Z.leb_le in H0. apply Z.ltb_lt in H6. apply bool_decide_eq_true in Hin.
  assert (pid ∈ members) as Hm by (unfold members; rewrite elem_of_list_to_set, elem_of_seqZ; lia).
  split; [done|]. pose proof (good_all pid Hm Hf) as Hg. apply (good_votes pid z u Hg).
  rewrite !elem_of_cons, elem_of_nil in Hin.
  destruct Hin as [->|[->|[->|[->|[]]]]]; [vm_compute in Hw; lia..| |];
    unfold ballot in *; rewrite parse_ser_elect in *; cbn in Hz, Hw; subst; auto.
Qed.

Lemma voted_commit l view :
  NoDup l → length l = 3%nat → l ⊆ [1; 2; 3; 4; 5] → view = 1 ∨ view = 2 →
  certified config parse_elect Verify "A" DCOMMIT view.
Proof.
  intros Hn Hl Hs Hv. exists l. split; [done|]. split; [by rewrite Hl|]. intros pid Hp%Hs.
  exists (ballot DCOMMIT view), "ok". unfold ballot. rewrite parse_ser_elect. split; [|done].
  apply Verify_ballot; [|done]. pose proof all_good as H. rewrite forallb_forall in H. apply H.
  by apply list_elem_of_In.
Qed.

Lemma good_signs pid : good pid = true → @signs (r_env (run pid)) (r_state (run pid)) "A" DCOMMIT 1.
Proof.
  unfold good. rewrite !andb_true_iff. intros [_ Hs].
  apply bool_decide_eq_true, list_elem_of_omap in Hs as (e & Hin & He). by exists e.
Qed.

Lemma commit_logged : logged config members faulty run "A" DCOMMIT 1.
Proof.
  exists [1; 2; 3; 4; 5]. split; [apply (bool_decide_eq_true _); vm_compute; reflexivity|]. split; [done|].
  intros pid Hp. assert (pid ∈ members) as Hm.
  { unfold members. rewrite elem_of_list_to_set, elem_of_seqZ. rewrite !elem_of_cons, elem_of_nil in Hp. lia. }
  destruct (decide (pid ∈ faulty)) as [|Hf]; [by left|right]. split; [done|]. by apply good_signs, good_all.
Qed.



Lemma fallback_views_monotone_witness :
  later (@p2_meta (fb_env true 1) (r_init (run 1)) "A") (@p2_meta (fb_env true 1) (r_state (run 1)) "A").
Proof.
  assert (good 1 = true) as Hg by (vm_compute; reflexivity).
  exact (fallback_views_monotone config no_cc no_p2 ser_elect parse_p2 parse_view parse_elect parse_move Verify
    no_digest ltac:(cbn; lia) parse_ser_elect 1 (run 1) _ [] _ _ "A" (good_run 1 Hg) (rtc_refl _ _)
    (cr_run _ _ _ _ _ _ _ _ _ _ _ _ (good_run 1 Hg))).
Defined.
End Agreement.

(** ** The gaps *)

Module Gaps.
(** Three members voted COMMIT in view 1 and the three others ABORT. *)
Definition Verify (pid : Z) (data sig : string) : bool :=
  bool_decide (sig = "ok") &&
  bool_decide (data = (if pid <? 3 then ballot DCOMMIT 1 else ballot DABORT 1)).
#[local] Instance env : Env := fb_env true 1.
Definition script : list cmd :=
  [LogCommit; Decide (decision_msg DCOMMIT 1 [0; 1; 2]); Complete; Decide (decision_msg DABORT 1 [3; 4; 5]); Complete].

(** Both certificates of one view are valid, and the replica signs both. *)
Example equivocation :
  omap signed_p2 (out (final Verify script (@start env tt, [])).1) =
    [("A", mkP2Part DCOMMIT 0); ("A", mkP2Part DCOMMIT 1); ("A", mkP2Part DABORT 1)].
Proof. vm_compute. reflexivity. Qed.

Lemma second_decision_is_signed_witness :
  equivocates (AdoptDecision (AdoptDecision (@start env tt) "A" 1 DCOMMIT) "A" 1 DABORT) "A" 1.
Proof.
  apply (second_decision_is_signed (@start env tt) "A" 1 DCOMMIT DABORT); vm_compute; [discriminate|discriminate|reflexivity].
Defined.

Lemma unthreaded_decision_is_unchecked_witness :
  ∃ s', HandleDecisionFB (E := fb_env false 1) config ser_elect Verify (@start (fb_env false 1) tt) (decision_msg DABORT 7 []) = Done (s', []) ∧
    vouches (E := fb_env false 1) s' (decision_msg DABORT 7 []).
Proof.
  apply (unthreaded_decision_is_unchecked (E := fb_env false 1) config ser_elect Verify (@start (fb_env false 1) tt)
    (decision_msg DABORT 7 []) 1%positive txn false); vm_compute; (reflexivity || discriminate).
Defined.

Lemma fallback_never_prepares_witness :
  sync_prepare (E := demo_env true) = false ∧
  match ExecP1 (E := demo_env true) (@start (demo_env true) tt) (2^40) 9 1 "A" 1%positive with
  | Done (s', Some (r, _, _)) => r = COMMIT ∧ ¬ newly_prepared (@start (demo_env true) tt) s' "A"
  | _ => False
  end.
Proof.
  split; [reflexivity|]. destruct (ExecP1 _ _ _ _ _ _) as [[s' [[[r c] a]|]]|] eqn:He;
    [|vm_compute in He; discriminate..].
  split; [vm_compute in He; congruence|].
  exact (fallback_never_prepares (E := demo_env true) (@start (demo_env true) tt) (2^40) 9 1 "A" 1%positive s' _ eq_refl He "A").
Defined.
End Gaps.

(** ** Phase 2 and writeback *)

Module Finish.
#[local] Instance env : Env := fb_env false 1.
Definition accept (_ : Z) (_ sig : string) : bool := bool_decide (sig = "ok").
Definition sigs (l : list Z) : list Signature := (λ pid, mkSig pid "ok") <$> l.
Definition wb : Writeback := mkWb DCOMMIT (Some "A") None (WbP2 [(0, sigs [0; 1; 2; 3; 4])]) (Some 1).
Definition after : server :=
  match HandleWriteback config no_cc no_p2 accept no_digest (@start env tt) 9 wb with
  | Done (s, _) => s
  | Panic => @start env tt
  end.

Lemma writeback_needs_certificate_witness :
  finished after "A" = true ∧
  ∃ p t, heap (@start env tt) !! p = Some t ∧ wb_about no_digest wb "A" t ∧
    wb_valid config no_cc no_p2 accept no_digest (@start env tt) wb "A" t.
Proof.
  assert (finished after "A" = true) as Hf by (vm_compute; reflexivity). split; [exact Hf|].
  destruct (HandleWriteback config no_cc no_p2 accept no_digest (@start env tt) 9 wb) as [[s' Q]|] eqn:Hw.
  2: { exfalso. vm_compute in Hw. discriminate Hw. }
  destruct (writeback_needs_certificate (E := env) config no_cc no_p2 accept no_digest eq_refl eq_refl (@start env tt) 9 wb s' Q Hw)
    as [H _]. apply (H "A"); [reflexivity|]. unfold after in Hf. by rewrite Hw in Hf.
Defined.

(** Four matching phase-1 votes are a slow COMMIT certificate. *)
Definition p2_valid : Phase2 := mkPhase2 1 DCOMMIT None (Some "A") [(0, sigs [0; 1; 2; 3])] false.
Lemma unthreaded_phase2_never_logs_witness :
  ValidateP1Replies config no_cc accept DCOMMIT false [0] "A" [(0, sigs [0; 1; 2; 3])] (-1) COMMIT = true ∧
  match HandlePhase2 config no_cc accept no_digest (@start env tt) 9 p2_valid with
  | Done (s', Q) => Q = [] ∧ has_logged s' "A" = false
  | Panic => False
  end.
Proof.
  split; [vm_compute; reflexivity|].
  destruct (HandlePhase2 config no_cc accept no_digest (@start env tt) 9 p2_valid) as [[s' Q]|] eqn:Hp.
  2: { vm_compute in Hp. discriminate Hp. }
  destruct (unthreaded_phase2_never_logs (E := env) config no_cc accept no_digest eq_refl eq_refl (@start env tt) 9 p2_valid s' Q eq_refl
    eq_refl Hp) as [HQ Hh]. split; [exact HQ|]. rewrite Hh. reflexivity.
Defined.
End Finish.
