(* ===== verification/MVTSOInv.v ===== *)
(** * The index invariant of a replica

    Every prepared transaction is in the indexes the concurrency control
    searches ([preparedReads], [preparedWrites]), every committed one in
    [committedReads] and the store.  The operations of ServerTxn.v keep it. *)
From S2P Require Import Prelude OrderedSeq Timestamp VersionStore Policy PolicyParse ServerState ServerTxn MVTSO MVTSOSafety.

Section invariant.
Context `{E : Env}.
(** [world d] is the transaction with digest [d]: a digest determines its
    transaction. *)
Context (world : digest → Transaction).
Implicit Types (s : server) (d : digest) (p : ptr) (t : Transaction).

Notation wts d := (t_timestamp (world d)).

(** [t] is an object holding the transaction [d]; the fields the server adds
    itself are free. *)
Definition like t d : Prop :=
  txndigest t = Some d ∧ read_set t = read_set (world d) ∧ write_set t = write_set (world d) ∧
  t_timestamp t = wts d ∧ policy_type t = policy_type (world d) ∧ query_set t = query_set (world d).

Lemma like_inj t d d' : like t d → like t d' → d = d'.
Proof. intros [H _] [H' _]. congruence. Qed.

Lemma like_reads t d k v : like t d → reads t k v ↔ reads (world d) k v.
Proof. intros (_ & H & _). unfold reads. by rewrite H. Qed.

Lemma like_implicit t d rs : like t d → like (add_implicit_policy_reads rs t) d.
Proof. done. Qed.
Lemma like_merged t d m : like t d → like (set_merged m t) d.
Proof. done. Qed.

Record wf s : Prop := {
  wf_heap : ∀ p t, heap s !! p = Some t → ∃ d, like t d;
  wf_prepared : ∀ d ts p, prepared s !! d = Some (ts, p) →
    ts = wts d ∧ ∃ t, heap s !! p = Some t ∧ like t d;
  wf_ongoing : ∀ d p, ongoing s !! d = Some p → ∃ t, heap s !! p = Some t ∧ like t d;
  wf_writes : ∀ k l, preparedWrites s !! k = Some l → ssorted fst l;
  wf_committedReads : ∀ k l, committedReads s !! k = Some l → ssorted id l;
  wf_store : vs_wf (store s)
}.

Definition prep_present s d p : Prop :=
  (∀ k v, reads (world d) k v → p ∈ default ∅ (preparedReads s !! k)) ∧
  (∀ k, writes (world d) k → ∃ q, (wts d, q) ∈ default [] (preparedWrites s !! k)).
Definition comm_present s d : Prop :=
  (∀ k v, reads (world d) k v → ∃ pr, (wts d, v, pr) ∈ default [] (committedReads s !! k)) ∧
  (∀ k, writes (world d) k → ∃ x, (wts d, x) ∈ versions_of (store s) k).

(** [s'] has the transactions of [s] and at least the index entries of [s]. *)
Record grows s s' : Prop := {
  g_wf : wf s';
  g_heap : ∀ p t d, heap s !! p = Some t → like t d → ∃ t', heap s' !! p = Some t' ∧ like t' d;
  g_prepared : prepared s' = prepared s;
  g_committed : committed s' = committed s;
  g_reads : ∀ k p, p ∈ default ∅ (preparedReads s !! k) → p ∈ default ∅ (preparedReads s' !! k);
  g_writes : ∀ k e, e ∈ default [] (preparedWrites s !! k) → e ∈ default [] (preparedWrites s' !! k);
  g_creads : ∀ k e, e ∈ default [] (committedReads s !! k) → e ∈ default [] (committedReads s' !! k);
  g_store : ∀ k e, e ∈ versions_of (store s) k → e ∈ versions_of (store s') k
}.

Lemma grows_refl s : wf s → grows s s.
Proof. intros Hwf. split; naive_solver. Qed.

Lemma grows_trans s1 s2 s3 : grows s1 s2 → grows s2 s3 → grows s1 s3.
Proof.
  intros H1 H2. split.
  - apply H2.
  - intros p t d Hp Hl. destruct (g_heap _ _ H1 p t d Hp Hl) as (t' & Hp' & Hl').
    by apply (g_heap _ _ H2 p t').
  - by rewrite (g_prepared _ _ H2), (g_prepared _ _ H1).
  - by rewrite (g_committed _ _ H2), (g_committed _ _ H1).
  - intros. by apply (g_reads _ _ H2), (g_reads _ _ H1).
  - intros. by apply (g_writes _ _ H2), (g_writes _ _ H1).
  - intros. by apply (g_creads _ _ H2), (g_creads _ _ H1).
  - intros. by apply (g_store _ _ H2), (g_store _ _ H1).
Qed.

Lemma grows_foldl {A} (f : server → A → server) l s :
  (∀ s a, wf s → grows s (f s a)) → wf s → grows s (foldl f s l).
Proof.
  intros Hf. revert s. induction l as [|a l IH]; intros s Hwf; [by apply grows_refl|]. cbn.
  eapply grows_trans; [by apply Hf|]. apply IH. by eapply g_wf, Hf.
Qed.

Lemma wf_frame s s' : frame s s' → wf s → wf s'.
Proof.
  intros (E1 & E2 & E3 & E4 & E5 & E6 & E7 & E8)%frame_fields [H1 H2 H3 H4 H5 H6].
  split; rewrite ?E1, ?E2, ?E3, ?E5, ?E7, ?E8; done.
Qed.

Lemma grows_frame s s' : frame s s' → wf s → grows s s'.
Proof.
  intros Hf Hwf. pose proof (wf_frame s s' Hf Hwf) as Hwf'.
  apply frame_fields in Hf as (E1 & E2 & E3 & E4 & E5 & E6 & E7 & E8).
  split; rewrite ?E1, ?E3, ?E4, ?E5, ?E6, ?E7, ?E8; naive_solver.
Qed.

Lemma grows_prep s s' d p : grows s s' → prep_present s d p → prep_present s' d p.
Proof.
  intros G [H1 H2]. split.
  - intros k v Hr. by eapply g_reads, H1.
  - intros k Hw. destruct (H2 k Hw) as [q Hq]. exists q. by eapply g_writes.
Qed.

Lemma grows_comm s s' d : grows s s' → comm_present s d → comm_present s' d.
Proof.
  intros G [H1 H2]. split.
  - intros k v Hr. destruct (H1 k v Hr) as [pr Hp]. exists pr. by eapply g_creads.
  - intros k Hw. destruct (H2 k Hw) as [x Hx]. exists x. by eapply g_store.
Qed.

(** ** One index at a time *)

Lemma wf_writes_sorted s k : wf s → ssorted fst (default [] (preparedWrites s !! k)).
Proof.
  intros Hwf. destruct (preparedWrites s !! k) eqn:Hk; [by eapply wf_writes|apply (ssorted_nil fst)].
Qed.
Lemma wf_creads_sorted s k : wf s → ssorted id (default [] (committedReads s !! k)).
Proof.
  intros Hwf. destruct (committedReads s !! k) eqn:Hk; [by eapply wf_committedReads|apply (ssorted_nil id)].
Qed.

Lemma grows_heap s p f :
  (∀ t d, like t d → like (f t) d) → wf s → grows s (upd_heap (alter f p) s).
Proof.
  intros Hf Hwf.
  assert (∀ q t d, heap s !! q = Some t → like t d →
            ∃ t', alter f p (heap s) !! q = Some t' ∧ like t' d) as Hh.
  { intros q t d Hq Hl. destruct (decide (q = p)) as [->|Hne].
    - rewrite lookup_alter_eq, Hq. cbn. eauto.
    - rewrite lookup_alter_ne by done. eauto. }
  destruct Hwf as [H1 H2 H3 H4 H5 H6]. split; cbn; try done. split; cbn; try done.
  - intros q t. destruct (decide (q = p)) as [->|Hne].
    + rewrite lookup_alter_eq, fmap_Some. intros (t0 & Ht0 & ->).
      destruct (H1 p t0 Ht0) as [d Hd]. eauto.
    + rewrite lookup_alter_ne by done. eauto.
  - intros d ts q Hq. destruct (H2 d ts q Hq) as (-> & t & Ht & Hl). eauto.
  - intros d q Hq. destruct (H3 d q Hq) as (t & Ht & Hl). eauto.
Qed.

Lemma grows_add_read s k p : wf s → grows s (add_prepared_read k p s).
Proof.
  intros [H1 H2 H3 H4 H5 H6]. split; cbn; try done; [by intros ? t ? ? ?; exists t|].
  intros k' q. rewrite lookup_insert. case_decide; subst; set_solver.
Qed.

Lemma add_read_present s k p : p ∈ default ∅ (preparedReads (add_prepared_read k p s) !! k).
Proof. cbn. rewrite lookup_insert_eq. set_solver. Qed.

Lemma grows_add_write s k ts p : wf s → grows s (add_prepared_write k ts p s).
Proof.
  intros Hwf. pose proof (wf_writes_sorted s k Hwf) as Hs.
  destruct Hwf as [H1 H2 H3 H4 H5 H6]. split; cbn; try done; try by (intros ? t ? ? ?; exists t).
  - split; cbn; try done. intros k' l. rewrite lookup_insert. case_decide; [|by eauto].
    intros [= <-]. by apply (seq_insert_sorted fst).
  - intros k' e. rewrite lookup_insert. case_decide; [subst k'|done].
    cbn. rewrite elem_of_seq_insert by seq_side. by left.
Qed.

Lemma seq_insert_key {A K} (key : A → K) `{!Ltb K, !StrictTotal K} (l : list A) e :
  ssorted key l → ∃ e', e' ∈ seq_insert key e l ∧ key e' = key e.
Proof.
  intros Hs. destruct (seq_find key (key e) l) as [e'|] eqn:Hf.
  - apply (seq_find_Some key) in Hf as [Hin Hk]; [|done..]. exists e'. split; [|done].
    rewrite elem_of_seq_insert by done. by left.
  - exists e. split; [|done]. rewrite elem_of_seq_insert by done. by right.
Qed.

Lemma add_write_present s k ts p :
  wf s → ∃ q, (ts, q) ∈ default [] (preparedWrites (add_prepared_write k ts p s) !! k).
Proof.
  intros Hwf. cbn. rewrite lookup_insert_eq. cbn.
  destruct (seq_insert_key fst (default [] (preparedWrites s !! k)) (ts, p)) as ([ts' q] & Hin & Hk).
  - by apply wf_writes_sorted.
  - cbn in Hk. subst ts'. eauto.
Qed.

Lemma grows_add_cread s ts pr k v : wf s → grows s (add_committed_read ts pr s k v).
Proof.
  intros Hwf. pose proof (wf_creads_sorted s k Hwf) as Hs.
  destruct Hwf as [H1 H2 H3 H4 H5 H6]. split; cbn; try done; try by (intros ? t ? ? ?; exists t).
  - split; cbn; try done. intros k' l. rewrite lookup_insert. case_decide; [|by eauto].
    intros [= <-]. by apply (seq_insert_sorted id).
  - intros k' e. rewrite lookup_insert. case_decide; [subst k'|done].
    cbn. rewrite elem_of_seq_insert by seq_side. by left.
Qed.

Lemma add_cread_present s ts pr k v :
  wf s → (ts, v, pr) ∈ default [] (committedReads (add_committed_read ts pr s k v) !! k).
Proof.
  intros Hwf. cbn. rewrite lookup_insert_eq. cbn.
  rewrite elem_of_set_insert by (apply _ || by apply wf_creads_sorted). by left.
Qed.

Lemma grows_put s k x ts : wf s → grows s (upd_store (λ st, put st k x ts) s).
Proof.
  intros Hwf. pose proof (versions_of_sorted (store s) k (wf_store _ Hwf)) as Hs.
  destruct Hwf as [H1 H2 H3 H4 H5 H6]. split; cbn; try done; try by (intros ? t ? ? ?; exists t).
  - split; cbn; try done. by apply vs_wf_put.
  - intros k' e. rewrite versions_of_put. case_decide; [subst k'|done].
    rewrite elem_of_seq_insert by seq_side. by left.
Qed.

Lemma put_present s k x ts : wf s →
  ∃ y, (ts, y) ∈ versions_of (store (upd_store (λ st, put st k x ts) s)) k.
Proof.
  intros Hwf. cbn. rewrite versions_of_put, decide_True by done.
  destruct (seq_insert_key fst (versions_of (store s) k) (ts, x)) as ([ts' y] & Hin & Hk).
  - by apply versions_of_sorted, wf_store.
  - cbn in Hk. subst ts'. eauto.
Qed.
End invariant.

(** ** The operations *)
Section lifecycle.
Context `{E : Env} (world : digest → Transaction).
Implicit Types (s : server) (d : digest) (p : ptr) (t : Transaction).
Notation wts d := (t_timestamp (world d)).
Notation like := (like world).
Notation wf := (wf world).
Notation grows := (grows world).
Notation prep_present := (prep_present world).
Notation comm_present := (comm_present world).

Record indexed s : Prop := {
  idx_wf : wf s;
  idx_prep : ∀ d ts p, prepared s !! d = Some (ts, p) → prep_present s d p;
  idx_comm : ∀ d, is_Some (committed s !! d) → comm_present s d
}.

Lemma idx_grows s s' : grows s s' → indexed s → indexed s'.
Proof.
  intros G [Hwf Hp Hc]. split.
  - by eapply g_wf.
  - intros d ts p. rewrite (g_prepared _ _ _ G). intros H. by eapply grows_prep, Hp.
  - intros d. rewrite (g_committed _ _ _ G). intros H. by eapply grows_comm, Hc.
Qed.

Lemma idx_frame s s' : frame s s' → indexed s → indexed s'.
Proof. intros Hf Hi. eapply idx_grows; [|done]. apply grows_frame; [done|by apply idx_wf]. Qed.

(** *** Prepare *)

Lemma prepare_read_grows p s r : wf s → grows s (prepare_read p s r).
Proof. intros. unfold prepare_read. case_match; [by apply grows_add_read|by apply grows_refl]. Qed.

Lemma prepare_policy_read_grows p s r : wf s → grows s (prepare_policy_read p s r).
Proof.
  intros Hwf. unfold prepare_policy_read. eapply grows_trans; [by apply (grows_add_read world s r.1 p)|].
  apply grows_heap; [intros; by apply like_implicit|]. by eapply g_wf, grows_add_read.
Qed.

Lemma prepare_write_grows pt ts p s w : wf s → grows s (prepare_write pt ts p s w).
Proof.
  intros. unfold prepare_write. repeat case_match; first [by apply grows_add_write|by apply grows_refl].
Qed.

Lemma prepare_reads_present p l s r :
  wf s → r ∈ l → r_is_table_col_version r = false → IsKeyOwned (r_key r) = true →
  p ∈ default ∅ (preparedReads (foldl (prepare_read p) s l) !! r_key r).
Proof.
  intros Hwf Hin Ht Ho. revert s Hwf Hin. induction l as [|a l IH]; intros s Hwf Hin; [set_solver|].
  cbn. pose proof (prepare_read_grows p s a Hwf) as G.
  apply elem_of_cons in Hin as [<-|Hin]; [|apply IH; [by eapply g_wf|done]].
  eapply (g_reads world); [apply grows_foldl; [intros; by apply prepare_read_grows|by eapply g_wf]|].
  unfold prepare_read. rewrite Ht, Ho. apply (add_read_present world).
Qed.

Lemma prepare_writes_present ts p l s w :
  wf s → w ∈ l → w_is_table_col_version w = false → IsKeyOwned (w_key w) = true →
  ∃ q, (ts, q) ∈ default [] (preparedWrites (foldl (prepare_write NONE ts p) s l) !! w_key w).
Proof.
  intros Hwf Hin Ht Ho. revert s Hwf Hin. induction l as [|a l IH]; intros s Hwf Hin; [set_solver|].
  cbn. pose proof (prepare_write_grows NONE ts p s a Hwf) as G.
  apply elem_of_cons in Hin as [<-|Hin]; [|apply IH; [by eapply g_wf|done]].
  assert (∃ q, (ts, q) ∈ default [] (preparedWrites (prepare_write NONE ts p s w) !! w_key w)) as [q Hq].
  { unfold prepare_write. rewrite Ht, Ho. rewrite andb_false_r. by apply (add_write_present world). }
  exists q. eapply (g_writes world); [|done].
  apply grows_foldl; [intros; by apply prepare_write_grows|by eapply g_wf].
Qed.

(** Framed states stay framed under the indexing. *)
Lemma frame_cong_foldl {A} (f : server → A → server) l s s1 :
  (∀ s s1 a, frame s s1 → frame (f s a) (f s1 a)) → frame s s1 → frame (foldl f s l) (foldl f s1 l).
Proof.
  intros Hf. revert s s1. induction l as [|a l IH]; intros s s1 Hs; [done|]. cbn. by apply IH, Hf.
Qed.

Ltac frame_cong :=
  match goal with H : frame _ _ |- _ =>
    apply frame_fields in H as (?Q1 & ?Q2 & ?Q3 & ?Q4 & ?Q5 & ?Q6 & ?Q7 & ?Q8);
    unfold frame, core; cbn; rewrite ?Q1, ?Q2, ?Q3, ?Q4, ?Q5, ?Q6, ?Q7, ?Q8; reflexivity
  end.

Lemma prepare_read_cong p s s1 r : frame s s1 → frame (prepare_read p s r) (prepare_read p s1 r).
Proof. intros Hf. unfold prepare_read. case_match; [frame_cong|done]. Qed.
Lemma prepare_policy_read_cong p s s1 r :
  frame s s1 → frame (prepare_policy_read p s r) (prepare_policy_read p s1 r).
Proof. intros Hf. unfold prepare_policy_read. frame_cong. Qed.
Lemma prepare_write_cong pt ts p s s1 w :
  frame s s1 → frame (prepare_write pt ts p s w) (prepare_write pt ts p s1 w).
Proof. intros Hf. unfold prepare_write. repeat case_match; [done|done|frame_cong]. Qed.

(** The indexing part of [Prepare]. *)
Definition prepare_index s d p ts (pt : TxnPolicyType) (rs : list ReadMessage)
    (irs : list (string * Timestamp)) (ws : list WriteMessage) : server :=
  foldl (prepare_write pt ts p)
    (foldl (prepare_policy_read p)
       (foldl (prepare_read p) (upd_prepared (insert d (ts, p)) s) rs) irs) ws.

Lemma prepare_index_cong s s1 d p ts pt rs irs ws :
  frame s s1 → frame (prepare_index s d p ts pt rs irs ws) (prepare_index s1 d p ts pt rs irs ws).
Proof.
  intros Hf. unfold prepare_index.
  apply frame_cong_foldl; [intros; by apply prepare_write_cong|].
  apply frame_cong_foldl; [intros; by apply prepare_policy_read_cong|].
  apply frame_cong_foldl; [intros; by apply prepare_read_cong|]. frame_cong.
Qed.

Lemma prepare_index_prepared s d p ts pt rs irs ws :
  prepared (prepare_index s d p ts pt rs irs ws) = <[d := (ts, p)]> (prepared s).
Proof.
  unfold prepare_index.
  apply (foldl_inv (λ s', prepared s' = <[d := (ts, p)]> (prepared s))).
  { intros x w _ Hx. unfold prepare_write. by repeat case_match. }
  apply (foldl_inv (λ s', prepared s' = <[d := (ts, p)]> (prepared s))).
  { intros x w _ Hx. done. }
  apply (foldl_inv (λ s', prepared s' = <[d := (ts, p)]> (prepared s))); [|done].
  intros x w _ Hx. unfold prepare_read. by case_match.
Qed.

Lemma wf_insert_prepared s d p t :
  wf s → heap s !! p = Some t → like t d → wf (upd_prepared (insert d (wts d, p)) s).
Proof.
  intros [H1 H2 H3 H4 H5 H6] Hp Hl. split; cbn; try done.
  intros d' ts q. rewrite lookup_insert. case_decide; [|by apply H2].
  subst d'. intros [= <- <-]. eauto.
Qed.

Lemma prepare_index_idx s d p t irs :
  indexed s → heap s !! p = Some t → like t d →
  indexed (prepare_index s d p (wts d) (policy_type (world d)) (read_set (world d)) irs
         (write_set (world d))).
Proof.
  intros [Hwf Hp Hc] Ht Hl. unfold prepare_index.
  set (s0 := upd_prepared (insert d (wts d, p)) s).
  assert (wf s0) as Hwf0 by (by eapply wf_insert_prepared).
  set (s1 := foldl (prepare_read p) s0 (read_set (world d))).
  assert (grows s0 s1) as G1 by (apply grows_foldl; [intros; by apply prepare_read_grows|done]).
  set (s2 := foldl (prepare_policy_read p) s1 irs).
  assert (grows s1 s2) as G2
    by (apply grows_foldl; [intros; by apply prepare_policy_read_grows|by eapply g_wf]).
  set (s3 := foldl _ s2 _).
  assert (grows s2 s3) as G3
    by (apply grows_foldl; [intros; by apply prepare_write_grows|by eapply g_wf]).
  assert (grows s0 s3) as G by (do 2 (eapply grows_trans; [done|]); done).
  split; [by eapply g_wf| |].
  - intros d' ts q. rewrite (g_prepared _ _ _ G). cbn. rewrite lookup_insert. case_decide as Hd.
    + subst d'. intros [= <- <-]. split.
      * intros k v (r & Hr & <- & Htab & _ & Ho)%reads_elem.
        apply (g_reads world s1 s3 (grows_trans world s1 s2 s3 G2 G3)). by apply prepare_reads_present.
      * intros k (Hn & Ho & w & Hw & <- & Htab). unfold s3. rewrite Hn.
        apply prepare_writes_present; [by eapply g_wf|done..].
    + intros Hq. eapply grows_prep; [done|]. apply (Hp d' ts q Hq).
  - intros d'. rewrite (g_committed _ _ _ G). intros Hd. eapply grows_comm; [done|]. by apply Hc.
Qed.

(** [Prepare] either leaves the indexed state alone or indexes the
    transaction. *)
Lemma Prepare_cases s d p t irs s' :
  wf s → heap s !! p = Some t → like t d → Prepare s d p (read_set t) irs = Done s' →
  frame s s' ∨
  (prepared s !! d = None ∧ ∃ q tq, heap s !! q = Some tq ∧ like tq d ∧
     frame (prepare_index s d q (wts d) (policy_type (world d)) (read_set (world d)) irs
              (write_set (world d))) s').
Proof.
  intros Hwf Hp Hl. pose proof Hl as (_ & Hrs & Hws & Hts & _ & _). unfold Prepare, deref.
  rewrite Hp. cbn [mbind outcome_bind].
  assert (frame s (drop_prepare d t s).2) as Hdrop.
  { unfold drop_prepare. by repeat case_match. }
  destruct (drop_prepare d t s) as [b s1]. cbn in Hdrop.
  destruct b; [intros [= <-]; by left|].
  pose proof (frame_fields _ _ Hdrop) as (F1 & F2 & F3 & F4 & F5 & F6 & F7 & F8).
  rewrite F2. destruct (ongoing s !! d) as [q|] eqn:Ho; [|intros [= <-]; by left].
  destruct (wf_ongoing _ _ Hwf d q Ho) as (tq & Hq & Hlq). rewrite F1, Hq. cbn [mbind outcome_bind].
  intros Heq. inv_outcome. rewrite F3 in *.
  destruct (prepared s !! d) eqn:Hpr; [inv_outcome; by left|]. right. split; [done|].
  exists q, tq. split_and!; [done..|]. inv_outcome.
  destruct Hlq as (_ & _ & _ & _ & Hpt & _).
  assert (frame (prepare_index s d q (wts d) (policy_type (world d)) (read_set (world d)) irs
            (write_set (world d))) x0) as Hx0.
  { etrans; [by apply prepare_index_cong|]. rewrite <- Hpt, <- Hws, <- Hrs, <- Hts.
    destruct useSemanticCC; inv_outcome; done. }
  destruct disable_prepare_visibility; done.
Qed.

(** *** Commit *)

(** Transactions without queries to merge. *)
Definition no_queries : Prop :=
  (cacheReadSet = false ∧ mergeActiveAtClient = true) ∨ ∀ d, query_set (world d) = [].

Lemma mergeTxReadSets_base s d p t :
  no_queries → heap s !! p = Some t → like t d →
  mergeTxReadSets s d p = Done (s, COMMIT, (read_set t, deps t, read_predicates t)).
Proof.
  intros Hq Hp (_ & _ & _ & _ & _ & Hqs). unfold mergeTxReadSets, deref. rewrite Hp.
  cbn [mbind outcome_bind]. destruct Hq as [[-> ->]|Hq]; [done|].
  destruct (negb cacheReadSet && mergeActiveAtClient); [done|]. by rewrite Hqs, Hq.
Qed.

Definition commit_read ts pr s (read : ReadMessage) : server :=
  if r_is_table_col_version read || negb (IsKeyOwned (r_key read)) then s
  else add_committed_read ts pr s (r_key read) (r_readtime read).

Lemma commit_read_grows ts pr s r : wf s → grows s (commit_read ts pr s r).
Proof. intros. unfold commit_read. case_match; [by apply grows_refl|by apply grows_add_cread]. Qed.

Lemma commit_reads_present ts pr l s r :
  wf s → r ∈ l → r_is_table_col_version r = false → IsKeyOwned (r_key r) = true →
  (ts, r_readtime r, pr) ∈ default [] (committedReads (foldl (commit_read ts pr) s l) !! r_key r).
Proof.
  intros Hwf Hin Ht Ho. revert s Hwf Hin. induction l as [|a l IH]; intros s Hwf Hin; [set_solver|].
  cbn. pose proof (commit_read_grows ts pr s a Hwf) as G.
  apply elem_of_cons in Hin as [<-|Hin]; [|apply IH; [by eapply g_wf|done]].
  eapply (g_creads world); [apply grows_foldl; [intros; by apply commit_read_grows|by eapply g_wf]|].
  unfold commit_read. rewrite Ht, Ho. by apply (add_cread_present world).
Qed.

Lemma UpdateCommittedReads_spec s p d t pr s' :
  no_queries → wf s → heap s !! p = Some t → like t d →
  UpdateCommittedReads s p d (wts d) pr = Done s' →
  grows s s' ∧ ∀ k v, reads (world d) k v → ∃ pr, (wts d, v, pr) ∈ default [] (committedReads s' !! k).
Proof.
  intros Hq Hwf Hp Hl. unfold UpdateCommittedReads, deref. rewrite (mergeTxReadSets_base s d p t) by done.
  cbn [mbind outcome_bind]. rewrite Hp. cbn [mbind outcome_bind]. intros [= <-].
  change (foldl _ s (read_set t)) with (foldl (commit_read (wts d) pr) s (read_set t)).
  set (s1 := foldl (commit_read (wts d) pr) s (read_set t)).
  assert (grows s s1) as G1 by (apply grows_foldl; [intros; by apply commit_read_grows|done]).
  set (s2 := foldl _ s1 _).
  assert (grows s1 s2) as G2
    by (apply grows_foldl; [intros; by apply grows_add_cread|by eapply g_wf]).
  split; [by eapply grows_trans|]. intros k v Hr.
  apply (like_reads _ _ _ _ _ Hl) in Hr.
  apply reads_elem in Hr as (r & Hr & <- & Htab & <- & Ho). exists pr.
  apply (g_creads world s1 s2 G2). by apply commit_reads_present.
Qed.

Lemma grows_commit_step s k v ts :
  wf s → grows s (if rtsMode =? 2 then drop_rts_from k ts (upd_store (λ st, put st k v ts) s)
                  else upd_store (λ st, put st k v ts) s).
Proof.
  intros Hwf. pose proof (grows_put world s k v ts Hwf) as G.
  case_match; [|done]. eapply grows_trans; [done|]. apply grows_frame; [done|by eapply g_wf].
Qed.

Lemma commit_writes_spec t d pr ws s v s' ov :
  wf s → commit_writes t d (wts d) pr s v ws = Done (s', ov) →
  grows s s' ∧
  (policy_type t = NONE → is_Some ov ∧
   ∀ w, w ∈ ws → w_is_table_col_version w = false → IsKeyOwned (w_key w) = true →
     ∃ x, (wts d, x) ∈ versions_of (store s') (w_key w)).
Proof.
  revert s v. induction ws as [|w ws IH]; intros s v Hwf Hc; cbn [commit_writes] in Hc.
  { inv_outcome. split; [by apply grows_refl|]. set_solver. }
  destruct (w_is_table_col_version w) eqn:Htab.
  { destruct (IH s v Hwf Hc) as [G H]. split; [done|]. intros Hn. destruct (H Hn) as [Ho Hw].
    split; [done|]. intros w' [->|?]%elem_of_cons; [congruence|auto]. }
  destruct (policy_type t) eqn:Hpt.
  2: { inv_outcome. split; [|done]. by apply grows_frame. }
  destruct (IsKeyOwned (w_key w)) eqn:Ho; cbn [negb] in Hc.
  2: { destruct (IH s v Hwf Hc) as [G H]. split; [done|]. intros Hn. destruct (H Hn) as [Hov Hw].
       split; [done|]. intros w' [->|?]%elem_of_cons; [congruence|auto]. }
  inv_outcome. pose proof (grows_commit_step s (w_key w) x (wts d) Hwf) as G1.
  match goal with Hr : commit_writes _ _ _ _ _ _ ws = _ |- _ =>
    destruct (IH _ _ (g_wf _ _ _ G1) Hr) as [G2 H'] end. split; [by eapply grows_trans|].
  intros Hn. destruct (H' Hn) as [Hov Hw]. split; [done|].
  intros w' [->|?]%elem_of_cons Ht' Ho'; [|auto].
  destruct (put_present world s (w_key w) x (wts d) Hwf) as [y Hy]. exists y.
  apply (g_store world _ _ G2). by destruct (rtsMode =? 2).
Qed.

Lemma CommitToStore_spec s pr p d t v s' :
  no_queries → wf s → heap s !! p = Some t → like t d →
  CommitToStore s pr p d (wts d) v = Done s' → grows s s' ∧ comm_present s' d.
Proof.
  intros Hq Hwf Hp Hl Hc. unfold CommitToStore in Hc. inv_outcome.
  destruct (UpdateCommittedReads_spec s p d t pr x) as [G1 Hr]; [done..|].
  destruct (g_heap _ _ _ G1 p t d Hp Hl) as (t' & Hp' & Hl'). unfold deref in *.
  rewrite Hp' in *. simplify_eq. destruct x1 as [s2 ov].
  match goal with Hr : commit_writes _ _ _ _ _ _ _ = _ |- _ =>
    destruct (commit_writes_spec _ _ _ _ _ _ _ _ (g_wf _ _ _ G1) Hr) as [G2 Hw] end.
  assert (frame s2 s') as Hf.
  { destruct ov; inv_outcome; [|done]. by destruct useSemanticCC. }
  assert (grows s2 s') as G3 by (apply grows_frame; [done|by eapply g_wf]).
  split; [eapply grows_trans; [done|by eapply grows_trans]|]. split.
  - intros k u Hk. destruct (Hr k u Hk) as [pr' Hpr]. exists pr'.
    by apply (g_creads world _ _ G3), (g_creads world _ _ G2).
  - intros k (Hn & Ho & w & Hin & <- & Htab). destruct Hl' as (_ & _ & Hws & _ & Hpt & _).
    destruct Hw as [_ Hw]; [congruence|]. destruct (Hw w) as [y Hy]; [congruence|done..|].
    exists y. by apply (g_store world _ _ G3).
Qed.

(** *** Clean *)

(** [s'] lost at most the index entries of the object [p0] and of the
    timestamp [ts0]. *)
Record loses (p0 : ptr) (ts0 : Timestamp) s s' : Prop := {
  l_wf : wf s';
  l_same : heap s' = heap s ∧ prepared s' = prepared s ∧ committed s' = committed s ∧
    committedReads s' = committedReads s ∧ store s' = store s ∧ ongoing s' = ongoing s;
  l_reads : ∀ k p, p ≠ p0 → p ∈ default ∅ (preparedReads s !! k) →
    p ∈ default ∅ (preparedReads s' !! k);
  l_writes : ∀ k e, e.1 ≠ ts0 → e ∈ default [] (preparedWrites s !! k) →
    e ∈ default [] (preparedWrites s' !! k)
}.

Lemma loses_refl p0 ts0 s : wf s → loses p0 ts0 s s.
Proof. by split. Qed.

Lemma loses_trans p0 ts0 s1 s2 s3 : loses p0 ts0 s1 s2 → loses p0 ts0 s2 s3 → loses p0 ts0 s1 s3.
Proof.
  intros [W1 S1 R1 X1] [W2 S2 R2 X2]. split; [done| |by auto|by auto].
  destruct S1 as (A1 & A2 & A3 & A4 & A5 & A6), S2 as (B1 & B2 & B3 & B4 & B5 & B6).
  split_and!; congruence.
Qed.

Lemma loses_foldl {A} p0 ts0 (f : server → A → server) l s :
  (∀ s a, wf s → loses p0 ts0 s (f s a)) → wf s → loses p0 ts0 s (foldl f s l).
Proof.
  intros Hf. revert s. induction l as [|a l IH]; intros s Hwf; [by apply loses_refl|]. cbn.
  eapply loses_trans; [by apply Hf|]. apply IH. by eapply l_wf, Hf.
Qed.

Lemma loses_read p0 ts0 s k : wf s → loses p0 ts0 s (remove_prepared_read k p0 s).
Proof.
  intros [H1 H2 H3 H4 H5 H6]. split; cbn; [by split|done| |done].
  intros k' p Hp. rewrite lookup_insert. case_decide; [subst|done]. set_solver.
Qed.

Lemma loses_write p0 ts0 s k : wf s → loses p0 ts0 s (remove_prepared_write k ts0 s).
Proof.
  intros Hwf. pose proof (wf_writes_sorted world s k Hwf) as Hs.
  destruct Hwf as [H1 H2 H3 H4 H5 H6]. split; cbn; [|done|done|].
  - split; cbn; try done. intros k' l. rewrite lookup_insert. case_decide; [|by eauto].
    intros [= <-]. by apply (seq_erase_sorted fst).
  - intros k' e He. rewrite lookup_insert. case_decide; [subst k'|done]. cbn. intros Hin.
    rewrite elem_of_seq_erase by seq_side. done.
Qed.

Context (ts_inj : ∀ d1 d2, wts d1 = wts d2 → d1 = d2).

Lemma wf_delete_prepared s d : wf s → wf (upd_prepared (delete d) s).
Proof.
  intros [H1 H2 H3 H4 H5 H6]. split; cbn; try done.
  intros d' ts q. rewrite lookup_delete_Some. intros [_ Hq]. by apply H2.
Qed.

Lemma loses_idx s s' d ts p :
  indexed s → prepared s !! d = Some (ts, p) → loses p ts s s' → indexed (upd_prepared (delete d) s').
Proof.
  intros [Hwf Hp Hc] Hd [W (Eh & Ep & Ec & Er & Es & Eo) HR HW].
  destruct (wf_prepared _ _ Hwf d ts p Hd) as (-> & t & Ht & Hl). split.
  - by apply wf_delete_prepared.
  - intros d' ts' p'. cbn. rewrite lookup_delete_Some, Ep. intros [Hne Hd'].
    destruct (wf_prepared _ _ Hwf d' ts' p' Hd') as (-> & t' & Ht' & Hl').
    destruct (Hp d' _ p' Hd') as [H1 H2]. split.
    + intros k v Hr. apply HR; [|by eapply H1]. intros ->. simplify_eq.
      by destruct Hne; eapply like_inj.
    + intros k Hw. destruct (H2 k Hw) as [q Hq]. exists q. apply HW; [|done]. cbn.
      intros Heq. by destruct Hne; apply ts_inj.
  - intros d'. cbn. rewrite Ec. intros Hd'. destruct (Hc d' Hd') as [H1 H2].
    split; cbn; rewrite ?Er, ?Es; done.
Qed.

Lemma clean_read_loses p ts s r : wf s → loses p ts s (clean_read p s r).
Proof. intros. unfold clean_read. repeat case_match; first [by apply loses_refl|by apply loses_read]. Qed.
Lemma clean_write_loses pt p ts s w : wf s → loses p ts s (clean_write pt ts s w).
Proof. intros. unfold clean_write. case_match; first [by apply loses_write|by apply loses_refl]. Qed.

Lemma clean_prepared_idx s d a h s' :
  indexed s → clean_prepared s d a h = Done s' →
  indexed s' ∧ prepared s' = delete d (prepared s) ∧ committed s' = committed s ∧ heap s' = heap s ∧
  ongoing s' = ongoing s.
Proof.
  intros Hi. unfold clean_prepared. destruct (prepared s !! d) as [[ts p]|] eqn:Hd.
  - intros Hc. inv_outcome.
    set (s1 := foldl (clean_read p) s (read_set x)). set (s2 := foldl _ s1 (implicit_policy_reads x)).
    set (s3 := foldl _ s2 (write_set x)).
    pose proof (idx_wf _ Hi) as Hwf.
    assert (loses p ts s s1) as L1 by (apply loses_foldl; [intros; by apply clean_read_loses|done]).
    assert (loses p ts s1 s2) as L2
      by (apply loses_foldl; [intros; by apply loses_read|by eapply l_wf]).
    assert (loses p ts s2 s3) as L3
      by (apply loses_foldl; [intros; by apply clean_write_loses|by eapply l_wf]).
    assert (loses p ts s s3) as L by (eapply loses_trans; [done|by eapply loses_trans]).
    pose proof (loses_idx s s3 d ts p Hi Hd L) as Hi'.
    destruct (l_same _ _ _ _ L) as (Eh & Ep & Ec & _ & _ & Eo).
    case_match; (split; [first [done|by eapply idx_frame; [|exact Hi']]|]); cbn;
      by rewrite ?Ep, ?Ec, ?Eh, ?Eo.
  - intros [= <-]. split_and!; [done| |done..]. by rewrite delete_id.
Qed.

Lemma wf_delete_ongoing s d : wf s → wf (upd_ongoing (delete d) s).
Proof.
  intros [H1 H2 H3 H4 H5 H6]. split; cbn; try done.
  intros d' q. rewrite lookup_delete_Some. intros [_ Hq]. by apply H3.
Qed.

Lemma idx_delete_ongoing s d : indexed s → indexed (upd_ongoing (delete d) s).
Proof. intros [H1 H2 H3]. split; [by apply wf_delete_ongoing|done|done]. Qed.

Lemma Clean_idx s d a h s' :
  indexed s → Clean s d a h = Done s' →
  indexed s' ∧ prepared s' = delete d (prepared s) ∧ committed s' = committed s ∧ heap s' = heap s.
Proof.
  intros Hi Hc. unfold Clean in Hc. inv_outcome.
  match goal with Hr : clean_prepared ?s0 _ _ _ = Done ?s1 |- _ =>
    assert (indexed s0 ∧ prepared s0 = prepared s ∧ committed s0 = committed s ∧ heap s0 = heap s)
      as (Hi0 & Ep & Ec & Eh);
    [|destruct (clean_prepared_idx s0 d a h s1 Hi0 Hr) as (Hi1 & Ep1 & Ec1 & Eh1 & _)] end.
  { repeat case_match; (split_and!; [|done..]); try done;
      try apply idx_delete_ongoing; try (eapply idx_frame; [|exact Hi]; done). }
  split.
  - eapply idx_frame; [|exact Hi1]. by destruct h.
  - rewrite Ep in Ep1. rewrite Ec in Ec1. rewrite Eh in Eh1. by destruct h.
Qed.
End lifecycle.
