(* ===== verification/MVTSOSystem.v ===== *)
(** * A replica over time

    The steps of a replica, with the set of transactions it voted for, and
    the safety theorem: with the prepare done inside the check, no two voted
    transactions that are still prepared or committed conflict. *)
From S2P Require Import Prelude OrderedSeq Timestamp VersionStore Policy PolicyParse ServerState ServerTxn MVTSO MVTSOSafety MVTSOInv.

Section system.
Context `{E : Env} (world : digest → Transaction).
Implicit Types (s : server) (d : digest) (p : ptr) (t : Transaction).
Notation wts d := (t_timestamp (world d)).
Notation like := (like world).
Notation wf := (wf world).
Notation grows := (grows world).
Notation indexed := (indexed world).

Context (ts_inj : ∀ d1 d2, wts d1 = wts d2 → d1 = d2).
Context (Hq : no_queries world).

Definition active s d : Prop := is_Some (prepared s !! d) ∨ is_Some (committed s !! d).

(** ** Commit and Abort *)

Lemma insert_committed_idx s d pr p t v s' :
  indexed s → heap s !! p = Some t → like t d →
  CommitToStore (upd_committed (insert d pr) s) pr p d (wts d) v = Done s' →
  indexed s' ∧ prepared s' = prepared s.
Proof.
  intros [Hwf Hp Hc] Ht Hl Hs.
  assert (wf (upd_committed (insert d pr) s)) as Hwf1 by (by destruct Hwf; split).
  destruct (CommitToStore_spec world _ pr p d t v s' Hq Hwf1 Ht Hl Hs) as [G Hd]. split; [split|].
  - by eapply g_wf.
  - intros x ts q. rewrite (g_prepared _ _ _ G). intros Hx.
    eapply grows_prep; [done|]. apply (Hp x ts q Hx).
  - intros x. rewrite (g_committed _ _ _ G). cbn. rewrite lookup_insert_is_Some'.
    intros [<-|Hx]; [done|]. eapply grows_comm; [done|]. by apply Hc.
  - by rewrite (g_prepared _ _ _ G).
Qed.

(** What an operation that prepares nothing guarantees. *)
Definition quiet s s' : Prop :=
  indexed s' ∧ ∀ x, is_Some (prepared s' !! x) → is_Some (prepared s !! x).

Lemma quiet_frame s s' : indexed s → frame s s' → quiet s s'.
Proof.
  intros Hi Hf. split; [by eapply idx_frame|]. intros x.
  by destruct (frame_fields _ _ Hf) as (_ & _ & -> & _).
Qed.

Lemma quiet_trans s1 s2 s3 : quiet s1 s2 → quiet s2 s3 → quiet s1 s3.
Proof. intros [_ H1] [H2 H3]. split; [done|]. auto. Qed.

Lemma Clean_quiet s d a h s' : indexed s → Clean s d a h = Done s' → quiet s s'.
Proof.
  intros Hi Hc. destruct (Clean_idx world ts_inj s d a h s' Hi Hc) as (Hi' & Hp & _).
  split; [done|]. intros x. rewrite Hp, lookup_delete_is_Some. tauto.
Qed.

Lemma finish_commit_quiet s d p t pr v s' :
  indexed s → heap s !! p = Some t → like t d →
  finish_commit (upd_committed (insert d pr) s) pr p d (wts d) v = Done s' → quiet s s'.
Proof.
  intros Hi Ht Hl Hf. unfold finish_commit in Hf. inv_outcome.
  destruct (insert_committed_idx s d pr p t v x) as [Hi1 Hp1]; [done..|].
  apply quiet_trans with x; [split; [done|by rewrite Hp1]|].
  eapply quiet_trans; [by eapply Clean_quiet|].
  apply quiet_frame; [by eapply Clean_quiet|].
  etrans; [by eapply CheckDependents_frame|done].
Qed.

Lemma Commit_quiet s d p t g b v s' :
  indexed s → heap s !! p = Some t → like t d → Commit s d p g b v = Done s' → quiet s s'.
Proof.
  intros Hi Ht Hl. pose proof Hl as (_ & _ & _ & Hts & _). unfold Commit, deref.
  rewrite Ht. cbn [mbind outcome_bind]. rewrite Hts.
  unfold insert_committed. destruct (committed s !! d) eqn:Hd; cbn [andb]; intros Hc; inv_outcome.
  - by apply quiet_frame.
  - pose (s1 := if validateProofs && signedMessages
                then upd_proofSigs (insert (if validateProofs then proof_of p else null)
                       (if b then ByP1 g else ByP2 g v)) s else s).
    assert (frame s s1) as Hf by (subst s1; by destruct (validateProofs && signedMessages)).
    apply quiet_trans with s1; [by apply quiet_frame|].
    eapply (finish_commit_quiet s1 d p t); [by apply (idx_frame world s)| |done|].
    + subst s1. by destruct (validateProofs && signedMessages).
    + match goal with H : finish_commit ?y _ _ _ _ _ = _ |- finish_commit ?z _ _ _ _ _ = _ =>
        replace z with y; [exact H|] end.
      subst s1. by destruct (validateProofs && signedMessages).
Qed.

Lemma CommitWithProof_quiet s d p t s' :
  indexed s → heap s !! p = Some t → like t d → CommitWithProof s d p = Done s' → quiet s s'.
Proof.
  intros Hi Ht Hl. pose proof Hl as (_ & _ & _ & Hts & _). unfold CommitWithProof, deref.
  rewrite Ht. cbn [mbind outcome_bind]. unfold insert_committed. rewrite Hts.
  destruct (committed s !! d); intros Hc; inv_outcome.
  - by apply quiet_frame.
  - by eapply finish_commit_quiet.
Qed.

Lemma Abort_quiet s d p s' : indexed s → Abort s d p = Done s' → quiet s s'.
Proof.
  intros Hi Ha. unfold Abort in Ha. inv_outcome.
  apply quiet_trans with (upd_aborted (union {[d]}) s); [by apply quiet_frame|].
  eapply quiet_trans; [eapply Clean_quiet; [|done]; by apply (idx_frame world s)|].
  apply quiet_frame.
  { eapply Clean_quiet; [|done]. by apply (idx_frame world s). }
  etrans; [by eapply CheckDependents_frame|].
  etrans; [apply (ClearRTS_frame (CleanDependencies x0 d) (read_set x1) (t_timestamp x1))|]. by destruct useSemanticCC.
Qed.

Lemma run_job_grows s j s' : wf s → run_job s j = Done s' → grows s s'.
Proof.
  intros Hwf. destruct j as [p ts d|v p ts d|p ts d]; cbn; intros Hr; inv_outcome.
  - apply grows_foldl; [intros; by apply grows_add_write|done].
  - apply grows_foldl; [intros; by apply grows_put|done].
  - by apply grows_refl.
Qed.

(** ** The check *)

Lemma check_writes_None pt ts w0 ws w :
  check_writes pt ts w0 ws = Done (w, None) →
  frame (wl_s w0) (wl_s w) ∧
  ∀ x, x ∈ ws → w_is_table_col_version x = false → IsKeyOwned (w_key x) = true →
    ∃ s1 s2, frame (wl_s w0) s1 ∧ check_write_conflicts s1 ts x = Done (s2, None).
Proof.
  revert w0. induction ws as [|y ws IH]; intros w0 Hc; cbn in Hc.
  { inv_outcome. split; [done|set_solver]. }
  inv_outcome. destruct x as [w1 [v|]]; [done|].
  match goal with Hy : check_write _ _ _ _ = _ |- _ =>
    pose proof (check_write_frame _ _ _ _ _ _ Hy) as F1; rename Hy into Hcw end.
  match goal with Hr : check_writes _ _ _ _ = _ |- _ => destruct (IH w1 Hr) as [F2 Hall] end.
  split; [by etrans|]. intros x [->|Hx]%elem_of_cons Htab Ho.
  - unfold check_write in Hcw. rewrite Htab, Ho, andb_false_r in Hcw. inv_outcome.
    destruct x as [w2 [v|]]; [done|]. inv_outcome. destruct x as [s2 [v|]]; [done|]. inv_outcome.
    exists (wl_s w2), s2. split; [|done].
    repeat case_match; simplify_eq; try done; by eapply check_policy_frame.
  - destruct (Hall x Hx Htab Ho) as (s1 & s2 & Hf & Hcc). exists s1, s2. split; [by etrans|done].
Qed.

Lemma check_write_conflicts_None s ts w s' :
  check_write_conflicts s ts w = Done (s', None) →
  check_committed_reads ts (w_value w) (reverse (default [] (committedReads s !! w_key w))) = Done None ∧
  check_prepared_reads s ts (w_key w) (w_value w)
    (elements (default ∅ (preparedReads s !! w_key w))) = Done None.
Proof.
  unfold check_write_conflicts. intros Hc. inv_outcome.
  destruct x as [v|]; inv_outcome. destruct x as [v|]; inv_outcome. done.
Qed.

(** A transaction whose reads pass is not overwritten by an active one. *)
Lemma reads_pass_no_conflict s d t x :
  indexed s → like t d → active s x → check_reads s (wts d) (read_set t) = Done None →
  ¬ rw_conflict (world d) (world x).
Proof.
  intros Hi Hl Hact Hreads (k & v & Hr & Hwx & Hg & H1 & H2).
  pose proof (idx_wf _ _ Hi) as Hwf.
  apply (like_reads _ _ _ _ _ Hl) in Hr. apply reads_elem in Hr as (r & Hr & <- & Htr & <- & Hor).
  pose proof (check_reads_None _ _ _ Hreads r Hr) as Hcr.
  destruct Hact as [[[ts q] Hpx]|Hcx].
  - destruct (wf_prepared _ _ Hwf x ts q Hpx) as (-> & _).
    destruct (idx_prep _ _ Hi x _ q Hpx) as [_ HW]. destruct (HW _ Hwx) as [q' Hq'].
    destruct (preparedWrites s !! r_key r) as [l|] eqn:Hpw; cbn in Hq'; [|set_solver].
    by eapply (check_read_no_prepared s (wts d) r (wts x) q' l); [..|eapply wf_writes|done|done|done].
  - destruct (idx_comm _ _ Hi x Hcx) as [_ HW]. destruct (HW _ Hwx) as [z Hz].
    by eapply (check_read_no_committed s (wts d) r (wts x) z); [apply (wf_store world)|..].
Qed.

(** A transaction whose writes pass overwrites no read of an active one. *)
Lemma writes_pass_no_conflict s d x w :
  indexed s → active s x →
  check_writes (policy_type (world d)) (wts d) (mkWloop s [] []) (write_set (world d)) = Done (w, None) →
  ¬ rw_conflict (world x) (world d).
Proof.
  intros Hi Hact Hw (k & v & Hr & (_ & Ho & y & Hy & <- & Htab) & Hg & H1 & H2).
  pose proof (idx_wf _ _ Hi) as Hwf. destruct (check_writes_None _ _ _ _ _ Hw) as [_ Hall].
  destruct (Hall y Hy Htab Ho) as (s1 & s2 & Hf & Hc).
  destruct (check_write_conflicts_None _ _ _ _ Hc) as [Hcr Hpr].
  apply frame_fields in Hf as (Eh & _ & _ & Er & _ & _ & Ec & _). cbn in Eh, Er, Ec.
  rewrite Er in Hpr. rewrite Ec in Hcr.
  destruct Hact as [[[ts q] Hpx]|Hcx].
  - destruct (wf_prepared _ _ Hwf x ts q Hpx) as (-> & t & Ht & Hl).
    destruct (idx_prep _ _ Hi x _ q Hpx) as [HR _]. pose proof (HR _ _ Hr) as Hin.
    apply (like_reads _ _ _ _ _ Hl) in Hr. pose proof Hl as (_ & _ & _ & Hts & _).
    eapply (check_prepared_reads_None s1 _ _ _ _ q t v Hpr); [by apply elem_of_elements|by rewrite Eh|done..|].
    by rewrite Hts.
  - destruct (idx_comm _ _ Hi x Hcx) as [HR _]. destruct (HR _ _ Hr) as [pr Hin].
    by eapply (check_committed_reads_None _ _ _ (wts x) v pr Hcr); [apply (wf_creads_sorted world)|..].
Qed.

(** The checks change nothing but the merged dependencies of the object. *)
Lemma add_dynamic_deps_grows s p ds dyn s' :
  wf s → add_dynamic_deps s p ds dyn = Done s' → grows s s'.
Proof.
  intros Hwf. unfold add_dynamic_deps. case_match; intros Ha; inv_outcome; [by apply grows_refl|].
  apply grows_heap; [intros; by apply like_merged|done].
Qed.

Lemma occ_checks_spec s now d p t ds ps s' r :
  indexed s → heap s !! p = Some t → like t d →
  occ_checks s now d p (read_set t) ds ps = Done (s', r) →
  grows s s' ∧
  (∀ irs x, r = inr irs → active s x →
     ¬ rw_conflict (world d) (world x) ∧ ¬ rw_conflict (world x) (world d)).
Proof.
  intros Hi Hp Hl Hocc. pose proof (idx_wf _ _ Hi) as Hwf.
  pose proof Hl as (_ & Hrs & Hws & Hts & Hpt & _).
  unfold occ_checks, deref in Hocc. rewrite Hp in Hocc. cbn [mbind outcome_bind] in Hocc.
  rewrite Hts, Hws, Hpt in Hocc.
  do 2 (case_match; [inv_outcome; split; [by apply grows_refl|done]|]). inv_outcome.
  match goal with Hr : check_reads _ _ _ = Done ?o |- _ =>
    rename Hr into Hreads; destruct o; [inv_outcome; split; [by apply grows_refl|done]|] end.
  inv_outcome.
  match goal with Hr : check_writes _ _ _ _ = Done ?o |- _ =>
    rename Hr into Hwrites; destruct o as [w ov] end.
  destruct ov as [v|].
  { inv_outcome. split; [|done]. apply grows_frame; [|done].
    by apply (check_writes_frame _ _ _ _ _ _ Hwrites). }
  destruct (check_writes_None _ _ _ _ _ Hwrites) as [Hf _]. cbn in Hf.
  assert (grows s (wl_s w)) as G by (by apply grows_frame).
  assert (∀ irs x, r = inr irs → active s x →
     ¬ rw_conflict (world d) (world x) ∧ ¬ rw_conflict (world x) (world d)) as Hnc.
  { intros irs z _ Hx. split; [by eapply reads_pass_no_conflict|by eapply writes_pass_no_conflict]. }
  split; [|done]. clear Hnc.
  case_match; [by inv_outcome|]. destruct useSemanticCC; [|by inv_outcome].
  destruct (CheckPredicates _ _ _ _ _) as [res dyn]. case_match; inv_outcome; [done|].
  eapply grows_trans; [done|]. eapply add_dynamic_deps_grows; [by eapply g_wf|done].
Qed.

Lemma DoMVTSOOCCCheck_spec s now d p t ds ps rem rq fb g cb s' v dl :
  sync_prepare = true →
  indexed s → heap s !! p = Some t → like t d →
  DoMVTSOOCCCheck s now d p (read_set t) ds ps rem rq fb g cb = Done (s', v, dl) →
  indexed s' ∧ (∀ x, is_Some (prepared s' !! x) → is_Some (prepared s !! x) ∨ x = d) ∧
  (∀ x, is_Some (prepared s' !! d) → prepared s !! d = None → active s x →
     ¬ rw_conflict (world d) (world x) ∧ ¬ rw_conflict (world x) (world d)).
Proof.
  intros Hsync Hi Hp Hl Hc. unfold DoMVTSOOCCCheck in Hc. rewrite Hsync in Hc. cbn [orb] in Hc.
  inv_outcome. destruct x as [[s1 early] cp].
  assert (frame s1 s') as Hlast.
  { destruct early; inv_outcome; [done|]. destruct x as [s2 r]. inv_outcome.
    by eapply dependency_stage_frame. }
  assert (indexed s1 ∧ (∀ x, is_Some (prepared s1 !! x) → is_Some (prepared s !! x) ∨ x = d) ∧
    (∀ x, is_Some (prepared s1 !! d) → prepared s !! d = None → active s x →
     ¬ rw_conflict (world d) (world x) ∧ ¬ rw_conflict (world x) (world d))) as (Hi1 & Hp1 & Hn1).
  2: { destruct (frame_fields _ _ Hlast) as (_ & _ & -> & _). split; [by eapply idx_frame|done]. }
  match goal with Hr : _ = Done (s1, early, cp) |- _ => rename Hr into Hpre end.
  case_bool_decide as Hprep.
  { inv_outcome. split_and!; [done|by left|]. intros z _ Hnone. rewrite Hnone in Hprep. by destruct Hprep. }
  inv_outcome. destruct x as [sA r].
  match goal with Hr : occ_checks _ _ _ _ _ _ _ = _ |- _ =>
    destruct (occ_checks_spec _ _ _ _ _ _ _ _ _ Hi Hp Hl Hr) as [G Hnc] end.
  destruct (g_heap _ _ _ G p t d Hp Hl) as (t' & Hp' & Hl').
  assert (indexed sA) as HiA by (by eapply idx_grows).
  destruct r as [v0|irs]; inv_outcome.
  { split_and!; [done| |].
    - intros z. rewrite (g_prepared _ _ _ G). by left.
    - intros z. rewrite (g_prepared _ _ _ G). by intros Hs. }
  assert (read_set t = read_set t') as Hrs.
  { destruct Hl as (_ & -> & _), Hl' as (_ & -> & _). done. }
  match goal with Hr : Prepare _ _ _ _ _ = _ |- _ => rewrite Hrs in Hr;
    destruct (Prepare_cases world _ _ _ _ _ _ (idx_wf _ _ HiA) Hp' Hl' Hr)
      as [Hf|(Hnone & q & tq & Hq' & Hlq & Hf)] end.
  - split_and!; [by eapply idx_frame| |].
    + intros z. destruct (frame_fields _ _ Hf) as (_ & _ & -> & _).
      rewrite (g_prepared _ _ _ G). by left.
    + intros z _ _ Hx. by apply (Hnc irs).
  - split_and!.
    + eapply idx_frame; [done|]. by eapply prepare_index_idx.
    + intros z. destruct (frame_fields _ _ Hf) as (_ & _ & -> & _).
      rewrite prepare_index_prepared, lookup_insert_is_Some', (g_prepared _ _ _ G). naive_solver.
    + intros z _ _ Hx. by apply (Hnc irs).
Qed.

Lemma DoOCCCheck_spec s now d p t rem rq fb g cb s' v dl :
  sync_prepare = true → indexed s → heap s !! p = Some t → like t d →
  DoOCCCheck s now d p rem rq fb g cb = Done (s', v, dl) →
  indexed s' ∧ (∀ x, is_Some (prepared s' !! x) → is_Some (prepared s !! x) ∨ x = d) ∧
  (∀ x, is_Some (prepared s' !! d) → prepared s !! d = None → active s x →
     ¬ rw_conflict (world d) (world x) ∧ ¬ rw_conflict (world x) (world d)).
Proof.
  intros Hsync Hi Hp Hl Hc. unfold DoOCCCheck in Hc.
  rewrite (mergeTxReadSets_base world s d p t Hq Hp Hl) in Hc. inv_outcome.
  cbn [mbind outcome_bind] in *. rewrite bool_decide_eq_false_2 in * by (by intros []).
  inv_outcome. destruct x2 as [[s1 v1] dl1].
  match goal with Hr : DoMVTSOOCCCheck _ _ _ _ _ _ _ _ _ _ _ _ = _ |- _ =>
    destruct (DoMVTSOOCCCheck_spec _ _ _ _ _ _ _ _ _ _ _ _ _ _ _ Hsync Hi Hp Hl Hr)
      as (Hi1 & Hp1 & Hn1) end.
  case_bool_decide; inv_outcome; [|done].
  match goal with Hr : Abort ?s2 _ _ = Done _ |- _ =>
    assert (indexed s2) as Hi2 by (by apply (idx_frame world s1));
    destruct (Abort_quiet _ _ _ _ Hi2 Hr) as [Hi3 Hp3] end.
  split_and!; [done|by auto|]. intros z Hd. apply Hn1. by apply Hp3.
Qed.

(** ** The replica as a transition system

    The state with the set of the transactions the replica voted for and that
    are still prepared or committed. *)
Record sys := mkSys { sv : server; voted : gset digest }.

#[local] Instance active_dec s d : Decision (active s d).
Proof. unfold active. apply _. Defined.

Definition keep s (V : gset digest) : gset digest := filter (active s) V.

Inductive sys_step : sys → sys → Prop :=
| st_arrive s V d p t : heap s !! p = None → like t d →
    sys_step (mkSys s V) (mkSys (AddOngoing (upd_heap (insert p t) s) d p) V)
| st_check s V now d p t rem rq fb g cb s' v dl :
    heap s !! p = Some t → like t d →
    DoOCCCheck s now d p rem rq fb g cb = Done (s', v, dl) →
    sys_step (mkSys s V)
      (mkSys s' (keep s' (V ∪ if prepared s' !! d then {[d]} else ∅)))
| st_commit s V d p t g b v s' : heap s !! p = Some t → like t d → Commit s d p g b v = Done s' →
    sys_step (mkSys s V) (mkSys s' (keep s' V))
| st_commit_proof s V d p t s' :
    heap s !! p = Some t → like t d → CommitWithProof s d p = Done s' →
    sys_step (mkSys s V) (mkSys s' (keep s' V))
| st_abort s V d p s' : Abort s d p = Done s' → sys_step (mkSys s V) (mkSys s' (keep s' V))
| st_clean s V d s' : Clean s d true true = Done s' → sys_step (mkSys s V) (mkSys s' (keep s' V))
| st_job s V j s' : j ∈ jobs s → run_job s j = Done s' →
    sys_step (mkSys s V) (mkSys s' (keep s' V))
| st_rts s V ts k : sys_step (mkSys s V) (mkSys (SetRTS s ts k) V).

Record inv (y : sys) : Prop := {
  inv_idx : indexed (sv y);
  inv_prepared : ∀ d, is_Some (prepared (sv y) !! d) → d ∈ voted y;
  inv_active : ∀ d, d ∈ voted y → active (sv y) d;
  inv_safe : ∀ d1 d2, d1 ∈ voted y → d2 ∈ voted y → ¬ rw_conflict (world d1) (world d2)
}.

Lemma inv_quiet s s' V : inv (mkSys s V) → quiet s s' → inv (mkSys s' (keep s' V)).
Proof.
  intros [Hi Hp Ha Hs] [Hi' Hp']. cbn in *. split; cbn; [done|..].
  - intros d Hd. apply elem_of_filter. split; [by left|]. by apply Hp, Hp'.
  - intros d [Hd _]%elem_of_filter. done.
  - intros d1 d2 [_ H1]%elem_of_filter [_ H2]%elem_of_filter. by apply Hs.
Qed.

Lemma inv_frame s s' V : inv (mkSys s V) → frame s s' → inv (mkSys s' V).
Proof.
  intros [Hi Hp Ha Hs] Hf. cbn in *.
  pose proof (idx_frame world s s' Hf Hi) as Hi'.
  destruct (frame_fields _ _ Hf) as (_ & _ & E1 & _ & _ & E2 & _).
  split; cbn; [done|by rewrite E1| |done]. intros d Hd. unfold active. rewrite E1, E2. by apply Ha.
Qed.

Lemma rw_conflict_irrefl t : ¬ rw_conflict t t.
Proof.
  intros (k & v & _ & _ & _ & _ & H). change (ltb (t_timestamp t) (t_timestamp t) = true) in H.
  by rewrite ltb_irrefl in H.
Qed.

Lemma idx_arrive s d p t :
  indexed s → heap s !! p = None → like t d → indexed (AddOngoing (upd_heap (insert p t) s) d p).
Proof.
  intros [[H1 H2 H3 H4 H5 H6] Hp Hc] Hnone Hl.
  assert (∀ q u, heap s !! q = Some u → <[p:=t]> (heap s) !! q = Some u) as Hh.
  { intros q u Hu. rewrite lookup_insert_ne; [done|]. intros ->. congruence. }
  split; [|done|done]. split; cbn; try done.
  - intros q u. rewrite lookup_insert. case_decide; [|by apply H1]. intros [= <-]. eauto.
  - intros d' ts q Hq'. destruct (H2 d' ts q Hq') as (-> & u & Hu & Hlu). eauto.
  - intros d' q. rewrite lookup_insert. case_decide.
    + intros [= <-]. subst d'. exists t. by rewrite lookup_insert_eq.
    + intros Hq'. destruct (H3 d' q Hq') as (u & Hu & Hlu). eauto.
Qed.

Context (Hsync : sync_prepare = true).

Lemma inv_check s V now d p t rem rq fb g cb s' v dl :
  inv (mkSys s V) → heap s !! p = Some t → like t d →
  DoOCCCheck s now d p rem rq fb g cb = Done (s', v, dl) →
  inv (mkSys s' (keep s' (V ∪ if prepared s' !! d then {[d]} else ∅))).
Proof.
  intros [Hi Hp Ha Hs] Ht Hl Hc. cbn in *.
  destruct (DoOCCCheck_spec s now d p t rem rq fb g cb s' v dl Hsync Hi Ht Hl Hc) as (Hi' & Hp' & Hn).
  assert (∀ x, x ∈ V ∪ (if prepared s' !! d then {[d]} else ∅) →
            x ∈ V ∨ (x = d ∧ is_Some (prepared s' !! d))) as Hin.
  { intros x. destruct (prepared s' !! d) eqn:Hd; [|set_solver]. rewrite elem_of_union, elem_of_singleton.
    intros [?| ->]; [by left|]. by right. }
  split; cbn; [done|..].
  - intros x Hx. apply elem_of_filter. split; [by left|].
    destruct (Hp' x Hx) as [?| ->]; [set_solver|].
    destruct Hx as [e He]. rewrite He. set_solver.
  - intros x [Hx _]%elem_of_filter. done.
  - intros d1 d2 [_ H1]%elem_of_filter [_ H2]%elem_of_filter. apply Hin in H1, H2.
    destruct (prepared s !! d) as [e|] eqn:Hd.
    { assert (d ∈ V) as HdV by (apply Hp; by rewrite Hd).
      apply Hs; naive_solver. }
    destruct H1 as [H1|[-> H1]], H2 as [H2|[-> H2]].
    + by apply Hs.
    + apply (Hn d1 H2 eq_refl (Ha d1 H1)).
    + apply (Hn d2 H1 eq_refl (Ha d2 H2)).
    + apply rw_conflict_irrefl.
Qed.

Lemma inv_step y y' : inv y → sys_step y y' → inv y'.
Proof.
  intros Hinv Hstep. pose proof (inv_idx _ Hinv) as Hi. destruct Hstep; cbn in Hi.
  - destruct Hinv as [_ Hp Ha Hs]. split; [by apply idx_arrive|done..].
  - by eapply inv_check.
  - eapply inv_quiet; [done|]. by eapply Commit_quiet.
  - eapply inv_quiet; [done|]. by eapply CommitWithProof_quiet.
  - eapply inv_quiet; [done|]. by eapply Abort_quiet.
  - eapply inv_quiet; [done|]. by eapply Clean_quiet.
  - eapply inv_quiet; [done|].
    match goal with Hj : run_job _ _ = _ |- _ =>
      pose proof (run_job_grows _ _ _ (idx_wf _ _ Hi) Hj) as G end.
    split; [by eapply idx_grows|]. intros x. by rewrite (g_prepared _ _ _ G).
  - eapply inv_frame; [done|]. unfold SetRTS. by repeat case_match.
Qed.

Lemma inv_init sem0 : inv (mkSys (server_init sem0) ∅).
Proof.
  split; [split; [split|..]|..]; cbn;
    first [apply vs_wf_empty|intros *; rewrite ?lookup_empty; first [done|by intros []|set_solver]].
Qed.

Lemma reachable_inv sem0 y : rtc sys_step (mkSys (server_init sem0) ∅) y → inv y.
Proof.
  intros Hr. remember (mkSys (server_init sem0) ∅) as y0. 
  assert (inv y0) as H0 by (subst; apply inv_init). clear Heqy0.
  induction Hr as [|y1 y2 y3 Hs Hr IH]; [done|]. apply IH. by eapply inv_step.
Qed.

(** C1: serializability at a replica.  Assume that distinct transactions have
    distinct timestamps ([ts_inj]), that a digest determines its transaction ([world]),
    that no read set has to be merged from queries ([no_queries]: no transaction has
    queries, or the client sends the merged read set), and that the prepare is done
    inside the check ([sync_prepare]: the endorsement check is not parallel, or is
    skipped).  In every state a replica reaches from the empty one by any interleaving
    of arrivals, concurrency checks (of a client or a fallback), commits (voted for or
    not), commits with a proof, aborts, cleanups, table jobs and recorded reads, let
    [voted y] be the transactions that a check of the replica prepared and that are
    still prepared or committed.  No two of them are in [rw_conflict]: it does not
    happen that one read a version [v], not that of genesis, of a key of this replica
    that is no table version (the first entry of its read set for the key), that the
    other, a data transaction, writes this key, and that the write lies strictly between
    [v] and the reader's timestamp.  Three cases are left out because there the replica
    does vote for both: reads of the genesis version
    ([genesis_read_skips_prepared_writes]), writes of policies, and, with the parallel
    endorsement check, a prepare that is delayed ([delayed_prepare_admits_conflict]). *)
Theorem voted_transactions_serializable sem0 y d1 d2 :
  rtc sys_step (mkSys (server_init sem0) ∅) y →
  d1 ∈ voted y → d2 ∈ voted y → ¬ rw_conflict (world d1) (world d2).
Proof. intros Hr. apply inv_safe. by eapply reachable_inv. Qed.

End system.
