(* ===== verification/MVTSOExamples.v ===== *)
(** * Concrete runs of the concurrency control

    Instances of the theorems of MVTSOSystem.v, and runs of the same
    definitions that show where the code does not give the guarantee: the
    prepare delayed by the parallel endorsement check, the fallback path and
    reads of deleted keys. *)
From S2P Require Import Prelude OrderedSeq CppString Timestamp VersionStore Policy PolicyParse ServerState DemoEnv ServerTxn MVTSO MVTSOSafety MVTSOInv MVTSOSystem.

(** Every digest has its own timestamp; transaction ["a"] writes the key
    ["k"], every other one reads ["k"] at [v] and writes its own digest. *)
Definition demo_ts (d : digest) : Timestamp := mkTs (20000 + Zpos (encode d)) 1.
Definition demo_txn (d : digest) (ts v : Timestamp) : Transaction :=
  mkTxn 1 1 (if decide (d = "a") then [] else [mkRead "k" v false ""])
    [mkWrite (if decide (d = "a") then "k" else d) (Some "x") false] [] ts
    [] [] [] (Some d) None NONE [] [] "" [] [] [0].
Definition demo_world (v : Timestamp) (d : digest) : Transaction := demo_txn d (demo_ts d) v.

Lemma demo_ts_inj v d1 d2 :
  t_timestamp (demo_world v d1) = t_timestamp (demo_world v d2) → d1 = d2.
Proof. cbn. intros [= H]. assert (encode d1 = encode d2) as He by lia. by apply encode_inj in He. Qed.

Lemma demo_like v d : like (demo_world v) (demo_world v d) d.
Proof. unfold like. split_and!; reflexivity. Qed.

(** [AddOngoing] with a new object, and the check of a transaction. *)
Definition arrive {E : Env} (d : digest) (p : ptr) (t : Transaction) (s : server) : server :=
  AddOngoing (upd_heap (insert p t) s) d p.
Definition check_txn {E : Env} (fallback cb : bool) (d : digest) (p : ptr) (s : server) :=
  DoOCCCheck s (2^40) d p 7 1 fallback false cb.
Definition state_of {E : Env} (o : outcome (server * Verdict * option Delayed)) (s : server) : server :=
  match o with Done (s', _, _) => s' | Panic => s end.

Module Sync.
#[local] Instance env : Env := demo_env false.
#[local] Notation init := (server_init (E := env) tt).
Definition v0 : Timestamp := demo_ts "a".

Lemma demo_no_queries v : no_queries (demo_world v).
Proof. left. split; reflexivity. Qed.

Definition run1 : server := arrive "a" 1%positive (demo_world v0 "a") init.
Definition run2 : server := state_of (check_txn false false "a" 1%positive run1) run1.
Definition run3 : server := arrive "b" 2%positive (demo_world v0 "b") run2.
Definition run4 : server := state_of (check_txn false false "b" 2%positive run3) run3.
Definition run_voted : gset digest :=
  keep run4 (keep run2 (∅ ∪ if prepared run2 !! "a" then {["a"]} else ∅) ∪
             if prepared run4 !! "b" then {["b"]} else ∅).

Lemma run_reachable :
  rtc (sys_step (demo_world v0)) (mkSys init ∅) (mkSys run4 run_voted).
Proof.
  apply rtc_l with (mkSys run1 ∅).
  { apply (st_arrive (demo_world v0) init ∅ "a" 1%positive (demo_world v0 "a"));
      [vm_compute; reflexivity|apply demo_like]. }
  apply rtc_l with (mkSys run2 (keep run2 (∅ ∪ if prepared run2 !! "a" then {["a"]} else ∅))).
  { apply (st_check (demo_world v0) run1 ∅ (2^40) "a" 1%positive (demo_world v0 "a") 7 1 false false
      false run2 (plain COMMIT) None); [vm_compute; reflexivity|apply demo_like|vm_compute; reflexivity]. }
  apply rtc_l with
    (mkSys run3 (keep run2 (∅ ∪ if prepared run2 !! "a" then {["a"]} else ∅))).
  { apply (st_arrive (demo_world v0) run2 _ "b" 2%positive (demo_world v0 "b"));
      [vm_compute; reflexivity|apply demo_like]. }
  apply rtc_once.
  apply (st_check (demo_world v0) run3 _ (2^40) "b" 2%positive (demo_world v0 "b") 7 1 false false
      false run4 (plain COMMIT) None); [vm_compute; reflexivity|apply demo_like|vm_compute; reflexivity].
Qed.

Lemma voted_transactions_serializable_witness :
  "a" ∈ run_voted ∧ "b" ∈ run_voted ∧
  ¬ rw_conflict (demo_world v0 "b") (demo_world v0 "a").
Proof.
  assert (bool_decide ("a" ∈ run_voted) = true) as Ha%bool_decide_eq_true by (vm_compute; reflexivity).
  assert (bool_decide ("b" ∈ run_voted) = true) as Hb%bool_decide_eq_true by (vm_compute; reflexivity).
  split; [exact Ha|]. split; [exact Hb|].
  apply (voted_transactions_serializable (demo_world v0) (demo_ts_inj v0)
    (demo_no_queries v0) eq_refl tt (mkSys run4 run_voted) "b" "a" run_reachable Hb Ha).
Defined.

End Sync.

(** ** Where the guarantee is lost *)

Definition run_delayed_cb {E : Env} (d : digest) (p : ptr) (s : server)
    (o : outcome (server * Verdict * option Delayed)) : outcome (server * Result) :=
  match o with
  | Done (_, _, Some dl) => run_delayed s d p 7 1 false dl
  | _ => Panic
  end.

Module Delay.
#[local] Instance env : Env := demo_env true.
#[local] Notation init := (server_init (E := env) tt).
(** ["b"] reads ["k"] at a version below the write of ["a"]. *)
Definition old : Timestamp := mkTs 15000 1.
Definition ta := demo_world old "a".
Definition tb := demo_world old "b".

Definition s0 : server := arrive "b" 2%positive tb (arrive "a" 1%positive ta init).
(** Both checks run before either endorsement check has finished. *)
Definition check_a := check_txn false true "a" 1%positive s0.
Definition s1 : server := state_of check_a s0.
Definition check_b := check_txn false true "b" 2%positive s1.
Definition s2 : server := state_of check_b s1.
Definition prepare_a := run_delayed_cb "a" 1%positive s2 check_a.
Definition s3 : server := match prepare_a with Done (s, _) => s | Panic => s2 end.
Definition prepare_b := run_delayed_cb "b" 2%positive s3 check_b.

(** C37: With the parallel endorsement check the concurrency check and the
    prepare are not atomic: two transactions whose conflict the check would
    find when run one after the other can both pass before either is
    prepared, and then both are prepared and both are answered COMMIT. *)
Theorem delayed_prepare_admits_conflict :
  rw_conflict tb ta ∧
  ∃ s, prepare_b = Done (s, COMMIT) ∧ (∃ sa, prepare_a = Done (sa, COMMIT)) ∧
    is_Some (prepared s !! "a") ∧ is_Some (prepared s !! "b").
Proof.
  split.
  - exists "k", old. split_and!; [|by split_and!; [..|eexists; split; [left|]]|reflexivity..].
    eexists. split; [reflexivity|]. by split_and!.
  - eexists. split; [vm_compute; reflexivity|]. split; [eexists; vm_compute; reflexivity|].
    split; vm_compute; eauto.
Qed.

(** The same two transactions one after the other: the second abstains. *)
Lemma sequential_check_abstains :
  let sa := match run_delayed_cb "a" 1%positive s1 check_a with Done (s, _) => s | Panic => s1 end in
  ∃ s v, check_txn false true "b" 2%positive sa = Done (s, v, None) ∧ v_result v = ABSTAIN.
Proof. eexists _, _. split; vm_compute; reflexivity. Qed.

(** A fallback check votes COMMIT and prepares nothing. *)
Definition fallback_a := check_txn true false "a" 1%positive s0.
Lemma fallback_example :
  ∃ s, fallback_a = Done (s, plain COMMIT, None) ∧ prepared s !! "a" = None.
Proof. eexists. split; vm_compute; reflexivity. Qed.
End Delay.

Module Genesis.
#[local] Instance env : Env := demo_env false.
#[local] Notation init := (server_init (E := env) tt).
Definition txn (d : digest) (ts : Z) (rs : list ReadMessage) (key value : string) : Transaction :=
  mkTxn 1 1 rs [mkWrite key (Some value) false] [] (mkTs ts 1) [] [] [] (Some d) None NONE [] [] ""
    [] [] [0].
(** A committed deletion of ["k"], a later write of ["k"], and a reader of
    ["k"] that saw nothing. *)
Definition tdel := txn "del" 20001 [] "k" "d".
Definition twr := txn "wr" 20002 [] "k" "x".
Definition trd := txn "rd" 20003 [mkRead "k" ts_zero false ""] "j" "y".

Definition prep (d : digest) (p : ptr) (t : Transaction) (s : server) : server :=
  let s := arrive d p t s in state_of (check_txn false false d p s) s.
Definition s1 : server := prep "del" 1%positive tdel init.
Definition s2 : server := match Commit s1 "del" 1%positive [] true 0 with Done s => s | Panic => s1 end.
Definition s3 : server := prep "wr" 2%positive twr s2.
Definition s4 : server := arrive "rd" 3%positive trd s3.

(** A read of nothing is not checked against prepared writes once the
    latest committed write of the key is a deletion: the loop goes on to the
    next read.  Here the replica has prepared a write of ["k"] (not a
    deletion) below the reader's timestamp and still prepares the reader and
    answers COMMIT. *)
Theorem genesis_read_skips_prepared_writes :
  is_Some (committed s3 !! "del") ∧ is_Some (prepared s3 !! "wr") ∧
  ts_lt ts_zero (t_timestamp twr) = true ∧ ts_lt (t_timestamp twr) (t_timestamp trd) = true ∧
  ∃ s, check_txn false false "rd" 3%positive s4 = Done (s, plain COMMIT, None) ∧
    is_Some (prepared s !! "rd") ∧ is_Some (prepared s !! "wr").
Proof.
  split_and!; [vm_compute; eauto|vm_compute; eauto|reflexivity|reflexivity|].
  eexists. split; [vm_compute; reflexivity|]. split; vm_compute; eauto.
Qed.
End Genesis.
