(* ===== verification/BatchedSigs.v ===== *)
(** * Batched signatures

    src/src/lib/batched_sigs.{h,cc} and the verifiers that cache root
    signatures (localbatchverifier.cc, sharedbatchverifier.cc).  A batch of
    messages is signed once: the root of a tree of hashes with branch factor
    [m] is signed, and the signature of a message carries the hashes on its
    path.  The hash and the underlying signature scheme are parameters.

    Memory is checked: a read of a cell that was not written, or an access
    outside a buffer, is [Panic]. *)
From S2P Require Import Prelude.

Notation bytes := (list Z).
Definition hash_size : Z := 32.

(** ** Integers as bytes *)

Definition packInt (i : Z) : bytes :=
  [Z.land (Z.shiftr i 24) 255; Z.land (Z.shiftr i 16) 255; Z.land (Z.shiftr i 8) 255; Z.land i 255].
Definition unpackInt (input : bytes) : Z :=
  foldl (λ tmp b, u32 (Z.lor (Z.shiftl tmp 8) b)) 0 input.

(** ** The tree *)

Section batch.
Variable H : bytes → bytes.
Variable Sign : bytes → bytes.
Variable sig_size : Z.
Variable m : Z.

(** The branch factor is unsigned; [n - 1] is taken in [unsigned int]. *)
Definition first_leaf (n : Z) : Z := u64 (u32 (n - 1) + u64 (m - 2)) / u64 (m - 1).
Definition num_nodes (n : Z) : Z := u64 (u64 (m * u32 (n - 1)) + u64 (m - 2)) / u64 (m - 1) + 1.
Definition max_leaf (n : Z) : Z := int32 (u64 (first_leaf n + u32 n - 1)).

(** [treeHeights] caches the result per [n]. *)
Fixpoint tree_height (fuel : nat) (k : Z) : Z :=
  match fuel with
  | O => 0
  | S fuel => if k >? 0 then 1 + tree_height fuel (k / m) else 0
  end.
Definition getTreeHeight (n : Z) : Z := tree_height 64 n.

Definition in_buffer (size k : Z) : bool := (0 <=? k) && (k <? size).
Definition read_cell (size : Z) (tree : gmap Z bytes) (k : Z) : outcome bytes :=
  if in_buffer size k then match tree !! k with Some h => Done h | None => Panic end else Panic.
Definition write_cell (size : Z) (tree : gmap Z bytes) (k : Z) (h : bytes) : outcome (gmap Z bytes) :=
  if in_buffer size k then Done (<[k := h]> tree) else Panic.
Fixpoint read_list (size : Z) (tree : gmap Z bytes) (ks : list Z) : outcome bytes :=
  match ks with
  | [] => Done []
  | k :: ks => h ← read_cell size tree k; rest ← read_list size tree ks; Done (h ++ rest)
  end.
Definition read_cells (size : Z) (tree : gmap Z bytes) (l count : Z) : outcome bytes :=
  read_list size tree (seqZ l count).

(** [bhash(&messages[i]->at(0), ..)]: [at] throws for an empty message. *)
Definition place_leaf (n size : Z) (acc : gmap Z bytes * Z) (msg : bytes) : outcome (gmap Z bytes * Z) :=
  let '(tree, i) := acc in
  _ ← uw_assert (negb (bool_decide (msg = [])));
  tree ← write_cell size tree (first_leaf n + i) (H msg);
  Done (tree, i + 1).

Definition leftmost (j : Z) : Z := int32 (u64 (u64 (u64 (j - 1) / m * m) + 1)).
Definition rightmost (maxl j : Z) : Z :=
  let r := int32 (u64 (leftmost j + m - 1)) in if r >? maxl then maxl else r.
Definition parent (j : Z) : Z := int32 (u64 (j - 1) / m).

Fixpoint build (fuel : nat) (size : Z) (tree : gmap Z bytes) (i : Z) : outcome (gmap Z bytes) :=
  match fuel with
  | O => Panic
  | S fuel =>
      if i >? 1 then
        let l := leftmost i in
        bs ← read_cells size tree l (i + 1 - l);
        tree ← write_cell size tree (parent i) (H bs);
        build fuel size tree (i - (i - l) - 1)
      else Done tree
  end.

(** The hashes on the path from node [j]; [h] of them are in the buffer. *)
Fixpoint path (fuel : nat) (size maxl max_size : Z) (tree : gmap Z bytes) (j h : Z) : outcome bytes :=
  match fuel with
  | O => Panic
  | S fuel =>
      if j >=? 1 then
        let l := leftmost j in
        let count := rightmost maxl j - l + 1 in
        bs ← read_cells size tree l count;
        _ ← uw_assert (sig_size + 8 + (h + count) * hash_size <=? max_size);
        rest ← path fuel size maxl max_size tree (parent j) (h + count);
        Done (bs ++ rest)
      else Done []
  end.

Fixpoint sign_each (size maxl max_size n : Z) (tree : gmap Z bytes) (rootSig : bytes) (idxs : list Z) :
    outcome (list bytes) :=
  match idxs with
  | [] => Done []
  | i :: idxs =>
      hashes ← path 64 size maxl max_size tree (int32 (u64 (first_leaf n + i))) 0;
      rest ← sign_each size maxl max_size n tree rootSig idxs;
      Done ((rootSig ++ packInt n ++ packInt i ++ hashes) :: rest)
  end.

Definition generateBatchedSignatures (messages : list bytes) : outcome (list bytes) :=
  let n := u32 (Z.of_nat (length messages)) in
  _ ← uw_assert (n >? 0);
  let size := num_nodes n in
  '(tree, _) ← foldO (place_leaf n size) (∅, 0) messages;
  tree ← build (S (Z.to_nat n)) size tree (max_leaf n);
  rootHash ← read_cell size tree 0;
  let rootSig := Sign rootHash in
  _ ← uw_assert (sig_size <=? Z.of_nat (length rootSig));
  let max_size := sig_size + 4 + 4 + (m * getTreeHeight n + 1) * hash_size in
  sign_each size (max_leaf n) max_size n tree (take (Z.to_nat sig_size) rootSig) (seqZ 0 n).

(** ** Recomputing the root *)

(** [len] bytes from [&signature->at(off)]: [at] throws, and reading beyond
    the string is undefined. *)
Definition read_at (s : bytes) (off len : Z) : outcome bytes :=
  if (0 <=? off) && (off <? Z.of_nat (length s)) && (off + len <=? Z.of_nat (length s))
  then Done (take (Z.to_nat len) (drop (Z.to_nat off) s)) else Panic.

Fixpoint climb (fuel : nat) (signature : bytes) (maxl j h : Z) (hash : bytes) : outcome (option bytes) :=
  match fuel with
  | O => Panic
  | S fuel =>
      if j >=? 1 then
        let l := leftmost j in
        let count := rightmost maxl j - l + 1 in
        own ← read_at signature (u64 (sig_size + 8 + (h + (j - l)) * hash_size)) hash_size;
        if negb (bool_decide (hash = own)) then Done None
        else
          bs ← read_at signature (u64 (sig_size + 8 + h * hash_size)) (u64 (count * hash_size));
          climb fuel signature maxl (parent j) (h + count) (H bs)
      else Done (Some hash)
  end.

(** [None]: the function returns [false]; otherwise the root hash and the
    root signature. *)
Definition computeBatchedSignatureHash (signature message : bytes) : outcome (option (bytes * bytes)) :=
  _ ← uw_assert (sig_size <=? Z.of_nat (length signature));
  let rootSig := take (Z.to_nat sig_size) signature in
  bn ← read_at signature sig_size 4;
  bi ← read_at signature (sig_size + 4) 4;
  let n := unpackInt bn in
  let i := unpackInt bi in
  _ ← uw_assert (negb (bool_decide (message = [])));
  r ← climb 64 signature (max_leaf n) (int32 (u64 (first_leaf n + i))) 0 (H message);
  Done (match r with Some hashStr => Some (hashStr, rootSig) | None => None end).

(** ** Verifiers with a cache of root signatures *)

Variable PubKey : Type.
Variable crypto_Verify : PubKey → bytes → bytes → bool.

(** [LocalBatchVerifier::Verify]; every failure panics. *)
Definition Local_Verify (cache : gmap bytes bytes) (pk : PubKey) (message signature : bytes) :
    outcome (gmap bytes bytes * bool) :=
  r ← computeBatchedSignatureHash signature message;
  match r with
  | None => Panic
  | Some (hashStr, rootSig) =>
      match cache !! rootSig with
      | None => if crypto_Verify pk hashStr rootSig then Done (<[rootSig := hashStr]> cache, true) else Panic
      | Some stored => if bool_decide (hashStr = stored) then Done (cache, true) else Panic
      end
  end.

(** [SharedBatchVerifier::Verify]. *)
Definition Shared_Verify (cache : gmap bytes bytes) (pk : PubKey) (message signature : bytes) :
    outcome (gmap bytes bytes * bool) :=
  r ← computeBatchedSignatureHash signature message;
  match r with
  | None => Done (cache, false)
  | Some (hashStr, rootSig) =>
      match cache !! rootSig with
      | None => if crypto_Verify pk hashStr rootSig then Done (<[rootSig := hashStr]> cache, true) else Done (cache, false)
      | Some stored => Done (cache, bool_decide (hashStr = stored))
      end
  end.
End batch.

(** ** Arithmetic of the tree *)

Lemma packInt_unpackInt i : 0 ≤ i < 2^32 → unpackInt (packInt i) = i.
Proof.
  intros Hi. unfold unpackInt, packInt. cbn [foldl].
  assert (∀ a b, 0 ≤ a < 2^24 → 0 ≤ b < 256 → u32 (Z.lor (Z.shiftl a 8) b) = a * 256 + b) as Hstep.
  { intros a b Ha Hb. rewrite Z.shiftl_mul_pow2 by lia. pose proof (Z.add_lor_land (a * 2^8) b) as Hal.
    assert (Z.land (a * 2^8) b = 0) as Hz.
    { apply Z.bits_inj'. intros k Hk. rewrite Z.land_spec, Z.bits_0, andb_false_iff.
      destruct (Z.lt_ge_cases k 8) as [H8|H8]; [left; by apply Z.mul_pow2_bits_low|right].
      apply Z.bits_above_log2; [lia|]. destruct (decide (b = 0)) as [->|]; [cbn; lia|].
      apply Z.log2_lt_pow2; [lia|]. apply Z.lt_le_trans with (2^8); [lia|]. apply Z.pow_le_mono_r; lia. }
    rewrite Hz in Hal. rewrite u32_small; lia. }
  assert (∀ x, Z.land x 255 = x `mod` 256) as Hl by (intros x; apply (Z.land_ones x 8); lia).
  rewrite !Hl, !Z.shiftr_div_pow2 by lia.
  assert (∀ x, 0 ≤ x `mod` 256 < 256) as Hm by (intros x; apply Z.mod_pos_bound; lia).
  pose proof (Hm (i / 2^24)). pose proof (Hm (i / 2^16)). pose proof (Hm (i / 2^8)). pose proof (Hm i).
  rewrite (Hstep 0) by lia. rewrite (Hstep (_ + _)) by lia. rewrite (Hstep (_ + (i / 2^16) `mod` 256)) by lia.
  rewrite (Hstep (_ + (i / 2^8) `mod` 256)) by lia.
  change (2^24) with (2^16 * 256). change (2^16) with (2^8 * 256). change (2^8) with 256.
  rewrite <- !Z.div_div by lia.
  pose proof (Z.div_mod i 256 ltac:(lia)). pose proof (Z.div_mod (i / 256) 256 ltac:(lia)).
  pose proof (Z.div_mod (i / 256 / 256) 256 ltac:(lia)).
  pose proof (Z.mod_small (i / 256 / 256 / 256) 256) as Hs.
  rewrite Hs; [lia|]. clear Hs. rewrite !Z.div_div by lia. split; [by apply Z.div_pos; lia|].
  apply Z.div_lt_upper_bound; lia.
Qed.

Section spec.
Variable m : Z.
Hypothesis m_range : 2 ≤ m < 2^30.
Variable n : Z.
Hypothesis n_range : 1 ≤ n < 2^29.
Notation I := (first_leaf m n).
Notation N := (num_nodes m n).

(** The number of inner nodes is [ceil ((n - 1) / (m - 1))]. *)
Lemma first_leaf_value : first_leaf m n = (n - 1 + (m - 2)) / (m - 1).
Proof. unfold first_leaf. rewrite u32_small, !(u64_small (m - _)), u64_small by lia. done. Qed.
Lemma first_leaf_bounds : 0 ≤ I ∧ (m - 1) * (I - 1) < n - 1 ≤ (m - 1) * I.
Proof.
  rewrite first_leaf_value. pose proof (Z.div_mod (n - 1 + (m - 2)) (m - 1) ltac:(lia)).
  pose proof (Z.mod_pos_bound (n - 1 + (m - 2)) (m - 1) ltac:(lia)).
  split; [apply Z.div_pos; lia|]. nia.
Qed.
Lemma first_leaf_le : I ≤ n - 1.
Proof. pose proof first_leaf_bounds. nia. Qed.
Lemma num_nodes_value : num_nodes m n = I + n.
Proof.
  unfold num_nodes. rewrite u32_small, (u64_small (m - 2)), (u64_small (m - 1)), (u64_small (m * _)), u64_small by nia.
  rewrite first_leaf_value. replace (m * (n - 1) + (m - 2)) with (n - 1 + (m - 2) + (n - 1) * (m - 1)) by lia.
  rewrite Z.div_add by lia. lia.
Qed.
Lemma max_leaf_value : max_leaf m n = I + n - 1.
Proof.
  unfold max_leaf. pose proof first_leaf_bounds. pose proof first_leaf_le.
  rewrite (u32_small n), u64_small, int32_id by lia. done.
Qed.

Notation L := (I + n - 1).
Definition par (j : Z) : Z := (j - 1) / m.
Definition lo (p : Z) : Z := m * p + 1.
Definition hi (p : Z) : Z := Z.min (m * p + m) L.

Lemma par_bounds j : 1 ≤ j → 0 ≤ par j ∧ lo (par j) ≤ j ≤ m * par j + m.
Proof.
  intros Hj. unfold par, lo. pose proof (Z.div_mod (j - 1) m ltac:(lia)).
  pose proof (Z.mod_pos_bound (j - 1) m ltac:(lia)). pose proof (Z.div_pos (j - 1) m ltac:(lia) ltac:(lia)). nia.
Qed.
(** A node other than the root has an inner node as its parent. *)
Lemma par_inner j : 1 ≤ j ≤ L → par j < I.
Proof. intros Hj. pose proof (par_bounds j ltac:(lia)). pose proof first_leaf_bounds. unfold lo in *. nia. Qed.
Lemma par_lt j : 1 ≤ j → par j < j.
Proof. intros Hj. pose proof (par_bounds j ltac:(lia)). unfold lo in *. nia. Qed.
Lemma L_range : 0 ≤ L < 2^31.
Proof. pose proof first_leaf_bounds. pose proof first_leaf_le. lia. Qed.

Lemma leftmost_value j : 1 ≤ j ≤ L → leftmost m j = lo (par j).
Proof.
  intros Hj. pose proof (par_bounds j ltac:(lia)) as (H0 & Hl & _). pose proof L_range. unfold leftmost, lo, par in *.
  rewrite (u64_small (j - 1)) by lia. rewrite (u64_small (_ * m)), u64_small, int32_id by nia. lia.
Qed.
Lemma rightmost_value j : 1 ≤ j ≤ L → rightmost m (max_leaf m n) j = hi (par j).
Proof.
  intros Hj. pose proof (par_bounds j ltac:(lia)) as (H0 & Hl & _). pose proof L_range. unfold rightmost.
  rewrite leftmost_value, max_leaf_value by done. unfold lo, hi in *.
  pose proof first_leaf_le. rewrite u64_small, int32_id by lia.
  destruct (Z.gtb_spec (m * par j + 1 + m - 1) L); lia.
Qed.
Lemma parent_value j : 1 ≤ j ≤ L → parent m j = par j.
Proof.
  intros Hj. pose proof (par_bounds j ltac:(lia)). pose proof (par_lt j ltac:(lia)). pose proof L_range.
  unfold parent, par in *. rewrite u64_small, int32_id by lia. done.
Qed.

(** ** Building the tree *)

Variable H : bytes → bytes.
Hypothesis H_length : ∀ x, Z.of_nat (length (H x)) = hash_size.
Implicit Types (t : gmap Z bytes) (j k p i : Z).

Definition cells t (l count : Z) : bytes := concat ((λ k, default [] (t !! k)) <$> seqZ l count).

Lemma read_cells_done t l count :
  0 ≤ l → l + count ≤ N → (∀ k, l ≤ k < l + count → is_Some (t !! k)) →
  read_cells N t l count = Done (cells t l count).
Proof.
  intros Hl Hn Hd. unfold read_cells, cells.
  assert (∀ k, k ∈ seqZ l count → 0 ≤ k < N ∧ is_Some (t !! k)) as Hin.
  { intros k Hk%elem_of_seqZ. split; [lia|]. apply Hd. lia. }
  induction (seqZ l count) as [|k ks IH]; [done|]. cbn.
  destruct (Hin k) as [Hk [h Hh]]; [by left|]. unfold read_cell, in_buffer.
  rewrite (proj2 (Z.leb_le 0 k)), (proj2 (Z.ltb_lt k N)) by lia. cbn [andb]. rewrite Hh. cbn.
  rewrite IH; [done|]. intros k' Hk'. apply Hin. by right.
Qed.
Lemma write_cell_done t k h : 0 ≤ k < N → write_cell N t k h = Done (<[k := h]> t).
Proof. intros Hk. unfold write_cell, in_buffer. rewrite (proj2 (Z.leb_le 0 k)), (proj2 (Z.ltb_lt k N)) by lia. done. Qed.
Lemma cells_insert t k h l count : ¬ (l ≤ k < l + count) → cells (<[k := h]> t) l count = cells t l count.
Proof.
  intros Hk. unfold cells. f_equal. apply list_fmap_ext. intros i x Hx. apply list_elem_of_lookup_2, elem_of_seqZ in Hx.
  rewrite lookup_insert_ne by lia. done.
Qed.
Lemma cells_length t l count :
  0 ≤ count → (∀ k, l ≤ k < l + count → ∃ x, t !! k = Some (H x)) →
  Z.of_nat (length (cells t l count)) = count * hash_size.
Proof.
  intros Hc Hd. unfold cells. rewrite <- (Z2Nat.id count) in Hd |- * by done.
  generalize (Z.to_nat count) as c, Hd. clear Hc Hd. intros c Hd. revert l Hd. induction c as [|c IH]; intros l Hd.
  { rewrite seqZ_nil by lia. done. }
  rewrite seqZ_cons by lia. cbn [fmap list_fmap concat]. rewrite length_app, Nat2Z.inj_add.
  destruct (Hd l) as [x Hx]; [lia|]. rewrite Hx. cbn [default]. unfold default, from_option, id. rewrite H_length.
  replace (Z.pred (Z.of_nat (S c))) with (Z.of_nat c) by lia. rewrite <- Z.add_1_r, IH; [lia|].
  intros k Hk. apply Hd. lia.
Qed.

Lemma nonempty_cells t l count :
  0 < count → (∀ k, l ≤ k < l + count → ∃ x, t !! k = Some (H x)) → cells t l count ≠ [].
Proof. intros Hc Hd Hn. pose proof (cells_length t l count ltac:(lia) Hd) as Hl. rewrite Hn in Hl. cbn in Hl. unfold hash_size in Hl. lia. Qed.

Section messages.
Variable messages : list bytes.
Hypothesis n_messages : n = Z.of_nat (length messages).

Definition leaves_ok t : Prop := ∀ (i : nat) msg, messages !! i = Some msg → t !! (I + Z.of_nat i) = Some (H msg).
(** The inner nodes whose children are all above [i] are done. *)
Definition built (i : Z) t : Prop :=
  leaves_ok t ∧ ∀ p, 0 ≤ p < I → i < lo p → t !! p = Some (H (cells t (lo p) (hi p - lo p + 1))).

Lemma built_defined i t k : built i t → 0 ≤ k < N → I ≤ k ∨ i < lo k → ∃ x, t !! k = Some (H x).
Proof.
  intros [Hl Hb] Hk Hc. rewrite num_nodes_value in Hk. destruct (Z.lt_ge_cases k I) as [Hlt|Hge].
  - eexists. apply Hb; lia.
  - destruct (lookup_lt_is_Some_2 messages (Z.to_nat (k - I))) as [msg Hmsg]; [lia|].
    exists msg. rewrite <- (Hl _ _ Hmsg). f_equal. lia.
Qed.

Lemma place_leaves :
  Forall (λ msg, msg ≠ []) messages →
  ∃ t, foldO (place_leaf H m n N) (∅, 0) messages = Done (t, n) ∧ built L t.
Proof.
  intros Hne. pose proof first_leaf_bounds as HI. pose proof num_nodes_value as HN.
  assert (∀ ms pre t, messages = pre ++ ms → (∀ (i : nat) msg, pre !! i = Some msg → t !! (I + Z.of_nat i) = Some (H msg)) →
    ∃ t', foldO (place_leaf H m n N) (t, Z.of_nat (length pre)) ms = Done (t', n) ∧ leaves_ok t') as Hgen.
  { induction ms as [|msg ms IH]; intros pre t Heq Ht.
    - exists t. rewrite app_nil_r in Heq. subst pre. rewrite <- n_messages. done.
    - cbn. rewrite bool_decide_eq_false_2.
      2: { rewrite Heq in Hne. apply Forall_app in Hne as [_ Hne]. by inv Hne. }
      assert (n = Z.of_nat (length pre) + 1 + Z.of_nat (length ms)) as Hlen.
      { rewrite n_messages, Heq, length_app. cbn. lia. }
      cbn. rewrite write_cell_done by lia. cbn.
      destruct (IH (pre ++ [msg]) (<[I + Z.of_nat (length pre) := H msg]> t)) as (t' & Hf & Hl).
      + by rewrite <- app_assoc.
      + intros i x Hx. apply lookup_snoc_Some in Hx as [[Hi Hx]|[-> ->]].
        * rewrite lookup_insert_ne by lia. by apply Ht.
        * by rewrite lookup_insert_eq.
      + exists t'. rewrite length_app, Nat2Z.inj_add in Hf. done. }
  destruct (Hgen messages [] ∅) as (t & Hf & Hl); [done|by intros i msg|]. exists t. split; [done|]. split; [done|].
  intros p Hp Hlo. exfalso. unfold lo in Hlo. nia.
Qed.

Lemma L_not_1 : L ≠ 1.
Proof. pose proof first_leaf_bounds. intros HL. assert (n = 1 ∨ n = 2) as [-> | ->] by lia; nia. Qed.

(** One group of siblings, ending at [i]. *)
Lemma build_group i t :
  1 ≤ i ≤ L → i = hi (par i) → built i t →
  read_cells N t (lo (par i)) (i + 1 - lo (par i)) = Done (cells t (lo (par i)) (i + 1 - lo (par i))) ∧
  built (lo (par i) - 1) (<[par i := H (cells t (lo (par i)) (i + 1 - lo (par i)))]> t).
Proof.
  intros Hi Hhi Hb. pose proof num_nodes_value as HN. pose proof (par_bounds i ltac:(lia)) as (Hp0 & Hlo & Hup).
  pose proof (par_inner i Hi) as Hin. pose proof (par_lt i ltac:(lia)) as Hlt. set (p := par i) in *.
  assert (1 ≤ lo p) as H1 by (unfold lo; nia). split.
  - apply read_cells_done; [lia|lia|]. intros k Hk. destruct (built_defined i t k Hb) as [x Hx]; [lia| |by rewrite Hx].
    right. unfold lo in *. nia.
  - destruct Hb as [Hl Hb]. split.
    + intros q msg Hq. rewrite lookup_insert_ne by lia. by apply Hl.
    + intros p' Hp' Hl'. destruct (decide (p' = p)) as [->|Hne].
      * rewrite lookup_insert_eq, cells_insert by (unfold lo in *; nia). rewrite <- Hhi. do 3 f_equal. lia.
      * rewrite lookup_insert_ne by done. rewrite cells_insert by (unfold lo in *; nia).
        apply Hb; [done|]. unfold lo in *. nia.
Qed.

Lemma build_done fuel i t :
  0 ≤ i ≤ L → (1 ≤ i → i = hi (par i)) → i ≤ m * (Z.of_nat fuel - 1) → (0 < fuel)%nat → built i t →
  ∃ t', build H m fuel N t i = Done t' ∧ built 0 t'.
Proof.
  revert i t. induction fuel as [|fuel IH]; intros i t Hi Hhi Hf Hpos Hb; [lia|]. cbn.
  destruct (Z.gtb_spec i 1) as [Hgt|Hle].
  - destruct (build_group i t) as [Hr Hb']; [lia|by apply Hhi; lia|done|].
    rewrite leftmost_value, parent_value by lia. rewrite Hr. cbn [mbind outcome_bind].
    pose proof (par_bounds i ltac:(lia)) as (Hp0 & Hlo & Hup). pose proof (par_inner i ltac:(lia)).
    rewrite write_cell_done by (rewrite num_nodes_value; pose proof first_leaf_bounds; lia). cbn [mbind outcome_bind].
    replace (i - (i - lo (par i)) - 1) with (m * par i) by (unfold lo; lia).
    apply IH; [unfold lo in *; nia| | | |].
    + intros H1. unfold hi. assert (par (m * par i) = par i - 1) as ->.
      { unfold par at 1. symmetry. apply (Z.div_unique _ _ _ (m - 1)); lia. }
      unfold lo in *. lia.
    + unfold lo in *. assert (par i ≤ Z.of_nat fuel - 1); nia.
    + destruct fuel; [|lia]. unfold lo in *. nia.
    + replace (m * par i) with (lo (par i) - 1) by (unfold lo; lia). done.
  - exists t. split; [done|]. destruct (decide (i = 0)) as [->|]; [done|]. exfalso.
    assert (i = 1) as -> by lia. specialize (Hhi ltac:(lia)). unfold hi in Hhi.
    pose proof L_not_1. assert (par 1 = 0) as Hp by (unfold par; by rewrite Z.div_0_l by lia). rewrite Hp in Hhi. lia.
Qed.

(** ** Paths *)

Lemma cells_app t l a b : 0 ≤ a → 0 ≤ b → cells t l (a + b) = cells t l a ++ cells t (l + a) b.
Proof. intros Ha Hb. unfold cells. by rewrite seqZ_app, fmap_app, concat_app. Qed.
Lemma cells_one t k x : t !! k = Some x → cells t k 1 = x.
Proof.
  intros Hk. unfold cells. rewrite seqZ_cons, seqZ_nil by lia. cbn [fmap list_fmap concat]. rewrite Hk. apply app_nil_r.
Qed.

(** The first node at each depth. *)
Fixpoint first_at (D : nat) : Z := match D with O => 0 | S D => m * first_at D + 1 end.
Lemma first_at_value D : (m - 1) * first_at D = m ^ Z.of_nat D - 1.
Proof.
  induction D as [|D IH]; [cbn; lia|]. rewrite Nat2Z.inj_succ, Z.pow_succ_r by lia. cbn [first_at]. nia.
Qed.
Lemma first_at_nonneg D : 0 ≤ first_at D.
Proof. induction D; cbn; nia. Qed.

Fixpoint trail (D : nat) t j : bytes :=
  match D with
  | O => []
  | S D => if j >=? 1 then cells t (lo (par j)) (hi (par j) - lo (par j) + 1) ++ trail D t (par j) else []
  end.

Lemma group_count j : 1 ≤ j ≤ L → 1 ≤ hi (par j) - lo (par j) + 1 ≤ m ∧ lo (par j) ≤ j ≤ hi (par j).
Proof. intros Hj. pose proof (par_bounds j ltac:(lia)) as (Hp & Hl & Hu). unfold hi, lo in *. lia. Qed.

Lemma par_first_at D j : 1 ≤ j → j < first_at (S D) → par j < first_at D.
Proof. intros Hj Hlt. pose proof (par_bounds j Hj) as (Hp & Hl & Hu). cbn in Hlt. unfold lo in *. nia. Qed.

Lemma hashed t k : built 0 t → 0 ≤ k ≤ L → ∃ x, t !! k = Some (H x).
Proof.
  intros Hb Hk. apply (built_defined 0); [done|rewrite num_nodes_value; lia|].
  destruct (Z.le_gt_cases I k); [by left|right]. unfold lo. nia.
Qed.

Variable sig_size : Z.
Hypothesis sig_size_range : 0 ≤ sig_size < 2^32.

Lemma path_done D fuel max_size t j h :
  built 0 t → 0 ≤ j ≤ L → j < first_at (S D) → (D < fuel)%nat → 0 ≤ h →
  sig_size + 8 + (h + m * Z.of_nat D) * hash_size ≤ max_size →
  path sig_size m fuel N (max_leaf m n) max_size t j h = Done (trail D t j).
Proof.
  intros Hb. revert fuel j h. induction D as [|D IH]; intros fuel j h Hj Hlt Hf Hh Hcap; (destruct fuel as [|fuel]; [lia|]).
  { cbn in Hlt |- *. destruct (Z.geb_spec j 1); [lia|done]. }
  cbn [path trail]. destruct (Z.geb_spec j 1) as [H1|]; [|done].
  rewrite leftmost_value, rightmost_value, parent_value by lia.
  pose proof (group_count j ltac:(lia)) as (Hc & Hin). pose proof (par_bounds j H1) as (Hp0 & _ & _).
  pose proof (par_lt j H1). set (count := hi (par j) - lo (par j) + 1) in *.
  assert (1 ≤ lo (par j)) by (unfold lo; nia). assert (hi (par j) ≤ L) by (unfold hi; lia).
  rewrite read_cells_done; [|lia|rewrite num_nodes_value; lia|].
  2: { intros k Hk. destruct (hashed t k Hb) as [x ->]; [lia|done]. }
  cbn [mbind outcome_bind]. rewrite (proj2 (Z.leb_le _ _)).
  2: { unfold hash_size in *. rewrite Nat2Z.inj_succ in Hcap. nia. }
  cbn [uw_assert mbind outcome_bind]. rewrite IH; [done|lia|by apply par_first_at|lia|lia|].
  unfold hash_size in *. rewrite Nat2Z.inj_succ in Hcap. nia.
Qed.

Lemma trail_length D t j :
  built 0 t → 0 ≤ j ≤ L → Z.of_nat (length (trail D t j)) ≤ m * Z.of_nat D * hash_size.
Proof.
  intros Hb. revert j. induction D as [|D IH]; intros j Hj; [cbn; lia|]. cbn [trail].
  destruct (Z.geb_spec j 1) as [H1|]; [|cbn; unfold hash_size; nia].
  pose proof (group_count j ltac:(lia)) as (Hc & Hin). pose proof (par_bounds j H1) as (Hp0 & _ & _).
  pose proof (par_lt j H1). assert (1 ≤ lo (par j)) by (unfold lo; nia). assert (hi (par j) ≤ L) by (unfold hi; lia).
  rewrite length_app, Nat2Z.inj_add, cells_length; [|lia|intros k Hk; apply hashed; [done|lia]].
  specialize (IH (par j) ltac:(lia)). unfold hash_size in *. nia.
Qed.

Lemma trail_top D t j :
  1 ≤ j ≤ L → j < first_at (S D) → cells t (lo 0) (hi 0 - lo 0 + 1) `suffix_of` trail D t j.
Proof.
  revert j. induction D as [|D IH]; intros j Hj Hlt; [cbn in Hlt; lia|]. cbn [trail].
  destruct (Z.geb_spec j 1); [|lia]. pose proof (par_bounds j ltac:(lia)) as (Hp & _). pose proof (par_lt j ltac:(lia)).
  destruct (decide (par j = 0)) as [->|Hne].
  - assert (trail D t 0 = []) as -> by (by destruct D). by rewrite app_nil_r.
  - apply suffix_app_r, IH; [lia|]. apply par_first_at; [lia|done].
Qed.

Lemma read_at_app (a b c : bytes) off len :
  Z.of_nat (length a) = off → Z.of_nat (length b) = len → b ≠ [] → read_at (a ++ b ++ c) off len = Done b.
Proof.
  intros Ha Hb Hne. unfold read_at. rewrite !length_app.
  assert (0 < length b)%nat by (destruct b; [done|cbn; lia]).
  rewrite (proj2 (Z.leb_le _ _)), (proj2 (Z.ltb_lt _ _)), (proj2 (Z.leb_le _ _)) by lia. cbn [andb]. f_equal.
  rewrite drop_app_length', take_app_length' by lia. done.
Qed.

Lemma climb_done D fuel t j h hash (pre q : bytes) :
  built 0 t → 0 ≤ j ≤ L → j < first_at (S D) → (D < fuel)%nat → 0 ≤ h →
  Z.of_nat (length pre) = sig_size + 8 → Z.of_nat (length q) = h * hash_size →
  Z.of_nat (length (pre ++ q ++ trail D t j)) < 2^64 → t !! j = Some hash →
  climb H sig_size m fuel (pre ++ q ++ trail D t j) (max_leaf m n) j h hash = Done (t !! 0).
Proof.
  intros Hb. revert fuel j h hash q.
  induction D as [|D IH]; intros fuel j h hash q Hj Hlt Hf Hh Hpre Hq Hlen Hhash; (destruct fuel as [|fuel]; [lia|]).
  { cbn in Hlt |- *. destruct (Z.geb_spec j 1); [lia|]. assert (j = 0) as -> by lia. by rewrite Hhash. }
  cbn [climb trail] in *. destruct (Z.geb_spec j 1) as [H1|]; [|assert (j = 0) as -> by lia; by rewrite Hhash].
  rewrite leftmost_value, rightmost_value, parent_value by lia.
  pose proof (group_count j ltac:(lia)) as (Hc & Hin). pose proof (par_bounds j H1) as (Hp0 & _ & _).
  pose proof (par_lt j H1) as Hpl. pose proof (par_inner j ltac:(lia)) as Hpi.
  assert (1 ≤ lo (par j)) by (unfold lo; nia). assert (hi (par j) ≤ L) by (unfold hi; lia).
  set (l := lo (par j)) in *. set (count := hi (par j) - l + 1) in *.
  assert (∀ l' c, l ≤ l' → 0 ≤ c → l' + c ≤ l + count → Z.of_nat (length (cells t l' c)) = c * hash_size) as Hcl.
  { intros l' c Hl' Hc' Hb'. apply cells_length; [done|]. intros k Hk. apply hashed; [done|lia]. }
  pose proof (Hcl l count ltac:(lia) ltac:(lia) ltac:(lia)) as Hcount.
  assert (cells t l count = cells t l (j - l) ++ hash ++ cells t (j + 1) (hi (par j) - j)) as Hsplit.
  { replace count with ((j - l) + (1 + (hi (par j) - j))) by lia.
    rewrite cells_app by lia. f_equal. replace (l + (j - l)) with j by lia.
    rewrite cells_app by lia. by rewrite (cells_one t j hash). }
  destruct (hashed t j Hb ltac:(lia)) as [x Hx]. rewrite Hhash in Hx. injection Hx as Hx.
  assert (Z.of_nat (length hash) = hash_size) as Hhl by (rewrite Hx; apply H_length).
  rewrite !length_app in Hlen. unfold hash_size in *.
  pose proof (Hcl l (j - l) ltac:(lia) ltac:(lia) ltac:(lia)) as Hjl.
  assert (read_at (pre ++ q ++ cells t l count ++ trail D t (par j)) (u64 (sig_size + 8 + (h + (j - l)) * 32)) 32 = Done hash)
    as ->.
  { rewrite Hsplit. replace (pre ++ q ++ (cells t l (j - l) ++ hash ++ cells t (j + 1) (hi (par j) - j)) ++ trail D t (par j))
      with ((pre ++ q ++ cells t l (j - l)) ++ hash ++ cells t (j + 1) (hi (par j) - j) ++ trail D t (par j))
      by (by rewrite <- !app_assoc).
    apply read_at_app; [|done|by destruct hash]. rewrite !length_app, u64_small; nia. }
  cbn [mbind outcome_bind]. rewrite bool_decide_eq_true_2 by done. cbn [negb].
  assert (read_at (pre ++ q ++ cells t l count ++ trail D t (par j)) (u64 (sig_size + 8 + h * 32)) (u64 (count * 32)) =
    Done (cells t l count)) as ->.
  { rewrite (app_assoc pre). apply read_at_app; [rewrite length_app, u64_small; nia|rewrite u64_small; nia|].
    intros Hn. rewrite Hn in Hcount. cbn in Hcount. lia. }
  cbn [mbind outcome_bind]. rewrite !(app_assoc q). apply IH; [lia|by apply par_first_at|lia|lia|done| | |].
  - rewrite length_app. nia.
  - rewrite !length_app. lia.
  - destruct Hb as [_ Hb]. rewrite Hb; [done|lia|unfold lo; nia].
Qed.

(** ** Heights *)

Lemma tree_height_spec fuel k f :
  0 ≤ k < 2 ^ Z.of_nat f → (f ≤ fuel)%nat → 0 ≤ tree_height m fuel k ≤ Z.of_nat f ∧ k < m ^ tree_height m fuel k.
Proof.
  revert k f. induction fuel as [|fuel IH]; intros k f Hk Hf; cbn.
  { assert (f = 0)%nat as -> by lia. cbn in *. lia. }
  destruct (Z.gtb_spec k 0) as [Hgt|Hle]; [|cbn; lia].
  destruct f as [|f]; [cbn in Hk; lia|]. rewrite Nat2Z.inj_succ, Z.pow_succ_r in Hk by lia.
  pose proof (Z.div_mod k m ltac:(lia)). pose proof (Z.mod_pos_bound k m ltac:(lia)).
  assert (0 ≤ k / m < 2 ^ Z.of_nat f) as Hd.
  { split; [apply Z.div_pos; lia|]. apply Z.div_lt_upper_bound; [lia|]. nia. }
  destruct (IH _ _ Hd ltac:(lia)) as [Hb Hlt]. split; [lia|].
  rewrite Z.add_comm, Z.add_1_r, Z.pow_succ_r by lia. nia.
Qed.
Notation height := (getTreeHeight m n).
Lemma height_range : 0 ≤ height ≤ 29 ∧ n < m ^ height.
Proof. apply (tree_height_spec 64 n 29); [cbn; lia|lia]. Qed.

Lemma node_depth j : 0 ≤ j ≤ L → j < first_at (S (Z.to_nat height)).
Proof.
  intros Hj. pose proof height_range as [Hh Hn]. pose proof first_leaf_bounds as HI.
  pose proof (first_at_value (Z.to_nat height)) as Hv. rewrite Z2Nat.id in Hv by lia.
  assert (I ≤ first_at (Z.to_nat height)) as HIf by nia. cbn [first_at].
  destruct (Z.le_gt_cases 1 j) as [H1|]; [|nia].
  pose proof (par_inner j ltac:(lia)). pose proof (par_bounds j H1) as (_ & _ & Hu). nia.
Qed.

(** ** Signing *)

Variable Sign : bytes → bytes.
Hypothesis Sign_length : ∀ x, Z.of_nat (length (Sign x)) = sig_size.
Notation max_size := (sig_size + 4 + 4 + (m * height + 1) * hash_size).
Definition signature_of t (rootSig : bytes) (i : Z) : bytes :=
  rootSig ++ packInt n ++ packInt i ++ trail (Z.to_nat height) t (I + i).

Lemma sign_each_done t rootSig idxs :
  built 0 t → (∀ i, i ∈ idxs → 0 ≤ i < n) →
  sign_each sig_size m N (max_leaf m n) max_size n t rootSig idxs = Done (signature_of t rootSig <$> idxs).
Proof.
  intros Hb. induction idxs as [|i idxs IH]; intros Hi; [done|]. cbn [sign_each].
  pose proof (Hi i ltac:(by left)) as Hin. pose proof first_leaf_bounds. pose proof first_leaf_le. pose proof height_range.
  rewrite u64_small, int32_id by lia. rewrite (path_done (Z.to_nat height)); [|done|lia|apply node_depth; lia|lia|lia|].
  2: { rewrite Z2Nat.id by lia. unfold hash_size. nia. }
  cbn [mbind outcome_bind]. rewrite IH; [done|]. intros i' Hi'. apply Hi. by right.
Qed.

Lemma compute_parts (a b c d msg root : bytes) (i k : Z) fuel :
  Z.of_nat (length a) = sig_size → b = packInt k → c = packInt i → 0 ≤ k < 2^32 → 0 ≤ i < 2^32 → msg ≠ [] → fuel = 64%nat →
  climb H sig_size m fuel (a ++ b ++ c ++ d) (max_leaf m k) (int32 (u64 (first_leaf m k + i))) 0 (H msg) = Done (Some root) →
  computeBatchedSignatureHash H sig_size m (a ++ b ++ c ++ d) msg = Done (Some (root, a)).
Proof.
  intros Ha Hb Hc Hk Hi Hne Hf Hcl. unfold computeBatchedSignatureHash. rewrite <- Hf.
  assert (Z.of_nat (length b) = 4) as Hlb by (by rewrite Hb). assert (Z.of_nat (length c) = 4) as Hlc by (by rewrite Hc).
  rewrite (read_at_app a b (c ++ d) sig_size 4) by (done || by destruct b).
  rewrite (app_assoc a b (c ++ d)), (read_at_app (a ++ b) c d (sig_size + 4) 4), <- (app_assoc a b (c ++ d));
    [|rewrite length_app; lia|done|by destruct c].
  rewrite (proj2 (Z.leb_le _ _)) by (rewrite length_app; lia). rewrite bool_decide_eq_false_2 by done.
  cbn [uw_assert negb mbind outcome_bind]. rewrite Hb, Hc, !packInt_unpackInt, <- Hb, <- Hc by done. rewrite Hcl.
  cbn [mbind outcome_bind]. rewrite take_app_length' by lia. done.
Qed.

(** A batch of one message: the root is the message's hash. *)
Lemma compute_single (a msg : bytes) :
  Z.of_nat (length a) = sig_size → msg ≠ [] →
  computeBatchedSignatureHash H sig_size m (a ++ packInt 1 ++ packInt 0) msg = Done (Some (H msg, a)).
Proof.
  intros Ha Hne. rewrite <- (app_nil_r (packInt 0)). remember 64%nat as fuel eqn:Hf.
  apply (compute_parts _ _ _ _ _ _ 0 1 fuel); [done|done|done|lia|lia|done|done|].
  assert (first_leaf m 1 = 0) as ->.
  { unfold first_leaf. rewrite u32_small, !(u64_small (m - _)), u64_small by lia. apply Z.div_small. lia. }
  rewrite Hf. done.
Qed.

Lemma compute_done t (i : nat) msg root :
  built 0 t → t !! 0 = Some root → messages !! i = Some msg → msg ≠ [] →
  computeBatchedSignatureHash H sig_size m (signature_of t (Sign root) (Z.of_nat i)) msg = Done (Some (root, Sign root)).
Proof.
  intros Hb Hroot Hmsg Hne. pose proof first_leaf_bounds. pose proof first_leaf_le. pose proof height_range.
  assert (0 ≤ Z.of_nat i < n) as Hi by (apply lookup_lt_Some in Hmsg; lia).
  assert (∀ x, Z.of_nat (length (packInt x)) = 4) as Hp by done.
  pose proof (trail_length (Z.to_nat height) t (I + Z.of_nat i) Hb ltac:(lia)) as Htl.
  remember 64%nat as fuel eqn:Hfuel.
  apply (compute_parts _ _ _ _ _ _ (Z.of_nat i) n fuel); [apply Sign_length|done|done|lia|lia|done|done|].
  rewrite u64_small, int32_id by lia.
  replace (Sign root ++ packInt n ++ packInt (Z.of_nat i) ++ trail (Z.to_nat height) t (I + Z.of_nat i))
    with ((Sign root ++ packInt n ++ packInt (Z.of_nat i)) ++ [] ++ trail (Z.to_nat height) t (I + Z.of_nat i))
    by (by rewrite <- !app_assoc).
  rewrite <- Hroot. apply climb_done; [done|lia|apply node_depth; lia|lia|lia| |done| |].
  - rewrite !length_app, !Nat2Z.inj_add, Sign_length, !Hp. lia.
  - rewrite !length_app, !Nat2Z.inj_add, Sign_length, !Hp. rewrite Z2Nat.id in Htl by lia.
    unfold hash_size in Htl. cbn [length]. nia.
  - destruct Hb as [Hl _]. by apply Hl.
Qed.

Lemma generate_done :
  Forall (λ msg, msg ≠ []) messages →
  ∃ t root, built 0 t ∧ t !! 0 = Some root ∧
    generateBatchedSignatures H Sign sig_size m messages = Done (signature_of t (Sign root) <$> seqZ 0 n).
Proof.
  intros Hne. destruct (place_leaves Hne) as (t0 & Hp & Hb0). pose proof first_leaf_bounds. pose proof first_leaf_le.
  destruct (build_done (S (Z.to_nat n)) L t0) as (t & Hbt & Hb); [lia| |nia|lia|done|].
  { intros Hone. pose proof (par_bounds L ltac:(lia)) as (_ & _ & Hu). unfold hi. lia. }
  destruct (hashed t 0 Hb ltac:(lia)) as [x Hx]. exists t, (H x). split; [done|]. split; [done|].
  unfold generateBatchedSignatures. rewrite <- n_messages, (u32_small n) by lia.
  destruct (Z.gtb_spec n 0); [|lia]. cbn [uw_assert mbind outcome_bind]. rewrite Hp. cbn [mbind outcome_bind].
  rewrite max_leaf_value, Hbt. cbn [mbind outcome_bind]. unfold read_cell, in_buffer.
  rewrite (proj2 (Z.ltb_lt 0 N)) by (rewrite num_nodes_value; lia). cbn [Z.leb andb Z.compare]. rewrite Hx.
  cbn [mbind outcome_bind]. rewrite Sign_length, Z.leb_refl, take_ge by (rewrite <- (Sign_length (H x)); lia). cbn [uw_assert mbind outcome_bind].
  rewrite <- max_leaf_value. apply sign_each_done; [done|]. intros i Hi%elem_of_seqZ. lia.
Qed.
End messages.
End spec.

(** ** No domain separation *)

(** A message can be made of the hashes below the root of a signed batch:
    it verifies as the only message of a batch, with a signature that anyone
    who holds one of the batch's signatures can write down. *)
Theorem inner_node_verifies_as_message H Sign sig_size m messages sigs :
  2 ≤ m < 2^30 → 2 ≤ Z.of_nat (length messages) < 2^29 → 0 ≤ sig_size < 2^32 →
  (∀ x, Z.of_nat (length (H x)) = hash_size) → (∀ x, Z.of_nat (length (Sign x)) = sig_size) →
  Forall (λ msg, msg ≠ []) messages → generateBatchedSignatures H Sign sig_size m messages = Done sigs →
  ∃ forged root, (∀ i msg sig, messages !! i = Some msg → sigs !! i = Some sig →
      forged `suffix_of` sig ∧ computeBatchedSignatureHash H sig_size m sig msg = Done (Some (root, Sign root))) ∧
    computeBatchedSignatureHash H sig_size m (Sign root ++ packInt 1 ++ packInt 0) forged = Done (Some (root, Sign root)).
Proof.
  intros Hm Hn Hss HH HS Hne Hg. assert (1 ≤ Z.of_nat (length messages) < 2^29) as Hn1 by lia.
  destruct (generate_done m Hm _ Hn1 H messages eq_refl sig_size Sign HS Hne) as (t & root & Hb & Hr & Hg').
  rewrite Hg' in Hg. injection Hg as <-. set (n := Z.of_nat (length messages)) in *.
  pose proof (first_leaf_bounds m Hm n Hn1) as HI.
  assert (t !! 0 = Some (H (cells t (lo m 0) (hi m n 0 - lo m 0 + 1)))) as Htop.
  { destruct Hb as [_ Hb]. apply Hb; [nia|unfold lo; lia]. }
  rewrite Hr in Htop. injection Htop as Htop.
  exists (cells t (lo m 0) (hi m n 0 - lo m 0 + 1)), root. split.
  - intros i msg sig Hmsg Hsig. apply list_lookup_fmap_Some in Hsig as (j & -> & Hj). apply lookup_seqZ in Hj as [-> Hi].
    rewrite Forall_lookup in Hne. split.
    + unfold signature_of. do 3 apply suffix_app_r. apply trail_top; [done..|nia|]. apply node_depth; [done..|lia].
    + by apply (compute_done m Hm n Hn1 H HH messages eq_refl sig_size Hss Sign HS _ _ _ _ Hb Hr Hmsg (Hne _ _ Hmsg)).
  - rewrite Htop. apply (compute_single m Hm H messages); [apply HS|].
    apply (nonempty_cells H HH); [unfold hi, lo; lia|]. intros k Hk. apply (hashed m Hm n Hn1 H messages eq_refl); [done|].
    unfold hi, lo in Hk. lia.
Qed.
