(* ===== verification/BatchedCerts.v ===== *)
(** * Batched signatures and certificates

    What a signed batch guarantees to its verifiers (signatures of a batch
    verify, in any order, with either cache), and what the caches give away: a
    signature verified once verifies under every key, so one signature can be
    repeated into a certificate.  Then concrete instances. *)
From S2P Require Import Prelude OrderedSeq CppString Timestamp Policy PolicyParse ServerState Quorum BatchedSigs.

Section verifiers.
Variable H : bytes → bytes.
Variable sig_size m : Z.
Variable PubKey : Type.
Variable crypto_Verify : PubKey → bytes → bytes → bool.
Notation compute := (computeBatchedSignatureHash H sig_size m).
Notation Local := (Local_Verify H sig_size m PubKey crypto_Verify).
Notation Shared := (Shared_Verify H sig_size m PubKey crypto_Verify).

(** A message and its signature, verified one after the other. *)
Definition accepts_all (Verify : gmap bytes bytes → PubKey → bytes → bytes → outcome (gmap bytes bytes * bool))
    (pk : PubKey) (cache : gmap bytes bytes) (replies : list (bytes * bytes)) : outcome (gmap bytes bytes) :=
  foldO (λ cache r, '(cache', ok) ← Verify cache pk r.1 r.2; _ ← uw_assert ok; Done cache') cache replies.

(** Both verifiers accept what recomputes to a signed root, and cache it. *)
Lemma verifies_signed pk root rootSig cache message signature :
  compute signature message = Done (Some (root, rootSig)) → crypto_Verify pk root rootSig = true →
  (∀ stored, cache !! rootSig = Some stored → stored = root) →
  Local cache pk message signature = Done (<[rootSig := root]> cache, true) ∧
  Shared cache pk message signature = Done (<[rootSig := root]> cache, true).
Proof.
  intros Hc Hv Hs. unfold Local_Verify, Shared_Verify. rewrite Hc. cbn [mbind outcome_bind].
  destruct (cache !! rootSig) as [stored|] eqn:E; [|by rewrite Hv].
  specialize (Hs stored eq_refl) as ->. rewrite bool_decide_eq_true_2, insert_id by done. done.
Qed.

Lemma accepts_replies pk root rootSig replies cache :
  (∀ r, r ∈ replies → compute r.2 r.1 = Done (Some (root, rootSig))) → crypto_Verify pk root rootSig = true →
  (∀ stored, cache !! rootSig = Some stored → stored = root) →
  (∃ c, accepts_all Local pk cache replies = Done c) ∧ (∃ c, accepts_all Shared pk cache replies = Done c).
Proof.
  intros Hr Hv. revert cache. unfold accepts_all. induction replies as [|r replies IH]; intros cache Hs; [split; by eexists|].
  destruct (verifies_signed pk root rootSig cache r.1 r.2) as [HL HS]; [by apply Hr; left|done|done|].
  cbn [foldO]. rewrite HL, HS. cbn [mbind outcome_bind uw_assert]. apply IH; [intros r' Hr'; apply Hr; by right|].
  intros stored. rewrite lookup_insert_eq. by intros [= ->].
Qed.

(** A verification that succeeded leaves the root in the cache. *)
Lemma verified_is_cached cache pk message signature cache' :
  Local cache pk message signature = Done (cache', true) ∨ Shared cache pk message signature = Done (cache', true) →
  ∃ root rootSig, compute signature message = Done (Some (root, rootSig)) ∧ cache' !! rootSig = Some root.
Proof.
  unfold Local_Verify, Shared_Verify. intros Hv.
  destruct (compute signature message) as [[[root rootSig]|]|]; cbn [mbind outcome_bind] in Hv; [|by destruct Hv..].
  exists root, rootSig. split; [done|].
  destruct (cache !! rootSig) as [stored|] eqn:E.
  - destruct Hv as [Hv|Hv].
    + destruct (bool_decide_reflect (root = stored)) as [->|]; by inv Hv.
    + injection Hv as <- Hb. apply bool_decide_eq_true_1 in Hb as ->. done.
  - destruct (crypto_Verify pk root rootSig); (destruct Hv as [Hv|Hv]; inv Hv); apply lookup_insert_eq.
Qed.

Lemma cached_for_any_key cache pk message signature cache' :
  Local cache pk message signature = Done (cache', true) ∨ Shared cache pk message signature = Done (cache', true) →
  ∀ pk', Local cache' pk' message signature = Done (cache', true) ∧ Shared cache' pk' message signature = Done (cache', true).
Proof.
  intros (root & rootSig & Hc & Hl)%verified_is_cached pk'. unfold Local_Verify, Shared_Verify. rewrite Hc.
  cbn [mbind outcome_bind]. rewrite Hl, bool_decide_eq_true_2 by done. done.
Qed.
End verifiers.

(** ** What a batch promises *)

(** C12: Signing a batch never leaves the tree's or the signature's buffer, and
    every message verifies with the signature it got: against the batch's root,
    with both verifiers, in any order and any number of times, starting with an
    empty cache. *)
Theorem signed_batch_verifies H Sign sig_size m PubKey crypto_Verify (pk : PubKey) messages :
  2 ≤ m < 2^30 → 1 ≤ Z.of_nat (length messages) < 2^29 → 0 ≤ sig_size < 2^32 →
  (∀ x, Z.of_nat (length (H x)) = hash_size) → (∀ x, Z.of_nat (length (Sign x)) = sig_size) →
  (∀ x, crypto_Verify pk x (Sign x) = true) → Forall (λ msg, msg ≠ []) messages →
  ∃ sigs, generateBatchedSignatures H Sign sig_size m messages = Done sigs ∧ length sigs = length messages ∧
    ∀ replies, (∀ r, r ∈ replies → r ∈ zip messages sigs) →
      (∃ c, accepts_all PubKey (Local_Verify H sig_size m PubKey crypto_Verify) pk ∅ replies = Done c) ∧
      (∃ c, accepts_all PubKey (Shared_Verify H sig_size m PubKey crypto_Verify) pk ∅ replies = Done c).
Proof.
  intros Hm Hn Hss HH HS Hv Hne.
  destruct (generate_done m Hm _ Hn H messages eq_refl sig_size Sign HS Hne) as (t & root & Hb & Hr & Hg).
  eexists. split; [exact Hg|]. split; [rewrite length_fmap, length_seqZ; lia|]. intros replies Hin.
  apply (accepts_replies _ _ _ _ _ _ root (Sign root)); [|done|by intros stored Hs].
  intros r Hr'. apply Hin in Hr'. apply list_elem_of_lookup in Hr' as [i Hi].
  apply lookup_zip_with_Some in Hi as (msg & sig & -> & Hmsg & Hsig). cbn.
  apply list_lookup_fmap_Some in Hsig as (j & -> & Hj). apply lookup_seqZ in Hj as [-> _].
  rewrite Forall_lookup in Hne. by apply (compute_done m Hm _ Hn H HH messages eq_refl sig_size Hss Sign HS _ _ _ _ Hb Hr Hmsg (Hne _ _ Hmsg)).
Qed.

(** ** What the caches give away *)

Definition byte_list (s : string) : bytes := (λ c, Z.of_N (Ascii.N_of_ascii c)) <$> String.list_ascii_of_string s.

(** [verifier->Verify(keyManager->GetPublicKey(id), ..)] with the verifier's
    cache as it is. *)
Definition cached_Verify (Verify : gmap bytes bytes → Z → bytes → bytes → outcome (gmap bytes bytes * bool))
    (cache : gmap bytes bytes) (pid : Z) (msg sig : string) : bool :=
  match Verify cache pid (byte_list msg) (byte_list sig) with Done (_, ok) => ok | Panic => false end.

(** C39: The caches are not keyed by the public key: once a signature on a
    phase-2 decision is verified, for one process, it verifies as everyone's,
    leaving the cache as it is; a certificate that repeats it under [4 f + 1]
    ids is valid. *)
Theorem cached_signature_certifies H sig_size m crypto_Verify config ser_p2 dec view inv d logGrp label mydec pid0 sig ids cache0 cache :
  let msg := ser_p2 (mkP2Msg dec view logGrp d) in
  let Local := Local_Verify H sig_size m Z crypto_Verify in
  let Shared := Shared_Verify H sig_size m Z crypto_Verify in
  Local cache0 pid0 (byte_list msg) (byte_list sig) = Done (cache, true) ∨
  Shared cache0 pid0 (byte_list msg) (byte_list sig) = Done (cache, true) →
  0 ≤ cf_f config < 2^28 → GetLogGroup inv d = Done logGrp → NoDup ids → Z.of_nat (length ids) = 4 * cf_f config + 1 →
  (∀ pid, Local cache pid (byte_list msg) (byte_list sig) = Done (cache, true) ∧
          Shared cache pid (byte_list msg) (byte_list sig) = Done (cache, true)) ∧
  ValidateP2Replies config ser_p2 (cached_Verify Local cache) dec view inv d [(label, (λ pid, mkSig pid sig) <$> ids)] (-1) mydec
    = Done true ∧
  ValidateP2Replies config ser_p2 (cached_Verify Shared cache) dec view inv d [(label, (λ pid, mkSig pid sig) <$> ids)] (-1) mydec
    = Done true.
Proof.
  intros msg Local Shared Hv Hf Hlog Hnd Hlen.
  pose proof (cached_for_any_key H sig_size m Z crypto_Verify _ _ _ _ _ Hv) as Hany. split; [exact Hany|].
  assert (pids ((λ pid, mkSig pid sig) <$> ids) = ids) as Hpids.
  { unfold pids. rewrite <- list_fmap_compose. apply list_fmap_id. }
  split; unfold ValidateP2Replies; rewrite Hlog; cbn [mbind outcome_bind].
  all: rewrite p2_sigs_accept; rewrite ?Hpids, ?length_fmap; [rewrite p2_quorum_value by done; do 2 f_equal; lia
    |done|set_solver| |by intros []|lia|lia].
  all: intros s (pid & -> & Hin)%list_elem_of_fmap; unfold cached_Verify; cbn [sig_process_id sig_bytes]; fold msg; subst Local Shared; cbn beta.
  - by rewrite (proj1 (Hany pid)).
  - by rewrite (proj2 (Hany pid)).
Qed.

(** ** Concrete instances *)

Module BatchedExample.

Definition toy_hash (x : bytes) : bytes := replicate 31 7 ++ [foldl (λ a b, (31 * a + b) `mod` 251) 5 x].
Definition toy_sign (x : bytes) : bytes := toy_hash (99 :: x).
(** Only process 0 signs. *)
Definition toy_verify (pid : Z) (x s : bytes) : bool := (pid =? 0) && bool_decide (s = toy_sign x).
Definition five : list bytes := [[1]; [2]; [3]; [4]; [5; 6]].

Lemma toy_hash_length x : Z.of_nat (length (toy_hash x)) = hash_size.
Proof. unfold toy_hash. rewrite length_app. done. Qed.
Lemma toy_verify_own x : toy_verify 0 x (toy_sign x) = true.
Proof. unfold toy_verify. by rewrite bool_decide_eq_true_2. Qed.
Lemma five_nonempty : Forall (λ msg : bytes, msg ≠ []) five.
Proof. by repeat constructor. Qed.

Lemma signed_batch_verifies_witness :
  ∃ sigs, generateBatchedSignatures toy_hash toy_sign 32 3 five = Done sigs ∧ length sigs = length five ∧
    ∀ replies, (∀ r, r ∈ replies → r ∈ zip five sigs) →
      (∃ c, accepts_all Z (Local_Verify toy_hash 32 3 Z toy_verify) 0 ∅ replies = Done c) ∧
      (∃ c, accepts_all Z (Shared_Verify toy_hash 32 3 Z toy_verify) 0 ∅ replies = Done c).
Proof.
  apply (signed_batch_verifies toy_hash toy_sign 32 3 Z toy_verify 0 five);
    [lia|cbn; lia|lia|exact toy_hash_length|intros x; exact (toy_hash_length _)|exact toy_verify_own|exact five_nonempty].
Defined.

Definition toy_message : string := "commit".
Definition toy_root : bytes := toy_hash (byte_list toy_message).
Definition to_string (l : bytes) : string := String.string_of_list_ascii ((λ b, Ascii.ascii_of_N (Z.to_N b)) <$> l).
Definition toy_signature : string := to_string (toy_sign toy_root ++ packInt 1 ++ packInt 0).

(** The signature of one replica, five times. *)
Lemma cached_signature_certifies_witness :
  ValidateP2Replies QuorumExample.config (λ _, toy_message)
    (cached_Verify (Local_Verify toy_hash 32 2 Z toy_verify) {[toy_sign toy_root := toy_root]})
    DCOMMIT 0 [0] "d" [(0, (λ pid, mkSig pid toy_signature) <$> [0; 1; 2; 3; 4])] (-1) DABORT = Done true.
Proof.
  apply (cached_signature_certifies toy_hash 32 2 toy_verify QuorumExample.config (λ _, toy_message) DCOMMIT 0 [0] "d" 0 0 DABORT
    0 toy_signature [0; 1; 2; 3; 4] ∅ {[toy_sign toy_root := toy_root]});
    [left; vm_compute; reflexivity|cbn; lia|reflexivity|apply (bool_decide_unpack _); vm_compute; exact I|reflexivity].
Defined.

Lemma inner_node_verifies_as_message_witness :
  ∃ sigs, generateBatchedSignatures toy_hash toy_sign 32 2 five = Done sigs ∧
  ∃ forged root, (∀ i msg sig, five !! i = Some msg → sigs !! i = Some sig →
      forged `suffix_of` sig ∧ computeBatchedSignatureHash toy_hash 32 2 sig msg = Done (Some (root, toy_sign root))) ∧
    computeBatchedSignatureHash toy_hash 32 2 (toy_sign root ++ packInt 1 ++ packInt 0) forged = Done (Some (root, toy_sign root)).
Proof.
  destruct (generateBatchedSignatures toy_hash toy_sign 32 2 five) as [sigs|] eqn:Hg; [|vm_compute in Hg; discriminate Hg].
  exists sigs. split; [reflexivity|].
  apply (inner_node_verifies_as_message toy_hash toy_sign 32 2 five sigs);
    [lia|cbn; lia|lia|exact toy_hash_length|intros x; exact (toy_hash_length _)|exact five_nonempty|exact Hg].
Defined.
End BatchedExample.
