(* ===== verification/EndorseClient.v ===== *)
(** * Collecting endorsements at a client

    [EndorsementClient] (src/src/store/common/sintring/endorsement_client.h
    and .cc) keeps, per transaction of a client, the policy it has to satisfy
    and the endorsements it has received; [Client2Client]
    (src/src/store/sintrstore/client2client.cc) feeds it the validations of
    other clients, and [Client::Phase1] (client.cc) waits for it before it
    asks the replicas to vote.

    The map of check states is a concurrent hash map and every method holds
    the entry it works on, so that an execution is a sequence of method
    calls. *)
From S2P Require Import Prelude OrderedSeq CppString Timestamp VersionStore Policy PolicyParse ServerState DemoEnv ServerTxn MVTSO Endorse.

(** ** State *)

Record EndorsementCheckState := mkECS {
  ec_expectedTxnDigest : string;
  ec_expectedTxn : option Transaction;
  ec_policyClient : PolicyClient.t;
  ec_client_ids_received : cids;
  ec_endorsements : list SignedMessage;
  ec_pendingEndorsements : list (Z * (string * SignedMessage));
  ec_pendingDigests : list (Z * string);
  ec_pendingTxns : list Transaction;
  ec_numChecksBeforeDestruct : Z;
  ec_numCheckValidations : Z;
  ec_endorsementsUsed : bool;
  ec_policyVersions : list (Z * string);
  ec_expectedPolicyDigest : string;
  ec_policyMismatch : bool
}.
Definition EndorsementCheckState_new : EndorsementCheckState :=
  mkECS "" None PolicyClient.init [] [] [] [] [] (-1) 0 false [] "" false.

Definition ec_set_expectedTxnDigest (x : string) (c : EndorsementCheckState) : EndorsementCheckState :=
  mkECS x (ec_expectedTxn c) (ec_policyClient c) (ec_client_ids_received c) (ec_endorsements c)
    (ec_pendingEndorsements c) (ec_pendingDigests c) (ec_pendingTxns c) (ec_numChecksBeforeDestruct c)
    (ec_numCheckValidations c) (ec_endorsementsUsed c) (ec_policyVersions c) (ec_expectedPolicyDigest c)
    (ec_policyMismatch c).
Definition ec_set_expectedTxn (x : option Transaction) (c : EndorsementCheckState) : EndorsementCheckState :=
  mkECS (ec_expectedTxnDigest c) x (ec_policyClient c) (ec_client_ids_received c) (ec_endorsements c)
    (ec_pendingEndorsements c) (ec_pendingDigests c) (ec_pendingTxns c) (ec_numChecksBeforeDestruct c)
    (ec_numCheckValidations c) (ec_endorsementsUsed c) (ec_policyVersions c) (ec_expectedPolicyDigest c)
    (ec_policyMismatch c).
Definition ec_set_policyClient (x : PolicyClient.t) (c : EndorsementCheckState) : EndorsementCheckState :=
  mkECS (ec_expectedTxnDigest c) (ec_expectedTxn c) x (ec_client_ids_received c) (ec_endorsements c)
    (ec_pendingEndorsements c) (ec_pendingDigests c) (ec_pendingTxns c) (ec_numChecksBeforeDestruct c)
    (ec_numCheckValidations c) (ec_endorsementsUsed c) (ec_policyVersions c) (ec_expectedPolicyDigest c)
    (ec_policyMismatch c).
Definition ec_set_client_ids_received (x : cids) (c : EndorsementCheckState) : EndorsementCheckState :=
  mkECS (ec_expectedTxnDigest c) (ec_expectedTxn c) (ec_policyClient c) x (ec_endorsements c)
    (ec_pendingEndorsements c) (ec_pendingDigests c) (ec_pendingTxns c) (ec_numChecksBeforeDestruct c)
    (ec_numCheckValidations c) (ec_endorsementsUsed c) (ec_policyVersions c) (ec_expectedPolicyDigest c)
    (ec_policyMismatch c).
Definition ec_set_endorsements (x : list SignedMessage) (c : EndorsementCheckState) : EndorsementCheckState :=
  mkECS (ec_expectedTxnDigest c) (ec_expectedTxn c) (ec_policyClient c) (ec_client_ids_received c) x
    (ec_pendingEndorsements c) (ec_pendingDigests c) (ec_pendingTxns c) (ec_numChecksBeforeDestruct c)
    (ec_numCheckValidations c) (ec_endorsementsUsed c) (ec_policyVersions c) (ec_expectedPolicyDigest c)
    (ec_policyMismatch c).
Definition ec_set_pendingEndorsements (x : list (Z * (string * SignedMessage))) (c : EndorsementCheckState) : EndorsementCheckState :=
  mkECS (ec_expectedTxnDigest c) (ec_expectedTxn c) (ec_policyClient c) (ec_client_ids_received c)
    (ec_endorsements c) x (ec_pendingDigests c) (ec_pendingTxns c) (ec_numChecksBeforeDestruct c)
    (ec_numCheckValidations c) (ec_endorsementsUsed c) (ec_policyVersions c) (ec_expectedPolicyDigest c)
    (ec_policyMismatch c).
Definition ec_set_pendingDigests (x : list (Z * string)) (c : EndorsementCheckState) : EndorsementCheckState :=
  mkECS (ec_expectedTxnDigest c) (ec_expectedTxn c) (ec_policyClient c) (ec_client_ids_received c)
    (ec_endorsements c) (ec_pendingEndorsements c) x (ec_pendingTxns c) (ec_numChecksBeforeDestruct c)
    (ec_numCheckValidations c) (ec_endorsementsUsed c) (ec_policyVersions c) (ec_expectedPolicyDigest c)
    (ec_policyMismatch c).
Definition ec_set_pendingTxns (x : list Transaction) (c : EndorsementCheckState) : EndorsementCheckState :=
  mkECS (ec_expectedTxnDigest c) (ec_expectedTxn c) (ec_policyClient c) (ec_client_ids_received c)
    (ec_endorsements c) (ec_pendingEndorsements c) (ec_pendingDigests c) x (ec_numChecksBeforeDestruct c)
    (ec_numCheckValidations c) (ec_endorsementsUsed c) (ec_policyVersions c) (ec_expectedPolicyDigest c)
    (ec_policyMismatch c).
Definition ec_set_numChecksBeforeDestruct (x : Z) (c : EndorsementCheckState) : EndorsementCheckState :=
  mkECS (ec_expectedTxnDigest c) (ec_expectedTxn c) (ec_policyClient c) (ec_client_ids_received c)
    (ec_endorsements c) (ec_pendingEndorsements c) (ec_pendingDigests c) (ec_pendingTxns c) x
    (ec_numCheckValidations c) (ec_endorsementsUsed c) (ec_policyVersions c) (ec_expectedPolicyDigest c)
    (ec_policyMismatch c).
Definition ec_set_numCheckValidations (x : Z) (c : EndorsementCheckState) : EndorsementCheckState :=
  mkECS (ec_expectedTxnDigest c) (ec_expectedTxn c) (ec_policyClient c) (ec_client_ids_received c)
    (ec_endorsements c) (ec_pendingEndorsements c) (ec_pendingDigests c) (ec_pendingTxns c)
    (ec_numChecksBeforeDestruct c) x (ec_endorsementsUsed c) (ec_policyVersions c) (ec_expectedPolicyDigest c)
    (ec_policyMismatch c).
Definition ec_set_endorsementsUsed (x : bool) (c : EndorsementCheckState) : EndorsementCheckState :=
  mkECS (ec_expectedTxnDigest c) (ec_expectedTxn c) (ec_policyClient c) (ec_client_ids_received c)
    (ec_endorsements c) (ec_pendingEndorsements c) (ec_pendingDigests c) (ec_pendingTxns c)
    (ec_numChecksBeforeDestruct c) (ec_numCheckValidations c) x (ec_policyVersions c) (ec_expectedPolicyDigest
    c) (ec_policyMismatch c).
Definition ec_set_expectedPolicyDigest (x : string) (c : EndorsementCheckState) : EndorsementCheckState :=
  mkECS (ec_expectedTxnDigest c) (ec_expectedTxn c) (ec_policyClient c) (ec_client_ids_received c)
    (ec_endorsements c) (ec_pendingEndorsements c) (ec_pendingDigests c) (ec_pendingTxns c)
    (ec_numChecksBeforeDestruct c) (ec_numCheckValidations c) (ec_endorsementsUsed c) (ec_policyVersions c) x
    (ec_policyMismatch c).
Definition ec_set_policyMismatch (x : bool) (c : EndorsementCheckState) : EndorsementCheckState :=
  mkECS (ec_expectedTxnDigest c) (ec_expectedTxn c) (ec_policyClient c) (ec_client_ids_received c)
    (ec_endorsements c) (ec_pendingEndorsements c) (ec_pendingDigests c) (ec_pendingTxns c)
    (ec_numChecksBeforeDestruct c) (ec_numCheckValidations c) (ec_endorsementsUsed c) (ec_policyVersions c)
    (ec_expectedPolicyDigest c) x.

Record EndorsementClient := mkEC {
  ecl_client_id : Z;
  ecl_client_seq_num : Z;
  ecl_states : gmap Z EndorsementCheckState;
  ecl_blacklistedClients : cids;
  ecl_updateClientPolicyVersions : gset Z
}.
Definition EndorsementClient_new (cid : Z) : EndorsementClient := mkEC cid 0 ∅ [] ∅.
Definition upd_states (f : gmap Z EndorsementCheckState → gmap Z EndorsementCheckState) (c : EndorsementClient) :
    EndorsementClient :=
  mkEC (ecl_client_id c) (ecl_client_seq_num c) (f (ecl_states c)) (ecl_blacklistedClients c)
    (ecl_updateClientPolicyVersions c).
Definition blacklist (pid : Z) (c : EndorsementClient) : EndorsementClient :=
  mkEC (ecl_client_id c) (ecl_client_seq_num c) (ecl_states c) (seq_insert id pid (ecl_blacklistedClients c))
    (ecl_updateClientPolicyVersions c).

(** [sequence_number != -1 ? sequence_number : client_seq_num], from [int64_t]
    to [uint64_t]. *)
Definition seq_of (c : EndorsementClient) (sequence_number : Z) : Z :=
  if sequence_number =? -1 then ecl_client_seq_num c else u64 sequence_number.

(** [find(a, seq_num)] where the code panics without the entry. *)
Definition find_state (c : EndorsementClient) (q : Z) : outcome EndorsementCheckState :=
  match ecl_states c !! q with Some e => Done e | None => Panic end.

(** [Done()], and the end of the methods that may be the last to need the
    entry. *)
Definition ecs_Done (e : EndorsementCheckState) : bool :=
  (ec_numChecksBeforeDestruct e >=? 0) && (ec_numCheckValidations e >=? ec_numChecksBeforeDestruct e) &&
  ec_endorsementsUsed e.
Definition store_or_erase (q : Z) (e : EndorsementCheckState) (c : EndorsementClient) : EndorsementClient :=
  upd_states (if ecs_Done e then delete q else <[q := e]>) c.

(** ** Operations *)

Definition GetEndorsements (c : EndorsementClient) (sequence_number : Z) : outcome (list SignedMessage) :=
  e ← find_state c (seq_of c sequence_number); Done (ec_endorsements e).

Definition GetBlacklistedClients (c : EndorsementClient) : cids := ecl_blacklistedClients c.
Definition GetUpdatePolicyClients (c : EndorsementClient) : gset Z := ecl_updateClientPolicyVersions c.
Definition ClearPolicyClientsSet (c : EndorsementClient) : EndorsementClient :=
  mkEC (ecl_client_id c) (ecl_client_seq_num c) (ecl_states c) (ecl_blacklistedClients c) ∅.

Definition SetClientSeqNum (q : Z) (c : EndorsementClient) : outcome EndorsementClient :=
  match ecl_states c !! q with
  | Some _ => Panic
  | None => Done (mkEC (ecl_client_id c) q (<[q := EndorsementCheckState_new]> (ecl_states c))
                   (ecl_blacklistedClients c) (ecl_updateClientPolicyVersions c))
  end.

Definition SetEndorsementsUsed (sequence_number : Z) (c : EndorsementClient) : outcome EndorsementClient :=
  let q := seq_of c sequence_number in
  e ← find_state c q; Done (store_or_erase q (ec_set_endorsementsUsed true e) c).

(** The two loops over what arrived before the digest was known. *)
Definition check_one (e : EndorsementCheckState) : EndorsementCheckState :=
  ec_set_numCheckValidations (int32 (ec_numCheckValidations e + 1)) e.
Definition accept_endorsement (peer : Z) (signed : SignedMessage) (e : EndorsementCheckState) : EndorsementCheckState :=
  ec_set_endorsements (ec_endorsements e ++ [signed])
    (ec_set_client_ids_received (seq_insert id peer (ec_client_ids_received e)) e).
Definition settle_endorsement (expected : string) (acc : EndorsementCheckState * EndorsementClient)
    (it : Z * (string * SignedMessage)) : EndorsementCheckState * EndorsementClient :=
  let '(e, c) := acc in
  let '(peer, (dig, signed)) := it in
  if bool_decide (expected = dig) then (check_one (accept_endorsement peer signed e), c)
  else (check_one e, blacklist peer c).
Definition settle_digest (expected : string) (acc : EndorsementCheckState * EndorsementClient)
    (it : Z * string) : EndorsementCheckState * EndorsementClient :=
  let '(e, c) := acc in
  let '(peer, dig) := it in
  if negb (bool_decide (expected = dig)) then (check_one e, blacklist peer c) else (check_one e, c).
Definition settle_policy (policy_digest : string) (acc : EndorsementCheckState * EndorsementClient)
    (it : Z * string) : EndorsementCheckState * EndorsementClient :=
  let '(e, c) := acc in
  let '(peer, dig) := it in
  if negb (bool_decide (dig = policy_digest)) then
    (ec_set_policyMismatch true e,
     mkEC (ecl_client_id c) (ecl_client_seq_num c) (ecl_states c) (ecl_blacklistedClients c)
       ({[peer]} ∪ ecl_updateClientPolicyVersions c))
  else (e, c).

Definition SetExpectedTxnDigest (expected : string) (sequence_number : Z) (policy_digest : string)
    (c : EndorsementClient) : outcome EndorsementClient :=
  let q := seq_of c sequence_number in
  e ← find_state c q;
  let e := ec_set_client_ids_received (seq_insert id (ecl_client_id c) (ec_client_ids_received e))
             (ec_set_expectedTxnDigest expected e) in
  let '(e, c) :=
    if bool_decide (policy_digest = "") then (e, c)
    else foldl (settle_policy policy_digest) (ec_set_expectedPolicyDigest policy_digest e, c) (ec_policyVersions e) in
  let '(e, c) := foldl (settle_endorsement expected) (e, c) (ec_pendingEndorsements e) in
  let '(e, c) := foldl (settle_digest expected) (e, c) (ec_pendingDigests e) in
  let e := ec_set_pendingDigests [] (ec_set_pendingEndorsements [] e) in
  Done (store_or_erase q e c).

(** [DebugCheckFunction] only writes to the log. *)
Definition DebugSetExpectedTxn (expectedTxn : Transaction) (c : EndorsementClient) : outcome EndorsementClient :=
  let q := ecl_client_seq_num c in
  e ← find_state c q;
  Done (upd_states (<[q := ec_set_pendingTxns [] (ec_set_expectedTxn (Some expectedTxn) e)]>) c).
Definition DebugCheck (txn : Transaction) (c : EndorsementClient) : EndorsementClient :=
  let q := ecl_client_seq_num c in
  match ecl_states c !! q with
  | None => c
  | Some e =>
      match ec_expectedTxn e with
      | None => upd_states (<[q := ec_set_pendingTxns (ec_pendingTxns e ++ [txn]) e]>) c
      | Some _ => c
      end
  end.

Definition UpdateRequirement (policy : Policy) (sequence_number : Z) (c : EndorsementClient) : outcome EndorsementClient :=
  let q := seq_of c sequence_number in
  e ← find_state c q;
  pc ← PolicyClient.AddPolicy (ec_policyClient e) policy;
  Done (upd_states (<[q := ec_set_policyClient pc e]>) c).

Definition DifferenceToSatisfied (rand : Z) (potentialEndorsements : cids) (sequence_number : Z) (c : EndorsementClient) :
    list Z :=
  match ecl_states c !! seq_of c sequence_number with
  | None => []
  | Some e => PolicyClient.DifferenceToSatisfied rand (ec_policyClient e) potentialEndorsements
  end.

Definition AddValidation (peer : Z) (valTxnDigest : string) (signed : SignedMessage) (sequence_number : Z)
    (c : EndorsementClient) : EndorsementClient :=
  let q := seq_of c sequence_number in
  match ecl_states c !! q with
  | None => c
  | Some e =>
      let '(e, c) :=
        if seq_mem id peer (ec_client_ids_received e) then (e, c)
        else if (0 <? String.length (ec_expectedTxnDigest e))%nat then
          if bool_decide (valTxnDigest = ec_expectedTxnDigest e)
          then (check_one (accept_endorsement peer signed e), c)
          else (check_one e, blacklist peer c)
        else (ec_set_pendingEndorsements
                (seq_put fst (peer, (valTxnDigest, signed)) (ec_pendingEndorsements e)) e, c) in
      store_or_erase q e c
  end.

Definition AddValidationOptimistic (peer : Z) (signed : SignedMessage) (sequence_number : Z) (c : EndorsementClient) :
    EndorsementClient :=
  let q := seq_of c sequence_number in
  match ecl_states c !! q with
  | None => c
  | Some e =>
      if seq_mem id peer (ec_client_ids_received e) then c
      else upd_states (<[q := accept_endorsement peer signed e]>) c
  end.

Definition CheckValidation (peer q : Z) (valTxnDigest : string) (c : EndorsementClient) : EndorsementClient :=
  match ecl_states c !! q with
  | None => c
  | Some e =>
      let '(e, c) :=
        if (0 <? String.length (ec_expectedTxnDigest e))%nat then
          (check_one e, if bool_decide (valTxnDigest = ec_expectedTxnDigest e) then c else blacklist peer c)
        else (ec_set_pendingDigests (seq_put fst (peer, valTxnDigest) (ec_pendingDigests e)) e, c) in
      store_or_erase q e c
  end.

(** [size() - 1] is a [size_t], stored in an [int]. *)
Definition EC_IsSatisfied (sequence_number : Z) (c : EndorsementClient) : outcome (EndorsementClient * bool) :=
  let q := seq_of c sequence_number in
  e ← find_state c q;
  if PolicyClient.IsSatisfied (ec_policyClient e) (ec_client_ids_received e)
  then Done (upd_states (<[q := ec_set_numChecksBeforeDestruct
               (int32 (u64 (Z.of_nat (length (ec_client_ids_received e)) - 1))) e]>) c, true)
  else Done (c, false).

Definition EC_IsImpliedBy (policy : Policy) (q : Z) (c : EndorsementClient) : outcome bool :=
  e ← find_state c q; PolicyClient.IsImpliedBy (ec_policyClient e) policy.
Definition GetPolicyMismatch (q : Z) (c : EndorsementClient) : outcome bool :=
  e ← find_state c q; Done (ec_policyMismatch e).

(** ** Client2Client and Client *)

Record ValTxnMsg := mkVal { vt_client_id : Z; vt_validation_txn_seq_num : Z; vt_validation_txn_digest : string }.
Record FinishValidateTxnMessage := mkFinish {
  fv_client_id : Z;
  fv_validation_txn_seq_num : Z;
  fv_validation_txn_msg : ValTxnMsg;
  fv_val_txn : Transaction
}.

Definition int64 (x : Z) : Z := let r := u64 x in if r <? 2^63 then r else r - 2^64.

(** [cc_ecb]: the request whose phase 1 the callback starts; [cc_scheduled]:
    the requests whose phase 1 has been put on the event loop. *)
Record Client2Client := mkC2C {
  cc_endorse : EndorsementClient;
  cc_client_seq_num : Z;
  cc_ecb : option Z;
  cc_scheduled : list Z
}.
Definition with_endorse (c : EndorsementClient) (s : Client2Client) : Client2Client :=
  mkC2C c (cc_client_seq_num s) (cc_ecb s) (cc_scheduled s).

Section client.
Context `{E : Env}.
(** Parameters of the client, and the encoding of [ValTxnMsg]. *)
Variables optimisticReceiveEndorsement useEndorsementCB liftingEnabled debugEndorseCheck : bool.
Variable ser_Val : ValTxnMsg → string.
Variable parse_Val : string → ValTxnMsg.
Implicit Types (s : Client2Client) (msg : FinishValidateTxnMessage) (q : Z).

(** [if (useEndorsementCB && ecb != nullptr && IsSatisfied(..)) { ecb(); ecb = nullptr; }] *)
Definition run_ecb s : outcome Client2Client :=
  match cc_ecb s with
  | Some req =>
      if useEndorsementCB then
        '(c, ok) ← EC_IsSatisfied (int64 (cc_client_seq_num s)) (cc_endorse s);
        Done (if ok : bool then mkC2C c (cc_client_seq_num s) None (cc_scheduled s ++ [req]) else with_endorse c s)
      else Done s
  | None => Done s
  end.

(** The endorsement a message carries: [None] is an early [return]. *)
Definition signed_validation msg (signedMsg : option SignedMessage) : outcome (option (SignedMessage * ValTxnMsg)) :=
  if signFinishValidation then
    match signedMsg with
    | None => Done None
    | Some sm =>
        if verify_client (sm_process_id sm) (sm_data sm) (sm_signature sm)
        then Done (Some (sm, parse_Val (sm_data sm))) else Done None
    end
  else
    match signedMsg with
    | Some _ => Panic
    | None => Done (Some (mkSigned (fv_client_id msg) (ser_Val (fv_validation_txn_msg msg)) "", fv_validation_txn_msg msg))
    end.

Definition HandleFinishValidateTxnMessage msg (signedMsg : option SignedMessage) s : outcome Client2Client :=
  if negb (fv_validation_txn_seq_num msg =? cc_client_seq_num s) then Done s
  else
    r ← signed_validation msg signedMsg;
    match r with
    | None => Done s
    | Some (sm, val) =>
        _ ← uw_assert ((fv_client_id msg =? vt_client_id val) &&
                       (fv_validation_txn_seq_num msg =? vt_validation_txn_seq_num val));
        let s := if debugEndorseCheck then with_endorse (DebugCheck (fv_val_txn msg) (cc_endorse s)) s else s in
        if negb optimisticReceiveEndorsement then
          run_ecb (with_endorse (AddValidation (fv_client_id msg) (vt_validation_txn_digest val) sm
                                   (int64 (cc_client_seq_num s)) (cc_endorse s)) s)
        else Done (with_endorse (CheckValidation (fv_client_id msg) (fv_validation_txn_seq_num msg)
                                   (vt_validation_txn_digest val) (cc_endorse s)) s)
    end.

Definition HandleFinishValidateTxnMessageOptimistic msg (signedMsg : option SignedMessage) s : outcome Client2Client :=
  if negb (fv_validation_txn_seq_num msg =? cc_client_seq_num s) then Done s
  else
    sm ← match signFinishValidation, signedMsg with
         | true, Some sm => Done sm
         | false, None => Done (mkSigned (fv_client_id msg) (ser_Val (fv_validation_txn_msg msg)) "")
         | _, _ => Panic
         end;
    run_ecb (with_endorse (AddValidationOptimistic (fv_client_id msg) sm (int64 (cc_client_seq_num s)) (cc_endorse s)) s).

(** On the main thread the message is handled at once; else its check is a
    job for later, [HandleFinishValidateTxnMessage]. *)
Definition ManageDispatchFinishValidateTxnMessage (inline : bool) msg (signedMsg : option SignedMessage) s :
    outcome Client2Client :=
  s ← (if optimisticReceiveEndorsement then HandleFinishValidateTxnMessageOptimistic msg signedMsg s else Done s);
  if inline then HandleFinishValidateTxnMessage msg signedMsg s else Done s.

Definition setEndorsementCB (req : Z) s : outcome Client2Client :=
  '(c, ok) ← EC_IsSatisfied (int64 (cc_client_seq_num s)) (cc_endorse s);
  Done (if ok : bool then mkC2C c (cc_client_seq_num s) (cc_ecb s) (cc_scheduled s ++ [req])
        else mkC2C c (cc_client_seq_num s) (Some req) (cc_scheduled s)).

(** [Client::Phase1] up to the messages to the groups: the phase 1 waits, the
    transaction is aborted, or it is sent with its endorsements. *)
Inductive P1Result := P1Waits | P1Aborts | P1Sends (txn : Transaction).
Definition add_sig_msgs (l : list SignedMessage) (t : Transaction) : Transaction :=
  mkTxn (client_id t) (client_seq_num t) (read_set t) (write_set t) (deps t) (t_timestamp t)
    (query_set t) (table_writes t) (read_predicates t) (txndigest t) (merged_read_set t) (policy_type t)
    (implicit_policy_reads t) (endorsements t ++ l) (hashed_timestamp t) (lift_keys t) (policy_versions t)
    (involved_groups t).
Definition Phase1 q (txn : Transaction) s : outcome (Client2Client * P1Result) :=
  '(s, ok) ← (if useEndorsementCB then Done (s, true)
              else '(c, ok) ← EC_IsSatisfied (int64 q) (cc_endorse s); Done (with_endorse c s, ok));
  if negb ok then Done (s, P1Waits)
  else
    mismatch ← (if liftingEnabled then GetPolicyMismatch q (cc_endorse s) else Done false);
    if mismatch : bool then Done (s, P1Aborts)
    else
      l ← GetEndorsements (cc_endorse s) (int64 q);
      c ← SetEndorsementsUsed (int64 q) (cc_endorse s);
      Done (with_endorse c s, P1Sends (add_sig_msgs l txn)).

(** ** Runs of a client *)

(** A transaction begins at the [EndorsementClient] and, perhaps later and on
    another thread, at the [Client2Client]; requirements are added while it
    executes; it is committed, with its digest [d]; its phase 1 is tried. *)
Inductive Event :=
| Begin (q : Z)
| BeginC2C (q : Z)
| Require (policy : Policy)
| Expect (q : Z) (d policy_digest : string)
| SetCB (req : Z)
| Received (inline : bool) (msg : FinishValidateTxnMessage) (signedMsg : option SignedMessage)
| CheckLater (msg : FinishValidateTxnMessage) (signedMsg : option SignedMessage)
| TryPhase1 (q : Z) (txn : Transaction).

Definition client_exec (ev : Event) s : outcome (Client2Client * option P1Result) :=
  match ev with
  | Begin q => c ← SetClientSeqNum q (cc_endorse s); Done (with_endorse c s, None)
  | BeginC2C q => Done (mkC2C (cc_endorse s) q (cc_ecb s) (cc_scheduled s), None)
  | Require policy => c ← UpdateRequirement policy (-1) (cc_endorse s); Done (with_endorse c s, None)
  | Expect q d pd => c ← SetExpectedTxnDigest d (int64 q) pd (cc_endorse s); Done (with_endorse c s, None)
  | SetCB req => s ← setEndorsementCB req s; Done (s, None)
  | Received inline msg sm => s ← ManageDispatchFinishValidateTxnMessage inline msg sm s; Done (s, None)
  | CheckLater msg sm => s ← HandleFinishValidateTxnMessage msg sm s; Done (s, None)
  | TryPhase1 q txn => '(s, r) ← Phase1 q txn s; Done (s, Some r)
  end.
End client.

(** ** What the invariant says of an entry *)

Lemma satisfied_mono p es es' :
  policy_wf p → ssorted id es → ssorted id es' → (∀ c, c ∈ es → c ∈ es') →
  IsSatisfied p es = true → IsSatisfied p es' = true.
Proof.
  intros Hp Hs Hs' Hsub. destruct p as [w|s|s]; cbn in Hp.
  - rewrite !weight_sat. assert (length es ≤ length es')%nat; [|lia].
    apply NoDup_incl_length; [apply NoDup_ListNoDup; by apply ssorted_NoDup|].
    intros c. rewrite <- !list_elem_of_In. apply Hsub.
  - destruct Hp as [Hss _]. rewrite !and_sat by done. naive_solver.
  - rewrite !or_sat by done. naive_solver.
Qed.

Lemma seq_of_int64 c q : 0 ≤ q < 2^63 → seq_of c (int64 q) = q.
Proof.
  intros Hq. unfold seq_of, int64. rewrite u64_small by lia. destruct (Z.ltb_spec q (2^63)); [|lia].
  destruct (Z.eqb_spec q (-1)); [lia|]. apply u64_small. lia.
Qed.

Section invariant.
Context `{E : Env} (cid : Z).
Implicit Types (e : EndorsementCheckState) (c : EndorsementClient) (R : list Policy) (n : Z).

(** An entry after [n] events: [R] are the requirements added, everything in
    [endorsements] is accepted by a replica for the expected digest and
    accounts for everybody in [client_ids_received]. *)
Record entry_ok n R e : Prop := {
  eo_policy : Forall policy_ok R ∧ foldO PolicyClient.AddPolicy PolicyClient.init R = Done (ec_policyClient e);
  eo_sorted : ssorted id (ec_client_ids_received e) ∧ ssorted fst (ec_pendingEndorsements e);
  eo_received x : x ∈ ec_client_ids_received e → x = cid ∨ ∃ sm, sm ∈ ec_endorsements e ∧ sm_process_id sm = x;
  eo_valid sm : sm ∈ ec_endorsements e → ValidateEndorsementHelper sm (ec_expectedTxnDigest e) = true;
  eo_open : if bool_decide (ec_expectedTxnDigest e = "") then ec_endorsements e = [] ∧ ec_client_ids_received e = []
            else cid ∈ ec_client_ids_received e;
  eo_pending x d sm : (x, (d, sm)) ∈ ec_pendingEndorsements e →
    sm_process_id sm = x ∧ ValidateEndorsementHelper sm d = true;
  eo_digests : ec_pendingDigests e = [];
  eo_checked : Z.of_nat (length (ec_client_ids_received e)) ≤ 1 + ec_numCheckValidations e ∧
    Z.of_nat (length (ec_endorsements e)) ≤ ec_numCheckValidations e;
  eo_count : 0 ≤ ec_numCheckValidations e ∧
    ec_numCheckValidations e + Z.of_nat (length (ec_pendingEndorsements e)) ≤ n;
  eo_versions : ec_policyVersions e = [] ∧ ec_policyMismatch e = false
}.

Lemma entry_new n : 0 ≤ n → entry_ok n [] EndorsementCheckState_new.
Proof.
  intros Hn. split; cbn; try done; try lia; try set_solver.
  split; [apply (ssorted_nil id)|apply (ssorted_nil fst)].
Qed.

Lemma entry_later n n' R e : n ≤ n' → entry_ok n R e → entry_ok n' R e.
Proof. intros Hn [? ? ? ? ? ? ? ? [? ?] ?]. split; try done. lia. Qed.

(** Fields the invariant does not look at. *)
Lemma entry_quiet n R e e' :
  ec_policyClient e' = ec_policyClient e → ec_client_ids_received e' = ec_client_ids_received e →
  ec_endorsements e' = ec_endorsements e → ec_expectedTxnDigest e' = ec_expectedTxnDigest e →
  ec_pendingEndorsements e' = ec_pendingEndorsements e → ec_pendingDigests e' = ec_pendingDigests e →
  ec_numCheckValidations e' = ec_numCheckValidations e → ec_policyVersions e' = ec_policyVersions e →
  ec_policyMismatch e' = ec_policyMismatch e → entry_ok n R e → entry_ok n R e'.
Proof.
  intros H1 H2 H3 H4 H5 H6 H7 H8 H9 [? ? ? ? ? ? ? ? ? ?].
  split; rewrite ?H1, ?H2, ?H3, ?H4, ?H5, ?H6, ?H7, ?H8, ?H9; done.
Qed.

Lemma entry_require n R e p pc :
  policy_ok p → PolicyClient.AddPolicy (ec_policyClient e) p = Done pc →
  entry_ok n R e → entry_ok n (R ++ [p]) (ec_set_policyClient pc e).
Proof.
  intros Hp Ha [[HR Hf] ? ? ? ? ? ? ? ? ?]. split; try done. cbn. split; [by apply Forall_app_2; [|constructor]|].
  rewrite foldO_app, Hf. cbn. by rewrite Ha.
Qed.

Lemma seq_put_length (l : list (Z * (string * SignedMessage))) x : (length (seq_put fst x l) ≤ S (length l))%nat.
Proof. induction l as [|y l IH]; cbn; [lia|]. repeat case_match; cbn; lia. Qed.

(** A validation that arrives, accepted or not. *)
Lemma entry_accept n R e x sm :
  entry_ok n R e → ec_expectedTxnDigest e ≠ "" → n < 2^31 → Z.of_nat (length (ec_pendingEndorsements e)) + ec_numCheckValidations e < n →
  sm_process_id sm = x → ValidateEndorsementHelper sm (ec_expectedTxnDigest e) = true →
  entry_ok n R (check_one (accept_endorsement x sm e)).
Proof.
  intros [HP [Hs Hsp] Hr Hv Ho Hpe Hd Hc [Hn0 Hn] Hve] Hne Hn31 Hlt Hsm Hval.
  rewrite bool_decide_eq_false_2 in Ho by done.
  split; cbn; try done.
  - split; [by apply (seq_insert_sorted id)|done].
  - intros y. rewrite elem_of_set_insert by done. intros [->|Hy]; [right; exists sm; set_solver|].
    destruct (Hr y Hy) as [->|(sm' & Hin & <-)]; [by left|right; exists sm'; set_solver].
  - intros sm'. rewrite elem_of_app, list_elem_of_singleton. intros [Hin| ->]; [by apply Hv|done].
  - rewrite bool_decide_eq_false_2 by done. rewrite elem_of_set_insert by done. by right.
  - pose proof (seq_insert_length id (ec_client_ids_received e) x). rewrite length_app, int32_id by lia. cbn. lia.
  - rewrite int32_id by lia. lia.
Qed.
Lemma entry_reject n R e :
  entry_ok n R e → n < 2^31 → Z.of_nat (length (ec_pendingEndorsements e)) + ec_numCheckValidations e < n →
  entry_ok n R (check_one e).
Proof.
  intros [HP [Hs Hsp] Hr Hv Ho Hpe Hd Hc [Hn0 Hn] Hve] Hn31 Hlt.
  split; cbn; try done; rewrite int32_id by lia; lia.
Qed.
Lemma entry_defer n R e x d sm :
  entry_ok n R e → sm_process_id sm = x → ValidateEndorsementHelper sm d = true →
  entry_ok (n + 1) R (ec_set_pendingEndorsements (seq_put fst (x, (d, sm)) (ec_pendingEndorsements e)) e).
Proof.
  intros [HP [Hs Hsp] Hr Hv Ho Hpe Hd Hc [Hn0 Hn] Hve] Hx Hval.
  split; cbn; try done.
  - split; [done|by apply (seq_put_sorted fst)].
  - intros y d' sm'. rewrite (elem_of_seq_put fst) by done. intros [[= -> -> ->]|[Hin _]]; [done|by apply Hpe].
  - pose proof (seq_put_length (ec_pendingEndorsements e) (x, (d, sm))). lia.
Qed.

(** The client, apart from its entries. *)
Definition same_client c c' : Prop :=
  ecl_states c' = ecl_states c ∧ ecl_client_id c' = ecl_client_id c ∧ ecl_client_seq_num c' = ecl_client_seq_num c.

Lemma settle_fold n R d l e c e' c' :
  foldl (settle_endorsement d) (e, c) l = (e', c') → d ≠ "" → ec_expectedTxnDigest e = d → n < 2^31 →
  entry_ok n R (ec_set_pendingEndorsements [] e) → ec_numCheckValidations e + Z.of_nat (length l) ≤ n →
  (∀ x d' sm, (x, (d', sm)) ∈ l → sm_process_id sm = x ∧ ValidateEndorsementHelper sm d' = true) →
  entry_ok n R (ec_set_pendingEndorsements [] e') ∧ ec_expectedTxnDigest e' = d ∧ same_client c c' ∧
  ec_pendingDigests e' = ec_pendingDigests e.
Proof.
  revert e c. induction l as [|[x [d' sm]] l IH]; intros e c Hf Hd He Hn Ho Hc Hl; cbn [foldl] in Hf.
  { injection Hf as <- <-. done. }
  assert (Z.of_nat (length (ec_pendingEndorsements (ec_set_pendingEndorsements [] e))) +
    ec_numCheckValidations (ec_set_pendingEndorsements [] e) < n) as Hlt by (cbn in *; lia).
  destruct (Hl x d' sm) as [Hx Hv]; [by left|]. unfold settle_endorsement at 2 in Hf.
  pose proof (eo_count _ _ _ Ho) as [Hc0 _]. cbn [ec_numCheckValidations ec_set_pendingEndorsements] in Hc0.
  assert (int32 (ec_numCheckValidations e + 1) = ec_numCheckValidations e + 1) as Hi by (cbn [length] in Hc; apply int32_id; lia).
  destruct (bool_decide_reflect (d = d')) as [<-|Hne].
  - destruct (IH _ _ Hf) as (H1 & H2 & H3 & H4); try done.
    + by apply (entry_accept n R (ec_set_pendingEndorsements [] e) x sm); cbn; subst d.
    + cbn [check_one ec_numCheckValidations ec_set_numCheckValidations accept_endorsement ec_set_endorsements ec_set_client_ids_received].
      cbn [length] in Hc. rewrite Hi. lia.
    + intros y d'' sm' Hin. apply Hl. by right.
  - destruct (IH _ _ Hf) as (H1 & H2 & H3 & H4); try done.
    + by apply (entry_reject n R (ec_set_pendingEndorsements [] e)).
    + cbn [check_one ec_numCheckValidations ec_set_numCheckValidations]. cbn [length] in Hc. rewrite Hi. lia.
    + intros y d'' sm' Hin. apply Hl. by right.
Qed.
End invariant.

Section runs.
Context `{E : Env} (cid : Z).
Variables liftingEnabled debugEndorseCheck : bool.
Variable ser_Val : ValTxnMsg → string.
Variable parse_Val : string → ValTxnMsg.
(** Both ends read the same message; required fields are never omitted. *)
Hypothesis parse_ser : ∀ v, parse_Val (ser_Val v) = v.
Hypothesis ser_nonempty : ∀ v, ser_Val v ≠ "".
Hypothesis same_message : ∀ data, parse_ValTxnMsg data = vt_validation_txn_digest (parse_Val data).
Implicit Types (s : Client2Client) (q n : Z) (R : Z → list Policy) (c : EndorsementClient).

(** Endorsements are checked before they are added, and [Phase1] polls. *)
Notation exec := (client_exec false false liftingEnabled debugEndorseCheck ser_Val parse_Val).

(** What the client and its peers do: sequence numbers start at 1 and fit 63
    bits, a transaction's digest is set once, and a peer signs a message under
    the id it names. *)
Definition names_itself (msg : FinishValidateTxnMessage) (sm : option SignedMessage) : Prop :=
  ∀ x, sm = Some x → sm_process_id x = fv_client_id msg ∧ sm_data x ≠ "".
Definition allowed (ev : Event) s : Prop :=
  match ev with
  | Begin q | BeginC2C q | TryPhase1 q _ => 0 ≤ q < 2^63
  | Require p => policy_ok p
  | Expect q d _ => 0 ≤ q < 2^63 ∧ d ≠ "" ∧
      ∀ e, ecl_states (cc_endorse s) !! q = Some e → ec_expectedTxnDigest e = ""
  | SetCB _ => True
  | Received _ msg sm | CheckLater msg sm => names_itself msg sm
  end.
Definition requirements (ev : Event) s R : Z → list Policy :=
  match ev with
  | Begin q => λ q', if decide (q' = q) then [] else R q'
  | Require p => λ q', if decide (q' = ecl_client_seq_num (cc_endorse s)) then R q' ++ [p] else R q'
  | _ => R
  end.
Inductive run : Z → Client2Client → (Z → list Policy) → Prop :=
| run_start : run 0 (mkC2C (EndorsementClient_new cid) 0 None []) (λ _, [])
| run_event n s R ev s' r :
    run n s R → allowed ev s → exec ev s = Done (s', r) → run (n + 1) s' (requirements ev s R).

Definition states_ok n R c : Prop :=
  ecl_client_id c = cid ∧ map_Forall (λ q e, entry_ok cid n (R q) e) (ecl_states c).
Definition client_inv n s R : Prop := 0 ≤ n ∧ 0 ≤ cc_client_seq_num s < 2^63 ∧ states_ok n R (cc_endorse s).

Lemma states_later n n' R c : n ≤ n' → states_ok n R c → states_ok n' R c.
Proof.
  intros Hn [Hc Hs]. split; [done|]. intros q e He. by eapply entry_later, Hs.
Qed.
Lemma states_insert n R c q e :
  states_ok n R c → entry_ok cid n (R q) e → states_ok n R (upd_states (<[q := e]>) c).
Proof.
  intros [Hc Hs] He. split; [done|]. cbn. by apply map_Forall_insert_2.
Qed.
Lemma states_store n R c q e : states_ok n R c → entry_ok cid n (R q) e → states_ok n R (store_or_erase q e c).
Proof.
  intros Hc He. unfold store_or_erase. destruct (ecs_Done e); [|by apply states_insert].
  destruct Hc as [Hc Hs]. split; [done|]. cbn. by apply map_Forall_delete.
Qed.
Lemma states_same n R c c' : same_client c c' → states_ok n R c → states_ok n R c'.
Proof. intros (Hm & Hc & _) [H1 H2]. split; [by rewrite Hc|by rewrite Hm]. Qed.
Lemma find_state_Done c q e : find_state c q = Done e → ecl_states c !! q = Some e.
Proof. unfold find_state. case_match; [|done]. congruence. Qed.
Lemma states_find n R c q e : states_ok n R c → find_state c q = Done e → entry_ok cid n (R q) e.
Proof. intros [_ Hs] He%find_state_Done. by apply Hs. Qed.

Lemma EC_IsSatisfied_ok n R c sq c' b : states_ok n R c → EC_IsSatisfied sq c = Done (c', b) → states_ok n R c'.
Proof.
  intros Hc Hs. unfold EC_IsSatisfied in Hs. inv_outcome. destruct (PolicyClient.IsSatisfied _ _); inv_outcome; [|done].
  match goal with H : find_state _ _ = _ |- _ => pose proof (states_find _ _ _ _ _ Hc H) as He end.
  apply states_insert; [done|]. by apply (entry_quiet cid n (R (seq_of c sq)) x).
Qed.

Lemma SetExpected_ok n R c q d pd c' :
  states_ok n R c → 0 ≤ q < 2^63 → d ≠ "" → n < 2^31 →
  (∀ e, ecl_states c !! q = Some e → ec_expectedTxnDigest e = "") →
  SetExpectedTxnDigest d (int64 q) pd c = Done c' → states_ok n R c'.
Proof.
  intros Hc Hq Hd Hn Hnew Hs. unfold SetExpectedTxnDigest in Hs. rewrite seq_of_int64 in Hs by done.
  apply bind_Done in Hs as (x & Hfind & Hs). pose proof (states_find _ _ _ _ _ Hc Hfind) as He.
  apply find_state_Done in Hfind as Hx.
  specialize (Hnew _ Hx). destruct Hc as [Hcid Hmap]. rewrite Hcid in *.
  pose proof He as [HP [Hss Hsp] Hr Hv Ho Hpe Hdg Hck [Hn0 Hnn] [Hve Hmm]]. rewrite bool_decide_eq_true_2 in Ho by done. destruct Ho as [Hend Hrec].
  match goal with H : (let '(_, _) := ?t in _) = _ |- _ => assert (∃ pdg, t = (ec_set_expectedPolicyDigest pdg
    (ec_set_client_ids_received (seq_insert id cid (ec_client_ids_received x)) (ec_set_expectedTxnDigest d x)), c)) as [pdg Hpd] end.
  { destruct (bool_decide (pd = "")); [exists (ec_expectedPolicyDigest x); by destruct x|exists pd].
    cbn [ec_policyVersions ec_set_client_ids_received ec_set_expectedTxnDigest]. by rewrite Hve. }
  rewrite Hpd in Hs. clear Hpd.
  destruct (foldl (settle_endorsement d) _ _) as [e1 c1] eqn:Hf.
  apply (settle_fold cid n (R q)) in Hf as (Ho1 & Hd1 & Hsame & Hdg1); [|done|done|done| |cbn; lia|exact Hpe].
  - cbn [ec_pendingDigests ec_set_client_ids_received ec_set_expectedTxnDigest ec_set_expectedPolicyDigest] in Hdg1.
    rewrite Hdg1, Hdg in Hs. cbn [foldl] in Hs. injection Hs as <-.
    apply states_store; [by eapply states_same|]. apply (entry_quiet cid n (R q) (ec_set_pendingEndorsements [] e1)); try done.
    cbn. by rewrite Hdg1, Hdg.
  - rewrite Hrec. split; cbn; try done; rewrite ?Hrec, ?Hend.
    + split; [apply (ssorted_singleton id)|apply (ssorted_nil fst)].
    + set_solver.
    + set_solver.
    + rewrite bool_decide_eq_false_2 by done. set_solver.
    + set_solver.
    + cbn. lia.
    + lia.
Qed.

(** What [signed_validation] returns is an endorsement by the peer. *)
Lemma signed_validation_ok msg sm sm' v :
  signed_validation ser_Val parse_Val msg sm = Done (Some (sm', v)) → names_itself msg sm →
  sm_data sm' ≠ "" → sm_process_id sm' = fv_client_id msg ∧ ValidateEndorsementHelper sm' (vt_validation_txn_digest v) = true.
Proof.
  intros Hs Hn Hne. unfold signed_validation in Hs. unfold ValidateEndorsementHelper.
  rewrite bool_decide_eq_false_2 by done. destruct signFinishValidation.
  - destruct sm as [sm|]; [|done]. destruct (verify_client _ _ _) eqn:Hv; [|done]. injection Hs as <- <-.
    split; [by apply (Hn sm)|]. rewrite same_message, bool_decide_eq_true_2 by done. by rewrite Hv.
  - destruct sm as [sm|]; [done|]. injection Hs as <- <-. split; [done|]. cbn.
    rewrite same_message, parse_ser, bool_decide_eq_true_2 by done. done.
Qed.

Lemma AddValidation_ok n R c q x d sm :
  states_ok n R c → 0 ≤ q < 2^63 → n + 1 < 2^31 → sm_process_id sm = x → ValidateEndorsementHelper sm d = true →
  states_ok (n + 1) R (AddValidation x d sm (int64 q) c).
Proof.
  intros Hc Hq Hn Hx Hv. unfold AddValidation. rewrite seq_of_int64 by done.
  pose proof (states_later n (n + 1) R c ltac:(lia) Hc) as Hc'.
  destruct (ecl_states c !! q) as [e|] eqn:He; [|done].
  assert (entry_ok cid n (R q) e) as Hok by (by apply Hc). pose proof (entry_later cid n (n + 1) (R q) e ltac:(lia) Hok) as Hok'.
  destruct (seq_mem id x (ec_client_ids_received e)); [by apply states_store|].
  pose proof (eo_count _ _ _ _ Hok).
  destruct (Nat.ltb_spec 0 (String.length (ec_expectedTxnDigest e))) as [Hl|Hl].
  - assert (ec_expectedTxnDigest e ≠ "") by (intros Heq; rewrite Heq in Hl; cbn in Hl; lia).
    destruct (bool_decide_reflect (d = ec_expectedTxnDigest e)) as [->|Hne].
    + apply states_store; [done|]. apply entry_accept; try done; lia.
    + apply states_store; [by apply (states_same _ _ c)|]. apply entry_reject; try done; lia.
  - apply states_store; [done|]. by apply entry_defer.
Qed.

Lemma DebugCheck_ok n R c t : states_ok n R c → states_ok n R (DebugCheck t c).
Proof.
  intros Hc. unfold DebugCheck. destruct (ecl_states c !! _) as [e|] eqn:He; [|done].
  destruct (ec_expectedTxn e); [done|]. apply states_insert; [done|].
  assert (entry_ok cid n (R (ecl_client_seq_num c)) e) by (by apply Hc). by apply (entry_quiet cid n _ e).
Qed.

Lemma finish_ok n R s msg sm s' :
  client_inv n s R → n + 1 < 2^31 → names_itself msg sm →
  HandleFinishValidateTxnMessage false false debugEndorseCheck ser_Val parse_Val msg sm s = Done s' → client_inv (n + 1) s' R.
Proof.
  intros (Hn0 & Hq & Hc) Hn Hname Hh. unfold HandleFinishValidateTxnMessage in Hh.
  destruct (fv_validation_txn_seq_num msg =? cc_client_seq_num s); cbn [negb] in Hh.
  2:{ injection Hh as <-. split_and!; [lia|lia|lia|]. eapply states_later; [|done]. lia. }
  apply bind_Done in Hh as (r & Hr & Hh). destruct r as [[sm' v]|].
  2:{ injection Hh as <-. split_and!; [lia|lia|lia|]. eapply states_later; [|done]. lia. }
  destruct (signed_validation_ok _ _ _ _ Hr Hname) as [Hp Hv].
  { unfold signed_validation in Hr. destruct signFinishValidation.
    - destruct sm; [|done]. destruct (verify_client _ _ _); [|done]. injection Hr as <- _. by apply Hname.
    - destruct sm; [done|]. injection Hr as <- _. apply ser_nonempty. }
  apply bind_Done in Hh as ([] & _ & Hh). unfold run_ecb in Hh. cbn [negb] in Hh.
  match type of Hh with match cc_ecb (with_endorse ?c1 ?s1) with _ => _ end = _ =>
    assert (s' = with_endorse c1 s1) as -> by (cbn in Hh; destruct (cc_ecb _); by inv Hh) end.
  split; [lia|]. destruct debugEndorseCheck; (split; [done|]); cbn [with_endorse cc_endorse cc_client_seq_num].
  - apply AddValidation_ok; try done. by apply DebugCheck_ok.
  - by apply AddValidation_ok.
Qed.

Lemma inv_later n s R : client_inv n s R → client_inv (n + 1) s R.
Proof. intros (H0 & Hq & Hc). split_and!; [lia|lia|lia|]. eapply states_later; [|done]. lia. Qed.

Lemma SetEndorsementsUsed_ok n R c sq c' : states_ok n R c → SetEndorsementsUsed sq c = Done c' → states_ok n R c'.
Proof.
  intros Hc Hs. unfold SetEndorsementsUsed in Hs. apply bind_Done in Hs as (e & He & Hs). injection Hs as <-.
  apply states_store; [done|]. apply (states_find _ _ _ _ _ Hc) in He. by apply (entry_quiet cid n _ e).
Qed.

Lemma Phase1_ok n R s q txn s' r :
  client_inv n s R → Phase1 false liftingEnabled q txn s = Done (s', r) → client_inv n s' R.
Proof.
  intros (Hn & Hq & Hc) Hp. unfold Phase1 in Hp. apply bind_Done in Hp as ([s1 ok] & H1 & Hp).
  apply bind_Done in H1 as ([c1 b] & H1 & H2). injection H2 as <- <-.
  pose proof (EC_IsSatisfied_ok _ _ _ _ _ _ Hc H1) as Hc1. destruct b; cbn [negb] in Hp; [|by injection Hp as <- _].
  apply bind_Done in Hp as (mm & _ & Hp). destruct mm; [by injection Hp as <- _|].
  apply bind_Done in Hp as (l & _ & Hp). apply bind_Done in Hp as (c2 & H2 & Hp). injection Hp as <- _.
  split_and!; [done|apply Hq|apply Hq|]. by eapply SetEndorsementsUsed_ok.
Qed.

Lemma event_ok n R s ev s' r :
  client_inv n s R → n + 1 < 2^31 → allowed ev s → exec ev s = Done (s', r) →
  client_inv (n + 1) s' (requirements ev s R).
Proof.
  intros Hi Hn Ha He. pose proof (inv_later _ _ _ Hi) as (Hn1 & Hq & Hc).
  destruct ev as [q|q|p|q d pd|req|inl msg sm|msg sm|q txn]; cbn [client_exec allowed requirements] in *.
  - apply bind_Done in He as (c & Hs & He). injection He as <- _. unfold SetClientSeqNum in Hs. destruct Hc as [Hcid Hmap].
    destruct (ecl_states (cc_endorse s) !! q) eqn:Hnone; [done|]. injection Hs as <-. split_and!; [done|apply Hq|apply Hq|]. split; [done|].
    cbn. apply map_Forall_insert_2; [rewrite decide_True by done; by apply entry_new|].
    intros q' e He. rewrite decide_False; [by apply Hmap|congruence].
  - injection He as <- _. split_and!; [done|cbn; lia|cbn; lia|done].
  - apply bind_Done in He as (c & Hs & He). injection He as <- _. unfold UpdateRequirement in Hs.
    apply bind_Done in Hs as (e & Hf & Hs). apply bind_Done in Hs as (pc & Hp & Hs). injection Hs as <-.
    pose proof (states_find _ _ _ _ _ Hc Hf) as He. change (seq_of (cc_endorse s) (-1)) with (ecl_client_seq_num (cc_endorse s)) in *.
    destruct Hc as [Hcid Hmap]. split_and!; [done|apply Hq|apply Hq|]. split; [done|]. cbn.
    intros q' e'. rewrite lookup_insert_Some. intros [[<- <-]|[Hne He']].
    + rewrite decide_True by done. by apply entry_require.
    + rewrite decide_False by done. by apply Hmap.
  - apply bind_Done in He as (c & Hs & He). injection He as <- _. destruct Ha as (Hqr & Hd & Hnew).
    split_and!; [done|apply Hq|apply Hq|]. apply (SetExpected_ok (n + 1) R (cc_endorse s) q d pd c); done.
  - apply bind_Done in He as (s1 & Hs & He). injection He as <- _. unfold setEndorsementCB in Hs.
    apply bind_Done in Hs as ([c b] & Hs & He). injection He as <-.
    pose proof (EC_IsSatisfied_ok _ _ _ _ _ _ Hc Hs). by destruct b.
  - apply bind_Done in He as (s1 & Hs & He). injection He as <- _. unfold ManageDispatchFinishValidateTxnMessage in Hs.
    cbn [mbind outcome_bind] in Hs. destruct inl; [|by injection Hs as <-]. by eapply finish_ok.
  - apply bind_Done in He as (s1 & Hs & He). injection He as <- _. by eapply finish_ok.
  - apply bind_Done in He as ([s1 r1] & Hs & He). injection He as <- _. by eapply Phase1_ok.
Qed.

Lemma endorse_run_inv n s R : run n s R → n < 2^31 → client_inv n s R.
Proof.
  induction 1 as [|n s R ev s' r Hr IH Ha He]; intros Hn.
  - split_and!; [lia|cbn; lia|cbn; lia|]. split; [done|]. apply map_Forall_empty.
  - eapply event_ok; [apply IH; lia|done..].
Qed.

(** The entry of a transaction when its phase 1 is sent. *)
Lemma Phase1_sends s q txn s' txn' :
  0 ≤ q < 2^63 → Phase1 false liftingEnabled q txn s = Done (s', P1Sends txn') →
  ∃ e, ecl_states (cc_endorse s) !! q = Some e ∧ txn' = add_sig_msgs (ec_endorsements e) txn ∧
    PolicyClient.IsSatisfied (ec_policyClient e) (ec_client_ids_received e) = true ∧
    cc_endorse s' = store_or_erase q (ec_set_endorsementsUsed true (ec_set_numChecksBeforeDestruct
      (int32 (u64 (Z.of_nat (length (ec_client_ids_received e)) - 1))) e))
      (upd_states (<[q := ec_set_numChecksBeforeDestruct
        (int32 (u64 (Z.of_nat (length (ec_client_ids_received e)) - 1))) e]>) (cc_endorse s)).
Proof.
  intros Hq Hp. unfold Phase1 in Hp. apply bind_Done in Hp as ([s1 ok] & H1 & Hp).
  apply bind_Done in H1 as ([c1 b] & H1 & H2). injection H2 as <- <-. destruct b; cbn [negb] in Hp; [|done].
  unfold EC_IsSatisfied in H1. rewrite seq_of_int64 in H1 by done. apply bind_Done in H1 as (e & He & H1).
  apply find_state_Done in He. exists e. split; [done|].
  destruct (PolicyClient.IsSatisfied _ _) eqn:Hsat; [|done]. injection H1 as <-.
  apply bind_Done in Hp as (mm & _ & Hp). destruct mm; [done|].
  unfold GetEndorsements, SetEndorsementsUsed in Hp. rewrite seq_of_int64 in Hp by done.
  unfold find_state in Hp. cbn [cc_endorse with_endorse ecl_states upd_states] in Hp. rewrite lookup_insert_eq in Hp.
  cbn [mbind outcome_bind] in Hp. injection Hp as <- <-. done.
Qed.

(** Nothing fills [policyVersions], so no policy mismatch is ever found. *)
Lemma no_policy_mismatch n s R q e :
  run n s R → n < 2^31 → ecl_states (cc_endorse s) !! q = Some e → ec_policyMismatch e = false.
Proof. intros Hr Hn He. destruct (endorse_run_inv _ _ _ Hr Hn) as (_ & _ & _ & Hm). by destruct (eo_versions _ _ _ _ (Hm q e He)). Qed.

End runs.

(** ** Concrete runs *)

Module EndorseClientExample.

(** Messages as strings of bits. *)
Definition bit (b : bool) : Ascii.ascii := Ascii.Ascii b false false false true true false false.
Fixpoint pos_str (p : positive) : string :=
  match p with xO p => String (bit false) (pos_str p) | xI p => String (bit true) (pos_str p) | xH => "." end.
Fixpoint str_pos (s : string) : positive :=
  match s with
  | String (Ascii.Ascii b false _ _ _ _ _ _) s => if b then xI (str_pos s) else xO (str_pos s)
  | _ => xH
  end.
Lemma str_pos_pos_str p : str_pos (pos_str p) = p.
Proof. induction p as [p IH|p IH|]; cbn; [by rewrite IH..|done]. Qed.
Definition ser (v : ValTxnMsg) : string :=
  pos_str (encode (vt_client_id v, vt_validation_txn_seq_num v, vt_validation_txn_digest v)).
Definition parse (s : string) : ValTxnMsg :=
  match decode (str_pos s) with Some (a, b, d) => mkVal a b d | None => mkVal 0 0 "" end.
Lemma parse_ser v : parse (ser v) = v.
Proof. unfold parse, ser. rewrite str_pos_pos_str, decode_encode. by destruct v. Qed.
Lemma ser_nonempty v : ser v ≠ "".
Proof. unfold ser. by destruct (encode _). Qed.

#[local] Instance env : Env := demo_env_sign false false false true (λ data, vt_validation_txn_digest (parse data)).

(** Client 1 writes ["k"], which takes two endorsers; client 5 endorses, before
    the digest is known. *)
Definition txn : Transaction :=
  mkTxn 1 1 [] [mkWrite "k" (Some "x") false] [] (mkTs 20000 1) [] [] [] None None NONE [] [] "" [] [] [0].
Definition val5 : ValTxnMsg := mkVal 5 1 "dg".
Definition msg5 : FinishValidateTxnMessage := mkFinish 5 1 val5 txn.
Definition ev5 : Event := Received true msg5 (Some (mkSigned 5 (ser val5) "sig")).
Definition start : Client2Client := mkC2C (EndorsementClient_new 1) 0 None [].
Definition step (ev : Event) (s : Client2Client) : Client2Client :=
  match client_exec false false false false ser parse ev s with Done (s, _) => s | Panic => s end.
Definition s1 : Client2Client := step (Begin 1) start.
Definition s2 : Client2Client := step (BeginC2C 1) s1.
Definition s3 : Client2Client := step (Require (WeightPolicy 2)) s2.
Definition s4 : Client2Client := step ev5 s3.
Definition ready : Client2Client := step (Expect 1 "dg" "") s4.
Definition sent : Transaction := add_sig_msgs [mkSigned 5 (ser val5) "sig"] txn.
Definition replica : server := upd_policyStore (λ st, put st "p#0" EndorseExample.pol2 (mkTs 1 1)) (server_init (E := env) tt).

Lemma replica_versions i :
  versions_of (policyStore replica) i = if decide ("p#0" = i) then [(mkTs 1 1, EndorseExample.pol2)] else [].
Proof. unfold replica. cbn [policyStore upd_policyStore]. by rewrite versions_of_put. Qed.
Lemma replica_policies pid ts v : get (policyStore replica) pid ts = Some v → v.2 = EndorseExample.pol2.
Proof. rewrite get_versions, replica_versions. case_decide; [|done]. cbn. case_match; intros; by simplify_eq/=. Qed.

Lemma ready_run : ∃ n R, n = 5 ∧ run 1 false false ser parse n ready R ∧ R 1 = [WeightPolicy 2].
Proof.
  pose proof (run_event 1 false false ser parse 0 start _ (Begin 1) s1 None (run_start 1 false false ser parse)
    ltac:(cbn; lia) ltac:(vm_compute; reflexivity)) as H1.
  pose proof (run_event 1 false false ser parse _ s1 _ (BeginC2C 1) s2 None H1
    ltac:(cbn; lia) ltac:(vm_compute; reflexivity)) as H2.
  pose proof (run_event 1 false false ser parse _ s2 _ (Require (WeightPolicy 2)) s3 None H2
    ltac:(split; [cbn; lia|done]) ltac:(vm_compute; reflexivity)) as H3.
  assert (allowed ev5 s3) as A4 by (intros x [= <-]; split; [done|apply ser_nonempty]).
  pose proof (run_event 1 false false ser parse _ s3 _ ev5 s4 None H3 A4 ltac:(vm_compute; reflexivity)) as H4.
  assert (allowed (Expect 1 "dg" "") s4) as A5.
  { split; [lia|]. split; [done|]. intros e He. vm_compute in He. by injection He as <-. }
  pose proof (run_event 1 false false ser parse _ s4 _ (Expect 1 "dg" "") ready None H4 A5 ltac:(vm_compute; reflexivity)) as H5.
  do 2 eexists. split; [|split; [exact H5|vm_compute; reflexivity]]. reflexivity.
Qed.


(** The client does not compare the id a peer names with the id it signs
    under: client 7 endorses as client 5, [Phase1] sends the transaction, and
    the endorsements it carries do not satisfy the policy. *)
Lemma impostor_is_counted :
  let s := step (Received true msg5 (Some (mkSigned 7 (ser val5) "sig")))
             (step (Require (ANDPolicy [1; 5])) s2) in
  match client_exec false false false false ser parse (TryPhase1 1 txn) (step (Expect 1 "dg" "") s) with
  | Done (_, Some (P1Sends t)) => IsSatisfied (ANDPolicy [1; 5]) (endorser_set (endorsements t) 1 "dg") = false
  | _ => False
  end.
Proof. vm_compute. reflexivity. Qed.
End EndorseClientExample.
