(* ===== verification/ContactClients.v ===== *)
(** * Choosing the clients that endorse a transaction

    src/src/store/sintrstore/client2client.cc: which clients a client asks to
    validate its transaction, when the transaction begins
    ([SendBeginValidateTxnMessageHelper]) and when its policy grows
    ([HandlePolicyUpdate]).  The forwarded reads are not modelled.

    [beginValSent] is the set of clients asked so far, the client itself
    included. *)
From S2P Require Import Prelude OrderedSeq CppString Timestamp VersionStore Policy PolicyParse ServerState DemoEnv ServerTxn MVTSO Endorse EndorseClient.

Section contact.
(** The client, the number of clients, the clients known to be faulty, and the
    order of a [valClientSelector], if there is one. *)
Variables (cid n : Z) (byz : cids) (selector : option (list Z)).
Implicit Types (blk sent clients : cids) (offset : Z).

Definition has (c : Z) (s : cids) : bool := seq_mem id c s.

(** ** One more client *)

(** What the loop looks at: offsets with their targets. *)
Definition candidates offset : list (Z * Z) :=
  match selector with
  | Some order => zip (seqZ offset (Z.of_nat (length order) - offset)) (drop (Z.to_nat offset) order)
  | None =>
      let o := if offset =? 0 then 1 else offset in
      (λ k, (k, u64 (cid + k) `mod` n)) <$> seqZ o (n - o)
  end.
Definition available blk sent clients (target : Z) : bool :=
  negb (has target blk) && negb (has target sent) && negb (has target clients).
Fixpoint first_available blk sent clients (l : list (Z * Z)) : outcome (Z * Z) :=
  match l with
  | [] => Panic
  | (k, target) :: l =>
      if available blk sent clients target then Done (k + 1, target) else first_available blk sent clients l
  end.
(** The new [offset] and the client. *)
Definition GetNextClientToContact offset blk sent clients : outcome (Z * Z) :=
  first_available blk sent clients (candidates offset).

(** ** The clients a policy needs *)

(** [while (next is faulty) next = GetNextClientToContact(..)]; [None]: out of
    fuel. *)
Fixpoint next_correct (fuel : nat) offset blk sent clients : option (outcome (Z * Z)) :=
  match fuel with
  | O => None
  | S fuel =>
      match GetNextClientToContact offset blk sent clients with
      | Panic => Some Panic
      | Done (offset, target) =>
          if has target byz then next_correct fuel offset blk sent clients else Some (Done (offset, target))
      end
  end.
Definition limit : Z := match selector with Some order => Z.of_nat (length order) | None => n end.
Definition replacement offset blk sent clients : outcome (Z * Z) :=
  default Panic (next_correct (S (Z.to_nat limit)) offset blk sent clients).

(** One element of the vector: [order_index] and the clients so far. *)
Definition contact_one blk sent (acc : Z * cids) (i : Z) : outcome (Z * cids) :=
  let '(offset, clients) := acc in
  if u64 i =? cid then Done acc
  else
    '(offset, clients, client_inserted) ←
      (if i <? 0 then
         '(offset, target) ← GetNextClientToContact offset blk sent clients;
         Done (offset, seq_insert id target clients, target)
       else if has i blk then Panic
       else if has i sent then Panic
       else Done (offset, seq_insert id i clients, i));
    if has client_inserted byz then
      '(offset, target) ← replacement offset blk sent clients;
      Done (offset, seq_insert id target clients)
    else Done (offset, clients).
Definition ExtractFromPolicyClientsToContact blk sent (policySatSet : list Z) clients : outcome cids :=
  '(_, clients) ← foldO (contact_one blk sent) (0, clients) policySatSet; Done clients.

(** ** Beginning a transaction *)

(** Messages go to all of [clients] but this client. *)
Definition send_to sent clients : cids :=
  foldl (λ sent i, if i =? cid then sent else seq_insert id i sent) sent clients.

Fixpoint add_extra (k : nat) offset blk sent clients : outcome cids :=
  match k with
  | O => Done clients
  | S k =>
      '(offset, target) ← GetNextClientToContact offset blk sent clients;
      add_extra k offset blk sent (seq_insert id target clients)
  end.

(** The configuration: [clientValidationHeuristic], [contactAllByzClients], the
    failure that asks everybody, and whether the injected failure is
    [IGNORE_VALIDATION_REQUEST]. *)
Variables (heuristic : Z) (contactAllByzClients byzRequestExtraValidation ignoreFailure : bool).

Definition choose_clients (rand : Z) blk (policyClient : PolicyClient.t) : outcome cids :=
  let sent := [cid] in
  '(sent, clients) ←
    (if contactAllByzClients && negb (includes sent byz) then
       _ ← uw_assert ignoreFailure; Done (set_union sent byz, set_union [] byz)
     else Done (sent, []));
  clients ← ExtractFromPolicyClientsToContact blk sent
              (PolicyClient.DifferenceToSatisfied rand policyClient sent) clients;
  clients ← add_extra (Z.to_nat heuristic) 0 blk sent clients;
  Done (send_to sent clients).

(** [beginValSent] when the messages are sent; the last assertion is the
    code's sanity check. *)
Definition SendBeginValidateTxnMessageHelper (rand : Z) blk (policyClient : PolicyClient.t) : outcome cids :=
  if byzRequestExtraValidation then
    Done (foldl (λ sent i, if (i =? cid) || has i byz then sent else seq_insert id i sent) [cid] (seqZ 0 n))
  else if heuristic <? 0 then Done (send_to [cid] (seqZ 0 n))
  else
    sent ← choose_clients rand blk policyClient;
    _ ← uw_assert (PolicyClient.IsSatisfied policyClient sent);
    Done sent.

(** ** When the policy grows *)

(** Each insertion has to be new. *)
Fixpoint send_new sent clients : outcome cids :=
  match clients with
  | [] => Done sent
  | i :: clients =>
      if i =? cid then send_new sent clients
      else _ ← uw_assert (negb (has i sent)); send_new (seq_insert id i sent) clients
  end.
Definition HandlePolicyUpdateHelper (rand q : Z) (c : EndorsementClient) sent : outcome cids :=
  let diff := DifferenceToSatisfied rand sent (int64 q) c in
  if bool_decide (diff = []) then Done sent
  else
    clients ← ExtractFromPolicyClientsToContact (GetBlacklistedClients c) sent diff [];
    send_new sent clients.
Definition HandlePolicyUpdate (rand q : Z) (policy : Policy) (c : EndorsementClient) sent : outcome (EndorsementClient * cids) :=
  c ← UpdateRequirement policy (-1) c;
  sent ← HandlePolicyUpdateHelper rand q c sent;
  Done (c, sent).
End contact.

Section proofs.
Variables (cid n : Z) (byz : cids) (selector : option (list Z)).
Hypothesis cid_range : 0 ≤ cid < 2^31.
Implicit Types (blk sent clients : cids) (offset : Z).
Notation limit := (limit n selector).
Notation GetNext := (GetNextClientToContact cid n selector).

Lemma has_spec c s : ssorted id s → has c s = true ↔ c ∈ s.
Proof. apply seq_mem_id. Qed.
Lemma has_false c s : ssorted id s → has c s = false ↔ c ∉ s.
Proof. intros Hs. rewrite <- has_spec by done. by destruct (has c s). Qed.

Lemma candidates_range offset k t : 0 ≤ offset → (k, t) ∈ candidates cid n selector offset → offset ≤ k < limit.
Proof.
  unfold candidates, ContactClients.limit. intros Ho. destruct selector as [order|].
  - intros Hk%elem_of_zip_l%elem_of_seqZ. lia.
  - intros (k' & [= -> _] & Hk%elem_of_seqZ)%list_elem_of_fmap. destruct (Z.eqb_spec offset 0); lia.
Qed.

Lemma GetNext_spec offset blk sent clients o' t :
  0 ≤ offset → GetNext offset blk sent clients = Done (o', t) →
  offset < o' ≤ limit ∧ available blk sent clients t = true.
Proof.
  intros Ho. unfold GetNextClientToContact. pose proof (λ k t, candidates_range offset k t Ho) as Hr.
  induction (candidates _ _ _ _) as [|[k t'] l IH]; [done|]. cbn.
  destruct (available _ _ _ t') eqn:Ha.
  - intros [= <- <-]. split; [|done]. specialize (Hr k t' ltac:(by left)). lia.
  - apply IH. intros k'' t'' Hin. apply (Hr k'' t''). by right.
Qed.

Lemma available_spec blk sent clients t :
  ssorted id sent → ssorted id clients → available blk sent clients t = true → t ∉ sent ∧ t ∉ clients.
Proof.
  intros Hs Hc. unfold available. rewrite !andb_true_iff, !negb_true_iff. intros [[_ H1] H2].
  by rewrite <- !has_false.
Qed.

Lemma search_ends blk sent clients k offset :
  0 ≤ offset → (Z.to_nat (limit - offset) ≤ k)%nat →
  ∃ r, (∀ fuel, (k < fuel)%nat → next_correct cid n byz selector fuel offset blk sent clients = Some r) ∧
    ∀ o' t, r = Done (o', t) → offset < o' ≤ limit ∧ has t byz = false ∧ available blk sent clients t = true.
Proof.
  revert offset. induction k as [|k IH]; intros offset Ho Hk;
    (destruct (GetNext offset blk sent clients) as [[o1 t1]|] eqn:Hg;
      [destruct (GetNext_spec _ _ _ _ _ _ Ho Hg) as [Ho1 Ha]|
       exists Panic; split; [|done]; intros [|fuel] Hf; [lia|]; cbn; by rewrite Hg]).
  - lia.
  - destruct (has t1 byz) eqn:Hb.
    + destruct (IH o1) as (r & Hr & Hok); [lia|lia|]. exists r. split.
      * intros [|fuel] Hf; [lia|]. cbn. rewrite Hg, Hb. apply Hr. lia.
      * intros o' t Hrt. destruct (Hok o' t Hrt). split; [lia|done].
    + exists (Done (o1, t1)). split; [|by intros o' t [= <- <-]].
      intros [|fuel] Hf; [lia|]. cbn. by rewrite Hg, Hb.
Qed.

(** The search for a replacement of a faulty client ends: it takes at most
    as many rounds as there are candidates, whatever the sets are, and
    then returns a client that is not known to be faulty and was neither
    asked nor chosen before, or reports that there is none. *)
Theorem replacement_search_terminates offset blk sent clients :
  0 ≤ offset →
  ∃ r, (∀ fuel, (Z.to_nat limit < fuel)%nat → next_correct cid n byz selector fuel offset blk sent clients = Some r) ∧
    ∀ o' t, r = Done (o', t) → offset < o' ≤ limit ∧ has t byz = false ∧ available blk sent clients t = true.
Proof. intros Ho. apply search_ends; [done|lia]. Qed.

Lemma replacement_spec offset blk sent clients o' t :
  0 ≤ offset → replacement cid n byz selector offset blk sent clients = Done (o', t) →
  offset < o' ∧ available blk sent clients t = true.
Proof.
  intros Ho Hr. destruct (search_ends blk sent clients (Z.to_nat limit) offset Ho) as (r & Hf & Hok); [lia|].
  unfold replacement in Hr. rewrite Hf in Hr by lia. cbn in Hr. destruct (Hok o' t Hr). split; [lia|tauto].
Qed.

(** ** The clients asked cover what the policy needs *)

Definition total sent clients : nat := size (list_to_set sent ∪ list_to_set clients : gset Z).

Lemma total_insert sent clients t :
  ssorted id clients →
  (total sent clients + (if bool_decide (t ∈ sent ∨ t ∈ clients) then 0 else 1) ≤ total sent (seq_insert id t clients))%nat.
Proof.
  intros Hc. unfold total. assert (list_to_set (seq_insert id t clients) = ({[t]} ∪ list_to_set clients : gset Z)) as ->.
  { apply set_eq. intros x. rewrite elem_of_list_to_set, elem_of_set_insert by done. set_solver. }
  case_bool_decide as Hin.
  - rewrite Nat.add_0_r. apply subseteq_size. set_solver.
  - replace (list_to_set sent ∪ ({[t]} ∪ list_to_set clients) : gset Z)
      with ({[t]} ∪ (list_to_set sent ∪ list_to_set clients) : gset Z) by set_solver.
    rewrite (size_union {[t]}) by (apply disjoint_singleton_l; by rewrite elem_of_union, !elem_of_list_to_set).
    rewrite size_singleton. lia.
Qed.

(** One element of the vector is served. *)
Definition served sent (i : Z) clients clients' : Prop :=
  ssorted id clients' ∧ (∀ c, c ∈ clients → c ∈ clients') ∧ (∀ c, c ∈ clients' → c ∈ clients ∨ c ∉ sent) ∧
  (0 ≤ i < 2^31 → i ∈ sent ∨ i ∈ clients') ∧
  (total sent clients + (if decide (i = (-1)%Z) then 1 else 0) ≤ total sent clients')%nat.

Lemma served_more sent i clients clients' t :
  ssorted id sent → served sent i clients clients' → t ∉ sent → served sent i clients (seq_insert id t clients').
Proof.
  intros Hs (H1 & H2 & H3 & H4 & H5) Ht. unfold served. setoid_rewrite elem_of_set_insert; [|done..].
  split_and!; [by apply (seq_insert_sorted id)|naive_solver|naive_solver|naive_solver|].
  pose proof (total_insert sent clients' t H1). case_bool_decide; lia.
Qed.

Lemma contact_one_spec blk sent offset clients i o' clients' :
  ssorted id sent → ssorted id clients → 0 ≤ offset → cid ∈ sent → -1 ≤ i < 2^31 →
  contact_one cid n byz selector blk sent (offset, clients) i = Done (o', clients') →
  0 ≤ o' ∧ served sent i clients clients'.
Proof.
  intros Hs Hc Ho Hcid Hi Hone. unfold contact_one in Hone.
  destruct (Z.eqb_spec (u64 i) cid) as [Heq|Hne].
  { injection Hone as <- <-. split; [done|].
    assert (i = cid) as -> by (destruct (decide (i = -1)) as [->|]; [vm_compute in Heq; lia|rewrite u64_small in Heq by lia; done]).
    unfold served. rewrite decide_False by lia. split_and!; [done|done|naive_solver|by left|lia]. }
  apply bind_Done in Hone as ([[o1 cl1] ins] & H1 & Hone).
  assert (0 ≤ o1 ∧ served sent i clients cl1) as [Ho1 Hsv].
  { destruct (Z.ltb_spec i 0) as [Hneg|Hpos].
    - apply bind_Done in H1 as ([o2 t] & Hg & H1). injection H1 as <- <- <-.
      apply GetNext_spec in Hg as [Hoo Ha]; [|done]. apply available_spec in Ha as [Ht1 Ht2]; [|done..]. split; [lia|].
      unfold served. setoid_rewrite elem_of_set_insert; [|done..]. rewrite decide_True by lia.
      split_and!; [by apply (seq_insert_sorted id)|naive_solver|naive_solver|lia|].
      pose proof (total_insert sent clients t Hc). rewrite bool_decide_eq_false_2 in * by naive_solver. lia.
    - destruct (has i blk); [done|]. destruct (has i sent) eqn:Hh; [done|]. injection H1 as <- <- <-. split; [done|].
      apply has_false in Hh; [|done]. unfold served. setoid_rewrite elem_of_set_insert; [|done..]. rewrite decide_False by lia.
      split_and!; [by apply (seq_insert_sorted id)|naive_solver|naive_solver|naive_solver|].
      pose proof (total_insert sent clients i Hc). lia. }
  destruct (has ins byz); [|by injection Hone as <- <-].
  apply bind_Done in Hone as ([o2 t] & Hr & Hone). injection Hone as <- <-.
  apply replacement_spec in Hr as [Hoo Ha]; [|done]. destruct Hsv as (Hsc & Hsv).
  apply available_spec in Ha as [Ht _]; [|done..]. split; [lia|]. by apply served_more.
Qed.

Lemma contact_fold blk sent d offset clients o' clients' :
  ssorted id sent → cid ∈ sent → ssorted id clients → 0 ≤ offset → Forall (λ i, -1 ≤ i < 2^31) d →
  foldO (contact_one cid n byz selector blk sent) (offset, clients) d = Done (o', clients') →
  ssorted id clients' ∧ (∀ c, c ∈ clients → c ∈ clients') ∧ (∀ c, c ∈ clients' → c ∈ clients ∨ c ∉ sent) ∧
  (∀ i, i ∈ d → 0 ≤ i → i ∈ sent ∨ i ∈ clients') ∧
  (total sent clients + length (filter (λ c, c = (-1)%Z) d) ≤ total sent clients')%nat.
Proof.
  intros Hs Hcid Hc Ho Hd. revert offset clients Hc Ho. induction Hd as [|i d Hi Hd IH]; intros offset clients Hc Ho Hf; cbn in Hf.
  { injection Hf as <- <-. split_and!; [done|done|naive_solver|set_solver|cbn; lia]. }
  apply bind_Done in Hf as ([o1 cl1] & H1 & Hf). apply contact_one_spec in H1 as (Ho1 & Hc1 & Hsub & Hnew & Hnamed & Htot); [|done..].
  destruct (IH _ _ Hc1 Ho1 Hf) as (IH1 & IH2 & IH3 & IH4 & IH5). split_and!; [done|naive_solver| | |].
  - intros c Hin. destruct (IH3 c Hin); naive_solver.
  - intros j [->|Hj]%elem_of_cons Hj0; [|by apply IH4]. destruct Hnamed; [lia|by left|right; by apply IH2].
  - rewrite filter_cons. case_decide; cbn; lia.
Qed.

Lemma send_to_spec sent clients :
  ssorted id sent → cid ∈ sent →
  ssorted id (send_to cid sent clients) ∧ ∀ x, x ∈ send_to cid sent clients ↔ x ∈ sent ∨ x ∈ clients.
Proof.
  unfold send_to. revert sent. induction clients as [|c clients IH]; intros sent Hs Hcid; cbn [foldl]; [set_solver|].
  destruct (Z.eqb_spec c cid) as [->|Hne].
  - destruct (IH sent) as [H1 H2]; [done..|]. split; [done|]. intros x. rewrite H2. set_solver.
  - destruct (IH (seq_insert id c sent)) as [H1 H2]; [by apply (seq_insert_sorted id)|apply elem_of_set_insert; [done|by right]|].
    split; [done|]. intros x. rewrite H2, elem_of_set_insert by done. set_solver.
Qed.

Lemma send_new_spec sent clients :
  ssorted id sent → ssorted id clients → (∀ c, c ∈ clients → c ∉ sent) →
  send_new cid sent clients = Done (send_to cid sent clients).
Proof.
  unfold send_to. revert sent. induction clients as [|c clients IH]; intros sent Hs Hc Hnew; cbn [foldl send_new]; [done|].
  apply (ssorted_cons id) in Hc as [Hc Hlt]. destruct (Z.eqb_spec c cid) as [->|Hne]; [apply IH; set_solver|].
  rewrite (proj2 (has_false c sent Hs)) by (apply Hnew; by left). cbn [negb uw_assert mbind outcome_bind].
  apply IH; [by apply (seq_insert_sorted id)|done|]. intros x Hx. rewrite elem_of_set_insert by done. intros [->|Hin].
  - specialize (Hlt c Hx). unfold ltb, Z_Ltb, id in Hlt. lia.
  - apply (Hnew x); [by right|done].
Qed.

Lemma set_union_length (s l : cids) : (length (set_union s l) ≤ length s + length l)%nat.
Proof.
  unfold set_union. revert s. induction l as [|a l IH]; intros s; cbn; [lia|]. pose proof (IH (seq_insert id a s)).
  pose proof (seq_insert_length id s a). lia.
Qed.

Lemma total_ge sent clients : ssorted id sent → (length sent ≤ total sent clients)%nat.
Proof.
  intros Hs. unfold total. rewrite <- (size_list_to_set (C := gset Z) sent) by (by apply ssorted_NoDup).
  apply subseteq_size. set_solver.
Qed.

(** A set that contains the clients found answers the request. *)
Lemma contact_answers blk sent d clients clients' es :
  ssorted id sent → cid ∈ sent → ssorted id clients → Forall (λ i, -1 ≤ i < 2^31) d →
  ExtractFromPolicyClientsToContact cid n byz selector blk sent d clients = Done clients' →
  ssorted id es → (∀ x, x ∈ sent ∨ x ∈ clients' → x ∈ es) → answers d sent es.
Proof.
  intros Hs Hcid Hc Hd He Hes Hin. apply bind_Done in He as ([o1 cl1] & Hf & He). injection He as <-.
  apply contact_fold in Hf as (H1 & H2 & H3 & H4 & H5); [|done..]. split_and!; [done|naive_solver|naive_solver|].
  pose proof (total_ge sent clients Hs). assert (total sent cl1 ≤ length es)%nat; [|lia].
  unfold total. rewrite <- (size_list_to_set (C := gset Z) es) by (by apply ssorted_NoDup).
  apply subseteq_size. intros x. rewrite elem_of_union, !elem_of_list_to_set. apply Hin.
Qed.

Lemma difference_range rand pc es :
  client_small pc → 0 ≤ rand → Forall (λ i, -1 ≤ i < 2^31) (PolicyClient.DifferenceToSatisfied rand pc es).
Proof.
  destruct pc as [[w|s|s]|]; cbn; [| | |constructor].
  - intros _ _. unfold Weight.DifferenceToSatisfied. case_match; [constructor|].
    apply Forall_forall. intros x ->%elem_of_replicate_inv. lia.
  - intros Hs _. unfold AND.DifferenceToSatisfied. rewrite and_difference by done. apply Forall_forall.
    intros x [_ Hx]%list_elem_of_filter. apply Hs in Hx. lia.
  - intros [Hl Hs] Hr. destruct (OR.IsSatisfied s es) eqn:Hf; [unfold OR.DifferenceToSatisfied; rewrite Hf; constructor|].
    destruct (or_difference rand s es Hs Hl Hr Hf) as (c & Hc & ->). constructor; [|constructor]. apply Hs in Hc. lia.
Qed.

Lemma client_answered rand pc es es' :
  client_ok pc → client_small pc → ssorted id es → Z.of_nat (length es) < 2^31 → 0 ≤ rand →
  answers (PolicyClient.DifferenceToSatisfied rand pc es) es es' → PolicyClient.IsSatisfied pc es' = true.
Proof. destruct pc as [p|]; [|done]. intros [Hw _] Hs ? ? ? Ha. by apply (difference_answered rand p es). Qed.

Lemma add_extra_spec k offset blk sent clients clients' :
  ssorted id clients → add_extra cid n selector k offset blk sent clients = Done clients' →
  ∀ c, c ∈ clients → c ∈ clients'.
Proof.
  revert offset clients. induction k as [|k IH]; intros offset clients Hc Ha; cbn in Ha; [by injection Ha as <-|].
  apply bind_Done in Ha as ([o t] & _ & Ha). intros c Hin. apply (IH o (seq_insert id t clients)); [by apply (seq_insert_sorted id)|done|].
  apply elem_of_set_insert; [done|by right].
Qed.

Lemma extract_sorted blk sent d clients clients' :
  ssorted id sent → cid ∈ sent → ssorted id clients → Forall (λ i, -1 ≤ i < 2^31) d →
  ExtractFromPolicyClientsToContact cid n byz selector blk sent d clients = Done clients' →
  ssorted id clients' ∧ ∀ c, c ∈ clients' → c ∈ clients ∨ c ∉ sent.
Proof.
  intros Hs Hcid Hc Hd He. apply bind_Done in He as ([o1 cl1] & Hf & He). injection He as <-.
  by apply contact_fold in Hf as (H1 & H2 & H3 & H4 & H5).
Qed.

(** C20: the clients asked when a transaction begins are enough.  Let the
    heuristic be not negative, [byzRequestExtraValidation] off, the estimated policy one
    the code can build with numbers that fit an [int], the client id a non-negative
    [int], and the Byzantine clients fewer than [2^31 - 1].  Whenever the selection
    returns a set (it stops with a panic when it runs out of clients), the set
    satisfies the policy and contains the client itself; so the sanity check of
    [SendBeginValidateTxnMessageHelper] after it holds, and the messages are sent to
    exactly this set. *)
Theorem contacted_clients_satisfy_policy heuristic allByz ignoreFailure rand blk pc sent :
  client_ok pc → client_small pc → 0 ≤ rand → 0 ≤ heuristic → Z.of_nat (length byz) < 2^31 - 1 →
  choose_clients cid n byz selector heuristic allByz ignoreFailure rand blk pc = Done sent →
  PolicyClient.IsSatisfied pc sent = true ∧ cid ∈ sent ∧
  SendBeginValidateTxnMessageHelper cid n byz selector heuristic allByz false ignoreFailure rand blk pc = Done sent.
Proof.
  intros Hok Hsm Hr Hh Hb Hch. assert (PolicyClient.IsSatisfied pc sent = true ∧ cid ∈ sent) as [Hsat Hin].
  2:{ split; [done|]. split; [done|]. unfold SendBeginValidateTxnMessageHelper. destruct (Z.ltb_spec heuristic 0); [lia|].
      rewrite Hch. cbn [mbind outcome_bind]. by rewrite Hsat. }
  unfold choose_clients in Hch. apply bind_Done in Hch as ([sent0 clients0] & H0 & Hch).
  assert (ssorted id sent0 ∧ cid ∈ sent0 ∧ ssorted id clients0 ∧ Z.of_nat (length sent0) < 2^31) as (Hs & Hc & Hcl & Hlen).
  { destruct (allByz && negb (includes [cid] byz)).
    - apply bind_Done in H0 as ([] & _ & H0). injection H0 as <- <-.
      destruct (set_union_spec byz [cid]) as [H1 H2]; [apply (ssorted_singleton id)|].
      destruct (set_union_spec byz []) as [H3 _]; [apply (ssorted_nil id)|].
      split_and!; [done|apply H2; by left; left|done|]. pose proof (set_union_length [cid] byz). cbn in *. lia.
    - injection H0 as <- <-. split_and!; [apply (ssorted_singleton id)|by left|apply (ssorted_nil id)|cbn; lia]. }
  clear H0. apply bind_Done in Hch as (cl1 & Hx & Hch). apply bind_Done in Hch as (cl2 & Ha & Hch). injection Hch as <-.
  pose proof (difference_range rand pc sent0 Hsm Hr) as Hd. destruct (extract_sorted _ _ _ _ _ Hs Hc Hcl Hd Hx) as [Hcl1 _].
  destruct (send_to_spec sent0 cl2 Hs Hc) as [Hss Hse]. split; [|apply Hse; by left].
  apply (client_answered rand pc sent0); [done..|]. apply (contact_answers blk sent0 _ clients0 cl1); [done..|].
  intros x Hx'. apply Hse. destruct Hx' as [?|Hx']; [by left|right]. by apply (add_extra_spec _ _ _ _ _ _ Hcl1 Ha).
Qed.

(** When the policy of a transaction grows, the clients asked in addition
    are enough: unless the selection fails, nobody is asked twice (the
    assertion holds) and those asked altogether satisfy the policy the
    transaction now has. *)
Theorem policy_update_contacts_enough rand q c sent e :
  client_ok (ec_policyClient e) → client_small (ec_policyClient e) → 0 ≤ rand → 0 ≤ q < 2^63 →
  ssorted id sent → cid ∈ sent → Z.of_nat (length sent) < 2^31 → ecl_states c !! q = Some e →
  match ExtractFromPolicyClientsToContact cid n byz selector (GetBlacklistedClients c) sent
          (DifferenceToSatisfied rand sent (int64 q) c) [] with
  | Done _ => ∃ sent', HandlePolicyUpdateHelper cid n byz selector rand q c sent = Done sent' ∧
      PolicyClient.IsSatisfied (ec_policyClient e) sent' = true ∧ ∀ x, x ∈ sent → x ∈ sent'
  | Panic => HandlePolicyUpdateHelper cid n byz selector rand q c sent = Panic
  end.
Proof.
  intros Hok Hsm Hr Hq Hs Hc Hlen He. unfold HandlePolicyUpdateHelper.
  assert (DifferenceToSatisfied rand sent (int64 q) c = PolicyClient.DifferenceToSatisfied rand (ec_policyClient e) sent) as Hdiff.
  { unfold DifferenceToSatisfied. rewrite seq_of_int64 by done. by rewrite He. }
  rewrite Hdiff. pose proof (difference_range rand (ec_policyClient e) sent Hsm Hr) as Hd.
  destruct (ExtractFromPolicyClientsToContact _ _ _ _ _ _ _ _) as [clients|] eqn:Hx.
  - destruct (extract_sorted _ _ _ _ _ Hs Hc (ssorted_nil id) Hd Hx) as [Hcl Hnew].
    assert (∀ es, ssorted id es → (∀ x, x ∈ sent ∨ x ∈ clients → x ∈ es) →
      PolicyClient.IsSatisfied (ec_policyClient e) es = true) as Hsat.
    { intros es Hes Hin. apply (client_answered rand (ec_policyClient e) sent); [done..|].
      by apply (contact_answers (GetBlacklistedClients c) sent _ [] clients); [done|done|apply (ssorted_nil id)|..]. }
    case_bool_decide as Hnil.
    + exists sent. split; [done|]. split; [|done]. rewrite Hnil in Hx. injection Hx as <-. apply Hsat; [done|set_solver].
    + cbn [mbind outcome_bind]. rewrite send_new_spec by (try done; set_solver). destruct (send_to_spec sent clients Hs Hc) as [H1 H2].
      eexists. split; [done|]. split; [apply Hsat; [done|]|]; naive_solver.
  - rewrite bool_decide_eq_false_2; [done|]. intros Hnil. rewrite Hnil in Hx. done.
Qed.
End proofs.

(** ** Concrete instances: client 4 of six, client 5 faulty *)

Module ContactExample.

Lemma replacement_search_terminates_witness :
  next_correct 4 6 [5] None 7 1 [] [4] [] = Some (Done (3, 0)) ∧
  ∃ r, (∀ fuel, (6 < fuel)%nat → next_correct 4 6 [5] None fuel 1 [] [4] [] = Some r) ∧
    ∀ o' t, r = Done (o', t) → 1 < o' ≤ 6 ∧ has t [5] = false ∧ available [] [4] [] t = true.
Proof. split; [vm_compute; reflexivity|]. apply (replacement_search_terminates 4 6 [5] None 1 [] [4] []). lia. Defined.

(** Three endorsers: clients 5 and 1, and 0 in place of 5. *)
Lemma contacted_clients_satisfy_policy_witness :
  PolicyClient.IsSatisfied (Some (WeightPolicy 3)) [0; 1; 4; 5] = true ∧ 4 ∈ [0; 1; 4; 5] ∧
  SendBeginValidateTxnMessageHelper 4 6 [5] None 0 false false false 0 [] (Some (WeightPolicy 3)) = Done [0; 1; 4; 5].
Proof.
  apply (contacted_clients_satisfy_policy 4 6 [5] None ltac:(lia) 0 false false 0 [] (Some (WeightPolicy 3)));
    [split; [cbn; lia|done]|cbn; lia|lia|lia|cbn; lia|vm_compute; reflexivity].
Defined.

Definition growing : EndorsementClient :=
  mkEC 4 1 {[1 := ec_set_policyClient (Some (ANDPolicy [1; 2])) EndorsementCheckState_new]} [] ∅.
Lemma policy_update_contacts_enough_witness :
  ∃ sent', HandlePolicyUpdateHelper 4 6 [5] None 0 1 growing [1; 4] = Done sent' ∧
    PolicyClient.IsSatisfied (Some (ANDPolicy [1; 2])) sent' = true ∧ ∀ x, x ∈ [1; 4] → x ∈ sent'.
Proof.
  apply (policy_update_contacts_enough 4 6 [5] None ltac:(lia) 0 1 growing [1; 4]
    (ec_set_policyClient (Some (ANDPolicy [1; 2])) EndorsementCheckState_new));
    [split; [split; [sorted_ids|set_solver by lia]|done]|cbn; set_solver by lia|lia|lia|sorted_ids|right; left|cbn; lia|reflexivity].
Defined.
End ContactExample.
