(* ===== verification/ShardClient.v ===== *)
(** * Votes and certificates at a client

    One [ShardClient] per group (src/src/store/sintrstore/shardclient.cc)
    collects the replies of the group's replicas: the votes of phase 1, which
    a [Phase1Validator] (phase1validator.cc) counts, and the logged decisions
    of phase 2.  The path of the client's own transactions is here, that of
    transactions it finishes for others in ClientFallback.v; injected failures
    are not modelled. *)
From S2P Require Import Prelude OrderedSeq CppString Timestamp VersionStore Policy PolicyParse ServerState Quorum.

#[export] Instance Result_countable : Countable Result.
Proof.
  refine (inj_countable' (λ r, match r with COMMIT => 0 | ABORT => 1 | ABSTAIN => 2 | WAIT => 3 | RETRY => 4 | IGNORE => 5 end%nat)
    (λ n, match n with 0 => COMMIT | 1 => ABORT | 2 => ABSTAIN | 3 => WAIT | 4 => RETRY | _ => IGNORE end%nat) _).
  by intros [].
Defined.

(** ** Messages *)

(** [ConcurrencyControl] with its conflict. *)
Record ConcurrencyControl := mkCC { cc_vote : CCMsg; cc_committed_conflict : CommittedProof }.
Inductive P1Vote := NoVote | PlainVote (cc : ConcurrencyControl) | SignedVote (sm : SignedMessage).
Record Phase1Reply := mkP1R {
  p1r_req_id : Z;
  p1r_vote : P1Vote;
  p1r_abstain_conflict : option Transaction;
  p1r_insufficient_endorsements : option bool;
  p1r_too_many_endorsements : option bool
}.
Inductive P2Vote := NoDecision | PlainDecision (p2 : P2Msg) | SignedDecision (sm : SignedMessage).
Record Phase2Reply := mkP2R { p2r_req_id : Z; p2r_vote : P2Vote }.

(** ** Counting votes *)

Inductive Phase1ValidationState :=
| FAST_COMMIT | SLOW_COMMIT_TENTATIVE | SLOW_COMMIT_FINAL | FAST_ABORT | FAST_ABSTAIN
| SLOW_ABORT_TENTATIVE | SLOW_ABORT_TENTATIVE2 | SLOW_ABORT_FINAL | EQUIVOCATE | NOT_ENOUGH.
#[export] Instance Phase1ValidationState_eq_dec : EqDecision Phase1ValidationState.
Proof. solve_decision. Defined.
Record Phase1Validator := mkP1V { v1_state : Phase1ValidationState; v1_commits : Z; v1_abstains : Z }.
Definition Phase1Validator_new : Phase1Validator := mkP1V NOT_ENOUGH 0 0.

Section shard.
Variable config : Configuration.
Variable ser_cc : CCMsg → string.
Variable ser_p2 : P2Msg → string.
Variable Verify : Z → string → string → bool.
Variable policyFn : string → string → string.
Variable TransactionDigest : Transaction → digest.
(** [ParseFromString] may fail; a decision without a view is dropped like one
    that does not parse. *)
Variable parse_cc : string → option ConcurrencyControl.
Variable parse_p2 : string → option P2Msg.
Variables validateProofs signedMessages : bool.

(** A COMMIT and an ABSTAIN; counters are [uint32_t], [config->n] an [int]. *)
Definition count_commit (v : Phase1Validator) : Phase1Validator :=
  let commits := u32 (v1_commits v + 1) in
  let abstains := v1_abstains v in
  mkP1V (if commits =? u32 (cf_n config) then FAST_COMMIT
         else if (commits >=? SlowCommitQuorumSize config) && (abstains =? 0) then SLOW_COMMIT_TENTATIVE
         else if commits >=? SlowCommitQuorumSize config then SLOW_COMMIT_FINAL
         else v1_state v) commits abstains.
Definition count_abstain (v : Phase1Validator) : Phase1Validator :=
  let commits := v1_commits v in
  let abstains := u32 (v1_abstains v + 1) in
  mkP1V (if abstains >=? FastAbortQuorumSize config then FAST_ABSTAIN
         else if bool_decide (v1_state v = SLOW_COMMIT_TENTATIVE) then SLOW_COMMIT_FINAL
         else if (abstains >=? SlowAbortQuorumSize config) &&
                 (u32 (cf_n config - abstains) >=? SlowCommitQuorumSize config) then SLOW_ABORT_TENTATIVE
         else if abstains >=? SlowAbortQuorumSize config then SLOW_ABORT_TENTATIVE2
         else if (abstains >=? SlowAbortQuorumSize config) &&
                 (u32 (cf_n config - commits) <? FastAbortQuorumSize config) then SLOW_ABORT_FINAL
         else v1_state v) commits abstains.

(** [ProcessMessage]; [false]: the vote is not counted. *)
Definition ProcessMessage (txn : Transaction) (txnDigest : digest) (v : Phase1Validator) (cc : ConcurrencyControl) :
    outcome (Phase1Validator * bool) :=
  if validateProofs && negb (bool_decide (cc_txn_digest (cc_vote cc) = txnDigest)) then Panic
  else if bool_decide (v1_state v = FAST_COMMIT) || bool_decide (v1_state v = FAST_ABORT) then Done (v, false)
  else match cc_ccr (cc_vote cc) with
  | ABORT =>
      ok ← (if validateProofs
            then ValidateCommittedConflict config ser_cc ser_p2 Verify policyFn (cc_committed_conflict cc)
                   (TransactionDigest (cp_txn (cc_committed_conflict cc))) txn signedMessages
            else Done true);
      _ ← uw_assert ok;
      Done (mkP1V FAST_ABORT (v1_commits v) (v1_abstains v), true)
  | COMMIT => Done (count_commit v, true)
  | ABSTAIN => Done (count_abstain v, true)
  | _ => Done (v, false)
  end.

(** ** Pending requests *)

(** [p1_timer]: the decision of the timer that was started. *)
Record PendingPhase1 := mkPP1 {
  p1_txnId : Z;
  p1_txn : Transaction;
  p1_txnDigest : digest;
  p1_replicasVerified : list Z;
  p1_endorsementFailedReplicas : gset Z;
  p1_p1ReplySigs : gmap Result (list Signature);
  p1_validator : Phase1Validator;
  p1_decision : CommitDecision;
  p1_fast : bool;
  p1_conflict : option CommittedProof;
  p1_conflict_flag : bool;
  p1_first_decision : bool;
  p1_timer : option CommitDecision;
  p1_abstain_conflicts : list Transaction
}.
Definition PendingPhase1_new (txnId : Z) (txn : Transaction) (d : digest) : PendingPhase1 :=
  mkPP1 txnId txn d [] ∅ ∅ Phase1Validator_new DABORT false None false true None [].

Record view_p2ReplySigs := mkView2 { v2_replicasVerified : list Z; v2_decision_sigs : gmap CommitDecision (list Signature) }.
Record PendingPhase2 := mkPP2 {
  p2_txnId : Z;
  p2_own_decision : CommitDecision;
  p2_matchingReplies : Z;
  p2_manage : gmap Z view_p2ReplySigs
}.

(** [sh_finish]: the conflicting transactions handed to the fallback. *)
Record Shard := mkShard {
  sh_group : Z;
  sh_lastReqId : Z;
  sh_pendingPhase1s : gmap Z PendingPhase1;
  sh_pendingPhase2s : gmap Z PendingPhase2;
  sh_get_policy : bool;
  sh_consecutive_abstains : Z;
  sh_finish : list digest
}.
Definition Shard_new (group : Z) : Shard := mkShard group 0 ∅ ∅ false 0 [].
Definition upd_p1s (f : gmap Z PendingPhase1 → gmap Z PendingPhase1) (sh : Shard) : Shard :=
  mkShard (sh_group sh) (sh_lastReqId sh) (f (sh_pendingPhase1s sh)) (sh_pendingPhase2s sh) (sh_get_policy sh)
    (sh_consecutive_abstains sh) (sh_finish sh).
Definition upd_p2s (f : gmap Z PendingPhase2 → gmap Z PendingPhase2) (sh : Shard) : Shard :=
  mkShard (sh_group sh) (sh_lastReqId sh) (sh_pendingPhase1s sh) (f (sh_pendingPhase2s sh)) (sh_get_policy sh)
    (sh_consecutive_abstains sh) (sh_finish sh).
Definition next_req (sh : Shard) : Shard :=
  mkShard (sh_group sh) (u64 (sh_lastReqId sh + 1)) (sh_pendingPhase1s sh) (sh_pendingPhase2s sh) (sh_get_policy sh)
    (sh_consecutive_abstains sh) (sh_finish sh).

(** The arguments of the callbacks into the client. *)
Record P1Callback := mkCb1 {
  cb1_txnId : Z; cb1_decision : CommitDecision; cb1_fast : bool; cb1_conflict_flag : bool;
  cb1_conflict : option CommittedProof; cb1_sigs : gmap Result (list Signature)
}.
Record P2Callback := mkCb2 { cb2_txnId : Z; cb2_decision : CommitDecision; cb2_view : Z; cb2_sigs : list Signature }.

Definition ShardClient_Phase1 (txnId : Z) (txn : Transaction) (d : digest) (sh : Shard) : Shard :=
  upd_p1s (<[sh_lastReqId sh := PendingPhase1_new txnId txn d]>) (next_req sh).
Definition ShardClient_Phase2 (txnId : Z) (decision : CommitDecision) (sh : Shard) : Shard :=
  upd_p2s (<[sh_lastReqId sh := mkPP2 txnId decision 0 ∅]>) (next_req sh).

(** Configuration of the client. *)
Variables (minEnablePullPolicies consecutiveMax phase1DecisionTimeout : Z) (no_fallback : bool).

(** The conflicts a client that keeps being told to abstain finishes itself. *)
Fixpoint conflicts_to_finish (txn : Transaction) (l : list Transaction) : outcome (list digest) :=
  match l with
  | [] => Done ([] : list digest)
  | t :: l =>
      ok ← TransactionsConflict policyFn txn t;
      rest ← conflicts_to_finish txn l;
      Done (if ok : bool then TransactionDigest t :: rest else rest)
  end.

(** [Phase1Decision]: the callback, and the request is gone.  The code makes
    the callback before it counts abstentions, which the callback does not
    look at. *)
Definition Phase1Decision (reqId : Z) (p : PendingPhase1) (sh : Shard) : outcome (Shard * P1Callback) :=
  let get_policy := (Z.of_nat (size (p1_endorsementFailedReplicas p)) >=? minEnablePullPolicies) &&
                    negb (minEnablePullPolicies =? 0) in
  let cb := mkCb1 (p1_txnId p) (p1_decision p) (p1_fast p) (p1_conflict_flag p) (p1_conflict p) (p1_p1ReplySigs p) in
  let abst := if bool_decide (p1_decision p = DABORT) && negb (p1_conflict_flag p)
              then u64 (sh_consecutive_abstains sh + 1) else 0 in
  fin ← (if negb no_fallback && (abst >=? consecutiveMax)
         then conflicts_to_finish (p1_txn p) (p1_abstain_conflicts p) else Done []);
  Done (mkShard (sh_group sh) (sh_lastReqId sh) (delete reqId (sh_pendingPhase1s sh)) (sh_pendingPhase2s sh)
          get_policy abst (sh_finish sh ++ fin), cb).

(** ** Phase 1 replies *)

Definition p1_decide (decision : CommitDecision) (fast : bool) (p : PendingPhase1) : PendingPhase1 :=
  mkPP1 (p1_txnId p) (p1_txn p) (p1_txnDigest p) (p1_replicasVerified p) (p1_endorsementFailedReplicas p)
    (p1_p1ReplySigs p) (p1_validator p) decision fast (p1_conflict p) (p1_conflict_flag p) (p1_first_decision p)
    (p1_timer p) (p1_abstain_conflicts p).
Definition p1_with_conflict (c : option CommittedProof) (p : PendingPhase1) : PendingPhase1 :=
  mkPP1 (p1_txnId p) (p1_txn p) (p1_txnDigest p) (p1_replicasVerified p) (p1_endorsementFailedReplicas p)
    (p1_p1ReplySigs p) (p1_validator p) (p1_decision p) (p1_fast p) c true (p1_first_decision p)
    (p1_timer p) (p1_abstain_conflicts p).
Definition p1_spend_first (p : PendingPhase1) : PendingPhase1 :=
  mkPP1 (p1_txnId p) (p1_txn p) (p1_txnDigest p) (p1_replicasVerified p) (p1_endorsementFailedReplicas p)
    (p1_p1ReplySigs p) (p1_validator p) (p1_decision p) (p1_fast p) (p1_conflict p) (p1_conflict_flag p) false
    (p1_timer p) (p1_abstain_conflicts p).
Definition p1_start_timer (decision : CommitDecision) (p : PendingPhase1) : PendingPhase1 :=
  mkPP1 (p1_txnId p) (p1_txn p) (p1_txnDigest p) (p1_replicasVerified p) (p1_endorsementFailedReplicas p)
    (p1_p1ReplySigs p) (p1_validator p) (p1_decision p) (p1_fast p) (p1_conflict p) (p1_conflict_flag p)
    (p1_first_decision p) (Some decision) (p1_abstain_conflicts p).
Definition p1_saw (pid : Z) (p : PendingPhase1) : PendingPhase1 :=
  mkPP1 (p1_txnId p) (p1_txn p) (p1_txnDigest p) (pid :: p1_replicasVerified p) (p1_endorsementFailedReplicas p)
    (p1_p1ReplySigs p) (p1_validator p) (p1_decision p) (p1_fast p) (p1_conflict p) (p1_conflict_flag p)
    (p1_first_decision p) (p1_timer p) (p1_abstain_conflicts p).
Definition p1_set_validator (v : Phase1Validator) (p : PendingPhase1) : PendingPhase1 :=
  mkPP1 (p1_txnId p) (p1_txn p) (p1_txnDigest p) (p1_replicasVerified p) (p1_endorsementFailedReplicas p)
    (p1_p1ReplySigs p) v (p1_decision p) (p1_fast p) (p1_conflict p) (p1_conflict_flag p)
    (p1_first_decision p) (p1_timer p) (p1_abstain_conflicts p).
(** The signature of a counted vote. *)
Definition p1_add_sig (ccr : Result) (reply : Phase1Reply) (sm : SignedMessage) (p : PendingPhase1) : PendingPhase1 :=
  let failed := bool_decide (p1r_insufficient_endorsements reply = Some true) ||
                bool_decide (p1r_too_many_endorsements reply = Some true) in
  mkPP1 (p1_txnId p) (p1_txn p) (p1_txnDigest p) (p1_replicasVerified p)
    (if failed then {[sm_process_id sm]} ∪ p1_endorsementFailedReplicas p else p1_endorsementFailedReplicas p)
    (<[ccr := default [] (p1_p1ReplySigs p !! ccr) ++ [mkSig (sm_process_id sm) (sm_signature sm)]]> (p1_p1ReplySigs p))
    (p1_validator p) (p1_decision p) (p1_fast p) (p1_conflict p) (p1_conflict_flag p)
    (p1_first_decision p) (p1_timer p) (p1_abstain_conflicts p).
Definition p1_add_conflict (t : option Transaction) (p : PendingPhase1) : PendingPhase1 :=
  mkPP1 (p1_txnId p) (p1_txn p) (p1_txnDigest p) (p1_replicasVerified p) (p1_endorsementFailedReplicas p)
    (p1_p1ReplySigs p) (p1_validator p) (p1_decision p) (p1_fast p) (p1_conflict p) (p1_conflict_flag p)
    (p1_first_decision p) (p1_timer p) (p1_abstain_conflicts p ++ match t with Some t => [t] | None => [] end).

(** What the reply votes: [inl] the request unchanged but for
    [replicasVerified], where the code returns; [inr] the vote and its
    signature. *)
Definition p1_vote_of (group : Z) (reply : Phase1Reply) (p : PendingPhase1) :
    outcome (PendingPhase1 + PendingPhase1 * ConcurrencyControl * option SignedMessage) :=
  let hasSigned := validateProofs && signedMessages &&
    match p1r_vote reply with PlainVote cc => negb (bool_decide (cc_ccr (cc_vote cc) = ABORT)) | _ => true end in
  if hasSigned then
    match p1r_vote reply with
    | SignedVote sm =>
        let pid := sm_process_id sm in
        if bool_decide (pid ∈ p1_replicasVerified p) then Done (inl p)
        else
          let p := p1_saw pid p in
          if negb (IsReplicaInGroup config pid group) then Done (inl p)
          else if negb (Verify pid (sm_data sm) (sm_signature sm)) then Done (inl p)
          else match parse_cc (sm_data sm) with
          | None => Done (inl p)
          | Some cc => Done (inr (p, cc, Some sm))
          end
    | _ => Done (inl p)
    end
  else match p1r_vote reply with PlainVote cc => Done (inr (p, cc, None)) | _ => Panic end.

(** A tentative state: decide at once without a timeout, else start a timer. *)
Definition tentative (reqId : Z) (decision : CommitDecision) (p : PendingPhase1) (sh : Shard) :
    outcome (Shard * option P1Callback) :=
  if (phase1DecisionTimeout =? 0) && p1_first_decision p then
    '(sh, cb) ← Phase1Decision reqId (p1_decide decision false (p1_spend_first p)) sh; Done (sh, Some cb)
  else
    let p := match p1_timer p with Some _ => p | None => p1_start_timer decision p end in
    Done (upd_p1s (<[reqId := p]>) sh, None).

(** The switch on the validator's state, after the vote was counted. *)
Definition act_on_state (reply : Phase1Reply) (cc : ConcurrencyControl) (p : PendingPhase1) (sh : Shard) :
    outcome (Shard * option P1Callback) :=
  let reqId := p1r_req_id reply in
  let decide_now d fast p := '(sh, cb) ← Phase1Decision reqId (p1_decide d fast p) sh; Done (sh, Some cb) in
  match v1_state (p1_validator p) with
  | FAST_COMMIT =>
      _ ← uw_assert (bool_decide (p1r_insufficient_endorsements reply = None)); decide_now DCOMMIT true p
  | FAST_ABORT =>
      decide_now DABORT true
        (p1_with_conflict (if validateProofs then Some (cc_committed_conflict cc) else p1_conflict p) p)
  | FAST_ABSTAIN => decide_now DABORT true p
  | SLOW_COMMIT_FINAL => decide_now DCOMMIT false p
  | SLOW_ABORT_FINAL => decide_now DABORT false p
  | SLOW_COMMIT_TENTATIVE => tentative reqId DCOMMIT p sh
  | SLOW_ABORT_TENTATIVE | SLOW_ABORT_TENTATIVE2 => tentative reqId DABORT p sh
  | EQUIVOCATE => decide_now DCOMMIT false p
  | NOT_ENOUGH => Done (upd_p1s (<[reqId := p]>) sh, None)
  end.

Definition ProcessP1R (reply : Phase1Reply) (sh : Shard) : outcome (Shard * option P1Callback) :=
  match sh_pendingPhase1s sh !! p1r_req_id reply with
  | None => Done (sh, None)
  | Some p =>
      r ← p1_vote_of (sh_group sh) reply p;
      match r with
      | inl p => Done (upd_p1s (<[p1r_req_id reply := p]>) sh, None)
      | inr (p, cc, signed) =>
          '(v, counted) ← ProcessMessage (p1_txn p) (p1_txnDigest p) (p1_validator p) cc;
          _ ← uw_assert counted;
          let p := p1_set_validator v p in
          let p := match signed with Some sm => p1_add_sig (cc_ccr (cc_vote cc)) reply sm p | None => p end in
          act_on_state reply cc (p1_add_conflict (p1r_abstain_conflict reply) p) sh
      end
  end.

(** The timer of a tentative decision. *)
Definition P1Timer (reqId : Z) (sh : Shard) : outcome (Shard * option P1Callback) :=
  match sh_pendingPhase1s sh !! reqId with
  | None => Done (sh, None)
  | Some p =>
      match p1_timer p with
      | None => Done (sh, None)
      | Some decision => '(sh, cb) ← Phase1Decision reqId (p1_decide decision false p) sh; Done (sh, Some cb)
      end
  end.

(** The timers of the requests themselves: the request is dropped.  The
    client asks again for phase 2 only. *)
Definition Phase1Timeout (reqId : Z) (sh : Shard) : Shard := upd_p1s (delete reqId) sh.
Definition Phase2Timeout (reqId : Z) (sh : Shard) : Shard * option Z :=
  (upd_p2s (delete reqId) sh, p2_txnId <$> sh_pendingPhase2s sh !! reqId).

(** ** Phase 2 replies *)

(** Without signatures the matching replies are counted.  A missing decision
    reads as the default one, without a view. *)
Definition plain_decision (v : P2Vote) : CommitDecision * option Z :=
  match v with PlainDecision d => (p2_decision d, Some (p2_view d)) | _ => (DCOMMIT, None) end.
Definition HandlePhase2Reply (reply : Phase2Reply) (sh : Shard) : outcome (Shard * option P2Callback) :=
  let reqId := p2r_req_id reply in
  match sh_pendingPhase2s sh !! reqId with
  | None => Done (sh, None)
  | Some p =>
      let '(decision, view) := plain_decision (p2r_vote reply) in
      if validateProofs && bool_decide (view = None) then Done (sh, None)
      else if validateProofs && negb (bool_decide (view = Some 0)) then Panic
      else
        let k := if bool_decide (decision = p2_own_decision p) then u64 (p2_matchingReplies p + 1)
                 else p2_matchingReplies p in
        if k >=? QuorumSize config
        then Done (upd_p2s (delete reqId) sh, Some (mkCb2 (p2_txnId p) (p2_own_decision p) 0 []))
        else Done (upd_p2s (<[reqId := mkPP2 (p2_txnId p) (p2_own_decision p) k (p2_manage p)]>) sh, None)
  end.

(** With signatures, per view and decision. *)
Definition HandlePhase2Reply_MultiView (reply : Phase2Reply) (sh : Shard) : outcome (Shard * option P2Callback) :=
  let reqId := p2r_req_id reply in
  match sh_pendingPhase2s sh !! reqId, p2r_vote reply with
  | None, _ => Done (sh, None)
  | Some p, SignedDecision sm =>
      let pid := sm_process_id sm in
      if negb (IsReplicaInGroup config pid (sh_group sh)) then Done (sh, None)
      else if negb (Verify pid (sm_data sm) (sm_signature sm)) then Done (sh, None)
      else match parse_p2 (sm_data sm) with
      | None => Done (sh, None)
      | Some d =>
          let vw := default (mkView2 [] ∅) (p2_manage p !! p2_view d) in
          if bool_decide (pid ∈ v2_replicasVerified vw) then
            Done (upd_p2s (<[reqId := mkPP2 (p2_txnId p) (p2_own_decision p) (p2_matchingReplies p)
                                        (<[p2_view d := vw]> (p2_manage p))]>) sh, None)
          else
            let sigs := default [] (v2_decision_sigs vw !! p2_decision d) ++ [mkSig pid (sm_signature sm)] in
            if Z.of_nat (length sigs) >=? QuorumSize config
            then Done (upd_p2s (delete reqId) sh, Some (mkCb2 (p2_txnId p) (p2_decision d) (p2_view d) sigs))
            else
              let vw := mkView2 (pid :: v2_replicasVerified vw) (<[p2_decision d := sigs]> (v2_decision_sigs vw)) in
              Done (upd_p2s (<[reqId := mkPP2 (p2_txnId p) (p2_own_decision p) (p2_matchingReplies p)
                                          (<[p2_view d := vw]> (p2_manage p))]>) sh, None)
      end
  | Some p, _ => Done (sh, None)
  end.

Definition ReceivePhase2Reply (reply : Phase2Reply) (sh : Shard) : outcome (Shard * option P2Callback) :=
  if negb (validateProofs && signedMessages) then HandlePhase2Reply reply sh
  else HandlePhase2Reply_MultiView reply sh.
End shard.
