(* ===== verification/ClientCommit.v ===== *)
(** * The commit protocol at a client

    [Client] (src/src/store/sintrstore/client.cc) combines what the
    [ShardClient]s of the involved groups report: it writes back at once when
    every group was unanimous or one has a proof of abort, and logs the
    decision at one group first otherwise.  A client runs one
    transaction at a time, so that its member [txn] is the request's
    transaction.  ClientCerts.v proves that the certificates a client sends
    are ones the replicas accept. *)
From S2P Require Import Prelude OrderedSeq CppString Timestamp VersionStore Policy PolicyParse ServerState Quorum ShardClient.

Record PendingRequest := mkReq {
  rq_outstandingPhase1s : Z;
  rq_decision : CommitDecision;
  rq_decision_view : Z;
  rq_fast : bool;
  rq_conflict_flag : bool;
  rq_conflict : option CommittedProof;
  rq_startedPhase2 : bool;
  rq_p1ReplySigsGrouped : gmap Z (list Signature);
  rq_p2ReplySigsGrouped : gmap Z (list Signature);
  rq_txn : Transaction;
  rq_txnDigest : digest;
  rq_slowAbortGroup : Z;
  rq_fastAbortGroup : Z
}.
Definition PendingRequest_new (txn : Transaction) (d : digest) : PendingRequest :=
  mkReq 0 DCOMMIT 0 true false None false ∅ ∅ txn d (-1) (-1).

(** What a client sends: [Phase2] to the log group, [Writeback] to the
    involved groups. *)
Inductive Out :=
| SendPhase2 (q group : Z) (decision : CommitDecision) (sigs : GroupedSignatures)
| SendWriteback (q : Z) (wb : Writeback).

Record Client := mkClient {
  cl_shards : gmap Z Shard;
  cl_pendingReqs : gmap Z PendingRequest;
  cl_sent : list Out
}.
Definition upd_reqs (f : gmap Z PendingRequest → gmap Z PendingRequest) (c : Client) : Client :=
  mkClient (cl_shards c) (f (cl_pendingReqs c)) (cl_sent c).
Definition upd_shards (f : gmap Z Shard → gmap Z Shard) (c : Client) : Client :=
  mkClient (f (cl_shards c)) (cl_pendingReqs c) (cl_sent c).
Definition send (o : Out) (c : Client) : Client := mkClient (cl_shards c) (cl_pendingReqs c) (cl_sent c ++ [o]).

Section client.
Variable config : Configuration.
Variable ser_cc : CCMsg → string.
Variable ser_p2 : P2Msg → string.
Variable Verify : Z → string → string → bool.
Variable policyFn : string → string → string.
Variable TransactionDigest : Transaction → digest.
Variable parse_cc : string → option ConcurrencyControl.
Variable parse_p2 : string → option P2Msg.
Variables validateProofs signedMessages : bool.
Variables (minEnablePullPolicies consecutiveMax phase1DecisionTimeout : Z) (no_fallback : bool).

(** ** The votes of a group *)

Definition with_grouped (f : gmap Z (list Signature) → gmap Z (list Signature)) (slow fast : Z) (r : PendingRequest) :
    PendingRequest :=
  mkReq (rq_outstandingPhase1s r) (rq_decision r) (rq_decision_view r) (rq_fast r) (rq_conflict_flag r) (rq_conflict r)
    (rq_startedPhase2 r) (f (rq_p1ReplySigsGrouped r)) (rq_p2ReplySigsGrouped r) (rq_txn r) (rq_txnDigest r) slow fast.

(** The signatures that are kept: [sigs.find(..)] has to find them. *)
Definition keep_sigs (group : Z) (cb : P1Callback) (r : PendingRequest) : outcome PendingRequest :=
  if negb (validateProofs && signedMessages) then Done r
  else
    let keep := λ res slow fast,
      match cb1_sigs cb !! res with
      | Some l => Done (with_grouped (<[group := l]>) slow fast r)
      | None => Panic
      end in
    match cb1_decision cb, cb1_fast cb, cb1_conflict_flag cb with
    | DABORT, true, false => keep ABSTAIN (rq_slowAbortGroup r) group
    | DABORT, true, true => Done r
    | DABORT, false, _ => keep ABSTAIN group (rq_fastAbortGroup r)
    | DCOMMIT, _, _ => keep COMMIT (rq_slowAbortGroup r) (rq_fastAbortGroup r)
    end.

Definition Phase1CallbackProcessing (group : Z) (cb : P1Callback) (r : PendingRequest) : outcome PendingRequest :=
  let conflicted := bool_decide (cb1_decision cb = DABORT) && cb1_fast cb && cb1_conflict_flag cb in
  r ← keep_sigs group cb r;
  let fast := if cb1_fast cb && bool_decide (cb1_decision cb = DABORT) then true else rq_fast r && cb1_fast cb in
  Done (mkReq (match cb1_decision cb with DCOMMIT => rq_outstandingPhase1s r - 1 | DABORT => 0 end)
          (match cb1_decision cb with DCOMMIT => rq_decision r | DABORT => DABORT end) (rq_decision_view r) fast
          (conflicted || rq_conflict_flag r) (if conflicted then cb1_conflict cb else rq_conflict r)
          (rq_startedPhase2 r) (rq_p1ReplySigsGrouped r) (rq_p2ReplySigsGrouped r) (rq_txn r) (rq_txnDigest r)
          (rq_slowAbortGroup r) (rq_fastAbortGroup r)).

(** ** Logging and writing back *)

(** [while (size() > 1) ..]: all entries but [group]'s are erased; then each
    entry is cut to [quorum] signatures. *)
Definition only_group (group : Z) (m : gmap Z (list Signature)) : gmap Z (list Signature) :=
  filter (λ kv, kv.1 = group) m.
Definition trim (quorum : Z) (m : gmap Z (list Signature)) : gmap Z (list Signature) :=
  take (Z.to_nat quorum) <$> m.
Definition has_group (g : Z) (m : gmap Z (list Signature)) : bool := bool_decide (is_Some (m !! g)).

Definition Phase2Processing (r : PendingRequest) : outcome PendingRequest :=
  m ← (if validateProofs && signedMessages then
         m ← (match rq_decision r with
              | DABORT =>
                  _ ← uw_assert (rq_slowAbortGroup r >=? 0);
                  _ ← uw_assert (has_group (rq_slowAbortGroup r) (rq_p1ReplySigsGrouped r));
                  Done (only_group (rq_slowAbortGroup r) (rq_p1ReplySigsGrouped r))
              | DCOMMIT => Done (rq_p1ReplySigsGrouped r)
              end);
         Done (trim (match rq_decision r with DCOMMIT => SlowCommitQuorumSize config | DABORT => SlowAbortQuorumSize config end) m)
       else Done (rq_p1ReplySigsGrouped r));
  Done (mkReq (rq_outstandingPhase1s r) (rq_decision r) (rq_decision_view r) (rq_fast r) (rq_conflict_flag r)
          (rq_conflict r) true m (rq_p2ReplySigsGrouped r) (rq_txn r) (rq_txnDigest r) (rq_slowAbortGroup r)
          (rq_fastAbortGroup r)).

Definition Client_Phase2 (q : Z) (r : PendingRequest) (c : Client) : outcome Client :=
  logGroup ← GetLogGroup (involved_groups (rq_txn r)) (rq_txnDigest r);
  r ← Phase2Processing r;
  match cl_shards c !! logGroup with
  | None => Panic
  | Some sh =>
      Done (send (SendPhase2 q logGroup (rq_decision r) (map_to_list (rq_p1ReplySigsGrouped r)))
        (upd_shards (<[logGroup := ShardClient_Phase2 q (rq_decision r) sh]>) (upd_reqs (<[q := r]>) c)))
  end.

Definition WritebackProcessing (r : PendingRequest) : outcome Writeback :=
  m ← (if validateProofs && signedMessages && bool_decide (rq_decision r = DABORT) && rq_fast r && negb (rq_conflict_flag r) then
         _ ← uw_assert (rq_fastAbortGroup r >=? 0);
         _ ← uw_assert (has_group (rq_fastAbortGroup r) (rq_p1ReplySigsGrouped r));
         Done (trim (FastAbortQuorumSize config) (only_group (rq_fastAbortGroup r) (rq_p1ReplySigsGrouped r)))
       else Done (rq_p1ReplySigsGrouped r));
  let '(reply, view) :=
    if negb (validateProofs && signedMessages) then (WbNone, None)
    else match rq_fast r, rq_decision r, rq_conflict_flag r with
    | true, DCOMMIT, _ | true, DABORT, false => (WbP1 (map_to_list m), None)
    | true, DABORT, true =>
        match rq_conflict r with
        | Some x => (WbConflict x, Some (match cp_sigs x with Some (ByP2 _ v) => v | _ => 0 end))
        | None => (WbNone, Some 0)
        end
    | false, _, _ => (WbP2 (map_to_list (rq_p2ReplySigsGrouped r)), Some (rq_decision_view r))
    end in
  Done (mkWb (rq_decision r) (Some (rq_txnDigest r)) None reply view).

(** The request ends. *)
Definition Client_Writeback (q : Z) (r : PendingRequest) (c : Client) : outcome Client :=
  wb ← WritebackProcessing r;
  Done (send (SendWriteback q wb) (upd_reqs (delete q) c)).

(** ** Callbacks *)

Definition HandleAllPhase1Received (q : Z) (r : PendingRequest) (c : Client) : outcome Client :=
  if rq_fast r then Client_Writeback q r c else Client_Phase2 q r c.

Definition Phase1Callback (group : Z) (cb : P1Callback) (c : Client) : outcome Client :=
  let q := cb1_txnId cb in
  match cl_pendingReqs c !! q with
  | None => Done c
  | Some r =>
      if rq_startedPhase2 r then Done c
      else
        r ← Phase1CallbackProcessing group cb r;
        let c := upd_reqs (<[q := r]>) c in
        if rq_outstandingPhase1s r =? 0 then HandleAllPhase1Received q r c else Done c
  end.

Definition Phase2Callback (group : Z) (cb : P2Callback) (c : Client) : outcome Client :=
  let q := cb2_txnId cb in
  match cl_pendingReqs c !! q with
  | None => Done c
  | Some r =>
      Client_Writeback q
        (mkReq (rq_outstandingPhase1s r) (cb2_decision cb) (cb2_view cb) (rq_fast r) (rq_conflict_flag r) (rq_conflict r)
           (rq_startedPhase2 r) (rq_p1ReplySigsGrouped r)
           (if validateProofs && signedMessages then <[group := cb2_sigs cb]> (rq_p2ReplySigsGrouped r)
            else rq_p2ReplySigsGrouped r)
           (rq_txn r) (rq_txnDigest r) (rq_slowAbortGroup r) (rq_fastAbortGroup r)) c
  end.

(** [Phase1TimeoutCallback] returns at once. *)
Definition Phase2TimeoutCallback (q : Z) (c : Client) : outcome Client :=
  match cl_pendingReqs c !! q with
  | None => Done c
  | Some r => Client_Phase2 q r c
  end.

(** ** Steps *)

(** Sending phase 1 to the involved groups. *)
Fixpoint send_phase1 (q : Z) (txn : Transaction) (d : digest) (groups : list Z) (r : PendingRequest) (c : Client) :
    outcome (PendingRequest * Client) :=
  match groups with
  | [] => Done (r, c)
  | g :: groups =>
      match cl_shards c !! g with
      | None => Panic
      | Some sh =>
          let r := mkReq (rq_outstandingPhase1s r + 1) (rq_decision r) (rq_decision_view r) (rq_fast r) (rq_conflict_flag r)
            (rq_conflict r) (rq_startedPhase2 r) (rq_p1ReplySigsGrouped r) (rq_p2ReplySigsGrouped r) (rq_txn r)
            (rq_txnDigest r) (rq_slowAbortGroup r) (rq_fastAbortGroup r) in
          send_phase1 q txn d groups r (upd_shards (<[g := ShardClient_Phase1 q txn d sh]>) c)
      end
  end.
Definition StartPhase1 (q : Z) (txn : Transaction) (d : digest) (c : Client) : outcome Client :=
  _ ← uw_assert (0 <? Z.of_nat (length (involved_groups txn)));
  '(r, c) ← send_phase1 q txn d (involved_groups txn) (PendingRequest_new txn d) c;
  Done (upd_reqs (<[q := r]>) c).

Inductive ClientEvent :=
| Start (q : Z) (txn : Transaction) (d : digest)
| GotPhase1Reply (group : Z) (reply : Phase1Reply)
| Phase1Timer (group reqId : Z)
| Phase1RequestTimer (group reqId : Z)
| Phase2RequestTimer (group reqId : Z)
| GotPhase2Reply (group : Z) (reply : Phase2Reply).

(** A step of one shard, and the callback it makes. *)
Definition on_shard {A} (group : Z) (f : Shard → outcome (Shard * option A)) (callback : A → Client → outcome Client)
    (c : Client) : outcome Client :=
  match cl_shards c !! group with
  | None => Panic
  | Some sh =>
      '(sh, cb) ← f sh;
      let c := upd_shards (<[group := sh]>) c in
      match cb with Some cb => callback cb c | None => Done c end
  end.

Definition client_step (ev : ClientEvent) (c : Client) : outcome Client :=
  match ev with
  | Start q txn d => StartPhase1 q txn d c
  | GotPhase1Reply g reply =>
      on_shard g (ProcessP1R config ser_cc ser_p2 Verify policyFn TransactionDigest parse_cc validateProofs signedMessages
                    minEnablePullPolicies consecutiveMax phase1DecisionTimeout no_fallback reply) (Phase1Callback g) c
  | Phase1Timer g reqId =>
      on_shard g (P1Timer policyFn TransactionDigest minEnablePullPolicies consecutiveMax no_fallback reqId)
        (Phase1Callback g) c
  | Phase1RequestTimer g reqId => on_shard g (λ sh, Done (Phase1Timeout reqId sh, None : option Z)) (λ _, Done) c
  | Phase2RequestTimer g reqId => on_shard g (λ sh, Done (Phase2Timeout reqId sh)) Phase2TimeoutCallback c
  | GotPhase2Reply g reply =>
      on_shard g (ReceivePhase2Reply config Verify parse_p2 validateProofs signedMessages reply) (Phase2Callback g) c
  end.
End client.
