(* ===== verification/ClientCerts.v ===== *)
(** * The certificates a client sends are valid

    ShardClient.v and ClientCommit.v composed with the replicas' checks of
    Quorum.v.  An invariant of the pending requests is preserved by every step
    of the client; it gives what each message it sends contains.  Signed
    messages and proofs are on. *)
From S2P Require Import Prelude OrderedSeq CppString Timestamp VersionStore Policy PolicyParse ServerState Quorum ShardClient ClientCommit.

(** ** Certificates the replicas accept *)
Section accept.
Context (config : Configuration) (ser_cc : CCMsg → string) (Verify : Z → string → string → bool).
Implicit Types (l : list Signature) (g : Z) (d : digest).

(** Distinct replicas of the group that signed the vote. *)
Definition cert g d (r : Result) l : Prop :=
  NoDup (pids l) ∧ ∀ sig, sig ∈ l → IsReplicaInGroup config (sig_process_id sig) g = true ∧
    Verify (sig_process_id sig) (ser_cc (mkCCMsg r d g)) (sig_bytes sig) = true.

Lemma cert_nil g d r : cert g d r [].
Proof. split; [constructor|set_solver]. Qed.
Lemma cert_snoc g d r l pid s :
  cert g d r l → (∀ sig, sig ∈ l → sig_process_id sig ≠ pid) → IsReplicaInGroup config pid g = true →
  Verify pid (ser_cc (mkCCMsg r d g)) s = true → cert g d r (l ++ [mkSig pid s]).
Proof.
  intros [Hnd Hl] Hfresh Hg Hv. split.
  - unfold pids. rewrite fmap_app. apply NoDup_app. split_and!; [done| |cbn; apply NoDup_singleton].
    intros x (sig & -> & Hin)%list_elem_of_fmap Hx. cbn in Hx. apply list_elem_of_singleton in Hx. by eapply Hfresh.
  - intros sig [Hin|Hin]%elem_of_app; [by apply Hl|]. by apply list_elem_of_singleton in Hin as ->.
Qed.
Lemma cert_take g d r l k : cert g d r l → cert g d r (take k l).
Proof.
  intros [Hnd Hl]. split.
  - unfold pids. rewrite fmap_take. eapply sublist_NoDup; [done|apply sublist_take].
  - intros sig Hin. apply Hl. eapply subseteq_take; exact Hin.
Qed.

Lemma p1_sigs_accept g d r l R v my ok :
  cert g d r l → (∀ pid, pid ∈ pids l → pid ∉ R) → own_matches my ok l → 0 ≤ v → v + Z.of_nat (length l) < 2^32 →
  p1_sigs config Verify g my ok (ser_cc (mkCCMsg r d g)) R v l = Some (v + Z.of_nat (length l)).
Proof.
  intros [Hnd Hl]. revert R v Hnd Hl. induction l as [|sig l IH]; intros R v Hnd Hl Hfresh Hown Hv Hlen; cbn [p1_sigs].
  { cbn. by rewrite Z.add_0_r. }
  cbn [length] in *. apply NoDup_cons in Hnd as [Hp Hnd]. destruct (Hl sig) as [Hg Hver]; [by left|].
  apply own_matches_cons in Hown as [Hm Hown]. rewrite Hg. cbn [negb]. rewrite Hm, Hver, andb_false_r.
  rewrite bool_decide_eq_false_2 by (apply Hfresh; by left). rewrite u32_small by lia.
  rewrite IH; [f_equal; lia|done|intros; apply Hl; by right| |done|lia|lia].
  intros pid Hpid [->|Hin]%elem_of_cons; [done|]. apply (Hfresh pid); [by right|done].
Qed.

(** Each group has its quorum; a replica that validates the certificate and
    signed one of its votes has recorded that vote. *)
Definition full (dec : CommitDecision) (fast : bool) d (gl : Z * list Signature) : Prop :=
  cert gl.1 d (p1_vote dec) gl.2 ∧ Z.of_nat (length gl.2) = p1_quorum config dec fast.
Definition own_vote (dec : CommitDecision) (my : Z) (myResult : Result) (gs : GroupedSignatures) : Prop :=
  ∀ g l, (g, l) ∈ gs → own_matches my (bool_decide (p1_vote dec = myResult)) l.
Lemma p1_groups_accept dec fast d gv (gs : GroupedSignatures) my myResult :
  0 ≤ p1_quorum config dec fast < 2^32 → Forall (full dec fast d) gs → own_vote dec my myResult gs →
  p1_groups config ser_cc Verify dec fast d my myResult gv gs = Some (reverse (int32 <$> gs.*1) ++ gv).
Proof.
  intros Hq Hall. revert gv. induction Hall as [|[g l] gs [Hc Hlen] _ IH]; intros gv Hown; [done|].
  cbn [p1_groups]. cbn [fst snd] in *. rewrite (p1_sigs_accept g d); [|done|set_solver|apply (Hown g); by left|lia|lia].
  rewrite Z.add_0_l, Hlen, Z.eqb_refl. cbn [negb]. rewrite IH by (intros g' l' Hin; apply (Hown g'); by right).
  f_equal. by rewrite !fmap_cons, reverse_cons, <- app_assoc.
Qed.
Lemma ValidateP1Replies_accept dec fast groups d gs my myResult :
  0 ≤ p1_quorum config dec fast < 2^32 → Forall (full dec fast d) gs → (dec = DCOMMIT → groups ⊆ gs.*1) →
  own_vote dec my myResult gs → ValidateP1Replies config ser_cc Verify dec fast groups d gs my myResult = true.
Proof.
  intros Hq Hall Hgroups Hown. unfold ValidateP1Replies. rewrite p1_groups_accept by done.
  destruct dec; [|done]. apply forallb_forall. intros g Hg%list_elem_of_In. apply bool_decide_eq_true.
  rewrite app_nil_r, elem_of_reverse. apply list_elem_of_fmap_2. by apply Hgroups.
Qed.
End accept.

(** ** The votes of one group *)

Section shard.
Variable config : Configuration.
Variable ser_cc : CCMsg → string.
Variable ser_p2 : P2Msg → string.
Variable Verify : Z → string → string → bool.
Variable policyFn : string → string → string.
Variable TransactionDigest : Transaction → digest.
Variable parse_cc : string → option ConcurrencyControl.
Variable parse_p2 : string → option P2Msg.
Variables (minEnablePullPolicies consecutiveMax phase1DecisionTimeout : Z) (no_fallback : bool).
Hypothesis f_range : 0 ≤ cf_f config < 2^28.
Hypothesis n_value : cf_n config = 5 * cf_f config + 1.
(** The transactions of the client and their digests, by sequence number. *)
Variable world : Z → Transaction.
Variable dig : Z → digest.
Notation f := (cf_f config).
Notation cert := (cert config ser_cc Verify).
Implicit Types (p : PendingPhase1) (sh : Shard) (q g : Z) (l : list Signature) (v : Phase1Validator).

Lemma slow_commit_size : SlowCommitQuorumSize config = 3 * f + 1.
Proof. unfold SlowCommitQuorumSize. rewrite (u64_small f), u64_small by lia. done. Qed.
Lemma fast_abort_size : FastAbortQuorumSize config = 3 * f + 1.
Proof. unfold FastAbortQuorumSize. rewrite (u64_small f), u64_small by lia. done. Qed.
Lemma slow_abort_size : SlowAbortQuorumSize config = f + 1.
Proof. unfold SlowAbortQuorumSize. rewrite (u64_small f), u64_small by lia. done. Qed.
Lemma p1_quorum_size dec fast :
  p1_quorum config dec fast =
    match dec, fast with DCOMMIT, true => 5 * f + 1 | DABORT, false => f + 1 | _, _ => 3 * f + 1 end.
Proof.
  unfold p1_quorum. destruct dec, fast; rewrite ?n_value, ?slow_commit_size, ?fast_abort_size, ?slow_abort_size;
    apply u32_small; lia.
Qed.

(** The signatures kept are a certificate for each vote, and the validator's
    counters are their numbers. *)
Definition votes p (r : Result) : list Signature := default [] (p1_p1ReplySigs p !! r).
Record p1_base g p : Prop := {
  pb_world : p1_txn p = world (p1_txnId p) ∧ p1_txnDigest p = dig (p1_txnId p);
  pb_cert r : cert g (p1_txnDigest p) r (votes p r);
  pb_seen r sig : sig ∈ votes p r → sig_process_id sig ∈ p1_replicasVerified p;
  pb_commits : v1_commits (p1_validator p) = Z.of_nat (length (votes p COMMIT));
  pb_abstains : v1_abstains (p1_validator p) = Z.of_nat (length (votes p ABSTAIN));
  pb_flag : p1_conflict_flag p = false
}.
(** No decision has been made. *)
Definition open_state v : Prop :=
  match v1_state v with
  | NOT_ENOUGH => True
  | SLOW_COMMIT_TENTATIVE => 3 * f + 1 ≤ v1_commits v
  | SLOW_ABORT_TENTATIVE | SLOW_ABORT_TENTATIVE2 => f + 1 ≤ v1_abstains v
  | _ => False
  end.
Definition supports v (dec : CommitDecision) : Prop :=
  match dec with DCOMMIT => 3 * f + 1 ≤ v1_commits v | DABORT => f + 1 ≤ v1_abstains v end.
Record p1_inv g p : Prop := {
  pi_base : p1_base g p;
  pi_range : v1_commits (p1_validator p) < 5 * f + 1 ∧ v1_abstains (p1_validator p) < 3 * f + 1;
  pi_state : open_state (p1_validator p);
  pi_timer dec : p1_timer p = Some dec → supports (p1_validator p) dec
}.

Lemma p1_inv_new g q : p1_inv g (PendingPhase1_new q (world q) (dig q)).
Proof.
  split; [|cbn; lia|done|done].
  split; cbn; unfold votes; cbn; try done; intros r; rewrite lookup_empty; [apply cert_nil|set_solver].
Qed.

(** What a callback carries. *)
Definition valid_conflict q (x : CommittedProof) : Prop :=
  ValidateCommittedConflict config ser_cc ser_p2 Verify policyFn x (TransactionDigest (cp_txn x)) (world q) true = Done true.
Definition carries g q (r : Result) (P : Z → Prop) (sigs : gmap Result (list Signature)) : Prop :=
  ∃ l, sigs !! r = Some l ∧ cert g (dig q) r l ∧ P (Z.of_nat (length l)).
Definition cb_ok g (cb : P1Callback) : Prop :=
  let q := cb1_txnId cb in
  match cb1_decision cb, cb1_fast cb, cb1_conflict_flag cb with
  | DCOMMIT, true, _ => carries g q COMMIT (λ k, k = 5 * f + 1) (cb1_sigs cb)
  | DCOMMIT, false, _ => carries g q COMMIT (λ k, 3 * f + 1 ≤ k) (cb1_sigs cb)
  | DABORT, true, false => carries g q ABSTAIN (λ k, 3 * f + 1 ≤ k) (cb1_sigs cb)
  | DABORT, true, true => ∃ x, cb1_conflict cb = Some x ∧ valid_conflict q x
  | DABORT, false, _ => carries g q ABSTAIN (λ k, f + 1 ≤ k) (cb1_sigs cb)
  end.
Definition callback_of p : P1Callback :=
  mkCb1 (p1_txnId p) (p1_decision p) (p1_fast p) (p1_conflict_flag p) (p1_conflict p) (p1_p1ReplySigs p).

Lemma carries_votes g p r (P : Z → Prop) :
  p1_base g p → P (Z.of_nat (length (votes p r))) → ~ P 0 → carries g (p1_txnId p) r P (p1_p1ReplySigs p).
Proof.
  intros Hb HP H0. pose proof (pb_cert _ _ Hb r) as Hc. rewrite (proj2 (pb_world _ _ Hb)) in Hc.
  unfold votes in *. destruct (p1_p1ReplySigs p !! r) as [l|] eqn:Hl; [|done]. by exists l.
Qed.
Lemma slow_callback_ok g p dec :
  p1_base g p → supports (p1_validator p) dec → cb_ok g (callback_of (p1_decide dec false p)).
Proof.
  intros Hb Hs. destruct dec; unfold cb_ok; cbn [cb1_decision cb1_fast cb1_txnId cb1_sigs callback_of p1_decide
    p1_decision p1_fast p1_txnId p1_p1ReplySigs]; apply carries_votes; try done; cbn in Hs;
    rewrite ?(pb_commits _ _ Hb), ?(pb_abstains _ _ Hb) in Hs; lia.
Qed.
Lemma fast_callback_ok g p dec :
  p1_base g p →
  match dec with DCOMMIT => v1_commits (p1_validator p) = 5 * f + 1 | DABORT => 3 * f + 1 ≤ v1_abstains (p1_validator p) end →
  cb_ok g (callback_of (p1_decide dec true p)).
Proof.
  intros Hb Hs. destruct dec; unfold cb_ok; cbn [cb1_decision cb1_fast cb1_txnId cb1_sigs cb1_conflict_flag callback_of
    p1_decide p1_decision p1_fast p1_txnId p1_p1ReplySigs p1_conflict_flag]; rewrite ?(pb_flag _ _ Hb);
    apply carries_votes; try done; rewrite ?(pb_commits _ _ Hb), ?(pb_abstains _ _ Hb) in Hs; lia.
Qed.

Lemma Phase1Decision_spec reqId p sh sh' cb :
  Phase1Decision policyFn TransactionDigest minEnablePullPolicies consecutiveMax no_fallback reqId p sh = Done (sh', cb) →
  sh_group sh' = sh_group sh ∧ sh_lastReqId sh' = sh_lastReqId sh ∧ sh_pendingPhase2s sh' = sh_pendingPhase2s sh ∧
  sh_pendingPhase1s sh' = delete reqId (sh_pendingPhase1s sh) ∧ cb = callback_of p.
Proof. unfold Phase1Decision. intros H. apply bind_Done in H as (fin & _ & H). by injection H as <- <-. Qed.

(** A vote names the group it is for, and is serialized as the replicas do. *)
Definition proper_vote g (v : P1Vote) : Prop :=
  ∀ sm cc, v = SignedVote sm → parse_cc (sm_data sm) = Some cc →
    sm_data sm = ser_cc (cc_vote cc) ∧ cc_involved_group (cc_vote cc) = g.

(** A vote to be counted: of a replica not yet seen, or a proof of conflict. *)
Definition countable g p (cc : ConcurrencyControl) (signed : option SignedMessage) : Prop :=
  match signed with
  | Some sm => (∀ r sig, sig ∈ votes p r → sig_process_id sig ≠ sm_process_id sm) ∧
      sm_process_id sm ∈ p1_replicasVerified p ∧ IsReplicaInGroup config (sm_process_id sm) g = true ∧
      Verify (sm_process_id sm) (ser_cc (cc_vote cc)) (sm_signature sm) = true ∧ cc_involved_group (cc_vote cc) = g
  | None => cc_ccr (cc_vote cc) = ABORT
  end.

Lemma vote_of_spec g reply p r :
  p1_inv g p → proper_vote g (p1r_vote reply) → p1_vote_of config Verify parse_cc true true g reply p = Done r →
  match r with
  | inl p' => p1_inv g p' ∧ p1_txnId p' = p1_txnId p
  | inr (p', cc, signed) => p1_inv g p' ∧ p1_txnId p' = p1_txnId p ∧ countable g p' cc signed
  end.
Proof.
  intros Hi Hp Hv. unfold p1_vote_of in Hv. cbn [andb] in Hv.
  assert (∀ pid, p1_inv g (p1_saw pid p)) as Hsaw.
  { intros pid. destruct Hi as [[? ? Hs ? ? ?] ? ? ?]. split; try done. split; try done.
    intros r' sig Hin. right. by apply (Hs r'). }
  destruct (p1r_vote reply) as [|cc|sm] eqn:Hvote; [by injection Hv as <-| |].
  - destruct (bool_decide_reflect (cc_ccr (cc_vote cc) = ABORT)) as [Ha|_]; cbn [negb] in Hv; by injection Hv as <-.
  - case_bool_decide as Hseen; [by injection Hv as <-|].
    destruct (IsReplicaInGroup config (sm_process_id sm) g) eqn:Hg; cbn [negb] in Hv; [|by injection Hv as <-].
    destruct (Verify _ _ _) eqn:Hver; cbn [negb] in Hv; [|by injection Hv as <-].
    destruct (parse_cc (sm_data sm)) as [cc|] eqn:Hparse; [|by injection Hv as <-]. injection Hv as <-.
    destruct (Hp sm cc eq_refl Hparse) as [Hd Hgrp]. rewrite Hd in Hver. split; [done|]. split; [done|].
    split_and!; [|by left|done|done|done]. intros r' sig Hin Heq. apply Hseen. rewrite <- Heq.
    by apply (pb_seen _ _ (pi_base _ _ Hi) r').
Qed.

(** *** Counting *)

Notation ProcessMessage := (ProcessMessage config ser_cc ser_p2 Verify policyFn TransactionDigest true true).
Definition counted_in v : Prop :=
  0 ≤ v1_commits v < 5 * f + 1 ∧ 0 ≤ v1_abstains v < 3 * f + 1.
Definition counted_state v : Prop :=
  match v1_state v with
  | FAST_COMMIT => v1_commits v = 5 * f + 1
  | SLOW_COMMIT_FINAL => supports v DCOMMIT
  | FAST_ABSTAIN => 3 * f + 1 ≤ v1_abstains v
  | SLOW_ABORT_FINAL => supports v DABORT
  | FAST_ABORT | EQUIVOCATE => False
  | _ => counted_in v ∧ open_state v
  end.

Lemma count_commit_state v : counted_in v → open_state v → counted_state (count_commit config v).
Proof.
  intros [[Hc1 Hc2] Ha] Ho. unfold count_commit. rewrite slow_commit_size, n_value, !u32_small by lia.
  unfold counted_state, counted_in, open_state, supports in *. cbn [v1_state v1_commits v1_abstains].
  destruct (v1_commits v + 1 =? 5 * f + 1) eqn:H1; [lia|].
  destruct (v1_commits v + 1 >=? 3 * f + 1) eqn:H2; cbn [andb]; [destruct (v1_abstains v =? 0); lia|].
  destruct (v1_state v); try done; lia.
Qed.
Lemma count_abstain_state v : counted_in v → open_state v → counted_state (count_abstain config v).
Proof.
  intros [[Hc1 Hc2] Ha] Ho. unfold count_abstain. rewrite fast_abort_size, slow_abort_size, slow_commit_size, u32_small by lia.
  unfold counted_state, counted_in, open_state, supports in *. cbn [v1_state v1_commits v1_abstains].
  destruct (v1_abstains v + 1 >=? 3 * f + 1) eqn:H1; [lia|].
  case_bool_decide as Hs; [rewrite Hs in Ho; lia|].
  destruct (v1_abstains v + 1 >=? f + 1) eqn:H2; cbn [andb]; [destruct (u32 _ >=? _); lia|].
  destruct (v1_state v); try done; lia.
Qed.

Definition counts (r r' : Result) : Z := if bool_decide (r = r') then 1 else 0.
Lemma ProcessMessage_spec txn d v cc v' :
  counted_in v → open_state v → ProcessMessage txn d v cc = Done (v', true) →
  let r := cc_ccr (cc_vote cc) in
  cc_txn_digest (cc_vote cc) = d ∧
  v1_commits v' = v1_commits v + counts r COMMIT ∧ v1_abstains v' = v1_abstains v + counts r ABSTAIN ∧
  match r with
  | ABORT => v1_state v' = FAST_ABORT ∧
      ValidateCommittedConflict config ser_cc ser_p2 Verify policyFn (cc_committed_conflict cc)
        (TransactionDigest (cp_txn (cc_committed_conflict cc))) txn true = Done true
  | _ => counted_state v'
  end.
Proof.
  intros Hin Ho H. unfold ShardClient.ProcessMessage in H. cbn [andb] in H.
  case_bool_decide as Hd; cbn [negb] in H; [|done].
  rewrite !bool_decide_eq_false_2 in H; [|unfold open_state in Ho; intros Heq; by rewrite Heq in Ho..].
  cbn [orb] in H. pose proof (count_commit_state v Hin Ho) as Hcc. pose proof (count_abstain_state v Hin Ho) as Hca.
  destruct Hin as [Hc Ha]. cbn zeta. split; [done|].
  destruct (cc_ccr (cc_vote cc)) eqn:Hr; try done.
  - injection H as <-. split_and!; [apply (u32_small (v1_commits v + 1)); lia|symmetry; apply Z.add_0_r|done].
  - apply bind_Done in H as (ok & Hv & H). apply bind_Done in H as (u & ->%uw_assert_Done & [= <-]). split_and!; [symmetry; apply Z.add_0_r|symmetry; apply Z.add_0_r|done|done].
  - injection H as <-. split_and!; [symmetry; apply Z.add_0_r|apply (u32_small (v1_abstains v + 1)); lia|done].
Qed.

(** The request with the vote. *)
Definition with_vote (reply : Phase1Reply) (cc : ConcurrencyControl) (signed : option SignedMessage) v p : PendingPhase1 :=
  let p := p1_set_validator v p in
  p1_add_conflict (p1r_abstain_conflict reply)
    (match signed with Some sm => p1_add_sig (cc_ccr (cc_vote cc)) reply sm p | None => p end).
Lemma votes_add r r' reply sm p :
  votes (p1_add_sig r reply sm p) r' =
    votes p r' ++ (if bool_decide (r = r') then [mkSig (sm_process_id sm) (sm_signature sm)] else []).
Proof.
  unfold votes, p1_add_sig. cbn. case_bool_decide as Hr; [subst; by rewrite lookup_insert_eq|].
  by rewrite lookup_insert_ne, app_nil_r.
Qed.
Lemma with_vote_base g reply cc signed v p :
  p1_base g p → countable g p cc signed → cc_txn_digest (cc_vote cc) = p1_txnDigest p →
  let r := cc_ccr (cc_vote cc) in
  v1_commits v = v1_commits (p1_validator p) + counts r COMMIT →
  v1_abstains v = v1_abstains (p1_validator p) + counts r ABSTAIN →
  p1_base g (with_vote reply cc signed v p).
Proof.
  intros [Hw Hc Hs Hnc Hna Hf] Hok Hd r Hvc Hva. destruct signed as [sm|].
  - destruct Hok as (Hfresh & Hseen & Hg & Hver & Hgrp).
    assert (ser_cc (cc_vote cc) = ser_cc (mkCCMsg r (p1_txnDigest p) g)) as Hser.
    { destruct (cc_vote cc). cbn in *. by subst. }
    assert (∀ r', votes (with_vote reply cc (Some sm) v p) r' =
      votes p r' ++ (if bool_decide (r = r') then [mkSig (sm_process_id sm) (sm_signature sm)] else [])) as Hv
      by (intros r'; exact (votes_add r r' reply sm (p1_set_validator v p))).
    split; try done.
    + intros r'. rewrite Hv. case_bool_decide as Hr; [|rewrite app_nil_r; apply Hc]. subst r'.
      apply cert_snoc; [apply Hc|apply Hfresh|done|]. cbn. by rewrite <- Hser.
    + intros r' sig. rewrite Hv. intros [Hin|Hin]%elem_of_app; [by apply (Hs r')|]. case_bool_decide; [|set_solver].
      by apply list_elem_of_singleton in Hin as ->.
    + rewrite Hv, length_app. cbn. rewrite Hvc, Hnc. unfold counts. case_bool_decide; cbn; lia.
    + rewrite Hv, length_app. cbn. rewrite Hva, Hna. unfold counts. case_bool_decide; cbn; lia.
  - cbn in Hok. assert (counts r COMMIT = 0 ∧ counts r ABSTAIN = 0) as [H1 H2] by (unfold r; rewrite Hok; done).
    rewrite H1 in Hvc. rewrite H2 in Hva. rewrite Z.add_0_r in Hvc, Hva.
    split; try done; cbn; [by rewrite Hvc|by rewrite Hva].
Qed.

(** *** A reply *)

Notation Phase1Decision := (Phase1Decision policyFn TransactionDigest minEnablePullPolicies consecutiveMax no_fallback).
Notation ProcessP1R := (ProcessP1R config ser_cc ser_p2 Verify policyFn TransactionDigest parse_cc true true
  minEnablePullPolicies consecutiveMax phase1DecisionTimeout no_fallback).
Notation P1Timer := (P1Timer policyFn TransactionDigest minEnablePullPolicies consecutiveMax no_fallback).

(** What becomes of the pending request [p]. *)
Definition p1_result (reqId : Z) p sh sh' (cb : option P1Callback) : Prop :=
  sh_group sh' = sh_group sh ∧ sh_lastReqId sh' = sh_lastReqId sh ∧ sh_pendingPhase2s sh' = sh_pendingPhase2s sh ∧
  match cb with
  | None => ∃ p', p1_inv (sh_group sh) p' ∧ p1_txnId p' = p1_txnId p ∧
                  sh_pendingPhase1s sh' = <[reqId := p']> (sh_pendingPhase1s sh)
  | Some cb => cb1_txnId cb = p1_txnId p ∧ cb_ok (sh_group sh) cb ∧
               sh_pendingPhase1s sh' = delete reqId (sh_pendingPhase1s sh)
  end.

Lemma stored reqId p p' sh :
  p1_inv (sh_group sh) p' → p1_txnId p' = p1_txnId p → p1_result reqId p sh (upd_p1s (<[reqId := p']>) sh) None.
Proof. intros Hi Ht. split_and!; try done. by exists p'. Qed.
Lemma decided reqId p p' sh sh' cb :
  p1_txnId p' = p1_txnId p → cb_ok (sh_group sh) (callback_of p') → Phase1Decision reqId p' sh = Done (sh', cb) →
  p1_result reqId p sh sh' (Some cb).
Proof. unfold p1_result. intros Ht Hok (-> & -> & -> & -> & ->)%Phase1Decision_spec. by split_and!. Qed.

Lemma spend_first_base g p : p1_base g p → p1_base g (p1_spend_first p).
Proof. intros []. by split. Qed.
Lemma tentative_spec reqId dec p sh sh' cb :
  p1_inv (sh_group sh) p → supports (p1_validator p) dec →
  tentative policyFn TransactionDigest minEnablePullPolicies consecutiveMax phase1DecisionTimeout no_fallback
    reqId dec p sh = Done (sh', cb) →
  p1_result reqId p sh sh' cb.
Proof.
  intros Hi Hs. unfold tentative. destruct (_ && _) eqn:Ht; intros H.
  - apply bind_Done in H as ([sh1 cb1] & H & [= <- <-]). eapply decided; [| |done]; [done|].
    apply slow_callback_ok; [by apply spend_first_base, Hi|exact Hs].
  - injection H as <- <-. apply stored; [|by destruct (p1_timer p)].
    destruct (p1_timer p) eqn:Hp; [done|]. destruct Hi as [[] ? ? ?]. split; try done. by intros ? [= <-].
Qed.

Lemma P1Timer_spec reqId sh sh' cb p :
  sh_pendingPhase1s sh !! reqId = Some p → p1_inv (sh_group sh) p → P1Timer reqId sh = Done (sh', cb) →
  p1_result reqId p sh sh' cb ∨ sh' = sh ∧ cb = None.
Proof.
  intros Hp Hi. unfold ShardClient.P1Timer. rewrite Hp. destruct (p1_timer p) as [dec|] eqn:Ht; intros H.
  - apply bind_Done in H as ([sh1 cb1] & H & [= <- <-]). left.
    eapply decided; [| |done]; [done|]. apply slow_callback_ok; [apply Hi|by apply (pi_timer _ _ Hi)].
  - injection H as <- <-. by right.
Qed.

(** A vote other than ABORT was counted. *)
Lemma act_on_state_spec reply cc p sh sh' cb :
  p1_base (sh_group sh) p → counted_state (p1_validator p) →
  (∀ dec, p1_timer p = Some dec → supports (p1_validator p) dec) →
  act_on_state policyFn TransactionDigest true minEnablePullPolicies consecutiveMax phase1DecisionTimeout no_fallback
    reply cc p sh = Done (sh', cb) →
  p1_result (p1r_req_id reply) p sh sh' cb.
Proof.
  intros Hb Hs Ht H. unfold act_on_state in H.
  assert (counted_in (p1_validator p) ∧ open_state (p1_validator p) → p1_inv (sh_group sh) p) as Hi.
  { intros [[[_ ?] [_ ?]] Ho]. by split. }
  unfold counted_state in Hs. destruct (v1_state (p1_validator p)) eqn:HS; try done;
    try (apply bind_Done in H as ([sh1 cb1] & H & [= <- <-]); eapply decided; [| |done]; [done|];
         by (apply fast_callback_ok || apply slow_callback_ok));
    try (eapply tentative_spec; [by apply Hi| |done]; destruct Hs as [_ Hs]; unfold open_state in Hs; by rewrite HS in Hs).
  - apply bind_Done in H as (? & _ & H). apply bind_Done in H as ([sh1 cb1] & H & [= <- <-]).
    eapply decided; [| |done]; [done|by apply fast_callback_ok].
  - injection H as <- <-. apply stored; [by apply Hi|done].
Qed.

Lemma ProcessP1R_spec reply sh sh' cb p :
  sh_pendingPhase1s sh !! p1r_req_id reply = Some p → p1_inv (sh_group sh) p →
  proper_vote (sh_group sh) (p1r_vote reply) → ProcessP1R reply sh = Done (sh', cb) →
  p1_result (p1r_req_id reply) p sh sh' cb.
Proof.
  intros Hp Hi Hv. unfold ShardClient.ProcessP1R. rewrite Hp. intros H.
  apply bind_Done in H as (r & Hr & H). apply vote_of_spec in Hr; [|done..].
  destruct r as [p1|[[p1 cc] signed]]; [destruct Hr as [Hi1 Ht]; injection H as <- <-; by apply stored|].
  destruct Hr as (Hi1 & Ht & Hc). apply bind_Done in H as ([v b] & Hm & H).
  apply bind_Done in H as (u & ->%uw_assert_Done & H). destruct Hi1 as [Hb Hrange Hst Htimer].
  assert (counted_in (p1_validator p1)) as Hin.
  { pose proof (pb_commits _ _ Hb). pose proof (pb_abstains _ _ Hb). unfold counted_in. lia. }
  apply ProcessMessage_spec in Hm as (Hd & Hvc & Hva & Hm); [|done|done]. cbn zeta in Hm.
  pose proof (with_vote_base _ reply _ _ v _ Hb Hc Hd Hvc Hva) as Hb'. cbn zeta in H.
  change (p1_add_conflict _ _) with (with_vote reply cc signed v p1) in H.
  assert (p1_validator (with_vote reply cc signed v p1) = v) as HV by (by destruct signed).
  assert (p1_txnId (with_vote reply cc signed v p1) = p1_txnId p) as HT by (by destruct signed).
  assert (p1_timer (with_vote reply cc signed v p1) = p1_timer p1) as HTm by (by destruct signed).
  assert (p1_txn p1 = world (p1_txnId p)) as HW by (rewrite (proj1 (pb_world _ _ Hb)); by f_equal).
  set (pv := with_vote reply cc signed v p1) in *. clearbody pv. subst v.
  destruct (bool_decide (cc_ccr (cc_vote cc) = ABORT)) eqn:Hab.
  - apply bool_decide_eq_true in Hab. rewrite Hab in Hm. destruct Hm as [Hs Hconf]. unfold act_on_state in H. rewrite Hs in H.
    apply bind_Done in H as ([sh1 cb1] & H & [= <- <-]). eapply decided; [| |done]; [done|].
    eexists. split; [done|]. unfold valid_conflict. cbn. by rewrite HT, <- HW.
  - apply bool_decide_eq_false in Hab. apply act_on_state_spec in H; [unfold p1_result in *; by rewrite HT in H|done| |].
    + destruct (cc_ccr (cc_vote cc)); done || congruence.
    + rewrite HTm. intros dec Hdec. specialize (Htimer dec Hdec). unfold supports, counts in *.
      destruct dec; repeat case_bool_decide; lia.
Qed.

(** ** The logged decisions of one group *)

Implicit Types (d : P2Msg) (dec : CommitDecision) (view : Z).
Definition p2_cert g q dec view l : Prop :=
  NoDup (pids l) ∧
  ∀ sig, sig ∈ l → Verify (sig_process_id sig) (ser_p2 (mkP2Msg dec view g (dig q))) (sig_bytes sig) = true.
Record p2_inv g (p : PendingPhase2) : Prop := {
  qi_cert view vw dec l : p2_manage p !! view = Some vw → v2_decision_sigs vw !! dec = Some l →
    p2_cert g (p2_txnId p) dec view l ∧ pids l ⊆ v2_replicasVerified vw ∧ Z.of_nat (length l) < 4 * f + 1
}.
Lemma p2_inv_new g q dec : p2_inv g (mkPP2 q dec 0 ∅).
Proof. split. intros view vw dec' l Hvw. cbn in Hvw. by rewrite lookup_empty in Hvw. Qed.

(** A reply names the group and the transaction, and is serialized as the
    replicas do. *)
Definition proper_decision g q (v : P2Vote) : Prop :=
  ∀ sm d, v = SignedDecision sm → parse_p2 (sm_data sm) = Some d →
    sm_data sm = ser_p2 d ∧ p2_involved_group d = g ∧ p2_txn_digest d = dig q.

Definition cb2_ok g (cb : P2Callback) : Prop :=
  p2_cert g (cb2_txnId cb) (cb2_decision cb) (cb2_view cb) (cb2_sigs cb) ∧
  Z.of_nat (length (cb2_sigs cb)) = 4 * f + 1.
Definition p2_result (reqId : Z) (p : PendingPhase2) sh sh' (cb : option P2Callback) : Prop :=
  sh_group sh' = sh_group sh ∧ sh_pendingPhase1s sh' = sh_pendingPhase1s sh ∧
  match cb with
  | None => ∃ p' : PendingPhase2, p2_inv (sh_group sh) p' ∧ p2_txnId p' = p2_txnId p ∧
                  sh_pendingPhase2s sh' = <[reqId := p']> (sh_pendingPhase2s sh)
  | Some cb => cb2_txnId cb = p2_txnId p ∧ cb2_ok (sh_group sh) cb ∧
               sh_pendingPhase2s sh' = delete reqId (sh_pendingPhase2s sh)
  end.

(** Storing a view of the pending request. *)
Lemma p2_inv_insert g (p : PendingPhase2) view vw own k :
  p2_inv g p →
  (∀ dec l, v2_decision_sigs vw !! dec = Some l →
    p2_cert g (p2_txnId p) dec view l ∧ pids l ⊆ v2_replicasVerified vw ∧ Z.of_nat (length l) < 4 * f + 1) →
  p2_inv g (mkPP2 (p2_txnId p) own k (<[view := vw]> (p2_manage p))).
Proof.
  intros [Hi] Hvw. split. cbn. intros view' vw' dec l Hl Hd. destruct (decide (view' = view)) as [->|Hne].
  - rewrite lookup_insert_eq in Hl. injection Hl as <-. by apply Hvw.
  - rewrite lookup_insert_ne in Hl by done. by eapply Hi.
Qed.
(** The view as it is, empty when new. *)
Lemma p2_inv_view g (p : PendingPhase2) view dec l :
  p2_inv g p → let vw := default (mkView2 [] ∅) (p2_manage p !! view) in
  v2_decision_sigs vw !! dec = Some l →
  p2_cert g (p2_txnId p) dec view l ∧ pids l ⊆ v2_replicasVerified vw ∧ Z.of_nat (length l) < 4 * f + 1.
Proof.
  intros [Hi]. destruct (p2_manage p !! view) as [vw|] eqn:Hv; cbn; [by apply Hi|]. by rewrite lookup_empty.
Qed.
Lemma p2_cert_snoc g q dec view l pid s :
  p2_cert g q dec view l → pid ∉ pids l → Verify pid (ser_p2 (mkP2Msg dec view g (dig q))) s = true →
  p2_cert g q dec view (l ++ [mkSig pid s]).
Proof.
  intros [Hnd Hl] Hp Hv. split.
  - unfold pids. rewrite fmap_app. apply NoDup_app. split_and!; [done| |cbn; apply NoDup_singleton].
    intros x Hx Hin. cbn in Hin. apply list_elem_of_singleton in Hin as ->. by apply Hp.
  - intros sig [Hin|Hin]%elem_of_app; [by apply Hl|]. by apply list_elem_of_singleton in Hin as ->.
Qed.

Lemma ReceivePhase2Reply_spec reply sh sh' cb (p : PendingPhase2) :
  sh_pendingPhase2s sh !! p2r_req_id reply = Some p → p2_inv (sh_group sh) p →
  proper_decision (sh_group sh) (p2_txnId p) (p2r_vote reply) →
  ReceivePhase2Reply config Verify parse_p2 true true reply sh = Done (sh', cb) →
  p2_result (p2r_req_id reply) p sh sh' cb ∨ sh' = sh ∧ cb = None.
Proof.
  intros Hp Hi Hv. unfold ReceivePhase2Reply, HandlePhase2Reply_MultiView. cbn [andb negb]. rewrite Hp. intros H.
  destruct (p2r_vote reply) as [| |sm] eqn:Hvote; [injection H as <- <-; by right|injection H as <- <-; by right|].
  destruct (IsReplicaInGroup config (sm_process_id sm) (sh_group sh)); [cbn [negb] in H|injection H as <- <-; by right].
  destruct (Verify _ _ _) eqn:Hver; cbn [negb] in H; [|injection H as <- <-; by right].
  destruct (parse_p2 (sm_data sm)) as [d|] eqn:Hparse; [|injection H as <- <-; by right].
  destruct (Hv sm d eq_refl Hparse) as (Hd & Hg & Hq). rewrite Hd in Hver. clear Hd Hparse. left.
  destruct d as [dec view g dg]. cbn in *. subst g dg. rewrite p2_quorum_value in H by done.
  pose proof (p2_inv_view _ _ view dec (default [] (v2_decision_sigs (default (mkView2 [] ∅) (p2_manage p !! view)) !! dec)) Hi)
    as Hl. pose proof (λ dec' l, p2_inv_view _ _ view dec' l Hi) as Hvw. cbn zeta in Hl, Hvw.
  set (vw := default (mkView2 [] ∅) (p2_manage p !! view)) in *. clearbody vw.
  case_bool_decide as Hseen.
  { injection H as <- <-. split_and!; [done..|]. eexists. split_and!; [by apply p2_inv_insert|done|done]. }
  set (old := default [] (v2_decision_sigs vw !! dec)) in *.
  assert (p2_cert (sh_group sh) (p2_txnId p) dec view old ∧ pids old ⊆ v2_replicasVerified vw ∧ Z.of_nat (length old) < 4 * f + 1)
    as (Hcert & Hsub & Hlen).
  { unfold old in *. destruct (v2_decision_sigs vw !! dec); [by apply Hl|]. split_and!; [split; [constructor|set_solver]|set_solver|cbn; lia]. }
  clearbody old. clear Hl.
  assert (p2_cert (sh_group sh) (p2_txnId p) dec view (old ++ [mkSig (sm_process_id sm) (sm_signature sm)])) as Hnew
    by (apply p2_cert_snoc; [done|by intros ?%Hsub|done]).
  assert (length (old ++ [mkSig (sm_process_id sm) (sm_signature sm)]) = S (length old)) as Hsnoc
    by (rewrite length_app; cbn; lia).
  rewrite Hsnoc, Z.geb_leb in H. destruct (_ <=? _) eqn:Hquo; injection H as <- <-; split_and!; try done.
  - unfold cb2_ok. cbn. rewrite Hsnoc. split; [done|]. apply Z.leb_le in Hquo. lia.
  - eexists. split_and!; [apply p2_inv_insert; [done|]|done|done]. cbn. intros dec' l Hd'.
    destruct (decide (dec' = dec)) as [->|Hne].
    + rewrite lookup_insert_eq in Hd'. injection Hd' as <-. split_and!; [done| |rewrite Hsnoc; apply Z.leb_gt in Hquo; lia].
      unfold pids. rewrite fmap_app. cbn. set_solver.
    + rewrite lookup_insert_ne in Hd' by done. destruct (Hvw dec' l Hd') as (? & ? & ?). split_and!; [done|set_solver|done].
Qed.

(** ** The client *)

Implicit Types (c : Client) (r : PendingRequest) (started : gset Z) (shards : gmap Z Shard).
Definition groups_of q : list Z := involved_groups (world q).

(** What a replica that holds the transaction checks. *)
Definition out_ok (o : Out) : Prop :=
  match o with
  | SendPhase2 q g dec sigs =>
      GetLogGroup (groups_of q) (dig q) = Done g ∧
      ∀ my myResult, own_vote dec my myResult sigs →
        ValidateP1Replies config ser_cc Verify dec false (groups_of q) (dig q) sigs my myResult = true
  | SendWriteback q wb =>
      wb_txn_digest wb = Some (dig q) ∧
      match wb_reply wb with
      | WbP1 sigs => ∀ my myResult, own_vote (wb_decision wb) my myResult sigs →
          ValidateP1Replies config ser_cc Verify (wb_decision wb) true (groups_of q) (dig q) sigs my myResult = true
      | WbP2 sigs => ∃ view, wb_p2_view wb = Some view ∧ ∀ my myDecision,
          (∀ g l, (g, l) ∈ sigs → own_matches my (bool_decide (wb_decision wb = myDecision)) l) →
          ValidateP2Replies config ser_p2 Verify (wb_decision wb) view (groups_of q) (dig q) sigs my myDecision = Done true
      | WbConflict x => wb_decision wb = DABORT ∧ valid_conflict q x
      | WbNone => False
      end
  end.

(** A group that has not answered, a decision being logged. *)
Definition has_p1 sh q : Prop := ∃ rid p, sh_pendingPhase1s sh !! rid = Some p ∧ p1_txnId p = q.
Definition has_p2 sh q : Prop := ∃ rid (p : PendingPhase2), sh_pendingPhase2s sh !! rid = Some p ∧ p2_txnId p = q.
Definition waiting shards g q : Prop := ∃ sh, shards !! g = Some sh ∧ has_p1 sh q.
Definition logging shards q : Prop := ∃ g sh, shards !! g = Some sh ∧ has_p2 sh q.

Record shard_inv started g sh : Prop := {
  si_group : sh_group sh = g;
  si_p1 rid p : sh_pendingPhase1s sh !! rid = Some p →
    p1_inv g p ∧ p1_txnId p ∈ started ∧ g ∈ groups_of (p1_txnId p);
  si_one rid rid' p p' : sh_pendingPhase1s sh !! rid = Some p → sh_pendingPhase1s sh !! rid' = Some p' →
    p1_txnId p = p1_txnId p' → rid = rid';
  si_p2 rid (p : PendingPhase2) : sh_pendingPhase2s sh !! rid = Some p →
    p2_inv g p ∧ p2_txnId p ∈ started ∧ GetLogGroup (groups_of (p2_txnId p)) (dig (p2_txnId p)) = Done g
}.

(** A request that collects the votes of its groups. *)
Record collecting shards q r : Prop := {
  co_decision : rq_decision r = DCOMMIT;
  co_cert g l : rq_p1ReplySigsGrouped r !! g = Some l →
    g ∈ groups_of q ∧ cert g (dig q) COMMIT l ∧ 3 * f + 1 ≤ Z.of_nat (length l) ∧
    (rq_fast r = true → Z.of_nat (length l) = 5 * f + 1);
  co_outstanding :
    rq_outstandingPhase1s r = Z.of_nat (size ((list_to_set (groups_of q) : gset Z) ∖ dom (rq_p1ReplySigsGrouped r)));
  co_waiting g : waiting shards g q → rq_p1ReplySigsGrouped r !! g = None;
  co_logging : ~ logging shards q
}.
(** The votes for a decision that is being logged. *)
Definition logs q r : Prop :=
  let sigs := map_to_list (rq_p1ReplySigsGrouped r) in
  ∀ my myResult, own_vote (rq_decision r) my myResult sigs →
    ValidateP1Replies config ser_cc Verify (rq_decision r) false (groups_of q) (dig q) sigs my myResult = true.
Record req_inv shards q r : Prop := {
  ri_world : rq_txn r = world q ∧ rq_txnDigest r = dig q;
  ri_flag : rq_conflict_flag r = false;
  ri_p2 : rq_p2ReplySigsGrouped r = ∅;
  ri_collecting : rq_startedPhase2 r = false → collecting shards q r;
  ri_started : rq_startedPhase2 r = true →
    rq_fast r = false ∧ Phase2Processing config true true r = Done r ∧ logs q r
}.
(** All requests but [skip], which a callback is changing. *)
Record client_inv (skip : option Z) started c : Prop := {
  ci_shard g sh : cl_shards c !! g = Some sh → shard_inv started g sh;
  ci_req q r : skip ≠ Some q → cl_pendingReqs c !! q = Some r → q ∈ started ∧ req_inv (cl_shards c) q r;
  ci_sent o : o ∈ cl_sent c → out_ok o
}.

Lemma req_inv_mono shards shards' q r :
  (∀ g, waiting shards' g q → waiting shards g q) → (logging shards' q → logging shards q) →
  req_inv shards q r → req_inv shards' q r.
Proof.
  intros Hw Hl [? ? ? Hc ?]. split; try done. intros Hs. destruct (Hc Hs) as [? ? ? Hwait Hlog]. split; try done.
  - intros g Hg. by apply Hwait, Hw.
  - intros Hlg. by apply Hlog, Hl.
Qed.

(** A shard that only loses pending requests. *)
Lemma client_inv_shard skip started c g sh sh' :
  client_inv skip started c → cl_shards c !! g = Some sh → shard_inv started g sh' →
  (∀ q, has_p1 sh' q → has_p1 sh q) → (∀ q, has_p2 sh' q → has_p2 sh q) →
  client_inv skip started (upd_shards (<[g := sh']>) c).
Proof.
  intros [Hs Hr Ho] Hg Hi H1 H2. split; cbn; [| |done].
  - intros g' x. destruct (decide (g' = g)) as [->|Hne]; [rewrite lookup_insert_eq; by intros [= <-]|].
    rewrite lookup_insert_ne by done. apply Hs.
  - intros q r Hk Hq. destruct (Hr q r Hk Hq) as [Hst Hq']. split; [done|]. revert Hq'. apply req_inv_mono.
    + intros g' (x & Hx & Hp). destruct (decide (g' = g)) as [->|Hne].
      * rewrite lookup_insert_eq in Hx. injection Hx as <-. exists sh. eauto.
      * rewrite lookup_insert_ne in Hx by done. by exists x.
    + intros (g' & x & Hx & Hp). destruct (decide (g' = g)) as [->|Hne].
      * rewrite lookup_insert_eq in Hx. injection Hx as <-. exists g, sh. eauto.
      * rewrite lookup_insert_ne in Hx by done. by exists g', x.
Qed.

Lemma shard_sub started g sh sh' :
  shard_inv started g sh → sh_group sh' = sh_group sh → sh_pendingPhase1s sh' ⊆ sh_pendingPhase1s sh →
  sh_pendingPhase2s sh' ⊆ sh_pendingPhase2s sh →
  shard_inv started g sh' ∧ (∀ q, has_p1 sh' q → has_p1 sh q) ∧ (∀ q, has_p2 sh' q → has_p2 sh q).
Proof.
  intros [Hg H1 Hone H2] Hg' Hs1 Hs2.
  pose proof (λ rid p (H : sh_pendingPhase1s sh' !! rid = Some p), lookup_weaken _ _ _ _ H Hs1) as E1.
  pose proof (λ rid (p : PendingPhase2) (H : sh_pendingPhase2s sh' !! rid = Some p), lookup_weaken _ _ _ _ H Hs2) as E2.
  split_and!; [split; [congruence|eauto|eauto|eauto]| |].
  - intros q (rid & p & Hp & Hq). exists rid, p. eauto.
  - intros q (rid & p & Hp & Hq). exists rid, p. eauto.
Qed.
Lemma p1_shard_step started g sh sh' rid p cb :
  shard_inv started g sh → sh_pendingPhase1s sh !! rid = Some p → p1_result rid p sh sh' cb →
  shard_inv started g sh' ∧ (∀ q, has_p1 sh' q → has_p1 sh q) ∧ (∀ q, has_p2 sh' q → has_p2 sh q) ∧
  (cb ≠ None → ~ has_p1 sh' (p1_txnId p)).
Proof.
  intros Hsh Hp (Hg' & _ & E2 & Hcb). destruct cb as [cb|].
  { destruct Hcb as (_ & _ & E1). destruct (shard_sub started g sh sh') as (? & ? & ?); [done|done| |by rewrite E2|].
    { rewrite E1. apply delete_subseteq. }
    split_and!; [done..|]. intros _ (rid' & p' & Hl & Hq). rewrite E1 in Hl. apply lookup_delete_Some in Hl as [Hne Hl].
    apply Hne. eapply (si_one _ _ _ Hsh); [exact Hp|exact Hl|done]. }
  destruct Hsh as [Hg H1 Hone H2]. rewrite Hg in *. destruct (H1 _ _ Hp) as (_ & Hst & Hgrp).
  unfold has_p1, has_p2. rewrite E2.
  - destruct Hcb as (p' & Hi & Ht & E1). rewrite E1. split_and!; [split; rewrite ?E1, ?E2; try done| |done|done].
    + intros rid' x. rewrite lookup_insert_Some. intros [[_ <-]|[_ ?]]; [by rewrite Ht|eauto].
    + intros rid1 rid2 p1 p2. rewrite !lookup_insert_Some.
      intros [[<- <-]|[? ?]] [[<- <-]|[? ?]] Hq; rewrite ?Ht in Hq; eauto.
    + intros q (rid' & x & Hl & Hq). apply lookup_insert_Some in Hl as [[<- <-]|[_ ?]].
      * exists rid, p. by rewrite Ht in Hq.
      * by exists rid', x.
Qed.
Lemma p2_shard_step started g sh sh' rid (p : PendingPhase2) cb :
  shard_inv started g sh → sh_pendingPhase2s sh !! rid = Some p → p2_result rid p sh sh' cb →
  shard_inv started g sh' ∧ (∀ q, has_p1 sh' q → has_p1 sh q) ∧ (∀ q, has_p2 sh' q → has_p2 sh q).
Proof.
  intros Hsh Hp (Hg' & E1 & Hcb). destruct cb as [cb|].
  { destruct Hcb as (_ & _ & E2). apply shard_sub; [done|done|by rewrite E1|]. rewrite E2. apply delete_subseteq. }
  destruct Hsh as [Hg H1 Hone H2]. rewrite Hg in *. destruct (H2 _ _ Hp) as (_ & Hst & Hlog).
  unfold has_p1, has_p2. rewrite E1.
  - destruct Hcb as (p' & Hi & Ht & E2). rewrite E2. split_and!; [split; rewrite ?E1, ?E2; try done|done|].
    + intros rid' x. rewrite lookup_insert_Some. intros [[_ <-]|[_ ?]]; [by rewrite Ht|eauto].
    + intros q (rid' & x & Hl & Hq). apply lookup_insert_Some in Hl as [[<- <-]|[_ ?]].
      * exists rid, p. by rewrite Ht in Hq.
      * by exists rid', x.
Qed.

(** *** What is sent *)

Lemma p1_quorum_range dec fast : 0 ≤ p1_quorum config dec fast < 2^32.
Proof. rewrite p1_quorum_size. destruct dec, fast; lia. Qed.

Lemma Writeback_inv skip started c q r c' :
  client_inv skip started c → skip = None ∨ skip = Some q →
  (∀ wb, WritebackProcessing config true true r = Done wb → out_ok (SendWriteback q wb)) →
  Client_Writeback config true true q r c = Done c' → client_inv None started c'.
Proof.
  intros [Hs Hr Ho] Hskip Hwb H. unfold Client_Writeback in H. apply bind_Done in H as (wb & Hp & [= <-]). split; cbn.
  - done.
  - intros q' r' _ Hq. apply lookup_delete_Some in Hq as [Hne Hq]. apply Hr; [|done]. destruct Hskip; congruence.
  - intros o [Hin| ->%list_elem_of_singleton]%elem_of_app; [by apply Ho|]. by apply Hwb.
Qed.

Lemma Phase2_shard started g sh q dec :
  shard_inv started g sh → q ∈ started → GetLogGroup (groups_of q) (dig q) = Done g →
  shard_inv started g (ShardClient_Phase2 q dec sh).
Proof.
  intros [Hg H1 Hone H2] Hq Hl. split; try done. cbn. intros rid p Hp.
  apply lookup_insert_Some in Hp as [[_ <-]|[_ Hp]]; [|by eapply H2]. cbn. split_and!; [apply p2_inv_new|done|done].
Qed.
(** Phase 2 may be asked for again. *)
Lemma Phase2Processing_again r r' :
  Phase2Processing config true true r = Done r' →
  Phase2Processing config true true r' = Done r' ∧
  (rq_txn r', rq_txnDigest r', rq_decision r', rq_conflict_flag r', rq_p2ReplySigsGrouped r', rq_fast r', rq_startedPhase2 r') =
    (rq_txn r, rq_txnDigest r, rq_decision r, rq_conflict_flag r, rq_p2ReplySigsGrouped r, rq_fast r, true).
Proof.
  assert (∀ k m, trim k (trim k m) = trim k m) as Htrim.
  { intros k m. unfold trim. rewrite <- map_fmap_compose. apply map_fmap_ext. intros g l _. cbn. rewrite take_take. f_equal. lia. }
  assert (∀ k g m, only_group g (trim k (only_group g m)) = trim k (only_group g m)) as Hgrp.
  { intros k g m. apply map_filter_id. intros g' l Hl. unfold trim in Hl. rewrite lookup_fmap, fmap_Some in Hl.
    destruct Hl as (l' & Hl & _). unfold only_group in Hl. apply map_lookup_filter_Some in Hl as [_ Hl]. done. }
  intros H. unfold Phase2Processing in H. cbn [andb] in H. apply bind_Done in H as (m & Hm & [= <-]). split; [|done].
  unfold Phase2Processing. cbn [andb rq_decision rq_slowAbortGroup rq_p1ReplySigsGrouped].
  apply bind_Done in Hm as (m' & Hm & [= <-]). destruct (rq_decision r) eqn:Hd.
  - injection Hm as <-. cbn. by rewrite Htrim.
  - apply bind_Done in Hm as (u & Hs & Hm). apply bind_Done in Hm as (u' & Hh & [= <-]). rewrite Hs. cbn [mbind outcome_bind].
    apply uw_assert_Done, bool_decide_eq_true in Hh as [l Hl]. unfold has_group. rewrite bool_decide_eq_true_2.
    + cbn. by rewrite Hgrp, Htrim.
    + unfold trim. rewrite lookup_fmap. unfold only_group. apply fmap_is_Some. exists l. by apply map_lookup_filter_Some.
Qed.
Lemma Phase2_inv started c q r c' :
  client_inv (Some q) started c → q ∈ started → rq_txn r = world q ∧ rq_txnDigest r = dig q →
  rq_conflict_flag r = false → rq_p2ReplySigsGrouped r = ∅ → rq_fast r = false →
  (∀ r', Phase2Processing config true true r = Done r' → logs q r') →
  Client_Phase2 config true true q r c = Done c' → client_inv None started c'.
Proof.
  intros [Hs Hr Ho] Hq [Ht Hd] Hflag Hp2 Hfast Hcert H. unfold Client_Phase2 in H. rewrite Ht, Hd in H.
  apply bind_Done in H as (lg & Hlg & H). apply bind_Done in H as (r' & Hp & H).
  specialize (Hcert r' Hp). apply Phase2Processing_again in Hp as [Hagain [= ET ED EC EF EP EFA ES]].
  destruct (cl_shards c !! lg) as [sh|] eqn:Hsh; [|done]. injection H as <-. split; cbn.
  - intros g x. rewrite lookup_insert_Some. intros [[<- <-]|[_ Hx]]; [|by apply Hs].
    apply Phase2_shard; [by apply Hs|done|done].
  - intros q' x _. rewrite lookup_insert_Some. intros [[<- <-]|[Hne Hx]].
    { split; [done|]. split; [split; congruence|congruence|congruence|by rewrite ES|]. intros _. split_and!; [congruence|done|done]. }
    destruct (Hr q' x) as [Hst Hi]; [congruence|done|]. split; [done|]. revert Hi. apply req_inv_mono.
    + intros g (y & Hy & Hw). apply lookup_insert_Some in Hy as [[<- <-]|[_ Hy]]; [by exists sh|by exists y].
    + intros (g & y & Hy & Hw). apply lookup_insert_Some in Hy as [[<- <-]|[_ Hy]]; [|by exists g, y].
      destruct Hw as (rid & p & Hw & Hid). cbn in Hw. apply lookup_insert_Some in Hw as [[_ <-]|[_ Hw]]; [done|].
      exists lg, sh. split; [done|]. by exists rid, p.
  - intros o [Hin| ->%list_elem_of_singleton]%elem_of_app; [by apply Ho|]. by split.
Qed.

(** *** The certificates of a request *)

Implicit Types (m : gmap Z (list Signature)).
Lemma trimmed_full dec fast q m :
  (∀ g l, m !! g = Some l → cert g (dig q) (p1_vote dec) l ∧ p1_quorum config dec fast ≤ Z.of_nat (length l)) →
  Forall (full config ser_cc Verify dec fast (dig q)) (map_to_list (trim (p1_quorum config dec fast) m)).
Proof.
  intros Hm. apply Forall_forall. intros [g l] Hin. apply elem_of_map_to_list in Hin. unfold trim in Hin.
  rewrite lookup_fmap, fmap_Some in Hin. destruct Hin as (l' & Hl & ->). destruct (Hm g l' Hl) as [Hc Hlen].
  pose proof (p1_quorum_range dec fast). split; cbn; [by apply cert_take|]. rewrite length_take. lia.
Qed.
Lemma trimmed_keys k m g : g ∈ (map_to_list (trim k m)).*1 ↔ is_Some (m !! g).
Proof.
  split.
  - intros ([g' l] & -> & Hin%elem_of_map_to_list)%list_elem_of_fmap. unfold trim in Hin. cbn.
    rewrite lookup_fmap, fmap_Some in Hin. destruct Hin as (l' & -> & _). done.
  - intros [l Hl]. apply list_elem_of_fmap. exists (g, take (Z.to_nat k) l). split; [done|].
    apply elem_of_map_to_list. unfold trim. by rewrite lookup_fmap, Hl.
Qed.
Lemma only_group_lookup g m g' l : only_group g m !! g' = Some l → g' = g ∧ m !! g = Some l.
Proof. unfold only_group. rewrite map_lookup_filter_Some. cbn. by intros [? ->]. Qed.

(** One group's ABSTAIN votes are an ABORT certificate. *)
Lemma abort_accepted fast q g m l my myResult :
  m !! g = Some l → cert g (dig q) ABSTAIN l → p1_quorum config DABORT fast ≤ Z.of_nat (length l) →
  let sigs := map_to_list (trim (p1_quorum config DABORT fast) (only_group g m)) in
  own_vote DABORT my myResult sigs →
  ValidateP1Replies config ser_cc Verify DABORT fast (groups_of q) (dig q) sigs my myResult = true.
Proof.
  intros Hl Hc Hlen sigs Hown. apply ValidateP1Replies_accept; [apply p1_quorum_range| |done|done].
  apply trimmed_full. intros g' l' [-> Hl']%only_group_lookup. rewrite Hl in Hl'. by injection Hl' as <-.
Qed.

(** All groups have answered. *)
Lemma all_answered shards q r g :
  collecting shards q r → rq_outstandingPhase1s r = 0 → g ∈ groups_of q → is_Some (rq_p1ReplySigsGrouped r !! g).
Proof.
  intros Hc H0 Hg. rewrite (co_outstanding _ _ _ Hc) in H0. apply elem_of_dom, dec_stable. intros Hn.
  assert (g ∈ (list_to_set (groups_of q) : gset Z) ∖ dom (rq_p1ReplySigsGrouped r)) as Hin by set_solver.
  apply (f_equal Z.to_nat) in H0. rewrite Nat2Z.id in H0. apply size_empty_inv in H0. set_solver.
Qed.
Lemma commit_votes_accepted shards q r my myResult :
  collecting shards q r → rq_outstandingPhase1s r = 0 →
  let sigs := map_to_list (trim (p1_quorum config DCOMMIT false) (rq_p1ReplySigsGrouped r)) in
  own_vote DCOMMIT my myResult sigs →
  ValidateP1Replies config ser_cc Verify DCOMMIT false (groups_of q) (dig q) sigs my myResult = true.
Proof.
  intros Hc H0 sigs Hown. apply ValidateP1Replies_accept; [apply p1_quorum_range| | |done].
  - apply trimmed_full. intros g l Hl. destruct (co_cert _ _ _ Hc g l Hl) as (_ & ? & ? & _). split; [done|].
    by rewrite p1_quorum_size.
  - intros _ g Hg. apply trimmed_keys. by eapply all_answered.
Qed.
Lemma commit_fast shards q r my myResult :
  collecting shards q r → rq_outstandingPhase1s r = 0 → rq_fast r = true →
  let sigs := map_to_list (rq_p1ReplySigsGrouped r) in own_vote DCOMMIT my myResult sigs →
  ValidateP1Replies config ser_cc Verify DCOMMIT true (groups_of q) (dig q) sigs my myResult = true.
Proof.
  intros Hc H0 Hf sigs Hown. apply ValidateP1Replies_accept; [apply p1_quorum_range| | |done].
  - apply Forall_forall. intros [g l] Hl%elem_of_map_to_list. destruct (co_cert _ _ _ Hc g l Hl) as (_ & ? & _ & Hlen).
    split; [done|]. cbn. rewrite p1_quorum_size. by apply Hlen.
  - intros _ g Hg. destruct (all_answered _ _ _ g Hc H0 Hg) as [l Hl]. apply list_elem_of_fmap. exists (g, l).
    split; [done|by apply elem_of_map_to_list].
Qed.

(** *** The callbacks *)

Lemma client_inv_skip started c q : client_inv None started c → client_inv (Some q) started c.
Proof. intros [? Hr ?]. split; try done. intros q' r _. by apply Hr. Qed.
Lemma client_inv_store started c q r :
  client_inv (Some q) started c → client_inv (Some q) started (upd_reqs (<[q := r]>) c).
Proof.
  intros [? Hr ?]. split; try done. cbn. intros q' r' Hne. rewrite lookup_insert_ne by congruence. by apply Hr.
Qed.
Lemma client_inv_stored started c q r :
  client_inv (Some q) started c → q ∈ started → req_inv (cl_shards c) q r →
  client_inv None started (upd_reqs (<[q := r]>) c).
Proof.
  intros [? Hr ?] Hq Hi. split; try done. cbn. intros q' r' _. rewrite lookup_insert_Some.
  intros [[<- <-]|[Hne Hq']]; [done|]. apply Hr; [congruence|done].
Qed.

(** The votes of one more group. *)
Lemma collecting_answer shards q r g l fast x y :
  collecting shards q r → g ∈ groups_of q → rq_p1ReplySigsGrouped r !! g = None → ~ waiting shards g q →
  cert g (dig q) COMMIT l → 3 * f + 1 ≤ Z.of_nat (length l) → (fast = true → Z.of_nat (length l) = 5 * f + 1) →
  collecting shards q
    (mkReq (rq_outstandingPhase1s r - 1) (rq_decision r) (rq_decision_view r) (rq_fast r && fast) false
       (rq_conflict r) (rq_startedPhase2 r) (<[g := l]> (rq_p1ReplySigsGrouped r)) (rq_p2ReplySigsGrouped r)
       (rq_txn r) (rq_txnDigest r) x y).
Proof.
  intros [Hd Hc Ho Hw Hl] Hg Hnone Hnw Hcert Hlen Hfast. split; cbn; try done.
  - intros g' l'. rewrite lookup_insert_Some. intros [[<- <-]|[_ Hl']].
    + split_and!; try done. intros [_ ?]%andb_true_iff. by apply Hfast.
    + destruct (Hc g' l' Hl') as (? & ? & ? & Hf). split_and!; try done. intros [? _]%andb_true_iff. by apply Hf.
  - rewrite Ho, dom_insert_L.
    replace (_ ∖ ({[g]} ∪ _)) with (((list_to_set (groups_of q) : gset Z) ∖ dom (rq_p1ReplySigsGrouped r)) ∖ {[g]}) by set_solver.
    rewrite (size_difference _ {[g]}), size_singleton.
    2: { apply singleton_subseteq_l, elem_of_difference. split; [by apply elem_of_list_to_set|]. by apply not_elem_of_dom. }
    assert (size ((list_to_set (groups_of q) : gset Z) ∖ dom (rq_p1ReplySigsGrouped r)) ≠ 0%nat); [|lia].
    intros He%size_empty_inv. apply (not_elem_of_empty (C := gset Z) g), He, elem_of_difference. split; [by apply elem_of_list_to_set|by apply not_elem_of_dom].
  - intros g' Hg'. destruct (decide (g' = g)) as [->|Hne]; [done|]. rewrite lookup_insert_ne by done. by apply Hw.
Qed.

Lemma has_group_lookup g m : has_group g m = true → is_Some (m !! g).
Proof. unfold has_group. apply bool_decide_eq_true. Qed.

(** A request all of whose groups voted COMMIT. *)
Lemma commit_inv started c q r c' :
  client_inv (Some q) started c → q ∈ started → req_inv (cl_shards c) q r → collecting (cl_shards c) q r →
  rq_outstandingPhase1s r = 0 →
  HandleAllPhase1Received config true true q r c = Done c' → client_inv None started c'.
Proof.
  intros Hi Hq [[Ht Hd] Hflag Hp2 _ _] Hc H0. unfold HandleAllPhase1Received. destruct (rq_fast r) eqn:Hfast.
  - apply (Writeback_inv (Some q)); [done|by right|]. intros wb Hwb. unfold WritebackProcessing in Hwb.
    rewrite (co_decision _ _ _ Hc), Hfast, Hflag in Hwb. cbn in Hwb. injection Hwb as <-. split; cbn; [by rewrite Hd|].
    intros my res. by eapply commit_fast.
  - apply Phase2_inv; try done. intros r' Hp. unfold Phase2Processing in Hp.
    rewrite (co_decision _ _ _ Hc) in *. cbn in Hp. injection Hp as <-. intros my res. cbn [rq_p1ReplySigsGrouped rq_decision].
    replace (SlowCommitQuorumSize config) with (p1_quorum config DCOMMIT false) by (by rewrite p1_quorum_size, slow_commit_size).
    by eapply commit_votes_accepted.
Qed.

Definition aborted (fast flag : bool) (conflict : option CommittedProof) m slow fst_ r : PendingRequest :=
  mkReq 0 DABORT (rq_decision_view r) fast flag conflict (rq_startedPhase2 r) m (rq_p2ReplySigsGrouped r)
    (rq_txn r) (rq_txnDigest r) slow fst_.
Lemma abort_conflict_inv started c q r x m slow fst_ shards c' :
  client_inv (Some q) started c → req_inv shards q r → valid_conflict q x →
  HandleAllPhase1Received config true true q (aborted true true (Some x) m slow fst_ r) c = Done c' →
  client_inv None started c'.
Proof.
  intros Hi [[Ht Hd] _ _ _ _] Hx. apply (Writeback_inv (Some q)); [done|by right|]. intros wb Hwb.
  unfold WritebackProcessing in Hwb. cbn in Hwb. injection Hwb as <-. split; cbn; [by rewrite Hd|done].
Qed.
Lemma abort_fast_inv started c q r g l conf slow shards c' :
  client_inv (Some q) started c → req_inv shards q r → cert g (dig q) ABSTAIN l → 3 * f + 1 ≤ Z.of_nat (length l) →
  HandleAllPhase1Received config true true q (aborted true false conf (<[g := l]> (rq_p1ReplySigsGrouped r)) slow g r) c
    = Done c' →
  client_inv None started c'.
Proof.
  intros Hi [[Ht Hd] _ _ _ _] Hc Hlen. apply (Writeback_inv (Some q)); [done|by right|]. intros wb Hwb.
  unfold WritebackProcessing in Hwb. cbn in Hwb. apply bind_Done in Hwb as (m & Hm & [= <-]).
  apply bind_Done in Hm as (u & _ & Hm). apply bind_Done in Hm as (u' & _ & [= <-]).
  split; cbn; [by rewrite Hd|]. intros my res.
  replace (FastAbortQuorumSize config) with (p1_quorum config DABORT true) by (by rewrite p1_quorum_size, fast_abort_size).
  eapply abort_accepted; [apply lookup_insert_eq|done|by rewrite p1_quorum_size].
Qed.
Lemma abort_slow_inv started c q r g l flag conf fst_ shards c' :
  client_inv (Some q) started c → q ∈ started → req_inv shards q r → flag = false →
  cert g (dig q) ABSTAIN l → f + 1 ≤ Z.of_nat (length l) →
  HandleAllPhase1Received config true true q (aborted false flag conf (<[g := l]> (rq_p1ReplySigsGrouped r)) g fst_ r) c
    = Done c' →
  client_inv None started c'.
Proof.
  intros Hi Hq [[Ht Hd] _ Hp2 _ _] -> Hc Hlen. apply Phase2_inv; try done. intros r' Hp.
  unfold Phase2Processing in Hp. cbn in Hp. apply bind_Done in Hp as (m & Hm & [= <-]).
  apply bind_Done in Hm as (m' & Hm & [= <-]). apply bind_Done in Hm as (u & _ & Hm).
  apply bind_Done in Hm as (u' & _ & [= <-]). intros my res. cbn [rq_p1ReplySigsGrouped rq_decision aborted].
  replace (SlowAbortQuorumSize config) with (p1_quorum config DABORT false) by (by rewrite p1_quorum_size, slow_abort_size).
  eapply abort_accepted; [apply lookup_insert_eq|done|by rewrite p1_quorum_size].
Qed.

(** After the answer of a group that voted COMMIT. *)
Lemma answered_inv started c q r r' c' :
  client_inv (Some q) started c → q ∈ started → req_inv (cl_shards c) q r → rq_startedPhase2 r' = false →
  (rq_txn r', rq_txnDigest r', rq_p2ReplySigsGrouped r', rq_conflict_flag r') =
    (rq_txn r, rq_txnDigest r, rq_p2ReplySigsGrouped r, false) →
  collecting (cl_shards c) q r' →
  (if rq_outstandingPhase1s r' =? 0 then HandleAllPhase1Received config true true q r' (upd_reqs (<[q := r']>) c)
   else Done (upd_reqs (<[q := r']>) c)) = Done c' →
  client_inv None started c'.
Proof.
  intros Hi Hq [Hw _ Hp2 _ _] Hs [= Ht Hd Hp Hf] Hc H.
  assert (req_inv (cl_shards c) q r') as Hr'.
  { split; [by rewrite Ht, Hd|done|by rewrite Hp|done|]. by rewrite Hs. }
  destruct (rq_outstandingPhase1s r' =? 0) eqn:H0.
  - eapply (commit_inv _ (upd_reqs (<[q := r']>) c)); [by apply client_inv_store|done|done|done|lia|done].
  - injection H as <-. by apply client_inv_stored.
Qed.

(** The group of the callback is one that had not answered. *)
Lemma Phase1Callback_inv started c g cb c' :
  let q := cb1_txnId cb in
  client_inv None started c → cb_ok g cb → q ∈ started → g ∈ groups_of q → ~ waiting (cl_shards c) g q →
  (∀ r, cl_pendingReqs c !! q = Some r → rq_startedPhase2 r = false → rq_p1ReplySigsGrouped r !! g = None) →
  Phase1Callback config true true g cb c = Done c' → client_inv None started c'.
Proof.
  intros q Hi Hcb Hq Hg Hnw Hnone H. unfold Phase1Callback in H. fold q in H.
  destruct (cl_pendingReqs c !! q) as [r|] eqn:Hr; [|by injection H as <-].
  destruct (rq_startedPhase2 r) eqn:Hs; [by injection H as <-|].
  destruct (ci_req _ _ _ Hi q r) as [_ Hri]; [done..|]. pose proof (ri_collecting _ _ _ Hri Hs) as Hc.
  specialize (Hnone r eq_refl Hs). apply bind_Done in H as (r' & Hp & H).
  apply (client_inv_skip _ _ q) in Hi. unfold Phase1CallbackProcessing, keep_sigs in Hp. cbn [andb negb] in Hp.
  unfold cb_ok in Hcb. fold q in Hcb.
  assert (rq_conflict_flag r = false) as Hflag by apply Hri.
  destruct (cb1_decision cb), (cb1_fast cb); [| |destruct (cb1_conflict_flag cb)|].
  - destruct Hcb as (l & Hl & Hcert & Hlen). rewrite Hl in Hp. injection Hp as <-.
    eapply answered_inv; [| | | | | |exact H]; try done; cbn; rewrite Hflag; [done|].
    eapply collecting_answer; try done. lia.
  - destruct Hcb as (l & Hl & Hcert & Hlen). rewrite Hl in Hp. injection Hp as <-.
    eapply answered_inv; [| | | | | |exact H]; try done; cbn; rewrite Hflag; [done|].
    by eapply (collecting_answer _ _ _ _ _ false).
  - destruct Hcb as (x & Hx & Hv). rewrite Hx in Hp. injection Hp as <-.
    eapply abort_conflict_inv; [| | |exact H]; [by apply client_inv_store|done|done].
  - destruct Hcb as (l & Hl & Hcert & Hlen). rewrite Hl in Hp. cbn in Hp. rewrite Hflag in Hp. injection Hp as <-.
    eapply abort_fast_inv; [| | | |exact H]; [by apply client_inv_store|done|done|done].
  - destruct Hcb as (l & Hl & Hcert & Hlen). rewrite Hl in Hp. cbn in Hp. rewrite Hflag, andb_false_r in Hp. injection Hp as <-.
    eapply abort_slow_inv; [| | | | | |exact H]; [by apply client_inv_store|done|done|done|done|done].
Qed.

Lemma p2_accepted g q dec view l my myDecision :
  p2_cert g q dec view l → Z.of_nat (length l) = 4 * f + 1 → GetLogGroup (groups_of q) (dig q) = Done g →
  own_matches my (bool_decide (dec = myDecision)) l →
  ValidateP2Replies config ser_p2 Verify dec view (groups_of q) (dig q) [(g, l)] my myDecision = Done true.
Proof.
  intros [Hnd Hv] Hlen Hlog Hown. unfold ValidateP2Replies. rewrite Hlog. cbn [mbind outcome_bind].
  rewrite p2_sigs_accept; [|done|set_solver|done|done|lia|lia]. rewrite p2_quorum_value by done. do 2 f_equal. lia.
Qed.
Lemma Phase2Callback_inv started c g cb c' :
  let q := cb2_txnId cb in
  client_inv None started c → cb2_ok g cb → GetLogGroup (groups_of q) (dig q) = Done g →
  (∀ r, cl_pendingReqs c !! q = Some r → rq_startedPhase2 r = true) →
  Phase2Callback config true true g cb c = Done c' → client_inv None started c'.
Proof.
  intros q Hi [Hcert Hlen] Hlog Hst H. unfold Phase2Callback in H. fold q in H, Hcert.
  destruct (cl_pendingReqs c !! q) as [r|] eqn:Hr; [|by injection H as <-].
  destruct (ci_req _ _ _ Hi q r) as [_ [[Ht Hd] Hflag Hp2 _ Hfast]]; [done..|]. destruct (Hfast (Hst r eq_refl)) as [Hfast' _]. clear Hfast. rename Hfast' into Hfast.
  revert H. apply (Writeback_inv None); [done|by left|]. intros wb Hwb. unfold WritebackProcessing in Hwb.
  cbn [rq_fast rq_decision rq_conflict_flag] in Hwb. rewrite Hfast, andb_false_r in Hwb. cbn in Hwb. injection Hwb as <-.
  split; cbn; [by rewrite Hd|]. eexists. split; [done|]. intros my dec Hown. rewrite Hp2, insert_empty, map_to_list_singleton in *.
  apply p2_accepted; try done. apply (Hown g). by left.
Qed.

Lemma Phase2TimeoutCallback_inv started c q c' :
  client_inv None started c → (∀ r, cl_pendingReqs c !! q = Some r → rq_startedPhase2 r = true) →
  Phase2TimeoutCallback config true true q c = Done c' → client_inv None started c'.
Proof.
  intros Hi Hst H. unfold Phase2TimeoutCallback in H.
  destruct (cl_pendingReqs c !! q) as [r|] eqn:Hr; [|by injection H as <-].
  destruct (ci_req _ _ _ Hi q r) as [Hq [Hw Hflag Hp2 _ Hs]]; [done..|].
  destruct (Hs (Hst r eq_refl)) as (Hfast & Hproc & Hlogs). revert H.
  apply Phase2_inv; try done; [by apply client_inv_skip|]. intros r' Hr'. rewrite Hproc in Hr'. by injection Hr' as <-.
Qed.

(** ** Starting a transaction *)

Lemma send_phase1_spec q txn (d : digest) groups r c r' c' :
  NoDup groups → send_phase1 q txn d groups r c = Done (r', c') →
  cl_pendingReqs c' = cl_pendingReqs c ∧ cl_sent c' = cl_sent c ∧
  r' = mkReq (rq_outstandingPhase1s r + Z.of_nat (length groups)) (rq_decision r) (rq_decision_view r) (rq_fast r)
         (rq_conflict_flag r) (rq_conflict r) (rq_startedPhase2 r) (rq_p1ReplySigsGrouped r) (rq_p2ReplySigsGrouped r)
         (rq_txn r) (rq_txnDigest r) (rq_slowAbortGroup r) (rq_fastAbortGroup r) ∧
  ∀ g sh', cl_shards c' !! g = Some sh' → ∃ sh, cl_shards c !! g = Some sh ∧
    sh' = if decide (g ∈ groups) then ShardClient_Phase1 q txn d sh else sh.
Proof.
  intros Hnd. revert r c. induction Hnd as [|g groups Hg Hnd IH]; intros r c; cbn [send_phase1].
  { intros [= <- <-]. split_and!; [done|done|cbn; rewrite Z.add_0_r; by destruct r|].
    intros g sh' Hs. exists sh'. by rewrite decide_False by set_solver. }
  destruct (cl_shards c !! g) as [sh|] eqn:Hsh; [|done]. intros (E1 & E2 & -> & Hs)%IH. cbn in *.
  split_and!; [done|done|f_equal; lia|]. intros g' sh' Hg'. apply Hs in Hg' as (x & Hx & ->).
  apply lookup_insert_Some in Hx as [[<- <-]|[Hne Hx]].
  - exists sh. split; [done|]. rewrite decide_False by done. by rewrite decide_True by set_solver.
  - exists x. split; [done|]. repeat case_decide; set_solver.
Qed.

Lemma ShardClient_Phase1_inv started g sh q :
  shard_inv started g sh → q ∉ started → g ∈ groups_of q →
  shard_inv ({[q]} ∪ started) g (ShardClient_Phase1 q (world q) (dig q) sh).
Proof.
  intros [Hg H1 Hone H2] Hq Hgq. split; [done| | |]; cbn.
  - intros rid p. rewrite lookup_insert_Some. intros [[_ <-]|[_ Hp]].
    + cbn. split_and!; [apply p1_inv_new|set_solver|done].
    + destruct (H1 _ _ Hp) as (? & ? & ?). split_and!; [done|set_solver|done].
  - intros rid rid' p p'. rewrite !lookup_insert_Some. intros [[<- <-]|[? Hp]] [[<- <-]|[? Hp']] Heq; [done| | |by eapply Hone].
    + apply H1 in Hp' as (_ & Hin & _). cbn in Heq. congruence.
    + apply H1 in Hp as (_ & Hin & _). cbn in Heq. congruence.
  - intros rid p Hp. destruct (H2 _ _ Hp) as (? & ? & ?). split_and!; [done|set_solver|done].
Qed.
Lemma shard_inv_more started g sh q : shard_inv started g sh → shard_inv ({[q]} ∪ started) g sh.
Proof.
  intros [Hg H1 Hone H2]. split; try done.
  - intros rid p Hp. destruct (H1 _ _ Hp) as (? & ? & ?). split_and!; [done|set_solver|done].
  - intros rid p Hp. destruct (H2 _ _ Hp) as (? & ? & ?). split_and!; [done|set_solver|done].
Qed.

Lemma StartPhase1_inv started c q c' :
  client_inv None started c → q ∉ started → NoDup (groups_of q) →
  StartPhase1 q (world q) (dig q) c = Done c' → client_inv None ({[q]} ∪ started) c'.
Proof.
  intros [Hs Hr Ho] Hq Hnd H. unfold StartPhase1 in H. apply bind_Done in H as (u & _ & H).
  apply bind_Done in H as ([r c1] & H & [= <-]). apply send_phase1_spec in H as (E1 & E2 & -> & Hsh); [|done].
  fold (groups_of q) in *.
  assert (∀ g sh', cl_shards c1 !! g = Some sh' → ∃ sh, cl_shards c !! g = Some sh ∧ sh_pendingPhase2s sh' = sh_pendingPhase2s sh ∧
    ∀ q', q' ≠ q → has_p1 sh' q' → has_p1 sh q') as Hold.
  { intros g sh' Hg. apply Hsh in Hg as (sh & Hg & ->). exists sh. case_decide; [|done]. split_and!; [done|done|].
    intros q' Hne (rid & p & Hp & Hid). cbn in Hp. apply lookup_insert_Some in Hp as [[_ <-]|[_ Hp]]; [done|by exists rid, p]. }
  split; cbn.
  - intros g sh' Hg. apply Hsh in Hg as (sh & Hg & ->). case_decide.
    + apply ShardClient_Phase1_inv; auto.
    + apply shard_inv_more; auto.
  - intros q' r' _. rewrite lookup_insert_Some. intros [[<- <-]|[Hne Hq']].
    + split; [set_solver|]. split; try done. intros _. split; cbn; try done.
      * rewrite dom_empty_L, difference_empty_L, size_list_to_set by done. done.
      * intros (g & sh' & Hg & rid & p & Hp & Hid). destruct (Hold _ _ Hg) as (sh & Hsh' & E & _). rewrite E in Hp.
        destruct (si_p2 _ _ _ (Hs _ _ Hsh') _ _ Hp) as (_ & Hin & _). congruence.
    + rewrite E1 in Hq'. destruct (Hr q' r') as [Hst Hi]; [done|done|]. split; [set_solver|]. revert Hi. apply req_inv_mono.
      * intros g (sh' & Hg & Hp). destruct (Hold _ _ Hg) as (sh & Hsh' & _ & Hb). exists sh. eauto.
      * intros (g & sh' & Hg & Hp). destruct (Hold _ _ Hg) as (sh & Hsh' & E & _). exists g, sh. unfold has_p2 in *.
        by rewrite E in Hp.
  - rewrite E2. apply Ho.
Qed.

(** ** Runs *)

Notation client_step := (client_step config ser_cc ser_p2 Verify policyFn TransactionDigest parse_cc parse_p2 true true
  minEnablePullPolicies consecutiveMax phase1DecisionTimeout no_fallback).
Definition Client_new (groups : gset Z) : Client := mkClient (set_to_map (λ g, (g, Shard_new g)) groups) ∅ [].

(** A sequence number is used once; the messages that verify are those a
    replica of the group sends for the transaction. *)
Definition proper_event started c (ev : ClientEvent) : Prop :=
  match ev with
  | Start q txn d => q ∉ started ∧ txn = world q ∧ d = dig q ∧ NoDup (involved_groups txn)
  | GotPhase1Reply g reply => proper_vote g (p1r_vote reply)
  | Phase1Timer _ _ | Phase1RequestTimer _ _ | Phase2RequestTimer _ _ => True
  | GotPhase2Reply g reply => ∀ sh (p : PendingPhase2), cl_shards c !! g = Some sh →
      sh_pendingPhase2s sh !! p2r_req_id reply = Some p → proper_decision g (p2_txnId p) (p2r_vote reply)
  end.
Definition starts (ev : ClientEvent) : gset Z := match ev with Start q _ _ => {[q]} | _ => ∅ end.

Inductive reach (groups : gset Z) : gset Z → Client → Prop :=
| reach_new : reach groups ∅ (Client_new groups)
| reach_step started c ev c' :
    reach groups started c → proper_event started c ev → client_step ev c = Done c' →
    reach groups (starts ev ∪ started) c'.

Lemma client_new_inv groups : client_inv None ∅ (Client_new groups).
Proof.
  split; cbn; [|done|set_solver]. intros g sh Hg.
  apply lookup_set_to_map in Hg as (g' & _ & [= -> <-]); [|by intros x y _ _ [= ->]].
  by split; cbn.
Qed.

(** A reply or a timer of phase 1. *)
Lemma p1_event_inv started c g rid p sh sh' cb c' :
  client_inv None started c → cl_shards c !! g = Some sh → sh_pendingPhase1s sh !! rid = Some p →
  p1_result rid p sh sh' cb →
  match cb with
  | Some cb => Phase1Callback config true true g cb (upd_shards (<[g := sh']>) c)
  | None => Done (upd_shards (<[g := sh']>) c)
  end = Done c' → client_inv None started c'.
Proof.
  intros Hi Hsh Hp Hres H. pose proof (ci_shard _ _ _ Hi _ _ Hsh) as Hshi.
  destruct (si_p1 _ _ _ Hshi _ _ Hp) as (_ & Hst & Hg).
  destruct (p1_shard_step _ _ _ _ _ _ _ Hshi Hp Hres) as (Hshi' & H1 & H2 & Hgone).
  pose proof (client_inv_shard _ _ _ _ _ _ Hi Hsh Hshi' H1 H2) as Hi'. destruct cb as [cb|]; [|by injection H as <-].
  destruct Hres as (_ & _ & _ & Hq & Hok & _). rewrite (si_group _ _ _ Hshi) in Hok.
  revert H. apply Phase1Callback_inv; [done|done|by rewrite Hq|by rewrite Hq| |].
  - rewrite Hq. intros (x & Hx & Hw). cbn in Hx. rewrite lookup_insert_eq in Hx. injection Hx as <-. by apply Hgone.
  - rewrite Hq. cbn. intros r Hr Hs. destruct (ci_req _ _ _ Hi _ _ ltac:(done) Hr) as [_ Hri].
    apply (co_waiting _ _ _ (ri_collecting _ _ _ Hri Hs)). exists sh. split; [done|]. by exists rid, p.
Qed.
(** A transaction with a pending phase 2 has started it. *)
Lemma logging_started started c g rid (p : PendingPhase2) sh r :
  client_inv None started c → cl_shards c !! g = Some sh → sh_pendingPhase2s sh !! rid = Some p →
  cl_pendingReqs c !! p2_txnId p = Some r → rq_startedPhase2 r = true.
Proof.
  intros Hi Hsh Hp Hr. destruct (rq_startedPhase2 r) eqn:Hs; [done|].
  destruct (ci_req _ _ _ Hi _ _ ltac:(done) Hr) as [_ Hri].
  destruct (co_logging _ _ _ (ri_collecting _ _ _ Hri Hs)). exists g, sh. split; [done|]. by exists rid, p.
Qed.
Lemma p2_event_inv started c g rid (p : PendingPhase2) sh sh' cb c' :
  client_inv None started c → cl_shards c !! g = Some sh → sh_pendingPhase2s sh !! rid = Some p →
  p2_result rid p sh sh' cb →
  match cb with
  | Some cb => Phase2Callback config true true g cb (upd_shards (<[g := sh']>) c)
  | None => Done (upd_shards (<[g := sh']>) c)
  end = Done c' → client_inv None started c'.
Proof.
  intros Hi Hsh Hp Hres H. pose proof (ci_shard _ _ _ Hi _ _ Hsh) as Hshi.
  destruct (si_p2 _ _ _ Hshi _ _ Hp) as (_ & Hst & Hg).
  destruct (p2_shard_step _ _ _ _ _ _ _ Hshi Hp Hres) as (Hshi' & H1 & H2).
  pose proof (client_inv_shard _ _ _ _ _ _ Hi Hsh Hshi' H1 H2) as Hi'. destruct cb as [cb|]; [|by injection H as <-].
  destruct Hres as (_ & _ & Hq & Hok & _). rewrite (si_group _ _ _ Hshi) in Hok.
  revert H. apply Phase2Callback_inv; [done|done|by rewrite Hq|]. rewrite Hq. intros r. by apply (logging_started started c g rid p sh).
Qed.

(** A step of a shard that changed nothing. *)
Lemma same_shard_inv started c g sh :
  client_inv None started c → cl_shards c !! g = Some sh → client_inv None started (upd_shards (<[g := sh]>) c).
Proof. intros Hi Hsh. eapply client_inv_shard; eauto. by apply Hi. Qed.

Lemma client_step_inv started c ev c' :
  client_inv None started c → proper_event started c ev → client_step ev c = Done c' →
  client_inv None (starts ev ∪ started) c'.
Proof.
  intros Hi Hp H. destruct ev as [q txn d|g reply|g rid|g rid|g rid|g reply]; cbn [starts]; rewrite ?union_empty_l_L.
  { destruct Hp as (? & -> & -> & ?). by eapply StartPhase1_inv. }
  all: cbn [ClientCommit.client_step] in H; unfold on_shard in H; destruct (cl_shards c !! g) as [sh|] eqn:Hsh; [|done];
    apply bind_Done in H as ([sh' cb] & Hf & H); pose proof (ci_shard _ _ _ Hi _ _ Hsh) as Hshi;
    pose proof (si_group _ _ _ Hshi) as Hg.
  - destruct (sh_pendingPhase1s sh !! p1r_req_id reply) as [p|] eqn:Hpend.
    + eapply p1_event_inv; [done..| |exact H]. eapply ProcessP1R_spec; [done| | |exact Hf]; rewrite Hg; [|exact Hp].
      by eapply si_p1.
    + unfold ShardClient.ProcessP1R in Hf. rewrite Hpend in Hf. injection Hf as <- <-. injection H as <-.
      by apply same_shard_inv.
  - destruct (sh_pendingPhase1s sh !! rid) as [p|] eqn:Hpend.
    + destruct (P1Timer_spec rid sh sh' cb p Hpend) as [Hres|[-> ->]];
        [rewrite Hg; by eapply si_p1|exact Hf|by eapply p1_event_inv|injection H as <-; by apply same_shard_inv].
    + unfold ShardClient.P1Timer in Hf. rewrite Hpend in Hf. injection Hf as <- <-. injection H as <-.
      by apply same_shard_inv.
  - injection Hf as <- <-. injection H as <-.
    destruct (shard_sub started g sh (Phase1Timeout rid sh)) as (? & ? & ?);
      [done|done|apply delete_subseteq|done|by eapply client_inv_shard].
  - injection Hf as <- <-. destruct (shard_sub started g sh (upd_p2s (delete rid) sh)) as (? & ? & ?);
      [done|done|done|apply delete_subseteq|].
    assert (client_inv None started (upd_shards (<[g := upd_p2s (delete rid) sh]>) c)) as Hi' by (by eapply client_inv_shard).
    destruct (sh_pendingPhase2s sh !! rid) as [p|] eqn:Hpend; [|by injection H as <-]. revert H.
    apply Phase2TimeoutCallback_inv; [done|]. intros r Hr. exact (logging_started started c g rid p sh r Hi Hsh Hpend Hr).
  - destruct (sh_pendingPhase2s sh !! p2r_req_id reply) as [p|] eqn:Hpend.
    + destruct (ReceivePhase2Reply_spec reply sh sh' cb p Hpend) as [Hres|[-> ->]];
        [rewrite Hg; by eapply si_p2|rewrite Hg; by eapply Hp|exact Hf|by eapply p2_event_inv
        |injection H as <-; by apply same_shard_inv].
    + unfold ReceivePhase2Reply, HandlePhase2Reply_MultiView in Hf. cbn [andb negb] in Hf. rewrite Hpend in Hf.
      injection Hf as <- <-. injection H as <-. by apply same_shard_inv.
Qed.

Lemma reach_inv groups started c : reach groups started c → client_inv None started c.
Proof. induction 1; [apply client_new_inv|by eapply client_step_inv]. Qed.

(** C13: the certificates a client sends are ones the replicas accept.  Replicas
    and client run with [validateProofs] and [signedMessages], and there are
    [5 f + 1] replicas with [0 <= f < 2^28].  The runs are those of [proper_event]: a
    transaction is started once under its sequence number, with its own digest and
    without repeated groups; a signed vote delivered by a group, when it parses, is the
    serialization of what it parses to and names that group; and a logged decision
    delivered for a pending request, when it parses, likewise names its group and also
    the transaction of the request.  In every such run, with replies and timeouts in any
    order, each [Phase2] goes to the logging group with votes that [ValidateP1Replies]
    accepts, and each [Writeback] carries fast votes it accepts, logged decisions that
    [ValidateP2Replies] accepts in the view named, or a conflict that
    [ValidateCommittedConflict] accepts; votes are accepted at a replica that finds its
    own vote, if it is among them, as it recorded it ([own_vote]).  The condition on
    what votes name is needed, since the client does not check it:
    [misaddressed_vote_spoils_certificate]. *)
Theorem client_certificates_validate groups started c o :
  reach groups started c → o ∈ cl_sent c → out_ok o.
Proof. intros Hr%reach_inv. apply Hr. Qed.
End shard.

(** ** A run *)

Module ClientExample.
Import QuorumExample.
(** One group, [f = 1]; the transaction reads and writes one key. *)
Definition world (_ : Z) : Transaction := reader 1.
Definition dig (_ : Z) : digest := "d".
Definition Verify (pid : Z) (_ _ : string) : bool := (0 <=? pid) && (pid <? 6).
Definition no_proof : CommittedProof := mkProof (reader 0) None.
Definition parse_cc (s : string) : option ConcurrencyControl :=
  if bool_decide (s = "c") then Some (mkCC (mkCCMsg COMMIT "d" 0) no_proof)
  else if bool_decide (s = "a") then Some (mkCC (mkCCMsg ABSTAIN "d" 0) no_proof) else None.
Definition parse_p2 (s : string) : option P2Msg :=
  if bool_decide (s = "c") then Some (mkP2Msg DCOMMIT 0 0 "d") else None.
Definition vote (pid : Z) (data : string) : ClientEvent :=
  GotPhase1Reply 0 (mkP1R 0 (SignedVote (mkSigned pid data "")) None None None).
Definition logged (pid : Z) : ClientEvent := GotPhase2Reply 0 (mkP2R 1 (SignedDecision (mkSigned pid "c" ""))).
Notation step := (client_step config ser_cc ser_p2 Verify (λ _ _, "") (λ _, "d") parse_cc parse_p2 true true 0 10 0 false).
Notation reach := (reach config ser_cc ser_p2 Verify (λ _ _, "") (λ _, "d") parse_cc parse_p2 0 10 0 false world dig).

(** Four replicas vote COMMIT, one after an ABSTAIN; five log the decision. *)
Definition first : ClientEvent := Start 7 (world 7) (dig 7).
Definition replies : list ClientEvent :=
  [vote 4 "a"; vote 0 "c"; vote 1 "c"; vote 2 "c"; vote 3 "c"; logged 0; logged 1; logged 2; logged 2; logged 3; logged 5].
Definition run (evs : list ClientEvent) (c : Client) : outcome Client := foldO (λ c ev, step ev c) c evs.
Definition final : outcome Client := run (first :: replies) (Client_new {[0]}).

Lemma run_proper evs started c c' :
  reach {[0]} started c → Forall (λ ev, ∀ c, starts ev = ∅ ∧ proper_event ser_cc ser_p2 parse_cc parse_p2 world dig ∅ c ev) evs →
  run evs c = Done c' → reach {[0]} started c'.
Proof.
  intros Hr Hall. revert c Hr. induction Hall as [|ev evs Hev _ IH]; intros c Hr H; [by injection H as <-|].
  unfold run in H. cbn [foldO] in H. apply bind_Done in H as (c1 & H1 & H). eapply IH; [|exact H].
  destruct (Hev c) as [He Hp]. replace started with (starts ev ∪ started) by (by rewrite He, union_empty_l_L).
  eapply reach_step; [exact Hr| |exact H1]. by destruct ev.
Qed.
Lemma vote_proper pid data : (data = "c" ∨ data = "a") → ∀ c,
  starts (vote pid data) = ∅ ∧ proper_event ser_cc ser_p2 parse_cc parse_p2 world dig ∅ c (vote pid data).
Proof.
  intros Hd c. split; [done|]. intros sm cc [= <-] Hp. cbn [sm_data] in *.
  destruct Hd as [-> | ->]; injection Hp as <-; done.
Qed.
Lemma logged_proper pid c :
  starts (logged pid) = ∅ ∧ proper_event ser_cc ser_p2 parse_cc parse_p2 world dig ∅ c (logged pid).
Proof. split; [done|]. intros sh p _ _ sm d [= <-] [= <-]. done. Qed.
Lemma replies_proper : Forall (λ ev, ∀ c, starts ev = ∅ ∧
  proper_event ser_cc ser_p2 parse_cc parse_p2 world dig ∅ c ev) replies.
Proof.
  unfold replies. repeat (apply Forall_cons_2; [first [apply vote_proper; by auto | apply logged_proper]|]). apply Forall_nil_2.
Qed.

Lemma client_certificates_validate_witness :
  match final with
  | Done c => length (cl_sent c) = 2%nat ∧
      Forall (out_ok config ser_cc ser_p2 Verify (λ _ _, "") (λ _, "d") world dig) (cl_sent c)
  | Panic => False
  end.
Proof.
  destruct final as [c|] eqn:Hf; [|vm_compute in Hf; discriminate Hf].
  split; [vm_compute in Hf; injection Hf as <-; reflexivity|]. apply Forall_forall. intros o Ho.
  apply (client_certificates_validate config ser_cc ser_p2 Verify (λ _ _, "") (λ _, "d") parse_cc parse_p2 0 10 0 false
    ltac:(cbn; lia) eq_refl world dig {[0]} {[7]} c o); [|exact Ho].
  unfold final, run in Hf. cbn [foldO] in Hf. apply bind_Done in Hf as (c1 & H1 & Hf).
  apply (run_proper replies _ c1); [|by apply replies_proper|exact Hf].
  replace ({[7]} : gset Z) with (starts first ∪ ∅) by reflexivity. eapply reach_step; [apply reach_new| |exact H1].
  split_and!; [set_solver|reflexivity|reflexivity|apply (bool_decide_unpack _); vm_compute; exact I].
Defined.

(** *** A vote for another group *)

(** Votes are serialized with their group; replica 0 signs its COMMIT for
    group 1, the others for group 0. *)
Definition ser_cc' (m : CCMsg) : string :=
  match cc_ccr m, cc_involved_group m with COMMIT, 0 => "c0" | COMMIT, _ => "c1" | _, _ => "x" end.
Definition parse_cc' (s : string) : option ConcurrencyControl :=
  if bool_decide (s = "c0") then Some (mkCC (mkCCMsg COMMIT "d" 0) no_proof)
  else if bool_decide (s = "c1") then Some (mkCC (mkCCMsg COMMIT "d" 1) no_proof) else None.
Definition Verify' (pid : Z) (msg _ : string) : bool :=
  (0 <=? pid) && (pid <? 6) && bool_decide (msg = if pid =? 0 then "c1" else "c0").
Definition spoiled : outcome Client :=
  foldO (λ c ev, client_step config ser_cc' ser_p2 Verify' (λ _ _, "") (λ _, "d") parse_cc' parse_p2 true true 0 10 0 false ev c)
    (Client_new {[0]}) (first :: [vote 0 "c1"; vote 1 "c0"; vote 2 "c0"; vote 3 "c0"]).

(** The client counts a vote whatever group it names: with one correctly
    signed vote of a single replica that names another group, the client logs a
    COMMIT certificate that no replica accepts. *)
Theorem misaddressed_vote_spoils_certificate :
  match spoiled with
  | Done c => ∃ sigs, cl_sent c = [SendPhase2 7 0 DCOMMIT sigs] ∧
      ValidateP1Replies config ser_cc' Verify' DCOMMIT false [0] "d" sigs (-1) ABORT = false
  | Panic => False
  end.
Proof.
  destruct spoiled as [c|] eqn:Hf; [|vm_compute in Hf; discriminate Hf].
  vm_compute in Hf. injection Hf as <-. eexists. split; [reflexivity|vm_compute; reflexivity].
Qed.
End ClientExample.
