(* ===== verification/Reads.v ===== *)
(** * Reads at a replica

    [HandleRead] of src/src/store/sintrstore/server.cc answers a point read
    with the newest committed version, and the newest prepared one, at or
    below the read timestamp; it records the timestamp, which makes older
    writers abstain.  [DependencyDepth] (concurrencycontrol.cc) bounds the
    chains of prepared transactions a reply may depend on. *)
From S2P Require Import Prelude OrderedSeq CppString Timestamp VersionStore Policy PolicyParse ServerState DemoEnv ServerTxn MVTSO MVTSOSafety Endorse.

(** ** Messages *)

(** A timestamp, its hash, or neither: the three oneofs of [Write]. *)
Inductive TsOneof := TsUnset | TsPlain (t : Timestamp) | TsHashed (h : string).
Definition has_plain (x : TsOneof) : bool := match x with TsPlain _ => true | _ => false end.
Definition plain_ts (x : TsOneof) : Timestamp := match x with TsPlain t => t | _ => ts_zero end.
Definition hashed_ts (x : TsOneof) : string := match x with TsHashed h => h | _ => "" end.

Record EndorsementPolicyMessage := mkEPM { ep_policy_id : string; ep_policy : PolicyObject }.

Record Write := mkWriteMsg {
  wr_key : option string;
  wr_committed_value : option string;
  wr_committed_ts : TsOneof;
  wr_committed_policy : option EndorsementPolicyMessage;
  wr_committed_policy_ts : TsOneof;
  wr_prepared_value : option string;
  wr_prepared_ts : TsOneof;
  wr_prepared_txn_digest : option digest
}.
Definition Write_empty : Write := mkWriteMsg None None TsUnset None TsUnset None TsUnset None.

Record Read := mkReadMsg {
  rd_req_id : Z;
  rd_key : string;
  rd_timestamp : Timestamp;
  rd_include_policy : bool
}.

Inductive ReadBody := NoWrite | PlainWrite (w : Write) | SignedWrite (sm : SignedMessage).
Record ReadReply := mkReply {
  rr_req_id : Z;
  rr_key : string;
  rr_proof : option CommittedProof;
  rr_body : ReadBody;
  rr_policy_proof : option CommittedProof;
  rr_committed_timestamp : option Timestamp;
  rr_prepared_timestamp : option Timestamp;
  rr_committed_policy_timestamp : option Timestamp
}.
Definition ReadReply_new (reqId : Z) (key : string) : ReadReply :=
  mkReply reqId key None NoWrite None None None None.

(** [reply.write()], and a change through [mutable_write()]. *)
Definition rr_write (r : ReadReply) : Write := match rr_body r with PlainWrite w => w | _ => Write_empty end.
Definition mutable_write (f : Write → Write) (r : ReadReply) : ReadReply :=
  mkReply (rr_req_id r) (rr_key r) (rr_proof r) (PlainWrite (f (rr_write r))) (rr_policy_proof r)
    (rr_committed_timestamp r) (rr_prepared_timestamp r) (rr_committed_policy_timestamp r).

Definition set_key (k : string) (w : Write) : Write :=
  mkWriteMsg (Some k) (wr_committed_value w) (wr_committed_ts w) (wr_committed_policy w)
    (wr_committed_policy_ts w) (wr_prepared_value w) (wr_prepared_ts w) (wr_prepared_txn_digest w).
Definition set_committed (v : string) (t : TsOneof) (w : Write) : Write :=
  mkWriteMsg (wr_key w) (Some v) t (wr_committed_policy w)
    (wr_committed_policy_ts w) (wr_prepared_value w) (wr_prepared_ts w) (wr_prepared_txn_digest w).
Definition set_committed_policy (p : EndorsementPolicyMessage) (t : TsOneof) (w : Write) : Write :=
  mkWriteMsg (wr_key w) (wr_committed_value w) (wr_committed_ts w) (Some p) t
    (wr_prepared_value w) (wr_prepared_ts w) (wr_prepared_txn_digest w).
Definition set_prepared (v : string) (t : TsOneof) (d : digest) (w : Write) : Write :=
  mkWriteMsg (wr_key w) (wr_committed_value w) (wr_committed_ts w) (wr_committed_policy w)
    (wr_committed_policy_ts w) (Some v) t (Some d).

(** The timestamps outside the signed write, and the proofs. *)
Definition add_committed_ts (t : option Timestamp) (r : ReadReply) : ReadReply :=
  mkReply (rr_req_id r) (rr_key r) (rr_proof r) (rr_body r) (rr_policy_proof r)
    t (rr_prepared_timestamp r) (rr_committed_policy_timestamp r).
Definition add_prepared_ts (t : option Timestamp) (r : ReadReply) : ReadReply :=
  mkReply (rr_req_id r) (rr_key r) (rr_proof r) (rr_body r) (rr_policy_proof r)
    (rr_committed_timestamp r) t (rr_committed_policy_timestamp r).
Definition add_policy_ts (t : option Timestamp) (r : ReadReply) : ReadReply :=
  mkReply (rr_req_id r) (rr_key r) (rr_proof r) (rr_body r) (rr_policy_proof r)
    (rr_committed_timestamp r) (rr_prepared_timestamp r) t.
Definition add_proof (p : CommittedProof) (r : ReadReply) : ReadReply :=
  mkReply (rr_req_id r) (rr_key r) (Some p) (rr_body r) (rr_policy_proof r)
    (rr_committed_timestamp r) (rr_prepared_timestamp r) (rr_committed_policy_timestamp r).
Definition add_policy_proof (p : CommittedProof) (r : ReadReply) : ReadReply :=
  mkReply (rr_req_id r) (rr_key r) (rr_proof r) (rr_body r) (Some p)
    (rr_committed_timestamp r) (rr_prepared_timestamp r) (rr_committed_policy_timestamp r).
Definition set_body (b : ReadBody) (r : ReadReply) : ReadReply :=
  mkReply (rr_req_id r) (rr_key r) (rr_proof r) b (rr_policy_proof r)
    (rr_committed_timestamp r) (rr_prepared_timestamp r) (rr_committed_policy_timestamp r).

Section reads.
Context `{E : Env}.
Implicit Types (s : server) (d : digest) (p : ptr) (ts : Timestamp).

(** ** DependencyDepth *)

(** One iteration of the loop: the front of the queue is replaced by the
    dependencies that are ongoing, at the back. *)
Definition dep_ptrs s (t : Transaction) : list ptr :=
  omap (λ dep, ongoing s !! d_prepared_txn_digest dep) (deps t).
Notation depth_state := (Z * list (ptr * Z))%type.
Definition depth_step s (st : depth_state) : outcome depth_state :=
  match st.2 with
  | [] => Done st
  | (p, depth) :: q =>
      t ← deref s p;
      Done (Z.max st.1 depth, q ++ ((λ p', (p', u64 (depth + 1))) <$> dep_ptrs s t))
  end.

(** [2 ^ n] iterations. *)
Fixpoint depth_steps (n : nat) s (st : depth_state) : outcome depth_state :=
  match st.2, n with
  | [], _ => Done st
  | _, O => depth_step s st
  | _, S n' => st ← depth_steps n' s st; depth_steps n' s st
  end.

(** A bound on the number of dependencies of a transaction. *)
Definition max_deps s : nat := max_list ((λ e, length (deps e.2)) <$> map_to_list (heap s)).
Definition depth_fuel s : nat := size (ongoing s) * Nat.log2_up (S (max_deps s)).
Definition DependencyDepth s p : outcome Z :=
  '(maxDepth, q) ← depth_steps (depth_fuel s) s (0, [(p, 0)]);
  match q with [] => Done maxDepth | _ => Panic end.

(** ** HandleRead *)

(** [TransactionDigest], [SignMessage] with the replica's key, and whether the
    concurrency control is MVTSO. *)
Variable TransactionDigest : Transaction → digest.
Variable sign : Write → SignedMessage.
Variable mvtso : bool.

(** With [hideTimestamps] the write has the hash and the reply the
    timestamp. *)
Definition ts_in_write ts : TsOneof := if hideTimestamps then TsHashed (TimestampDigest ts) else TsPlain ts.
Definition ts_in_reply ts (old : option Timestamp) : option Timestamp := if hideTimestamps then Some ts else old.

Definition reply_policy s (policyId : string) ts (r : ReadReply) : outcome ReadReply :=
  '((pts, pv), _) ← GetPolicy s policyId ts false;
  let r := mutable_write (set_committed_policy (mkEPM policyId (SerializeToProtoMessage (psv_policy pv)))
             (ts_in_write pts)) (add_policy_ts (ts_in_reply pts (rr_committed_policy_timestamp r)) r) in
  if validateProofs then pr ← read_proof s (psv_proof pv); Done (add_policy_proof pr r) else Done r.

Definition reply_committed s (m : Read) (tv : Timestamp * Value) (r : ReadReply) : outcome ReadReply :=
  let r := mutable_write (set_committed (val tv.2) (ts_in_write tv.1))
             (add_committed_ts (ts_in_reply tv.1 (rr_committed_timestamp r)) r) in
  r ← (if validateProofs then pr ← read_proof s (v_proof tv.2); Done (add_proof pr r) else Done r);
  if rd_include_policy m then reply_policy s (policyIdFunction (rd_key m) (val tv.2)) (rd_timestamp m) r
  else Done r.

(** The value a transaction writes to a key: its first write. *)
Definition written_value (t : Transaction) (key : string) : string :=
  default "" (w_value <$> List.find (λ w, bool_decide (w_key w = key)) (write_set t)).

Definition reply_prepared s (m : Read) (co : option Timestamp) (r : ReadReply) : outcome ReadReply :=
  mostRecent ← FindPreparedVersion s (rd_key m) (rd_timestamp m) co NONE;
  match mostRecent with
  | None => Done r
  | Some q =>
      t ← deref s q;
      shallow ← (if maxDepDepth =? -1 then Done true
                 else depth ← DependencyDepth s q; Done (depth <=? u64 maxDepDepth));
      if shallow : bool
      then Done (mutable_write (set_prepared (written_value t (rd_key m)) (ts_in_write (t_timestamp t)) (TransactionDigest t))
                   (add_prepared_ts (ts_in_reply (t_timestamp t) (rr_prepared_timestamp r)) r))
      else Done r
  end.

(** A read of a policy: the value is that of the transaction that wrote it. *)
Definition reply_policy_key s (m : Read) (r : ReadReply) : outcome ReadReply :=
  '((pts, pv), _) ← GetPolicy s (rd_key m) (rd_timestamp m) false;
  pr ← read_proof s (psv_proof pv);
  let policyVal := written_value (cp_txn pr) (rd_key m) in
  _ ← uw_assert (negb (bool_decide (policyVal = "")));
  let r := mutable_write (λ w, set_committed_policy (mkEPM (rd_key m) (SerializeToProtoMessage (psv_policy pv)))
             (ts_in_write pts) (set_committed policyVal (ts_in_write pts) w))
             (add_policy_ts (ts_in_reply pts (rr_committed_policy_timestamp r))
               (add_committed_ts (ts_in_reply pts (rr_committed_timestamp r)) r)) in
  Done (if validateProofs then add_policy_proof pr (add_proof pr r) else r).

Definition sign_reply (r : ReadReply) : ReadReply :=
  if validateProofs && signedMessages &&
     (bool_decide (is_Some (wr_committed_value (rr_write r))) ||
      (verifyDeps && bool_decide (is_Some (wr_prepared_value (rr_write r)))))
  then set_body (SignedWrite (sign (rr_write r))) r else r.

(** [None]: no reply. *)
Definition HandleRead s (now : Z) (m : Read) : outcome (server * option ReadReply) :=
  let ts := rd_timestamp m in
  let key := rd_key m in
  if CheckHighWatermark now ts then Done (s, None)
  else
    let tsVal := if IsPolicyId key then None else get (store s) key ts in
    let r := ReadReply_new (rd_req_id m) key in
    let r := if serverSkipEndorsementCheck then r else mutable_write (set_key key) r in
    r ← match tsVal with Some tv => reply_committed s m tv r | None => Done r end;
    '(s, r) ←
      (if mvtso && negb (IsPolicyId key) then
         let s := SetRTS s ts key in
         if maxDepDepth >? -2 then
           r ← reply_prepared s m (fst <$> tsVal) r;
           r ← (if rd_include_policy m then reply_policy s (policyIdFunction key "") ts r else Done r);
           Done (s, r)
         else Done (s, r)
       else if IsPolicyId key then r ← reply_policy_key s m r; Done (s, r)
       else Done (s, r));
    Done (s, Some (sign_reply r)).
End reads.

(** ** The depth is that of the longest chain of dependencies *)

Section depth.
Context `{E : Env} (s : server).
Implicit Types (p : ptr) (q : list (ptr * Z)).

(** A chain of [n] dependencies, each on an ongoing transaction. *)
Inductive chain : ptr → nat → Prop :=
| chain_O p : chain p 0
| chain_S p t p' n : heap s !! p = Some t → p' ∈ dep_ptrs s t → chain p' n → chain p (S n).

Fixpoint depth_iter (k : nat) (st : Z * list (ptr * Z)) : outcome (Z * list (ptr * Z)) :=
  match k with O => Done st | S k' => st ← depth_step s st; depth_iter k' st end.

Lemma depth_iter_nil k m : depth_iter k (m, []) = Done (m, []).
Proof. induction k as [|k IH]; [done|]. exact IH. Qed.

Lemma depth_iter_add k1 k2 st : depth_iter (k1 + k2) st = depth_iter k1 st ≫= depth_iter k2.
Proof.
  revert st. induction k1 as [|k1 IH]; intros st; [done|]. cbn. destruct (depth_step s st); [apply IH|done].
Qed.

Lemma depth_steps_iter n st : depth_steps n s st = depth_iter (2 ^ n) st.
Proof.
  revert st. induction n as [|n IH]; intros [m [|e q]].
  - done.
  - change (depth_steps 0 s (m, e :: q)) with (depth_step s (m, e :: q)).
    change (depth_iter (2 ^ 0) (m, e :: q)) with (depth_step s (m, e :: q) ≫= Done).
    by destruct (depth_step s (m, e :: q)).
  - by rewrite depth_iter_nil.
  - change (depth_steps (S n) s (m, e :: q)) with (depth_steps n s (m, e :: q) ≫= depth_steps n s).
    rewrite Nat.pow_succ_r', (Nat.mul_succ_l 1), Nat.mul_1_l, depth_iter_add, IH.
    destruct (depth_iter (2 ^ n) (m, e :: q)); cbn; [apply IH|done].
Qed.

(** *** A level of the breadth-first search *)

Definition children (e : ptr * Z) : list (ptr * Z) :=
  match heap s !! e.1 with
  | Some t => (λ p', (p', u64 (e.2 + 1))) <$> dep_ptrs s t
  | None => []
  end.
Definition deepest (m : Z) q : Z := foldl (λ a e, Z.max a e.2) m q.

Lemma deepest_spec m q :
  m ≤ deepest m q ∧ (∀ e, e ∈ q → e.2 ≤ deepest m q) ∧ (deepest m q = m ∨ ∃ e, e ∈ q ∧ deepest m q = e.2).
Proof.
  revert m. induction q as [|e q IH]; intros m; cbn; [set_solver by lia|].
  destruct (IH (Z.max m e.2)) as (H1 & H2 & H3). unfold deepest in *. split_and!; [lia| |].
  - intros e' [->|He']%elem_of_cons; [lia|by apply H2].
  - destruct H3 as [H3|(e' & He' & H3)]; [|right; set_solver].
    rewrite H3. destruct (Z.max_spec m e.2) as [[? ->]|[? ->]]; [right|by left]. set_solver.
Qed.

Lemma depth_level m q1 q2 :
  (∀ e, e ∈ q1 → is_Some (heap s !! e.1)) →
  depth_iter (length q1) (m, q1 ++ q2) = Done (deepest m q1, q2 ++ (q1 ≫= children)).
Proof.
  revert m q2. induction q1 as [|[p depth] q1 IH]; intros m q2 Hheap; cbn.
  { by rewrite app_nil_r. }
  destruct (Hheap (p, depth)) as [t Ht]; [set_solver|]. cbn in Ht.
  unfold depth_step, deref. cbn. rewrite Ht. cbn.
  rewrite <- app_assoc, IH by set_solver. f_equal. f_equal.
  rewrite <- app_assoc. f_equal. cbn. unfold children at 2. cbn. by rewrite Ht.
Qed.

Lemma children_length q D :
  (∀ p t, heap s !! p = Some t → (length (deps t) ≤ D)%nat) → (length (q ≫= children) ≤ length q * D)%nat.
Proof.
  intros HD. induction q as [|e q IH]; cbn; [done|]. rewrite length_app.
  assert (length (children e) ≤ D)%nat; [|lia].
  unfold children. case_match; cbn; [|lia]. rewrite length_fmap.
  etrans; [|by eapply HD]. unfold dep_ptrs. induction (deps t) as [|x l IHl]; cbn; [lia|].
  destruct (ongoing s !! _); cbn; lia.
Qed.

Lemma elem_of_children q p' d' :
  (p', d') ∈ q ≫= children ↔
  ∃ p depth t, (p, depth) ∈ q ∧ heap s !! p = Some t ∧ p' ∈ dep_ptrs s t ∧ d' = u64 (depth + 1).
Proof.
  rewrite list_elem_of_bind. unfold children. split.
  - intros ([p depth] & He & Hq). cbn in He. destruct (heap s !! p) as [t|] eqn:Ht; [|set_solver].
    apply list_elem_of_fmap in He as (x & [= -> ->] & Hx). eauto 10.
  - intros (p & depth & t & Hq & Ht & Hp & ->). exists (p, depth). split; [|done]. cbn. rewrite Ht.
    apply list_elem_of_fmap. eauto.
Qed.

(** *** The search ends, with the length of the longest chain *)

Context (Hheap : ∀ d p, ongoing s !! d = Some p → is_Some (heap s !! p)).

Lemma dep_ptrs_ongoing t p : p ∈ dep_ptrs s t → ∃ d, ongoing s !! d = Some p.
Proof. unfold dep_ptrs. rewrite list_elem_of_omap. intros (dep & _ & H). eauto. Qed.

Lemma depth_search n D q m :
  (∀ p t, heap s !! p = Some t → (length (deps t) ≤ D)%nat) →
  (∀ p depth, (p, depth) ∈ q → is_Some (heap s !! p) ∧ 0 ≤ depth ∧ depth + Z.of_nat n < 2^64 ∧
     ∀ j, chain p j → (j ≤ n)%nat) →
  ∃ k M, (k ≤ length q * S D ^ n)%nat ∧ depth_iter k (m, q) = Done (M, []) ∧ m ≤ M ∧
    (∀ p depth j, (p, depth) ∈ q → chain p j → depth + Z.of_nat j ≤ M) ∧
    (M = m ∨ ∃ p depth j, (p, depth) ∈ q ∧ chain p j ∧ M = depth + Z.of_nat j).
Proof.
  intros HD. revert q m. induction n as [|n IH]; intros q m Hq.
  all: pose proof (depth_level m q [] ltac:(intros [p depth] He; apply (Hq p depth He))) as Hlev;
    rewrite app_nil_r in Hlev; destruct (deepest_spec m q) as (L1 & L2 & L3).
  - assert (q ≫= children = []) as Hnil.
    { apply elem_of_nil_inv. intros [p' d'] (p & depth & t & Hin & Ht & Hp & _)%elem_of_children.
      destruct (Hq p depth Hin) as (_ & _ & _ & Hc). specialize (Hc 1%nat (chain_S _ _ _ _ Ht Hp (chain_O _))). lia. }
    exists (length q), (deepest m q). rewrite Hlev, Hnil. split_and!; [cbn; lia|done|done| |].
    + intros p depth j Hin Hj. apply (Hq p depth Hin) in Hj. specialize (L2 _ Hin). cbn in L2. lia.
    + destruct L3 as [|([p depth] & Hin & ->)]; [by left|right]. exists p, depth, 0%nat.
      split_and!; [done|constructor|cbn; lia].
  - destruct (IH (q ≫= children) (deepest m q)) as (k & M & Hk & Hrun & HmM & Hup & Hwit).
    { intros p' d' (p & depth & t & Hin & Ht & Hp & ->)%elem_of_children.
      destruct (Hq p depth Hin) as (_ & H0 & H64 & Hc). rewrite u64_small by lia.
      destruct (dep_ptrs_ongoing _ _ Hp) as [x Hx]. split_and!; [by eapply Hheap|lia|lia|].
      intros j Hj. specialize (Hc (S j) (chain_S _ _ _ _ Ht Hp Hj)). lia. }
    exists (length q + k)%nat, M. rewrite depth_iter_add, Hlev. split_and!; [|done|lia| |].
    + pose proof (children_length q D HD). rewrite Nat.pow_succ_r'.
      assert (1 ≤ S D ^ n)%nat by (apply (Nat.pow_le_mono_r (S D) 0 n); lia). nia.
    + intros p depth j Hin Hj. specialize (L2 _ Hin) as L2'. cbn in L2'.
      inversion Hj as [|? t p' j' Ht Hp Hj']; subst; [lia|].
      destruct (Hq p depth Hin) as (_ & H0 & H64 & _).
      assert ((p', u64 (depth + 1)) ∈ q ≫= children) as Hin' by (apply elem_of_children; eauto 10).
      specialize (Hup _ _ _ Hin' Hj'). rewrite u64_small in Hup by lia. lia.
    + destruct Hwit as [->|(p' & d' & j & Hin' & Hj & ->)].
      * destruct L3 as [->|([p depth] & Hin & ->)]; [by left|right]. exists p, depth, 0%nat.
        split_and!; [done|constructor|cbn; lia].
      * apply elem_of_children in Hin' as (p & depth & t & Hin & Ht & Hp & ->).
        destruct (Hq p depth Hin) as (_ & H0 & H64 & _). right. exists p, depth, (S j). split_and!; [done|by econstructor|].
        rewrite u64_small by lia. lia.
Qed.

(** The dependencies have no cycle: they decrease some rank. *)
Context (rank : ptr → nat).
Context (Hrank : ∀ p t p', heap s !! p = Some t → p' ∈ dep_ptrs s t → (rank p' < rank p)%nat).

Lemma chain_nodup p n :
  chain p n → ∃ l, length l = n ∧ NoDup l ∧
    ∀ p', p' ∈ l → (rank p' < rank p)%nat ∧ ∃ d, ongoing s !! d = Some p'.
Proof.
  induction 1 as [p|p t p' n Ht Hp Hc (l & Hlen & Hnd & Hl)].
  { exists []. split_and!; [done|constructor|set_solver]. }
  specialize (Hrank p t p' Ht Hp) as Hr. exists (p' :: l). split_and!; [cbn; lia| |].
  - constructor; [|done]. intros [? _]%Hl. lia.
  - intros x [->|[? ?]%Hl]%elem_of_cons; [|split; [lia|done]]. split; [done|]. by eapply dep_ptrs_ongoing.
Qed.

Lemma chain_bounded p n : chain p n → (n ≤ size (ongoing s))%nat.
Proof.
  intros (l & <- & Hnd & Hl)%chain_nodup.
  rewrite <- (length_map_to_list (ongoing s)), <- (length_fmap snd).
  apply submseteq_length, NoDup_submseteq; [done|]. intros x [_ [d Hd]]%Hl.
  apply list_elem_of_fmap. exists (d, x). split; [done|]. by apply elem_of_map_to_list.
Qed.

Lemma max_deps_ge p t : heap s !! p = Some t → (length (deps t) ≤ max_deps s)%nat.
Proof.
  intros Ht. apply max_list_elem_of_le, list_elem_of_fmap. exists (p, t). split; [done|].
  by apply elem_of_map_to_list.
Qed.
End depth.

(** C25: When no chain of dependencies among ongoing transactions is
    circular, the search of [DependencyDepth] ends, within [depth_fuel] doublings,
    and returns the length of the longest chain of ongoing dependencies of
    the transaction. *)
Theorem dependency_depth_terminates `{E : Env} (s : server) (p : ptr) (rank : ptr → nat) :
  is_Some (heap s !! p) →
  (∀ d q, ongoing s !! d = Some q → is_Some (heap s !! q)) →
  (∀ q t q', heap s !! q = Some t → q' ∈ dep_ptrs s t → (rank q' < rank q)%nat) →
  Z.of_nat (size (ongoing s)) < 2^64 →
  ∃ n, DependencyDepth s p = Done (Z.of_nat n) ∧ chain s p n ∧ ∀ j, chain s p j → (j ≤ n)%nat.
Proof.
  intros Hp Hheap Hrank H64. set (N := size (ongoing s)) in *. set (D := max_deps s).
  destruct (depth_search s Hheap N D [(p, 0)] 0) as (k & M & Hk & Hrun & HM & Hup & Hwit).
  { intros. by eapply max_deps_ge. }
  { intros ? ? [= -> ->]%list_elem_of_singleton. split_and!; [done|lia|lia|]. intros j. by apply (chain_bounded s Hheap rank). }
  assert (k ≤ 2 ^ depth_fuel s)%nat as Hfuel.
  { unfold depth_fuel. fold N D. rewrite Nat.mul_comm, Nat.pow_mul_r. etrans; [exact Hk|]. cbn [length]. rewrite Nat.mul_1_l.
    apply Nat.pow_le_mono_l. destruct (decide (D = 0%nat)) as [->|]; [done|]. by apply Nat.log2_up_spec; lia. }
  assert (DependencyDepth s p = Done M) as HD.
  { unfold DependencyDepth. rewrite depth_steps_iter, (Nat.le_add_sub k _ Hfuel), depth_iter_add, Hrun. cbn.
    by rewrite depth_iter_nil. }
  assert (∃ n, M = Z.of_nat n ∧ chain s p n) as (n & -> & Hn).
  { destruct Hwit as [->|(? & ? & j & [= -> ->]%list_elem_of_singleton & Hj & ->)].
    - exists 0%nat. split; [done|constructor].
    - exists j. split; [lia|done]. }
  exists n. split_and!; [done|done|]. intros j Hj. specialize (Hup p 0 j ltac:(set_solver) Hj). lia.
Qed.

(** ** What a reply contains *)

Section exact.
Context `{E : Env}.
Variable TransactionDigest : Transaction → digest.
Variable sign : Write → SignedMessage.
Implicit Types (s : server) (ts : Timestamp).

(** The last entry of a list sorted by timestamp that passes a test is the
    newest that does. *)
Definition newest {A} (f : Timestamp * A → bool) (l : list (Timestamp * A)) (e : Timestamp * A) : Prop :=
  e ∈ l ∧ f e = true ∧ ∀ x, x ∈ l → f x = true → ts_le x.1 e.1 = true.

Lemma ssorted_filter {A} (f : Timestamp * A → bool) l : ssorted fst l → ssorted fst (List.filter f l).
Proof.
  induction l as [|x l IH]; [done|]. rewrite ssorted_cons. intros [Hl Hx]. cbn. case_match; [|by apply IH].
  rewrite ssorted_cons. split; [by apply IH|]. intros y Hy%list_elem_of_In%filter_In. apply Hx, list_elem_of_In, Hy.
Qed.

Lemma newest_last {A} (f : Timestamp * A → bool) l :
  ssorted fst l →
  match last (List.filter f l) with
  | Some e => newest f l e
  | None => ∀ x, x ∈ l → f x = false
  end.
Proof.
  intros Hs. destruct (last (List.filter f l)) as [e|] eqn:He.
  - assert (e ∈ List.filter f l) as [Hin Hf]%list_elem_of_In%filter_In.
    { apply last_Some in He as [? ->]. set_solver. }
    split_and!; [by apply list_elem_of_In|done|]. intros x Hx Hfx. rewrite ts_le_lt, negb_true_iff.
    assert (x ∈ List.filter f l) as Hx' by (apply list_elem_of_In, filter_In; split; [by apply list_elem_of_In|done]).
    destruct (ssorted_last fst _ _ _ (ssorted_filter f l Hs) He Hx') as [->|Hlt]; [apply (ltb_irrefl (K := Timestamp))|].
    by apply (ltb_asym (K := Timestamp)).
  - intros x Hx. apply last_None in He. destruct (f x) eqn:Hf; [|done].
    assert (x ∈ List.filter f l) as Hx' by (apply list_elem_of_In, filter_In; split; [by apply list_elem_of_In|done]).
    rewrite He in Hx'. set_solver.
Qed.

(** A committed version a read at [ts] may return, and a prepared one. *)
Definition readable ts (e : Timestamp * Value) : bool := ts_le e.1 ts.
Definition candidate s ts (co : option Timestamp) (ty : TxnPolicyType) (e : Timestamp * ptr) : bool :=
  ts_le e.1 ts && match co with Some c => ts_lt c e.1 | None => true end &&
  match heap s !! e.2 with Some t => bool_decide (policy_type t = ty) | None => false end.

(** The index of prepared writes of a key: sorted, each transaction under its
    timestamp. *)
Definition prepared_index s (key : string) : Prop :=
  ssorted fst (default [] (preparedWrites s !! key)) ∧
  ∀ e, e ∈ default [] (preparedWrites s !! key) → ∃ t, heap s !! e.2 = Some t ∧ t_timestamp t = e.1.

Lemma find_prepared_last s ts co ty l acc :
  ssorted fst l → (∀ e, e ∈ l → ∃ t, heap s !! e.2 = Some t ∧ t_timestamp t = e.1) →
  (∀ m, acc = Some m → ∃ tm, heap s !! m = Some tm ∧ ∀ e, e ∈ l → ts_lt (t_timestamp tm) e.1 = true) →
  find_prepared s ts co ty acc l =
    Done (match last (List.filter (candidate s ts co ty) l) with Some e => Some e.2 | None => acc end).
Proof.
  revert acc. induction l as [|[t q] l IH]; intros acc Hs Hl Hacc; [done|].
  apply ssorted_cons in Hs as [Hs Hx]. destruct (Hl (t, q)) as (tq & Htq & Hts); [set_solver|].
  cbn in Htq, Hts, Hx. cbn [find_prepared List.filter]. unfold candidate at 1. cbn [fst snd].
  rewrite Htq, ts_le_lt, ts_gt_lt. destruct (ts_lt ts t) eqn:Hgt; cbn [negb andb].
  { assert (List.filter (candidate s ts co ty) l = []) as ->; [|done].
    apply elem_of_nil_inv. intros e [He Hc]%list_elem_of_In%filter_In. apply list_elem_of_In in He. apply Hx in He.
    unfold candidate in Hc. rewrite !andb_true_iff, ts_le_lt, negb_true_iff in Hc.
    pose proof (ltb_trans (K := Timestamp) _ _ _ Hgt He) as Hlt. destruct Hc as [[Hc _] _].
    change (ts_lt ts e.1 = true) in Hlt. by rewrite Hlt in Hc. }
  assert (match co with Some c => ts_le t c | None => false end =
          negb (match co with Some c => ts_lt c t | None => true end)) as ->.
  { destruct co; [by rewrite ts_le_lt|done]. }
  destruct (match co with Some c => ts_lt c t | None => true end); cbn [negb andb].
  2:{ apply IH; [done|set_solver|]. intros m Hm. destruct (Hacc m Hm) as (tm & ? & ?). exists tm. set_solver. }
  assert ((match acc with None => Done true | Some m => tm ← deref s m; Done (ts_gt t (t_timestamp tm)) end) = Done true) as ->.
  { destruct acc as [m|]; [|done]. destruct (Hacc m eq_refl) as (tm & Htm & Hlt). unfold deref. rewrite Htm. cbn.
    rewrite ts_gt_lt. f_equal. apply (Hlt (t, q)). set_solver. }
  cbn [mbind outcome_bind]. unfold deref at 1. rewrite Htq. cbn [mbind outcome_bind].
  rewrite IH; [|done|set_solver|].
  - case_bool_decide; [|done]. rewrite last_cons. by destruct (last _).
  - case_bool_decide; intros m Hm.
    + injection Hm as <-. exists tq. split; [done|]. rewrite Hts. exact Hx.
    + destruct (Hacc m Hm) as (tm & ? & ?). exists tm. set_solver.
Qed.

Lemma FindPreparedVersion_last s key ts co ty :
  prepared_index s key →
  FindPreparedVersion s key ts co ty =
    Done (snd <$> last (List.filter (candidate s ts co ty) (default [] (preparedWrites s !! key)))).
Proof.
  intros [Hs Hl]. unfold FindPreparedVersion. destruct (preparedWrites s !! key) as [l|]; [|done]. cbn in *.
  rewrite find_prepared_last; [by destruct (last _)|done..].
Qed.

Lemma get_newest s key ts :
  vs_wf (store s) →
  match get (store s) key ts with
  | Some e => newest (readable ts) (versions_of (store s) key) e
  | None => ∀ x, x ∈ versions_of (store s) key → readable ts x = false
  end.
Proof.
  intros Hwf. pose proof (versions_of_sorted _ key Hwf) as Hs. rewrite get_versions.
  destruct (last_prefix_spec (versions_of (store s) key) _ _ (λ x, readable ts x = true) Hs (upper_bound_app fst ts _))
    as [H1 H2].
  - intros x Hx. pose proof (upper_bound_before fst _ _ _ Hx) as Hlt. unfold readable. rewrite ts_le_lt. by apply negb_true_iff.
  - intros x Hx. pose proof (upper_bound_after fst _ _ _ Hs Hx) as Hlt. unfold readable. rewrite ts_le_lt.
    apply not_true_iff_false. by apply negb_false_iff.
  - destruct (last _) as [e|].
    + destruct (proj1 (H1 e) eq_refl) as (Hin & Hr & Hmax). split_and!; [done..|]. intros x Hx Hxr.
      rewrite ts_le_lt, negb_true_iff.
      destruct (Hmax x Hx Hxr) as [->|Hlt]; [apply (ltb_irrefl (K := Timestamp))|by apply (ltb_asym (K := Timestamp))].
    + intros x Hx. apply not_true_iff_false. by apply H2.
Qed.

(** *** Stages of the reply *)

Lemma SetRTS_cases s ts key :
  SetRTS s ts key = s ∨ (∃ f, SetRTS s ts key = upd_rts f s) ∨ (∃ f, SetRTS s ts key = upd_rts_list f s).
Proof. unfold SetRTS. repeat case_match; eauto. Qed.
Lemma SetRTS_frame s ts key : frame s (SetRTS s ts key).
Proof. by destruct (SetRTS_cases s ts key) as [->|[[f ->]|[f ->]]]. Qed.

Lemma depth_steps_ext n s s' st :
  heap s' = heap s → ongoing s' = ongoing s → depth_steps n s' st = depth_steps n s st.
Proof.
  intros Hh Ho. assert (∀ st, depth_step s' st = depth_step s st) as Hstep.
  { intros [a l]. unfold depth_step, deref, dep_ptrs. by rewrite Hh, Ho. }
  revert st. induction n as [|n IH]; intros [a [|e l]]; cbn; try done.
  - apply (Hstep (a, e :: l)).
  - rewrite IH. destruct (depth_steps n s (a, e :: l)); [apply IH|done].
Qed.
Lemma DependencyDepth_frame s s' q : frame s s' → DependencyDepth s' q = DependencyDepth s q.
Proof.
  intros (Hh & Ho & _)%frame_fields. unfold DependencyDepth, depth_fuel, max_deps.
  by rewrite (depth_steps_ext _ s s'), Hh, Ho.
Qed.

(** What the policies in a reply leave alone. *)
Definition read_view (r : ReadReply) :=
  (rr_req_id r, rr_proof r, rr_committed_timestamp r, rr_prepared_timestamp r,
   (wr_committed_value (rr_write r), wr_committed_ts (rr_write r),
    (wr_prepared_value (rr_write r), wr_prepared_ts (rr_write r), wr_prepared_txn_digest (rr_write r)))).

Definition unsigned (r : ReadReply) : Prop := ∀ sm, rr_body r ≠ SignedWrite sm.

Lemma reply_policy_view s pid ts r r' :
  reply_policy s pid ts r = Done r' → read_view r' = read_view r ∧ unsigned r'.
Proof.
  unfold reply_policy. intros ([[pts pv] o] & _ & Hr)%bind_Done. cbn in Hr.
  destruct validateProofs; inv_outcome; done.
Qed.

Lemma reply_committed_view s m tv r r' :
  reply_committed s m tv r = Done r' →
  unsigned r' ∧ ∃ pr, read_view r' =
    (rr_req_id r, pr, ts_in_reply tv.1 (rr_committed_timestamp r), rr_prepared_timestamp r,
     (Some (val tv.2), ts_in_write tv.1,
      (wr_prepared_value (rr_write r), wr_prepared_ts (rr_write r), wr_prepared_txn_digest (rr_write r)))) ∧
  (validateProofs = true → ∃ x, read_proof s (v_proof tv.2) = Done x ∧ pr = Some x).
Proof.
  unfold reply_committed. intros (r1 & Hr1 & Hr)%bind_Done.
  assert (read_view r' = read_view r1 ∧ (unsigned r1 → unsigned r')) as [-> Hu].
  { destruct (rd_include_policy m); [|by inv_outcome]. apply reply_policy_view in Hr as [-> ?]. done. }
  split.
  { apply Hu. by destruct validateProofs; inv_outcome. }
  destruct validateProofs; inv_outcome; eexists; (split; [reflexivity|]); [|done]. intros _. eauto.
Qed.

(** The write a reply carries, signed or not. *)
Definition carries (r : ReadReply) (w : Write) : Prop :=
  rr_body r = PlainWrite w ∨ rr_body r = SignedWrite (sign w) ∨ rr_body r = NoWrite ∧ w = Write_empty.

Lemma sign_reply_view r0 :
  unsigned r0 →
  let r := sign_reply sign r0 in
  carries r (rr_write r0) ∧ rr_proof r = rr_proof r0 ∧ rr_req_id r = rr_req_id r0 ∧
  rr_committed_timestamp r = rr_committed_timestamp r0 ∧ rr_prepared_timestamp r = rr_prepared_timestamp r0.
Proof.
  intros Hu. unfold sign_reply, carries, rr_write, unsigned in *. cbn. case_match; split_and!; try done; cbn; auto.
  destruct (rr_body r0); naive_solver.
Qed.

(** *** The two parts of a reply *)

Definition committed_part s ts (key : string) (w : Write) (r : ReadReply) : Prop :=
  match wr_committed_value w with
  | Some x => ∃ e, newest (readable ts) (versions_of (store s) key) e ∧ x = val e.2 ∧
      wr_committed_ts w = ts_in_write e.1 ∧ (hideTimestamps = true → rr_committed_timestamp r = Some e.1) ∧
      (validateProofs = true → ∃ pr, read_proof s (v_proof e.2) = Done pr ∧ rr_proof r = Some pr)
  | None => ∀ e, e ∈ versions_of (store s) key → readable ts e = false
  end.

Definition prepared_part s ts (key : string) (w : Write) (r : ReadReply) : Prop :=
  let index := default [] (preparedWrites s !! key) in
  let ok := candidate s ts (fst <$> get (store s) key ts) NONE in
  match wr_prepared_txn_digest w with
  | Some d => ∃ e t, newest ok index e ∧ heap s !! e.2 = Some t ∧ d = TransactionDigest t ∧
      wr_prepared_value w = Some (written_value t key) ∧ wr_prepared_ts w = ts_in_write e.1 ∧
      (hideTimestamps = true → rr_prepared_timestamp r = Some e.1) ∧
      (maxDepDepth = -1 ∨ ∃ n, DependencyDepth s e.2 = Done n ∧ n ≤ u64 maxDepDepth)
  | None => wr_prepared_value w = None ∧
      ((∀ e, e ∈ index → ok e = false) ∨
       ∃ e n, newest ok index e ∧ maxDepDepth ≠ -1 ∧ DependencyDepth s e.2 = Done n ∧ u64 maxDepDepth < n)
  end.

Lemma reply_prepared_view s m co r r' :
  prepared_index s (rd_key m) → reply_prepared TransactionDigest s m co r = Done r' →
  (unsigned r → unsigned r') ∧
  rr_req_id r' = rr_req_id r ∧ rr_proof r' = rr_proof r ∧ rr_committed_timestamp r' = rr_committed_timestamp r ∧
  wr_committed_value (rr_write r') = wr_committed_value (rr_write r) ∧
  wr_committed_ts (rr_write r') = wr_committed_ts (rr_write r) ∧
  let index := default [] (preparedWrites s !! rd_key m) in
  let ok := candidate s (rd_timestamp m) co NONE in
  (read_view r' = read_view r ∧
    ((∀ e, e ∈ index → ok e = false) ∨
     ∃ e n, newest ok index e ∧ maxDepDepth ≠ -1 ∧ DependencyDepth s e.2 = Done n ∧ u64 maxDepDepth < n)) ∨
  ∃ e t, newest ok index e ∧ heap s !! e.2 = Some t ∧
    wr_prepared_txn_digest (rr_write r') = Some (TransactionDigest t) ∧
    wr_prepared_value (rr_write r') = Some (written_value t (rd_key m)) ∧
    wr_prepared_ts (rr_write r') = ts_in_write e.1 ∧ rr_prepared_timestamp r' = ts_in_reply e.1 (rr_prepared_timestamp r) ∧
    (maxDepDepth = -1 ∨ ∃ n, DependencyDepth s e.2 = Done n ∧ n ≤ u64 maxDepDepth).
Proof.
  intros Hi. unfold reply_prepared. rewrite FindPreparedVersion_last by done. cbn [mbind outcome_bind].
  pose proof (newest_last (candidate s (rd_timestamp m) co NONE) _ (proj1 Hi)) as Hn.
  destruct (last _) as [e|]; cbn [fmap option_fmap option_map].
  2:{ intros [= <-]. split_and!; auto. }
  destruct (proj2 Hi e (proj1 Hn)) as (t & Ht & Hts). unfold deref. rewrite Ht. cbn [mbind outcome_bind]. rewrite Hts.
  destruct (Z.eqb_spec maxDepDepth (-1)) as [Hd|Hd]; cbn [mbind outcome_bind].
  { intros [= <-]. split_and!; try done. right. exists e, t. split_and!; auto. }
  destruct (DependencyDepth s e.2) as [n|] eqn:HD; [|done]. cbn [mbind outcome_bind].
  destruct (Z.leb_spec n (u64 maxDepDepth)) as [Hle|Hlt]; intros [= <-]; (split_and!; try done).
  - right. exists e, t. split_and!; auto. right. eauto.
  - left. split; [done|]. right. exists e, n. auto.
Qed.

Lemma prepared_index_frame s s' key : frame s s' → prepared_index s key → prepared_index s' key.
Proof. intros (Hh & _ & _ & _ & Hw & _)%frame_fields. unfold prepared_index. by rewrite Hh, Hw. Qed.

Lemma reply_prepared_frame s s' m co r :
  frame s s' → prepared_index s (rd_key m) →
  reply_prepared TransactionDigest s' m co r = reply_prepared TransactionDigest s m co r.
Proof.
  intros Hf Hi. unfold reply_prepared. rewrite !FindPreparedVersion_last; [|done|by eapply prepared_index_frame].
  pose proof (frame_fields _ _ Hf) as (Hh & _ & _ & _ & Hw & _). unfold candidate. rewrite Hh, Hw.
  cbn [mbind outcome_bind]. destruct (_ <$> _) as [q|]; [|done]. unfold deref. rewrite Hh.
  by rewrite (DependencyDepth_frame s s').
Qed.

Lemma read_reply_parts s now m s' r :
  IsPolicyId (rd_key m) = false → -2 < maxDepDepth → vs_wf (store s) → prepared_index s (rd_key m) →
  HandleRead TransactionDigest sign true s now m = Done (s', Some r) →
  ∃ w, carries r w ∧ rr_req_id r = rd_req_id m ∧
    committed_part s (rd_timestamp m) (rd_key m) w r ∧ prepared_part s (rd_timestamp m) (rd_key m) w r ∧
    s' = SetRTS s (rd_timestamp m) (rd_key m) ∧
    (validateProofs = true → signedMessages = true → is_Some (wr_committed_value w) → rr_body r = SignedWrite (sign w)).
Proof.
  intros Hk Hd Hwf Hi. unfold HandleRead. rewrite Hk. destruct (CheckHighWatermark _ _); [done|].
  set (r0 := if serverSkipEndorsementCheck then _ else _).
  assert (read_view r0 = read_view (ReadReply_new (rd_req_id m) (rd_key m)) ∧ unsigned r0) as [Hr0 Hu0]
    by (subst r0; by destruct serverSkipEndorsementCheck).
  intros (r1 & Hr1 & Hrest)%bind_Done. cbn [negb andb] in Hrest.
  rewrite (proj2 (Z.gtb_lt _ _)) in Hrest by lia. apply bind_Done in Hrest as ([s1 r3] & H3 & [= <- <-]).
  apply bind_Done in H3 as (r2 & Hr2 & Hr3). rewrite (reply_prepared_frame s) in Hr2 by (done || apply SetRTS_frame).
  apply reply_prepared_view in Hr2 as (Hu2 & Eid & Epr & Ect & Ecv & Ecs & Hprep); [|done].
  assert (unsigned r1) as Hu1.
  { destruct (get _ _ _); [by eapply reply_committed_view|by inv_outcome]. }
  apply bind_Done in Hr3 as (r4 & Hr4 & [= <- <-]).
  assert (read_view r4 = read_view r2 ∧ unsigned r4) as [V4 Hu4].
  { destruct (rd_include_policy m); [by eapply reply_policy_view|]. inv_outcome. auto. }
  injection V4 as V41 V42 V43 V44 V45 V46 V47 V48 V49.
  destruct (sign_reply_view r4 Hu4) as (Hcar & S1 & S2 & S3 & S4). exists (rr_write r4).
  pose proof (get_newest s (rd_key m) (rd_timestamp m) Hwf) as Hget. unfold committed_part, prepared_part.
  injection Hr0 as R1 R2 R3 R4 R5 R6 R7 R8 R9.
  rewrite S1, S2, S3, S4, V41, V42, V43, V44, V45, V46, V47, V48, V49, Eid, Epr, Ect, Ecv, Ecs.
  assert (rr_req_id r1 = rd_req_id m ∧ wr_prepared_txn_digest (rr_write r1) = None ∧ wr_prepared_value (rr_write r1) = None)
    as (Q1 & Q2 & Q3).
  { destruct (get _ _ _); [|inv_outcome; by rewrite R1].
    apply reply_committed_view in Hr1 as (_ & pr & V1 & _). injection V1 as -> _ _ _ _ _ -> _ ->. by rewrite R1. }
  split_and!; [done|done| | |done|].
  - destruct (get _ _ _) as [e|]; [|inv_outcome; by rewrite R5].
    apply reply_committed_view in Hr1 as (_ & pr & V1 & Hpr). injection V1 as _ -> -> _ -> -> _ _ _.
    exists e. split_and!; [done..| |done]. intros Hh. unfold ts_in_reply. by rewrite Hh.
  - destruct Hprep as [[V2 Hno]|(e & t & Hn & Ht & -> & -> & -> & -> & Hdep)].
    + injection V2 as _ _ _ _ _ _ -> _ ->. rewrite Q2, Q3. done.
    + exists e, t. split_and!; try done. intros Hh. unfold ts_in_reply. by rewrite Hh.
  - intros Hv Hsm Hc. unfold sign_reply. rewrite Hv, Hsm, V45, Ecv, bool_decide_eq_true_2 by done. done.
Qed.

(** A reply is sent unless a proof or a transaction is missing. *)
Lemma read_answered s now m :
  IsPolicyId (rd_key m) = false → -2 < maxDepDepth → vs_wf (store s) → prepared_index s (rd_key m) →
  rd_include_policy m = false → CheckHighWatermark now (rd_timestamp m) = false →
  (validateProofs = true → ∀ e, e ∈ versions_of (store s) (rd_key m) → ∃ pr, read_proof s (v_proof e.2) = Done pr) →
  (maxDepDepth = -1 ∨ ∀ q, is_Some (heap s !! q) → ∃ n, DependencyDepth s q = Done n) →
  ∃ s' r, HandleRead TransactionDigest sign true s now m = Done (s', Some r).
Proof.
  intros Hk Hd Hwf Hi Hp Hw Hpr Hdd. unfold HandleRead. rewrite Hk, Hw, Hp. cbn [negb andb].
  rewrite (proj2 (Z.gtb_lt _ _)) by lia.
  set (r0 := if serverSkipEndorsementCheck then _ else _).
  assert (∃ r1, (match get (store s) (rd_key m) (rd_timestamp m) with
                 | Some tv => reply_committed s m tv r0 | None => Done r0 end) = Done r1) as [r1 ->].
  { pose proof (get_newest s (rd_key m) (rd_timestamp m) Hwf) as Hg. destruct (get _ _ _) as [e|]; [|eauto].
    unfold reply_committed. rewrite Hp. destruct validateProofs eqn:Hv; [|eauto].
    destruct (Hpr eq_refl e (proj1 Hg)) as [pr ->]. cbn. eauto. }
  cbn [mbind outcome_bind]. rewrite (reply_prepared_frame s) by (done || apply SetRTS_frame).
  assert (∀ co, ∃ r2, reply_prepared TransactionDigest s m co r1 = Done r2) as Hrp.
  { intros co. unfold reply_prepared. rewrite FindPreparedVersion_last by done. cbn [mbind outcome_bind].
    pose proof (newest_last (candidate s (rd_timestamp m) co NONE) _ (proj1 Hi)) as Hn.
    destruct (last _) as [e|]; cbn [fmap option_fmap option_map]; [|eauto].
    destruct (proj2 Hi e (proj1 Hn)) as (t & Ht & _). unfold deref. rewrite Ht. cbn [mbind outcome_bind].
    destruct (Z.eqb_spec maxDepDepth (-1)) as [He|He]; cbn [mbind outcome_bind]; [eauto|].
    destruct Hdd as [?|Hdd]; [done|]. destruct (Hdd e.2) as [n ->]; [by rewrite Ht|]. cbn [mbind outcome_bind].
    case_match; eauto. }
  destruct (Hrp (fst <$> get (store s) (rd_key m) (rd_timestamp m))) as [r2 ->]. cbn. eauto.
Qed.

(** C23: what a replica answers to a read at [ts] of a data key (no policy id),
    for a request that does not ask for the policy and is not above the high
    watermark, with [maxDepDepth > -2].  The store and the index of prepared writes are
    well formed; with [validateProofs] the proofs of the stored versions are readable;
    and the dependencies end, unless [maxDepDepth = -1].  Then the handler ends without
    a panic.  The committed part of the reply is the newest version of the store at or
    below [ts], with its proof when proofs are checked, and is missing only when there
    is none.  The prepared part is the newest prepared write of a data transaction that
    is above that version and not above [ts], with the value and the digest of the
    transaction; it is missing exactly when there is none or when the dependencies of
    that newest one are deeper than [maxDepDepth] (taken as a 64-bit unsigned number; an
    older prepared write is not tried).  The only change of state is [SetRTS] of [ts]. *)
Theorem read_answered_exactly s now m :
  IsPolicyId (rd_key m) = false → -2 < maxDepDepth → vs_wf (store s) → prepared_index s (rd_key m) →
  rd_include_policy m = false → CheckHighWatermark now (rd_timestamp m) = false →
  (validateProofs = true → ∀ e, e ∈ versions_of (store s) (rd_key m) → ∃ pr, read_proof s (v_proof e.2) = Done pr) →
  (maxDepDepth = -1 ∨ ∀ q, is_Some (heap s !! q) → ∃ n, DependencyDepth s q = Done n) →
  ∃ r w, HandleRead TransactionDigest sign true s now m =
      Done (SetRTS s (rd_timestamp m) (rd_key m), Some r) ∧
    carries r w ∧ rr_req_id r = rd_req_id m ∧
    committed_part s (rd_timestamp m) (rd_key m) w r ∧ prepared_part s (rd_timestamp m) (rd_key m) w r.
Proof.
  intros Hk Hd Hwf Hi Hp Hw Hpr Hdd. destruct (read_answered s now m) as (s' & r & Hr); [done..|].
  destruct (read_reply_parts s now m s' r) as (w & ? & ? & ? & ? & -> & _); [done..|]. by exists r, w.
Qed.
End exact.
