(* ===== verification/ReadProtection.v ===== *)
(** * Reads make older writers abstain

    A replica records the timestamps of the reads it answers ([SetRTS]) and
    its concurrency control looks them up ([check_rts]).  The theorem composes
    the two: after any reads, a transaction that would overwrite, below the
    timestamp of one of them, the key it read is not prepared. *)
From S2P Require Import Prelude OrderedSeq CppString Timestamp VersionStore Policy PolicyParse ServerState DemoEnv ServerTxn MVTSO MVTSOSafety Endorse Reads.

Section protection.
Context `{E : Env}.
Variable TransactionDigest : Transaction → digest.
Variable sign : Write → SignedMessage.
Implicit Types (s : server) (ts : Timestamp) (key : string).
Notation HandleRead := (HandleRead TransactionDigest sign true).

(** Reads handled one after the other, each with the clock at its time. *)
Definition read_all s (l : list (Z * Read)) : outcome server :=
  foldO (λ s nm, '(s, _) ← HandleRead s nm.1 nm.2; Done s) s l.

(** Mode 1 compares the clock values only. *)
Definition older ts ts' : bool :=
  if rtsMode =? 1 then timestamp ts <? timestamp ts' else ts_lt ts ts'.

(** The read at [ts] is recorded. *)
Definition recorded s key ts : Prop :=
  if rtsMode =? 1 then ∃ r, rts s !! key = Some r ∧ timestamp ts ≤ r
  else ts ∈ default [] (rts_list s !! key).
Definition rts_sorted s : Prop := ∀ key, ssorted id (default [] (rts_list s !! key)).

Hypothesis Hmode : rtsMode = 1 ∨ rtsMode = 2.

Lemma rts_list_insert s key l k :
  default [] (rts_list (upd_rts_list (insert key l) s) !! k) = if decide (key = k) then l else default [] (rts_list s !! k).
Proof. cbn. rewrite lookup_insert. by case_decide. Qed.

Lemma SetRTS_sorted s ts key : rts_sorted s → rts_sorted (SetRTS s ts key).
Proof.
  intros Hs. unfold SetRTS. destruct (rtsMode =? 1); [by repeat case_match|]. destruct (rtsMode =? 2); [|done].
  intros k. cbn. rewrite lookup_insert. case_decide; [|apply Hs]. cbn. apply seq_insert_sorted; [exact _|apply Hs].
Qed.

Lemma SetRTS_records s ts key : rts_sorted s → recorded (SetRTS s ts key) key ts.
Proof.
  intros Hs. unfold recorded, SetRTS. destruct (Z.eqb_spec rtsMode 1) as [H1|H1].
  - destruct (rts s !! key) as [r|] eqn:Hr; [destruct (Z.gtb_spec (timestamp ts) r)|]; cbn; rewrite ?lookup_insert_eq; eauto with lia.
  - rewrite (proj2 (Z.eqb_eq _ _)) by naive_solver. cbn. rewrite lookup_insert_eq. cbn.
    apply elem_of_set_insert; [apply Hs|]. by left.
Qed.

Lemma SetRTS_keeps s ts key ts' key' :
  rts_sorted s → recorded s key ts → recorded (SetRTS s ts' key') key ts.
Proof.
  intros Hs. unfold recorded, SetRTS. destruct (Z.eqb_spec rtsMode 1) as [H1|H1].
  - intros (r & Hr & Hle). destruct (decide (key' = key)) as [->|Hne].
    + rewrite Hr. destruct (Z.gtb_spec (timestamp ts') r); cbn; rewrite ?lookup_insert_eq; eauto with lia.
    + destruct (rts s !! key'); [case_match|]; cbn; rewrite ?lookup_insert_ne by done; eauto.
  - rewrite (proj2 (Z.eqb_eq _ _)) by naive_solver. intros Hin. cbn. rewrite lookup_insert.
    case_decide; [subst|done]. cbn. apply elem_of_set_insert; [apply Hs|]. by right.
Qed.

Lemma HandleRead_state s now m s' r :
  HandleRead s now m = Done (s', r) →
  s' = (if CheckHighWatermark now (rd_timestamp m) || IsPolicyId (rd_key m) then s
        else SetRTS s (rd_timestamp m) (rd_key m)).
Proof.
  unfold Reads.HandleRead. destruct (CheckHighWatermark _ _); [by intros [= <- _]|]. cbn [orb andb].
  intros (r1 & _ & Hrest)%bind_Done. apply bind_Done in Hrest as ([s1 r3] & H3 & [= <- <-]).
  destruct (IsPolicyId (rd_key m)); cbn [negb] in H3; [by inv_outcome|].
  destruct (maxDepDepth >? -2); by inv_outcome.
Qed.

Lemma read_all_records s l s' nm :
  rts_sorted s → read_all s l = Done s' → nm ∈ l →
  CheckHighWatermark nm.1 (rd_timestamp nm.2) = false → IsPolicyId (rd_key nm.2) = false →
  recorded s' (rd_key nm.2) (rd_timestamp nm.2) ∧ rts_sorted s'.
Proof.
  intros Hs Hl Hin Hw Hk. revert s Hs Hl.
  assert (∀ l s, rts_sorted s → read_all s l = Done s' → rts_sorted s' ∧
            (recorded s (rd_key nm.2) (rd_timestamp nm.2) → recorded s' (rd_key nm.2) (rd_timestamp nm.2))) as Hkeep.
  { clear l Hin. induction l as [|[nw m] l IH]; intros s Hs Hl; cbn in Hl; inv_outcome; [done|].
    destruct x0 as [s2 o]. inv_outcome.
    match goal with H : Reads.HandleRead _ _ _ _ _ _ = _ |- _ => apply HandleRead_state in H as -> end.
    destruct (CheckHighWatermark nw _ || IsPolicyId _); [by apply IH|].
    edestruct IH as [? Hk']; [|done|]; [by apply SetRTS_sorted|]. split; [done|]. intros Hr. by apply Hk', SetRTS_keeps. }
  induction l as [|[nw m] l IH]; [set_solver|]. intros s Hs Hl. cbn in Hl. inv_outcome.
  destruct x0 as [s2 o]. inv_outcome.
  match goal with H : Reads.HandleRead _ _ _ _ _ _ = _ |- _ => apply HandleRead_state in H as -> end.
  apply elem_of_cons in Hin as [->|Hin].
  - cbn in *. rewrite Hw, Hk in *. cbn [orb] in *. edestruct Hkeep as [? Hk']; [|done|]; [by apply SetRTS_sorted|].
    split; [|done]. by apply Hk', SetRTS_records.
  - destruct (CheckHighWatermark nw _ || IsPolicyId _).
    + by apply (IH Hin s).
    + eapply (IH Hin); [|done]. by apply SetRTS_sorted.
Qed.

(** ** The check looks the record up *)

Lemma check_rts_blocks s key ts t :
  rts_sorted s → recorded s key ts → older t ts = true → (check_rts s t key).2 = Some (plain ABSTAIN).
Proof.
  intros Hs. unfold recorded, older, check_rts. destruct (Z.eqb_spec rtsMode 1) as [H1|H1].
  { intros (r & -> & Hle) Hlt%Z.ltb_lt. cbn. by rewrite (proj2 (Z.gtb_lt _ _)) by lia. }
  rewrite (proj2 (Z.eqb_eq rtsMode 2)) by naive_solver. intros Hin Hlt. cbn.
  specialize (Hs key). set (l := default [] (rts_list s !! key)) in *.
  pose proof (lower_bound_app id t l) as Happ. set (b := lower_bound id t l) in *.
  assert (ts ∈ b.2) as Hin2.
  { rewrite Happ in Hin. apply elem_of_app in Hin as [Hin|]; [|done].
    pose proof (lower_bound_before id _ _ _ Hin) as Hlt'. apply (ltb_asym (K := Timestamp)) in Hlt'. change (ts_lt t ts = false) in Hlt'. congruence. }
  assert (ssorted id b.2) as Hs2.
  { rewrite Happ in Hs. apply (ssorted_app id) in Hs as (_ & Hs & _). exact Hs. }
  assert (∀ x, x ∈ b.2 → ts_lt x t = false) as Hge by (intros x Hx; by apply (lower_bound_after id t l x Hs)).
  destruct b.2 as [|x l']; [set_solver|]. apply ssorted_cons in Hs2 as [_ Hx].
  destruct (ts_eq x t) eqn:Heq.
  - apply ts_eq_spec in Heq as ->. destruct l' as [|y l'].
    { apply list_elem_of_singleton in Hin2 as ->. pose proof (ltb_irrefl (K := Timestamp) t) as Hi.
      change (ts_lt t t = false) in Hi. congruence. }
    rewrite ts_gt_lt. assert (ts_lt t y = true) as ->; [|done]. apply Hx. set_solver.
  - rewrite ts_gt_lt. assert (ts_lt t x = true) as ->; [|done].
    destruct (ltb_trichotomy (K := Timestamp) t x) as [?|[->|Hlt']]; [done| |].
    + by rewrite (proj2 (ts_eq_spec x x)) in Heq.
    + change (ts_lt x t = true) in Hlt'. rewrite Hge in Hlt'; [done|set_solver].
Qed.

(** The loop over the writes leaves the records. *)
Definition same_rts s s' : Prop :=
  (∀ k, rts s' !! k = rts s !! k) ∧ ∀ k, default [] (rts_list s' !! k) = default [] (rts_list s !! k).

Lemma recorded_same s s' key ts : same_rts s s' → recorded s key ts → recorded s' key ts.
Proof. intros [H1 H2]. unfold recorded. by rewrite H1, H2. Qed.
Lemma sorted_same s s' : same_rts s s' → rts_sorted s → rts_sorted s'.
Proof. intros [_ H] Hs k. by rewrite H. Qed.

Lemma check_policy_rts w pid ts w' ov : check_policy w pid ts = Done (w', ov) → same_rts (wl_s w) (wl_s w').
Proof.
  unfold check_policy, policyCheckHelper. case_bool_decide; [by intros [= <- _]|].
  intros Heq. inv_outcome. destruct x as [[s1 impl] ov1].
  assert (same_rts (wl_s w) s1) by (repeat case_match; by simplify_eq).
  repeat case_match; by simplify_eq.
Qed.

Lemma check_write_conflicts_rts s ts w s' ov :
  check_write_conflicts s ts w = Done (s', ov) →
  same_rts s s' ∧ (ov = None → (check_rts s ts (w_key w)).2 = None) ∧ (∀ v, ov = Some v → v_result v ≠ COMMIT).
Proof.
  unfold check_write_conflicts. intros (o1 & H1 & Heq)%bind_Done.
  assert (∀ v, o1 = Some v → v_result v ≠ COMMIT) as Hv1.
  { revert H1. generalize (reverse (default [] (committedReads s !! w_key w))). intros l. induction l as [|[[a b] c] l IH]; cbn.
    - by intros [= <-].
    - repeat case_match; try done; intros Hq; inv_outcome; auto; naive_solver. }
  destruct o1 as [v|]; [simplify_eq; split_and!; [done|done|exact Hv1]|]. apply bind_Done in Heq as (o2 & H2 & Heq).
  assert (∀ v, o2 = Some v → v_result v ≠ COMMIT) as Hv2.
  { revert H2. generalize (elements (default ∅ (preparedReads s !! w_key w))). intros l. induction l as [|q l IH]; cbn.
    - by intros [= <-].
    - intros Hq. inv_outcome. repeat case_match; try done; inv_outcome; auto; naive_solver. }
  destruct o2 as [v|]; [simplify_eq; split_and!; [done|done|exact Hv2]|]. injection Heq as Heq. rewrite Heq. cbn.
  split_and!; [|done|].
  - unfold check_rts in Heq. destruct (rtsMode =? 1); [by repeat case_match; simplify_eq|].
    destruct (rtsMode =? 2); simplify_eq; [|done]. split; [done|]. intros k. cbn. rewrite lookup_insert.
    case_decide; [by subst|done].
  - intros v ->. unfold check_rts in Heq. repeat case_match; simplify_eq; done.
Qed.

Lemma check_write_rts pt ts w x w' ov :
  check_write pt ts w x = Done (w', ov) →
  same_rts (wl_s w) (wl_s w') ∧ (∀ v, ov = Some v → v_result v ≠ COMMIT) ∧
  (ov = None → w_is_table_col_version x = false → IsKeyOwned (w_key x) = true →
   ∃ s, same_rts (wl_s w) s ∧ (check_rts s ts (w_key x)).2 = None).
Proof.
  unfold check_write. destruct (w_is_table_col_version x); [by intros [= <- <-]|].
  destruct (negb (bool_decide (pt = POLICY_ID_POLICY)) && negb (IsKeyOwned (w_key x))) eqn:Hsk.
  { intros [= <- <-]. split_and!; [done..|]. intros _ _ Ho. rewrite Ho, andb_false_r in Hsk. done. }
  intros ([w1 o1] & H1 & Heq)%bind_Done.
  assert (same_rts (wl_s w) (wl_s w1) ∧ ∀ v, o1 = Some v → v_result v ≠ COMMIT) as [Hs1 Hv1].
  { assert (∀ pid, check_policy w pid ts = Done (w1, o1) → ∀ v, o1 = Some v → v_result v ≠ COMMIT) as Hpol.
    { intros pid Hp v ->. unfold check_policy, policyCheckHelper in Hp. case_bool_decide; [done|]. inv_outcome.
      destruct x0 as [[s1 impl] ov1]. repeat case_match; simplify_eq; done. }
    destruct pt; [destruct policyCCC; [|by injection H1 as <- <-]|]; (split; [by eapply check_policy_rts|by eapply Hpol]). }
  destruct o1 as [v|]; [simplify_eq; split_and!; [done|exact Hv1|done]|].
  apply bind_Done in Heq as ([s2 o2] & H2 & [= <- <-]). cbn.
  apply check_write_conflicts_rts in H2 as (Hs2 & Hn & Hv). split_and!; [|done|].
  - destruct Hs1 as [A1 B1], Hs2 as [A2 B2]. split; intros k; [by rewrite A2|by rewrite B2].
  - intros Ho _ _. exists (wl_s w1). auto.
Qed.

Lemma check_writes_blocked pt t ws w key ts w' ov :
  rts_sorted (wl_s w) → recorded (wl_s w) key ts → older t ts = true →
  (∃ x, x ∈ ws ∧ w_key x = key ∧ w_is_table_col_version x = false ∧ IsKeyOwned key = true) →
  check_writes pt t w ws = Done (w', ov) → ∃ v, ov = Some v ∧ v_result v ≠ COMMIT.
Proof.
  intros Hs Hr Ho. revert w Hs Hr. induction ws as [|y ws IH]; intros w Hs Hr (x & Hx & <- & Ht & Hk) Hc; [set_solver|].
  cbn in Hc. apply bind_Done in Hc as ([w1 o1] & H1 & Hc). apply check_write_rts in H1 as (Hsame & Hv & Hn).
  destruct o1 as [v|]; [simplify_eq; eauto|]. apply elem_of_cons in Hx as [<-|Hx].
  - destruct (Hn eq_refl Ht Hk) as (s & Hs' & Hnone).
    rewrite (check_rts_blocks s (w_key x) ts t) in Hnone; [done| | |done]; [by eapply sorted_same|by eapply recorded_same].
  - eapply IH; [| |by eauto 10|done]; [by eapply sorted_same|by eapply recorded_same].
Qed.

Lemma check_reads_verdict s ts l v : check_reads s ts l = Done (Some v) → v_result v ≠ COMMIT.
Proof.
  induction l as [|r l IH]; cbn; [done|]. intros (o & Hr & Hl)%bind_Done. destruct o as [v'|]; [|by apply IH].
  simplify_eq. unfold check_read, check_prepared_writes in Hr. repeat case_match; inv_outcome; try done;
    repeat case_match; inv_outcome; try done; repeat case_match; by inv_outcome.
Qed.

(** C24: reads block older writes.  With [rtsMode] 1 or 2 (mode 0 records
    nothing), after a replica with sorted read timestamps has answered a sequence of
    reads, and before anything else changes its state (commits, aborts and clearing of
    read timestamps are not part of the sequence), consider a transaction that is not
    prepared yet and writes a key of this replica, not as a table version, that one of
    the reads asked for; the read was not above the high watermark and not of a policy
    id.  If its timestamp is older than that read's (in mode 1 by the clock values
    alone, in mode 2 by the whole timestamps), the concurrency control does not answer
    COMMIT, and nothing is prepared or left to prepare. *)
Theorem reads_block_older_writes s l s' nm now d p t w rs ds ps remote reqId ff ig cb s'' v dl :
  rts_sorted s → read_all s l = Done s' → nm ∈ l →
  CheckHighWatermark nm.1 (rd_timestamp nm.2) = false → IsPolicyId (rd_key nm.2) = false →
  heap s' !! p = Some t → w ∈ write_set t → w_key w = rd_key nm.2 → w_is_table_col_version w = false →
  IsKeyOwned (w_key w) = true → older (t_timestamp t) (rd_timestamp nm.2) = true →
  prepared s' !! d = None →
  DoMVTSOOCCCheck s' now d p rs ds ps remote reqId ff ig cb = Done (s'', v, dl) →
  v_result v ≠ COMMIT ∧ dl = None ∧ prepared s'' = prepared s'.
Proof.
  intros Hs Hl Hin Hw Hk Ht Hwin Hwk Hwt Hwo Hold Hp.
  destruct (read_all_records s l s' nm Hs Hl Hin Hw Hk) as [Hrec Hs']. unfold DoMVTSOOCCCheck.
  rewrite bool_decide_eq_false_2 by (rewrite Hp; by intros []). intros ([[s1 early] cp] & H1 & H2)%bind_Done.
  apply bind_Done in H1 as ([s2 r] & Hocc & H1). pose proof (occ_checks_prepared _ _ _ _ _ _ _ _ _ Hocc) as Hpr.
  assert (∃ v, r = inl v ∧ v_result v ≠ COMMIT) as (v0 & -> & Hv0).
  { clear H1 H2. unfold occ_checks, deref in Hocc. rewrite Ht in Hocc. cbn [mbind outcome_bind] in Hocc.
    do 2 (case_match; [simplify_eq; by exists (plain ABSTAIN)|]). apply bind_Done in Hocc as (_ & _ & Hocc).
    apply bind_Done in Hocc as (o & Hrd & Hocc). destruct o as [vr|].
    { simplify_eq. apply check_reads_verdict in Hrd. eauto. }
    apply bind_Done in Hocc as ([w1 o1] & Hcw & Hocc).
    apply (check_writes_blocked _ _ _ _ (rd_key nm.2) (rd_timestamp nm.2)) in Hcw as (vw & -> & Hvw); try done.
    { simplify_eq. eauto. }
    exists w. by rewrite <- Hwk. }
  simplify_eq. by inv_outcome.
Qed.
End protection.

(** ** Reads from the future *)

Section future.
Context `{E : Env}.
Implicit Types (s : server) (ts : Timestamp).

(** Reads of versions that are not below the transaction's own timestamp. *)
Definition reads_future ts (reads : list ReadMessage) : bool := forallb (λ r, ts_le ts (r_readtime r)) reads.

Lemma not_below a b c : ts_lt a b = true → ts_le b c = true → ts_lt c a = false.
Proof.
  rewrite ts_le_lt, negb_true_iff. intros H1 H2. apply (ltb_asym (K := Timestamp)).
  exact (ltb_le_trans (K := Timestamp) a b c H1 H2).
Qed.

Lemma last_lower_bound {A} (l : list (Timestamp * A)) ts e : last (lower_bound fst ts l).1 = Some e → ts_lt e.1 ts = true.
Proof. intros [l' Hl]%last_Some. pose proof (lower_bound_before fst ts l e) as Hb. rewrite Hl in Hb. apply Hb. set_solver. Qed.

(** No check of a replica looks at a read of a version at or above the
    transaction's own timestamp: whatever is committed or prepared, such reads
    pass, although the transaction is ordered before the one it read from.
    The client does not compare the versions it is given with its timestamp
    either. *)
Theorem future_reads_pass s ts reads :
  hideTimestamps = false → reads_future ts reads = true → check_reads s ts reads = Done None.
Proof.
  intros Hh. induction reads as [|r reads IH]; cbn; [done|]. intros [Hr Hrs]%andb_true_iff.
  assert (check_read s ts r = Done None) as ->; [|by apply IH].
  assert (check_prepared_writes s ts r = Done None) as Hp.
  { unfold check_prepared_writes, GetPreceedingPreparedWrite. destruct (preparedWrites s !! r_key r) as [l|]; [|done].
    destruct (last _) as [[pts q]|] eqn:Hl; [|done]. apply last_lower_bound in Hl. cbn in Hl.
    by rewrite (not_below _ _ _ Hl Hr). }
  unfold check_read. rewrite Hh. cbn [negb andb uw_assert mbind outcome_bind]. do 2 (case_match; [done|]).
  rewrite getPreceedingCommit_versions. destruct (last _) as [[cts v]|] eqn:Hl; [|done].
  apply last_lower_bound in Hl. cbn in Hl. rewrite (not_below _ _ _ Hl Hr). by case_match.
Qed.
End future.
