(* ===== verification/ReadExamples.v ===== *)
(** * Concrete reads

    A replica with one committed and one prepared version of a key; instances
    of the theorems of Reads.v and ReadProtection.v. *)
From S2P Require Import Prelude OrderedSeq CppString Timestamp VersionStore Policy PolicyParse ServerState DemoEnv ServerTxn MVTSO MVTSOSafety Endorse Reads ReadProtection.

Module ReadExample.

(** [mode] is [rtsMode]; chains of dependencies have at most [depth]
    elements. *)
Definition read_env (mode depth : Z) : Env := {|
  validateProofs := true; signedMessages := true; verifyDeps := false;
  signClientProposals := false; multiThreading := false; mainThreadDispatching := false;
  dispatchMessageReceive := false; all_to_all_fb := false;
  rtsMode := mode; maxDepDepth := depth; no_fallback := true; sql_mode := false;
  useSemanticCC := false; cacheReadSet := false; mergeActiveAtClient := true;
  hideTimestamps := false; policyCCC := false; parallelEndorsementCheck := false;
  serverSkipEndorsementCheck := false; includeReadsetForTxnPolicy := false;
  checkPolicyLeak := false; signFinishValidation := false; simulate_inconsistency := false;
  disable_prepare_visibility := true; config_n := 6; idx := 0; replica_id := 0; groupIdx := 0; numGroups := 1;
  timeDelta := 0; part := λ _, 0; policyIdFunction := λ _ _, "p#0"; TimestampDigest := λ _, "";
  parse_PolicyObject := λ _, mkPolicyObject WEIGHT_POLICY "0"; proto_codec := {| ser_u64 := λ _, ""; parse_u64 := λ _, 0;
    ser_ids := λ _, ""; parse_ids := λ _, [] |};
  parse_ValTxnMsg := λ x, x; verify_client := λ _ _ _, true;
  sem_state := unit; CheckMonotonicTableColVersions := λ _ _ _, true;
  CheckPredicates := λ _ _ _ _ _, (COMMIT, []);
  RecordReadPredicatesAndWrites := λ x _ _ _, x; ClearPredicateAndWrites := λ x _, x;
  ApplyTableWrites := λ _ _ _, []; mergeQueries := λ _ _, (COMMIT, None)
|}.

Definition at_ts (n : Z) : Timestamp := mkTs n 1.
Definition txn (d : digest) (n : Z) (v : string) (dps : list Dependency) : Transaction :=
  mkTxn 1 n [] [mkWrite "k" (Some v) false] dps (at_ts n) [] [] [] (Some d) None NONE [] [] "" [] [] [0].
Definition hash_of (t : Transaction) : digest := default "" (txndigest t).
Definition sign_of (w : Write) : SignedMessage := mkSigned 0 "" "".

(** "a" committed at 5; "b" is prepared at 7 and depends on "c", which is
    ongoing; "d" would write at 6. *)
Definition replica (mode depth : Z) : @server (read_env mode depth) :=
  let E := read_env mode depth in
  upd_heap (λ _, {[1%positive := txn "a" 5 "old" []; 2%positive := txn "b" 7 "new" [mkDep "c" (at_ts 3) 0];
                   3%positive := txn "c" 3 "dep" []; 4%positive := txn "d" 6 "late" []]})
    (upd_ongoing (λ _, {["b" := 2%positive; "c" := 3%positive; "d" := 4%positive]})
      (upd_prepared (λ _, {["b" := (at_ts 7, 2%positive)]})
        (upd_preparedWrites (λ _, {["k" := [(at_ts 7, 2%positive)]]})
          (upd_store (λ _, put vs_empty "k" (mkValue "old" 1) (at_ts 5)) (server_init tt))))).

Definition the_read : Read := mkReadMsg 9 "k" (at_ts 8) false.

Lemma dependency_depth_terminates_witness :
  ∃ n, @DependencyDepth (read_env 1 1) (replica 1 1) 2 = Done (Z.of_nat n) ∧
    @chain (read_env 1 1) (replica 1 1) 2 n ∧ ∀ j, @chain (read_env 1 1) (replica 1 1) 2 j → (j ≤ n)%nat.
Proof.
  apply (@dependency_depth_terminates (read_env 1 1) (replica 1 1) 2 (λ q, 10 - Pos.to_nat q)%nat).
  - by eexists.
  - assert (map_Forall (λ _ q, is_Some (@heap (read_env 1 1) (replica 1 1) !! q)) (@ongoing (read_env 1 1) (replica 1 1))) as H
      by (refine (bool_decide_unpack _ _); vm_compute; done).
    intros d q Hq. exact (H d q Hq).
  - assert (map_Forall (λ q t, Forall (λ q', 10 - Pos.to_nat q' < 10 - Pos.to_nat q)%nat (@dep_ptrs (read_env 1 1) (replica 1 1) t))
              (@heap (read_env 1 1) (replica 1 1))) as H by (refine (bool_decide_unpack _ _); vm_compute; done).
    intros q t q' Hq Hin. exact (proj1 (Forall_forall _ _) (H q t Hq) q' Hin).
  - vm_compute. done.
Defined.

(** The prepared version is in the reply: its depth, 1, is allowed. *)
Lemma read_answered_exactly_witness :
  let E := read_env 1 1 in
  let s := replica 1 1 in
  ∃ r w, HandleRead hash_of sign_of true s 100 the_read = Done (SetRTS s (at_ts 8) "k", Some r) ∧
    carries sign_of r w ∧ rr_req_id r = 9 ∧ committed_part s (at_ts 8) "k" w r ∧
    prepared_part hash_of s (at_ts 8) "k" w r.
Proof.
  apply (@read_answered_exactly (read_env 1 1) hash_of sign_of (replica 1 1) 100 the_read).
  - reflexivity.
  - cbn. lia.
  - cbn. apply vs_wf_put, vs_wf_empty.
  - split; [apply (ssorted_singleton fst)|]. intros e He%list_elem_of_singleton. subst e. by eexists.
  - reflexivity.
  - reflexivity.
  - intros _ e He%list_elem_of_singleton. subst e. eexists. vm_compute. reflexivity.
  - right.
    assert (map_Forall (λ q _, bool_decide (is_Some (match @DependencyDepth (read_env 1 1) (replica 1 1) q with Done n => Some n | Panic => None end)))
              (@heap (read_env 1 1) (replica 1 1))) as H by (refine (bool_decide_unpack _ _); vm_compute; done).
    intros q [t Ht]. specialize (H q t Ht). apply bool_decide_unpack in H.
    destruct (DependencyDepth _ _) as [n|]; [by exists n|by destruct H].
Defined.

(** "d" writes below the read at 8: it is not prepared. *)
Lemma reads_block_older_writes_witness :
  let E := read_env 1 1 in
  ∃ s' s'' v dl, read_all hash_of sign_of (replica 1 1) [(100, the_read)] = Done s' ∧
    DoMVTSOOCCCheck s' 100 "d" 4 [] [] [] 0 0 false false false = Done (s'', v, dl) ∧
    v_result v ≠ COMMIT ∧ dl = None ∧ prepared s'' = prepared s'.
Proof.
  cbn zeta. eexists _, _, _, _. split; [vm_compute; reflexivity|]. split; [vm_compute; reflexivity|].
  eapply (@reads_block_older_writes (read_env 1 1) hash_of sign_of (or_introl eq_refl) (replica 1 1) [(100, the_read)] _ (100, the_read)
            100 "d" 4 (txn "d" 6 "late" []) (mkWrite "k" (Some "late") false) [] [] [] 0 0 false false false).
  - intros key. apply (ssorted_nil id).
  - vm_compute. reflexivity.
  - by apply list_elem_of_singleton.
  - reflexivity.
  - reflexivity.
  - reflexivity.
  - by apply list_elem_of_singleton.
  - reflexivity.
  - reflexivity.
  - reflexivity.
  - reflexivity.
  - reflexivity.
  - vm_compute. reflexivity.
Defined.
End ReadExample.
