(* ===== verification/ReadClient.v ===== *)
(** * Reads at a client

    [ShardClient] (src/src/store/sintrstore/shardclient.cc) buffers the writes
    of the current transaction, sends a read to the closest replicas and
    combines their replies: the newest committed version with a valid proof,
    unless enough replies agree on a newer prepared one. *)
From S2P Require Import Prelude OrderedSeq CppString Timestamp VersionStore Policy PolicyParse ServerState Quorum Reads.

(** [Dependency] as a client builds it. *)
Record ReadDependency := mkReadDep { rdep_write : Write; rdep_write_sigs : list SignedMessage; rdep_involved_group : Z }.

Record PendingQuorumGet := mkGet {
  pg_key : string;
  pg_rqs : Z;
  pg_rds : Z;
  pg_maxTs : Timestamp;
  pg_maxValue : string;
  pg_numReplies : Z;
  pg_prepared : list (Timestamp * (Write * Z));
  pg_preparedSigs : gmap Timestamp (list SignedMessage);
  pg_dep : option ReadDependency;
  pg_hasDep : bool;
  pg_firstCommittedReply : bool;
  pg_get_from_put : bool;
  pg_maxCommittedProof : option CommittedProof;
  pg_maxWrite : option SignedMessage;
  pg_maxPolicy : option EndorsementPolicyMessage;
  pg_maxPolicyTs : Timestamp
}.
Definition PendingQuorumGet_new (key : string) (rqs rds : Z) (get_from_put : bool) : PendingQuorumGet :=
  mkGet key rqs rds ts_zero "" 0 [] ∅ None false true get_from_put None None None ts_zero.

(** The arguments of the read callback; its status is [REPLY_OK]. *)
Record ReadResult := mkResult {
  res_key : string;
  res_value : string;
  res_ts : Timestamp;
  res_dep : option ReadDependency;
  res_hasDep : bool;
  res_addReadSet : bool;
  res_proof : option CommittedProof;
  res_write : option SignedMessage;
  res_policy : option EndorsementPolicyMessage;
  res_tsDigest : option string;
  res_policyTs : Timestamp
}.
Inductive ReadOut :=
| SendRead (replica : Z) (m : Read)
| ReadCallback (r : ReadResult)
| ReadTimeout (key : string).

(** The members of [ShardClient] a read uses; of [txn] the read and the write
    set. *)
Record ReadState := mkRS {
  rs_lastReqId : Z;
  rs_pendingGets : gmap Z PendingQuorumGet;
  rs_readValues : gmap string string;
  rs_read_set : list ReadMessage;
  rs_write_set : list WriteMessage;
  rs_out : list ReadOut
}.
Definition rs_emit (o : list ReadOut) (st : ReadState) : ReadState :=
  mkRS (rs_lastReqId st) (rs_pendingGets st) (rs_readValues st) (rs_read_set st) (rs_write_set st) (rs_out st ++ o).
Definition upd_pendingGets (f : gmap Z PendingQuorumGet → gmap Z PendingQuorumGet) (st : ReadState) : ReadState :=
  mkRS (rs_lastReqId st) (f (rs_pendingGets st)) (rs_readValues st) (rs_read_set st) (rs_write_set st) (rs_out st).

(** [Clear()]. *)
Definition Transaction_empty : Transaction :=
  mkTxn 0 0 [] [] [] ts_zero [] [] [] None None NONE [] [] "" [] [] [].
Definition CommittedProof_empty : CommittedProof := mkProof Transaction_empty None.
Definition SignedMessage_empty : SignedMessage := mkSigned 0 "" "".

(** The fields [operator==] compares. *)
Definition prepared_fields (w : Write) : PreparedWrite :=
  mkPW (default "" (wr_prepared_value w)) (plain_ts (wr_prepared_ts w)) (default "" (wr_prepared_txn_digest w)).

Definition Begin (st : ReadState) : ReadState :=
  mkRS (rs_lastReqId st) (rs_pendingGets st) ∅ [] [] (rs_out st).
Definition Put (key value : string) (st : ReadState) : ReadState :=
  mkRS (rs_lastReqId st) (rs_pendingGets st) (rs_readValues st) (rs_read_set st)
    (rs_write_set st ++ [mkWrite key (Some value) false]) (rs_out st).

(** A value of the transaction itself: its first write of the key, or the value
    read before. *)
Definition BufferGet (key : string) (st : ReadState) : option ReadResult :=
  match List.find (λ w, bool_decide (w_key w = key)) (rs_write_set st) with
  | Some w => Some (mkResult key (w_value w) ts_zero None false false None None None None ts_zero)
  | None =>
      match List.find (λ r, bool_decide (r_key r = key)) (rs_read_set st) with
      | Some r => Some (mkResult key (default "" (rs_readValues st !! key)) (r_readtime r) None false false
                          None None None (Some (r_hashed_readtime r)) ts_zero)
      | None => None
      end
  end.

Section client.
Variable config : Configuration.
Variable ser_cc : CCMsg → string.
Variable ser_p2 : P2Msg → string.
Variable Verify : Z → string → string → bool.
Variable TransactionDigest : Transaction → digest.
Variable TimestampDigest : Timestamp → string.
Variable parse_write : string → option Write.
Variable ser_policy : PolicyObject → string.
(** [clear_table_version] of a read predicate. *)
Variable clear_table_version : string → string.
Variables validateProofs signedMessages verifyDeps hideTimestamps : bool.
Variables maxDepDepth readIncludePolicy : Z.
Variable get_policy_shard_client : bool.
Variable group : Z.
(** [GetNthClosestReplica]. *)
Variable closestReplicas : list Z.

Definition policy_requested (reqId : Z) : bool :=
  ((readIncludePolicy >? 0) && (reqId `mod` readIncludePolicy =? 0)) || get_policy_shard_client.

Definition Get (key : string) (ts : Timestamp) (readMessages rqs rds : Z) (get_from_put : bool) (st : ReadState) :
    outcome ReadState :=
  match BufferGet key st with
  | Some r => Done (rs_emit [ReadCallback r] st)
  | None =>
      let reqId := rs_lastReqId st in
      let m := mkReadMsg reqId key ts (policy_requested reqId) in
      _ ← uw_assert (readMessages <=? Z.of_nat (length closestReplicas));
      Done (mkRS (u64 (reqId + 1)) (<[reqId := PendingQuorumGet_new key rqs rds get_from_put]> (rs_pendingGets st))
              (rs_readValues st) (rs_read_set st) (rs_write_set st)
              (rs_out st ++ ((λ i, SendRead i m) <$> take (Z.to_nat readMessages) closestReplicas)))
  end.

Definition GetTimeout (reqId : Z) (st : ReadState) : ReadState :=
  match rs_pendingGets st !! reqId with
  | Some q => rs_emit [ReadTimeout (pg_key q)] (upd_pendingGets (delete reqId) st)
  | None => st
  end.

(** ** One reply *)

(** [std::string] fields that are set. *)
Definition isset {A} (o : option A) : bool := bool_decide (is_Some o).

(** The write of a reply; [None]: the reply is dropped. *)
Definition open_reply (reply : ReadReply) : outcome (option Write) :=
  if validateProofs && signedMessages then
    match rr_body reply with
    | SignedWrite sm =>
        if negb (Verify (sm_process_id sm) (sm_data sm) (sm_signature sm)) then Done None
        else Done (parse_write (sm_data sm))
    | _ =>
        let w := rr_write reply in
        if isset (wr_committed_value w) then Done None
        else if verifyDeps && isset (wr_prepared_value w) then Panic
        else Done (Some w)
    end
  else Done (Some (rr_write reply)).

Definition reply_ts (inside : TsOneof) (outside : option Timestamp) : Timestamp :=
  if hideTimestamps then default ts_zero outside else plain_ts inside.
Definition reply_hash (inside : TsOneof) : string := if hideTimestamps then hashed_ts inside else "".

(** The committed version of a reply; [None]: its proof is missing or
    invalid. *)
Definition check_committed (key : string) (reply : ReadReply) (w : Write) :
    outcome (option (option (Timestamp * string))) :=
  match wr_committed_value w with
  | Some v =>
      if has_plain (wr_committed_ts w) || isset (rr_committed_timestamp reply) then
        let ts := reply_ts (wr_committed_ts w) (rr_committed_timestamp reply) in
        if validateProofs then
          match rr_proof reply with
          | None => Done None
          | Some pr =>
              ok ← ValidateTransactionWrite config ser_cc ser_p2 Verify pr (TransactionDigest (cp_txn pr)) key v ts
                     signedMessages (reply_hash (wr_committed_ts w));
              Done (if ok : bool then Some (Some (ts, v)) else None)
          end
        else Done (Some (Some (ts, v)))
      else Done (Some None)
  | None => Done (Some None)
  end.

(** The policy of a reply; [None]: its proof is missing or invalid. *)
Definition check_policy_part (reply : ReadReply) (w : Write) :
    outcome (option (option (Timestamp * EndorsementPolicyMessage))) :=
  match wr_committed_policy w with
  | None => Done (Some None)
  | Some pol =>
      _ ← uw_assert (policy_requested (rr_req_id reply));
      let ts := reply_ts (wr_committed_policy_ts w) (rr_committed_policy_timestamp reply) in
      if validateProofs then
        match rr_policy_proof reply with
        | None => Done None
        | Some pr =>
            ok ← ValidateTransactionWrite config ser_cc ser_p2 Verify pr (TransactionDigest (cp_txn pr)) (ep_policy_id pol)
                   (ser_policy (ep_policy pol)) ts signedMessages (reply_hash (wr_committed_policy_ts w));
            Done (if ok : bool then Some (Some (ts, pol)) else None)
        end
      else Done (Some (Some (ts, pol)))
  end.

Definition count_reply (q : PendingQuorumGet) : PendingQuorumGet :=
  mkGet (pg_key q) (pg_rqs q) (pg_rds q) (pg_maxTs q) (pg_maxValue q) (u64 (pg_numReplies q + 1)) (pg_prepared q)
    (pg_preparedSigs q) (pg_dep q) (pg_hasDep q) (pg_firstCommittedReply q) (pg_get_from_put q) (pg_maxCommittedProof q)
    (pg_maxWrite q) (pg_maxPolicy q) (pg_maxPolicyTs q).

(** A new maximum takes the proof and the signed write out of the reply. *)
Definition is_new_max (q : PendingQuorumGet) (ts : Timestamp) : bool := pg_firstCommittedReply q || ts_lt (pg_maxTs q) ts.
Definition take_max (reply : ReadReply) (ts : Timestamp) (v : string) (q : PendingQuorumGet) : outcome PendingQuorumGet :=
  if is_new_max q ts then
    match rr_body reply with
    | SignedWrite sm =>
        Done (mkGet (pg_key q) (pg_rqs q) (pg_rds q) ts v (pg_numReplies q) (pg_prepared q) (pg_preparedSigs q) (pg_dep q)
                (pg_hasDep q) (pg_firstCommittedReply q) (pg_get_from_put q)
                (match rr_proof reply with Some pr => Some pr | None => pg_maxCommittedProof q end) (Some sm)
                (pg_maxPolicy q) (pg_maxPolicyTs q))
    | _ => Panic
    end
  else Done q.

Definition take_policy (op : option (Timestamp * EndorsementPolicyMessage)) (q : PendingQuorumGet) : PendingQuorumGet :=
  match op with
  | Some (ts, pol) =>
      if pg_firstCommittedReply q || ts_lt (pg_maxPolicyTs q) ts
      then mkGet (pg_key q) (pg_rqs q) (pg_rds q) (pg_maxTs q) (pg_maxValue q) (pg_numReplies q) (pg_prepared q)
             (pg_preparedSigs q) (pg_dep q) (pg_hasDep q) (pg_firstCommittedReply q) (pg_get_from_put q)
             (pg_maxCommittedProof q) (pg_maxWrite q) (Some pol) ts
      else q
  | None => q
  end.
Definition not_first (q : PendingQuorumGet) : PendingQuorumGet :=
  mkGet (pg_key q) (pg_rqs q) (pg_rds q) (pg_maxTs q) (pg_maxValue q) (pg_numReplies q) (pg_prepared q)
    (pg_preparedSigs q) (pg_dep q) (pg_hasDep q) false (pg_get_from_put q) (pg_maxCommittedProof q)
    (pg_maxWrite q) (pg_maxPolicy q) (pg_maxPolicyTs q).

(** The committed branch of the handler: the request, whether the handler
    goes on, and whether the signed write was taken. *)
Definition committed_branch (reply : ReadReply) (w : Write) (q : PendingQuorumGet) :
    outcome (PendingQuorumGet * bool * bool) :=
  c ← check_committed (pg_key q) reply w;
  match c with
  | None => Done (q, false, false)
  | Some None => Done (q, true, false)
  | Some (Some (ts, v)) =>
      q' ← take_max reply ts v q;
      p ← check_policy_part reply w;
      match p with
      | None => Done (q', false, is_new_max q ts)
      | Some op => Done (not_first (take_policy op q'), true, is_new_max q ts)
      end
  end.

(** The prepared version of a reply. *)
Definition prepared_version (reply : ReadReply) (w : Write) : option Timestamp :=
  if (maxDepDepth >? -2) && isset (wr_prepared_value w) &&
     (has_plain (wr_prepared_ts w) || isset (rr_prepared_timestamp reply)) && isset (wr_prepared_txn_digest w)
  then Some (reply_ts (wr_prepared_ts w) (rr_prepared_timestamp reply)) else None.

(** [taken]: the signed write of the reply is now [maxWrite]. *)
Definition prepared_sig (reply : ReadReply) (taken : bool) (q : PendingQuorumGet) : SignedMessage :=
  match rr_body reply, taken with
  | SignedWrite sm, false => sm
  | _, _ => default SignedMessage_empty (pg_maxWrite q)
  end.
Definition with_prepared (l : list (Timestamp * (Write * Z))) (sigs : gmap Timestamp (list SignedMessage))
    (q : PendingQuorumGet) : PendingQuorumGet :=
  mkGet (pg_key q) (pg_rqs q) (pg_rds q) (pg_maxTs q) (pg_maxValue q) (pg_numReplies q) l sigs (pg_dep q) (pg_hasDep q)
    (pg_firstCommittedReply q) (pg_get_from_put q) (pg_maxCommittedProof q) (pg_maxWrite q) (pg_maxPolicy q) (pg_maxPolicyTs q).

Definition prepared_branch (reply : ReadReply) (w : Write) (taken : bool) (q : PendingQuorumGet) : PendingQuorumGet :=
  match prepared_version reply w with
  | None => q
  | Some ts =>
      let sigs := if validateProofs && signedMessages
                  then <[ts := default [] (pg_preparedSigs q !! ts) ++ [prepared_sig reply taken q]]> (pg_preparedSigs q)
                  else pg_preparedSigs q in
      match seq_find fst ts (pg_prepared q) with
      | None => with_prepared (seq_insert fst (ts, (w, 1)) (pg_prepared q)) sigs q
      | Some (_, (w0, n)) =>
          if write_eq (prepared_fields w0) (prepared_fields w)
          then with_prepared (seq_put fst (ts, (w0, u64 (n + 1))) (pg_prepared q)) sigs q
          else q
      end
  end.

(** ** Completion *)

(** The loop from the newest prepared version down to [maxTs]. *)
Fixpoint pick_prepared (maxTs : Timestamp) (rds : Z) (l : list (Timestamp * (Write * Z))) : option (Timestamp * Write) :=
  match l with
  | [] => None
  | (ts, (w, n)) :: l' =>
      if ts_lt ts maxTs then None
      else if n >=? rds then Some (ts, w) else pick_prepared maxTs rds l'
  end.
Definition choose (q : PendingQuorumGet) : PendingQuorumGet :=
  if maxDepDepth >? -2 then
    match pick_prepared (pg_maxTs q) (pg_rds q) (reverse (pg_prepared q)) with
    | None => q
    | Some (ts, w) =>
        let '(v, pr, mw) :=
          match wr_prepared_value w with
          | Some v => (v, (λ _, CommittedProof_empty) <$> pg_maxCommittedProof q, (λ _, SignedMessage_empty) <$> pg_maxWrite q)
          | None => (pg_maxValue q, pg_maxCommittedProof q, pg_maxWrite q)
          end in
        let sigs := if validateProofs && signedMessages then default [] (pg_preparedSigs q !! ts) else [] in
        mkGet (pg_key q) (pg_rqs q) (pg_rds q) ts v (pg_numReplies q) (pg_prepared q) (pg_preparedSigs q)
          (Some (mkReadDep w sigs group)) true (pg_firstCommittedReply q) (pg_get_from_put q) pr mw (pg_maxPolicy q)
          (pg_maxPolicyTs q)
    end
  else q.

Definition removeTsfromTx (t : Transaction) : Transaction :=
  mkTxn (client_id t) (client_seq_num t)
    ((λ r, mkRead (r_key r) ts_zero (r_is_table_col_version r) (r_hashed_readtime r)) <$> read_set t) (write_set t)
    (deps t) ts_zero (query_set t) (table_writes t) (clear_table_version <$> read_predicates t) (txndigest t)
    (merged_read_set t) (policy_type t) (implicit_policy_reads t) (endorsements t) (hashed_timestamp t) (lift_keys t)
    (policy_versions t) (involved_groups t).

Definition finish_read (reqId : Z) (q : PendingQuorumGet) (st : ReadState) : ReadState :=
  let q := choose q in
  let st := upd_pendingGets (delete reqId) st in
  match rs_readValues st !! pg_key q with
  | None =>
      let pr := if hideTimestamps then (λ p, mkProof (removeTsfromTx (cp_txn p)) (cp_sigs p)) <$> pg_maxCommittedProof q
                else pg_maxCommittedProof q in
      let res := mkResult (pg_key q) (pg_maxValue q) (pg_maxTs q) (pg_dep q) (pg_hasDep q && negb (pg_get_from_put q))
                   (negb (pg_get_from_put q)) pr (pg_maxWrite q) (pg_maxPolicy q)
                   (Some (if hideTimestamps then TimestampDigest (pg_maxTs q) else "")) (pg_maxPolicyTs q) in
      mkRS (rs_lastReqId st) (rs_pendingGets st) (<[pg_key q := pg_maxValue q]> (rs_readValues st))
        (rs_read_set st ++ [mkRead (pg_key q) (pg_maxTs q) false ""]) (rs_write_set st) (rs_out st ++ [ReadCallback res])
  | Some prev =>
      rs_emit [ReadCallback (mkResult (pg_key q) prev ts_zero (pg_dep q) false false None None None None ts_zero)] st
  end.

Definition HandleReadReply (st : ReadState) (reply : ReadReply) : outcome ReadState :=
  let reqId := rr_req_id reply in
  match rs_pendingGets st !! reqId with
  | None => Done st
  | Some q =>
      ow ← open_reply reply;
      match ow with
      | None => Done st
      | Some w =>
          '(q, go_on, taken) ← committed_branch reply w (count_reply q);
          if negb go_on then Done (upd_pendingGets (insert reqId q) st)
          else
            let q := prepared_branch reply w taken q in
            if pg_numReplies q >=? pg_rqs q then Done (finish_read reqId q st)
            else Done (upd_pendingGets (insert reqId q) st)
      end
  end.
End client.

(** A transaction that writes a key twice reads back the first value. *)
Theorem second_put_not_read key v1 v2 st :
  (∀ w, w ∈ rs_write_set st → w_key w ≠ key) →
  res_value <$> BufferGet key (Put key v2 (Put key v1 st)) = Some v1.
Proof.
  intros Hno. unfold BufferGet, Put. cbn [rs_write_set]. rewrite <- app_assoc. cbn [app].
  assert (∀ l l', (∀ w, w ∈ l → w_key w ≠ key) →
    List.find (λ w, bool_decide (w_key w = key)) (l ++ mkWrite key (Some v1) false :: l') = Some (mkWrite key (Some v1) false)) as Hf.
  { intros l l' Hl. induction l as [|x l IH]; cbn.
    - by rewrite bool_decide_eq_true_2.
    - rewrite bool_decide_eq_false_2 by (apply Hl; set_solver). apply IH. set_solver. }
  by rewrite Hf.
Qed.
