(* ===== verification/ReadClientSafety.v ===== *)
(** * What a read returns

    An invariant of a pending read in terms of the replies that arrived for
    it, and its consequence for the value handed to the transaction. *)
From S2P Require Import Prelude OrderedSeq CppString Timestamp VersionStore Policy PolicyParse ServerState Quorum Reads ReadClient.

Section safety.
Variable config : Configuration.
Variable ser_cc : CCMsg → string.
Variable ser_p2 : P2Msg → string.
Variable Verify : Z → string → string → bool.
Variable TransactionDigest : Transaction → digest.
Variable TimestampDigest : Timestamp → string.
Variable parse_write : string → option Write.
Variable ser_policy : PolicyObject → string.
Variable clear_table_version : string → string.
Variables validateProofs signedMessages verifyDeps hideTimestamps : bool.
Variables maxDepDepth readIncludePolicy : Z.
Variable get_policy_shard_client : bool.
Variable group : Z.
Variable closestReplicas : list Z.

Notation open_reply := (open_reply Verify parse_write validateProofs signedMessages verifyDeps).
Notation check_committed := (check_committed config ser_cc ser_p2 Verify TransactionDigest validateProofs signedMessages hideTimestamps).
Notation committed_branch := (committed_branch config ser_cc ser_p2 Verify TransactionDigest ser_policy validateProofs
  signedMessages hideTimestamps readIncludePolicy get_policy_shard_client).
Notation prepared_version := (prepared_version hideTimestamps maxDepDepth).
Notation prepared_branch := (prepared_branch validateProofs signedMessages hideTimestamps maxDepDepth).
Notation finish_read := (finish_read TimestampDigest clear_table_version validateProofs signedMessages hideTimestamps maxDepDepth group).
Notation choose := (choose validateProofs signedMessages maxDepDepth group).
Notation policy_requested := (policy_requested readIncludePolicy get_policy_shard_client).
Notation Get := (Get readIncludePolicy get_policy_shard_client closestReplicas).
Notation HandleReadReply := (HandleReadReply config ser_cc ser_p2 Verify TransactionDigest TimestampDigest parse_write ser_policy
  clear_table_version validateProofs signedMessages verifyDeps hideTimestamps maxDepDepth readIncludePolicy
  get_policy_shard_client group).
Implicit Types (q : PendingQuorumGet) (st : ReadState) (reply : ReadReply) (H : list ReadReply).

(** ** Runs of a shard client *)

Inductive ReadEvent :=
| EvBegin
| EvPut (key value : string)
| EvGet (key : string) (ts : Timestamp) (readMessages rqs rds : Z) (get_from_put : bool)
| EvReply (reply : ReadReply)
| EvTimeout (reqId : Z).
Definition read_step st (ev : ReadEvent) : outcome ReadState :=
  match ev with
  | EvBegin => Done (Begin st)
  | EvPut k v => Done (Put k v st)
  | EvGet k ts n rqs rds b => Get k ts n rqs rds b st
  | EvReply reply => HandleReadReply st reply
  | EvTimeout reqId => Done (GetTimeout reqId st)
  end.
Definition read_run st (L : list ReadEvent) : outcome ReadState := foldO read_step st L.

(** The replies that arrive for a request. *)
Definition replies_to (id : Z) (L : list ReadEvent) : list ReadReply :=
  omap (λ ev, match ev with EvReply r => if rr_req_id r =? id then Some r else None | _ => None end) L.

(** ** What a reply says *)

(** A committed version with a valid proof. *)
Definition accepted (key : string) reply : option (Timestamp * string) :=
  match open_reply reply with
  | Done (Some w) => match check_committed key reply w with Done (Some (Some tv)) => Some tv | _ => None end
  | _ => None
  end.
(** A prepared version that counts. *)
Definition supports (key : string) reply : option (Timestamp * Write) :=
  match open_reply reply with
  | Done (Some w) => match check_committed key reply w with Done (Some _) => (λ ts, (ts, w)) <$> prepared_version reply w | _ => None end
  | _ => None
  end.
Definition agrees (key : string) (ts : Timestamp) (w : Write) reply : bool :=
  match supports key reply with
  | Some (ts', w') => ts_eq ts' ts && write_eq (prepared_fields w) (prepared_fields w')
  | None => false
  end.
Definition support (key : string) (ts : Timestamp) (w : Write) H : Z := Z.of_nat (length (List.filter (agrees key ts w) H)).

Lemma write_eq_refl (a : PreparedWrite) : write_eq a a = true.
Proof. unfold write_eq. rewrite !bool_decide_eq_true_2 by done. by rewrite (proj2 (ts_eq_spec _ _)). Qed.

(** ** The invariant of a pending read *)

Record ReqInv H q : Prop := {
  ri_max : ∀ r tv, r ∈ H → accepted (pg_key q) r = Some tv → ts_lt (pg_maxTs q) tv.1 = false;
  ri_first : pg_firstCommittedReply q = true →
    pg_maxTs q = ts_zero ∧ pg_maxValue q = "" ∧ ∀ r, r ∈ H → accepted (pg_key q) r = None;
  ri_some : pg_firstCommittedReply q = false →
    ∃ r, r ∈ H ∧ accepted (pg_key q) r = Some (pg_maxTs q, pg_maxValue q);
  ri_sorted : ssorted fst (pg_prepared q);
  ri_prepared : ∀ ts w n, (ts, (w, n)) ∈ pg_prepared q →
    0 ≤ n ≤ support (pg_key q) ts w H ∧ is_Some (wr_prepared_value w);
  ri_dep : pg_hasDep q = false ∧ pg_dep q = None
}.

Lemma ReqInv_new key rqs rds b : ReqInv [] (PendingQuorumGet_new key rqs rds b).
Proof. split; cbn; try set_solver. constructor. Qed.

Lemma support_snoc key ts w H r : support key ts w (H ++ [r]) = support key ts w H + (if agrees key ts w r then 1 else 0).
Proof. unfold support. rewrite List.filter_app, length_app. cbn. case_match; cbn; lia. Qed.

(** A reply that says nothing. *)
Lemma ReqInv_silent H q r :
  ReqInv H q → accepted (pg_key q) r = None → supports (pg_key q) r = None → ReqInv (H ++ [r]) q.
Proof.
  intros [I1 I2 I3 I4 I5 I6] Ha Hs. split; auto.
  - intros r' tv [?| ->%list_elem_of_singleton]%elem_of_app Hr'; [by eapply I1|congruence].
  - intros Hf. destruct (I2 Hf) as (? & ? & Hn). split_and!; [done..|].
    intros r' [?| ->%list_elem_of_singleton]%elem_of_app; auto.
  - intros Hf. destruct (I3 Hf) as (r' & ? & ?). exists r'. set_solver.
  - intros ts w n Hin. destruct (I5 ts w n Hin) as [? ?]. rewrite support_snoc. case_match; (split; [lia|done]).
Qed.

(** The committed part of the invariant, after a reply. *)
Definition same_prepared q q' : Prop :=
  pg_key q' = pg_key q ∧ pg_rqs q' = pg_rqs q ∧ pg_rds q' = pg_rds q ∧ pg_prepared q' = pg_prepared q ∧
  pg_hasDep q' = pg_hasDep q ∧ pg_dep q' = pg_dep q ∧ pg_numReplies q' = pg_numReplies q ∧
  pg_get_from_put q' = pg_get_from_put q.

Hypothesis no_policies : ∀ reqId, policy_requested reqId = false.

Lemma take_max_spec reply ts v q q' :
  take_max reply ts v q = Done q' →
  same_prepared q q' ∧ pg_firstCommittedReply q' = pg_firstCommittedReply q ∧
  (if is_new_max q ts then pg_maxTs q' = ts ∧ pg_maxValue q' = v else q' = q).
Proof.
  unfold take_max. destruct (is_new_max q ts); [|by intros [= <-]].
  destruct (rr_body reply); by intros [= <-].
Qed.

Lemma committed_branch_spec H reply w q q' go taken :
  open_reply reply = Done (Some w) → ReqInv H q → committed_branch reply w q = Done (q', go, taken) →
  same_prepared q q' ∧
  (go = false → q' = q ∧ accepted (pg_key q) reply = None ∧ supports (pg_key q) reply = None) ∧
  (go = true → supports (pg_key q) reply = (λ ts, (ts, w)) <$> prepared_version reply w ∧
     (∀ r tv, r ∈ H ++ [reply] → accepted (pg_key q) r = Some tv → ts_lt (pg_maxTs q') tv.1 = false) ∧
     (pg_firstCommittedReply q' = true → pg_maxTs q' = ts_zero ∧ pg_maxValue q' = "" ∧
        ∀ r, r ∈ H ++ [reply] → accepted (pg_key q) r = None) ∧
     (pg_firstCommittedReply q' = false →
        ∃ r, r ∈ H ++ [reply] ∧ accepted (pg_key q) r = Some (pg_maxTs q', pg_maxValue q'))).
Proof.
  intros Hopen [I1 I2 I3 _ _ _] Hb. unfold ReadClient.committed_branch in Hb. apply bind_Done in Hb as (c & Hc & Hb).
  assert (accepted (pg_key q) reply = match c with Some (Some tv) => Some tv | _ => None end ∧
          supports (pg_key q) reply = match c with Some _ => (λ ts, (ts, w)) <$> prepared_version reply w | None => None end)
    as [Hacc Hsup] by (unfold accepted, supports; rewrite Hopen, Hc; by destruct c as [[]|]).
  destruct c as [[[ts v]|]|]; [|injection Hb as <- <- <-|injection Hb as <- <- <-; done].
  2:{ split; [done|]. split; [done|]. intros _. split_and!; [done|..].
      - intros r tv [?| ->%list_elem_of_singleton]%elem_of_app Hr; [by eapply I1|congruence].
      - intros Hf. destruct (I2 Hf) as (? & ? & Hn). split_and!; [done..|].
        intros r [?| ->%list_elem_of_singleton]%elem_of_app; auto.
      - intros Hf. destruct (I3 Hf) as (r & ? & ?). exists r. set_solver. }
  apply bind_Done in Hb as (q1 & Hq1 & Hb). apply bind_Done in Hb as (p & Hp & Hb).
  assert (p = Some None) as ->.
  { unfold check_policy_part in Hp. rewrite no_policies in Hp. destruct (wr_committed_policy w); by inv_outcome. }
  injection Hb as <- <- <-. apply take_max_spec in Hq1 as (Hsame & Hfirst & Hmax). cbn.
  split; [exact Hsame|]. split; [done|]. intros _. split; [done|]. unfold is_new_max in Hmax.
  destruct (pg_firstCommittedReply q) eqn:Hf; cbn [orb] in Hmax.
  - destruct Hmax as [-> ->]. destruct (I2 eq_refl) as (_ & _ & Hn). split_and!; [|done|].
    + intros r tv [Hr| ->%list_elem_of_singleton]%elem_of_app Htv; [by rewrite Hn in Htv|].
      rewrite Hacc in Htv. simplify_eq. apply (ltb_irrefl (K := Timestamp)).
    + intros _. exists reply. set_solver.
  - destruct (ts_lt (pg_maxTs q) ts) eqn:Hlt.
    + destruct Hmax as [-> ->]. split_and!; [|done|].
      * intros r tv [Hr| ->%list_elem_of_singleton]%elem_of_app Htv.
        -- specialize (I1 r tv Hr Htv). apply (ltb_asym (K := Timestamp)).
           exact (le_ltb_trans (K := Timestamp) _ _ _ I1 Hlt).
        -- rewrite Hacc in Htv. simplify_eq. apply (ltb_irrefl (K := Timestamp)).
      * intros _. exists reply. set_solver.
    + subst q1. split_and!; [|done|].
      * intros r tv [Hr| ->%list_elem_of_singleton]%elem_of_app Htv; [by eapply I1|].
        rewrite Hacc in Htv. by simplify_eq.
      * intros _. destruct (I3 eq_refl) as (r & ? & ?). exists r. set_solver.
Qed.

(** The prepared part. *)
Definition prepared_ok H q : Prop :=
  ssorted fst (pg_prepared q) ∧
  ∀ ts w n, (ts, (w, n)) ∈ pg_prepared q → 0 ≤ n ≤ support (pg_key q) ts w H ∧ is_Some (wr_prepared_value w).

Lemma u64_succ_le n : 0 ≤ n → 0 ≤ u64 (n + 1) ≤ n + 1.
Proof. intros Hn. unfold u64. split; [by apply Z.mod_pos_bound|apply Z.mod_le; lia]. Qed.

Lemma prepared_ok_snoc H q reply : prepared_ok H q → prepared_ok (H ++ [reply]) q.
Proof.
  intros [Hs Hp]. split; [done|]. intros ts w n Hin. destruct (Hp ts w n Hin) as [? ?]. rewrite support_snoc.
  case_match; (split; [lia|done]).
Qed.

Lemma prepared_version_value reply w ts : prepared_version reply w = Some ts → is_Some (wr_prepared_value w).
Proof.
  unfold ReadClient.prepared_version, isset. case_match eqn:Hc; [|done]. intros _. rewrite !andb_true_iff in Hc.
  destruct Hc as [[[_ Hc] _] _]. by apply bool_decide_eq_true in Hc.
Qed.

Lemma prepared_branch_spec H reply w taken q :
  supports (pg_key q) reply = (λ ts, (ts, w)) <$> prepared_version reply w → prepared_ok H q →
  let q' := prepared_branch reply w taken q in
  prepared_ok (H ++ [reply]) q' ∧ pg_key q' = pg_key q ∧ pg_rqs q' = pg_rqs q ∧ pg_rds q' = pg_rds q ∧
  pg_hasDep q' = pg_hasDep q ∧ pg_dep q' = pg_dep q ∧ pg_maxTs q' = pg_maxTs q ∧ pg_maxValue q' = pg_maxValue q ∧
  pg_firstCommittedReply q' = pg_firstCommittedReply q.
Proof.
  intros Hsup Hok. unfold ReadClient.prepared_branch.
  destruct (prepared_version reply w) as [ts|] eqn:Hv; [|split_and!; by try apply prepared_ok_snoc].
  cbn in Hsup. pose proof (prepared_version_value _ _ _ Hv) as Hval.
  destruct (prepared_ok_snoc _ _ reply Hok) as [Hs Hp]. pose proof (proj2 Hok) as Hp0.
  destruct (seq_find fst ts (pg_prepared q)) as [[ts0 [w0 n]]|] eqn:Hf.
  - apply (seq_find_Some fst _ _ _ (proj1 Hok)) in Hf as [Hin Hts]. cbn in Hts. subst ts0.
    destruct (write_eq _ _) eqn:Heq; [|split_and!; done]. split_and!; try done. split; cbn [pg_prepared with_prepared pg_key].
    + exact (seq_put_sorted fst _ _ Hs).
    + intros ts' w' n' [[= -> -> ->]|[Hin' _]]%(elem_of_seq_put fst _ _ _ Hs); [|by apply Hp].
      destruct (Hp0 ts w0 n Hin) as [? ?]. split; [|done]. rewrite support_snoc.
      assert (agrees (pg_key q) ts w0 reply = true) as ->.
      { unfold agrees. rewrite Hsup, Heq. by rewrite (proj2 (ts_eq_spec _ _)). }
      pose proof (u64_succ_le n). lia.
  - split_and!; try done. split; cbn [pg_prepared with_prepared pg_key].
    + exact (seq_insert_sorted fst _ _ Hs).
    + intros ts' w' n' [Hin'|[[= -> -> ->] _]]%(elem_of_seq_insert fst _ _ _ Hs); [by apply Hp|]. split; [|done].
      rewrite support_snoc.
      assert (agrees (pg_key q) ts w reply = true) as ->.
      { unfold agrees. rewrite Hsup, write_eq_refl. by rewrite (proj2 (ts_eq_spec _ _)). }
      unfold support. lia.
Qed.

Lemma ReqInv_count H q : ReqInv H q → ReqInv H (count_reply q).
Proof. by intros [I1 I2 I3 I4 I5 I6]; split. Qed.

(** A reply for the request: it is dropped, or kept, or completes it. *)
Lemma reply_cases H st reply q st' :
  rs_pendingGets st !! rr_req_id reply = Some q → ReqInv H q → HandleReadReply st reply = Done st' →
  ∃ q', ReqInv (H ++ [reply]) q' ∧ pg_key q' = pg_key q ∧ pg_rds q' = pg_rds q ∧ pg_rqs q' = pg_rqs q ∧
    (st' = upd_pendingGets (insert (rr_req_id reply) q') st ∨ st' = finish_read (rr_req_id reply) q' st).
Proof.
  intros Hq HI. unfold ReadClient.HandleReadReply. rewrite Hq. intros (ow & Hopen & Hr)%bind_Done.
  destruct ow as [w|].
  2:{ injection Hr as <-. exists q. split_and!; [|done..|].
      - apply ReqInv_silent; [done|..]; unfold accepted, supports; by rewrite Hopen.
      - left. unfold upd_pendingGets. rewrite insert_id by done. by destruct st. }
  apply bind_Done in Hr as ([[q1 go] taken] & Hc & Hr). pose proof (ReqInv_count _ _ HI) as HI1.
  pose proof HI1 as [_ _ _ J4 J5 J6].
  destruct (committed_branch_spec H reply w _ _ _ _ Hopen HI1 Hc) as ((K1 & K2 & K3 & K4 & K5 & K6 & _) & Hno & Hgo).
  destruct go; cbn [negb] in Hr.
  - destruct (Hgo eq_refl) as (Hsup & G1 & G2 & G3).
    destruct (prepared_branch_spec H reply w taken q1) as (P0 & P1 & P2 & P3 & P4 & P5 & P6 & P7 & P8).
    { by rewrite K1. }
    { split; rewrite ?K1, K4; [exact J4|exact J5]. }
    exists (prepared_branch reply w taken q1). destruct P0 as [Ps Pp]. split_and!.
    + split; [..|exact Ps|exact Pp|]; rewrite ?P1, ?P6, ?P7, ?P8, ?P4, ?P5, ?K1, ?K5, ?K6; auto.
    + by rewrite P1, K1.
    + by rewrite P3, K3.
    + by rewrite P2, K2.
    + case_match; simplify_eq; auto.
  - destruct (Hno eq_refl) as (-> & Ha & Hs). injection Hr as <-. exists (count_reply q). split_and!; [|done..|by left].
    by apply ReqInv_silent.
Qed.

(** ** The invariant of the client *)

Definition ReadInv (id : Z) (key : string) (rds : Z) H st : Prop :=
  0 ≤ id < rs_lastReqId st ∧
  ∀ q, rs_pendingGets st !! id = Some q → ReqInv H q ∧ pg_key q = key ∧ pg_rds q = rds.

Lemma finish_read_pending id q st : rs_pendingGets (finish_read id q st) = delete id (rs_pendingGets st) ∧
  rs_lastReqId (finish_read id q st) = rs_lastReqId st.
Proof. unfold ReadClient.finish_read. cbn. by case_match. Qed.

Lemma read_step_inv id key rds H st ev st' :
  rs_lastReqId st + 1 < 2^64 → ReadInv id key rds H st → read_step st ev = Done st' →
  ReadInv id key rds (H ++ replies_to id [ev]) st' ∧ rs_lastReqId st' ≤ rs_lastReqId st + 1.
Proof.
  intros H64 [Hid HI] Hs. destruct ev as [|k v|k ts n rqs' rds' b|reply|tid]; cbn in Hs;
    unfold replies_to; cbn [omap list_omap]; rewrite ?app_nil_r.
  - injection Hs as <-. split; [by split|cbn; lia].
  - injection Hs as <-. split; [by split|cbn; lia].
  - unfold ReadClient.Get in Hs. destruct (BufferGet k st); [injection Hs as <-; split; [by split|cbn; lia]|].
    inv_outcome. cbn. rewrite u64_small by lia. split; [|cbn; lia]. split; cbn; [lia|].
    intros q. rewrite lookup_insert_ne by lia. apply HI.
  - destruct (Z.eqb_spec (rr_req_id reply) id) as [Heq|Hne].
    + destruct (rs_pendingGets st !! id) as [q|] eqn:Hq.
      * destruct (HI q eq_refl) as (HR & <- & <-). rewrite <- Heq in Hq.
        destruct (reply_cases H st reply q st' Hq HR Hs) as (q' & HR' & K1 & K2 & _ & [-> | ->]).
        -- split; [|cbn; lia]. split; [done|]. cbn. rewrite Heq. intros q2. rewrite lookup_insert_eq. by intros [= <-].
        -- destruct (finish_read_pending (rr_req_id reply) q' st) as [Hp Hl]. split; [|lia].
           unfold ReadInv. rewrite Hp, Hl, Heq. split; [done|]. intros q2. by rewrite lookup_delete_eq.
      * unfold ReadClient.HandleReadReply in Hs. rewrite Heq, Hq in Hs. injection Hs as <-.
        split; [|lia]. split; [done|]. by rewrite Hq.
    + rewrite app_nil_r. unfold ReadClient.HandleReadReply in Hs. destruct (rs_pendingGets st !! rr_req_id reply) as [q|] eqn:Hq.
      2:{ injection Hs as <-. split; [by split|lia]. }
      assert (∀ q', ReadInv id key rds H (upd_pendingGets (insert (rr_req_id reply) q') st)) as Hins.
      { intros q'. split; [done|]. cbn. intros q2. rewrite lookup_insert_ne by done. apply HI. }
      apply bind_Done in Hs as (ow & _ & Hs). destruct ow as [w|]; [|injection Hs as <-; split; [by split|lia]].
      apply bind_Done in Hs as ([[q1 go] taken] & _ & Hs). destruct (negb go); [injection Hs as <-; split; [done|cbn; lia]|].
      case_match; injection Hs as <-; [|split; [done|cbn; lia]].
      destruct (finish_read_pending (rr_req_id reply) (prepared_branch reply w taken q1) st) as [Hp Hl].
      split; [|lia]. unfold ReadInv. rewrite Hp, Hl, lookup_delete_ne by done. by split.
  - injection Hs as <-. unfold GetTimeout. destruct (rs_pendingGets st !! tid) as [q|]; [|split; [by split|cbn; lia]].
    split; [|cbn; lia]. split; [done|]. cbn. intros q2 [_ Hq2]%lookup_delete_Some. by apply HI.
Qed.

Lemma replies_to_cons id ev L : replies_to id (ev :: L) = replies_to id [ev] ++ replies_to id L.
Proof. unfold replies_to. cbn. by destruct (match ev with EvReply _ => _ | _ => _ end). Qed.

Lemma read_run_inv id key rds L H st st' :
  rs_lastReqId st + Z.of_nat (length L) < 2^64 → ReadInv id key rds H st → read_run st L = Done st' →
  ReadInv id key rds (H ++ replies_to id L) st'.
Proof.
  revert H st. induction L as [|ev L IH]; intros H st H64 HI Hr; cbn in Hr.
  { injection Hr as <-. by rewrite app_nil_r. }
  apply bind_Done in Hr as (st1 & Hs & Hr). cbn [length] in H64.
  destruct (read_step_inv id key rds H st ev st1) as [HI1 Hl]; [lia|done..|].
  rewrite replies_to_cons, app_assoc. apply (IH _ st1); [lia|done..].
Qed.

(** ** The result *)

Lemma pick_prepared_spec m rds l ts w :
  pick_prepared m rds l = Some (ts, w) → ∃ n, (ts, (w, n)) ∈ l ∧ rds ≤ n ∧ ts_lt ts m = false.
Proof.
  induction l as [|[ts' [w' n]] l IH]; cbn; [done|]. destruct (ts_lt ts' m) eqn:Hlt; [done|].
  destruct (Z.geb_spec n rds).
  - intros [= -> ->]. exists n. split_and!; [set_solver|lia|done].
  - intros (n' & ? & ? & ?)%IH. exists n'. split_and!; [set_solver|done..].
Qed.

(** The value a completed read hands over, given the replies [H] to it: a
    committed version that one of them carries with a valid proof, or a
    prepared one that [rds] of them agree on, or nothing. *)
Definition justified (key : string) (rds : Z) H (res : ReadResult) : Prop :=
  (∃ r, r ∈ H ∧ accepted key r = Some (res_ts res, res_value res)) ∨
  (∃ w sigs, rds ≤ support key (res_ts res) w H ∧ wr_prepared_value w = Some (res_value res) ∧
     res_dep res = Some (mkReadDep w sigs group)) ∨
  (res_ts res = ts_zero ∧ res_value res = "" ∧ ∀ r, r ∈ H → accepted key r = None).

Lemma choose_spec H q :
  ReqInv H q →
  let q' := choose q in
  pg_key q' = pg_key q ∧ ts_lt (pg_maxTs q') (pg_maxTs q) = false ∧
  ((pg_maxTs q' = pg_maxTs q ∧ pg_maxValue q' = pg_maxValue q) ∨
   ∃ w sigs, pg_rds q ≤ support (pg_key q) (pg_maxTs q') w H ∧ wr_prepared_value w = Some (pg_maxValue q') ∧
     pg_dep q' = Some (mkReadDep w sigs group)).
Proof.
  intros [_ _ _ _ I5 _]. unfold ReadClient.choose.
  assert (ts_lt (pg_maxTs q) (pg_maxTs q) = false) by apply (ltb_irrefl (K := Timestamp)).
  destruct (maxDepDepth >? -2); [|by auto].
  destruct (pick_prepared _ _ _) as [[ts w]|] eqn:Hp; [|by auto].
  apply pick_prepared_spec in Hp as (n & Hin & Hn & Hlt). rewrite elem_of_reverse in Hin.
  destruct (I5 ts w n Hin) as [Hsup [v Hv]]. rewrite Hv. cbn. split_and!; [done..|]. right. eexists w, _.
  split_and!; [lia|done|reflexivity].
Qed.

Lemma completed_read id key rds H st1 reply st2 :
  ReadInv id key rds H st1 → is_Some (rs_pendingGets st1 !! id) → rs_readValues st1 !! key = None →
  rr_req_id reply = id → HandleReadReply st1 reply = Done st2 → rs_pendingGets st2 !! id = None →
  ∃ res, rs_out st2 = rs_out st1 ++ [ReadCallback res] ∧ res_key res = key ∧
    rs_read_set st2 = rs_read_set st1 ++ [mkRead key (res_ts res) false ""] ∧
    justified key rds (H ++ [reply]) res ∧
    ∀ r tv, r ∈ H ++ [reply] → accepted key r = Some tv → ts_le tv.1 (res_ts res) = true.
Proof.
  intros [_ HI] [q Hq] Hrv <- Hs Hdone. destruct (HI q Hq) as (HR & <- & <-).
  destruct (reply_cases _ _ _ _ _ Hq HR Hs) as (q' & HR' & K1 & K2 & _ & [-> | ->]).
  { cbn in Hdone. by rewrite lookup_insert_eq in Hdone. }
  destruct (choose_spec _ _ HR') as (C1 & C2 & C3). unfold ReadClient.finish_read. cbn [rs_readValues upd_pendingGets].
  rewrite C1, K1, Hrv. eexists. split; [reflexivity|]. cbn. split_and!; [done|done| |].
  - unfold justified. cbn. destruct C3 as [[-> ->]|(w & sigs & Hsup & Hv & Hd)].
    + destruct (pg_firstCommittedReply q') eqn:Hf.
      * right; right. rewrite <- K1. by apply (ri_first _ _ HR').
      * left. rewrite <- K1. by apply (ri_some _ _ HR').
    + right; left. exists w, sigs. rewrite <- K1, <- K2. done.
  - intros r tv Hr Htv. rewrite <- K1 in Htv. pose proof (ri_max _ _ HR' r tv Hr Htv) as Hle.
    rewrite ts_le_lt, negb_true_iff. destruct (ts_lt (pg_maxTs (choose q')) tv.1) eqn:Hlt; [|done].
    pose proof (le_ltb_trans (K := Timestamp) _ _ _ C2 Hlt) as Hc. change (ts_lt (pg_maxTs q') tv.1 = true) in Hc. congruence.
Qed.

Lemma fresh_read_inv id key rqs rds b st :
  rs_pendingGets st !! id = Some (PendingQuorumGet_new key rqs rds b) → 0 ≤ id < rs_lastReqId st →
  ReadInv id key rds [] st.
Proof. intros Hp Hid. split; [done|]. intros q Hq. simplify_eq. split; [apply ReqInv_new|done]. Qed.

(** C22: the result of a read, for a client that does not ask for policies
    ([policy_requested] false) and whose request ids are fresh and fit 64 bits.
    Replies arrive in any order, among timeouts and other requests.  When one of them
    completes the request, and the transaction has neither read nor written the key by
    then, the result is handed over and is what the read set records.  It is the value
    and timestamp of a committed version that some reply carried with a proof the client
    accepts, or of a prepared write on which at least [rds] replies agree, or the empty
    value at timestamp 0 when no reply carried an accepted version; and its timestamp is
    at least that of every committed version that a reply carried and the client
    accepted.  (When policies are asked for, an invalid policy proof can make an older
    version replace a newer one.) *)
Theorem read_result_newest st0 id key rqs rds b L st1 reply st2 :
  rs_pendingGets st0 !! id = Some (PendingQuorumGet_new key rqs rds b) →
  0 ≤ id < rs_lastReqId st0 → rs_lastReqId st0 + Z.of_nat (length L) < 2^64 →
  read_run st0 L = Done st1 → is_Some (rs_pendingGets st1 !! id) → rs_readValues st1 !! key = None →
  rr_req_id reply = id → HandleReadReply st1 reply = Done st2 → rs_pendingGets st2 !! id = None →
  ∃ res, rs_out st2 = rs_out st1 ++ [ReadCallback res] ∧ res_key res = key ∧
    rs_read_set st2 = rs_read_set st1 ++ [mkRead key (res_ts res) false ""] ∧
    justified key rds (replies_to id L ++ [reply]) res ∧
    ∀ r tv, r ∈ replies_to id L ++ [reply] → accepted key r = Some tv → ts_le tv.1 (res_ts res) = true.
Proof.
  intros Hp Hid H64 Hrun. apply (completed_read id key rds).
  apply (read_run_inv _ _ _ L [] st0 st1 H64); [by eapply fresh_read_inv|done].
Qed.
End safety.

(** ** Hidden timestamps are not authenticated *)

Section hidden.
Variable config : Configuration.
Variable ser_cc : CCMsg → string.
Variable ser_p2 : P2Msg → string.
Variable Verify : Z → string → string → bool.
Variable TransactionDigest : Transaction → digest.
Variable parse_write : string → option Write.
Variables validateProofs signedMessages verifyDeps : bool.

Notation open_reply := (open_reply Verify parse_write validateProofs signedMessages verifyDeps).
Notation accepted := (accepted config ser_cc ser_p2 Verify TransactionDigest parse_write validateProofs signedMessages verifyDeps true).

Lemma ValidateTransactionWrite_hashed pr d key v t t' h :
  h ≠ "" →
  ValidateTransactionWrite config ser_cc ser_p2 Verify pr d key v t' signedMessages h =
  ValidateTransactionWrite config ser_cc ser_p2 Verify pr d key v t signedMessages h.
Proof. intros Hh. unfold ValidateTransactionWrite. by rewrite !(bool_decide_eq_false_2 (h = "")). Qed.

(** With [hideTimestamps] the signed write and the proof name the hash of
    the timestamp only, and the client does not hash the timestamp that comes
    beside them: a reply that is accepted is also accepted with any other
    timestamp, which then decides which version counts as the newest and is
    recorded in the read set. *)
Theorem hidden_timestamp_unchecked key r w t v t' :
  open_reply r = Done (Some w) → hashed_ts (wr_committed_ts w) ≠ "" →
  accepted key r = Some (t, v) → accepted key (add_committed_ts (Some t') r) = Some (t', v).
Proof.
  intros Hopen Hh. unfold ReadClientSafety.accepted.
  change (open_reply (add_committed_ts (Some t') r)) with (open_reply r). rewrite Hopen.
  unfold ReadClient.check_committed. destruct (wr_committed_value w) as [x|]; [|done].
  cbn [rr_committed_timestamp add_committed_ts rr_proof]. rewrite orb_true_r.
  destruct (has_plain (wr_committed_ts w) || isset (rr_committed_timestamp r)); [|done].
  unfold reply_ts, reply_hash. cbn [default from_option id]. destruct validateProofs; [|by intros [= _ ->]].
  destruct (rr_proof r) as [pr|]; [|done].
  rewrite (ValidateTransactionWrite_hashed _ _ _ _ (default ts_zero (rr_committed_timestamp r)) t') by done.
  destruct (ValidateTransactionWrite _ _ _ _ _ _ _ _ _ _ _) as [[]|]; cbn; [by intros [= _ ->]|done..].
Qed.
End hidden.
