(* ===== verification/ReadRecency.v ===== *)
(** * Reads from replica to client

    Composes [HandleRead] of a replica with [HandleReadReply] of a client, and
    states what the checks on the way do not cover. *)
From S2P Require Import Prelude OrderedSeq CppString Timestamp VersionStore Policy PolicyParse ServerState DemoEnv ServerTxn MVTSO MVTSOSafety Endorse Quorum Reads ReadClient ReadClientSafety.

Section recency.
Context `{E : Env}.
Variable config : Configuration.
Variable ser_cc : CCMsg → string.
Variable ser_p2 : P2Msg → string.
Variable Verify : Z → string → string → bool.
Variable TransactionDigest : Transaction → digest.
Variable sign : Write → SignedMessage.
Variable parse_write : string → option Write.
Variable ser_policy : PolicyObject → string.
Variable clear_table_version : string → string.
Variable readIncludePolicy : Z.
Variable get_policy_shard_client : bool.
Variable group : Z.
Variable closestReplicas : list Z.
Implicit Types (s : server) (key : string) (reply : ReadReply) (e : Timestamp * Value).

(** The client runs with the flags of the replicas. *)
Notation read_run := (read_run config ser_cc ser_p2 Verify TransactionDigest TimestampDigest parse_write ser_policy
  clear_table_version validateProofs signedMessages verifyDeps hideTimestamps maxDepDepth readIncludePolicy
  get_policy_shard_client group closestReplicas).
Notation HandleReadReply := (HandleReadReply config ser_cc ser_p2 Verify TransactionDigest TimestampDigest parse_write ser_policy
  clear_table_version validateProofs signedMessages verifyDeps hideTimestamps maxDepDepth readIncludePolicy
  get_policy_shard_client group).
Notation HandleRead := (HandleRead TransactionDigest sign true).
Notation accepted := (accepted config ser_cc ser_p2 Verify TransactionDigest parse_write validateProofs signedMessages verifyDeps
  hideTimestamps).

Notation support := (support config ser_cc ser_p2 Verify TransactionDigest parse_write validateProofs signedMessages verifyDeps
  hideTimestamps maxDepDepth).

(** A signed write verifies and parses. *)
Definition signer_ok : Prop :=
  ∀ w, Verify (sm_process_id (sign w)) (sm_data (sign w)) (sm_signature (sign w)) = true ∧
       parse_write (sm_data (sign w)) = Some w.
(** The proofs a replica keeps of the versions of a key are there and valid. *)
Definition proofs_ok s key : Prop :=
  ∀ e, e ∈ versions_of (store s) key → ∃ pr, read_proof s (v_proof e.2) = Done pr ∧
    ValidateTransactionWrite config ser_cc ser_p2 Verify pr (TransactionDigest (cp_txn pr)) key (val e.2) e.1
      signedMessages (reply_hash hideTimestamps (ts_in_write e.1)) = Done true.

(** A correct replica's reply is accepted with the newest version. *)
Lemma replica_reply_accepted s now m s' r e :
  signer_ok → proofs_ok s (rd_key m) → validateProofs = true → signedMessages = true →
  IsPolicyId (rd_key m) = false → -2 < maxDepDepth → vs_wf (store s) → prepared_index s (rd_key m) →
  HandleRead s now m = Done (s', Some r) →
  e ∈ versions_of (store s) (rd_key m) → readable (rd_timestamp m) e = true →
  ∃ tv, accepted (rd_key m) r = Some tv ∧ ts_le e.1 tv.1 = true.
Proof.
  intros Hsig Hpr Hv Hs Hk Hd Hwf Hi Hr He Hre.
  destruct (read_reply_parts TransactionDigest sign s now m s' r) as (w & _ & _ & Hc & _ & _ & Hbody); [done..|].
  unfold committed_part in Hc. destruct (wr_committed_value w) as [x|] eqn:Hx; [|by rewrite Hc in Hre].
  destruct Hc as (e0 & (Hin & _ & Hmax) & -> & Hts & Hout & Hproof). destruct (Hproof Hv) as (pr & Hrp & Hrr).
  specialize (Hbody Hv Hs ltac:(done)). exists (e0.1, val e0.2). split; [|by apply Hmax].
  destruct (Hsig w) as [Hver Hparse]. destruct (Hpr e0 Hin) as (pr' & Hrp' & Hval).
  assert (pr' = pr) as -> by congruence.
  assert (reply_ts hideTimestamps (wr_committed_ts w) (rr_committed_timestamp r) = e0.1 ∧
          has_plain (wr_committed_ts w) || isset (rr_committed_timestamp r) = true) as [Hrts Hset].
  { rewrite Hts. unfold reply_ts, ts_in_write. destruct hideTimestamps; cbn; [|done]. rewrite (Hout eq_refl). done. }
  unfold ReadClientSafety.accepted, open_reply, check_committed. rewrite Hv, Hs in *. cbn [andb].
  rewrite Hbody, Hver. cbn [negb]. rewrite Hparse, Hx, Hset, Hrr, Hrts, Hts, Hval. done.
Qed.

Hypothesis no_policies : ∀ reqId, policy_requested readIncludePolicy get_policy_shard_client reqId = false.

(** C21: a read reflects what the replicas that answered have committed.  The
    client and the replica check proofs and signatures and do not hide timestamps
    ([validateProofs], [signedMessages], [hideTimestamps = false]), the client does
    not ask for policies, [maxDepDepth > -2], the key is not a policy id, and the
    transaction has neither read nor written it when the last reply comes; request
    ids are 64-bit and fresh.  If one of the replies that arrived for the read was
    computed by [HandleRead] at a replica whose signed writes verify and parse
    back, whose store and index of prepared writes are well formed, and which has a
    valid proof of every version of the key, then, whatever the other replies say,
    the read that a reply completes returns a value at least as new as every
    version this replica had that is readable at the read timestamp; and the value
    and its timestamp are those of a committed version some reply carried with a
    valid proof, or of a prepared write on which [rds] replies agree.  With
    [hideTimestamps] the timestamp that comes beside a reply is not checked:
    [hidden_timestamp_unchecked]. *)
Theorem read_sees_replica_versions st0 id key rqs rds b L st1 reply st2 s now m s' r e :
  signer_ok → proofs_ok s key → validateProofs = true → signedMessages = true → hideTimestamps = false →
  IsPolicyId key = false → -2 < maxDepDepth → vs_wf (store s) → prepared_index s key →
  rs_pendingGets st0 !! id = Some (PendingQuorumGet_new key rqs rds b) →
  0 ≤ id < rs_lastReqId st0 → rs_lastReqId st0 + Z.of_nat (length L) < 2^64 →
  read_run st0 L = Done st1 → is_Some (rs_pendingGets st1 !! id) → rs_readValues st1 !! key = None →
  rr_req_id reply = id → HandleReadReply st1 reply = Done st2 → rs_pendingGets st2 !! id = None →
  r ∈ replies_to id L ++ [reply] → rd_key m = key → HandleRead s now m = Done (s', Some r) →
  e ∈ versions_of (store s) key → readable (rd_timestamp m) e = true →
  ∃ res, rs_out st2 = rs_out st1 ++ [ReadCallback res] ∧ res_key res = key ∧ ts_le e.1 (res_ts res) = true ∧
    ((∃ r', r' ∈ replies_to id L ++ [reply] ∧ accepted key r' = Some (res_ts res, res_value res)) ∨
     (∃ w sigs, rds ≤ support key (res_ts res) w (replies_to id L ++ [reply]) ∧ wr_prepared_value w = Some (res_value res) ∧
        res_dep res = Some (mkReadDep w sigs group))).
Proof.
  intros Hsig Hpr Hv Hs _ Hk Hd Hwf Hi Hp Hid H64 Hrun Hpend Hrv Hq Hstep Hdone Hr <- Hhr He Hre.
  destruct (replica_reply_accepted s now m s' r e) as (tv & Hacc & Hle); [done..|].
  assert (ReadInv config ser_cc ser_p2 Verify TransactionDigest parse_write validateProofs signedMessages verifyDeps hideTimestamps
            maxDepDepth id (rd_key m) rds (replies_to id L) st1) as HI.
  { eapply (read_run_inv _ _ _ _ _ _ _ _ _ _ _ _ _ _ _ _ _ _ no_policies id (rd_key m) rds L [] st0 st1 H64); [|exact Hrun].
    by eapply fresh_read_inv. }
  edestruct (completed_read config ser_cc ser_p2 Verify TransactionDigest TimestampDigest parse_write ser_policy
    clear_table_version validateProofs signedMessages verifyDeps hideTimestamps maxDepDepth readIncludePolicy
    get_policy_shard_client group no_policies id (rd_key m) rds) as (res & Hout & Hkey & _ & Hjust & Hmax); [exact HI|done..|].
  exists res. split_and!; [done..| |destruct Hjust as [?|[?|(_ & _ & Hnone)]]; [by left|by right|by rewrite (Hnone r Hr) in Hacc]].
  specialize (Hmax r tv Hr Hacc).
  rewrite ts_le_lt, negb_true_iff in *. destruct (ts_lt (res_ts res) e.1) eqn:Hlt; [|done].
  pose proof (ltb_le_trans (K := Timestamp) _ _ _ Hlt Hle) as Hc. change (ts_lt (res_ts res) tv.1 = true) in Hc. congruence.
Qed.
End recency.
