(* ===== verification/ReadClientExamples.v ===== *)
(** * Concrete reads at a client

    Instances of the theorems on reads, and runs in which a single faulty
    replica decides what a client reads. *)
From S2P Require Import Prelude OrderedSeq CppString Timestamp VersionStore Policy PolicyParse ServerState DemoEnv ServerTxn MVTSO MVTSOSafety Endorse Quorum Reads ReadProtection ReadExamples ReadClient ReadClientSafety ReadRecency.

Module ReadClientExample.
Import QuorumExample ReadExample.

(** ** A serialization of writes *)

#[local] Instance TsOneof_eq_dec : EqDecision TsOneof.
Proof. solve_decision. Defined.
#[local] Instance TsOneof_countable : Countable TsOneof.
Proof.
  refine (inj_countable' (λ x, match x with TsUnset => None | TsPlain t => Some (inl t) | TsHashed h => Some (inr h) end)
    (λ x, match x with None => TsUnset | Some (inl t) => TsPlain t | Some (inr h) => TsHashed h end) _).
  by intros [].
Defined.
#[local] Instance policy_type_eq_dec : EqDecision PolicyParse.policy_type.
Proof. solve_decision. Defined.
#[local] Instance PolicyObject_eq_dec : EqDecision PolicyObject.
Proof. solve_decision. Defined.
#[local] Instance EPM_eq_dec : EqDecision EndorsementPolicyMessage.
Proof. solve_decision. Defined.
#[local] Instance EPM_countable : Countable EndorsementPolicyMessage.
Proof.
  refine (inj_countable'
    (λ x, (ep_policy_id x, match po_type (ep_policy x) with WEIGHT_POLICY => 0 | AND_POLICY => 1 | OR_POLICY => 2 end%nat,
           policy_data (ep_policy x)))
    (λ x, mkEPM x.1.1 (mkPolicyObject (match x.1.2 with 0 => WEIGHT_POLICY | 1 => AND_POLICY | _ => OR_POLICY end%nat) x.2)) _).
  by intros [? [[] ?]].
Defined.
#[local] Instance Write_eq_dec : EqDecision Write.
Proof. solve_decision. Defined.
#[local] Instance Write_countable : Countable Write.
Proof.
  refine (inj_countable'
    (λ w, (wr_key w, wr_committed_value w, wr_committed_ts w, wr_committed_policy w,
           (wr_committed_policy_ts w, wr_prepared_value w, wr_prepared_ts w, wr_prepared_txn_digest w)))
    (λ x, let '(a, b, c, d, (e, f, g, h)) := x in mkWriteMsg a b c d e f g h) _).
  by intros [].
Defined.

Definition bit (b : bool) : Ascii.ascii := Ascii.Ascii b false false false true true false false.
Fixpoint bits (p : positive) : string :=
  match p with
  | xH => ""
  | xO p => String (bit false) (bits p)
  | xI p => String (bit true) (bits p)
  end.
Fixpoint unbits (s : string) : positive :=
  match s with
  | EmptyString => xH
  | String c s => let 'Ascii.Ascii b _ _ _ _ _ _ _ := c in if b then xI (unbits s) else xO (unbits s)
  end.
Lemma unbits_bits p : unbits (bits p) = p.
Proof. induction p as [p IH|p IH|]; cbn; by rewrite ?IH. Qed.

Definition signed (pid : Z) (w : Write) : SignedMessage := mkSigned pid (bits (encode w)) "".
Definition parse_write (s : string) : option Write := decode (unbits s).
Definition Verify_any (_ : Z) (_ _ : string) : bool := true.

Lemma signer_ok_example pid : signer_ok Verify_any (signed pid) parse_write.
Proof. intros w. split; [done|]. unfold parse_write. cbn. by rewrite unbits_bits, decode_encode. Qed.

(** ** A read answered by a correct replica *)

#[local] Instance env : Env := read_env 1 (-1).
Definition good_replica : server :=
  upd_proofSigs (insert 1 (ByP1 [(0, sigs [0; 1; 2; 3; 4; 5])])) (replica 1 (-1)).
Definition get_k (reqId : Z) : Read := mkReadMsg reqId "k" (at_ts 8) false.
Definition good_reply : ReadReply :=
  match HandleRead hash_of (signed 0) true good_replica 100 (get_k 0) with
  | Done (_, Some r) => r
  | _ => ReadReply_new 0 ""
  end.
(** A replica that knows nothing of the key. *)
Definition silent_reply : ReadReply := set_body (PlainWrite Write_empty) (ReadReply_new 0 "k").

(** A quorum of two, two votes for a prepared version. *)
Definition idle : ReadState := mkRS 0 ∅ ∅ [] [] [].
Definition client_get (st : ReadState) : ReadState :=
  match Get 0 false [0; 1; 2] "k" (at_ts 8) 3 2 2 false st with Done st => st | Panic => st end.
Notation run := (read_run config ser_cc ser_p2 Verify_any hash_of (λ _, "") parse_write (λ _, "") (λ x, x) true true false
  false (-1) 0 false 0 [0; 1; 2]).
Notation handle := (HandleReadReply config ser_cc ser_p2 Verify_any hash_of (λ _, "") parse_write (λ _, "") (λ x, x) true true
  false false (-1) 0 false 0).
Definition after (L : list ReadEvent) : ReadState :=
  match run (client_get idle) L with Done st => st | Panic => idle end.

Lemma read_result_newest_witness :
  ∃ res, rs_out (after [EvReply silent_reply; EvReply good_reply]) =
      rs_out (after [EvReply silent_reply]) ++ [ReadCallback res] ∧ res_key res = "k" ∧
    rs_read_set (after [EvReply silent_reply; EvReply good_reply]) =
      rs_read_set (after [EvReply silent_reply]) ++ [mkRead "k" (res_ts res) false ""] ∧
    justified config ser_cc ser_p2 Verify_any hash_of parse_write true true false false (-1) 0 "k" 2
      (replies_to 0 [EvReply silent_reply] ++ [good_reply]) res ∧
    ∀ r tv, r ∈ replies_to 0 [EvReply silent_reply] ++ [good_reply] →
      accepted config ser_cc ser_p2 Verify_any hash_of parse_write true true false false "k" r = Some tv →
      ts_le tv.1 (res_ts res) = true.
Proof.
  apply (read_result_newest config ser_cc ser_p2 Verify_any hash_of (λ _, "") parse_write (λ _, "") (λ x, x) true true false
    false (-1) 0 false 0 [0; 1; 2] ltac:(done) (client_get idle) 0 "k" 2 2 false).
  - vm_compute. reflexivity.
  - split; vm_compute; congruence.
  - vm_compute. reflexivity.
  - vm_compute. reflexivity.
  - eexists. vm_compute. reflexivity.
  - vm_compute. reflexivity.
  - vm_compute. reflexivity.
  - vm_compute. reflexivity.
  - vm_compute. reflexivity.
Defined.

Lemma read_sees_replica_versions_witness :
  ∃ res, rs_out (after [EvReply silent_reply; EvReply good_reply]) =
      rs_out (after [EvReply silent_reply]) ++ [ReadCallback res] ∧ res_key res = "k" ∧
    ts_le (at_ts 5) (res_ts res) = true.
Proof.
  destruct (read_sees_replica_versions config ser_cc ser_p2 Verify_any hash_of (signed 0) parse_write (λ _, "") (λ x, x) 0 false 0
    [0; 1; 2] ltac:(done) (client_get idle) 0 "k" 2 2 false [EvReply silent_reply] (after [EvReply silent_reply])
    good_reply (after [EvReply silent_reply; EvReply good_reply]) good_replica 100 (get_k 0)
    (SetRTS good_replica (at_ts 8) "k") good_reply (at_ts 5, mkValue "old" 1)) as (res & H1 & H2 & H3 & _).
  - apply signer_ok_example.
  - intros e He%list_elem_of_singleton. subst e. eexists. split; [vm_compute; reflexivity|]. vm_compute. reflexivity.
  - reflexivity.
  - reflexivity.
  - reflexivity.
  - reflexivity.
  - cbn. lia.
  - cbn. apply vs_wf_put, vs_wf_empty.
  - split; [apply (ssorted_singleton fst)|]. intros e He%list_elem_of_singleton. subst e. by eexists.
  - vm_compute. reflexivity.
  - split; vm_compute; congruence.
  - vm_compute. reflexivity.
  - vm_compute. reflexivity.
  - eexists. vm_compute. reflexivity.
  - vm_compute. reflexivity.
  - vm_compute. reflexivity.
  - vm_compute. reflexivity.
  - vm_compute. reflexivity.
  - apply elem_of_app. right. by apply list_elem_of_singleton.
  - reflexivity.
  - vm_compute. reflexivity.
  - by apply list_elem_of_singleton.
  - reflexivity.
  - by exists res.
Defined.

(** ** One faulty replica *)

(** The same signed reply twice: neither the quorum nor the votes for a
    prepared version count replicas.  The transaction "zz" does not exist. *)
Definition forged : Write := mkWriteMsg (Some "k") None TsUnset None TsUnset (Some "forged") (TsPlain (at_ts 8)) (Some "zz").
Definition forged_reply : ReadReply := set_body (SignedWrite (signed 5 forged)) (ReadReply_new 0 "k").

Theorem one_replica_completes_read :
  ∃ res, rs_out (after [EvReply forged_reply; EvReply forged_reply]) = rs_out (client_get idle) ++ [ReadCallback res] ∧
    res_value res = "forged" ∧ res_hasDep res = true ∧
    res_dep res = Some (mkReadDep forged [signed 5 forged; signed 5 forged] 0).
Proof. eexists. split; [vm_compute; reflexivity|]. split_and!; vm_compute; reflexivity. Qed.

(** ** Unauthenticated timestamps *)

Definition hidden_write : Write := mkWriteMsg (Some "k") (Some "old") (TsHashed "h5") None TsUnset None TsUnset None.
Definition hidden_txn : Transaction :=
  mkTxn 1 5 [] [mkWrite "k" (Some "old") false] [] (at_ts 5) [] [] [] (Some "a") None NONE [] [] "h5" [] [] [0].
Definition hidden_reply : ReadReply :=
  mkReply 0 "k" (Some (mkProof hidden_txn (Some (ByP1 [(0, sigs [0; 1; 2; 3; 4; 5])])))) (SignedWrite (signed 0 hidden_write)) None
    (Some (at_ts 5)) None None.

Lemma hidden_timestamp_unchecked_witness :
  accepted config ser_cc ser_p2 Verify_any hash_of parse_write true true false true "k" (add_committed_ts (Some (at_ts 900)) hidden_reply)
  = Some (at_ts 900, "old").
Proof.
  apply (hidden_timestamp_unchecked config ser_cc ser_p2 Verify_any hash_of parse_write true true false "k" hidden_reply hidden_write (at_ts 5)).
  - vm_compute. reflexivity.
  - vm_compute. congruence.
  - vm_compute. reflexivity.
Defined.

(** A transaction at 6 that read the version 7, which is prepared. *)
Lemma future_reads_pass_witness :
  check_reads good_replica (at_ts 6) [mkRead "k" (at_ts 7) false ""] = Done None.
Proof. apply (future_reads_pass good_replica (at_ts 6)); reflexivity. Defined.
End ReadClientExample.
