(* ===== verification/TableEncoder.v ===== *)
(** * Table rows as keys

    src/src/store/common/table_kv_encoder.{h,cc}: a row of a table is stored
    under the number of its table and the values of its primary key, joined by
    a delimiter.  Tables are numbered in the order in which a process first
    encodes them; the numbering is a static variable.  [RWSQLPartitioner]
    (partitioner.cc) assigns rows to groups by that number. *)
From S2P Require Import Prelude CppString OrderedSeq Timestamp Policy PolicyParse.

(** ** The numbering *)

Record encoder := mkEnc { name_to_numerics : gmap string Z; numerics_to_name : gmap string string }.
Definition encoder_empty : encoder := mkEnc ∅ ∅.

Definition EncodeTable (e : encoder) (table_name : string) : encoder * string :=
  match name_to_numerics e !! table_name with
  | Some n => (e, to_string n)
  | None =>
      let new_numeric := Z.of_nat (size (name_to_numerics e)) in
      (mkEnc (<[table_name := new_numeric]> (name_to_numerics e))
             (<[to_string new_numeric := table_name]> (numerics_to_name e)), to_string new_numeric)
  end.

Definition DecodeTable (e : encoder) (numeric : string) : outcome string :=
  match numerics_to_name e !! numeric with Some name => Done name | None => Panic end.

(** ** Rows *)

(** [unique_delimiter], one character. *)
Definition unique_delimiter : Ascii.ascii := Ascii.Ascii true true false false false true false false.

Definition EncodeTableCol (table_name col_name : string) : string := table_name +:+ String unique_delimiter col_name.

Definition add_column (encoding value : string) : string := encoding +:+ String unique_delimiter value.
(** The overloads for strings, pointers and views. *)
Definition EncodeTableRow (e : encoder) (table_name : string) (values : list string) : encoder * string :=
  let '(e, numeric) := EncodeTable e table_name in (e, foldl add_column numeric values).

(** [s.substr(1, s.length() - 2)]: throws when [s] is empty; the length wraps
    around to the rest of the string when it is below 2. *)
Definition unquote (s : string) : outcome string :=
  match s with
  | EmptyString => Panic
  | String _ rest => Done (if (String.length s <? 2)%nat then rest else String.substring 0 (String.length s - 2) rest)
  end.
(** The overload for values that may be quoted. *)
Definition EncodeTableRow_quoted (e : encoder) (table_name : string) (values : list string) (p_col_quotes : list bool) :
    outcome (encoder * string) :=
  let '(e, numeric) := EncodeTable e table_name in
  encoding ← foldO (λ acc iv,
      match p_col_quotes !! iv.1 with
      | None => Panic
      | Some q => v ← (if q : bool then unquote iv.2 else Done iv.2); Done (add_column acc v)
      end) numeric (imap pair values);
  Done (e, encoding).

(** [find(unique_delimiter)]: what is before and after it. *)
Fixpoint find_delimiter (s : string) : option (string * string) :=
  match s with
  | EmptyString => None
  | String c s' =>
      if decide (c = unique_delimiter) then Some ("", s')
      else match find_delimiter s' with Some (a, b) => Some (String c a, b) | None => None end
  end.

(** The loop of [DecodeTableRow]: the parts between delimiters. *)
Fixpoint split_columns (cur s : string) : list string :=
  match s with
  | EmptyString => [cur]
  | String c s' => if decide (c = unique_delimiter) then cur :: split_columns "" s' else split_columns (cur +:+ String c "") s'
  end.
Definition DecodeTableRow (e : encoder) (enc_key : string) (values : list string) : outcome (string * list string) :=
  match find_delimiter enc_key with
  | None => Panic
  | Some (numeric, rest) => name ← DecodeTable e numeric; Done (name, values ++ split_columns "" rest)
  end.

Definition ParseEncodedKeyToUniqueInt (enc_key : string) (total_rows_per_table : Z) : outcome Z :=
  match find_delimiter enc_key with
  | None => Panic
  | Some (table_id_str, primary) =>
      let primary_key_str := match find_delimiter primary with Some (a, _) => a | None => primary end in
      table_id ← stoull table_id_str;
      key_val ← stoull primary_key_str;
      Done (u64 (u64 (table_id * total_rows_per_table) + key_val))
  end.

(** [% nshards]: the [int] is converted to 64 bits, and dividing by 0
    terminates the process. *)
Definition shard_of (n nshards : Z) : outcome Z := if nshards =? 0 then Panic else Done (u64 n `mod` nshards).
(** [RWSQLPartitioner::operator()] for a key and for a table. *)
Definition RWSQL_key (input : string) (nshards : Z) : outcome Z :=
  if nshards =? 1 then Done 0
  else match find_delimiter input with
       | None => Panic
       | Some (numeric, _) => n ← stoi numeric; shard_of n nshards
       end.
Definition RWSQL_table (e : encoder) (table_name : string) (nshards : Z) : outcome (encoder * Z) :=
  if nshards =? 1 then Done (e, 0)
  else
    _ ← uw_assert (negb (bool_decide (table_name = "")));
    let '(e, numeric) := EncodeTable e table_name in
    n ← stoi numeric;
    g ← shard_of n nshards;
    Done (e, g).

(** ** Every encoder a process can have *)

Inductive enc_reach : encoder → Prop :=
| reach_empty : enc_reach encoder_empty
| reach_encode e name : enc_reach e → enc_reach (EncodeTable e name).1.

(** Numbers are below the number of tables and lead back to their table. *)
Record enc_wf (e : encoder) : Prop := {
  ew_range : ∀ name n, name_to_numerics e !! name = Some n → 0 ≤ n < Z.of_nat (size (name_to_numerics e));
  ew_back : ∀ name n, name_to_numerics e !! name = Some n → numerics_to_name e !! to_string n = Some name
}.
(** Later encoders keep the numbers. *)
Definition enc_le (e e' : encoder) : Prop := name_to_numerics e ⊆ name_to_numerics e'.
Notation few_tables e := (Z.of_nat (size (name_to_numerics e)) < 2^31).

Lemma EncodeTable_spec e name :
  enc_wf e → few_tables (EncodeTable e name).1 →
  enc_wf (EncodeTable e name).1 ∧ enc_le e (EncodeTable e name).1 ∧
  ∃ n, name_to_numerics (EncodeTable e name).1 !! name = Some n ∧ (EncodeTable e name).2 = to_string n.
Proof.
  intros [Hr Hb]. unfold EncodeTable. destruct (name_to_numerics e !! name) as [n|] eqn:Hn; cbn; intros Hlt.
  { split_and!; [by split|unfold enc_le; reflexivity|by eauto]. }
  rewrite map_size_insert_None in Hlt by done. split; [split; cbn|split].
  - intros k n. rewrite map_size_insert_None by done. rewrite lookup_insert. case_decide.
    + intros [= <-]. lia.
    + intros Hk. specialize (Hr k n Hk). lia.
  - intros k n. rewrite !lookup_insert. case_decide as Hk.
    + intros [= <-]. subst k. by rewrite decide_True.
    + intros Hk'. specialize (Hr k n Hk'). rewrite decide_False; [by apply Hb|].
      intros Heq%to_string_inj; lia.
  - by apply insert_subseteq.
  - eexists. by rewrite lookup_insert_eq.
Qed.

Lemma few_tables_before e name : few_tables (EncodeTable e name).1 → few_tables e.
Proof.
  unfold EncodeTable. destruct (name_to_numerics e !! name) eqn:Hn; [done|]. cbn.
  rewrite map_size_insert_None by done. lia.
Qed.

Lemma enc_reach_wf e : enc_reach e → few_tables e → enc_wf e.
Proof.
  induction 1 as [|e name Hr IH]; intros Hlt; [by split|]. apply EncodeTable_spec; [|done].
  apply IH. by eapply few_tables_before.
Qed.
Lemma encoded_wf e name : enc_reach e → few_tables (EncodeTable e name).1 → enc_wf e.
Proof. intros Hr Hlt. apply enc_reach_wf; [done|by eapply few_tables_before]. Qed.

(** ** Splitting what was joined *)

Definition columns_ok (values : list string) : Prop := Forall (λ v, free_of unique_delimiter v = true) values.

Lemma free_of_cons d c s : free_of d (String c s) = true → c ≠ d ∧ free_of d s = true.
Proof. unfold free_of. cbn. rewrite andb_true_iff, negb_true_iff, bool_decide_eq_false. done. Qed.

Lemma find_delimiter_app a b : free_of unique_delimiter a = true → find_delimiter (a +:+ String unique_delimiter b) = Some (a, b).
Proof.
  induction a as [|c a IH]; intros Ha; autorewrite with strdb; cbn; [by rewrite decide_True|].
  apply free_of_cons in Ha as [Hc Ha]. rewrite decide_False by done. by rewrite IH.
Qed.
Lemma find_delimiter_free a : free_of unique_delimiter a = true → find_delimiter a = None.
Proof.
  induction a as [|c a IH]; intros Ha; [done|]. apply free_of_cons in Ha as [Hc Ha]. cbn.
  by rewrite decide_False, IH by done.
Qed.

Lemma split_columns_app cur a b :
  free_of unique_delimiter a = true → split_columns cur (a +:+ String unique_delimiter b) = (cur +:+ a) :: split_columns "" b.
Proof.
  revert cur. induction a as [|c a IH]; intros cur Ha; autorewrite with strdb; cbn; [by rewrite decide_True|].
  apply free_of_cons in Ha as [Hc Ha]. rewrite decide_False, IH by done. by autorewrite with strdb.
Qed.
Lemma split_columns_free cur a : free_of unique_delimiter a = true → split_columns cur a = [cur +:+ a].
Proof.
  revert cur. induction a as [|c a IH]; intros cur Ha; cbn; autorewrite with strdb; [done|].
  apply free_of_cons in Ha as [Hc Ha]. rewrite decide_False, IH by done. by autorewrite with strdb.
Qed.

Lemma fold_columns_app a b values :
  foldl add_column (a +:+ String unique_delimiter b) values = a +:+ String unique_delimiter (foldl add_column b values).
Proof.
  revert b. induction values as [|v values IH]; intros b; [done|]. cbn. unfold add_column at 2 4.
  rewrite <- IH. f_equal. by autorewrite with strdb.
Qed.

Lemma split_joined v values :
  columns_ok (v :: values) → split_columns "" (foldl add_column v values) = v :: values.
Proof.
  revert v. induction values as [|x values IH]; intros v [Hv Hvs]%Forall_cons.
  - by apply (split_columns_free "").
  - change (foldl add_column v (x :: values)) with (foldl add_column (v +:+ String unique_delimiter x) values).
    rewrite fold_columns_app, split_columns_app by done. cbn. f_equal. by apply IH.
Qed.

Lemma delimiter_not_digit : is_digit unique_delimiter = false.
Proof. done. Qed.

Lemma row_encoding e name v values :
  enc_wf e → few_tables (EncodeTable e name).1 →
  ∃ n, name_to_numerics (EncodeTable e name).1 !! name = Some n ∧
    EncodeTableRow e name (v :: values) =
      ((EncodeTable e name).1, to_string n +:+ String unique_delimiter (foldl add_column v values)).
Proof.
  intros Hwf Hlt. destruct (EncodeTable_spec e name Hwf Hlt) as (_ & _ & n & Hn & Hs). exists n. split; [done|].
  unfold EncodeTableRow. destruct (EncodeTable e name) as [e' s']. cbn [fst snd] in *. subst s'. f_equal.
  apply (fold_columns_app (to_string n) v values).
Qed.

(** Rows survive encoding.  In a process that numbered fewer than [2 ^ 31]
    tables, decoding the key of a row, at any later time, gives its table and
    its primary key back, provided that the key has a column and no column
    contains the delimiter.  So different rows have different keys. *)
Theorem row_key_roundtrip e name values e' :
  enc_reach e → values ≠ [] → columns_ok values →
  enc_le (EncodeTableRow e name values).1 e' → enc_reach e' → few_tables e' →
  DecodeTableRow e' (EncodeTableRow e name values).2 [] = Done (name, values).
Proof.
  intros Hr Hne Hok Hle Hr' Hlt'. destruct values as [|v values]; [done|].
  assert (few_tables (EncodeTable e name).1) as Hlt.
  { unfold EncodeTableRow in Hle. destruct (EncodeTable e name) as [e1 s1]. cbn in *.
    apply map_subseteq_size in Hle. lia. }
  pose proof (encoded_wf e name Hr Hlt) as Hwf.
  destruct (row_encoding e name v values Hwf Hlt) as (n & Hn & Hrow). rewrite Hrow in *. cbn [fst snd] in *.
  unfold DecodeTableRow. rewrite find_delimiter_app by (by apply to_string_free).
  pose proof (enc_reach_wf e' Hr' Hlt') as Hwf'. unfold DecodeTable.
  rewrite (ew_back _ Hwf' name n) by (by eapply lookup_weaken). cbn. by rewrite split_joined.
Qed.

(** The key of a row is not the id of a policy, so that the replicas do not
    mix rows with policies. *)
Theorem row_key_is_no_policy e name v values :
  enc_reach e → few_tables (EncodeTable e name).1 → IsPolicyId (EncodeTableRow e name (v :: values)).2 = false.
Proof.
  intros Hr Hlt. pose proof (encoded_wf e name Hr Hlt) as Hwf.
  destruct (row_encoding e name v values Hwf Hlt) as (n & _ & ->). cbn [snd].
  destruct (pretty_N_spec (Z.to_N n)) as (_ & Hd & Hne). unfold to_string in *.
  destruct (pretty (Z.to_N n)) as [|c s]; [done|]. cbn in Hd. apply andb_true_iff in Hd as [Hd _].
  autorewrite with strdb. unfold IsPolicyId. destruct (s +:+ _); [done|].
  rewrite bool_decide_eq_false_2; [done|]. intros [= <-]. done.
Qed.

(** The partitioner puts the rows of a table and the table itself into one
    group. *)
Theorem row_in_group_of_table e name v values nshards :
  enc_reach e → few_tables (EncodeTable e name).1 → name ≠ "" → 0 < nshards →
  ∃ g, RWSQL_table e name nshards = Done g ∧
    RWSQL_key (EncodeTableRow e name (v :: values)).2 nshards = Done g.2 ∧ 0 ≤ g.2 < nshards.
Proof.
  intros Hr Hlt Hne Hs. pose proof (encoded_wf e name Hr Hlt) as Hwf.
  destruct (EncodeTable_spec e name Hwf Hlt) as ([Hrange _] & _ & n & Hn & Hs').
  destruct (row_encoding e name v values Hwf Hlt) as (n' & Hn' & ->). simplify_eq. specialize (Hrange name n Hn).
  unfold RWSQL_table, RWSQL_key. destruct (Z.eqb_spec nshards 1) as [->|]; [eexists; split_and!; [done..|cbn; lia|cbn; lia]|].
  rewrite bool_decide_eq_false_2 by done. cbn [negb uw_assert mbind outcome_bind snd].
  destruct (EncodeTable e name) as [e1 s1]. cbn [fst snd] in *. subst s1.
  rewrite find_delimiter_app by (by apply to_string_free). rewrite stoi_to_string by lia. cbn.
  unfold shard_of. rewrite (proj2 (Z.eqb_neq _ _)) by lia. rewrite u64_small by lia. cbn. eexists. split_and!; [done..| |]; cbn; apply Z.mod_pos_bound; lia.
Qed.

(** ** Row numbers *)

Lemma add_columns_first k values :
  free_of unique_delimiter k = true →
  match find_delimiter (foldl add_column k values) with Some (a, _) => a | None => foldl add_column k values end = k.
Proof.
  intros Hk. destruct values as [|v values]; cbn; [by rewrite find_delimiter_free|].
  unfold add_column at 1. fold (add_column k v). change (add_column k v) with (k +:+ String unique_delimiter v).
  by rewrite fold_columns_app, find_delimiter_app.
Qed.

Lemma unique_int_value e name n k values total :
  enc_wf e → few_tables e → name_to_numerics e !! name = Some n → 0 ≤ k < total →
  Z.of_nat (size (name_to_numerics e)) * total < 2^64 →
  ParseEncodedKeyToUniqueInt (EncodeTableRow e name (to_string k :: values)).2 total = Done (n * total + k).
Proof.
  intros Hwf Hlt Hn Hk Htot. assert (EncodeTable e name = (e, to_string n)) as He by (unfold EncodeTable; by rewrite Hn).
  destruct (row_encoding e name (to_string k) values Hwf) as (n' & Hn' & ->); rewrite He in *; [done|].
  cbn [fst] in Hn'. simplify_eq. pose proof (ew_range _ Hwf name n Hn). unfold ParseEncodedKeyToUniqueInt. cbn [snd].
  rewrite find_delimiter_app by (by apply to_string_free).
  rewrite add_columns_first by (by apply to_string_free).
  rewrite !stoull_to_string by nia. cbn. f_equal. rewrite (u64_small (n * total)) by nia. apply u64_small. nia.
Qed.

(** [ParseEncodedKeyToUniqueInt] numbers the rows of all tables without
    overlap and without overflow, when every first key column is a number
    below the bound on the rows of a table, and tables times rows fit in 64
    bits: two rows with one number agree on the table and on that column. *)
Theorem row_numbers_unique e name1 name2 k1 k2 values1 values2 total r1 r2 :
  enc_reach e → few_tables e → Z.of_nat (size (name_to_numerics e)) * total < 2^64 →
  is_Some (name_to_numerics e !! name1) → is_Some (name_to_numerics e !! name2) →
  0 ≤ k1 < total → 0 ≤ k2 < total →
  ParseEncodedKeyToUniqueInt (EncodeTableRow e name1 (to_string k1 :: values1)).2 total = Done r1 →
  ParseEncodedKeyToUniqueInt (EncodeTableRow e name2 (to_string k2 :: values2)).2 total = Done r2 →
  0 ≤ r1 < 2^64 ∧ (r1 = r2 → name1 = name2 ∧ k1 = k2).
Proof.
  intros Hr Hlt Htot [n1 Hn1] [n2 Hn2] Hk1 Hk2. pose proof (enc_reach_wf e Hr Hlt) as Hwf.
  rewrite (unique_int_value e name1 n1), (unique_int_value e name2 n2) by done. intros [= <-] [= <-].
  pose proof (ew_range _ Hwf _ _ Hn1). split; [nia|]. intros Heq.
  assert (n1 = n2) as <- by nia. split; [|lia].
  pose proof (ew_back _ Hwf _ _ Hn1) as H1. rewrite (ew_back _ Hwf _ _ Hn2) in H1. congruence.
Qed.

(** ** Examples *)

Module TableExample.
Definition two_tables : encoder := (EncodeTable (EncodeTable encoder_empty "item").1 "stock").1.
Lemma two_tables_reach : enc_reach two_tables.
Proof. do 2 constructor. constructor. Qed.

Lemma row_key_roundtrip_witness :
  DecodeTableRow two_tables (EncodeTableRow two_tables "stock" ["7"; ""; "b"]).2 [] = Done ("stock", ["7"; ""; "b"]).
Proof.
  apply (row_key_roundtrip two_tables "stock" ["7"; ""; "b"] two_tables).
  - apply two_tables_reach.
  - done.
  - repeat constructor.
  - assert ((EncodeTableRow two_tables "stock" ["7"; ""; "b"]).1 = two_tables) as -> by (vm_compute; reflexivity).
    unfold enc_le. reflexivity.
  - apply two_tables_reach.
  - vm_compute. done.
Defined.

Lemma row_numbers_unique_witness :
  0 ≤ 103 < 2^64 ∧ (103 = 104 → "stock" = "stock" ∧ 3 = 4).
Proof.
  apply (row_numbers_unique two_tables "stock" "stock" 3 4 [] ["x"] 100).
  - apply two_tables_reach.
  - vm_compute. done.
  - vm_compute. done.
  - by eexists.
  - by eexists.
  - lia.
  - lia.
  - vm_compute. reflexivity.
  - vm_compute. reflexivity.
Defined.

(** Nothing enforces that a value is free of the delimiter, and numbers depend
    on what the process encoded before. *)
Theorem row_keys_collide :
  (EncodeTableRow two_tables "stock" ["a#b"]).2 = (EncodeTableRow two_tables "stock" ["a"; "b"]).2 ∧
  (EncodeTableRow two_tables "stock" ["a"]).2 ≠ (EncodeTableRow encoder_empty "stock" ["a"]).2.
Proof. split; vm_compute; [reflexivity|congruence]. Qed.
End TableExample.
