(* ===== verification/Validation.v ===== *)
(** * Validating a transaction at another client

    A client asked to endorse a transaction executes it again, on a thread of
    its own, against a [ValidationClient]
    (src/src/store/sintrstore/validation_client.cc) instead of the store.
    Reads are answered by results the initiating client forwards
    (client2client.cc); they may arrive before or after the execution asks for
    them.  The evidence of a forwarded result is checked on arrival or, with
    [parallelQuerySigsCheck], by another thread.

    Key-value transactions are modelled.  Without [sql_mode] no interpreter is
    registered, so that [Query] and [Write] panic and the containers of query
    results are filled by forwarded query results only, on which [Commit]
    panics; they are left out.  The members of [AllValidationTxnState] follow
    the code; its callbacks are outputs.  The 64-bit counters of messages are
    not wrapped. *)
From S2P Require Import Prelude OrderedSeq CppString Timestamp VersionStore Policy PolicyParse ServerState Quorum Reads ReadClient EndorseClient.

(** ** Messages *)

Record ForwardReadResult := mkFwd {
  fw_client_id : Z;
  fw_client_seq_num : Z;
  fw_key : string;
  fw_value : string;
  fw_ts : TsOneof;
  fw_dep : option ReadDependency;
  fw_add_readset : bool
}.
Inductive FwdBody := FwdNone | FwdPlain (f : ForwardReadResult) | FwdSigned (sm : SignedMessage).
Record ForwardReadResultMessage := mkFwdMsg {
  fm_body : FwdBody;
  fm_proof : option CommittedProof;
  fm_write : ReadBody
}.
Definition fm_write_msg (m : ForwardReadResultMessage) : Write :=
  match fm_write m with PlainWrite w => w | _ => Write_empty end.

(** [Dependency], as far as transactions of this model contain it. *)
Definition dep_of (d : ReadDependency) : Dependency :=
  mkDep (default "" (wr_prepared_txn_digest (rdep_write d))) (plain_ts (wr_prepared_ts (rdep_write d)))
    (rdep_involved_group d).

(** ** The transaction under validation *)

(** The fields the validating client sets. *)
Definition txn_edit (reads : list ReadMessage) (writes : list WriteMessage) (ds : list Dependency) (groups : list Z)
    (keys : list string) (pvs : list PolicyVersion) (t : Transaction) : Transaction :=
  mkTxn (client_id t) (client_seq_num t) (read_set t ++ reads) (write_set t ++ writes) (deps t ++ ds) (t_timestamp t)
    (query_set t) (table_writes t) (read_predicates t) (txndigest t) (merged_read_set t) (policy_type t)
    (implicit_policy_reads t) (endorsements t) (hashed_timestamp t) (lift_keys t ++ keys) (policy_versions t ++ pvs)
    (involved_groups t ++ groups).
Definition txn_stamp (ts : Timestamp) (hashed : string) (ty : TxnPolicyType) (t : Transaction) : Transaction :=
  mkTxn (client_id t) (client_seq_num t) (read_set t) (write_set t) (deps t) ts
    (query_set t) (table_writes t) (read_predicates t) (txndigest t) (merged_read_set t) ty
    (implicit_policy_reads t) (endorsements t) hashed (lift_keys t) (policy_versions t) (involved_groups t).

Record AllValidationTxnState := mkVS {
  vs_txn : Transaction;
  vs_readValues : gmap string string;
  vs_pendingGets : list string;
  vs_pendingForwardedRead : list (string * (string * Timestamp));
  vs_seenReads : list string;
  vs_write_values : gmap string (list string);
  vs_ignore_readset_kv : gmap string (list string);
  vs_policyIDs : list string;
  vs_numPendingReads : Z;
  vs_numValidReads : Z;
  vs_commitWait : bool;
  vs_aborted : bool
}.
Definition AllValidationTxnState_new (c q : Z) : AllValidationTxnState :=
  mkVS (mkTxn c q [] [] [] ts_zero [] [] [] None None NONE [] [] "" [] [] []) ∅ [] [] [] ∅ ∅ [] 0 0 false false.

Definition upd_txn (f : Transaction → Transaction) (st : AllValidationTxnState) : AllValidationTxnState :=
  mkVS (f (vs_txn st)) (vs_readValues st) (vs_pendingGets st) (vs_pendingForwardedRead st) (vs_seenReads st)
    (vs_write_values st) (vs_ignore_readset_kv st) (vs_policyIDs st) (vs_numPendingReads st) (vs_numValidReads st)
    (vs_commitWait st) (vs_aborted st).
Definition set_queues (gets : list string) (fwds : list (string * (string * Timestamp))) (st : AllValidationTxnState) :
    AllValidationTxnState :=
  mkVS (vs_txn st) (vs_readValues st) gets fwds (vs_seenReads st) (vs_write_values st) (vs_ignore_readset_kv st)
    (vs_policyIDs st) (vs_numPendingReads st) (vs_numValidReads st) (vs_commitWait st) (vs_aborted st).
Definition see_read (key : string) (st : AllValidationTxnState) : AllValidationTxnState :=
  mkVS (vs_txn st) (vs_readValues st) (vs_pendingGets st) (vs_pendingForwardedRead st)
    (seq_insert id key (vs_seenReads st)) (vs_write_values st) (vs_ignore_readset_kv st) (vs_policyIDs st)
    (vs_numPendingReads st) (vs_numValidReads st) (vs_commitWait st) (vs_aborted st).
Definition add_policyId (policyId : string) (st : AllValidationTxnState) : AllValidationTxnState :=
  mkVS (vs_txn st) (vs_readValues st) (vs_pendingGets st) (vs_pendingForwardedRead st) (vs_seenReads st)
    (vs_write_values st) (vs_ignore_readset_kv st) (seq_insert id policyId (vs_policyIDs st))
    (vs_numPendingReads st) (vs_numValidReads st) (vs_commitWait st) (vs_aborted st).
Definition set_flags (wait aborted : bool) (st : AllValidationTxnState) : AllValidationTxnState :=
  mkVS (vs_txn st) (vs_readValues st) (vs_pendingGets st) (vs_pendingForwardedRead st) (vs_seenReads st)
    (vs_write_values st) (vs_ignore_readset_kv st) (vs_policyIDs st) (vs_numPendingReads st) (vs_numValidReads st)
    wait aborted.

(** [m[k].push_back(v)]. *)
Definition push_value (k v : string) (m : gmap string (list string)) : gmap string (list string) :=
  <[k := default [] (m !! k) ++ [v]]> m.

(** [std::find_if] on the key, with what [erase] leaves. *)
Fixpoint take_first {A} (k : string) (l : list (string * A)) : option (A * list (string * A)) :=
  match l with
  | [] => None
  | (k', a) :: l' =>
      if decide (k' = k) then Some (a, l')
      else match take_first k l' with Some (b, l'') => Some (b, (k', a) :: l'') | None => None end
  end.
Fixpoint remove_first (k : string) (l : list string) : option (list string) :=
  match l with
  | [] => None
  | k' :: l' => if decide (k' = k) then Some l' else (k' ::.) <$> remove_first k l'
  end.

(** The loop over [i] and [j] in [Commit]: reaches the end of [ignore_vals]. *)
Fixpoint subsequence (ignore_vals write_vals : list string) : bool :=
  match ignore_vals, write_vals with
  | [], _ => true
  | _ :: _, [] => false
  | x :: xs, y :: ys => if decide (x = y) then subsequence xs ys else subsequence ignore_vals ys
  end.

Section validation.
(** The partitioner, applied to a key and the groups involved so far, and the
    configuration. *)
Variable part : string → list Z → Z.
Variable ngroups : Z.
Variable policyIdFunction : string → string → string.
Variable policyCache : PolicyCache.t.
Variables hideTimestamps liftingEnabled cacheReadSet mergeActiveAtClient parallelQuerySigsCheck : bool.
Implicit Types (st : AllValidationTxnState) (f : ForwardReadResult).

Definition IsTxnParticipant (t : Transaction) (g : Z) : bool := existsb (λ p, p =? g) (involved_groups t).
Definition add_group (g : Z) (t : Transaction) : Transaction :=
  if IsTxnParticipant t g then t else txn_edit [] [] [] [g] [] [] t.
Definition group_of (key : string) (t : Transaction) : Z := int32 (part key (involved_groups t) `mod` ngroups).

(** [SetTxnTimestamp], once the state exists. *)
Definition v_stamp (ts : Timestamp) (isPolicyTransaction : bool) (hashed : string) st : AllValidationTxnState :=
  upd_txn (λ t, txn_stamp (if hideTimestamps then t_timestamp t else ts) (if hideTimestamps then hashed else hashed_timestamp t)
                  (if isPolicyTransaction then POLICY_ID_POLICY else policy_type t) t) st.

(** [Get]: the forwarded result it consumes, or [None] and it waits. *)
Definition v_get (key : string) st : AllValidationTxnState * option (string * Timestamp) :=
  let st := see_read key (upd_txn (λ t, add_group (group_of key t) t) st) in
  match take_first key (vs_pendingForwardedRead st) with
  | Some (res, rest) => (set_queues (vs_pendingGets st) rest st, Some res)
  | None => (set_queues (vs_pendingGets st ++ [key]) (vs_pendingForwardedRead st) st, None)
  end.
(** The timer of a [Get]. *)
Definition v_get_timeout (key : string) st : outcome unit :=
  match remove_first key (vs_pendingGets st) with Some _ => Panic | None => Done tt end.

Definition is_policy_txn (t : Transaction) : bool := bool_decide (policy_type t = POLICY_ID_POLICY).
Definition v_put (key value : string) st : AllValidationTxnState :=
  let st := upd_txn (txn_edit [] [mkWrite key (Some value) false] [] [] [] []) st in
  let st := mkVS (vs_txn st) (vs_readValues st) (vs_pendingGets st) (vs_pendingForwardedRead st) (vs_seenReads st)
              (push_value key value (vs_write_values st)) (vs_ignore_readset_kv st) (vs_policyIDs st)
              (vs_numPendingReads st) (vs_numValidReads st) (vs_commitWait st) (vs_aborted st) in
  let st := if liftingEnabled then
              add_policyId (if is_policy_txn (vs_txn st) then key else policyIdFunction key "") st
            else st in
  upd_txn (λ t, if is_policy_txn t then foldl (λ t i, add_group i t) t (seqZ 0 ngroups)
                else add_group (group_of key t) t) st.

Definition v_lift (keys : list string) st : AllValidationTxnState :=
  if negb liftingEnabled || bool_decide (keys = []) then st else upd_txn (txn_edit [] [] [] [] keys []) st.

(** [AddReadset]. *)
Definition read_of f : ReadMessage :=
  if hideTimestamps then mkRead (fw_key f) ts_zero false (hashed_ts (fw_ts f))
  else mkRead (fw_key f) (plain_ts (fw_ts f)) false "".
Definition curr_ts f : Timestamp := if hideTimestamps then ts_zero else plain_ts (fw_ts f).

(** [editTxnStateCB]. *)
Definition edit_add f st : AllValidationTxnState :=
  let st := mkVS (txn_edit [read_of f] [] [] [] [] [] (vs_txn st)) (<[fw_key f := fw_value f]> (vs_readValues st))
              (vs_pendingGets st) (vs_pendingForwardedRead st) (vs_seenReads st) (vs_write_values st)
              (vs_ignore_readset_kv st) (vs_policyIDs st) (vs_numPendingReads st + 1) (vs_numValidReads st)
              (vs_commitWait st) (vs_aborted st) in
  let policyId := if IsPolicyId (fw_key f) then fw_key f else policyIdFunction (fw_key f) "" in
  if liftingEnabled && ts_le (PolicyCache.GetTimestamp policyCache policyId) (curr_ts f) then add_policyId policyId st else st.
Definition edit_ignore f st : outcome AllValidationTxnState :=
  match vs_readValues st !! fw_key f with
  | None => Panic
  | Some v =>
      Done (if decide (v = fw_value f) then st
            else mkVS (vs_txn st) (vs_readValues st) (vs_pendingGets st) (vs_pendingForwardedRead st) (vs_seenReads st)
                   (vs_write_values st) (push_value (fw_key f) (fw_value f) (vs_ignore_readset_kv st)) (vs_policyIDs st)
                   (vs_numPendingReads st) (vs_numValidReads st) (vs_commitWait st) (vs_aborted st))
  end.
Definition editTxnStateCB f st : outcome AllValidationTxnState :=
  st ← (if fw_add_readset f then Done (edit_add f st) else edit_ignore f st);
  Done (match fw_dep f with Some d => upd_txn (txn_edit [] [] [dep_of d] [] [] []) st | None => st end).

(** [ProcessForwardReadResult] on a state that exists: answers the first
    waiting [Get] of the key, or keeps the result for a later one. *)
Definition fwd_entry f : string * (string * Timestamp) := (fw_key f, (fw_value f, curr_ts f)).
Definition v_forward f st : outcome (AllValidationTxnState * option (string * Timestamp)) :=
  match remove_first (fw_key f) (vs_pendingGets st) with
  | None =>
      st ← editTxnStateCB f (set_queues (vs_pendingGets st) (vs_pendingForwardedRead st ++ [fwd_entry f]) st);
      Done (st, None)
  | Some rest =>
      st ← editTxnStateCB f st;
      Done (set_queues rest (vs_pendingForwardedRead st) st, Some (fw_value f, curr_ts f))
  end.

(** [NotifyForwardReadResultValid]: the flags say that the state is deleted,
    and that the commit callback runs. *)
Definition v_notify st : AllValidationTxnState * bool * bool :=
  let st := mkVS (vs_txn st) (vs_readValues st) (vs_pendingGets st) (vs_pendingForwardedRead st) (vs_seenReads st)
              (vs_write_values st) (vs_ignore_readset_kv st) (vs_policyIDs st) (vs_numPendingReads st)
              (vs_numValidReads st + 1) (vs_commitWait st) (vs_aborted st) in
  let all := vs_numPendingReads st =? vs_numValidReads st in
  if vs_aborted st && all then (st, true, false)
  else if vs_commitWait st && all then (set_flags false (vs_aborted st) st, false, true)
  else (st, false, false).

Definition reads_ok st : bool :=
  let readsInReadset := set_of_list (r_key <$> read_set (vs_txn st)) in
  if negb cacheReadSet && mergeActiveAtClient then includes readsInReadset (vs_seenReads st)
  else bool_decide (readsInReadset = vs_seenReads st).
Definition ignored_ok st : bool :=
  forallb (λ kv, match vs_write_values st !! kv.1 with Some write_vals => subsequence kv.2 write_vals | None => false end)
    (map_to_list (vs_ignore_readset_kv st)).
Definition policy_version (policyId : string) : PolicyVersion :=
  mkPolicyVersion policyId (PolicyCache.GetTimestamp policyCache policyId).
(** [Commit]; the flag says whether the commit callback runs at once. *)
Definition v_commit st : outcome (AllValidationTxnState * bool) :=
  _ ← uw_assert (bool_decide (vs_pendingForwardedRead st = []));
  _ ← uw_assert (reads_ok st);
  _ ← uw_assert (ignored_ok st);
  let st := if liftingEnabled && negb (bool_decide (lift_keys (vs_txn st) = [])) then
              upd_txn (txn_edit [] [] [] [] [] (policy_version <$> vs_policyIDs st)) st
            else st in
  Done (if parallelQuerySigsCheck && (vs_numValidReads st <? vs_numPendingReads st)
        then (set_flags true (vs_aborted st) st, false) else (st, true)).

(** [Abort]: whether the state is deleted. *)
Definition v_abort st : AllValidationTxnState * bool :=
  if negb parallelQuerySigsCheck || (vs_numPendingReads st =? vs_numValidReads st) then (st, true)
  else (set_flags (vs_commitWait st) true st, false).

(** ** Evidence

    [Client2Client::ReadSigHelper]: a forwarded result comes with a dependency
    on a prepared transaction, or with the write a replica signed and the proof
    of the transaction that wrote it. *)
Variable config : Configuration.
Variable ser_cc : CCMsg → string.
Variable ser_p2 : P2Msg → string.
Variable Verify : Z → string → string → bool.
Variable TransactionDigest : Transaction → digest.
(** The messages after [ParseFromString], whose result the code ignores. *)
Variable parse_Write : string → Write.
Variable parse_fwd : string → ForwardReadResult.
Variables validateProofs signedMessages : bool.
Variable readDepSize : Z.
Implicit Types (m : ForwardReadResultMessage) (w : Write).

Definition dependency_ok (d : ReadDependency) : outcome bool :=
  if validateProofs && signedMessages then
    ValidateDependency Verify (λ data, prepared_fields (parse_Write data)) (prepared_fields (rdep_write d)) readDepSize
      (rdep_write_sigs d)
  else Done true.
Definition forwarded_write m : option Write :=
  if validateProofs && signedMessages then
    match fm_write m with
    | SignedWrite sm =>
        if Verify (sm_process_id sm) (sm_data sm) (sm_signature sm) then Some (parse_Write (sm_data sm)) else None
    | _ => if isset (wr_committed_value (fm_write_msg m)) then None else Some (fm_write_msg m)
    end
  else Some (fm_write_msg m).
Definition ts_set (x : TsOneof) : bool := match x with TsUnset => false | _ => true end.
Definition committed_ok m w : outcome bool :=
  if validateProofs && isset (wr_committed_value w) && ts_set (wr_committed_ts w) then
    match fm_proof m with
    | None => Done false
    | Some pr =>
        ValidateTransactionWrite config ser_cc ser_p2 Verify pr (TransactionDigest (cp_txn pr)) (default "" (wr_key w))
          (default "" (wr_committed_value w)) (plain_ts (wr_committed_ts w)) signedMessages (hashed_ts (wr_committed_ts w))
    end
  else Done true.

(** [MessageDifferencer::Equals] tells a timestamp from a missing one. *)
Definition ts_matches (a b : TsOneof) : bool :=
  if hideTimestamps then bool_decide (hashed_ts a = hashed_ts b)
  else match a, b with
       | TsPlain x, TsPlain y => bool_decide (x = y)
       | TsPlain _, _ | _, TsPlain _ => false
       | _, _ => true
       end.
(** The assertions at the end. *)
Definition write_matches f w : bool :=
  if (0 <? Z.of_nat (String.length (fw_value f))) then
    let '(v, ts) := match fw_dep f with
                    | Some _ => (wr_prepared_value w, wr_prepared_ts w)
                    | None => (wr_committed_value w, wr_committed_ts w)
                    end in
    bool_decide (default "" (wr_key w) = fw_key f) && bool_decide (default "" v = fw_value f) && ts_matches ts (fw_ts f)
  else negb (isset (wr_key w)).

Definition ReadSigHelper f m : outcome bool :=
  ow ← match fw_dep f with
       | Some d => ok ← dependency_ok d; Done (if ok : bool then Some (rdep_write d) else None)
       | None =>
           match forwarded_write m with
           | None => Done None
           | Some w => ok ← committed_ok m w; Done (if ok : bool then Some w else None)
           end
       end;
  match ow with
  | None => Done false
  | Some w => _ ← uw_assert (write_matches f w); Done true
  end.

(** ** The client

    [vc_threads] is [threadValTxnIds]; [vc_inflight] the result whose handler
    has dispatched the evidence check but has not reached
    [ProcessForwardReadResult] (messages are handled one after the other);
    [vc_jobs] the queue of the threads that check evidence; [vc_ready] the
    transactions whose commit callback has run, so that their thread goes
    on. *)
Inductive ValOut :=
| ReadDone (id key value : string) (ts : Timestamp)
| WriteDone (id key value : string)
| Begun (id : string)
| AbortDone (id : string)
| SendFinish (msg : FinishValidateTxnMessage).
Record ValidationClient := mkVC {
  vc_threads : gmap Z (Z * Z);
  vc_states : gmap string AllValidationTxnState;
  vc_inflight : option ForwardReadResult;
  vc_jobs : list (ForwardReadResult * ForwardReadResultMessage);
  vc_ready : list string;
  vc_out : list ValOut
}.
Definition ValidationClient_new : ValidationClient := mkVC ∅ ∅ None [] [] [].
Implicit Types vc : ValidationClient.
Definition upd_states (g : gmap string AllValidationTxnState → gmap string AllValidationTxnState) vc : ValidationClient :=
  mkVC (vc_threads vc) (g (vc_states vc)) (vc_inflight vc) (vc_jobs vc) (vc_ready vc) (vc_out vc).
Definition vc_emit (o : list ValOut) vc : ValidationClient :=
  mkVC (vc_threads vc) (vc_states vc) (vc_inflight vc) (vc_jobs vc) (vc_ready vc) (vc_out vc ++ o).
Definition set_check (fl : option ForwardReadResult) (jobs : list (ForwardReadResult * ForwardReadResultMessage)) vc :
    ValidationClient :=
  mkVC (vc_threads vc) (vc_states vc) fl jobs (vc_ready vc) (vc_out vc).
Definition set_ready (l : list string) vc : ValidationClient :=
  mkVC (vc_threads vc) (vc_states vc) (vc_inflight vc) (vc_jobs vc) l (vc_out vc).

Definition ToTxnId (txn_client_id txn_client_seq_num : Z) : string :=
  to_string txn_client_id +:+ "_" +:+ to_string txn_client_seq_num.
Definition GetThreadValTxnId vc (th : Z) : outcome (Z * Z) :=
  match vc_threads vc !! th with Some x => Done x | None => Panic end.
Definition SetThreadValTxnId (th c q : Z) vc : ValidationClient :=
  mkVC (<[th := (c, q)]> (vc_threads vc)) (vc_states vc) (vc_inflight vc) (vc_jobs vc) (vc_ready vc) (vc_out vc).
(** The state of the transaction a thread validates. *)
Definition find_txn vc (th : Z) : outcome (string * AllValidationTxnState) :=
  '(c, q) ← GetThreadValTxnId vc th;
  match vc_states vc !! ToTxnId c q with Some st => Done (ToTxnId c q, st) | None => Panic end.
Definition state_or_new vc (c q : Z) : AllValidationTxnState :=
  default (AllValidationTxnState_new c q) (vc_states vc !! ToTxnId c q).

Definition SetTxnTimestamp (c q : Z) (ts : Timestamp) (isPolicyTransaction : bool) (hashed : string) vc : ValidationClient :=
  upd_states (insert (ToTxnId c q) (v_stamp ts isPolicyTransaction hashed (state_or_new vc c q))) vc.
Definition Begin (th : Z) vc : outcome ValidationClient :=
  '(id, _) ← find_txn vc th; Done (vc_emit [Begun id] vc).
Definition Get (th : Z) (key : string) vc : outcome ValidationClient :=
  '(id, st) ← find_txn vc th;
  let '(st, r) := v_get key st in
  Done (vc_emit (match r with Some (v, ts) => [ReadDone id key v ts] | None => [] end) (upd_states (insert id st) vc)).
Definition GetTimeout (id key : string) vc : outcome ValidationClient :=
  match vc_states vc !! id with
  | None => Done vc
  | Some st => _ ← v_get_timeout key st; Done vc
  end.
Definition Put (th : Z) (key value : string) vc : outcome ValidationClient :=
  '(id, st) ← find_txn vc th; Done (vc_emit [WriteDone id key value] (upd_states (insert id (v_put key value st)) vc)).
Definition LiftTransaction (th : Z) (keys : list string) vc : outcome ValidationClient :=
  if negb liftingEnabled || bool_decide (keys = []) then Done vc
  else '(id, st) ← find_txn vc th; Done (upd_states (insert id (v_lift keys st)) vc).
Definition Commit (th : Z) vc : outcome ValidationClient :=
  '(id, st) ← find_txn vc th;
  '(st, now) ← v_commit st;
  Done (set_ready (if now : bool then vc_ready vc ++ [id] else vc_ready vc) (upd_states (insert id st) vc)).
Definition Abort (th : Z) vc : outcome ValidationClient :=
  '(id, st) ← find_txn vc th;
  let '(st, gone) := v_abort st in
  Done (vc_emit [AbortDone id] (upd_states (if gone : bool then delete id else insert id st) vc)).
Definition GetReadset (th : Z) vc : outcome (gmap string string) :=
  '(_, st) ← find_txn vc th; Done (vs_readValues st).

Definition ProcessForwardReadResult f vc : outcome ValidationClient :=
  let id := ToTxnId (fw_client_id f) (fw_client_seq_num f) in
  match vc_states vc !! id with
  | None =>
      st ← editTxnStateCB f (AllValidationTxnState_new (fw_client_id f) (fw_client_seq_num f));
      Done (upd_states (insert id (set_queues (vs_pendingGets st) (vs_pendingForwardedRead st ++ [fwd_entry f]) st)) vc)
  | Some st =>
      '(st, r) ← v_forward f st;
      Done (vc_emit (match r with Some (v, ts) => [ReadDone id (fw_key f) v ts] | None => [] end)
              (upd_states (insert id st) vc))
  end.
Definition NotifyForwardReadResultValid (c q : Z) vc : ValidationClient :=
  let id := ToTxnId c q in
  let '(st, gone, commit) := v_notify (state_or_new vc c q) in
  set_ready (if commit : bool then vc_ready vc ++ [id] else vc_ready vc)
    (upd_states (if gone : bool then delete id else insert id st) vc).

(** ** Messages *)

(** [ValidateHMACedMessage]: the code of this client under the session key of
    the sender. *)
Variable parse_hmacs : string → gmap Z string.
Variable verifyHMAC : string → string → string → bool.
Variable sessionKeys : gmap Z string.
Variables my_client_id nclients : Z.
Variables signFwdReadResults clientCheckEvidence : bool.
Definition ValidateHMACedMessage (sm : SignedMessage) : bool :=
  verifyHMAC (sm_data sm) (default "" (parse_hmacs (sm_signature sm) !! my_client_id))
    (default "" (sessionKeys !! (sm_process_id sm `mod` nclients))).

(** The result a message carries: [None] is an early return.  Releasing a
    field that is not set gives a null pointer. *)
Definition open_fwd m : outcome (option ForwardReadResult) :=
  if signFwdReadResults then
    match fm_body m with
    | FwdSigned sm => Done (if ValidateHMACedMessage sm then Some (parse_fwd (sm_data sm)) else None)
    | _ => Done None
    end
  else match fm_body m with FwdPlain f => Done (Some f) | _ => Panic end.

(** [CheckPreparedCommittedEvidence]. *)
Definition CheckPreparedCommittedEvidence f m vc : outcome (bool * ValidationClient) :=
  if negb (fw_add_readset f) then Done (true, vc)
  else if parallelQuerySigsCheck then Done (true, set_check (vc_inflight vc) (vc_jobs vc ++ [(f, m)]) vc)
  else ok ← ReadSigHelper f m; Done (ok, vc).
(** [HandleForwardReadResultMessage] up to the call of
    [ProcessForwardReadResult].  Without parallel checks the evidence is
    checked a second time. *)
Definition HandleForwardReadResultMessage m vc : outcome ValidationClient :=
  ofw ← open_fwd m;
  match ofw with
  | None => Done vc
  | Some f =>
      vc ← (if fw_add_readset f && clientCheckEvidence then
              '(ok, vc) ← (if negb parallelQuerySigsCheck then CheckPreparedCommittedEvidence f m vc else Done (true, vc));
              _ ← uw_assert ok;
              '(_, vc) ← CheckPreparedCommittedEvidence f m vc;
              Done vc
            else Done vc);
      Done (set_check (Some f) (vc_jobs vc) vc)
  end.
(** A thread checks the evidence of job [i]. *)
Definition run_check (i : nat) vc : outcome ValidationClient :=
  match vc_jobs vc !! i with
  | None => Done vc
  | Some (f, m) =>
      ok ← ReadSigHelper f m;
      _ ← uw_assert ok;
      Done (NotifyForwardReadResultValid (fw_client_id f) (fw_client_seq_num f)
              (set_check (vc_inflight vc) (delete i (vc_jobs vc)) vc))
  end.

(** ** The validating thread *)

Definition GetCompletedTxn (c q : Z) vc : outcome (Transaction * ValidationClient) :=
  match vc_states vc !! ToTxnId c q with
  | None => Panic
  | Some st =>
      _ ← uw_assert ((client_id (vs_txn st) =? c) && (client_seq_num (vs_txn st) =? q));
      Done (vs_txn st, upd_states (delete (ToTxnId c q)) vc)
  end.

(** [parallel_CCC] sorts by key with [std::sort], which leaves the order of
    equal keys open. *)
Variable parallel_CCC : bool.
Variable sort_read_set : list ReadMessage → list ReadMessage.
Variable sort_write_set : list WriteMessage → list WriteMessage.
Variable PolicyVersionDigest : Transaction → digest → digest.
Definition sort_txn (t : Transaction) : Transaction :=
  mkTxn (client_id t) (client_seq_num t) (if parallel_CCC then sort_read_set (read_set t) else read_set t)
    (if parallel_CCC then sort_write_set (write_set t) else write_set t) (deps t) (t_timestamp t)
    (query_set t) (table_writes t) (read_predicates t) (txndigest t) (merged_read_set t) (policy_type t)
    (implicit_policy_reads t) (endorsements t) (hashed_timestamp t) (lift_keys t) (policy_versions t)
    (merge_sort Z.le (involved_groups t)).
(** The endorsement; the code signs [ValTxnMsg] when [signFinishValidation] is set,
    and includes the transaction when [debugEndorseCheck] is. *)
Definition finish_message (q : Z) (t : Transaction) : FinishValidateTxnMessage :=
  mkFinish my_client_id q (mkVal my_client_id q (PolicyVersionDigest t (TransactionDigest t))) t.

(** [ValidationThreadFunction]: before the execution of a transaction, and
    after it when it committed. *)
Definition start_validation (th c q : Z) (ts : Timestamp) (isPolicyTransaction : bool) (hashed : string) vc : ValidationClient :=
  SetTxnTimestamp c q ts isPolicyTransaction hashed (SetThreadValTxnId th c q vc).
Definition finish_validation (th : Z) vc : outcome ValidationClient :=
  '(c, q) ← GetThreadValTxnId vc th;
  match remove_first (ToTxnId c q) (vc_ready vc) with
  | None => Done vc
  | Some ready =>
      '(t, vc) ← GetCompletedTxn c q (set_ready ready vc);
      Done (vc_emit [SendFinish (finish_message q (sort_txn t))] vc)
  end.
End validation.
