(* ===== verification/ValidationSafety.v ===== *)
(** * What a validating client endorses

    The operations of one validated transaction as a machine, the bookkeeping
    that holds in all its runs, and what follows when [Commit] accepts the
    execution: the read set is what was read, the write set what was written,
    and every forwarded result was consumed by one read. *)
From S2P Require Import Prelude OrderedSeq CppString Timestamp VersionStore Policy PolicyParse ServerState Quorum Reads ReadClient EndorseClient Validation.

(** ** Lists *)

Lemma take_first_Some {A} k (l : list (string * A)) a l' : take_first k l = Some (a, l') → l ≡ₚ (k, a) :: l'.
Proof.
  revert l'. induction l as [|[k0 b] l IH]; intros l' H; [done|]. cbn in H. case_decide; simplify_eq; [done|].
  destruct (take_first k l) as [[b' l'']|] eqn:Ht; simplify_eq. rewrite (IH _ eq_refl). constructor.
Qed.
Lemma take_first_None {A} k (l : list (string * A)) : take_first k l = None → k ∉ l.*1.
Proof.
  induction l as [|[k0 b] l IH]; intros H; cbn in H |- *; [by apply not_elem_of_nil|].
  case_decide; [done|]. destruct (take_first k l) as [[]|]; [done|]. rewrite not_elem_of_cons. by split; [congruence|apply IH].
Qed.
Lemma remove_first_Some k l l' : remove_first k l = Some l' → l ≡ₚ k :: l'.
Proof.
  revert l'. induction l as [|k0 l IH]; intros l' H; [done|]. cbn in H. case_decide; simplify_eq; [done|].
  apply fmap_Some in H as (l'' & Hr & ->). rewrite (IH _ Hr). constructor.
Qed.
Lemma remove_first_None k l : remove_first k l = None → k ∉ l.
Proof.
  induction l as [|k0 l IH]; intros H; [by apply not_elem_of_nil|]. cbn in H. case_decide; [done|].
  apply fmap_None in H. rewrite not_elem_of_cons. by split; [congruence|apply IH].
Qed.
Lemma subsequence_elem xs ys x : subsequence xs ys = true → x ∈ xs → x ∈ ys.
Proof.
  revert xs. induction ys as [|y ys IH]; intros [|x' xs] H Hx; cbn in H; try done; [set_solver|].
  case_decide; [subst|].
  - apply elem_of_cons in Hx as [->|Hx]; [set_solver|]. apply elem_of_cons. right. by eapply IH.
  - apply elem_of_cons. right. by eapply IH.
Qed.

Lemma push_value_lookup k v m k' :
  default [] (push_value k v m !! k') = default [] (m !! k') ++ (if decide (k' = k) then [v] else []).
Proof.
  unfold push_value. destruct (decide (k' = k)) as [->|]; [by rewrite lookup_insert_eq|].
  rewrite lookup_insert_ne, app_nil_r by done. done.
Qed.

(** ** Runs of one transaction *)

Inductive TEvent :=
| EStamp (ts : Timestamp) (isPolicyTransaction : bool) (hashed : string)
| EGet (key : string)
| EPut (key value : string)
| ELift (keys : list string)
| EForward (f : ForwardReadResult)
| ENotify
| ECommit
| EAbort.

(** What the execution asked for and wrote, and what was forwarded to it. *)
Definition gets (evs : list TEvent) : list string := omap (λ e, match e with EGet k => Some k | _ => None end) evs.
Definition puts (evs : list TEvent) : list (string * string) :=
  omap (λ e, match e with EPut k v => Some (k, v) | _ => None end) evs.
Definition forwards (evs : list TEvent) : list ForwardReadResult :=
  omap (λ e, match e with EForward f => Some f | _ => None end) evs.
Definition added (evs : list TEvent) : list ForwardReadResult := filter (λ f, fw_add_readset f = true) (forwards evs).
Definition notified (evs : list TEvent) : list unit := omap (λ e, match e with ENotify => Some tt | _ => None end) evs.

Lemma omap_snoc {A B} (g : A → option B) l x : omap g (l ++ [x]) = omap g l ++ match g x with Some y => [y] | None => [] end.
Proof. rewrite omap_app. cbn. by destruct (g x). Qed.
Lemma added_snoc evs e :
  added (evs ++ [e]) = added evs ++ match e with EForward f => if fw_add_readset f then [f] else [] | _ => [] end.
Proof.
  unfold added, forwards. rewrite omap_snoc, filter_app. f_equal. destruct e; try done.
  rewrite filter_cons, filter_nil. by destruct (fw_add_readset f).
Qed.
(** The events so far, after one more. *)
Ltac snoc_all :=
  rewrite ?added_snoc in *; unfold gets, puts, forwards, notified in *; rewrite ?omap_snoc, ?fmap_app in *; cbn in *;
  rewrite ?app_nil_r in *.

Section runs.
Variable part : string → list Z → Z.
Variable ngroups : Z.
Variable policyIdFunction : string → string → string.
Variable policyCache : PolicyCache.t.
Variables hideTimestamps liftingEnabled cacheReadSet mergeActiveAtClient parallelQuerySigsCheck : bool.
Implicit Types (st : AllValidationTxnState) (f : ForwardReadResult) (evs : list TEvent) (D : list (string * (string * Timestamp))).
Notation v_get := (v_get part ngroups).
Notation v_put := (v_put part ngroups policyIdFunction liftingEnabled).
Notation v_forward := (v_forward policyIdFunction policyCache hideTimestamps liftingEnabled).
Notation editTxnStateCB := (editTxnStateCB policyIdFunction policyCache hideTimestamps liftingEnabled).
Notation v_commit := (v_commit policyCache liftingEnabled cacheReadSet mergeActiveAtClient parallelQuerySigsCheck).
Notation fwd_entry := (fwd_entry hideTimestamps).
Notation read_of := (read_of hideTimestamps).
Notation curr_ts := (curr_ts hideTimestamps).

(** One operation: the state after it, unless it is deleted, and the results
    handed to the execution. *)
Definition tstep (e : TEvent) st : outcome (option AllValidationTxnState * list (string * (string * Timestamp))) :=
  match e with
  | EStamp ts pol hashed => Done (Some (v_stamp hideTimestamps ts pol hashed st), [])
  | EGet key => let '(st, r) := v_get key st in Done (Some st, match r with Some x => [(key, x)] | None => [] end)
  | EPut key value => Done (Some (v_put key value st), [])
  | ELift keys => Done (Some (v_lift liftingEnabled keys st), [])
  | EForward f => '(st, r) ← v_forward f st; Done (Some st, match r with Some x => [(fw_key f, x)] | None => [] end)
  | ENotify => let '(st, gone, _) := v_notify st in Done (if gone : bool then None else Some st, [])
  | ECommit => '(st, _) ← v_commit st; Done (Some st, [])
  | EAbort => let '(st, gone) := v_abort parallelQuerySigsCheck st in Done (if gone : bool then None else Some st, [])
  end.
Inductive trun (c q : Z) : list TEvent → list (string * (string * Timestamp)) → AllValidationTxnState → Prop :=
| trun_new : trun c q [] [] (AllValidationTxnState_new c q)
| trun_step evs D st e st' d : trun c q evs D st → tstep e st = Done (Some st', d) → trun c q (evs ++ [e]) (D ++ d) st'.

(** The bookkeeping. *)
Record books evs D st : Prop := {
  bk_forwards : fwd_entry <$> forwards evs ≡ₚ D ++ vs_pendingForwardedRead st;
  bk_gets : gets evs ≡ₚ D.*1 ++ vs_pendingGets st;
  bk_waits : ∀ k, k ∈ vs_pendingGets st → k ∉ (vs_pendingForwardedRead st).*1;
  bk_reads : read_set (vs_txn st) = read_of <$> added evs;
  bk_writes : write_set (vs_txn st) = (λ kv, mkWrite kv.1 (Some kv.2) false) <$> puts evs;
  bk_deps : deps (vs_txn st) = dep_of <$> omap fw_dep (forwards evs);
  bk_seen : ssorted id (vs_seenReads st) ∧ ∀ k, k ∈ vs_seenReads st ↔ k ∈ gets evs;
  bk_written : ∀ k v, v ∈ default [] (vs_write_values st !! k) → (k, v) ∈ puts evs;
  bk_values : ∀ k v, vs_readValues st !! k = Some v → ∃ f, f ∈ added evs ∧ fw_key f = k ∧ fw_value f = v;
  bk_ignored : ∀ f, f ∈ forwards evs →
    (∃ g, g ∈ added evs ∧ fw_key g = fw_key f ∧ fw_value g = fw_value f) ∨
    fw_value f ∈ default [] (vs_ignore_readset_kv st !! fw_key f);
  bk_pending : vs_numPendingReads st = Z.of_nat (length (added evs));
  bk_valid : vs_numValidReads st = Z.of_nat (length (notified evs))
}.

Lemma books_new c q : books [] [] (AllValidationTxnState_new c q).
Proof. split; cbn; try done; try set_solver. split; [constructor|set_solver]. Qed.

(** What the bookkeeping is about; the other fields do not matter. *)
Definition acts evs := (gets evs, puts evs, forwards evs, notified evs).
Definition txn_accounts (t : Transaction) := (read_set t, write_set t, deps t).
Definition accounts st :=
  (vs_pendingForwardedRead st, vs_pendingGets st, txn_accounts (vs_txn st), vs_seenReads st, vs_write_values st,
   vs_readValues st, vs_ignore_readset_kv st, (vs_numPendingReads st, vs_numValidReads st)).

Lemma books_same evs evs' D st st' : acts evs' = acts evs → accounts st' = accounts st → books evs D st → books evs' D st'.
Proof.
  unfold acts, accounts, txn_accounts. intros [= Hg Hp Hf Hn] [= H1 H2 H3 H4 H5 H6 H7 H8 H9 H10 H11] [].
  split; unfold added in *; rewrite ?Hg, ?Hp, ?Hf, ?Hn, ?H1, ?H2, ?H3, ?H4, ?H5, ?H6, ?H7, ?H8, ?H9, ?H10, ?H11; assumption.
Qed.

Lemma add_group_accounts g t : txn_accounts (add_group g t) = txn_accounts t.
Proof. unfold add_group. destruct (IsTxnParticipant t g); [done|]. unfold txn_accounts. cbn. by rewrite !app_nil_r. Qed.
Lemma add_groups_accounts gs t : txn_accounts (foldl (λ t i, add_group i t) t gs) = txn_accounts t.
Proof. revert t. induction gs as [|g gs IH]; intros t; [done|]. cbn. by rewrite IH, add_group_accounts. Qed.

Lemma stamp_accounts ts pol h st : accounts (v_stamp hideTimestamps ts pol h st) = accounts st.
Proof. done. Qed.
Lemma lift_accounts keys st : accounts (v_lift liftingEnabled keys st) = accounts st.
Proof. unfold v_lift. case_match; [done|]. unfold accounts, txn_accounts. cbn. by rewrite !app_nil_r. Qed.
Lemma policyId_accounts p st : accounts (add_policyId p st) = accounts st.
Proof. done. Qed.
Lemma flags_accounts a b st : accounts (set_flags a b st) = accounts st.
Proof. done. Qed.
Lemma commit_accounts st st' b : v_commit st = Done (st', b) → accounts st' = accounts st.
Proof.
  unfold Validation.v_commit. intros H. inv_outcome. case_match; simplify_eq; rewrite ?flags_accounts; case_match; try done;
    unfold accounts, txn_accounts; cbn; by rewrite !app_nil_r.
Qed.

Lemma books_get evs D st key st' r :
  books evs D st → v_get key st = (st', r) →
  books (evs ++ [EGet key]) (D ++ match r with Some x => [(key, x)] | None => [] end) st'.
Proof.
  intros [Hf Hg Hw Hr Hwr Hd [Hs Hse] Hwv Hv Hi Hp Hva] H. unfold Validation.v_get in H. cbn in H.
  assert (∀ g, txn_accounts (add_group g (vs_txn st)) = txn_accounts (vs_txn st)) as Ha by (intros; apply add_group_accounts).
  specialize (Ha (group_of part ngroups key (vs_txn st))). unfold txn_accounts in Ha. simplify_eq.
  assert (∀ k, k ∈ seq_insert id key (vs_seenReads st) ↔ k ∈ gets evs ++ [key]) as Hse'.
  { intros k. rewrite elem_of_set_insert, elem_of_app, list_elem_of_singleton, Hse by done. tauto. }
  destruct (take_first key (vs_pendingForwardedRead st)) as [[res rest]|] eqn:Ht; simplify_eq.
  - apply take_first_Some in Ht. split; snoc_all; try done; try congruence.
    + rewrite Hf, Ht. rewrite <- app_assoc. done.
    + rewrite Hg. rewrite <- !app_assoc. apply Permutation_app_head. apply Permutation_app_comm.
    + intros k Hk Hin. apply (Hw k Hk). rewrite Ht. set_solver.
    + split; [by apply (seq_insert_sorted id)|done].
  - apply take_first_None in Ht. split; snoc_all; try done; try congruence.
    + rewrite Hg. by rewrite <- app_assoc.
    + intros k. rewrite elem_of_app, list_elem_of_singleton. intros [Hk| ->]; [by apply Hw|done].
    + split; [by apply (seq_insert_sorted id)|done].
Qed.

Lemma books_put evs D st key value : books evs D st → books (evs ++ [EPut key value]) D (v_put key value st).
Proof.
  intros Hb. set (st1 := mkVS (txn_edit [] [mkWrite key (Some value) false] [] [] [] [] (vs_txn st)) (vs_readValues st)
    (vs_pendingGets st) (vs_pendingForwardedRead st) (vs_seenReads st) (push_value key value (vs_write_values st))
    (vs_ignore_readset_kv st) (vs_policyIDs st) (vs_numPendingReads st) (vs_numValidReads st) (vs_commitWait st) (vs_aborted st)).
  assert (accounts (v_put key value st) = accounts st1) as Ha.
  { unfold Validation.v_put.
    assert (∀ s' h, (∀ t, txn_accounts (h t) = txn_accounts t) → accounts (upd_txn h s') = accounts s') as Hu.
    { intros s' h Hh. unfold accounts. cbn. by rewrite Hh. }
    rewrite Hu; [by destruct liftingEnabled|].
    intros t. case_match; [apply add_groups_accounts|apply add_group_accounts]. }
  eapply books_same; [reflexivity|exact Ha|]. clear Ha. destruct Hb as [Hf Hg Hw Hr Hwr Hd Hs Hwv Hv Hi Hp Hva].
  split; snoc_all; try done; try congruence.
  - intros k v. rewrite push_value_lookup, elem_of_app. intros [Hin|Hin]; [set_solver|].
    case_decide; [subst; set_solver|set_solver].
Qed.

(** The edit of a forwarded result, apart from the queues. *)
Lemma edit_spec f st st' :
  editTxnStateCB f st = Done st' →
  vs_pendingForwardedRead st' = vs_pendingForwardedRead st ∧ vs_pendingGets st' = vs_pendingGets st ∧
  vs_seenReads st' = vs_seenReads st ∧ vs_write_values st' = vs_write_values st ∧
  vs_numValidReads st' = vs_numValidReads st ∧ write_set (vs_txn st') = write_set (vs_txn st) ∧
  deps (vs_txn st') = deps (vs_txn st) ++ (dep_of <$> match fw_dep f with Some d => [d] | None => [] end) ∧
  if fw_add_readset f then
    read_set (vs_txn st') = read_set (vs_txn st) ++ [read_of f] ∧ vs_readValues st' = <[fw_key f := fw_value f]> (vs_readValues st) ∧
    vs_ignore_readset_kv st' = vs_ignore_readset_kv st ∧ vs_numPendingReads st' = vs_numPendingReads st + 1
  else
    read_set (vs_txn st') = read_set (vs_txn st) ∧ vs_readValues st' = vs_readValues st ∧
    vs_numPendingReads st' = vs_numPendingReads st ∧
    ∃ v, vs_readValues st !! fw_key f = Some v ∧
      vs_ignore_readset_kv st' = if decide (v = fw_value f) then vs_ignore_readset_kv st
                                 else push_value (fw_key f) (fw_value f) (vs_ignore_readset_kv st).
Proof.
  unfold Validation.editTxnStateCB, edit_add, edit_ignore. intros H. inv_outcome.
  destruct (fw_add_readset f); [|destruct (vs_readValues st !! fw_key f) as [v|] eqn:Hv; [|done]]; simplify_eq.
  - repeat case_match; cbn; rewrite ?app_nil_r; done.
  - destruct (fw_dep f), (decide (v = fw_value f)); cbn; rewrite ?app_nil_r; split_and!; try done; exists v; (split; [done|by case_decide]).
Qed.

(** A forwarded result that goes to [D] or to the results kept. *)
Lemma books_edit evs D st f st' D' gets' fwds' :
  books evs D st → editTxnStateCB f st = Done st' →
  D' ++ fwds' ≡ₚ (D ++ vs_pendingForwardedRead st) ++ [fwd_entry f] →
  D'.*1 ++ gets' ≡ₚ D.*1 ++ vs_pendingGets st → (∀ k, k ∈ gets' → k ∉ fwds'.*1) →
  books (evs ++ [EForward f]) D' (set_queues gets' fwds' st').
Proof.
  intros [Hf Hg Hw Hr Hwr Hd Hs Hwv Hv Hi Hp Hva] He HD HG HW.
  apply edit_spec in He as (_ & _ & E3 & E4 & E5 & E6 & E7 & E8).
  split; snoc_all; rewrite ?E3, ?E4, ?E5, ?E6, ?E7; try done; try congruence.
  - by rewrite HD, Hf.
  - by rewrite Hg, HG.
  - rewrite Hr in E8. destruct (fw_add_readset f); destruct E8 as (-> & _); cbn; by rewrite ?app_nil_r.
  - intros k v. destruct (fw_add_readset f); destruct E8 as (_ & -> & _); [|rewrite app_nil_r; apply Hv].
    rewrite lookup_insert. case_decide; [intros [= <-]; subst; exists f; set_solver|].
    intros (g & ? & ?)%Hv. exists g. set_solver.
  - intros g. rewrite elem_of_app, list_elem_of_singleton. intros [Hin| ->].
    + destruct (Hi g Hin) as [(h & Hh & ?)|Hin']; [left; exists h; split; [set_solver|done]|right].
      destruct (fw_add_readset f); [by destruct E8 as (_ & _ & -> & _)|]. destruct E8 as (_ & _ & _ & v & _ & ->).
      case_decide; [done|]. rewrite push_value_lookup. set_solver.
    + destruct (fw_add_readset f); [left; exists f; set_solver|]. destruct E8 as (_ & _ & _ & v & Hk & ->).
      case_decide as Heq; [left|right; rewrite push_value_lookup, decide_True; set_solver].
      apply Hv in Hk as (h & ? & ? & ?). exists h. rewrite app_nil_r. by subst.
  - rewrite length_app. destruct (fw_add_readset f); [destruct E8 as (_ & _ & _ & ->)|destruct E8 as (_ & _ & -> & _)]; cbn; lia.
Qed.

Lemma edit_queues f st a b : editTxnStateCB f (set_queues a b st) = set_queues a b <$> editTxnStateCB f st.
Proof.
  unfold Validation.editTxnStateCB, edit_add, edit_ignore. cbn.
  destruct (fw_add_readset f); [|destruct (vs_readValues st !! fw_key f); [|done]];
    destruct (fw_dep f); cbn; repeat case_match; done.
Qed.

Lemma books_forward evs D st f st' r :
  books evs D st → v_forward f st = Done (st', r) →
  books (evs ++ [EForward f]) (D ++ match r with Some x => [(fw_key f, x)] | None => [] end) st'.
Proof.
  intros Hb H. unfold Validation.v_forward in H. destruct (remove_first (fw_key f) (vs_pendingGets st)) as [rest|] eqn:Hr.
  - apply remove_first_Some in Hr. apply bind_Done in H as (st1 & He & H). simplify_eq.
    pose proof Hb as Hb'. destruct Hb' as [_ _ Hw _ _ _ _ _ _ _ _ _].
    pose proof He as Hq. apply edit_spec in Hq as (-> & _). eapply books_edit; [done..| | |].
    + unfold Validation.fwd_entry. rewrite <- !app_assoc. apply Permutation_app_head. apply Permutation_app_comm.
    + rewrite fmap_app. cbn. rewrite Hr, <- app_assoc. done.
    + intros k Hk. apply Hw. rewrite Hr. set_solver.
  - apply remove_first_None in Hr. apply bind_Done in H as (st1 & H & ?). simplify_eq. rewrite app_nil_r.
    rewrite edit_queues in H. destruct (editTxnStateCB f st) as [st2|] eqn:He; [|done]. cbn in H. simplify_eq.
    eapply books_edit; [done..| |done|].
    + by rewrite app_assoc.
    + destruct Hb as [_ _ Hw _ _ _ _ _ _ _ _ _]. intros k Hk. rewrite fmap_app. cbn.
      rewrite elem_of_app, list_elem_of_singleton. intros [Hin| ->]; [by eapply Hw|done].
Qed.

Lemma books_notify evs D st st' gone now :
  books evs D st → v_notify st = (st', gone, now) → books (evs ++ [ENotify]) D st'.
Proof.
  intros [Hf Hg Hw Hr Hwr Hd Hs Hwv Hv Hi Hp Hva] H. unfold v_notify in H. cbn in H.
  repeat case_match; simplify_eq; split; snoc_all; try done; rewrite length_app; cbn; lia.
Qed.

Theorem books_run c q evs D st : trun c q evs D st → books evs D st.
Proof.
  induction 1 as [|evs D st e st' d Hrun IH Hstep]; [apply books_new|].
  destruct e; unfold tstep in Hstep; cbn in Hstep.
  - simplify_eq. rewrite app_nil_r. by eapply books_same; [..|exact IH]; [unfold acts; by snoc_all|apply stamp_accounts].
  - destruct (v_get key st) as [st1 r] eqn:Hg. simplify_eq. by eapply books_get.
  - simplify_eq. rewrite app_nil_r. by apply books_put.
  - simplify_eq. rewrite app_nil_r. by eapply books_same; [..|exact IH]; [unfold acts; by snoc_all|apply lift_accounts].
  - apply bind_Done in Hstep as ([st1 r] & Hf & Hstep). simplify_eq. by eapply books_forward.
  - destruct (v_notify st) as [[st1 gone] now] eqn:Hn. destruct gone; simplify_eq. rewrite app_nil_r. by eapply books_notify.
  - apply bind_Done in Hstep as ([st1 b] & Hc & Hstep). simplify_eq. rewrite app_nil_r.
    by eapply books_same; [..|exact IH]; [unfold acts; by snoc_all|eapply commit_accounts].
  - destruct (v_abort parallelQuerySigsCheck st) as [st1 gone] eqn:Ha. destruct gone; simplify_eq. rewrite app_nil_r.
    unfold v_abort in Ha. case_match; simplify_eq.
    by eapply books_same; [..|exact IH]; [unfold acts; by snoc_all|apply flags_accounts].
Qed.

(** What the successful checks of [Commit] add. *)
Lemma commit_checks st st' now :
  v_commit st = Done (st', now) →
  vs_pendingForwardedRead st = [] ∧ reads_ok cacheReadSet mergeActiveAtClient st = true ∧ ignored_ok st = true ∧
  (parallelQuerySigsCheck = true → now = true → vs_numPendingReads st ≤ vs_numValidReads st).
Proof.
  unfold Validation.v_commit. intros H. inv_outcome. rename select (bool_decide _ = true) into Hp.
  apply bool_decide_eq_true in Hp. split_and!; [done..|]. intros Hpar Hnow. subst now. rewrite Hpar in *. cbn in *.
  case_match eqn:Hlt; [simplify_eq|]. apply Z.ltb_ge in Hlt. by case_match.
Qed.

Lemma reads_ok_seen st k :
  reads_ok cacheReadSet mergeActiveAtClient st = true → ssorted id (vs_seenReads st) → k ∈ vs_seenReads st →
  k ∈ r_key <$> read_set (vs_txn st).
Proof.
  unfold reads_ok. intros H Hs Hk. destruct (set_of_list_spec (r_key <$> read_set (vs_txn st))) as [Hss Hel].
  apply Hel. case_match.
  - by apply (proj1 (includes_spec _ _ Hss Hs) H).
  - apply bool_decide_eq_true in H. by rewrite H.
Qed.

Lemma ignored_ok_written st k v :
  ignored_ok st = true → v ∈ default [] (vs_ignore_readset_kv st !! k) → v ∈ default [] (vs_write_values st !! k).
Proof.
  unfold ignored_ok. rewrite forallb_forall. intros H Hv.
  destruct (vs_ignore_readset_kv st !! k) as [l|] eqn:Hl; [|by apply elem_of_nil in Hv]. cbn in Hv.
  specialize (H (k, l)). cbn in H. destruct (vs_write_values st !! k) as [ws|] eqn:Hw.
  - cbn. eapply subsequence_elem; [|done]. apply H. by apply list_elem_of_In, elem_of_map_to_list.
  - discriminate H. by apply list_elem_of_In, elem_of_map_to_list.
Qed.

(** The results handed over come from the read set or from a write of the
    execution. *)
Lemma delivered_origin evs D st k x :
  books evs D st → ignored_ok st = true → (k, x) ∈ D →
  (∃ f, f ∈ added evs ∧ fw_key f = k ∧ fw_value f = x.1) ∨ (k, x.1) ∈ puts evs.
Proof.
  intros [Hf _ _ _ _ _ _ Hwv _ Hi _ _] Hok Hin.
  assert ((k, x) ∈ fwd_entry <$> forwards evs) as Hin' by (rewrite Hf; apply elem_of_app; by left).
  apply list_elem_of_fmap in Hin' as (f & Heq & Hff). unfold Validation.fwd_entry in Heq. simplify_eq. cbn.
  destruct (Hi f Hff) as [(g & ? & ? & ?)|Hv]; [left; by exists g|right]. apply Hwv. by apply ignored_ok_written.
Qed.

(** C17: What a validating client endorses is what it executed.  When [Commit]
    accepts an execution, in any order of its reads and writes and of the
    results forwarded to it: every forwarded result was handed to exactly one
    read, the read set lists the results marked for it, its keys are the keys
    the execution read, the write set lists what the execution wrote; every
    value handed over is that of an entry of the read set or one the execution
    wrote; and when evidence is checked in parallel and the callback runs, as
    many checks have succeeded as the read set has entries. *)
Theorem endorsed_execution_accounted c q evs D st st' now :
  trun c q evs D st → v_commit st = Done (st', now) →
  fwd_entry <$> forwards evs ≡ₚ D ∧ gets evs ≡ₚ D.*1 ++ vs_pendingGets st' ∧
  read_set (vs_txn st') = read_of <$> added evs ∧
  (∀ k, k ∈ gets evs ↔ k ∈ r_key <$> read_set (vs_txn st')) ∧
  write_set (vs_txn st') = (λ kv, mkWrite kv.1 (Some kv.2) false) <$> puts evs ∧
  deps (vs_txn st') = dep_of <$> omap fw_dep (forwards evs) ∧
  (∀ k v ts, (k, (v, ts)) ∈ D → (∃ f, f ∈ added evs ∧ fw_key f = k ∧ fw_value f = v) ∨ (k, v) ∈ puts evs) ∧
  (parallelQuerySigsCheck = true → now = true → (length (added evs) ≤ length (notified evs))%nat).
Proof.
  intros Hrun Hc. apply books_run in Hrun as Hb. pose proof (commit_checks _ _ _ Hc) as (Hpf & Hro & Hio & Hpar).
  pose proof (commit_accounts _ _ _ Hc) as Ha. unfold accounts, txn_accounts in Ha. simplify_eq.
  pose proof (λ k v ts, delivered_origin evs D st k (v, ts) Hb Hio) as Horig.
  destruct Hb as [Hf Hg _ Hr Hw Hd [Hss Hs] _ _ _ Hp Hv].
  rewrite Hpf, app_nil_r in Hf.
  repeat match goal with H : _ = _ |- _ => rewrite H end.
  split_and!; try done; try congruence.
  - intros k. split.
    + intros Hk. rewrite <- Hr. apply reads_ok_seen; [done..|by apply Hs].
    + intros (r & -> & (f & -> & Hin)%list_elem_of_fmap)%list_elem_of_fmap. rewrite Hg, <- Hf, elem_of_app. left.
      apply list_elem_of_fmap. exists (fwd_entry f). split; [by unfold Validation.read_of; destruct hideTimestamps|].
      apply list_elem_of_fmap_2. by apply list_elem_of_filter in Hin as [_ ?].
  - intros Hpc Hnow. specialize (Hpar Hpc Hnow). lia.
Qed.

End runs.
