(* ===== verification/ValidationEvidence.v ===== *)
(** * The validating client and the evidence of what it endorses

    Every transaction state a [ValidationClient] holds is a run of the machine
    of ValidationSafety.v, whatever the interleaving of its threads; with the
    evidence check on, every read an execution was accepted with is backed by a
    certificate. *)
From S2P Require Import Prelude OrderedSeq CppString Timestamp VersionStore Policy PolicyParse ServerState Quorum Reads ReadClient EndorseClient Validation ValidationSafety.

Section client.
Variable part : string → list Z → Z.
Variable ngroups : Z.
Variable policyIdFunction : string → string → string.
Variable policyCache : PolicyCache.t.
Variables hideTimestamps liftingEnabled cacheReadSet mergeActiveAtClient parallelQuerySigsCheck : bool.
Variable config : Configuration.
Variable ser_cc : CCMsg → string.
Variable ser_p2 : P2Msg → string.
Variable Verify : Z → string → string → bool.
Variable TransactionDigest : Transaction → digest.
Variable parse_Write : string → Write.
Variable parse_fwd : string → ForwardReadResult.
Variables validateProofs signedMessages : bool.
Variable readDepSize : Z.
Variable parse_hmacs : string → gmap Z string.
Variable verifyHMAC : string → string → string → bool.
Variable sessionKeys : gmap Z string.
Variables my_client_id nclients : Z.
Variables signFwdReadResults clientCheckEvidence : bool.
Variable parallel_CCC : bool.
Variable sort_read_set : list ReadMessage → list ReadMessage.
Variable sort_write_set : list WriteMessage → list WriteMessage.
Variable PolicyVersionDigest : Transaction → digest → digest.
Implicit Types (vc : ValidationClient) (st : AllValidationTxnState) (f : ForwardReadResult) (m : ForwardReadResultMessage).

Notation ReadSigHelper := (ReadSigHelper hideTimestamps config ser_cc ser_p2 Verify TransactionDigest parse_Write
  validateProofs signedMessages readDepSize).
Notation trun := (trun part ngroups policyIdFunction policyCache hideTimestamps liftingEnabled cacheReadSet
  mergeActiveAtClient parallelQuerySigsCheck).
Notation tstep := (tstep part ngroups policyIdFunction policyCache hideTimestamps liftingEnabled cacheReadSet
  mergeActiveAtClient parallelQuerySigsCheck).
Notation v_commit := (v_commit policyCache liftingEnabled cacheReadSet mergeActiveAtClient parallelQuerySigsCheck).
Notation Commit := (Commit policyCache liftingEnabled cacheReadSet mergeActiveAtClient parallelQuerySigsCheck).
Notation open_fwd := (open_fwd parse_fwd parse_hmacs verifyHMAC sessionKeys my_client_id nclients signFwdReadResults).
Notation ProcessForwardReadResult := (ProcessForwardReadResult policyIdFunction policyCache hideTimestamps liftingEnabled).
Notation HandleForwardReadResultMessage := (HandleForwardReadResultMessage hideTimestamps parallelQuerySigsCheck config
  ser_cc ser_p2 Verify TransactionDigest parse_Write parse_fwd validateProofs signedMessages readDepSize parse_hmacs
  verifyHMAC sessionKeys my_client_id nclients signFwdReadResults clientCheckEvidence).

(** ** Runs of the client *)

Inductive VEvent :=
| VStart (th c q : Z) (ts : Timestamp) (isPolicyTransaction : bool) (hashed : string)
| VBegin (th : Z)
| VGet (th : Z) (key : string)
| VTimeout (id key : string)
| VPut (th : Z) (key value : string)
| VLift (th : Z) (keys : list string)
| VCommit (th : Z)
| VAbort (th : Z)
| VMessage (m : ForwardReadResultMessage)
| VProcess
| VCheck (i : nat)
| VFinish (th : Z).
(** Messages wait while the handler of another one is under way. *)
Definition vexec (e : VEvent) vc : outcome ValidationClient :=
  match e with
  | VStart th c q ts pol hashed => Done (start_validation hideTimestamps th c q ts pol hashed vc)
  | VBegin th => Begin th vc
  | VGet th key => Get part ngroups th key vc
  | VTimeout id key => GetTimeout id key vc
  | VPut th key value => Put part ngroups policyIdFunction liftingEnabled th key value vc
  | VLift th keys => LiftTransaction liftingEnabled th keys vc
  | VCommit th => Commit th vc
  | VAbort th => Abort parallelQuerySigsCheck th vc
  | VMessage m => match vc_inflight vc with None => HandleForwardReadResultMessage m vc | Some _ => Done vc end
  | VProcess =>
      match vc_inflight vc with
      | Some f => ProcessForwardReadResult f (set_check None (vc_jobs vc) vc)
      | None => Done vc
      end
  | VCheck i => run_check hideTimestamps config ser_cc ser_p2 Verify TransactionDigest parse_Write validateProofs
                  signedMessages readDepSize i vc
  | VFinish th => finish_validation TransactionDigest my_client_id parallel_CCC sort_read_set sort_write_set
                    PolicyVersionDigest th vc
  end.
Inductive vrun : ValidationClient → Prop :=
| vrun_new : vrun ValidationClient_new
| vrun_step vc e vc' : vrun vc → vexec e vc = Done vc' → vrun vc'.

(** A result that passed the handler. *)
Definition accepted f : Prop :=
  ∃ m, open_fwd m = Done (Some f) ∧
    (fw_add_readset f = true → clientCheckEvidence = true → parallelQuerySigsCheck = false → ReadSigHelper f m = Done true).
(** A state is a run over accepted results. *)
Definition explained st (evs : list TEvent) (D : list (string * (string * Timestamp))) : Prop :=
  (∃ c q, trun c q evs D st) ∧ ∀ f, f ∈ forwards evs → accepted f.
Definition states_explained (m : gmap string AllValidationTxnState) : Prop :=
  ∀ id st, m !! id = Some st → ∃ evs D, explained st evs D.

Lemma explained_step st evs D e st' d :
  explained st evs D → tstep e st = Done (Some st', d) → (∀ f, e = EForward f → accepted f) →
  explained st' (evs ++ [e]) (D ++ d).
Proof.
  intros [(c & q & Hr) Ha] Hs He. split; [exists c, q; by eapply trun_step|].
  intros f. unfold forwards. rewrite omap_snoc, elem_of_app. intros [Hin|Hin]; [by apply Ha|].
  destruct e; set_solver.
Qed.
Lemma explained_new c q : explained (AllValidationTxnState_new c q) [] [].
Proof. split; [exists c, q; constructor|]. intros f Hf. by apply elem_of_nil in Hf. Qed.

Lemma explained_insert ss id st e st' d :
  states_explained ss → (∃ evs D, explained st evs D) → tstep e st = Done (Some st', d) → (∀ f, e = EForward f → accepted f) →
  states_explained (<[id := st']> ss).
Proof.
  intros Hs (evs & D & He) Hst Hf id' st0. rewrite lookup_insert. case_decide; [|apply Hs].
  intros [= <-]. exists (evs ++ [e]), (D ++ d). by eapply explained_step.
Qed.
Lemma explained_delete ss id : states_explained ss → states_explained (delete id ss).
Proof. intros Hs id' st [_ H]%lookup_delete_Some. by eapply Hs. Qed.
Lemma state_or_new_explained vc c q : states_explained (vc_states vc) → ∃ evs D, explained (state_or_new vc c q) evs D.
Proof.
  intros Hs. unfold state_or_new. destruct (vc_states vc !! ToTxnId c q) as [st|] eqn:Hl; cbn; [by eapply Hs|].
  eexists _, _. apply explained_new.
Qed.
Lemma find_txn_explained vc th id st :
  states_explained (vc_states vc) → find_txn vc th = Done (id, st) → ∃ evs D, explained st evs D.
Proof. intros Hs H. unfold find_txn in H. inv_outcome. destruct x. case_match; simplify_eq. by eapply Hs. Qed.

(** What holds after every step. *)
Definition client_ok vc : Prop :=
  states_explained (vc_states vc) ∧ ∀ f, vc_inflight vc = Some f → accepted f.

Lemma forward_new f c q st :
  editTxnStateCB policyIdFunction policyCache hideTimestamps liftingEnabled f (AllValidationTxnState_new c q) = Done st →
  tstep (EForward f) (AllValidationTxnState_new c q) =
    Done (Some (set_queues (vs_pendingGets st) (vs_pendingForwardedRead st ++ [fwd_entry hideTimestamps f]) st), []).
Proof.
  intros He. apply edit_spec in He as Hq. destruct Hq as (Hpf & Hpg & _). rewrite Hpf, Hpg.
  unfold ValidationSafety.tstep, v_forward. cbn [vs_pendingGets vs_pendingForwardedRead AllValidationTxnState_new remove_first app].
  rewrite edit_queues, He. done.
Qed.

(** One line per operation that works on the state of the thread's
    transaction. *)
Ltac thread_op th :=
  match goal with
  | Hs : states_explained (vc_states ?vc), H : context [find_txn ?vc th] |- _ =>
      apply bind_Done in H as ([? ?] & Hfind & H); pose proof (find_txn_explained _ _ _ _ Hs Hfind) as Hex; cbn in H
  end.

Lemma check_accepts f m vc vc' :
  open_fwd m = Done (Some f) → HandleForwardReadResultMessage m vc = Done vc' →
  vc_states vc' = vc_states vc ∧ vc_inflight vc' = Some f ∧ accepted f.
Proof.
  intros Ho H. unfold Validation.HandleForwardReadResultMessage in H. rewrite Ho in H. cbn [mbind outcome_bind] in H.
  apply bind_Done in H as (vc0 & Hc & H). simplify_eq. cbn.
  assert (∀ b vc1 vc2, CheckPreparedCommittedEvidence hideTimestamps parallelQuerySigsCheck config ser_cc ser_p2 Verify
    TransactionDigest parse_Write validateProofs signedMessages readDepSize f m vc1 = Done (b, vc2) →
    vc_states vc2 = vc_states vc1 ∧
    (fw_add_readset f = true → parallelQuerySigsCheck = false → ReadSigHelper f m = Done b)) as Hchk.
  { intros b vc1 vc2 Hk. unfold CheckPreparedCommittedEvidence in Hk.
    destruct (fw_add_readset f), parallelQuerySigsCheck; cbn in Hk; inv_outcome; done. }
  destruct (fw_add_readset f && clientCheckEvidence) eqn:Hb.
  - apply bind_Done in Hc as ([ok vc1] & Hc1 & Hc). cbn in Hc. apply bind_Done in Hc as (u & Hok & Hc).
    apply uw_assert_Done in Hok. apply bind_Done in Hc as ([b2 vc2] & Hc2 & Hc). simplify_eq.
    destruct (Hchk _ _ _ Hc2) as [-> _]. destruct parallelQuerySigsCheck eqn:Hp; cbn in Hc1; simplify_eq.
    + split_and!; [done..|]. exists m. split; [done|]. congruence.
    + destruct (Hchk _ _ _ Hc1) as [-> Hr]. split_and!; [done..|]. exists m. split; [done|]. intros Ha _ _. by apply Hr.
  - simplify_eq. split_and!; [done..|]. exists m. split; [done|]. intros Ha Hce. rewrite Ha, Hce in Hb. done.
Qed.

Lemma client_ok_step vc e vc' : client_ok vc → vexec e vc = Done vc' → client_ok vc'.
Proof.
  intros [Hs Hi] H.
  destruct e; cbn [vexec] in H; unfold Begin, Get, Put, LiftTransaction, Validation.Commit, Abort in H.
  - simplify_eq. split; [|done]. cbn.
    apply (explained_insert _ _ (state_or_new (SetThreadValTxnId th c q vc) c q) (EStamp ts isPolicyTransaction hashed) _ []);
      [done|by apply state_or_new_explained|done..].
  - thread_op th. simplify_eq. by split.
  - thread_op th. destruct (v_get part ngroups key a) as [st' r] eqn:Hg. simplify_eq. split; [|done]. cbn.
    eapply (explained_insert _ _ a (EGet key)); [done..| |done]. cbn. by rewrite Hg.
  - unfold GetTimeout in H. case_match; inv_outcome; by split.
  - thread_op th. simplify_eq. split; [|done]. cbn. by eapply (explained_insert _ _ a (EPut key value)).
  - case_match; [by simplify_eq|]. thread_op th. simplify_eq. split; [|done]. cbn.
    by eapply (explained_insert _ _ a (ELift keys)).
  - thread_op th. inv_outcome. destruct x as [st' now]. simplify_eq. split; [|by case_match]. cbn.
    eapply (explained_insert _ _ a ECommit); [done..| |done]. cbn. rename select (v_commit a = _) into Hc. by rewrite Hc.
  - thread_op th. destruct (v_abort parallelQuerySigsCheck a) as [st' gone] eqn:Ha. simplify_eq. split; [|done]. cbn.
    destruct gone; [by apply explained_delete|]. eapply (explained_insert _ _ a EAbort); [done..| |done]. cbn. by rewrite Ha.
  - destruct (vc_inflight vc) eqn:Hfl; [simplify_eq; split; [done|by rewrite Hfl]|].
    destruct (open_fwd m) as [[f|]|] eqn:Ho.
    2-3: unfold Validation.HandleForwardReadResultMessage in H; rewrite Ho in H; cbn in H; simplify_eq; (split; [done|by rewrite Hfl]).
    destruct (check_accepts f m vc vc' Ho H) as (Hst & Hin & Hacc). split; [by rewrite Hst|]. rewrite Hin. by intros f' [= <-].
  - destruct (vc_inflight vc) as [f|] eqn:Hfl; [|simplify_eq; split; [done|by rewrite Hfl]]. specialize (Hi f eq_refl).
    unfold Validation.ProcessForwardReadResult in H. cbn in H.
    destruct (vc_states vc !! _) as [st|] eqn:Hl; apply bind_Done in H as (r & Hf & H).
    + destruct r as [st' r]. simplify_eq. split; [|done]. cbn.
      eapply (explained_insert _ _ st (EForward f)); [done|by eapply Hs| |by intros ? [= <-]]. cbn. by rewrite Hf.
    + simplify_eq. split; [|done]. cbn.
      eapply (explained_insert _ _ _ (EForward f)); [done| |by apply forward_new|by intros ? [= <-]].
      eexists _, _. apply explained_new.
  - unfold run_check in H. destruct (vc_jobs vc !! i) as [[f m]|]; [|by simplify_eq]. inv_outcome.
    set (vc1 := set_check _ _ vc). unfold NotifyForwardReadResultValid.
    pose proof (state_or_new_explained vc1 (fw_client_id f) (fw_client_seq_num f) Hs) as Hex.
    destruct (v_notify _) as [[st' gone] now] eqn:Hn. split; [|done]. cbn. destruct gone; [by apply explained_delete|].
    eapply (explained_insert _ _ _ ENotify); [done|exact Hex| |done]. cbn [ValidationSafety.tstep]. by rewrite Hn.
  - unfold finish_validation in H. inv_outcome. destruct x as [c q]. case_match; [|by simplify_eq]. inv_outcome.
    destruct x as [t vc1]. simplify_eq. unfold GetCompletedTxn in *. case_match; [|done]. inv_outcome.
    split; [|done]. by apply explained_delete.
Qed.

(** The states of a client are runs of the machine: whatever its threads and
    messages do in between, the state of a transaction is the result of a
    sequence of the operations on that transaction alone. *)
Lemma client_run_ok vc : vrun vc → client_ok vc.
Proof. induction 1 as [|vc e vc' _ IH H]; [by split|]. by eapply client_ok_step. Qed.

(** ** Evidence *)

(** A committed version: the transaction of the proof wrote the value to the
    key at the timestamp, and its certificate is valid. *)
Definition proven f m : Prop :=
  ∃ pr, fm_proof m = Some pr ∧
    (is_genesis_txn (cp_txn pr) = true ∨
     ValidateCommittedProof config ser_cc ser_p2 Verify pr (TransactionDigest (cp_txn pr)) = Done true ∧
     (if hideTimestamps then hashed_timestamp (cp_txn pr) = hashed_ts (fw_ts f) else t_timestamp (cp_txn pr) = plain_ts (fw_ts f)) ∧
     ∃ w, w ∈ write_set (cp_txn pr) ∧ w_key w = fw_key f ∧ w_value w = fw_value f).
(** A prepared version: [readDepSize] signed messages name it. *)
Definition supported f (d : ReadDependency) : Prop :=
  readDepSize ≤ Z.of_nat (length (rdep_write_sigs d)) ∧
  (∀ sm, sm ∈ rdep_write_sigs d →
     Verify (sm_process_id sm) (sm_data sm) (sm_signature sm) = true ∧
     write_eq (prepared_fields (parse_Write (sm_data sm))) (prepared_fields (rdep_write d)) = true) ∧
  default "" (wr_prepared_value (rdep_write d)) = fw_value f.
(** The result names its version. *)
Definition versioned f : Prop := if hideTimestamps then hashed_ts (fw_ts f) ≠ "" else has_plain (fw_ts f) = true.
Definition evidence f m : Prop :=
  fw_value f ≠ "" → versioned f → match fw_dep f with Some d => supported f d | None => proven f m end.

Lemma dependency_sigs_spec pw w msgs :
  dependency_sigs Verify pw w msgs = Done true →
  ∀ sm, sm ∈ msgs → Verify (sm_process_id sm) (sm_data sm) (sm_signature sm) = true ∧ write_eq (pw (sm_data sm)) w = true.
Proof.
  induction msgs as [|x msgs IH]; intros H sm Hin; [by apply elem_of_nil in Hin|]. cbn in H. inv_outcome.
  destruct (Verify (sm_process_id x) (sm_data x) (sm_signature x)) eqn:Hv; [|done]. cbn in *.
  apply elem_of_cons in Hin as [->|Hin]; [done|by apply IH].
Qed.

(** What [ValidateTransactionWrite] establishes. *)
Lemma transaction_write_spec pr dg key v ts h :
  ValidateTransactionWrite config ser_cc ser_p2 Verify pr dg key v ts true h = Done true →
  is_genesis_txn (cp_txn pr) = true ∨
  ValidateCommittedProof config ser_cc ser_p2 Verify pr dg = Done true ∧
  (if decide (h = "") then t_timestamp (cp_txn pr) = ts else hashed_timestamp (cp_txn pr) = h) ∧
  ∃ w, w ∈ write_set (cp_txn pr) ∧ w_key w = key ∧ w_value w = v.
Proof.
  unfold ValidateTransactionWrite. destruct (is_genesis_txn (cp_txn pr)); [by left|]. intros H. right.
  apply bind_Done in H as (ok & Hok & H). destruct ok; [|done]. cbn in H. split; [done|].
  destruct (_ || _) eqn:Hts; [done|]. apply orb_false_iff in Hts as [Ht1 Ht2].
  destruct (List.find _ (write_set (cp_txn pr))) as [w|] eqn:Hf; [|done]. apply find_some in Hf as [Hin Hk].
  apply bool_decide_eq_true in Hk. simplify_eq. rename select (bool_decide (w_value w = v) = true) into Hv.
  apply bool_decide_eq_true in Hv. split.
  - case_decide as Hh; rewrite ?(bool_decide_eq_true_2 _ Hh), ?(bool_decide_eq_false_2 _ Hh) in *; cbn in *.
    + rewrite ts_ne_eq in Ht1. apply negb_false_iff in Ht1. by apply ts_eq_spec.
    + apply negb_false_iff in Ht2. by apply bool_decide_eq_true in Ht2.
  - exists w. split_and!; [by apply list_elem_of_In|done..].
Qed.

Lemma value_nonempty f : fw_value f ≠ "" → (0 <? Z.of_nat (String.length (fw_value f))) = true.
Proof. intros Hv. apply Z.ltb_lt. destruct (fw_value f); [done|]. cbn. lia. Qed.

Lemma committed_proven f m w :
  validateProofs = true → signedMessages = true → fw_value f ≠ "" → versioned f →
  committed_ok config ser_cc ser_p2 Verify TransactionDigest validateProofs signedMessages m w = Done true →
  default "" (wr_key w) = fw_key f → default "" (wr_committed_value w) = fw_value f →
  ts_matches hideTimestamps (wr_committed_ts w) (fw_ts f) = true → proven f m.
Proof.
  intros -> -> Hv Hts Hok Hk Hval Htm. unfold committed_ok in Hok. unfold proven.
  assert (isset (wr_committed_value w) = true) as Hset.
  { unfold isset. apply bool_decide_eq_true. destruct (wr_committed_value w); [done|]. cbn in Hval. congruence. }
  assert (ts_set (wr_committed_ts w) = true ∧
    if hideTimestamps then hashed_ts (wr_committed_ts w) = hashed_ts (fw_ts f) ∧ hashed_ts (fw_ts f) ≠ ""
    else hashed_ts (wr_committed_ts w) = "" ∧ plain_ts (wr_committed_ts w) = plain_ts (fw_ts f)) as [Hset' Hsame].
  { unfold versioned in Hts. unfold ts_matches in Htm. destruct hideTimestamps.
    - apply bool_decide_eq_true in Htm. rewrite Htm. split; [|done]. destruct (wr_committed_ts w); cbn in *; congruence.
    - destruct (wr_committed_ts w), (fw_ts f); cbn in *; try done. apply bool_decide_eq_true in Htm. by subst. }
  rewrite Hset, Hset' in Hok. cbn in Hok. destruct (fm_proof m) as [pr|]; [|done]. exists pr. split; [done|].
  apply transaction_write_spec in Hok as [?|(Hc & Ht & Hw)]; [by left|right]. rewrite Hk, Hval in Hw. split; [done|]. split; [|done].
  destruct hideTimestamps; destruct Hsame as [H1 H2]; case_decide; try congruence.
Qed.

Lemma checked_evidence f m : validateProofs = true → signedMessages = true → ReadSigHelper f m = Done true → evidence f m.
Proof.
  intros Hvp Hsm H Hv Hts. unfold Validation.ReadSigHelper in H. apply bind_Done in H as (ow & Hw & H).
  destruct ow as [w|]; [|done]. apply bind_Done in H as (u & Hm & _). apply uw_assert_Done in Hm.
  unfold write_matches in Hm. rewrite value_nonempty in Hm by done.
  destruct (fw_dep f) as [d|] eqn:Hd.
  - apply bind_Done in Hw as (ok & Hok & Hw). destruct ok; [|done]. injection Hw as <-. unfold dependency_ok in Hok. rewrite Hvp, Hsm in Hok. cbn in Hok.
    unfold ValidateDependency in Hok. case_match eqn:Hlen; [done|]. apply Z.ltb_ge in Hlen.
    rewrite !andb_true_iff, !bool_decide_eq_true in Hm. destruct Hm as [[_ Hval] _].
    split_and!; [done|exact (dependency_sigs_spec _ _ _ Hok)|done].
  - destruct (forwarded_write Verify parse_Write validateProofs signedMessages m) as [w'|] eqn:Hfw; [|done].
    apply bind_Done in Hw as (ok & Hok & Hw). destruct ok; [|done]. injection Hw as ->.
    rewrite !andb_true_iff, !bool_decide_eq_true in Hm. destruct Hm as [[Hk Hval] Htm].
    eapply committed_proven; done.
Qed.

End client.
