(* ===== verification/ForwardRead.v ===== *)
(** * Forwarding reads to the validating clients

    [Client2Client::SendForwardReadResultMessageHelper]
    (src/src/store/sintrstore/client2client.cc) packs the result of a read with
    its evidence and sends it to the clients that validate the transaction.
    What the reading client accepted, the validating clients accept; the checks
    they skip are stated at the end. *)
From S2P Require Import Prelude OrderedSeq CppString Timestamp VersionStore Policy PolicyParse ServerState Quorum Reads ReadClient EndorseClient Validation ValidationSafety ValidationEvidence.

(** ** Sending *)

Record ForwardState := mkFS {
  fs_sentFwdResults : list (ForwardReadResult * ForwardReadResultMessage);
  fs_out : list (Z * ForwardReadResultMessage)
}.

Section forward.
Variable ser_fwd : ForwardReadResult → string.
Variable ser_hmacs : gmap Z string → string.
(** [crypto::HMAC] of a payload under a key. *)
Variable HMAC : string → string → string.
Variables my_client_id client_seq_num : Z.
Variable sessionKeys : gmap Z string.
Variables hideTimestamps validateProofs signedMessages signFwdReadResults : bool.
Implicit Types (res : ReadResult).

Definition CreateHMACedMessage (data : string) (dst_client_ids : list Z) : SignedMessage :=
  mkSigned my_client_id data
    (ser_hmacs (list_to_map ((λ i, (i, HMAC data (default "" (sessionKeys !! i)))) <$>
                               filter (λ i, i ≠ my_client_id) dst_client_ids))).

Definition fwd_ts res : TsOneof :=
  if hideTimestamps then match res_tsDigest res with Some h => TsHashed h | None => TsUnset end
  else TsPlain (res_ts res).
(** The dependency, the proof and the write of the message.  Messages of this
    model have their required fields ([IsInitialized]). *)
Definition fwd_evidence res : outcome (option ReadDependency * option CommittedProof * ReadBody) :=
  if negb (res_addReadSet res) then Done (None, None, NoWrite)
  else match res_dep res, res_hasDep res with
       | Some d, true => Done (Some d, None, PlainWrite Write_empty)
       | _, _ =>
           let empty := bool_decide (res_value res = "") in
           _ ← uw_assert (negb validateProofs || isset (res_proof res) || empty);
           let pr := if validateProofs then res_proof res else None in
           if signedMessages && negb empty then
             Done (None, pr, match res_write res with Some sm => SignedWrite sm | None => NoWrite end)
           else _ ← uw_assert empty; Done (None, pr, PlainWrite Write_empty)
       end.
Definition SendForwardReadResultMessageHelper res (beginValSent : list Z) (s : ForwardState) : outcome ForwardState :=
  '(d, pr, w) ← fwd_evidence res;
  let f := mkFwd my_client_id client_seq_num (res_key res) (res_value res) (fwd_ts res) d (res_addReadSet res) in
  let body := if signFwdReadResults then FwdSigned (CreateHMACedMessage (ser_fwd f) beginValSent) else FwdPlain f in
  let m := mkFwdMsg body pr w in
  Done (mkFS (fs_sentFwdResults s ++ [(f, m)])
          (fs_out s ++ ((λ i, (i, m)) <$> filter (λ i, i ≠ my_client_id) beginValSent))).
End forward.

(** ** Receiving *)

Section receive.
Variable config : Configuration.
Variable ser_cc : CCMsg → string.
Variable ser_p2 : P2Msg → string.
Variable Verify : Z → string → string → bool.
Variable TransactionDigest : Transaction → digest.
Variable parse_write : string → option Write.
Variable ser_fwd : ForwardReadResult → string.
Variable parse_fwd : string → ForwardReadResult.
Variable ser_hmacs : gmap Z string → string.
Variable parse_hmacs : string → gmap Z string.
Variable HMAC : string → string → string.
Variable verifyHMAC : string → string → string → bool.
Variable readDepSize : Z.
Variables hideTimestamps verifyDeps signFwdReadResults : bool.
(** Sender and receiver, with the session keys of each. *)
Variables sender receiver seq nclients : Z.
Variables keys_s keys_r : gmap Z string.
Implicit Types (res : ReadResult) (f : ForwardReadResult) (m : ForwardReadResultMessage).

Notation parse_Write := (λ data, default Write_empty (parse_write data)).
Notation ReadSigHelper := (ReadSigHelper hideTimestamps config ser_cc ser_p2 Verify TransactionDigest parse_Write true true
  readDepSize).
Notation open_fwd := (open_fwd parse_fwd parse_hmacs verifyHMAC keys_r receiver nclients signFwdReadResults).
Notation SendForwardReadResultMessageHelper := (SendForwardReadResultMessageHelper ser_fwd ser_hmacs HMAC sender seq keys_s
  hideTimestamps true true signFwdReadResults).

(** Encodings are inverse to each other, and a code verifies under the key it
    was made with. *)
Hypothesis fwd_codec : ∀ f, parse_fwd (ser_fwd f) = f.
Hypothesis hmacs_codec : ∀ h, parse_hmacs (ser_hmacs h) = h.
Hypothesis hmac_ok : ∀ data key, verifyHMAC data (HMAC data key) key = true.

Lemma sent_message_opens f pr w dst :
  receiver ∈ dst → receiver ≠ sender → NoDup dst → 0 ≤ sender < nclients →
  default "" (keys_s !! receiver) = default "" (keys_r !! sender) →
  open_fwd (mkFwdMsg (if signFwdReadResults then FwdSigned (CreateHMACedMessage ser_hmacs HMAC sender keys_s (ser_fwd f) dst)
                      else FwdPlain f) pr w) = Done (Some f).
Proof.
  intros Hin Hne Hnd Hs Hkey. unfold Validation.open_fwd. destruct signFwdReadResults; [|done]. cbn.
  unfold ValidateHMACedMessage. cbn. rewrite hmacs_codec, Z.mod_small by done.
  assert (list_to_map (M := gmap Z string) ((λ i, (i, HMAC (ser_fwd f) (default "" (keys_s !! i)))) <$>
    filter (λ i, i ≠ sender) dst) !! receiver = Some (HMAC (ser_fwd f) (default "" (keys_s !! receiver)))) as ->.
  { apply elem_of_list_to_map.
    - rewrite <- list_fmap_compose. cbn. rewrite list_fmap_id. by apply NoDup_filter.
    - apply list_elem_of_fmap. exists receiver. split; [done|]. by apply list_elem_of_filter. }
  cbn. by rewrite Hkey, hmac_ok, fwd_codec.
Qed.

Definition msg_of f (pr : CommittedProof) (sm : SignedMessage) (dst : list Z) : ForwardReadResultMessage :=
  mkFwdMsg (if signFwdReadResults then FwdSigned (CreateHMACedMessage ser_hmacs HMAC sender keys_s (ser_fwd f) dst)
            else FwdPlain f) (Some pr) (SignedWrite sm).
Lemma fwd_evidence_committed res pr sm :
  res_addReadSet res = true → res_hasDep res = false → res_value res ≠ "" → res_proof res = Some pr → res_write res = Some sm →
  fwd_evidence true true res = Done (None, Some pr, SignedWrite sm).
Proof.
  intros Ha Hd Hv Hp Hw. unfold fwd_evidence. rewrite Ha, Hd, Hp, Hw. rewrite (bool_decide_eq_false_2 (res_value res = "")) by done.
  by destruct (res_dep res).
Qed.

Notation open_reply := (open_reply Verify parse_write true true verifyDeps).
Notation check_committed := (check_committed config ser_cc ser_p2 Verify TransactionDigest true true hideTimestamps).

(** C19: a committed version a client reads is accepted by the clients it
    forwards it to.  With [validateProofs] and [signedMessages], and [hideTimestamps]
    off, let the client take value [v], not empty, at version [ts] of the key it asked
    from a signed reply that names this key and a plain version (the client checks
    neither, the receivers do), without a dependency, and add it to its read set.  Then
    [SendForwardReadResultMessageHelper] sends every other client of [dst], which lists
    no client twice, a message with the reply's proof; at a receiver that holds the same
    session key as the sender, a client id below [nclients], it opens to the same key,
    value and version, and [ReadSigHelper] accepts its evidence.  Messages are parsed
    back as they were written, and a HMAC verifies under the key it was made with. *)
Theorem forwarded_read_accepted reply sm w ts v res dst s :
  hideTimestamps = false → rr_body reply = SignedWrite sm → open_reply reply = Done (Some w) →
  check_committed (res_key res) reply w = Done (Some (Some (ts, v))) → v ≠ "" →
  wr_key w = Some (res_key res) → has_plain (wr_committed_ts w) = true →
  res_value res = v → res_ts res = ts → res_addReadSet res = true → res_hasDep res = false →
  res_proof res = rr_proof reply → res_write res = Some sm →
  receiver ∈ dst → receiver ≠ sender → NoDup dst → 0 ≤ sender < nclients →
  default "" (keys_s !! receiver) = default "" (keys_r !! sender) →
  ∃ s' m f, SendForwardReadResultMessageHelper res dst s = Done s' ∧ (receiver, m) ∈ fs_out s' ∧ open_fwd m = Done (Some f) ∧
    fw_key f = res_key res ∧ fw_value f = v ∧ fw_ts f = TsPlain ts ∧ fw_add_readset f = true ∧ ReadSigHelper f m = Done true.
Proof.
  intros Hhide Hbody Hopen Hchk Hv Hk Hplain Hrv Hrt Hadd Hnodep Hpr Hwr Hin Hne Hnd Hs Hkey.
  unfold ReadClient.open_reply in Hopen. rewrite Hbody in Hopen. cbn in Hopen.
  destruct (Verify (sm_process_id sm) (sm_data sm) (sm_signature sm)) eqn:Hver; [|done]. cbn in Hopen.
  injection Hopen as Hparse.
  unfold ReadClient.check_committed in Hchk. destruct (wr_committed_value w) as [v'|] eqn:Hcv; [|done].
  rewrite Hplain in Hchk. cbn in Hchk. destruct (rr_proof reply) as [pr|] eqn:Hrp; [|done].
  apply bind_Done in Hchk as (ok & Hok & Hchk). destruct ok; [|done]. injection Hchk as Hts ->.
  unfold reply_ts, reply_hash in *. rewrite Hhide in *. destruct (wr_committed_ts w) as [|t|h] eqn:Hct; [done| |done].
  cbn in Hts, Hok. subst t.
  unfold ForwardRead.SendForwardReadResultMessageHelper.
  rewrite (fwd_evidence_committed res pr sm) by congruence. unfold fwd_ts. rewrite Hadd, Hrv, Hrt.
  cbn. set (f := mkFwd sender seq (res_key res) v (TsPlain ts) None true).
  exists (mkFS (fs_sentFwdResults s ++ [(f, msg_of f pr sm dst)])
    (fs_out s ++ ((λ i, (i, msg_of f pr sm dst)) <$> filter (λ i, i ≠ sender) dst))), (msg_of f pr sm dst), f.
  split_and!; [reflexivity| |by apply sent_message_opens|done..|].
  - cbn. apply elem_of_app. right. apply list_elem_of_fmap. exists receiver. split; [done|]. by apply list_elem_of_filter.
  - unfold Validation.ReadSigHelper, forwarded_write. cbn. rewrite Hver, Hparse. cbn.
    unfold committed_ok. rewrite Hcv, Hct. cbn. rewrite Hk. cbn. rewrite Hok. cbn.
    unfold write_matches. rewrite value_nonempty by done. cbn. rewrite Hk, Hcv, Hct. cbn.
    unfold ts_matches. by rewrite !bool_decide_eq_true_2.
Qed.

(** ** What the checks leave open *)

(** The forwarded result with another key, in it and in its dependency. *)
Definition rekey_dep (k : string) (d : ReadDependency) : ReadDependency :=
  mkReadDep (set_key k (rdep_write d)) (rdep_write_sigs d) (rdep_involved_group d).
Definition rekey (k : string) f : ForwardReadResult :=
  mkFwd (fw_client_id f) (fw_client_seq_num f) k (fw_value f) (fw_ts f) (rekey_dep k <$> fw_dep f) (fw_add_readset f).

(** The evidence of a prepared version is not tied to its key.  The
    comparison of a dependency with the signed writes of the replicas
    ([operator==] on [Write]) leaves the key out, so that evidence accepted for
    one key is accepted for every other key. *)
Theorem dependency_evidence_for_any_key f d m k :
  fw_dep f = Some d → fw_value f ≠ "" → ReadSigHelper f m = Done true → ReadSigHelper (rekey k f) m = Done true.
Proof.
  intros Hd Hv H. assert (fw_dep (rekey k f) = Some (rekey_dep k d)) as Hd' by (cbn; by rewrite Hd).
  unfold Validation.ReadSigHelper in *. rewrite Hd in H. rewrite Hd'.
  apply bind_Done in H as (ow & How & H). apply bind_Done in How as (ok & Hok & How).
  assert (dependency_ok Verify parse_Write true true readDepSize (rekey_dep k d) = Done ok) as -> by done.
  destruct ok; [|by injection How as <-]. injection How as <-. cbn. inv_outcome.
  rename select (write_matches _ _ _ = true) into Hm. unfold write_matches in *. rewrite Hd in Hm. rewrite Hd'.
  rewrite value_nonempty in Hm by done. rewrite value_nonempty by done. apply andb_true_iff in Hm as [Hm Ht]. apply andb_true_iff in Hm as [_ Hval].
  rewrite (bool_decide_eq_true_2 (default "" _ = _)) by done. cbn. by rewrite Hval, Ht.
Qed.

(** A committed value without a version needs no proof: a write signed by any
    process, replica or client, passes. *)
Theorem unversioned_value_unproven key v sm cid q m :
  hideTimestamps = false → v ≠ "" → Verify (sm_process_id sm) (sm_data sm) (sm_signature sm) = true →
  parse_write (sm_data sm) = Some (mkWriteMsg (Some key) (Some v) TsUnset None TsUnset None TsUnset None) →
  fm_write m = SignedWrite sm → ReadSigHelper (mkFwd cid q key v TsUnset None true) m = Done true.
Proof.
  intros Hh Hv Hver Hp Hm. unfold Validation.ReadSigHelper, forwarded_write. cbn. rewrite Hm, Hver, Hp. cbn.
  unfold write_matches. rewrite value_nonempty by done. cbn. rewrite !bool_decide_eq_true_2 by done. by rewrite Hh.
Qed.
End receive.
