(* ===== verification/ValidationExamples.v ===== *)
(** * Concrete validations

    Instances of the theorems on validation, and runs that show what the checks
    of a validating client do not cover. *)
From S2P Require Import Prelude OrderedSeq CppString Timestamp VersionStore Policy PolicyParse ServerState DemoEnv ServerTxn MVTSO MVTSOSafety Endorse Quorum Reads ReadProtection ReadExamples ReadClient ReadClientSafety ReadRecency ReadClientExamples EndorseClient Validation ValidationSafety ValidationEvidence ForwardRead.

Module ValidationExample.
Import QuorumExample ReadExample ReadClientExample.

Definition part (_ : string) (_ : list Z) : Z := 0.
Definition policy_of (_ _ : string) : string := "p#0".

(** ** One transaction *)

Notation trun par := (trun part 1 policy_of [] false false false false par).
Notation tstep par := (tstep part 1 policy_of [] false false false false par).
Notation commit par := (v_commit [] false false false par).
Fixpoint texec (par : bool) (evs : list TEvent) (st : AllValidationTxnState) (D : list (string * (string * Timestamp))) :
    option (AllValidationTxnState * list (string * (string * Timestamp))) :=
  match evs with
  | [] => Some (st, D)
  | e :: evs' => match tstep par e st with Done (Some st', d) => texec par evs' st' (D ++ d) | _ => None end
  end.
Lemma texec_run par c q evs' evs st D st' D' :
  trun par c q evs D st → texec par evs' st D = Some (st', D') → trun par c q (evs ++ evs') D' st'.
Proof.
  revert evs st D. induction evs' as [|e evs' IH]; intros evs st D Hr H; cbn in H; [by simplify_eq; rewrite app_nil_r|].
  destruct (tstep par e st) as [[[st1|] d]|] eqn:Hs; try done.
  replace (evs ++ e :: evs') with ((evs ++ [e]) ++ evs') by (by rewrite <- app_assoc).
  eapply IH; [by eapply trun_step|done].
Qed.

Definition fwd (key value : string) (t : Z) (add : bool) : ForwardReadResult :=
  mkFwd 3 1 key value (if add then TsPlain (at_ts t) else TsPlain ts_zero) None add.
Definition begin_val : TEvent := EStamp (at_ts 9) false "".
(** Reads "x" and "y"; the result for "y" arrives first. *)
Definition transfer : list TEvent :=
  [begin_val; EForward (fwd "y" "5" 2 true); EGet "x"; EForward (fwd "x" "1" 4 true); EGet "y"; EPut "x" "6"].
Definition final (par : bool) (evs : list TEvent) : AllValidationTxnState * list (string * (string * Timestamp)) :=
  default (AllValidationTxnState_new 3 1, []) (texec par evs (AllValidationTxnState_new 3 1) []).
Lemma final_run par evs x : texec par evs (AllValidationTxnState_new 3 1) [] = Some x → trun par 3 1 evs x.2 x.1.
Proof. intros H. destruct x. eapply (texec_run _ _ _ _ []); [constructor|exact H]. Qed.

Lemma endorsed_execution_accounted_witness :
  let st := (final false transfer).1 in
  ∃ st', commit false st = Done (st', true) ∧
    read_set (vs_txn st') = [mkRead "y" (at_ts 2) false ""; mkRead "x" (at_ts 4) false ""] ∧
    write_set (vs_txn st') = [mkWrite "x" (Some "6") false] ∧ gets transfer ≡ₚ ["x"; "y"].
Proof.
  eexists. split; [vm_compute; reflexivity|].
  edestruct (endorsed_execution_accounted part 1 policy_of [] false false false false false 3 1 transfer
    (final false transfer).2 (final false transfer).1) as (_ & Hg & Hr & _ & Hw & _).
  - apply final_run. vm_compute. reflexivity.
  - vm_compute. reflexivity.
  - split; [exact Hr|]. split; [exact Hw|exact Hg].
Defined.

(** A transaction that reads a key twice and writes back what it read.  After
    the first result, which enters the read set, the initiator forwards a second
    one as a read of the transaction's own buffer. *)
Definition read_back : list TEvent :=
  [begin_val; EGet "x"; EForward (fwd "x" "1" 4 true); EGet "x"; EForward (fwd "x" "100" 0 false); EPut "x" "100"].
(** C38: A validating client accepts values from the future.  Results forwarded
    as reads of the transaction's own writes are compared with the values it
    wrote when the transaction commits, and not when they are read: an
    execution that is handed "100", before anything has written it, and writes
    it back, is endorsed with a read set that holds the version of value "1"
    only. *)
Theorem own_future_write_read :
  ∃ st st', trun false 3 1 read_back (final false read_back).2 st ∧ commit false st = Done (st', true) ∧
    (final false read_back).2 = [("x", ("1", at_ts 4)); ("x", ("100", ts_zero))] ∧
    puts (take 5 read_back) = [] ∧
    read_set (vs_txn st') = [mkRead "x" (at_ts 4) false ""] ∧ write_set (vs_txn st') = [mkWrite "x" (Some "100") false].
Proof.
  exists (final false read_back).1. eexists. split; [apply final_run; vm_compute; reflexivity|].
  split; [vm_compute; reflexivity|]. vm_compute. done.
Qed.

(** A transaction that writes a key and reads it back without having read it
    before is executed by its client, but stops the validating clients. *)
Theorem read_of_own_write_panics :
  texec false [begin_val; EPut "x" "1"; EGet "x"] (AllValidationTxnState_new 3 1) [] ≠ None ∧
  texec false [begin_val; EPut "x" "1"; EGet "x"; EForward (fwd "x" "1" 0 false)] (AllValidationTxnState_new 3 1) [] = None.
Proof. split; [vm_compute; congruence|vm_compute; reflexivity]. Qed.

(** ** The whole client *)

Definition parse_Write (data : string) : Write := default Write_empty (parse_write data).
Definition no_fwd : ForwardReadResult := mkFwd 0 0 "" "" TsUnset None false.
(** Client 7 validates, of 10; forwarded results are not authenticated here. *)
Notation vexec par := (vexec part 1 policy_of [] false false false false par config ser_cc ser_p2 Verify_any hash_of
  parse_Write (λ _, no_fwd) true true 2 (λ _, ∅) (λ _ _ _, true) ∅ 7 10 false true false id id (λ _ d, d)).
Notation vrun par := (vrun part 1 policy_of [] false false false false par config ser_cc ser_p2 Verify_any hash_of
  parse_Write (λ _, no_fwd) true true 2 (λ _, ∅) (λ _ _ _, true) ∅ 7 10 false true false id id (λ _ d, d)).
Fixpoint vexecs (par : bool) (es : list VEvent) (vc : ValidationClient) : option ValidationClient :=
  match es with
  | [] => Some vc
  | e :: es' => match vexec par e vc with Done vc' => vexecs par es' vc' | Panic => None end
  end.
Lemma vexecs_run par es vc vc' : vrun par vc → vexecs par es vc = Some vc' → vrun par vc'.
Proof.
  revert vc. induction es as [|e es IH]; intros vc Hr H; cbn in H; [by simplify_eq|].
  destruct (vexec par e vc) as [vc1|] eqn:He; [|done]. eapply IH; [by eapply vrun_step|done].
Qed.
Definition after_v (par : bool) (es : list VEvent) : ValidationClient := default ValidationClient_new (vexecs par es ValidationClient_new).
Lemma after_v_run par es : vexecs par es ValidationClient_new ≠ None → vrun par (after_v par es).
Proof.
  unfold after_v. intros H. destruct (vexecs par es ValidationClient_new) as [vc|] eqn:Hv; [|done]. cbn.
  eapply vexecs_run; [constructor|exact Hv].
Qed.

(** The result of the read of "k" in ReadClientExamples.v, forwarded. *)
Definition good_sm : SignedMessage := match rr_body good_reply with SignedWrite sm => sm | _ => mkSigned 0 "" "" end.
Definition good_write : Write := parse_Write (sm_data good_sm).
Definition good_ts : Timestamp := plain_ts (wr_committed_ts good_write).
Definition good_value : string := default "" (wr_committed_value good_write).
Definition good_fwd : ForwardReadResult := mkFwd 3 1 "k" good_value (TsPlain good_ts) None true.
Definition good_msg : ForwardReadResultMessage := mkFwdMsg (FwdPlain good_fwd) (rr_proof good_reply) (SignedWrite good_sm).
(** Thread 0 validates transaction 1 of client 3. *)
Definition start_3 : VEvent := VStart 0 3 1 (at_ts 9) false "".
Definition validate_k : list VEvent := [start_3; VGet 0 "k"; VMessage good_msg; VProcess; VPut 0 "k" "new"].

Notation evidence := (evidence false config ser_cc ser_p2 Verify_any hash_of parse_Write 2).

Definition finished (vc : ValidationClient) : list Transaction :=
  omap (λ o, match o with SendFinish msg => Some (fv_val_txn msg) | _ => None end) (vc_out vc).

(** The absence of a value needs no evidence. *)
Definition absent (key : string) : ForwardReadResultMessage :=
  mkFwdMsg (FwdPlain (mkFwd 3 1 key "" (TsPlain (at_ts 3)) None true)) None (PlainWrite Write_empty).
(** A result that arrives between the checks of [Commit] and the end of the
    thread enters the transaction that is endorsed, although the execution
    never read it. *)
Theorem late_forward_endorsed :
  (λ t, r_key <$> read_set t) <$>
    finished (after_v false (validate_k ++ [VCommit 0; VMessage (absent "y"); VProcess; VFinish 0])) = [["k"; "y"]].
Proof. vm_compute. reflexivity. Qed.

(** With parallel checks, successful checks are counted and not tied to
    results.  While the handler of a further message has dispatched its check
    but not yet registered its result, that check makes up for one that is
    missing: the transaction is endorsed although the evidence of its read, which
    is invalid, has not been looked at. *)
Definition forged : ForwardReadResultMessage :=
  mkFwdMsg (FwdPlain (mkFwd 3 1 "x" "forged" (TsPlain (at_ts 3)) None true)) None (PlainWrite Write_empty).
Definition race : list VEvent :=
  [start_3; VGet 0 "x"; VMessage forged; VProcess; VMessage (absent "y"); VCheck 1; VCommit 0; VFinish 0].
Theorem unchecked_read_endorsed :
  (λ t, r_key <$> read_set t) <$> finished (after_v true race) = [["x"]] ∧
  length (vc_jobs (after_v true race)) = 1%nat ∧ vexec true (VCheck 0) (after_v true race) = Panic.
Proof. vm_compute. done. Qed.

(** ** Forwarding *)

#[local] Existing Instances TsOneof_eq_dec TsOneof_countable Write_eq_dec Write_countable.
#[local] Instance SignedMessage_eq_dec : EqDecision SignedMessage.
Proof. solve_decision. Defined.
#[local] Instance SignedMessage_countable : Countable SignedMessage.
Proof.
  refine (inj_countable' (λ x, (sm_process_id x, sm_data x, sm_signature x)) (λ x, mkSigned x.1.1 x.1.2 x.2) _). by intros [].
Defined.
#[local] Instance ReadDependency_eq_dec : EqDecision ReadDependency.
Proof. solve_decision. Defined.
#[local] Instance ReadDependency_countable : Countable ReadDependency.
Proof.
  refine (inj_countable' (λ x, (rdep_write x, rdep_write_sigs x, rdep_involved_group x)) (λ x, mkReadDep x.1.1 x.1.2 x.2) _).
  by intros [].
Defined.
#[local] Instance ForwardReadResult_eq_dec : EqDecision ForwardReadResult.
Proof. solve_decision. Defined.
#[local] Instance ForwardReadResult_countable : Countable ForwardReadResult.
Proof.
  refine (inj_countable'
    (λ x, (fw_client_id x, fw_client_seq_num x, fw_key x, fw_value x, (fw_ts x, fw_dep x, fw_add_readset x)))
    (λ x, let '(a, b, c, d, (e, f, g)) := x in mkFwd a b c d e f g) _).
  by intros [].
Defined.
Definition ser_fwd (f : ForwardReadResult) : string := bits (encode f).
Definition parse_fwd (data : string) : ForwardReadResult := default no_fwd (decode (unbits data)).
Definition ser_hmacs (h : gmap Z string) : string := bits (encode h).
Definition parse_hmacs (data : string) : gmap Z string := default ∅ (decode (unbits data)).
Definition HMAC (data key : string) : string := key +:+ data.
Definition verifyHMAC (data code key : string) : bool := bool_decide (code = HMAC data key).

Definition good_result : ReadResult :=
  mkResult "k" good_value good_ts None false true (rr_proof good_reply) (Some good_sm) None (Some "") ts_zero.
Lemma forwarded_read_accepted_witness :
  ∃ s' m f,
    SendForwardReadResultMessageHelper ser_fwd ser_hmacs HMAC 3 1 {[7 := "secret"]} false true true true good_result [3; 7]
      (mkFS [] []) = Done s' ∧
    (7, m) ∈ fs_out s' ∧ open_fwd parse_fwd parse_hmacs verifyHMAC {[3 := "secret"]} 7 10 true m = Done (Some f) ∧
    fw_key f = "k" ∧ fw_value f = good_value ∧ fw_ts f = TsPlain good_ts ∧ fw_add_readset f = true ∧
    ReadSigHelper false config ser_cc ser_p2 Verify_any hash_of (λ data, default Write_empty (parse_write data)) true true 2 f m
      = Done true.
Proof.
  eapply (forwarded_read_accepted config ser_cc ser_p2 Verify_any hash_of parse_write ser_fwd parse_fwd ser_hmacs parse_hmacs
    HMAC verifyHMAC 2 false false true 3 7 1 10 {[7 := "secret"]} {[3 := "secret"]}) with (reply := good_reply) (sm := good_sm)
    (w := good_write) (res := good_result).
  - intros f. unfold parse_fwd, ser_fwd. by rewrite unbits_bits, decode_encode.
  - intros h. unfold parse_hmacs, ser_hmacs. by rewrite unbits_bits, decode_encode.
  - intros data key. unfold verifyHMAC. by rewrite bool_decide_eq_true_2.
  - reflexivity.
  - vm_compute. reflexivity.
  - vm_compute. reflexivity.
  - vm_compute. reflexivity.
  - vm_compute. congruence.
  - vm_compute. reflexivity.
  - vm_compute. reflexivity.
  - reflexivity.
  - reflexivity.
  - reflexivity.
  - reflexivity.
  - reflexivity.
  - reflexivity.
  - set_solver.
  - done.
  - repeat constructor; set_solver.
  - done.
  - reflexivity.
Defined.

(** A version of "a" prepared by transaction "d", signed by two replicas. *)
Definition prepared_a : Write := mkWriteMsg (Some "a") None TsUnset None TsUnset (Some "1") (TsPlain (at_ts 3)) (Some "d").
Definition dep_a : ReadDependency := mkReadDep prepared_a [signed 0 prepared_a; signed 1 prepared_a] 0.
Definition fwd_a : ForwardReadResult := mkFwd 3 1 "a" "1" (TsPlain (at_ts 3)) (Some dep_a) true.
Lemma dependency_evidence_for_any_key_witness :
  ReadSigHelper false config ser_cc ser_p2 Verify_any hash_of (λ data, default Write_empty (parse_write data)) true true 2
    (rekey "salary" fwd_a) (mkFwdMsg (FwdPlain fwd_a) None (PlainWrite Write_empty)) = Done true.
Proof.
  apply (dependency_evidence_for_any_key config ser_cc ser_p2 Verify_any hash_of parse_write 2 false fwd_a dep_a
    (mkFwdMsg (FwdPlain fwd_a) None (PlainWrite Write_empty)) "salary").
  - reflexivity.
  - done.
  - vm_compute. reflexivity.
Defined.
End ValidationExample.
