(* ===== verification/Snapshot.v ===== *)
(** * Snapshots of queries

    [SnapshotManager] and [MergeTimestampId]
    (src/src/store/sintrstore/snapshot_mgr.cc): a replica reports the
    transactions it holds for a query, by digest or by a 64-bit number made of
    timestamp and client id; a client merges the reports of several replicas
    into the snapshot every replica then executes the query on. *)
From S2P Require Import Prelude OrderedSeq Timestamp ServerState.

(** ** [std::sort] and [std::unique] on plain values *)

Section sorting.
Context {K : Type} `{!EqDecision K, !Ltb K, !StrictTotal K}.
Implicit Types (l : list K) (x y : K).

Fixpoint sort_insert x l : list K :=
  match l with
  | [] => [x]
  | y :: l' => if ltb x y then x :: l else y :: sort_insert x l'
  end.
Definition std_sort l : list K := foldr sort_insert [] l.
Fixpoint std_unique l : list K :=
  match l with
  | [] => []
  | x :: l' => match l' with
               | [] => [x]
               | y :: _ => if decide (x = y) then std_unique l' else x :: std_unique l'
               end
  end.

Definition weakly_sorted l : Prop := StronglySorted (λ a b, ltb b a = false) l.

Lemma elem_of_sort_insert x y l : y ∈ sort_insert x l ↔ y = x ∨ y ∈ l.
Proof.
  induction l as [|z l IH]; cbn; [set_solver|]. case_match; [set_solver|].
  rewrite !elem_of_cons, IH. tauto.
Qed.
Lemma elem_of_std_sort y l : y ∈ std_sort l ↔ y ∈ l.
Proof.
  induction l as [|x l IH]; cbn; [done|]. rewrite elem_of_sort_insert, IH, elem_of_cons. done.
Qed.

Lemma sort_insert_sorted x l : weakly_sorted l → weakly_sorted (sort_insert x l).
Proof.
  intros Hs. induction Hs as [|y l Hs IH Hy]; cbn; [repeat constructor|].
  rewrite Forall_forall in Hy. destruct (ltb x y) eqn:Hxy.
  - constructor; [constructor; [done|by apply Forall_forall]|]. apply Forall_forall.
    intros z [->|Hz]%elem_of_cons; [by apply ltb_asym|].
    destruct (ltb z x) eqn:Hzx; [|done]. rewrite <- (Hy z Hz). symmetry. by eapply ltb_trans.
  - constructor; [done|]. apply Forall_forall. intros z [->|Hz]%elem_of_sort_insert; [done|by apply Hy].
Qed.
Lemma std_sort_sorted l : weakly_sorted (std_sort l).
Proof. induction l as [|x l IH]; cbn; [constructor|by apply sort_insert_sorted]. Qed.

Lemma elem_of_std_unique y l : y ∈ std_unique l ↔ y ∈ l.
Proof.
  induction l as [|x l IH]; [done|]. cbn [std_unique]. destruct l as [|z l]; [done|].
  case_decide as Heq; [|rewrite (elem_of_cons _ y x), IH; by rewrite (elem_of_cons _ y x)].
  subst z. rewrite IH, !elem_of_cons. tauto.
Qed.

(** Sorting and dropping neighbours that are equal leaves a sorted sequence
    without duplicates. *)
Lemma std_unique_sorted l : weakly_sorted l → ssorted id (std_unique l).
Proof.
  intros Hs. induction Hs as [|x l Hs IH Hx]; [apply (ssorted_nil id)|]. cbn [std_unique].
  destruct l as [|z l]; [apply (ssorted_singleton id)|]. case_decide as Hne; [done|].
  apply (ssorted_cons id). split; [done|]. intros y Hy. rewrite elem_of_std_unique in Hy. unfold id.
  apply Forall_forall with (x := z) in Hx as Hz; [|by left].
  destruct (ltb_trichotomy x z) as [Hxz|[?|?]]; [|done|congruence].
  apply elem_of_cons in Hy as [->|Hy]; [done|].
  inv Hs. rewrite Forall_forall in *. by eapply ltb_le_trans; [|eauto].
Qed.
Lemma sort_unique_spec l :
  ssorted id (std_unique (std_sort l)) ∧ ∀ y, y ∈ std_unique (std_sort l) ↔ y ∈ l.
Proof.
  split; [apply std_unique_sorted, std_sort_sorted|]. intros y. by rewrite elem_of_std_unique, elem_of_std_sort.
Qed.
End sorting.

(** ** Messages *)

Record LocalSnapshot := mkLocal {
  ls_query_seq_num : Z;
  ls_client_id : Z;
  ls_replica_id : Z;
  ls_committed : list digest;
  ls_committed_ts : list Z;
  ls_prepared : list digest;
  ls_prepared_ts : list Z;
  ls_committed_compressed : option string;
  ls_num_committed : option Z;
  ls_prepared_compressed : option string;
  ls_num_prepared : option Z
}.

Record ReplicaList := mkRL { rl_replicas : list Z; rl_prepared : bool; rl_commit_count : Z }.
Definition ReplicaList_empty : ReplicaList := mkRL [] false 0.

Record MergedSnapshot := mkMergedSS {
  ms_query_seq_num : Z;
  ms_client_id : Z;
  ms_retry_version : Z;
  ms_query_digest : option digest;
  ms_txns : gmap digest ReplicaList;
  ms_ts : gmap Z ReplicaList
}.

(** The part of [SnapshotManager] a client uses; it points to one merged
    snapshot. *)
Record SnapshotManager := mkSM {
  sm_config_f : Z;
  sm_useOptimisticTxId : bool;
  sm_merge_complete : bool;
  sm_numSnapshotReplies : Z;
  sm_merged : MergedSnapshot
}.

(** ** Numbers for transactions

    The low twelve bits of a timestamp must be free for the client id; the
    code after the second [Panic] is not reached. *)
Definition time_mask : Z := 0xFFF.
Definition MergeTimestampId (timestamp id : Z) : outcome Z :=
  if id >? time_mask then Panic
  else if Z.land timestamp time_mask =? 0 then Done (Z.lor timestamp id)
  else Panic.

(** ** Local snapshots *)

Section local.
Variable TransactionDigest : Transaction → digest.
Implicit Types (ls : LocalSnapshot).

Definition InitLocalSnapshot (query_seq_num client_id replica_id : Z) : LocalSnapshot :=
  mkLocal query_seq_num client_id replica_id [] [] [] [] None None None None.
Definition ResetLocalSnapshot ls : LocalSnapshot :=
  mkLocal (ls_query_seq_num ls) (ls_client_id ls) (ls_replica_id ls) [] [] [] [] None
    (ls_num_committed ls) None (ls_num_prepared ls).

Definition add_digest ls (committed_or_prepared : bool) (d : digest) : LocalSnapshot :=
  mkLocal (ls_query_seq_num ls) (ls_client_id ls) (ls_replica_id ls)
    (if committed_or_prepared then ls_committed ls ++ [d] else ls_committed ls) (ls_committed_ts ls)
    (if committed_or_prepared then ls_prepared ls else ls_prepared ls ++ [d]) (ls_prepared_ts ls)
    (ls_committed_compressed ls) (ls_num_committed ls) (ls_prepared_compressed ls) (ls_num_prepared ls).
Definition add_ts ls (committed_or_prepared : bool) (ts : Z) : LocalSnapshot :=
  mkLocal (ls_query_seq_num ls) (ls_client_id ls) (ls_replica_id ls)
    (ls_committed ls) (if committed_or_prepared then ls_committed_ts ls ++ [ts] else ls_committed_ts ls)
    (ls_prepared ls) (if committed_or_prepared then ls_prepared_ts ls else ls_prepared_ts ls ++ [ts])
    (ls_committed_compressed ls) (ls_num_committed ls) (ls_prepared_compressed ls) (ls_num_prepared ls).

(** Genesis is not part of a snapshot. *)
Definition AddToLocalSnapshot (useOptimisticTxId : bool) ls (txnDigest : digest) (timestamp id : Z)
    (committed_or_prepared : bool) : outcome LocalSnapshot :=
  if (timestamp =? 0) && (id =? 0) then Done ls
  else if negb useOptimisticTxId then Done (add_digest ls committed_or_prepared txnDigest)
  else m ← MergeTimestampId timestamp id; Done (add_ts ls committed_or_prepared m).
(** The overload that finds the digest itself. *)
Definition AddToLocalSnapshot_txn (useOptimisticTxId : bool) ls (txn : Transaction)
    (committed_or_prepared : bool) : outcome LocalSnapshot :=
  AddToLocalSnapshot useOptimisticTxId ls
    (match txndigest txn with Some d => d | None => TransactionDigest txn end)
    (timestamp (t_timestamp txn)) (ts_id (t_timestamp txn)) committed_or_prepared.

(** [1 << n] on [int]; a shift by the width or more is undefined. *)
Definition shl_int (n : Z) : outcome Z :=
  if (0 <=? n) && (n <? 32) then Done (int32 (Z.shiftl 1 n)) else Panic.

(** The compressed bytes are written behind the end of a string whose size
    stays zero. *)
Definition CompressLocal ls : outcome LocalSnapshot :=
  limit ← shl_int 32;
  let n := Z.of_nat (length (ls_committed_ts ls)) in
  _ ← uw_assert (n * 64 <? limit + 1024);
  let m := Z.of_nat (length (ls_prepared_ts ls)) in
  _ ← uw_assert (m * 64 <? limit + 1024);
  Done (mkLocal (ls_query_seq_num ls) (ls_client_id ls) (ls_replica_id ls) (ls_committed ls) []
          (ls_prepared ls) [] (Some "") (Some (u32 n)) (Some "") (Some (u32 m))).

Definition SealLocalSnapshot (useOptimisticTxId compressOptimisticTxIDs : bool) ls : outcome LocalSnapshot :=
  let sorted {K} `{!EqDecision K, !Ltb K} (l : list K) := std_unique (std_sort l) in
  if negb useOptimisticTxId then
    Done (mkLocal (ls_query_seq_num ls) (ls_client_id ls) (ls_replica_id ls)
            (sorted (ls_committed ls)) (ls_committed_ts ls) (sorted (ls_prepared ls)) (ls_prepared_ts ls)
            (ls_committed_compressed ls) (ls_num_committed ls) (ls_prepared_compressed ls) (ls_num_prepared ls))
  else
    let ls := mkLocal (ls_query_seq_num ls) (ls_client_id ls) (ls_replica_id ls)
                (ls_committed ls) (sorted (ls_committed_ts ls)) (ls_prepared ls) (sorted (ls_prepared_ts ls))
                (ls_committed_compressed ls) (ls_num_committed ls) (ls_prepared_compressed ls) (ls_num_prepared ls) in
    if compressOptimisticTxIDs then CompressLocal ls else Done ls.
End local.

(** ** Merging *)

Section merging.
Context {K : Type} `{Countable K}.
Implicit Types (m : gmap K ReplicaList) (k : K).

Definition add_replica (replica : Z) (rl : ReplicaList) : ReplicaList :=
  mkRL (rl_replicas rl ++ [replica]) (rl_prepared rl) (rl_commit_count rl).
Definition count_commit (rl : ReplicaList) : ReplicaList :=
  mkRL (rl_replicas rl) (rl_prepared rl) (u64 (rl_commit_count rl + 1)).

Definition merge_committed (replica : Z) m k : gmap K ReplicaList :=
  <[k := count_commit (add_replica replica (default ReplicaList_empty (m !! k)))]> m.
Definition merge_prepared (replica : Z) m k : gmap K ReplicaList :=
  <[k := add_replica replica (default ReplicaList_empty (m !! k))]> m.
Definition merge_lists (replica : Z) (committed prepared : list K) m : gmap K ReplicaList :=
  foldl (merge_prepared replica) (foldl (merge_committed replica) m committed) prepared.

(** [Truncate] must not be asked for more elements than there are. *)
Definition Truncate (n : Z) (l : list Z) : outcome (list Z) :=
  if n <=? Z.of_nat (length l) then Done (take (Z.to_nat n) l) else Panic.

Definition seal_entry (mergeThreshold f : Z) (rl : ReplicaList) : outcome (option ReplicaList) :=
  if Z.of_nat (length (rl_replicas rl)) <? mergeThreshold then Done None
  else
    rs ← Truncate (f + 1) (rl_replicas rl);
    Done (Some (mkRL rs (if rl_commit_count rl <? f + 1 then true else rl_prepared rl) (rl_commit_count rl))).

(** The loop of [SealMergedSnapshot] over the entries of the map. *)
Definition seal_step (mergeThreshold f : Z) m (e : K * ReplicaList) : outcome (gmap K ReplicaList) :=
  o ← seal_entry mergeThreshold f e.2;
  Done (match o with Some rl => <[e.1 := rl]> m | None => delete e.1 m end).
Definition seal_map (mergeThreshold f : Z) m : outcome (gmap K ReplicaList) :=
  foldO (seal_step mergeThreshold f) m (map_to_list m).

Lemma seal_loop mergeThreshold f l m m' k :
  NoDup l.*1 → foldO (seal_step mergeThreshold f) m l = Done m' →
  match list_find (λ e, e.1 = k) l with
  | Some (_, e) => seal_entry mergeThreshold f e.2 = Done (m' !! k)
  | None => m' !! k = m !! k
  end.
Proof.
  revert m. induction l as [|[k1 rl] l IH]; intros m Hnd Hf; cbn in Hf; [by simplify_eq|].
  cbn in Hnd. apply NoDup_cons in Hnd as [Hk1 Hnd].
  apply bind_Done in Hf as (m1 & Hs & Hf). specialize (IH _ Hnd Hf). cbn [list_find fst].
  unfold seal_step in Hs. apply bind_Done in Hs as (o & Ho & Hs). cbn [fst snd] in *. simplify_eq.
  case_decide as Heq.
  - subst k1. destruct (list_find _ l) as [[i e]|] eqn:Hfind.
    { apply list_find_Some in Hfind as (Hi & Hek & _). destruct Hk1. rewrite <- Hek.
      by apply list_elem_of_fmap_2, list_elem_of_lookup_2 with i. }
    cbn [snd]. rewrite Ho, IH. f_equal. destruct o; [by rewrite lookup_insert_eq|by rewrite lookup_delete_eq].
  - destruct (list_find _ l) as [[i e]|]; cbn; [done|]. rewrite IH.
    destruct o; [by rewrite lookup_insert_ne|by rewrite lookup_delete_ne].
Qed.

(** Every entry is sealed on its own. *)
Lemma seal_map_lookup mergeThreshold f m m' k :
  seal_map mergeThreshold f m = Done m' →
  match m !! k with
  | Some rl => seal_entry mergeThreshold f rl = Done (m' !! k)
  | None => m' !! k = None
  end.
Proof.
  intros Hs. apply seal_loop with (k := k) in Hs; [|apply NoDup_fst_map_to_list].
  destruct (list_find _ _) as [[i [k1 rl]]|] eqn:Hf.
  - apply list_find_Some in Hf as (Hi & Hk & _). cbn in *. subst k1.
    by rewrite (proj1 (elem_of_map_to_list m k rl)) by (by eapply list_elem_of_lookup_2).
  - apply list_find_None in Hf. destruct (m !! k) as [rl|] eqn:Hk; [|by rewrite Hs].
    apply elem_of_map_to_list in Hk. rewrite Forall_forall in Hf. by destruct (Hf _ Hk).
Qed.

(** With a threshold above [f] nothing is truncated that is too short. *)
Lemma seal_map_total mergeThreshold f m :
  0 ≤ f < mergeThreshold → ∃ m', seal_map mergeThreshold f m = Done m'.
Proof.
  intros Hf. unfold seal_map. generalize m at 1. induction (map_to_list m) as [|e l IH]; intros m1; [by eexists|].
  cbn. unfold seal_step at 2, seal_entry. destruct (Z.ltb_spec (Z.of_nat (length (rl_replicas e.2))) mergeThreshold); [apply IH|].
  unfold Truncate. rewrite (proj2 (Z.leb_le _ _)) by lia. cbn. apply IH.
Qed.

(** *** What was merged *)

(** The reports of one key, in the order they were counted. *)
Definition reports_of (k : K) (r : Z * (list K * list K)) : list Z :=
  replicate (length (filter (k =.) r.2.1)) r.1 ++ replicate (length (filter (k =.) r.2.2)) r.1.
Definition commits_of (k : K) (r : Z * (list K * list K)) : nat := length (filter (k =.) r.2.1).

Lemma merge_loop (g : Z → gmap K ReplicaList → K → gmap K ReplicaList) (b : bool) replica l m k :
  g = (if b then merge_committed else merge_prepared) →
  let n := length (filter (k =.) l) in
  rl_replicas (default ReplicaList_empty (foldl (g replica) m l !! k)) =
    rl_replicas (default ReplicaList_empty (m !! k)) ++ replicate n replica ∧
  rl_prepared (default ReplicaList_empty (foldl (g replica) m l !! k)) =
    rl_prepared (default ReplicaList_empty (m !! k)) ∧
  u64 (rl_commit_count (default ReplicaList_empty (foldl (g replica) m l !! k))) =
    u64 (rl_commit_count (default ReplicaList_empty (m !! k)) + if b then Z.of_nat n else 0).
Proof.
  intros -> n. subst n. revert m. induction l as [|x l IH]; intros m.
  { cbn. rewrite app_nil_r. destruct b; by rewrite Z.add_0_r. }
  cbn [foldl]. destruct (IH ((if b then merge_committed else merge_prepared) replica m x)) as (-> & -> & ->).
  destruct (decide (k = x)) as [->|Hne].
  - rewrite filter_cons_True by done. cbn [length replicate].
    assert (∀ rl, (if b then merge_committed else merge_prepared) replica m x !! x = Some rl →
      rl_replicas rl = rl_replicas (default ReplicaList_empty (m !! x)) ++ [replica] ∧
      rl_prepared rl = rl_prepared (default ReplicaList_empty (m !! x)) ∧
      rl_commit_count rl = if b then u64 (rl_commit_count (default ReplicaList_empty (m !! x)) + 1)
                           else rl_commit_count (default ReplicaList_empty (m !! x))) as Hrl.
    { intros rl. destruct b; unfold merge_committed, merge_prepared; rewrite lookup_insert_eq; by intros [= <-]. }
    assert (is_Some ((if b then merge_committed else merge_prepared) replica m x !! x)) as [rl Hx].
    { destruct b; unfold merge_committed, merge_prepared; by rewrite lookup_insert_eq. }
    rewrite Hx. destruct (Hrl rl Hx) as (H1 & H2 & H3). cbn [default from_option id]. rewrite H1, H2, H3.
    split; [by rewrite <- app_assoc|]. split; [done|]. destruct b; [|done].
    unfold u64. rewrite Zplus_mod_idemp_l. f_equal. lia.
  - rewrite filter_cons_False by done.
    assert ((if b then merge_committed else merge_prepared) replica m x !! k = m !! k) as ->; [|done].
    destruct b; unfold merge_committed, merge_prepared; by rewrite lookup_insert_ne.
Qed.

Definition merge_reports (rs : list (Z * (list K * list K))) m : gmap K ReplicaList :=
  foldl (λ m r, merge_lists r.1 r.2.1 r.2.2 m) m rs.

Lemma merge_reports_spec rs m k :
  rl_replicas (default ReplicaList_empty (merge_reports rs m !! k)) =
    rl_replicas (default ReplicaList_empty (m !! k)) ++ concat (reports_of k <$> rs) ∧
  rl_prepared (default ReplicaList_empty (merge_reports rs m !! k)) =
    rl_prepared (default ReplicaList_empty (m !! k)) ∧
  u64 (rl_commit_count (default ReplicaList_empty (merge_reports rs m !! k))) =
    u64 (rl_commit_count (default ReplicaList_empty (m !! k)) + Z.of_nat (sum_list (commits_of k <$> rs))).
Proof.
  revert m. induction rs as [|r rs IH]; intros m; cbn [merge_reports foldl fmap list_fmap concat sum_list].
  { cbn. by rewrite app_nil_r, Z.add_0_r. }
  destruct (IH (merge_lists r.1 r.2.1 r.2.2 m)) as (H1 & H2 & H3). unfold merge_reports in H1, H2, H3.
  rewrite H1, H2, H3. unfold merge_lists.
  destruct (merge_loop merge_prepared false r.1 r.2.2 (foldl (merge_committed r.1) m r.2.1) k eq_refl) as (A1 & A2 & A3).
  destruct (merge_loop merge_committed true r.1 r.2.1 m k eq_refl) as (B1 & B2 & B3).
  rewrite A1, A2, B1, B2. split; [unfold reports_of; by rewrite <- !app_assoc|]. split; [done|].
  rewrite Z.add_0_r in A3. unfold u64, commits_of, compose in *.
  rewrite <- Zplus_mod_idemp_l, A3, B3, Zplus_mod_idemp_l. f_equal. cbn. lia.
Qed.
End merging.

(** ** The manager at a client *)

Section manager.
Context (optimisticTxID compressOptimisticTxIDs : bool) (syncQuorum mergeThreshold : Z).
(** The integer codec of the compression library. *)
Variable p4nddec64 : string → Z → list Z.
Implicit Types (sm : SnapshotManager) (ls : LocalSnapshot).

Definition InitMergedSnapshot (query_seq_num client_id retry_version f : Z) : SnapshotManager :=
  mkSM f (optimisticTxID && (retry_version =? 0)) false 0
    (mkMergedSS query_seq_num client_id retry_version None ∅ ∅).

Definition DecompressLocal ls : LocalSnapshot :=
  mkLocal (ls_query_seq_num ls) (ls_client_id ls) (ls_replica_id ls) (ls_committed ls)
    (p4nddec64 (default "" (ls_committed_compressed ls)) (default 0 (ls_num_committed ls))) (ls_prepared ls)
    (p4nddec64 (default "" (ls_prepared_compressed ls)) (default 0 (ls_num_prepared ls)))
    (ls_committed_compressed ls) (ls_num_committed ls) (ls_prepared_compressed ls) (ls_num_prepared ls).
Definition OpenLocalSnapshot sm ls : LocalSnapshot :=
  if sm_useOptimisticTxId sm && compressOptimisticTxIDs then DecompressLocal ls else ls.

Definition set_merged_ids (txns : gmap digest ReplicaList) (ts : gmap Z ReplicaList) (m : MergedSnapshot) :
    MergedSnapshot :=
  mkMergedSS (ms_query_seq_num m) (ms_client_id m) (ms_retry_version m) (ms_query_digest m) txns ts.
Definition set_sm_merged (m : MergedSnapshot) sm : SnapshotManager :=
  mkSM (sm_config_f sm) (sm_useOptimisticTxId sm) (sm_merge_complete sm) (sm_numSnapshotReplies sm) m.

Definition SealMergedSnapshot sm : outcome SnapshotManager :=
  let m := sm_merged sm in
  if negb (sm_useOptimisticTxId sm) then
    txns ← seal_map mergeThreshold (sm_config_f sm) (ms_txns m);
    Done (set_sm_merged (set_merged_ids txns (ms_ts m) m) sm)
  else
    ts ← seal_map mergeThreshold (sm_config_f sm) (ms_ts m);
    Done (set_sm_merged (set_merged_ids (ms_txns m) ts m) sm).

(** Counts the ids of one local snapshot. *)
Definition merge_local sm ls : SnapshotManager :=
  let m := sm_merged sm in
  set_sm_merged
    (if negb (sm_useOptimisticTxId sm)
     then set_merged_ids (merge_lists (ls_replica_id ls) (ls_committed ls) (ls_prepared ls) (ms_txns m)) (ms_ts m) m
     else set_merged_ids (ms_txns m)
            (merge_lists (ls_replica_id ls) (ls_committed_ts ls) (ls_prepared_ts ls) (ms_ts m)) m) sm.
Definition count_reply sm : SnapshotManager :=
  mkSM (sm_config_f sm) (sm_useOptimisticTxId sm) (sm_merge_complete sm) (u64 (sm_numSnapshotReplies sm + 1))
    (sm_merged sm).
Definition set_complete_ss sm : SnapshotManager :=
  mkSM (sm_config_f sm) (sm_useOptimisticTxId sm) true (sm_numSnapshotReplies sm) (sm_merged sm).

Definition ProcessReplicaLocalSnapshot sm ls : outcome (SnapshotManager * bool) :=
  let ls := OpenLocalSnapshot sm ls in
  let sm := count_reply (merge_local sm ls) in
  if sm_numSnapshotReplies sm =? syncQuorum then
    sm ← SealMergedSnapshot sm;
    Done (set_complete_ss sm, true)
  else Done (sm, false).

(** The local snapshots of one attempt, in the order they arrive. *)
Definition merge_all sm (lss : list LocalSnapshot) : outcome SnapshotManager :=
  foldO (λ sm ls, '(sm, _) ← ProcessReplicaLocalSnapshot sm ls; Done sm) sm lss.

(** What a snapshot says, by digest and by number. *)
Definition by_digest ls : Z * (list digest * list digest) := (ls_replica_id ls, (ls_committed ls, ls_prepared ls)).
Definition by_ts ls : Z * (list Z * list Z) := (ls_replica_id ls, (ls_committed_ts ls, ls_prepared_ts ls)).

(** The entry the reports of an id amount to. *)
Definition merged_entry {K} `{Countable K} (f : Z) (rs : list (Z * (list K * list K))) (k : K) : option ReplicaList :=
  let vouchers := concat (reports_of k <$> rs) in
  let commits := Z.of_nat (sum_list (commits_of k <$> rs)) in
  if Z.of_nat (length vouchers) <? mergeThreshold then None
  else Some (mkRL (take (Z.to_nat (f + 1)) vouchers) (commits <? f + 1) commits).

Lemma seal_merged_entry {K} `{Countable K} f (rs : list (Z * (list K * list K))) (m' : gmap K ReplicaList) k :
  0 ≤ f < mergeThreshold → Z.of_nat (sum_list (commits_of k <$> rs)) < 2^64 →
  seal_map mergeThreshold f (merge_reports rs ∅) = Done m' →
  (∀ rl, merge_reports rs ∅ !! k = Some rl → rl_commit_count rl = u64 (rl_commit_count rl)) →
  m' !! k = merged_entry f rs k.
Proof.
  intros Hf Hc Hs Hu. apply seal_map_lookup with (k := k) in Hs.
  destruct (merge_reports_spec rs ∅ k) as (H1 & H2 & H3). rewrite lookup_empty in *. cbn in H1, H2, H3.
  unfold merged_entry. rewrite <- H1. destruct (merge_reports rs ∅ !! k) as [rl|]; cbn in *.
  - assert (rl_commit_count rl = Z.of_nat (sum_list (commits_of k <$> rs))) as Hcc.
    { rewrite (Hu rl eq_refl), H3. apply u64_small. lia. }
    unfold seal_entry, Truncate in Hs. destruct (_ <? mergeThreshold) eqn:Hlt; [by simplify_eq|].
    apply Z.ltb_ge in Hlt. rewrite (proj2 (Z.leb_le _ _)) in Hs by lia. cbn in Hs. simplify_eq.
    rewrite <- Hs, Hcc, H2. destruct (Z.of_nat (sum_list (commits_of k <$> rs)) <? f + 1); reflexivity.
  - rewrite Hs. rewrite (proj2 (Z.ltb_lt _ _)) by (cbn; lia). done.
Qed.

Lemma merge_reports_count {K} `{Countable K} (rs : list (Z * (list K * list K))) k rl :
  merge_reports rs ∅ !! k = Some rl → rl_commit_count rl = u64 (rl_commit_count rl).
Proof.
  set (P := λ m : gmap K ReplicaList, ∀ k rl, m !! k = Some rl → rl_commit_count rl = u64 (rl_commit_count rl)).
  assert (∀ m k, P m → rl_commit_count (default ReplicaList_empty (m !! k)) =
                       u64 (rl_commit_count (default ReplicaList_empty (m !! k)))) as Hdef.
  { intros m k1 Hm. destruct (m !! k1) eqn:Hk; [by eapply Hm|done]. }
  assert (P (merge_reports rs ∅)) as HP; [|by apply HP].
  apply (foldl_inv P); [|by intros k1 rl1; rewrite lookup_empty]. intros m r _ Hm. unfold merge_lists.
  apply (foldl_inv P); [|apply (foldl_inv P); [|done]]; intros m1 k1 _ Hm1 k2 rl2;
    unfold merge_prepared, merge_committed; (destruct (decide (k1 = k2)) as [<-|Hne];
      [rewrite lookup_insert_eq; intros [= <-]; cbn|rewrite lookup_insert_ne by done; apply Hm1]).
  - by apply Hdef.
  - unfold u64. by rewrite Z.mod_mod.
Qed.

Lemma merge_local_reports sm ls :
  merge_local sm ls =
    set_sm_merged
      (if negb (sm_useOptimisticTxId sm)
       then set_merged_ids (merge_reports [by_digest ls] (ms_txns (sm_merged sm))) (ms_ts (sm_merged sm)) (sm_merged sm)
       else set_merged_ids (ms_txns (sm_merged sm)) (merge_reports [by_ts ls] (ms_ts (sm_merged sm))) (sm_merged sm)) sm.
Proof. done. Qed.

(** Before the quorum is reached everything is only counted. *)
Lemma merge_all_counts lss sm :
  compressOptimisticTxIDs = false → 0 ≤ sm_numSnapshotReplies sm →
  sm_numSnapshotReplies sm + Z.of_nat (length lss) < syncQuorum → syncQuorum < 2^64 →
  merge_all sm lss =
    Done (mkSM (sm_config_f sm) (sm_useOptimisticTxId sm) (sm_merge_complete sm)
            (sm_numSnapshotReplies sm + Z.of_nat (length lss))
            (if negb (sm_useOptimisticTxId sm)
             then set_merged_ids (merge_reports (by_digest <$> lss) (ms_txns (sm_merged sm))) (ms_ts (sm_merged sm)) (sm_merged sm)
             else set_merged_ids (ms_txns (sm_merged sm)) (merge_reports (by_ts <$> lss) (ms_ts (sm_merged sm))) (sm_merged sm))).
Proof.
  intros Hcomp. revert sm. induction lss as [|ls lss IH]; intros sm H0 Hlt Hq.
  { cbn. rewrite Z.add_0_r. destruct sm as [f o c n m]; cbn. destruct o, m; done. }
  cbn [length] in Hlt. unfold merge_all. cbn [foldO]. unfold ProcessReplicaLocalSnapshot at 2, OpenLocalSnapshot.
  rewrite Hcomp, andb_false_r, merge_local_reports. cbn [sm_numSnapshotReplies count_reply set_sm_merged].
  rewrite u64_small by lia. rewrite (proj2 (Z.eqb_neq _ _)) by lia. cbn [mbind outcome_bind].
  unfold merge_all in IH. rewrite IH by (cbn -[u64]; rewrite ?u64_small by lia; lia).
  cbn -[u64 merge_reports]. rewrite u64_small by lia. f_equal. f_equal.
  - lia.
  - destruct (sm_useOptimisticTxId sm); done.
Qed.

End manager.

(** ** What the numbers and the lists guarantee *)

(** C30: the number that stands for a transaction in a snapshot is a 64-bit
    number that determines its timestamp and client.  For a 64-bit timestamp and
    client id, [MergeTimestampId] returns if and only if the id is below [2 ^ 12]
    and the low twelve bits of the timestamp are 0, and otherwise stops the
    process; what it returns is below [2 ^ 64], has the id as its low twelve bits
    and the timestamp as its other bits, and two pairs with the same result are
    equal. *)
Theorem merged_timestamp_injective ts1 id1 ts2 id2 :
  0 ≤ ts1 < 2^64 → 0 ≤ ts2 < 2^64 → 0 ≤ id1 < 2^64 → 0 ≤ id2 < 2^64 →
  ((∃ m, MergeTimestampId ts1 id1 = Done m) ↔ id1 < 2^12 ∧ ts1 `mod` 2^12 = 0) ∧
  (∀ m, MergeTimestampId ts1 id1 = Done m → 0 ≤ m < 2^64 ∧ m `mod` 2^12 = id1 ∧ m - m `mod` 2^12 = ts1) ∧
  (∀ m, MergeTimestampId ts1 id1 = Done m → MergeTimestampId ts2 id2 = Done m → ts1 = ts2 ∧ id1 = id2).
Proof.
  intros Ht1 Ht2 H1 H2. assert (∀ ts id m, 0 ≤ ts < 2^64 → 0 ≤ id → MergeTimestampId ts id = Done m →
    id < 2^12 ∧ ts `mod` 2^12 = 0 ∧ m = ts + id) as Hspec.
  { intros ts id m Ht Hid. unfold MergeTimestampId. rewrite !Z.gtb_ltb. destruct (Z.ltb_spec time_mask id); [done|].
    destruct (Z.eqb_spec (Z.land ts time_mask) 0) as [E|]; [|done]. intros [= <-]. change time_mask with (2^12 - 1) in *.
    split; [lia|]. assert (Z.land ts id = 0) as Hz.
    { change (2^12 - 1) with (Z.ones 12) in E. assert (Z.land id (Z.ones 12) = id) as Hi.
      { rewrite Z.land_ones by lia. apply Z.mod_small. lia. }
      by rewrite <- Hi, (Z.land_comm id), Z.land_assoc, E. }
    change (2^12 - 1) with (Z.ones 12) in E. rewrite Z.land_ones in E by lia. split; [done|].
    pose proof (Z.add_lor_land ts id). lia. }
  assert (∀ ts id m, 0 ≤ ts < 2^64 → 0 ≤ id → MergeTimestampId ts id = Done m →
    0 ≤ m < 2^64 ∧ m `mod` 2^12 = id ∧ m - m `mod` 2^12 = ts) as Hval.
  { intros ts id m Ht Hid Hm. destruct (Hspec ts id m Ht Hid Hm) as (Hi & Hz & ->). clear -Ht Hid Hi Hz.
    assert ((ts + id) `mod` 2^12 = id) as Hmod.
    { rewrite Z.add_mod, Hz, Z.add_0_l, Z.mod_mod by lia. apply Z.mod_small. lia. }
    rewrite Hmod. apply Z.mod_divide in Hz as [q ->]; [|lia]. lia. }
  split; [|split; [intros m Hm; exact (Hval ts1 id1 m Ht1 (proj1 H1) Hm)|]].
  - split; [intros [m Hm]; destruct (Hspec ts1 id1 m Ht1 (proj1 H1) Hm) as (? & ? & _); done|]. intros [Hi Hz]. unfold MergeTimestampId.
    change time_mask with (Z.ones 12). rewrite Z.land_ones, Hz, Z.gtb_ltb by lia.
    destruct (Z.ltb_spec (Z.ones 12) id1) as [Hl|]; [change (Z.ones 12) with (2^12 - 1) in Hl; lia|]. by eexists.
  - intros m Hm1 Hm2. destruct (Hval ts1 id1 m Ht1 (proj1 H1) Hm1) as (_ & <- & <-).
    by destruct (Hval ts2 id2 m Ht2 (proj1 H2) Hm2) as (_ & <- & <-).
Qed.

Lemma merged_timestamp_injective_witness :
  MergeTimestampId (5 * 2^12) 7 = Done 20487 ∧
  (0 ≤ 20487 < 2^64 ∧ 20487 `mod` 2^12 = 7 ∧ 20487 - 20487 `mod` 2^12 = 5 * 2^12).
Proof.
  split; [reflexivity|].
  apply (proj1 (proj2 (merged_timestamp_injective (5 * 2^12) 7 (5 * 2^12) 7 ltac:(lia) ltac:(lia) ltac:(lia) ltac:(lia)))).
  reflexivity.
Defined.

(** With compression a snapshot is never sealed: the bound is computed with a
    shift that is undefined. *)
Lemma compression_is_undefined ls : SealLocalSnapshot true true ls = Panic.
Proof. done. Qed.

(** A sealed snapshot lists nothing twice, and nothing that was not added. *)
Lemma sealed_digests ls ls' b :
  SealLocalSnapshot false b ls = Done ls' →
  ssorted id (ls_committed ls') ∧ ssorted id (ls_prepared ls') ∧
  (∀ d, d ∈ ls_committed ls' ↔ d ∈ ls_committed ls) ∧ (∀ d, d ∈ ls_prepared ls' ↔ d ∈ ls_prepared ls).
Proof.
  unfold SealLocalSnapshot. cbn. intros [= <-]. cbn.
  destruct (sort_unique_spec (ls_committed ls)), (sort_unique_spec (ls_prepared ls)). done.
Qed.

Section vouching.
Context {K : Type} `{Countable K}.
Context (mergeThreshold f : Z) (faulty : gset Z).
Implicit Types (rs : list (Z * (list K * list K))) (k : K).

Definition lists_id k (r : Z * (list K * list K)) : Prop := k ∈ r.2.1 ∨ k ∈ r.2.2.

#[local] Instance lists_id_dec k r : Decision (lists_id k r).
Proof. unfold lists_id. apply _. Defined.

Lemma reports_nonempty k r : reports_of k r ≠ [] → lists_id k r.
Proof.
  unfold reports_of, lists_id. intros Hne.
  destruct (filter (k =.) r.2.1) as [|x l] eqn:H1.
  - destruct (filter (k =.) r.2.2) as [|x l] eqn:H2; [done|].
    assert (x ∈ filter (k =.) r.2.2) as [-> Hx]%list_elem_of_filter by (rewrite H2; by left). by right.
  - assert (x ∈ filter (k =.) r.2.1) as [-> Hx]%list_elem_of_filter by (rewrite H1; by left). by left.
Qed.

Lemma faulty_reports rs k :
  (∀ r, r ∈ rs → lists_id k r → r.1 ∈ faulty) →
  (∀ r, r ∈ rs → r.1 ∈ faulty → (length (reports_of k r) ≤ 1)%nat) →
  NoDup rs.*1 → (length (concat (reports_of k <$> rs)) ≤ size faulty)%nat.
Proof.
  intros Hf H1 Hnd.
  assert (length (concat (reports_of k <$> rs)) ≤ length (filter (.∈ faulty) rs.*1))%nat as Hle.
  { clear Hnd. induction rs as [|r rs IH]; [done|]. cbn [fmap list_fmap concat]. rewrite length_app, filter_cons.
    specialize (IH ltac:(set_solver) ltac:(set_solver)).
    destruct (decide (reports_of k r = [])) as [->|Hne]; [case_decide; cbn; lia|].
    assert (r.1 ∈ faulty) as Hr by (apply Hf; [by left|by apply reports_nonempty]).
    specialize (H1 r ltac:(by left) Hr). case_decide; [cbn; lia|done]. }
  etrans; [exact Hle|]. assert (size (list_to_set (filter (.∈ faulty) rs.*1) : gset Z) = length (filter (.∈ faulty) rs.*1)) as <-
    by (by apply size_list_to_set, NoDup_filter).
  apply subseteq_size. intros x. rewrite elem_of_list_to_set, list_elem_of_filter. tauto.
Qed.

(** A transaction in the merged snapshot is held by a correct replica: if
    every replica is counted once, at most [f] replicas are faulty, the
    threshold is above [f] and no faulty replica lists the transaction more
    than once, then a correct replica listed it. *)
Theorem merged_txn_vouched rs k rl :
  NoDup rs.*1 → Z.of_nat (size faulty) ≤ f < mergeThreshold →
  (∀ r, r ∈ rs → r.1 ∈ faulty → (length (reports_of k r) ≤ 1)%nat) →
  merged_entry mergeThreshold f rs k = Some rl →
  ∃ r, r ∈ rs ∧ r.1 ∉ faulty ∧ lists_id k r.
Proof.
  intros Hnd Hf Hone Hm. unfold merged_entry in Hm. destruct (Z.ltb_spec (Z.of_nat (length (concat (reports_of k <$> rs)))) mergeThreshold) as [|Hlen]; [done|].
  destruct (decide (Forall (λ r, lists_id k r → r.1 ∈ faulty) rs)) as [Hall|Hno].
  - rewrite Forall_forall in Hall. pose proof (faulty_reports rs k Hall Hone Hnd). lia.
  - apply not_Forall_Exists, list.Exists_exists in Hno as (r & Hr & Hn); [|apply _]. exists r. split; [done|].
    destruct (decide (r.1 ∈ faulty)), (decide (lists_id k r)); naive_solver.
Qed.

(** Listings are counted, not replicas.  One faulty replica whose local
    snapshot repeats an id [mergeThreshold] times gets any id into the merged
    snapshot, whatever the other replicas report; the snapshot then names this
    replica alone, [f + 1] times, as the holder, and presents the transaction
    as committed. *)
Theorem one_replica_fills_snapshot b n rs k :
  0 ≤ f < mergeThreshold → mergeThreshold ≤ Z.of_nat n →
  ∃ count, merged_entry mergeThreshold f ((b, (replicate n k, [])) :: rs) k =
    Some (mkRL (replicate (Z.to_nat (f + 1)) b) false count).
Proof.
  intros Hf Hn. assert (filter (k =.) (replicate n k) = replicate n k) as Hfil.
  { clear. induction n as [|n IH]; [done|]. cbn [replicate]. rewrite filter_cons_True by done. by rewrite IH. }
  assert (reports_of k (b, (replicate n k, [])) = replicate n b) as Hr.
  { unfold reports_of. cbn [fst snd]. rewrite Hfil, length_replicate. cbn. by rewrite app_nil_r. }
  assert (commits_of k (b, (replicate n k, [])) = n) as Hc.
  { unfold commits_of. cbn [fst snd]. by rewrite Hfil, length_replicate. }
  unfold merged_entry. cbn [fmap list_fmap concat]. rewrite Hr, length_app, length_replicate.
  rewrite (proj2 (Z.ltb_ge _ _)) by lia. rewrite take_app_le by (rewrite length_replicate; lia).
  rewrite take_replicate, Nat.min_l by lia. eexists. do 2 f_equal. apply Z.ltb_ge.
  change (sum_list (commits_of k (b, (replicate n k, [])) :: (commits_of k <$> rs)))
    with (commits_of k (b, (replicate n k, [])) + sum_list (commits_of k <$> rs))%nat. rewrite Hc. lia.
Qed.
End vouching.

(** ** Concrete instances *)

Module SnapshotExample.
(** Three replicas of four report for a query, one of them faulty. *)
Definition local (replica : Z) (committed prepared : list digest) : LocalSnapshot :=
  mkLocal 1 9 replica committed [] prepared [] None None None None.


Lemma merged_txn_vouched_witness :
  ∃ r, r ∈ by_digest <$> [local 0 ["a"; "b"] []; local 1 ["a"] ["c"]; local 2 [] ["c"]] ∧
    r.1 ∉ ({[2]} : gset Z) ∧ lists_id "c" r.
Proof.
  apply (merged_txn_vouched 2 1 {[2]} _ "c" (mkRL [1; 2] true 0)).
  - cbn. repeat constructor; set_solver.
  - split; vm_compute; congruence.
  - intros r Hr Hf. apply elem_of_singleton in Hf. cbn in Hr. rewrite !elem_of_cons in Hr.
    destruct Hr as [->|[->|[->|Hr%elem_of_nil]]]; [..|done]; vm_compute; lia.
  - reflexivity.
Defined.

Lemma one_replica_fills_snapshot_witness :
  ∃ count, merged_entry 2 1 ((2, (["ghost"; "ghost"], [])) :: [(0, (["a"], [])); (1, (["a"], []))]) "ghost" =
    Some (mkRL [2; 2] false count).
Proof.
  apply (one_replica_fills_snapshot 2 1 2 2 [(0, (["a"], [])); (1, (["a"], []))] "ghost"); cbn; lia.
Defined.
End SnapshotExample.
