(* ===== verification/Digest.v ===== *)
(** * Digests of transactions and queries

    [TransactionDigest] and the other digests of
    src/src/store/sintrstore/common.cc.  The hash function is a parameter; a
    digest is the hash of the bytes fed to it, in order.  Endorsers and
    replicas sign digests, so what a digest leaves open is not endorsed. *)
From S2P Require Import Prelude OrderedSeq CppString Timestamp VersionStore Policy PolicyParse ServerState Snapshot.

(** ** Parts of messages that the record [Transaction] does not keep *)

Record Predicate := mkPred {
  pr_table_name : string;
  pr_table_version : Timestamp;
  pr_instantiations : list (list string);
  pr_pred_instances : list string;
  pr_hashed_table_version : option string
}.
Record QueryReadSet := mkQRS {
  qr_read_set : list ReadMessage;
  qr_deps : list Dependency;
  qr_read_predicates : list Predicate
}.
Record QueryGroupMeta := mkGM { gm_read_set_hash : option string; gm_query_read_set : QueryReadSet }.
(** [group_meta] is a protobuf map; the list is its iteration order. *)
Record QueryResultMetaData := mkQM {
  qm_query_id : string;
  qm_retry_version : Z;
  qm_group_meta : list (Z * QueryGroupMeta)
}.
Record RowUpdates := mkRow { row_deletion : option bool; row_column_values : list string }.
(** The SQL part of a transaction; [x_tables] in the iteration order of the
    map. *)
Record TxnTables := mkTables {
  x_queries : list QueryResultMetaData;
  x_predicates : list Predicate;
  x_tables : list (string * list RowUpdates)
}.
Definition no_tables : TxnTables := mkTables [] [] [].

(** [proto::Query]. *)
Record QueryMsg := mkQueryMsg {
  qq_client_id : Z;
  qq_query_seq_num : Z;
  qq_query_cmd : string;
  qq_timestamp : Timestamp;
  qq_query_manager : Z
}.

(** ** Bytes *)

(** A 64-bit integer in memory, least significant byte first. *)
Fixpoint le_bytes (n : nat) (x : Z) : string :=
  match n with
  | O => ""
  | S n => String (Ascii.ascii_of_N (Z.to_N (x `mod` 256))) (le_bytes n (x `div` 256))
  end.
Definition u64_bytes (x : Z) : string := le_bytes 8 (u64 x).
Definition bytes (l : list string) : string := foldr String.append "" l.

Section digest.
Variable blake3 : string → string.
(** [SerializeToString]. *)
Variable ser_endorsements : list SignedMessage → string.
Variable ser_endorsement : SignedMessage → string.

(** ** What is hashed *)

Definition ts_bytes (ts : Timestamp) : list string := [u64_bytes (ts_id ts); u64_bytes (timestamp ts)].

(** A read; an absent [hashed_readtime] is the empty string. *)
Definition read_bytes (hashedTS : bool) (r : ReadMessage) : outcome (list string) :=
  if hashedTS then
    _ ← uw_assert (negb (bool_decide (r_hashed_readtime r = "")));
    Done [r_key r; r_hashed_readtime r]
  else Done (r_key r :: ts_bytes (r_readtime r)).
Definition pred_bytes (hashedTS : bool) (p : Predicate) : outcome (list string) :=
  version ← (if hashedTS then
               match pr_hashed_table_version p with Some h => Done [h] | None => Panic end
             else Done (ts_bytes (pr_table_version p)));
  Done (pr_table_name p :: version ++ concat (pr_instantiations p)).
Definition dep_bytes (d : Dependency) : list string := [d_prepared_txn_digest d].

(** The parts of a list, one after the other. *)
Fixpoint all_bytes {A} (f : A → outcome (list string)) (l : list A) : outcome (list string) :=
  match l with
  | [] => Done []
  | x :: l' => b ← f x; bs ← all_bytes f l'; Done (b ++ bs)
  end.

Definition group_bytes (hashedTS : bool) (g : Z * QueryGroupMeta) : outcome (list string) :=
  match gm_read_set_hash g.2 with
  | Some h => Done [u64_bytes g.1; h]
  | None =>
      rs ← all_bytes (read_bytes hashedTS) (qr_read_set (gm_query_read_set g.2));
      ps ← all_bytes (pred_bytes hashedTS) (qr_read_predicates (gm_query_read_set g.2));
      Done (u64_bytes g.1 :: rs ++ concat (dep_bytes <$> qr_deps (gm_query_read_set g.2)) ++ ps)
  end.
Definition query_bytes (hashedTS : bool) (q : QueryResultMetaData) : outcome (list string) :=
  gs ← all_bytes (group_bytes hashedTS) (qm_group_meta q);
  Done (qm_query_id q :: u64_bytes (qm_retry_version q) :: gs).

Definition bool_byte (b : bool) : string := String (Ascii.ascii_of_N (if b then 1 else 0)) "".
Definition row_bytes (r : RowUpdates) : list string :=
  (match row_deletion r with Some b => [bool_byte b] | None => [] end) ++ row_column_values r.
(** Tables in the order of their names. *)
Fixpoint insert_table (e : string * list RowUpdates) (l : list (string * list RowUpdates)) :
    list (string * list RowUpdates) :=
  match l with
  | [] => [e]
  | x :: l' => if ltb e.1 x.1 then e :: l else x :: insert_table e l'
  end.
Definition sort_tables (l : list (string * list RowUpdates)) : list (string * list RowUpdates) :=
  foldr insert_table [] l.
Definition table_bytes (e : string * list RowUpdates) : list string := e.1 :: concat (row_bytes <$> e.2).

(** Everything [TransactionDigest] feeds to the hash function. *)
Definition digest_parts (hashedTS hashEndorsements : bool) (t : Transaction) (x : TxnTables) :
    outcome (list string) :=
  reads ← all_bytes (read_bytes hashedTS) (read_set t);
  queries ← all_bytes (query_bytes hashedTS) (x_queries x);
  preds ← all_bytes (pred_bytes hashedTS) (x_predicates x);
  Done ([u64_bytes (client_id t); u64_bytes (client_seq_num t)] ++ (u64_bytes <$> involved_groups t) ++ reads ++
        concat ((λ w, [w_key w; w_value w]) <$> write_set t) ++ concat (dep_bytes <$> deps t) ++
        (if negb hashedTS then ts_bytes (t_timestamp t) else [hashed_timestamp t]) ++
        queries ++ preds ++ concat (table_bytes <$> sort_tables (x_tables x)) ++
        (if hashEndorsements && negb (bool_decide (endorsements t = [])) then [ser_endorsements (endorsements t)] else []) ++
        lift_keys t).

Definition TransactionDigest (hashDigest hashedTS hashEndorsements : bool) (t : Transaction) (x : TxnTables) :
    outcome digest :=
  if hashDigest then parts ← digest_parts hashedTS hashEndorsements t x; Done (blake3 (bytes parts))
  else Done (bytes [u64_bytes (client_id t); u64_bytes (client_seq_num t)]).

(** ** The other digests *)

Definition TimestampDigest (ts : Timestamp) : string := blake3 (bytes (ts_bytes ts)).

Definition ComputePolicyDigest (t : Transaction) : string :=
  match policy_versions t with
  | [] => ""
  | _ :: _ => blake3 (bytes (concat ((λ v, pv_policy_id v :: ts_bytes (pv_timestamp v)) <$> policy_versions t)))
  end.
Definition PolicyVersionDigest (t : Transaction) (txnDigest policyDigest : string) : string :=
  match policy_versions t with
  | [] => txnDigest
  | _ :: _ =>
      blake3 (bytes [txnDigest; if decide (policyDigest = "") then ComputePolicyDigest t else policyDigest])
  end.
Definition EndorsedTxnDigest (txnDigest : string) (t : Transaction) (hashDigest : bool) : string :=
  if hashDigest && negb (bool_decide (endorsements t = []))
  then blake3 (bytes (txnDigest :: (ser_endorsement <$> endorsements t)))
  else txnDigest.

Definition QueryGenId (query_cmd : string) (query_ts : Timestamp) (hashed_ts : string) (hashDigest : bool) : string :=
  if hashDigest then
    blake3 (bytes (query_cmd :: if decide (hashed_ts = "") then ts_bytes query_ts else [hashed_ts]))
  else query_cmd.
Definition QueryDigest (q : QueryMsg) (queryHashDigest : bool) : string :=
  if queryHashDigest then
    blake3 (bytes ([u64_bytes (qq_client_id q); u64_bytes (qq_query_seq_num q); qq_query_cmd q] ++
                   ts_bytes (qq_timestamp q) ++ [u64_bytes (qq_query_manager q)]))
  else bytes [u64_bytes (qq_client_id q); u64_bytes (qq_query_seq_num q)].
Definition QueryRetryId (queryId : string) (retry_version : Z) (queryHashDigest : bool) : string :=
  if queryHashDigest then blake3 (bytes [queryId; u64_bytes retry_version])
  else bytes [queryId; u64_bytes retry_version].

(** The hash of a query's read set: dependencies, table names and table
    versions are left out. *)
Definition generateReadSetSingleHash (rs : QueryReadSet) (hashedTS : bool) : string :=
  blake3 (bytes (concat ((λ r, r_key r :: if hashedTS then [r_hashed_readtime r] else ts_bytes (r_readtime r)) <$>
                           qr_read_set rs) ++
                 concat ((λ p, concat (pr_instantiations p)) <$> qr_read_predicates rs))).
End digest.

(** ** Bytes determine their parts when the lengths are known *)

Lemma append_inj a b s t :
  String.length a = String.length b → String.append a s = String.append b t → a = b ∧ s = t.
Proof.
  revert b. induction a as [|c a IH]; intros [|c' b]; cbn; try done.
  intros [= Hl] [= -> Heq]. destruct (IH b Hl Heq) as [-> ->]. done.
Qed.
Lemma append_assoc a b c : String.append a (String.append b c) = String.append (String.append a b) c.
Proof.
  induction a as [|x a IH]; [done|].
  change (String x (String.append a (String.append b c)) = String x (String.append (String.append a b) c)).
  by rewrite IH.
Qed.

Definition same_lengths (l l' : list string) : Prop := Forall2 (λ a b, String.length a = String.length b) l l'.
Lemma bytes_inj l l' : same_lengths l l' → bytes l = bytes l' → l = l'.
Proof.
  induction 1 as [|a b l l' Hab _ IH]; [done|]. cbn. intros Heq.
  destruct (append_inj _ _ _ _ Hab Heq) as [-> Hl]. f_equal. by apply IH.
Qed.
Lemma bytes_app l l' : bytes (l ++ l') = String.append (bytes l) (bytes l').
Proof.
  induction l as [|a l IH]; [done|].
  change (String.append a (bytes (l ++ l')) = String.append (String.append a (bytes l)) (bytes l')).
  rewrite IH. apply append_assoc.
Qed.

Lemma le_bytes_length n x : String.length (le_bytes n x) = n.
Proof. revert x. induction n as [|n IH]; intros x; cbn; [done|by rewrite IH]. Qed.
Lemma le_bytes_inj n x y :
  0 ≤ x < 256 ^ Z.of_nat n → 0 ≤ y < 256 ^ Z.of_nat n → le_bytes n x = le_bytes n y → x = y.
Proof.
  revert x y. induction n as [|n IH]; intros x y Hx Hy; [cbn in Hx, Hy; lia|].
  rewrite Nat2Z.inj_succ, Z.pow_succ_r in Hx, Hy by lia. cbn [le_bytes]. intros [= Hc Hr].
  assert (x `mod` 256 = y `mod` 256) as Hm.
  { apply (f_equal Ascii.N_of_ascii) in Hc.
    rewrite !Ascii.N_ascii_embedding in Hc
      by (pose proof (Z.mod_pos_bound x 256); pose proof (Z.mod_pos_bound y 256); lia).
    apply (f_equal Z.of_N) in Hc.
    by rewrite !Z2N.id in Hc by (apply Z.mod_pos_bound; lia). }
  apply IH in Hr; [|split; [apply Z.div_pos; lia|apply Z.div_lt_upper_bound; lia]..].
  rewrite (Z.div_mod x 256), (Z.div_mod y 256) by lia. congruence.
Qed.
Lemma u64_bytes_inj x y : 0 ≤ x < 2^64 → 0 ≤ y < 2^64 → u64_bytes x = u64_bytes y → x = y.
Proof.
  intros Hx Hy. unfold u64_bytes. rewrite !u64_small by done. by apply le_bytes_inj.
Qed.
Lemma u64_bytes_length x : String.length (u64_bytes x) = 8%nat.
Proof. apply le_bytes_length. Qed.

Lemma concat_fmap_inj {A B} (f : A → list B) c l l' :
  (∀ x, length (f x) = c) → length l = length l' → concat (f <$> l) = concat (f <$> l') → f <$> l = f <$> l'.
Proof.
  intros Hf. revert l'. induction l as [|x l IH]; intros [|x' l'] Hl; cbn in *; try done.
  intros Heq. apply app_inj_1 in Heq as [-> Heq]; [|by rewrite !Hf]. f_equal. by apply IH; [lia|].
Qed.
Lemma same_lengths_app l1 l2 l1' l2' :
  same_lengths l1 l1' → same_lengths l2 l2' → same_lengths (l1 ++ l2) (l1' ++ l2').
Proof. apply Forall2_app. Qed.
Lemma same_lengths_concat {A} (f : A → list string) l l' :
  Forall2 (λ a b, same_lengths (f a) (f b)) l l' → same_lengths (concat (f <$> l)) (concat (f <$> l')).
Proof. induction 1; cbn; [constructor|by apply same_lengths_app]. Qed.
Lemma same_lengths_u64 l l' : length l = length l' → same_lengths (u64_bytes <$> l) (u64_bytes <$> l').
Proof.
  revert l'. induction l as [|x l IH]; intros [|y l'] Hl; cbn [fmap list_fmap length] in *; try done; [constructor|].
  constructor; [by rewrite !u64_bytes_length|apply IH; lia].
Qed.
Lemma cons_split {A} (x y : A) l l' : x :: l = y :: l' → x = y ∧ l = l'.
Proof. by intros [= -> ->]. Qed.
Lemma Done_inj {A} (a b : A) : Done a = Done b → a = b.
Proof. by intros [= ->]. Qed.
Create HintDb digest_lengths.
#[export] Hint Resolve same_lengths_app same_lengths_u64 : digest_lengths.
#[export] Hint Constructors Forall2 : digest_lengths.

(** ** What a digest determines *)

Section contents.
Variable blake3 : string → string.
Variable ser_endorsements : list SignedMessage → string.
Notation TransactionDigest := (TransactionDigest blake3 ser_endorsements).
Notation digest_parts := (digest_parts ser_endorsements).
Implicit Types (t : Transaction) (x : TxnTables).

Record same_shape t t' : Prop := {
  sh_groups : length (involved_groups t) = length (involved_groups t');
  sh_reads : Forall2 (λ r r', String.length (r_key r) = String.length (r_key r')) (read_set t) (read_set t');
  sh_writes : Forall2 (λ w w', String.length (w_key w) = String.length (w_key w') ∧
                               String.length (w_value w) = String.length (w_value w')) (write_set t) (write_set t');
  sh_deps : Forall2 (λ d d', String.length (d_prepared_txn_digest d) = String.length (d_prepared_txn_digest d'))
              (deps t) (deps t');
  sh_lift : same_lengths (lift_keys t) (lift_keys t')
}.

Definition is_u64 (z : Z) : Prop := 0 ≤ z < 2^64.
Definition ts_in_range (ts : Timestamp) : Prop := is_u64 (ts_id ts) ∧ is_u64 (timestamp ts).
Record in_range t : Prop := {
  ir_client : is_u64 (client_id t);
  ir_seq : is_u64 (client_seq_num t);
  ir_groups : Forall is_u64 (involved_groups t);
  ir_reads : Forall (λ r, ts_in_range (r_readtime r)) (read_set t);
  ir_ts : ts_in_range (t_timestamp t)
}.

(** The contents a digest covers. *)
Record same_contents t t' : Prop := {
  sc_client : client_id t = client_id t';
  sc_seq : client_seq_num t = client_seq_num t';
  sc_groups : involved_groups t = involved_groups t';
  sc_reads : (λ r, (r_key r, r_readtime r)) <$> read_set t = (λ r, (r_key r, r_readtime r)) <$> read_set t';
  sc_writes : (λ w, (w_key w, w_value w)) <$> write_set t = (λ w, (w_key w, w_value w)) <$> write_set t';
  sc_deps : d_prepared_txn_digest <$> deps t = d_prepared_txn_digest <$> deps t';
  sc_ts : t_timestamp t = t_timestamp t';
  sc_lift : lift_keys t = lift_keys t'
}.

Lemma plain_reads l :
  all_bytes (read_bytes false) l = Done (concat ((λ r, r_key r :: ts_bytes (r_readtime r)) <$> l)).
Proof. induction l as [|r l IH]; [done|]. cbn [all_bytes]. by rewrite IH. Qed.

Lemma ts_bytes_inj ts ts' : ts_in_range ts → ts_in_range ts' → ts_bytes ts = ts_bytes ts' → ts = ts'.
Proof.
  destruct ts as [a b], ts' as [a' b']. intros [H1 H2] [H3 H4] [Hi [Ht _]%cons_split]%cons_split. cbn in H1, H2, H3, H4, Hi, Ht |- *.
  apply u64_bytes_inj in Hi; [|done..]. apply u64_bytes_inj in Ht; [|done..]. by subst.
Qed.
Lemma ts_same_lengths ts ts' : same_lengths (ts_bytes ts) (ts_bytes ts').
Proof. repeat constructor; by rewrite !u64_bytes_length. Qed.

Lemma parts_plain t :
  digest_parts false false t no_tables =
    Done ([u64_bytes (client_id t); u64_bytes (client_seq_num t)] ++ (u64_bytes <$> involved_groups t) ++
          concat ((λ r, r_key r :: ts_bytes (r_readtime r)) <$> read_set t) ++
          concat ((λ w, [w_key w; w_value w]) <$> write_set t) ++ concat (dep_bytes <$> deps t) ++
          ts_bytes (t_timestamp t) ++ lift_keys t).
Proof. unfold Digest.digest_parts. rewrite plain_reads. done. Qed.

Lemma shape_lengths t t' p p' :
  same_shape t t' →
  digest_parts false false t no_tables = Done p → digest_parts false false t' no_tables = Done p' → same_lengths p p'.
Proof.
  intros [Hg Hr Hw Hd Hl]. rewrite !parts_plain. intros <-%Done_inj <-%Done_inj.
  repeat apply Forall2_cons_2; [by rewrite !u64_bytes_length..|].
  apply same_lengths_app; [by apply same_lengths_u64|].
  apply same_lengths_app; [|apply same_lengths_app; [|apply same_lengths_app; [|apply same_lengths_app]]].
  - apply same_lengths_concat. eapply Forall2_impl; [exact Hr|]. intros r r' Hk.
    constructor; [done|apply ts_same_lengths].
  - apply same_lengths_concat. eapply Forall2_impl; [exact Hw|]. intros w w' [Hk Hv]. by repeat constructor.
  - apply same_lengths_concat. eapply Forall2_impl; [exact Hd|]. intros d d' Hk. by repeat constructor.
  - apply ts_same_lengths.
  - exact Hl.
Qed.

Lemma groups_eq l l' :
  Forall is_u64 l → Forall is_u64 l' → u64_bytes <$> l = u64_bytes <$> l' → l = l'.
Proof.
  intros Hl. revert l'. induction Hl as [|g l Hg _ IH]; intros [|g' l'] Hl'; try done.
  intros [Hb He]%cons_split. apply Forall_cons in Hl' as [Hg' Hl'].
  by rewrite (u64_bytes_inj g g' Hg Hg' Hb), (IH l' Hl' He).
Qed.
Lemma reads_eq l l' :
  Forall (λ r, ts_in_range (r_readtime r)) l → Forall (λ r, ts_in_range (r_readtime r)) l' →
  (λ r, r_key r :: ts_bytes (r_readtime r)) <$> l = (λ r, r_key r :: ts_bytes (r_readtime r)) <$> l' →
  (λ r, (r_key r, r_readtime r)) <$> l = (λ r, (r_key r, r_readtime r)) <$> l'.
Proof.
  intros Hl. revert l'. induction Hl as [|r l Hr _ IH]; intros [|r' l'] Hl'; try done.
  cbn [fmap list_fmap]. intros [[Hk Ht]%cons_split He]%cons_split. apply Forall_cons in Hl' as [Hr' Hl'].
  by rewrite (IH l' Hl' He), Hk, (ts_bytes_inj _ _ Hr Hr' Ht).
Qed.

Lemma parts_contents t t' p :
  same_shape t t' → in_range t → in_range t' →
  digest_parts false false t no_tables = Done p → digest_parts false false t' no_tables = Done p → same_contents t t'.
Proof.
  intros [Hg Hr Hw Hd _] [R1 R2 R3 R4 R5] [S1 S2 S3 S4 S5]. rewrite !parts_plain. intros Hp Hp'. rewrite <- Hp in Hp'. clear Hp.
  apply Done_inj in Hp'. cbn [app] in Hp'. apply cons_split in Hp' as [Hc Hp']. apply cons_split in Hp' as [Hs He].
  symmetry in Hc, Hs, He.
  apply app_inj_1 in He as [Eg He]; [|by rewrite !length_fmap].
  apply Forall2_length in Hr, Hw, Hd.
  assert (∀ A (f : A → list string) c l l', (∀ a, length (f a) = c) → length l = length l' →
    length (concat (f <$> l)) = length (concat (f <$> l'))) as Hlen.
  { intros A f c l l' Hf. revert l'. induction l as [|a l IH]; intros [|a' l'] Hn; cbn in *; try done.
    rewrite !length_app, !Hf. f_equal. apply IH. lia. }
  apply app_inj_1 in He as [Er He]; [|by apply (Hlen _ _ 3%nat)].
  apply app_inj_1 in He as [Ew He]; [|by apply (Hlen _ _ 2%nat)].
  apply app_inj_1 in He as [Ed He]; [|by apply (Hlen _ _ 1%nat)].
  apply app_inj_1 in He as [Et He]; [|done].
  apply concat_fmap_inj with (c := 3%nat) in Er; [|done..].
  apply concat_fmap_inj with (c := 2%nat) in Ew; [|done..].
  apply concat_fmap_inj with (c := 1%nat) in Ed; [|done..].
  split.
  - by apply u64_bytes_inj.
  - by apply u64_bytes_inj.
  - by apply groups_eq.
  - by apply reads_eq.
  - clear -Ew. revert Ew. generalize (write_set t'). induction (write_set t) as [|w l IH]; intros [|w' l']; try done.
    cbn [fmap list_fmap]. intros [[Hk [Hv _]%cons_split]%cons_split He]%cons_split. f_equal; [by f_equal|by apply IH].
  - clear -Ed. revert Ed. generalize (deps t'). induction (deps t) as [|w l IH]; intros [|w' l']; try done.
    cbn [fmap list_fmap]. intros [[Hk _]%cons_split He]%cons_split. f_equal; [done|by apply IH].
  - by apply ts_bytes_inj.
  - done.
Qed.
Lemma contents_parts t t' :
  same_contents t t' → digest_parts false false t no_tables = digest_parts false false t' no_tables.
Proof.
  rewrite !parts_plain. intros [-> -> -> Hr Hw Hd -> ->].
  assert (∀ l l' : list ReadMessage, (λ r, (r_key r, r_readtime r)) <$> l = (λ r, (r_key r, r_readtime r)) <$> l' →
    (λ r, r_key r :: ts_bytes (r_readtime r)) <$> l = (λ r, r_key r :: ts_bytes (r_readtime r)) <$> l') as Hr'.
  { intros l. induction l as [|r l IH]; intros [|r' l']; try done. cbn [fmap list_fmap].
    intros [[= -> ->] He]%cons_split. by rewrite (IH l' He). }
  assert (∀ l l' : list WriteMessage, (λ w, (w_key w, w_value w)) <$> l = (λ w, (w_key w, w_value w)) <$> l' →
    (λ w, [w_key w; w_value w]) <$> l = (λ w, [w_key w; w_value w]) <$> l') as Hw'.
  { intros l. induction l as [|r l IH]; intros [|r' l']; try done. cbn [fmap list_fmap].
    intros [[= -> ->] He]%cons_split. by rewrite (IH l' He). }
  assert (∀ l l' : list Dependency, d_prepared_txn_digest <$> l = d_prepared_txn_digest <$> l' → dep_bytes <$> l = dep_bytes <$> l') as Hd'.
  { intros l. induction l as [|r l IH]; intros [|r' l']; try done. cbn [fmap list_fmap].
    intros [Hx He]%cons_split. rewrite (IH l' He). unfold dep_bytes. by rewrite Hx. }
  by rewrite (Hr' _ _ Hr), (Hw' _ _ Hw), (Hd' _ _ Hd).
Qed.

(** C31: a digest binds the contents of a transaction among key-value
    transactions of one shape.  With [hashDigest] on and [hideTimestamps] and
    [hashEndorsements] off, let two transactions without queries, predicates or
    table writes have the same numbers of groups, reads, writes, dependencies and
    lifted keys, keys, values and digests of the same lengths, and 64-bit client,
    sequence number, groups and timestamps.  Then each digest is the hash of a byte
    string, and the two byte strings are equal exactly when the transactions agree
    on the client, the sequence number, the groups, the keys and versions read, the
    keys and values written, the dependencies, the timestamp and the lifted keys:
    two different contents with one digest are a collision of the hash function on
    these two strings. *)
Theorem digest_binds_contents t t' :
  same_shape t t' → in_range t → in_range t' →
  ∃ a b, TransactionDigest true false false t no_tables = Done (blake3 a) ∧
    TransactionDigest true false false t' no_tables = Done (blake3 b) ∧ (a = b ↔ same_contents t t').
Proof.
  intros Hsh Hr Hr'. assert (∀ t, ∃ p, digest_parts false false t no_tables = Done p) as Hex.
  { intros t0. rewrite parts_plain. by eexists. }
  destruct (Hex t) as [p Hp], (Hex t') as [p' Hp']. exists (bytes p), (bytes p'). unfold Digest.TransactionDigest.
  rewrite Hp, Hp'. split_and!; [done..|]. split.
  - intros ->%bytes_inj; [|by eapply shape_lengths]. by eapply parts_contents.
  - intros Hc%contents_parts. rewrite Hp, Hp' in Hc. by apply Done_inj in Hc as ->.
Qed.

(** *** What it leaves open *)

Definition with_writes (ws : list WriteMessage) t : Transaction :=
  mkTxn (client_id t) (client_seq_num t) (read_set t) ws (deps t) (t_timestamp t)
    (query_set t) (table_writes t) (read_predicates t) (txndigest t) (merged_read_set t) (policy_type t)
    (implicit_policy_reads t) (endorsements t) (hashed_timestamp t) (lift_keys t) (policy_versions t)
    (involved_groups t).
(** The policy type, the merged read set and the implicit policy reads, which a
    client can set as well. *)
Definition with_unbound (ty : TxnPolicyType) (m : option MergedReadSet) (rs : list ReadMessage) t : Transaction :=
  mkTxn (client_id t) (client_seq_num t) (read_set t) (write_set t) (deps t) (t_timestamp t)
    (query_set t) (table_writes t) (read_predicates t) (txndigest t) m ty rs (endorsements t)
    (hashed_timestamp t) (lift_keys t) (policy_versions t) (involved_groups t).
Definition with_instances (f : Predicate → list string) x : TxnTables :=
  mkTables (x_queries x)
    ((λ p, mkPred (pr_table_name p) (pr_table_version p) (pr_instantiations p) (f p) (pr_hashed_table_version p)) <$>
       x_predicates x) (x_tables x).

Lemma digest_of_bytes t x t' x' hd ht he :
  client_id t = client_id t' → client_seq_num t = client_seq_num t' →
  bytes <$> digest_parts ht he t x = bytes <$> digest_parts ht he t' x' →
  TransactionDigest hd ht he t x = TransactionDigest hd ht he t' x'.
Proof.
  intros Hc Hs Hb. unfold Digest.TransactionDigest. destruct hd; [|by rewrite Hc, Hs].
  destruct (digest_parts ht he t x), (digest_parts ht he t' x'); cbn in *; try done.
  apply Done_inj in Hb. by rewrite Hb.
Qed.

(** A digest does not tell where a key ends and its value begins: keys and
    values are hashed one after the other without their lengths.  A
    transaction that writes [c] to the key [a b] and one that writes [b c] to
    the key [a], equal otherwise, have the same digest, with any flags and
    any hash function; what endorsers sign for one holds for the other. *)
Theorem digest_misses_boundaries hd ht he t x ws1 ws2 a b c tv :
  TransactionDigest hd ht he (with_writes (ws1 ++ mkWrite (String.append a b) (Some c) tv :: ws2) t) x =
  TransactionDigest hd ht he (with_writes (ws1 ++ mkWrite a (Some (String.append b c)) tv :: ws2) t) x.
Proof.
  apply digest_of_bytes; [done..|]. unfold Digest.digest_parts. cbn [read_set with_writes client_id client_seq_num
    involved_groups write_set deps t_timestamp hashed_timestamp endorsements lift_keys].
  destruct (all_bytes (read_bytes ht) (read_set t)) as [rs|]; [|done].
  destruct (all_bytes (query_bytes ht) (x_queries x)) as [qs|]; [|done].
  destruct (all_bytes (pred_bytes ht) (x_predicates x)) as [ps|]; [|done].
  cbn [mbind outcome_bind fmap outcome_fmap]. f_equal. rewrite !bytes_app. do 3 f_equal. f_equal.
  rewrite !fmap_app, !concat_app, !bytes_app. f_equal. cbn [fmap list_fmap concat app].
  change (String.append (String.append a b) (String.append c (bytes (concat ((λ w, [w_key w; w_value w]) <$> ws2)))) =
          String.append a (String.append (String.append b c) (bytes (concat ((λ w, [w_key w; w_value w]) <$> ws2))))).
  by rewrite <- !append_assoc.
Qed.

(** A digest covers neither the type of a transaction nor the predicates it
    was checked with.  Turning a normal transaction into a change of policies,
    giving it a merged read set or implicit policy reads, or replacing the
    instances of its read predicates leaves the digest as it is. *)
Theorem digest_leaves_open hd ht he t x ty m rs f :
  TransactionDigest hd ht he (with_unbound ty m rs t) (with_instances f x) = TransactionDigest hd ht he t x.
Proof.
  apply digest_of_bytes; [done..|]. unfold Digest.digest_parts.
  assert (all_bytes (pred_bytes ht) (x_predicates (with_instances f x)) = all_bytes (pred_bytes ht) (x_predicates x)) as ->;
    [|done].
  cbn [x_predicates with_instances]. induction (x_predicates x) as [|p l IH]; [done|].
  cbn [fmap list_fmap all_bytes]. by rewrite IH.
Qed.
End contents.

(** ** Concrete instances *)

Module DigestExample.
Definition txn (ty : TxnPolicyType) : Transaction :=
  mkTxn 3 1 [mkRead "k" (mkTs 5 7) false ""] [mkWrite "acct" (Some "10") false] [] (mkTs 20 3) [] [] [] None None ty
    [] [] "" [] [] [0].

Lemma digest_binds_contents_witness :
  ∃ a b, TransactionDigest id (λ _, "") true false false (txn NONE) no_tables = Done a ∧
    TransactionDigest id (λ _, "") true false false (txn POLICY_ID_POLICY) no_tables = Done b ∧
    (a = b ↔ same_contents (txn NONE) (txn POLICY_ID_POLICY)).
Proof.
  assert (∀ ty, in_range (txn ty)) as Hr.
  { intros ty. split; unfold ts_in_range, is_u64; cbn; repeat constructor; cbn; lia. }
  apply (digest_binds_contents id (λ _, "") (txn NONE) (txn POLICY_ID_POLICY)); [|apply Hr|apply Hr].
  split; cbn; repeat constructor.
Defined.

(** The groups of a query are hashed in the iteration order of a map, which
    may differ from process to process. *)
Definition queries (gs : list (Z * QueryGroupMeta)) : TxnTables := mkTables [mkQM "q" 0 gs] [] [].
Definition group (h : string) : QueryGroupMeta := mkGM (Some h) (mkQRS [] [] []).
Theorem digest_depends_on_map_order :
  TransactionDigest id (λ _, "") true false false (txn NONE) (queries [(0, group "g"); (1, group "h")]) ≠
  TransactionDigest id (λ _, "") true false false (txn NONE) (queries [(1, group "h"); (0, group "g")]).
Proof. vm_compute. congruence. Qed.
End DigestExample.
