(* ===== verification/QueryClient.v ===== *)
(** * Queries at a client

    The query half of [ShardClient]
    (src/src/store/sintrstore/querysync-client.cc, shardclient.h): a query is
    sent to replicas, which either execute it at once and answer with a result
    (eager mode), or report which transactions they hold; the client then
    merges the reports into a snapshot and has the replicas execute the query
    on it.  A result counts once enough replicas sent the same result with the
    same read set.  Point queries that are not eager are handled like reads
    and only sent here. *)
From S2P Require Import Prelude OrderedSeq CppString Timestamp VersionStore Policy PolicyParse ServerState Quorum Reads Snapshot Digest.

(** ** Messages *)

Record QueryResult := mkQR {
  q_replica_id : Z;
  q_query_result : string;
  q_query_result_hash : string;
  q_query_read_set : QueryReadSet;
  q_local_ss : option LocalSnapshot
}.
Record QueryPolicy := mkQP {
  qp_endorsement_policy : EndorsementPolicyMessage;
  qp_policy_timestamp : Timestamp;
  qp_policy_proof : CommittedProof
}.
Record QueryResultReply := mkQRR {
  qrr_req_id : Z;
  qrr_result : QueryResult;
  qrr_signed_result : option SignedMessage;
  qrr_query_policy : list QueryPolicy
}.
Record SyncReply := mkSyncReply { sr_req_id : Z; sr_local_ss : LocalSnapshot; sr_signed_local_ss : option SignedMessage }.
Record FailQuery := mkFail { fq_req_id : Z; fq_replica_id : Z; fq_signed_fail : option SignedMessage }.

(** ** State *)

(** [dep_candidates] is a [std::map]; [min_table_versions] is keyed by the
    position of the predicate. *)
Record Result_mgr := mkRM {
  rm_freq : Z;
  rm_dep_candidates : list (digest * Z);
  rm_min_table_versions : gmap Z Timestamp
}.
Definition Result_mgr_new : Result_mgr := mkRM 0 [] ∅.

(** What [RetryQuery] and [SyncReplicas] reset. *)
Record Results := mkResults {
  rs_numResults : Z;
  rs_numFails : Z;
  rs_resultsVerified : gset Z;
  rs_result_freq : gmap string (gmap string Result_mgr)
}.
Definition Results_new : Results := mkResults 0 0 ∅ ∅.

(** A signature is absent when replies are not signed; the vector itself is
    null after a callback. *)
Record PendingQuery := mkPQ {
  pq_done : bool;
  pq_eager_mode : bool;
  pq_snapshot_mode : bool;
  pq_sync_started : bool;
  pq_reqId : Z;
  pq_query_seq_num : Z;
  pq_queryDigest : digest;
  pq_snapshotsVerified : gset Z;
  pq_snapshot_mgr : SnapshotManager;
  pq_retry_version : Z;
  pq_num_designated_replies : Z;
  pq_results : Results;
  pq_query_sigs : option (list (option SignedMessage));
  pq_is_point : bool;
  pq_queryPolicyMap : gmap string (EndorsementPolicyMessage * Timestamp)
}.

(** Messages sent, without their command, signature and request for policies,
    and calls of the result callback. *)
Inductive QueryOut :=
| SendQuery (replica reqId retry_version : Z) (eager optimistic designated : bool)
| SendSync (replica reqId : Z) (merged : MergedSnapshot) (designated : bool)
| ResultCallback (reqId : Z) (ok : bool) (read_set : option QueryReadSet) (result_hash result : string)
    (sigs : option (list (option SignedMessage))) (policies : gmap string (EndorsementPolicyMessage * Timestamp)).

Record QueryState := mkQS {
  qs_lastReqId : Z;
  qs_query_seq_num_mapping : gmap Z Z;
  qs_pendingQueries : gmap Z PendingQuery;
  qs_out : list QueryOut
}.
Definition qs_emit (o : list QueryOut) (st : QueryState) : QueryState :=
  mkQS (qs_lastReqId st) (qs_query_seq_num_mapping st) (qs_pendingQueries st) (qs_out st ++ o).
(** The object of a request, changed in place. *)
Definition qs_set (reqId : Z) (pq : PendingQuery) (st : QueryState) : QueryState :=
  mkQS (qs_lastReqId st) (qs_query_seq_num_mapping st) (<[reqId := pq]> (qs_pendingQueries st)) (qs_out st).

(** Setters of one group of members. *)
Definition set_modes (eager snapshot sync : bool) (pq : PendingQuery) : PendingQuery :=
  mkPQ (pq_done pq) eager snapshot sync (pq_reqId pq) (pq_query_seq_num pq) (pq_queryDigest pq) (pq_snapshotsVerified pq)
    (pq_snapshot_mgr pq) (pq_retry_version pq) (pq_num_designated_replies pq) (pq_results pq) (pq_query_sigs pq)
    (pq_is_point pq) (pq_queryPolicyMap pq).
Definition set_snapshots (verified : gset Z) (sm : SnapshotManager) (pq : PendingQuery) : PendingQuery :=
  mkPQ (pq_done pq) (pq_eager_mode pq) (pq_snapshot_mode pq) (pq_sync_started pq) (pq_reqId pq) (pq_query_seq_num pq)
    (pq_queryDigest pq) verified sm (pq_retry_version pq) (pq_num_designated_replies pq) (pq_results pq)
    (pq_query_sigs pq) (pq_is_point pq) (pq_queryPolicyMap pq).
Definition set_results (r : Results) (pq : PendingQuery) : PendingQuery :=
  mkPQ (pq_done pq) (pq_eager_mode pq) (pq_snapshot_mode pq) (pq_sync_started pq) (pq_reqId pq) (pq_query_seq_num pq)
    (pq_queryDigest pq) (pq_snapshotsVerified pq) (pq_snapshot_mgr pq) (pq_retry_version pq)
    (pq_num_designated_replies pq) r (pq_query_sigs pq) (pq_is_point pq) (pq_queryPolicyMap pq).
Definition set_designated (n : Z) (pq : PendingQuery) : PendingQuery :=
  mkPQ (pq_done pq) (pq_eager_mode pq) (pq_snapshot_mode pq) (pq_sync_started pq) (pq_reqId pq) (pq_query_seq_num pq)
    (pq_queryDigest pq) (pq_snapshotsVerified pq) (pq_snapshot_mgr pq) (pq_retry_version pq) n (pq_results pq)
    (pq_query_sigs pq) (pq_is_point pq) (pq_queryPolicyMap pq).
Definition set_sigs (sigs : option (list (option SignedMessage))) (pq : PendingQuery) : PendingQuery :=
  mkPQ (pq_done pq) (pq_eager_mode pq) (pq_snapshot_mode pq) (pq_sync_started pq) (pq_reqId pq) (pq_query_seq_num pq)
    (pq_queryDigest pq) (pq_snapshotsVerified pq) (pq_snapshot_mgr pq) (pq_retry_version pq)
    (pq_num_designated_replies pq) (pq_results pq) sigs (pq_is_point pq) (pq_queryPolicyMap pq).
Definition set_done_policies (ps : gmap string (EndorsementPolicyMessage * Timestamp)) (pq : PendingQuery) : PendingQuery :=
  mkPQ true (pq_eager_mode pq) (pq_snapshot_mode pq) (pq_sync_started pq) (pq_reqId pq) (pq_query_seq_num pq)
    (pq_queryDigest pq) (pq_snapshotsVerified pq) (pq_snapshot_mgr pq) (pq_retry_version pq)
    (pq_num_designated_replies pq) (pq_results pq) (pq_query_sigs pq) (pq_is_point pq) ps.

Section client.
Variable config : Configuration.
Variable ser_cc : CCMsg → string.
Variable ser_p2 : P2Msg → string.
Variable Verify : Z → string → string → bool.
Variable blake3 : string → string.
Variable TransactionDigest : Transaction → digest.
Variable parse_result : string → option QueryResult.
Variable parse_local_ss : string → option LocalSnapshot.
(** The replica id of a [FailQueryMsg]. *)
Variable parse_fail : string → option Z.
Variable ser_policy : PolicyObject → string.
Variable p4nddec64 : string → Z → list Z.
Variables validateProofs signedMessages hideTimestamps cacheReadSet hash_queries : bool.
Variables eagerExec eagerPointExec eagerPlusSnapshot simulateFailEagerPlusSnapshot : bool.
Variables optimisticTxID compressOptimisticTxIDs : bool.
Variables syncQuorum queryMessages mergeThreshold syncMessages resultQuorum readMessages : Z.
Variables group client_id : Z.
(** [GetNthClosestReplica]. *)
Variable closestReplicas : list Z.
Implicit Types (pq : PendingQuery) (st : QueryState).

Notation f := (cf_f config).
Notation n := (cf_n config).

(** ** Sending *)

(** The first [total] closest replicas, of which the first [designated] are to
    answer. *)
Definition send_closest (mk : Z → bool → QueryOut) (total designated : Z) : outcome (list QueryOut) :=
  _ ← uw_assert (total <=? Z.of_nat (length closestReplicas));
  Done ((λ '(i, r), mk r (Z.of_nat i <? designated)) <$> zip (seq 0 (Z.to_nat total)) (take (Z.to_nat total) closestReplicas)).

Definition RequestQuery pq : outcome (PendingQuery * list QueryOut) :=
  let sm := InitMergedSnapshot optimisticTxID (pq_query_seq_num pq) client_id (pq_retry_version pq) f in
  let pq := set_snapshots (pq_snapshotsVerified pq) sm pq in
  let optimistic := optimisticTxID && (pq_retry_version pq =? 0) in
  let eager := (pq_retry_version pq =? 0) && (if pq_is_point pq then eagerPointExec else eagerExec) in
  let pq := set_modes eager (negb eager) (pq_sync_started pq) pq in
  let mk r d := SendQuery r (pq_reqId pq) (pq_retry_version pq) eager optimistic d in
  if pq_is_point pq && negb eager then
    o ← send_closest (λ r _, mk r true) readMessages 0; Done (pq, o)
  else
    let total q := if cacheReadSet then n else q in
    let '(total_msg, designated) :=
      if negb eager then (total (Z.max queryMessages syncMessages), queryMessages)
      else if negb eagerPlusSnapshot then (total syncMessages, syncMessages)
      else (total (Z.max queryMessages syncMessages), Z.max queryMessages syncMessages) in
    let pq := set_designated designated pq in
    o ← send_closest mk total_msg designated; Done (pq, o).

(** [PendingQuery()], then the members [Query] sets. *)
Definition PendingQuery_new (reqId query_seq_num : Z) (queryDigest : digest) (is_point : bool) : PendingQuery :=
  mkPQ false false true false reqId query_seq_num queryDigest ∅ (mkSM 0 false false 0 (mkMergedSS 0 0 0 None ∅ ∅)) 0 0
    Results_new (Some []) is_point ∅.

Definition Query (query_seq_num : Z) (q : QueryMsg) (is_point : bool) st : outcome QueryState :=
  let reqId := qs_lastReqId st in
  '(pq, o) ← RequestQuery (PendingQuery_new reqId query_seq_num (QueryDigest blake3 q hash_queries) is_point);
  Done (mkQS (u64 (reqId + 1)) (<[query_seq_num := reqId]> (qs_query_seq_num_mapping st))
          (<[reqId := pq]> (qs_pendingQueries st)) (qs_out st ++ o)).

Definition ClearQuery (query_seq_num : Z) st : QueryState :=
  match qs_query_seq_num_mapping st !! query_seq_num with
  | None => st
  | Some reqId =>
      match qs_pendingQueries st !! reqId with
      | None => st
      | Some _ => mkQS (qs_lastReqId st) (delete query_seq_num (qs_query_seq_num_mapping st))
                    (delete reqId (qs_pendingQueries st)) (qs_out st)
      end
  end.

Definition RetryQuery (query_seq_num : Z) (is_point : bool) st : outcome QueryState :=
  match qs_query_seq_num_mapping st !! query_seq_num with
  | None => Panic
  | Some old =>
      match qs_pendingQueries st !! old with
      | None => Panic
      | Some pq =>
          let reqId := qs_lastReqId st in
          _ ← uw_assert (bool_decide (pq_query_sigs pq = None));
          '(pq, o) ← RequestQuery
            (mkPQ (pq_done pq) (pq_eager_mode pq) (pq_snapshot_mode pq) false reqId (pq_query_seq_num pq)
               (pq_queryDigest pq) ∅ (pq_snapshot_mgr pq) (u64 (pq_retry_version pq + 1))
               (pq_num_designated_replies pq) Results_new (Some []) is_point (pq_queryPolicyMap pq));
          Done (mkQS (u64 (reqId + 1)) (<[query_seq_num := reqId]> (qs_query_seq_num_mapping st))
                  (<[reqId := pq]> (delete old (qs_pendingQueries st))) (qs_out st ++ o))
      end
  end.

(** ** Snapshots *)

Definition SyncReplicas pq : outcome (PendingQuery * list QueryOut) :=
  let pq := if eagerPlusSnapshot then set_modes false true (pq_sync_started pq) (set_results Results_new pq) else pq in
  let pq := set_modes (pq_eager_mode pq) (pq_snapshot_mode pq) true pq in
  let m := sm_merged (pq_snapshot_mgr pq) in
  let m := mkMergedSS (pq_query_seq_num pq) client_id (pq_retry_version pq) (Some (pq_queryDigest pq)) (ms_txns m) (ms_ts m) in
  let pq := set_snapshots (pq_snapshotsVerified pq) (set_sm_merged m (pq_snapshot_mgr pq)) pq in
  let wanted := syncMessages + (if optimisticTxID && (pq_retry_version pq =? 0) then f else 0) in
  let designated := Z.min n wanted in
  let pq := set_designated designated pq in
  o ← send_closest (λ r d, SendSync r (pq_reqId pq) m d) (if cacheReadSet then n else designated) designated;
  Done (pq, o).

Definition CheckSyncStart pq : outcome (PendingQuery * list QueryOut) :=
  if pq_sync_started pq then Done (pq, [])
  else if sm_merge_complete (pq_snapshot_mgr pq) && pq_snapshot_mode pq then SyncReplicas pq
  else Done (pq, []).

Definition ProcessSync pq (ls : LocalSnapshot) : outcome (PendingQuery * list QueryOut) :=
  if sm_merge_complete (pq_snapshot_mgr pq) then CheckSyncStart pq
  else if bool_decide (ls_replica_id ls ∈ pq_snapshotsVerified pq) then Done (pq, [])
  else
    let pq := set_snapshots ({[ls_replica_id ls]} ∪ pq_snapshotsVerified pq) (pq_snapshot_mgr pq) pq in
    if negb (IsReplicaInGroup config (ls_replica_id ls) group) then Done (pq, [])
    else
      '(sm, _) ← ProcessReplicaLocalSnapshot compressOptimisticTxIDs syncQuorum mergeThreshold p4nddec64
                   (pq_snapshot_mgr pq) ls;
      CheckSyncStart (set_snapshots (pq_snapshotsVerified pq) sm pq).

(** A signed message, opened; [None]: it is dropped. *)
Definition open_signed {A} (sm : option SignedMessage) (parse : string → option A) (who : A → option Z) :
    outcome (option A) :=
  match sm with
  | None => Panic
  | Some sm =>
      if negb (Verify (sm_process_id sm) (sm_data sm) (sm_signature sm)) then Done None
      else Done (match parse (sm_data sm) with
                 | None => None
                 | Some a => match who a with
                             | Some pid => if pid =? sm_process_id sm then Some a else None
                             | None => Some a
                             end
                 end)
  end.

Definition HandleQuerySyncReply (msg : SyncReply) st : outcome QueryState :=
  match qs_pendingQueries st !! sr_req_id msg with
  | None => Done st
  | Some pq =>
      if pq_done pq then Done st
      else
        ols ← (if validateProofs && signedMessages
               then open_signed (sr_signed_local_ss msg) parse_local_ss (λ ls, Some (ls_replica_id ls))
               else Done (Some (sr_local_ss msg)));
        match ols with
        | None => Done st
        | Some ls => '(pq, o) ← ProcessSync pq ls; Done (qs_emit o (qs_set (sr_req_id msg) pq st))
        end
  end.

(** ** Results *)

(** [std::sort] by key, then [std::unique].  Reads of one key at different
    times keep their order here; [std::sort] does not promise it. *)
Fixpoint insert_read (r : ReadMessage) (l : list ReadMessage) : list ReadMessage :=
  match l with
  | [] => [r]
  | x :: l' => if negb (ltb (r_key x) (r_key r)) then r :: l else x :: insert_read r l'
  end.
Definition equalReadMsg (a b : ReadMessage) : bool :=
  bool_decide (r_key a = r_key b) && ts_eq (r_readtime a) (r_readtime b).
Fixpoint unique_reads (l : list ReadMessage) : list ReadMessage :=
  match l with
  | [] => []
  | x :: l' => x :: match unique_reads l' with
                    | y :: l'' => if equalReadMsg x y then l'' else y :: l''
                    | [] => []
                    end
  end.
Definition sort_reads (rs : QueryReadSet) : QueryReadSet :=
  mkQRS (unique_reads (foldr insert_read [] (qr_read_set rs))) (qr_deps rs) (qr_read_predicates rs).

(** Eager replies may differ in their table versions: the smallest version of
    every predicate is kept, and written into the reply that completes the
    quorum.  The second assignment of the source sets the id again, to the
    timestamp. *)
Definition min_version (o : option Timestamp) (v : Timestamp) : Timestamp :=
  match o with Some cur => if ts_lt v cur then v else cur | None => v end.
Definition final_version (cur v : Timestamp) : Timestamp := mkTs (timestamp v) (timestamp cur).
Fixpoint table_versions (quorum : bool) (idx : Z) (mins : gmap Z Timestamp) (ps : list Predicate) :
    gmap Z Timestamp * list Predicate :=
  match ps with
  | [] => (mins, [])
  | p :: ps' =>
      let cur := min_version (mins !! idx) (pr_table_version p) in
      let p' := if quorum
                then mkPred (pr_table_name p) (final_version cur (pr_table_version p)) (pr_instantiations p)
                       (pr_pred_instances p) (pr_hashed_table_version p)
                else p in
      let '(mins, rest) := table_versions quorum (idx + 1) (<[idx := cur]> mins) ps' in
      (mins, p' :: rest)
  end.

(** Votes for dependencies; those with [2 f + 1] votes are kept. *)
Definition count_dep (l : list (digest * Z)) (d : Dependency) : list (digest * Z) :=
  let k := d_prepared_txn_digest d in
  seq_put fst (k, u64 (match seq_find fst k l with Some e => e.2 | None => 0 end + 1)) l.
Definition final_deps (l : list (digest * Z)) : list Dependency :=
  (λ e, mkDep e.1 ts_zero group) <$> List.filter (λ e, 2 * f + 1 <=? e.2) l.

(** One more reply with this hash and result; more than one result for a hash
    is a [Panic]. *)
Definition get_mgr (h r : string) (m : gmap string (gmap string Result_mgr)) : Result_mgr :=
  default Result_mgr_new (default ∅ (m !! h) !! r).
Definition put_mgr (h r : string) (mgr : Result_mgr) (m : gmap string (gmap string Result_mgr)) :
    gmap string (gmap string Result_mgr) := <[h := <[r := mgr]> (default ∅ (m !! h))]> m.

Definition count_result (res : Results) (eager : bool) (qr : QueryResult) :
    outcome (Results * Z * QueryResult * string) :=
  if cacheReadSet then
    let h := q_query_result_hash qr in
    let mgr := get_mgr h (q_query_result qr) (rs_result_freq res) in
    let mgr := mkRM (u64 (rm_freq mgr + 1)) (rm_dep_candidates mgr) (rm_min_table_versions mgr) in
    let m := put_mgr h (q_query_result qr) mgr (rs_result_freq res) in
    _ ← uw_assert (bool_decide (size (default ∅ (m !! h)) ≤ 1)%nat);
    Done (mkResults (rs_numResults res) (rs_numFails res) (rs_resultsVerified res) m, rm_freq mgr, qr, h)
  else
    let rs := sort_reads (q_query_read_set qr) in
    let h := generateReadSetSingleHash blake3 rs false in
    let mgr := get_mgr h (q_query_result qr) (rs_result_freq res) in
    let freq := u64 (rm_freq mgr + 1) in
    let quorum := freq =? resultQuorum in
    let '(mins, preds) := if eager then table_versions quorum 0 (rm_min_table_versions mgr) (qr_read_predicates rs)
                          else (rm_min_table_versions mgr, qr_read_predicates rs) in
    let cands := foldl count_dep (rm_dep_candidates mgr) (qr_deps rs) in
    let rs := mkQRS (qr_read_set rs) (if quorum then final_deps cands else qr_deps rs) preds in
    let mgr := mkRM freq (if quorum then [] else cands) mins in
    let m := put_mgr h (q_query_result qr) mgr (rs_result_freq res) in
    _ ← uw_assert (bool_decide (size (default ∅ (m !! h)) ≤ 1)%nat);
    Done (mkResults (rs_numResults res) (rs_numFails res) (rs_resultsVerified res) m, freq,
          mkQR (q_replica_id qr) (q_query_result qr) (q_query_result_hash qr) rs (q_local_ss qr), h).

(** The policies of the reply that completes the quorum, up to one that is not
    proven; the flag says that all of them are. *)
Fixpoint query_policies (ps : list QueryPolicy) (m : gmap string (EndorsementPolicyMessage * Timestamp)) :
    outcome (bool * gmap string (EndorsementPolicyMessage * Timestamp)) :=
  match ps with
  | [] => Done (true, m)
  | p :: ps' =>
      if validateProofs then
        let id := ep_policy_id (qp_endorsement_policy p) in
        let ts := qp_policy_timestamp p in
        ok ← ValidateTransactionWrite config ser_cc ser_p2 Verify (qp_policy_proof p)
               (TransactionDigest (cp_txn (qp_policy_proof p))) id (ser_policy (ep_policy (qp_endorsement_policy p))) ts
               signedMessages (if hideTimestamps then TimestampDigest blake3 ts else "");
        if negb ok then Done (false, m)
        else query_policies ps'
               (match m !! id with
                | Some e => if ts_lt e.2 ts then <[id := (qp_endorsement_policy p, ts)]> m else m
                | None => <[id := (qp_endorsement_policy p, ts)]> m
                end)
      else query_policies ps' m
  end.

(** How many replies to wait for. *)
Definition max_wait (designated : Z) (no_bonus : bool) : Z :=
  let expected := if no_bonus then resultQuorum else u64 (resultQuorum + f) in
  int32 (Z.max (u64 (designated - f)) expected).

Definition fail_callback pq (rs : option QueryReadSet) (hash result : string) : PendingQuery * list QueryOut :=
  (set_sigs None pq, [ResultCallback (pq_reqId pq) false rs hash result (pq_query_sigs pq) (pq_queryPolicyMap pq)]).

(** The replies do not agree yet: wait, give up, or fall back to a snapshot. *)
Definition result_missing pq (qr : QueryResult) (signer : Z) : outcome (PendingQuery * list QueryOut) :=
  let do_sync := pq_eager_mode pq && eagerPlusSnapshot && (pq_retry_version pq =? 0) &&
                 bool_decide (is_Some (q_local_ss qr)) in
  let no_bonus := (eagerExec && pq_eager_mode pq) || (optimisticTxID && (pq_retry_version pq >? 0)) in
  _ ← uw_assert (negb do_sync || ((pq_num_designated_replies pq =? queryMessages) && (syncMessages <=? queryMessages)));
  let maxWait := max_wait (if do_sync then syncMessages else pq_num_designated_replies pq) no_bonus in
  _ ← uw_assert (0 <? maxWait);
  let all := Z.of_nat (size (rs_resultsVerified (pq_results pq))) =? maxWait in
  if negb do_sync then
    Done (if all then fail_callback pq (Some (q_query_read_set qr)) (q_query_result_hash qr) (q_query_result qr)
          else (pq, []))
  else
    let pq := if negb (pq_snapshot_mode pq) && all then set_modes (pq_eager_mode pq) true (pq_sync_started pq) pq else pq in
    match q_local_ss qr with
    | None => Done (pq, [])
    | Some ls =>
        if validateProofs && signedMessages && negb (ls_replica_id ls =? signer) then Done (pq, [])
        else ProcessSync pq ls
    end.

(** A result of a replica of the group that has not answered yet. *)
Definition process_result pq (msg : QueryResultReply) (qr : QueryResult) : outcome (PendingQuery * list QueryOut) :=
  let res := pq_results pq in
  match pq_query_sigs pq with
  | None => Panic
  | Some sigs =>
      let pq := set_sigs (Some (sigs ++ [qrr_signed_result msg])) pq in
      '(res, freq, qr, h) ← count_result
        (mkResults (u64 (rs_numResults res + 1)) (rs_numFails res) ({[q_replica_id qr]} ∪ rs_resultsVerified res)
           (rs_result_freq res)) (pq_eager_mode pq) qr;
      let pq := set_results res pq in
      let test_sync := simulateFailEagerPlusSnapshot && eagerPlusSnapshot && pq_eager_mode pq in
      if negb test_sync && (freq =? resultQuorum) then
        '(ok, ps) ← query_policies (qrr_query_policy msg) (pq_queryPolicyMap pq);
        let pq := set_done_policies ps pq in
        if negb ok then Done (pq, [])
        else Done (set_sigs None pq,
                   [ResultCallback (pq_reqId pq) true (Some (q_query_read_set qr)) (q_query_result_hash qr)
                      (q_query_result qr) (pq_query_sigs pq) ps])
      else result_missing pq qr (default 0 (sm_process_id <$> qrr_signed_result msg))
  end.

Definition HandleQueryResult (msg : QueryResultReply) st : outcome QueryState :=
  match qs_pendingQueries st !! qrr_req_id msg with
  | None => Done st
  | Some pq =>
      if pq_done pq then Done st
      else
        oqr ← (if validateProofs && signedMessages
               then open_signed (qrr_signed_result msg) parse_result (λ qr, Some (q_replica_id qr))
               else Done (Some (qrr_result msg)));
        match oqr with
        | None => Done st
        | Some qr =>
            if negb (pq_eager_mode pq) && bool_decide (is_Some (q_local_ss qr)) then Done st
            else if negb (IsReplicaInGroup config (q_replica_id qr) group) then Done st
            else if bool_decide (q_replica_id qr ∈ rs_resultsVerified (pq_results pq)) then Done st
            else '(pq, o) ← process_result pq msg qr; Done (qs_emit o (qs_set (qrr_req_id msg) pq st))
        end
  end.

(** A failure names its replica; it is not compared with the signer. *)
Definition HandleFailQuery (msg : FailQuery) st : outcome QueryState :=
  match qs_pendingQueries st !! fq_req_id msg with
  | None => Done st
  | Some pq =>
      if pq_done pq then Done st
      else
        orid ← (if validateProofs && signedMessages
                then open_signed (fq_signed_fail msg) parse_fail (λ _, None)
                else Done (Some (fq_replica_id msg)));
        match orid with
        | None => Done st
        | Some rid =>
            let res := pq_results pq in
            if negb (IsReplicaInGroup config rid group) then Done st
            else if bool_decide (rid ∈ rs_resultsVerified res) then Done st
            else
              let res := mkResults (rs_numResults res) (u64 (rs_numFails res + 1)) ({[rid]} ∪ rs_resultsVerified res)
                           (rs_result_freq res) in
              let pq := set_results res pq in
              let maxWait := max_wait (pq_num_designated_replies pq)
                               (eagerExec || (optimisticTxID && negb (pq_retry_version pq =? 0))) in
              let '(pq, o) :=
                if (rs_numFails res =? f + 1) || (Z.of_nat (size (rs_resultsVerified res)) =? u64 maxWait)
                then fail_callback pq None "" "" else (pq, []) in
              Done (qs_emit o (qs_set (fq_req_id msg) pq st))
        end
  end.
End client.
