(* ===== verification/QueryClientSafety.v ===== *)
(** * What a query returns

    The steps of a shard client on its queries, in any order; an invariant of
    a pending query in terms of the replies that arrived for it; and what the
    replicas signed when a result is handed to the transaction. *)
From S2P Require Import Prelude OrderedSeq CppString Timestamp VersionStore Policy PolicyParse ServerState Quorum Reads Snapshot Digest QueryClient.

Section safety.
Variable config : Configuration.
Variable ser_cc : CCMsg → string.
Variable ser_p2 : P2Msg → string.
Variable Verify : Z → string → string → bool.
Variable blake3 : string → string.
Variable TransactionDigest : Transaction → digest.
Variable parse_result : string → option QueryResult.
Variable parse_local_ss : string → option LocalSnapshot.
Variable parse_fail : string → option Z.
Variable ser_policy : PolicyObject → string.
Variable p4nddec64 : string → Z → list Z.
Variables validateProofs signedMessages hideTimestamps cacheReadSet hash_queries : bool.
Variables eagerExec eagerPointExec eagerPlusSnapshot simulateFailEagerPlusSnapshot : bool.
Variables optimisticTxID compressOptimisticTxIDs : bool.
Variables syncQuorum queryMessages mergeThreshold syncMessages resultQuorum readMessages : Z.
Variables group client_id : Z.
Variable closestReplicas : list Z.

Notation send_closest := (send_closest closestReplicas).
Notation RequestQuery := (RequestQuery config cacheReadSet eagerExec eagerPointExec eagerPlusSnapshot optimisticTxID
  queryMessages syncMessages readMessages client_id closestReplicas).
Notation Query := (Query config blake3 cacheReadSet hash_queries eagerExec eagerPointExec eagerPlusSnapshot optimisticTxID
  queryMessages syncMessages readMessages client_id closestReplicas).
Notation RetryQuery := (RetryQuery config cacheReadSet eagerExec eagerPointExec eagerPlusSnapshot optimisticTxID
  queryMessages syncMessages readMessages client_id closestReplicas).
Notation SyncReplicas := (SyncReplicas config cacheReadSet eagerPlusSnapshot optimisticTxID syncMessages client_id closestReplicas).
Notation CheckSyncStart := (CheckSyncStart config cacheReadSet eagerPlusSnapshot optimisticTxID syncMessages client_id closestReplicas).
Notation ProcessSync := (ProcessSync config p4nddec64 cacheReadSet eagerPlusSnapshot optimisticTxID compressOptimisticTxIDs
  syncQuorum mergeThreshold syncMessages group client_id closestReplicas).
Notation HandleQuerySyncReply := (HandleQuerySyncReply config Verify parse_local_ss p4nddec64 validateProofs signedMessages
  cacheReadSet eagerPlusSnapshot optimisticTxID compressOptimisticTxIDs syncQuorum mergeThreshold syncMessages group client_id
  closestReplicas).
Notation count_result := (count_result config blake3 cacheReadSet resultQuorum group).
Notation result_missing := (result_missing config p4nddec64 validateProofs signedMessages cacheReadSet eagerExec eagerPlusSnapshot
  optimisticTxID compressOptimisticTxIDs syncQuorum queryMessages mergeThreshold syncMessages resultQuorum group client_id
  closestReplicas).
Notation process_result := (process_result config ser_cc ser_p2 Verify blake3 TransactionDigest ser_policy p4nddec64 validateProofs
  signedMessages hideTimestamps cacheReadSet eagerExec eagerPlusSnapshot simulateFailEagerPlusSnapshot optimisticTxID
  compressOptimisticTxIDs syncQuorum queryMessages mergeThreshold syncMessages resultQuorum group client_id closestReplicas).
Notation HandleQueryResult := (HandleQueryResult config ser_cc ser_p2 Verify blake3 TransactionDigest parse_result ser_policy
  p4nddec64 validateProofs signedMessages hideTimestamps cacheReadSet eagerExec eagerPlusSnapshot simulateFailEagerPlusSnapshot
  optimisticTxID compressOptimisticTxIDs syncQuorum queryMessages mergeThreshold syncMessages resultQuorum group client_id
  closestReplicas).
Notation HandleFailQuery := (HandleFailQuery config Verify parse_fail validateProofs signedMessages eagerExec optimisticTxID
  resultQuorum group).
Implicit Types (pq : PendingQuery) (st : QueryState).

(** ** Runs of a shard client *)

Inductive QueryEvent :=
| EvQuery (query_seq_num : Z) (q : QueryMsg) (is_point : bool)
| EvClear (query_seq_num : Z)
| EvRetry (query_seq_num : Z) (is_point : bool)
| EvSync (msg : SyncReply)
| EvResult (msg : QueryResultReply)
| EvFail (msg : FailQuery).
Definition query_step st (ev : QueryEvent) : outcome QueryState :=
  match ev with
  | EvQuery sn q b => Query sn q b st
  | EvClear sn => Done (ClearQuery sn st)
  | EvRetry sn b => RetryQuery sn b st
  | EvSync msg => HandleQuerySyncReply msg st
  | EvResult msg => HandleQueryResult msg st
  | EvFail msg => HandleFailQuery msg st
  end.
Definition query_run st (L : list QueryEvent) : outcome QueryState := foldO query_step st L.
Definition QueryState_new : QueryState := mkQS 0 ∅ ∅ [].

(** ** What a reply says *)

Definition open_result (msg : QueryResultReply) : outcome (option QueryResult) :=
  if validateProofs && signedMessages
  then open_signed Verify (qrr_signed_result msg) parse_result (λ qr, Some (q_replica_id qr))
  else Done (Some (qrr_result msg)).
(** The hash under which a result is counted. *)
Definition read_hash (qr : QueryResult) : string :=
  if cacheReadSet then q_query_result_hash qr
  else generateReadSetSingleHash blake3 (sort_reads (q_query_read_set qr)) false.
(** Replica [i] of the group answered request [id] with this result. *)
Definition voter (L : list QueryEvent) (id : Z) (h r : string) (i : Z) : Prop :=
  IsReplicaInGroup config i group = true ∧
  ∃ msg qr, EvResult msg ∈ L ∧ qrr_req_id msg = id ∧ open_result msg = Done (Some qr) ∧
    q_replica_id qr = i ∧ q_query_result qr = r ∧ read_hash qr = h.

(** The reply of a voter carries a signature of that replica on it. *)
Lemma open_result_signed msg qr :
  validateProofs && signedMessages = true → open_result msg = Done (Some qr) →
  ∃ sm, qrr_signed_result msg = Some sm ∧ sm_process_id sm = q_replica_id qr ∧ parse_result (sm_data sm) = Some qr ∧
    Verify (q_replica_id qr) (sm_data sm) (sm_signature sm) = true.
Proof.
  intros Hs. unfold open_result, open_signed. rewrite Hs.
  destruct (qrr_signed_result msg) as [sm|]; [|done].
  destruct (Verify (sm_process_id sm) (sm_data sm) (sm_signature sm)) eqn:Hv; cbn; [|done].
  intros Hp. injection Hp as Hp. destruct (parse_result (sm_data sm)) as [a|] eqn:Ha; [|done].
  destruct (q_replica_id a =? sm_process_id sm) eqn:He; simplify_eq.
  apply Z.eqb_eq in He. exists sm. by rewrite <- He in Hv.
Qed.

(** ** The invariant *)

Definition ResInv (L : list QueryEvent) (id : Z) (res : Results) : Prop :=
  ∀ h r, ∃ V : gset Z, V ⊆ rs_resultsVerified res ∧
    0 ≤ rm_freq (get_mgr h r (rs_result_freq res)) ≤ Z.of_nat (size V) ∧ set_Forall (voter L id h r) V.
Definition PQInv (L : list QueryEvent) (id : Z) pq : Prop := pq_reqId pq = id ∧ ResInv L id (pq_results pq).
(** Enough replicas answered with a result handed over. *)
Definition supported (L : list QueryEvent) (o : QueryOut) : Prop :=
  match o with
  | ResultCallback id true ors hash result _ _ =>
      ∃ rs (V : gset Z), ors = Some rs ∧ resultQuorum ≤ Z.of_nat (size V) ∧
        set_Forall (voter L id (if cacheReadSet then hash else generateReadSetSingleHash blake3 rs false) result) V
  | _ => True
  end.
Definition QInv (L : list QueryEvent) st : Prop :=
  map_Forall (PQInv L) (qs_pendingQueries st) ∧ Forall (supported L) (qs_out st).

Lemma voter_mono L L' id h r i : L ⊆ L' → voter L id h r i → voter L' id h r i.
Proof. intros Hs (? & msg & qr & ? & ?). split; [done|]. exists msg, qr. auto. Qed.
Lemma ResInv_mono L L' id res : L ⊆ L' → ResInv L id res → ResInv L' id res.
Proof.
  intros Hs I h r. destruct (I h r) as (V & ? & [? ?] & HV). exists V. split_and!; [done..|].
  intros i Hi. by eapply voter_mono, HV.
Qed.
Lemma supported_mono L L' o : L ⊆ L' → supported L o → supported L' o.
Proof.
  intros Hs. destruct o as [| |? [] ? ? ? ? ?]; try done. intros (rs & V & ? & ? & HV). exists rs, V.
  split_and!; [done..|]. intros i Hi. by eapply voter_mono, HV.
Qed.
Lemma QInv_mono L L' st : L ⊆ L' → QInv L st → QInv L' st.
Proof.
  intros Hs [I1 I2]. split.
  - intros id pq Hp. destruct (I1 id pq Hp) as [? ?]. split; [done|]. by eapply ResInv_mono.
  - eapply Forall_impl; [done|]. intros o. by apply supported_mono.
Qed.
Lemma ResInv_new L id : ResInv L id Results_new.
Proof. intros h r. exists ∅. unfold get_mgr. cbn. rewrite lookup_empty. cbn. rewrite lookup_empty. cbn. rewrite size_empty. set_solver. Qed.
#[local] Hint Resolve ResInv_new : core.

(** ** Steps that count nothing *)

(** The request is the same, and its results are kept or reset. *)
Definition keeps_results pq pq' : Prop :=
  pq_reqId pq' = pq_reqId pq ∧ (pq_results pq' = pq_results pq ∨ pq_results pq' = Results_new).
Definition quiet (o : list QueryOut) : Prop :=
  Forall (λ x, match x with ResultCallback _ ok _ _ _ _ _ => ok = false | _ => True end) o.

Lemma quiet_supported L o : quiet o → Forall (supported L) o.
Proof. intros. eapply Forall_impl; [done|]. intros [| |? []]; naive_solver. Qed.
Lemma keeps_PQInv L id pq pq' : keeps_results pq pq' → PQInv L id pq → PQInv L id pq'.
Proof. intros [H1 H2] [I1 I2]. split; [congruence|]. destruct H2 as [-> | ->]; auto. Qed.

Lemma send_closest_quiet mk total d o :
  (∀ r b, quiet [mk r b]) → send_closest mk total d = Done o → quiet o.
Proof.
  intros Hq Hs. unfold QueryClient.send_closest in Hs. inv_outcome.
  apply Forall_fmap, Forall_forall. intros [i r] _. specialize (Hq r (Z.of_nat i <? d)).
  by inversion Hq.
Qed.
Lemma RequestQuery_keeps pq pq' o : RequestQuery pq = Done (pq', o) →
  pq_reqId pq' = pq_reqId pq ∧ pq_results pq' = pq_results pq ∧ quiet o.
Proof.
  unfold QueryClient.RequestQuery. intros H. repeat (case_match; simplify_eq); inv_outcome; split_and!; try done;
    by (eapply send_closest_quiet; [|eassumption]; intros; repeat constructor).
Qed.
Lemma SyncReplicas_keeps pq pq' o : SyncReplicas pq = Done (pq', o) → keeps_results pq pq' ∧ quiet o.
Proof.
  unfold QueryClient.SyncReplicas. intros H. inv_outcome. split.
  - split; cbn; destruct eagerPlusSnapshot; cbn; auto.
  - eapply send_closest_quiet; [|eassumption]. intros; repeat constructor.
Qed.
Lemma CheckSyncStart_keeps pq pq' o : CheckSyncStart pq = Done (pq', o) → keeps_results pq pq' ∧ quiet o.
Proof.
  unfold QueryClient.CheckSyncStart. repeat case_match; intros; try by eapply SyncReplicas_keeps.
  all: inv_outcome; split; [split; auto|constructor].
Qed.
Lemma ProcessSync_keeps pq ls pq' o : ProcessSync pq ls = Done (pq', o) → keeps_results pq pq' ∧ quiet o.
Proof.
  unfold QueryClient.ProcessSync. repeat case_match; intros; try by eapply CheckSyncStart_keeps.
  1-2: inv_outcome; split; [split; auto|constructor].
  inv_outcome. case_match. by edestruct CheckSyncStart_keeps.
Qed.
Lemma result_missing_keeps pq qr signer pq' o :
  result_missing pq qr signer = Done (pq', o) → keeps_results pq pq' ∧ quiet o.
Proof.
  unfold QueryClient.result_missing. intros H.
  apply bind_Done in H as (_ & _ & H). apply bind_Done in H as (_ & _ & H).
  match type of H with (if ?b then _ else _) = _ => destruct b end.
  { case_match; unfold fail_callback in *; simplify_eq; (split; [split; auto|]); repeat constructor. }
  set (pq1 := if negb _ && _ then _ else pq) in H.
  assert (keeps_results pq pq1) as [Hk1 Hk2] by (subst pq1; destruct (negb _ && _); (split; [done|by left])).
  repeat case_match; inv_outcome; try (split; [split; auto|constructor]).
  edestruct ProcessSync_keeps as [[Hk3 Hk4] ?]; [eassumption|]. split; [|done].
  split; [congruence|]. destruct Hk4 as [-> | ->]; auto.
Qed.

(** ** Counting a result *)

Lemma get_put_mgr h r mgr m h' r' :
  get_mgr h' r' (put_mgr h r mgr m) = if decide (h' = h ∧ r' = r) then mgr else get_mgr h' r' m.
Proof.
  unfold get_mgr, put_mgr. destruct (decide (h' = h)) as [->|].
  - rewrite lookup_insert_eq. cbn. destruct (decide (r' = r)) as [->|].
    + by rewrite lookup_insert_eq, decide_True.
    + rewrite lookup_insert_ne, decide_False by naive_solver. done.
  - by rewrite lookup_insert_ne, decide_False by naive_solver.
Qed.
Lemma table_versions_instantiations q idx mins ps :
  pr_instantiations <$> (table_versions q idx mins ps).2 = pr_instantiations <$> ps.
Proof.
  revert idx mins. induction ps as [|p ps IH]; intros idx mins; [done|]. cbn.
  match goal with |- context [table_versions q ?i ?m ps] => specialize (IH i m); destruct (table_versions q i m ps) end.
  cbn in *. rewrite IH. by destruct q.
Qed.
(** Versions and dependencies are not part of the hash. *)
Lemma read_set_hash_ext (rs rs' : QueryReadSet) b :
  qr_read_set rs' = qr_read_set rs →
  (pr_instantiations <$> qr_read_predicates rs') = (pr_instantiations <$> qr_read_predicates rs) →
  generateReadSetSingleHash blake3 rs' b = generateReadSetSingleHash blake3 rs b.
Proof.
  intros Hr Hp. unfold generateReadSetSingleHash. rewrite Hr. do 3 f_equal.
  transitivity (concat ((λ l, concat l) <$> (pr_instantiations <$> qr_read_predicates rs'))); [by rewrite <- list_fmap_compose|].
  by rewrite Hp, <- list_fmap_compose.
Qed.

Lemma count_result_spec res eager qr res' freq qr' h :
  count_result res eager qr = Done (res', freq, qr', h) →
  h = read_hash qr ∧ rs_resultsVerified res' = rs_resultsVerified res ∧
  q_query_result qr' = q_query_result qr ∧ q_query_result_hash qr' = q_query_result_hash qr ∧
  freq = u64 (rm_freq (get_mgr h (q_query_result qr) (rs_result_freq res)) + 1) ∧
  (if cacheReadSet then q_query_result_hash qr' else generateReadSetSingleHash blake3 (q_query_read_set qr') false) = h ∧
  ∀ h' r', rm_freq (get_mgr h' r' (rs_result_freq res')) =
    if decide (h' = h ∧ r' = q_query_result qr) then freq else rm_freq (get_mgr h' r' (rs_result_freq res)).
Proof.
  unfold QueryClient.count_result, read_hash. destruct cacheReadSet; intros H.
  { inv_outcome. cbn. split_and!; try done. intros h' r'. rewrite get_put_mgr. repeat case_decide; naive_solver. }
  set (rs := sort_reads (q_query_read_set qr)) in *. set (h0 := generateReadSetSingleHash blake3 rs false) in *.
  set (old := get_mgr h0 _ _) in *. set (tv := if eager then _ else _) in H. set (fr := u64 (rm_freq old + 1)) in *.
  assert ((pr_instantiations <$> tv.2) = (pr_instantiations <$> qr_read_predicates rs)) as Htv.
  { subst tv. destruct eager; [apply table_versions_instantiations|done]. }
  clearbody tv. destruct tv as [mins preds]. inv_outcome. cbn. split_and!; try done.
  - apply read_set_hash_ext; done.
  - intros h' r'. rewrite get_put_mgr. repeat case_decide; naive_solver.
Qed.

(** One more replica, in the invariant. *)
Lemma ResInv_count L id res res' freq qr h :
  ResInv L id res → voter L id (read_hash qr) (q_query_result qr) (q_replica_id qr) →
  q_replica_id qr ∉ rs_resultsVerified res →
  h = read_hash qr →
  freq = u64 (rm_freq (get_mgr h (q_query_result qr) (rs_result_freq res)) + 1) →
  rs_resultsVerified res' = {[q_replica_id qr]} ∪ rs_resultsVerified res →
  (∀ h' r', rm_freq (get_mgr h' r' (rs_result_freq res')) =
    if decide (h' = h ∧ r' = q_query_result qr) then freq else rm_freq (get_mgr h' r' (rs_result_freq res))) →
  ResInv L id res'.
Proof.
  intros I Hv Hnew -> -> Hset Hget h' r'. rewrite Hget, Hset.
  destruct (I h' r') as (V & HV & [? ?] & Hall). case_decide as Hd.
  - destruct Hd as [-> ->]. exists ({[q_replica_id qr]} ∪ V). split_and!.
    + set_solver.
    + apply Z.mod_pos_bound. lia.
    + rewrite size_union, size_singleton by set_solver. unfold u64. etrans; [apply Z.mod_le; lia|]. lia.
    + apply set_Forall_union; [by apply set_Forall_singleton|done].
  - exists V. split_and!; [set_solver|done..].
Qed.

Lemma process_result_inv L id pq msg qr pq' o :
  PQInv L id pq → voter L id (read_hash qr) (q_query_result qr) (q_replica_id qr) →
  q_replica_id qr ∉ rs_resultsVerified (pq_results pq) → process_result pq msg qr = Done (pq', o) →
  PQInv L id pq' ∧ Forall (supported L) o.
Proof.
  intros [Hid I] Hv Hnew. unfold QueryClient.process_result. destruct (pq_query_sigs pq) as [sigs|]; [|done].
  intros H. apply bind_Done in H as ([[[res freq] qr'] h] & Hc & H).
  apply count_result_spec in Hc as (Hh & Hset & Hr & Hrh & Hf & Hhash & Hget). cbn in Hset, Hf, Hget.
  assert (ResInv L id res) as I' by (by eapply ResInv_count).
  match type of H with (if ?b then _ else _) = _ => destruct b eqn:Hb end.
  - apply bind_Done in H as ([ok ps] & _ & H). destruct ok; cbn in H; simplify_eq; (split; [done|]); [|constructor].
    apply Forall_singleton. cbn. apply andb_true_iff in Hb as [_ Hq%Z.eqb_eq].
    destruct (I' (read_hash qr) (q_query_result qr)) as (V & _ & [_ HV] & Hall).
    rewrite Hget, decide_True in HV by done. exists (q_query_read_set qr'), V.
    rewrite Hhash, Hr. split_and!; [done|lia|done].
  - apply result_missing_keeps in H as [Hk Hq]. split; [|by apply quiet_supported].
    by eapply keeps_PQInv.
Qed.

(** Replacing the query of a request, with output. *)
Lemma QInv_set L st id pq o :
  QInv L st → PQInv L id pq → Forall (supported L) o → QInv L (qs_emit o (qs_set id pq st)).
Proof.
  intros [I1 I2] Hp Ho. split; cbn.
  - by apply map_Forall_insert_2.
  - by apply Forall_app.
Qed.

Lemma HandleQueryResult_inv L msg st st' :
  QInv L st → EvResult msg ∈ L → HandleQueryResult msg st = Done st' → QInv L st'.
Proof.
  intros I Hin. unfold QueryClient.HandleQueryResult. destruct (_ !! _) as [pq|] eqn:Hp; [|by intros [= <-]].
  destruct (pq_done pq); [by intros [= <-]|].
  change (if validateProofs && signedMessages then _ else _) with (open_result msg).
  intros H. apply bind_Done in H as ([qr|] & Ho & H); [|by simplify_eq].
  destruct (negb (pq_eager_mode pq) && _); [by simplify_eq|].
  destruct (IsReplicaInGroup config (q_replica_id qr) group) eqn:Hg; cbn in H; [|by simplify_eq].
  case_bool_decide as Hnew; [by simplify_eq|].
  apply bind_Done in H as ([pq' o] & Hpr & H). simplify_eq.
  edestruct process_result_inv as [? ?]; [by apply (proj1 I _ _ Hp)| |exact Hnew|exact Hpr|].
  { split; [done|]. by exists msg, qr. }
  by apply QInv_set.
Qed.

Lemma HandleQuerySyncReply_inv L msg st st' :
  QInv L st → HandleQuerySyncReply msg st = Done st' → QInv L st'.
Proof.
  intros I. unfold QueryClient.HandleQuerySyncReply. destruct (_ !! _) as [pq|] eqn:Hp; [|by intros [= <-]].
  destruct (pq_done pq); [by intros [= <-]|].
  intros H. apply bind_Done in H as ([ls|] & _ & H); [|by simplify_eq].
  apply bind_Done in H as ([pq' o] & Hpr & H). simplify_eq.
  apply ProcessSync_keeps in Hpr as [? ?]. apply QInv_set; [done| |by apply quiet_supported].
  eapply keeps_PQInv; [done|]. by apply (proj1 I).
Qed.

Lemma HandleFailQuery_inv L msg st st' :
  QInv L st → HandleFailQuery msg st = Done st' → QInv L st'.
Proof.
  intros I. unfold QueryClient.HandleFailQuery. destruct (_ !! _) as [pq|] eqn:Hp; [|by intros [= <-]].
  destruct (pq_done pq); [by intros [= <-]|].
  intros H. apply bind_Done in H as ([rid|] & _ & H); [|by simplify_eq].
  destruct (negb _); [by simplify_eq|]. case_bool_decide; [by simplify_eq|].
  destruct (proj1 I _ _ Hp) as [Hid Hres].
  assert (∀ a b, ResInv L (fq_req_id msg) (mkResults a b ({[rid]} ∪ rs_resultsVerified (pq_results pq)) (rs_result_freq (pq_results pq)))) as Hres'.
  { intros a b h r. destruct (Hres h r) as (V & ? & ? & ?). exists V. split_and!; [set_solver|naive_solver..]. }
  case_match; simplify_eq.
  apply QInv_set; [done| |].
  - revert H1. unfold fail_callback. destruct (_ || _); intros [= <- <-]; (split; [done|apply Hres']).
  - revert H1. unfold fail_callback. destruct (_ || _); intros [= <- <-]; repeat constructor.
Qed.

Lemma query_step_inv L st ev st' : QInv L st → ev ∈ L → query_step st ev = Done st' → QInv L st'.
Proof.
  intros I Hin. destruct ev as [sn q b|sn|sn b|msg|msg|msg]; cbn.
  - unfold QueryClient.Query. intros H. apply bind_Done in H as ([pq o] & Hr & H). simplify_eq.
    apply RequestQuery_keeps in Hr as (Hid & Hres & Ho). destruct I as [I1 I2]. split; cbn.
    + apply map_Forall_insert_2; [|done]. split; [done|]. rewrite Hres. apply ResInv_new.
    + apply Forall_app. split; [done|]. by apply quiet_supported.
  - intros [= <-]. unfold ClearQuery. repeat case_match; try done. destruct I as [I1 I2]. split; [|done].
    by apply map_Forall_delete.
  - unfold QueryClient.RetryQuery. destruct (_ !! sn) as [old|]; [|done]. destruct (_ !! old) as [pq|] eqn:Hp; [|done].
    intros H. apply bind_Done in H as (_ & _ & H). apply bind_Done in H as ([pq' o] & Hr & H). simplify_eq.
    apply RequestQuery_keeps in Hr as (Hid & Hres & Ho). destruct I as [I1 I2]. split; cbn.
    + apply map_Forall_insert_2; [|by apply map_Forall_delete]. split; [done|]. rewrite Hres. apply ResInv_new.
    + apply Forall_app. split; [done|]. by apply quiet_supported.
  - by apply HandleQuerySyncReply_inv.
  - intros. by eapply HandleQueryResult_inv.
  - by apply HandleFailQuery_inv.
Qed.

(** C26: the support of a query result.  In any order of queries, retries,
    clears and arriving replies (late, duplicated, forged ones included), a result
    handed to the transaction under a request id was sent for that id, with the same
    result and a read set of the same hash, in the name of at least [resultQuorum]
    different ids that [IsReplicaInGroup] admits.  This check admits the replicas of
    every group, as it does not look at the group
    ([group_check_ignores_group]).  With both [validateProofs] and [signedMessages], each
    of these messages carries a signature that verifies under the key of the replica it
    names; otherwise messages are taken as they are. *)
Theorem query_result_supported L st id ors hash result sigs ps :
  query_run QueryState_new L = Done st →
  ResultCallback id true ors hash result sigs ps ∈ qs_out st →
  ∃ rs (V : gset Z), ors = Some rs ∧ resultQuorum ≤ Z.of_nat (size V) ∧
    ∀ i, i ∈ V → IsReplicaInGroup config i group = true ∧
      ∃ msg qr, EvResult msg ∈ L ∧ qrr_req_id msg = id ∧ q_replica_id qr = i ∧ q_query_result qr = result ∧
        read_hash qr = (if cacheReadSet then hash else generateReadSetSingleHash blake3 rs false) ∧
        (if validateProofs && signedMessages
         then ∃ sm, qrr_signed_result msg = Some sm ∧ sm_process_id sm = i ∧ parse_result (sm_data sm) = Some qr ∧
                Verify i (sm_data sm) (sm_signature sm) = true
         else qrr_result msg = qr).
Proof.
  intros Hrun Hin.
  assert (QInv L st) as [_ Ho].
  { eapply foldO_inv; [|split|exact Hrun]; [|apply map_Forall_empty|constructor].
    intros x ev y Hev I Hs. by eapply query_step_inv. }
  rewrite Forall_forall in Ho. destruct (Ho _ Hin) as (rs & V & -> & HV & Hall). exists rs, V.
  split_and!; [done..|]. intros i Hi. destruct (Hall i Hi) as (Hg & msg & qr & ? & ? & Hop & <- & ? & ?).
  split; [done|]. exists msg, qr. split_and!; try done. destruct (validateProofs && signedMessages) eqn:Hs.
  - by apply open_result_signed.
  - unfold open_result in Hop. rewrite Hs in Hop. by simplify_eq.
Qed.

(** ** Failures *)

(** A failure message for request [id] that names replica [i] and is signed
    by process [p]. *)
Definition fail_named (id p i : Z) (m : FailQuery) : Prop :=
  fq_req_id m = id ∧ ∃ sm, fq_signed_fail m = Some sm ∧ sm_process_id sm = p ∧
    Verify p (sm_data sm) (sm_signature sm) = true ∧ parse_fail (sm_data sm) = Some i.
Definition failed (id : Z) (o : list QueryOut) : Prop :=
  ∃ sigs ps, ResultCallback id false None "" "" sigs ps ∈ o.

Lemma HandleFailQuery_named id p i m st pq :
  validateProofs && signedMessages = true → fail_named id p i m →
  qs_pendingQueries st !! id = Some pq → pq_done pq = false →
  IsReplicaInGroup config i group = true → i ∉ rs_resultsVerified (pq_results pq) →
  ∃ st' pq', HandleFailQuery m st = Done st' ∧ qs_pendingQueries st' !! id = Some pq' ∧ pq_done pq' = false ∧
    pq_reqId pq' = pq_reqId pq ∧ rs_numFails (pq_results pq') = u64 (rs_numFails (pq_results pq) + 1) ∧
    rs_resultsVerified (pq_results pq') = {[i]} ∪ rs_resultsVerified (pq_results pq) ∧
    (failed (pq_reqId pq) (qs_out st) → failed (pq_reqId pq) (qs_out st')) ∧
    (rs_numFails (pq_results pq') = cf_f config + 1 → failed (pq_reqId pq) (qs_out st')).
Proof.
  intros Hs (Hid & sm & Hsm & Hp & Hv & Hpf) Hpq Hd Hg Hnew.
  unfold QueryClient.HandleFailQuery. rewrite Hid, Hpq, Hd, Hs. unfold open_signed. rewrite Hsm, Hp, Hv, Hpf. cbn.
  rewrite Hg, bool_decide_eq_false_2 by done. cbn.
  destruct (u64 (rs_numFails (pq_results pq) + 1) =? cf_f config + 1) eqn:Hq; cbn; [|destruct (_ =? u64 _)].
  all: eexists _, _; split; [reflexivity|]; cbn; rewrite lookup_insert_eq; split; [reflexivity|]; cbn; split_and!; try done.
  all: try (intros (sg & ps & ?); exists sg, ps; apply elem_of_app; by left).
  1: intros _; eexists _, _; apply elem_of_app; right; apply list_elem_of_singleton; reflexivity.
  all: intros ?; apply Z.eqb_neq in Hq; done.
Qed.

Lemma named_failures id p rids msgs st pq :
  validateProofs && signedMessages = true → qs_pendingQueries st !! id = Some pq → pq_done pq = false →
  0 ≤ rs_numFails (pq_results pq) → cf_f config < 2^63 →
  rs_numFails (pq_results pq) + Z.of_nat (length rids) = cf_f config + 1 → (rids ≠ [] ∨ failed (pq_reqId pq) (qs_out st)) →
  NoDup rids →
  Forall (λ i, IsReplicaInGroup config i group = true ∧ i ∉ rs_resultsVerified (pq_results pq)) rids →
  Forall2 (fail_named id p) rids msgs →
  ∃ st', foldO (λ st m, HandleFailQuery m st) st msgs = Done st' ∧ failed (pq_reqId pq) (qs_out st').
Proof.
  intros Hs Hpq Hd Hn0 Hf Hlen Hne Hnd Hall Hm. revert st pq Hpq Hd Hn0 Hlen Hne Hall.
  induction Hm as [|i m rids msgs Him Hm IH]; intros st pq Hpq Hd Hn0 Hlen Hne Hall.
  { exists st. split; [done|]. by destruct Hne. }
  apply NoDup_cons in Hnd as [Hni Hnd]. apply Forall_cons in Hall as [[Hg Hnew] Hall].
  destruct (HandleFailQuery_named id p i m st pq) as (st1 & pq1 & H1 & Hp1 & Hd1 & Hid1 & Hn1 & Hv1 & Ho1 & Hc1); try done.
  cbn in Hlen. assert (rs_numFails (pq_results pq1) = rs_numFails (pq_results pq) + 1) as Hn1'.
  { rewrite Hn1. unfold u64. rewrite Z.mod_small; lia. }
  edestruct (IH Hnd st1 pq1) as (st' & Hst' & Hfl); try done; [lia|lia| | |].
  - destruct rids; [|by left]. right. rewrite Hid1. apply Hc1. cbn in Hlen. lia.
  - rewrite Forall_forall in Hall |- *. intros j Hj. destruct (Hall j Hj) as [? ?]. split; [done|]. rewrite Hv1.
    apply not_elem_of_union. split; [|done]. intros ->%elem_of_singleton. done.
  - exists st'. cbn. rewrite H1. cbn. rewrite <- Hid1. done.
Qed.

(** A failure message names a replica, and the name is not compared with
    the signer: whoever holds one replica's key, or any key the verifier
    knows, ends a query that every correct replica would answer, by signing
    [f + 1] failures under the names of different replicas. *)
Theorem one_replica_fails_query id p rids msgs st pq :
  validateProofs && signedMessages = true → qs_pendingQueries st !! id = Some pq → pq_done pq = false →
  rs_numFails (pq_results pq) = 0 → 0 ≤ cf_f config < 2^63 →
  Z.of_nat (length rids) = cf_f config + 1 → NoDup rids →
  (∀ i, i ∈ rids → IsReplicaInGroup config i group = true ∧ i ∉ rs_resultsVerified (pq_results pq)) →
  Forall2 (fail_named id p) rids msgs →
  ∃ st' sigs ps, foldO (λ st m, HandleFailQuery m st) st msgs = Done st' ∧
    ResultCallback (pq_reqId pq) false None "" "" sigs ps ∈ qs_out st'.
Proof.
  intros Hs Hpq Hd Hn Hf Hlen Hnd Hall Hm.
  destruct (named_failures id p rids msgs st pq) as (st' & ? & sigs & ps & ?); try done; try lia.
  - left. intros ->. cbn in Hlen. lia.
  - by apply Forall_forall.
  - by exists st', sigs, ps.
Qed.

(** ** A query without an answer *)

Definition reply_to (id : Z) (ev : QueryEvent) : Prop :=
  match ev with
  | EvSync msg => sr_req_id msg = id
  | EvResult msg => qrr_req_id msg = id
  | EvFail msg => fq_req_id msg = id
  | _ => False
  end.
Lemma done_ignores id st pq L :
  qs_pendingQueries st !! id = Some pq → pq_done pq = true → Forall (reply_to id) L → query_run st L = Done st.
Proof.
  intros Hp Hd HL. unfold query_run. induction HL as [|ev L Hev HL IH]; [done|]. cbn.
  assert (query_step st ev = Done st) as ->; [|done].
  destruct ev; try done; cbn in *; subst id.
  - unfold QueryClient.HandleQuerySyncReply. by rewrite Hp, Hd.
  - unfold QueryClient.HandleQueryResult. by rewrite Hp, Hd.
  - unfold QueryClient.HandleFailQuery. by rewrite Hp, Hd.
Qed.

(** When the reply that completes the result quorum attaches a policy
    whose proof is not valid, the query is marked done but its callback is
    not called; it is not called by any later reply either, and the query
    cannot be retried. *)
Theorem unproven_policy_stalls_query msg st pq sigs qr res qr' h ps sn :
  let id := qrr_req_id msg in
  let res0 := pq_results pq in
  qs_pendingQueries st !! id = Some pq → pq_done pq = false → pq_query_sigs pq = Some sigs →
  open_result msg = Done (Some qr) → negb (pq_eager_mode pq) && bool_decide (is_Some (q_local_ss qr)) = false →
  IsReplicaInGroup config (q_replica_id qr) group = true → q_replica_id qr ∉ rs_resultsVerified res0 →
  count_result (mkResults (u64 (rs_numResults res0 + 1)) (rs_numFails res0) ({[q_replica_id qr]} ∪ rs_resultsVerified res0)
    (rs_result_freq res0)) (pq_eager_mode pq) qr = Done (res, resultQuorum, qr', h) →
  simulateFailEagerPlusSnapshot = false →
  query_policies config ser_cc ser_p2 Verify blake3 TransactionDigest ser_policy validateProofs signedMessages hideTimestamps
    (qrr_query_policy msg) (pq_queryPolicyMap pq) = Done (false, ps) →
  qs_query_seq_num_mapping st !! sn = Some id →
  ∃ st', HandleQueryResult msg st = Done st' ∧ qs_out st' = qs_out st ∧
    (∀ L, Forall (reply_to id) L → query_run st' L = Done st') ∧ ∀ b, RetryQuery sn b st' = Panic.
Proof.
  intros id res0 Hp Hd Hsg Hop He Hg Hnew Hc Hsim Hpol Hsn.
  set (pq1 := set_done_policies ps (set_results res (set_sigs (Some (sigs ++ [qrr_signed_result msg])) pq))).
  assert (HandleQueryResult msg st = Done (qs_emit [] (qs_set id pq1 st))) as Hst.
  { unfold QueryClient.HandleQueryResult. fold id. rewrite Hp, Hd.
    change (if validateProofs && signedMessages then _ else _) with (open_result msg). rewrite Hop. cbn.
    rewrite He, Hg, bool_decide_eq_false_2 by done. cbn.
    assert (process_result pq msg qr = Done (pq1, [])) as ->; [|done].
    unfold QueryClient.process_result. rewrite Hsg. fold res0.
    change (pq_eager_mode (set_sigs _ pq)) with (pq_eager_mode pq). rewrite Hc. cbn.
    rewrite Hsim, Z.eqb_refl. cbn. change (pq_queryPolicyMap (set_results _ _)) with (pq_queryPolicyMap pq).
    rewrite Hpol. done. }
  eexists. split; [exact Hst|]. split_and!.
  - cbn. apply app_nil_r.
  - intros L. eapply done_ignores; [apply lookup_insert_eq|done].
  - intros b. unfold QueryClient.RetryQuery. cbn. rewrite Hsn. cbn. rewrite lookup_insert_eq. done.
Qed.

(** ** Table versions *)

(** The version the read set of an eager query ends up with: its timestamp is
    the one the last replica sent, whatever the others sent, and its id is
    the smallest timestamp. *)
Lemma quorum_table_version idx mins ps i p :
  (table_versions true idx mins ps).2 !! i = Some p →
  ∃ p0, ps !! i = Some p0 ∧ timestamp (pr_table_version p) = timestamp (pr_table_version p0).
Proof.
  revert idx mins i. induction ps as [|p0 ps IH]; intros idx mins i; cbn; [by destruct i|].
  match goal with |- context [table_versions true ?a ?m ps] => specialize (IH a m); destruct (table_versions true a m ps) end.
  destruct i as [|i]; cbn; [|apply IH]. intros [= <-]. by exists p0.
Qed.
End safety.

Module QueryExample.
Import QuorumExample.
(** An eager query of one row; replicas [0] and [1] answer, and the signed
    bytes name their replica. *)
Definition answer (i : Z) : QueryResult :=
  mkQR i "row" "" (mkQRS [mkRead "k" (mkTs 5 7) false ""] [] [mkPred "t" (mkTs (4 + i) 9) [["a"]] [] None]) None.
Definition data (i : Z) : string := if i =? 0 then "0" else if i =? 1 then "1" else "2".
Definition number (s : string) : Z := if bool_decide (s = "0") then 0 else if bool_decide (s = "1") then 1 else 2.
Definition reply (i : Z) (ps : list QueryPolicy) : QueryResultReply :=
  mkQRR 0 (answer 9) (Some (mkSigned i (data i) "")) ps.
Definition fail (signer i : Z) : FailQuery := mkFail 0 9 (Some (mkSigned signer (data i) "")).
Definition the_query : QueryMsg := mkQueryMsg 3 1 "select" (mkTs 20 3) 0.
(** The key of replica [2] signs everything; the others sign their own. *)
Definition Verify_own (pid : Z) (d _ : string) : bool := (pid =? 2) || bool_decide (d = data pid).
Notation run := (query_run config ser_cc ser_p2 Verify_own (λ s, s) (λ _, "") (λ s, Some (answer (number s))) (λ _, None)
  (λ s, Some (number s)) (λ _, "") (λ _ _, []) true true false false true true true false false false false
  3 3 2 3 2 3 0 3 [0; 1; 2; 3; 4; 5]).

Definition asked : QueryState := match run QueryState_new [EvQuery 1 the_query false] with Done st => st | Panic => QueryState_new end.
Definition pending : PendingQuery := default (PendingQuery_new 0 0 "" false) (qs_pendingQueries asked !! 0).
(** The result handed over. *)
Definition handed : QueryOut :=
  ResultCallback 0 true (Some (mkQRS [mkRead "k" (mkTs 5 7) false ""] [] [mkPred "t" (mkTs 5 4) [["a"]] [] None])) "" "row"
    (Some [qrr_signed_result (reply 0 []); qrr_signed_result (reply 1 [])]) ∅.
Definition events : list QueryEvent := [EvQuery 1 the_query false; EvResult (reply 0 []); EvResult (reply 0 []); EvResult (reply 1 [])].

Lemma query_result_supported_witness :
  ∃ st, run QueryState_new events = Done st ∧ handed ∈ qs_out st ∧
    ∃ rs (V : gset Z), Some (mkQRS [mkRead "k" (mkTs 5 7) false ""] [] [mkPred "t" (mkTs 5 4) [["a"]] [] None]) = Some rs ∧
      2 ≤ Z.of_nat (size V) ∧ ∀ i, i ∈ V → IsReplicaInGroup config i 0 = true.
Proof.
  destruct (run QueryState_new events) as [st|] eqn:Hrun; [|vm_compute in Hrun; discriminate].
  exists st. split; [done|].
  assert (handed ∈ qs_out st) as Hin.
  { vm_compute in Hrun. injection Hrun as <-. cbn. do 3 right. left. }
  split; [exact Hin|].
  destruct (query_result_supported config ser_cc ser_p2 Verify_own (λ s, s) (λ _, "") (λ s, Some (answer (number s))) (λ _, None)
    (λ s, Some (number s)) (λ _, "") (λ _ _, []) true true false false true true true false false false false
    3 3 2 3 2 3 0 3 [0; 1; 2; 3; 4; 5] events st 0 _ _ _ _ _ Hrun Hin) as (rs & V & ? & ? & HV).
  exists rs, V. split; [done|]. split; [done|]. intros i Hi. apply (HV i Hi).
Defined.

(** Replica [2] signs a failure of its own and one of replica [1]. *)
Lemma one_replica_fails_query_witness :
  ∃ st' sigs ps, foldO (λ st m, HandleFailQuery config Verify_own (λ s, Some (number s)) true true true false 2 0 m st)
      asked [fail 2 1; fail 2 2] = Done st' ∧
    ResultCallback (pq_reqId pending) false None "" "" sigs ps ∈ qs_out st'.
Proof.
  apply (one_replica_fails_query config Verify_own (λ s, Some (number s)) true true true false 2 0 0 2 [1; 2]
    [fail 2 1; fail 2 2] asked pending).
  - reflexivity.
  - vm_compute. reflexivity.
  - vm_compute. reflexivity.
  - vm_compute. reflexivity.
  - vm_compute. split; congruence.
  - vm_compute. reflexivity.
  - apply NoDup_cons; split; [set_solver|]. apply NoDup_singleton.
  - intros i Hi. rewrite !elem_of_cons, elem_of_nil in Hi. destruct Hi as [->|[->|[]]]; (split; [vm_compute; reflexivity|]).
    all: vm_compute; intros H; discriminate H.
  - repeat constructor; eexists; split_and!; reflexivity.
Defined.

(** A policy without a certificate. *)
Definition bad_policy : QueryPolicy :=
  mkQP (mkEPM "p" (mkPolicyObject WEIGHT_POLICY "0")) (mkTs 1 1) (mkProof (reader 1) None).
Definition half : QueryState :=
  match run asked [EvResult (reply 0 [])] with Done st => st | Panic => QueryState_new end.
Definition half_pending : PendingQuery := default pending (qs_pendingQueries half !! 0).

Lemma unproven_policy_stalls_query_witness :
  ∃ st', HandleQueryResult config ser_cc ser_p2 Verify_own (λ s, s) (λ _, "") (λ s, Some (answer (number s))) (λ _, "")
      (λ _ _, []) true true false false true false false false false 3 3 2 3 2 0 3 [0; 1; 2; 3; 4; 5] (reply 1 [bad_policy]) half = Done st' ∧
    qs_out st' = qs_out half ∧
    (∀ L, Forall (reply_to 0) L → run st' L = Done st') ∧
    ∀ b, RetryQuery config false true true false false 3 3 3 3 [0; 1; 2; 3; 4; 5] 1 b st' = Panic.
Proof.
  eapply (unproven_policy_stalls_query config ser_cc ser_p2 Verify_own (λ s, s) (λ _, "") (λ s, Some (answer (number s))) (λ _, None)
    (λ s, Some (number s)) (λ _, "") (λ _ _, []) true true false false true true true false false false false
    3 3 2 3 2 3 0 3 [0; 1; 2; 3; 4; 5] (reply 1 [bad_policy]) half half_pending _ (answer 1)).
  1-5: vm_compute; reflexivity.
  - vm_compute. reflexivity.
  - vm_compute. intros H. discriminate H.
  - vm_compute. reflexivity.
  - reflexivity.
  - vm_compute. reflexivity.
  - vm_compute. reflexivity.
Defined.
End QueryExample.
