(* ===== verification/Phase1.v ===== *)
(** * Reception of phase 1

    How a replica takes up a transaction: [HandlePhase1] and
    [HandlePhase1FB] (src/src/store/sintrstore/server.cc and
    server_fallback.cc), the validation of the client's proposal and the
    dispatch of [TryPrepare] and [TryExec] (servertools.cc).  Work handed to
    other threads is a list of tasks that run later, in any order.  The
    gossip of a message to other replicas, crash simulation and the memory
    of messages are left out. *)
From S2P Require Import Prelude OrderedSeq CppString Timestamp VersionStore Policy PolicyParse ServerState ServerTxn MVTSO Endorse AsyncPrepare Quorum AsyncVerify Phase2 Fallback Snapshot Digest.

(** ** Messages *)

(** With signed proposals the transaction is in the signed bytes. *)
Record Phase1 := mkP1Msg {
  p1_req_id : Z;
  p1_txn : Transaction;
  p1_signed_txn : SignedMessage;
  p1_replica_gossip : bool
}.
Record Phase1FB := mkP1FBMsg {
  pf_req_id : Z;
  pf_client_id : Z;
  pf_txn : Transaction;
  pf_signed_txn : SignedMessage
}.

(** Work for another thread, or for the main thread later. *)
Inductive task :=
| CheckProposal (sm : SignedMessage) (reqId remote : Z) (p : ptr) (d oldTxnDigest : digest) (isGossip : bool)
| StartPrepare (reqId remote : Z) (p : ptr) (d oldTxnDigest : digest) (isGossip : bool)
| RunPrepare (reqId remote : Z) (p : ptr) (d oldTxnDigest : digest) (isGossip : bool)
| CheckProposalFB (sm : SignedMessage) (reqId remote : Z) (d : digest) (p : ptr)
| RunExec (reqId remote : Z) (d : digest) (p : ptr)
| FinishP2 (c : p2call) (v : validation).

(** When something runs: the clock, and the endorsement checks that complete
    before, during and after the concurrency control. *)
Record sched := mkSched { sc_now : Z; sc_before : list SignedMessage; sc_during : list SignedMessage; sc_after : list SignedMessage }.

Section phase1.
Context `{E : Env}.
Variable config : Configuration.
Variable ser_cc : CCMsg → string.
Variable ser_p2 : P2Msg → string.
Variable Verify : Z → string → string → bool.
(** The digest, with and without the endorsements. *)
Variable TransactionDigest : bool → Transaction → digest.
Variable blake3 : string → string.
Variable parse_txn : string → Transaction.
Variable parse_write : string → PreparedWrite.
(** The write a dependency names and the replies that support it. *)
Variable dep_evidence : Dependency → option (PreparedWrite * list SignedMessage).
Variables hashEndorsements optimisticTxID parallel_CCC : bool.
Variable readDepSize : Z.
Variable iter : list Policy → list Policy.
Implicit Types (s : server) (d : digest) (p : ptr).

(** The server, and the transactions by their merged timestamps. *)
Record replica := mkReplica { rp_server : server; ts_to_tx : gmap Z digest }.
Implicit Types (r : replica).
Definition upd_server (f : server → server) r : replica := mkReplica (f (rp_server r)) (ts_to_tx r).

(** ** Ongoing transactions *)

(** Two transactions with one timestamp are a [Panic]. *)
Definition RegisterTxTS d ts (m : gmap Z digest) : outcome (gmap Z digest) :=
  if negb optimisticTxID then Done m
  else
    k ← MergeTimestampId (timestamp ts) (ts_id ts);
    match m !! k with
    | Some d' => if bool_decide (d' = d) then Done m else Panic
    | None => Done (<[k := d]> m)
    end.

(** The transaction of a message becomes an object of its own, which knows its
    digest. *)
Definition alloc_txn d (t : Transaction) s : ptr * server :=
  let p := base.fresh (dom (heap s) : gset ptr) in
  (p, upd_heap (insert p (set_txndigest d t)) s).
Definition AddOngoing_txn d (t : Transaction) r : outcome (replica * ptr) :=
  m ← RegisterTxTS d (t_timestamp t) (ts_to_tx r);
  let '(p, s) := alloc_txn d t (rp_server r) in
  Done (mkReplica (AddOngoing s d p) m, p).

(** Removing a transaction that is there ends in a [Panic]. *)
Definition RemoveOngoing s d : outcome server :=
  match ongoing s !! d with None => Done s | Some _ => Panic end.

(** ** The validity of a proposal *)

Fixpoint verify_deps (ds : list Dependency) : outcome bool :=
  match ds with
  | [] => Done true
  | dep :: ds' =>
      match dep_evidence dep with
      | None => Done false
      | Some (w, msgs) =>
          ok ← ValidateDependency Verify parse_write w readDepSize msgs;
          if ok : bool then verify_deps ds' else Done false
      end
  end.
Definition VerifyDependencies (t : Transaction) : outcome bool := verify_deps (deps t).

Definition set_signed (m : P1MetaData) : P1MetaData :=
  mkP1Meta (pm_reqId m) (pm_result m) (pm_conflict m) (pm_hasP1 m) true (pm_sub_original m) (pm_original m)
    (pm_fallbacks_interested m) (pm_forceMaterialize m) (pm_alreadyForceMaterialized m).

(** The client of the timestamp signed the bytes; the signed proposal is kept
    for relays. *)
Definition VerifyClientProposal s d (t : Transaction) (sm : SignedMessage) : server * bool :=
  if negb (ts_id (t_timestamp t) =? sm_process_id sm) then (s, false)
  else if negb (verify_client (sm_process_id sm) (sm_data sm) (sm_signature sm)) then (s, false)
  else (upd_p1MetaData (λ m, <[d := set_signed (default P1MetaData_init (m !! d))]> m) s, true).

Definition CheckProposalValidity s d (t : Transaction) (sm : SignedMessage) : outcome (server * bool) :=
  ok ← (if validateProofs && signedMessages && verifyDeps then VerifyDependencies t else Done true);
  if negb ok then Done (s, false)
  else if signClientProposals then Done (VerifyClientProposal s d t sm)
  else Done (s, true).

(** ** TryPrepare *)

(** The digest the endorsers signed. *)
Definition endorsed_digest (t : Transaction) (oldTxnDigest : digest) : digest :=
  PolicyVersionDigest blake3 t (if decide (oldTxnDigest = "") then TransactionDigest false t else oldTxnDigest) "".

(** The part on the main thread.  Both digests are passed by reference; when
    they are one string ([alias]), the transaction goes on under the digest
    the endorsers signed. *)
Definition TryPrepare_main s (sc : sched) (reqId remote : Z) p d (oldTxnDigest : digest) (alias isGossip : bool) :
    outcome (server * list task) :=
  let s := touch_p2 s d in
  t ← deref s p;
  let old := endorsed_digest t oldTxnDigest in
  let d := if alias then old else d in
  if parallel_CCC && mainThreadDispatching then Done (s, [RunPrepare reqId remote p d old isGossip])
  else
    s ← TryPrepare iter false s (sc_now sc) reqId remote d old p isGossip false (sc_before sc) (sc_during sc) (sc_after sc);
    Done (s, []).

(** ** Proposals of clients *)

Definition ProcessProposal r (sc : sched) (msg : Phase1) (remote : Z) (t : Transaction) d (oldTxnDigest : digest)
    (alias isGossip : bool) : outcome (replica * list task) :=
  '(r, p) ← AddOngoing_txn d t r;
  if negb (multiThreading && signClientProposals) then
    '(s, ok) ← CheckProposalValidity (rp_server r) d t (p1_signed_txn msg);
    if negb ok then s ← RemoveOngoing s d; Done (mkReplica s (ts_to_tx r), [])
    else
      '(s, ts) ← TryPrepare_main s sc (p1_req_id msg) remote p d oldTxnDigest alias isGossip;
      Done (mkReplica s (ts_to_tx r), ts)
  else Done (r, [CheckProposal (p1_signed_txn msg) (p1_req_id msg) remote p d oldTxnDigest isGossip]).

(** A message that overtook this one is handled in its stead. *)
Definition handle_oo s (o : ooMsg) : outcome (server * list task) :=
  let later (x : server * p2pending) := (x.1, (λ c, FinishP2 c.1 c.2) <$> x.2) in
  match o with
  | OoP2 remote m =>
      x ← HandlePhase2 config ser_cc Verify (TransactionDigest hashEndorsements) s remote m; Done (later x)
  | OoWb remote m =>
      x ← HandleWriteback config ser_cc ser_p2 Verify (TransactionDigest hashEndorsements) s remote m; Done (later x)
  end.

(** A result that is known: a waiting client subscribes, another gets a
    reply. *)
Definition known_result s (reqId remote : Z) (t : Transaction) d (m : P1MetaData) : outcome server :=
  match pm_result m with
  | WAIT =>
      let s := upd_p1MetaData (insert d (SubscribeOriginal (Some remote) reqId m)) s in
      Done (ManageDependencies s d t remote reqId false false).2
  | IGNORE => Done s
  | ABORT =>
      _ ← uw_assert (negb (pm_conflict m =? null));
      Done (emit (Phase1Reply reqId ABORT (pm_conflict m) d (Some remote) None false false) s)
  | result => Done (emit (Phase1Reply reqId result null d (Some remote) None false false) s)
  end.

Definition HandlePhase1 r (sc : sched) (remote : Z) (msg : Phase1) : outcome (replica * list task) :=
  let t := if signClientProposals then parse_txn (sm_data (p1_signed_txn msg)) else p1_txn msg in
  let plain := TransactionDigest false t in
  let with_endorsements := hashEndorsements && negb (bool_decide (endorsements t = [])) in
  let d := if with_endorsements then TransactionDigest true t else plain in
  (** [oldTxnDigest] has been moved from when it is the digest. *)
  let oldTxnDigest := if hashEndorsements then (if with_endorsements then plain else "") else d in
  let s := rp_server r in
  let reply result := Done (upd_server (emit (Phase1Reply (p1_req_id msg) result null d (Some remote) None false false)) r, []) in
  match ooMessages s !! d with
  | Some o =>
      '(r, _) ← AddOngoing_txn d t r;
      '(s, ts) ← handle_oo (rp_server r) o;
      Done (mkReplica (upd_ooMessages (delete d) s) (ts_to_tx r), ts)
  | None =>
      let m := default P1MetaData_init (p1MetaData s !! d) in
      if pm_hasP1 m then
        if p1_replica_gossip msg then Done (r, [])
        else s ← known_result s (p1_req_id msg) remote t d m; Done (mkReplica s (ts_to_tx r), [])
      else if is_committed s d then reply COMMIT
      else if is_aborted s d then reply ABSTAIN
      else ProcessProposal r sc msg remote t d oldTxnDigest (negb hashEndorsements) (p1_replica_gossip msg)
  end.

(** ** Proposals relayed by fallback clients *)

(** On the main thread the proposal is checked twice, the second time as if
    the message were a [Phase1]; with signed proposals that reads an object
    of another type, which is undefined. *)
Definition ProcessProposalFB r (sc : sched) (msg : Phase1FB) (remote : Z) d (t : Transaction) :
    outcome (replica * list task) :=
  '(r, p) ← AddOngoing_txn d t r;
  if negb (multiThreading && signClientProposals) then
    '(s, ok) ← CheckProposalValidity (rp_server r) d t (pf_signed_txn msg);
    if negb ok then s ← RemoveOngoing s d; Done (mkReplica s (ts_to_tx r), [])
    else
      _ ← uw_assert (negb signClientProposals);
      '(s, ok) ← CheckProposalValidity s d t (pf_signed_txn msg);
      if negb ok then Done (mkReplica s (ts_to_tx r), [])
      else
        s ← TryExec s (sc_now sc) remote (pf_req_id msg) d p;
        Done (mkReplica s (ts_to_tx r), [])
  else Done (r, [CheckProposalFB (pf_signed_txn msg) (pf_req_id msg) remote d p]).

(** Fallback clients that wait for a result. *)
Definition wait_fallback s d (t : Transaction) (remote : Z) (m : P1MetaData) : server :=
  let s := upd_p1MetaData (insert d (SubscribeAllInterestedFallbacks m)) s in
  (ManageDependencies s d t remote 0 true false).2.

(** The cases of [HandlePhase1FB] by what is stored: both phases, phase 1,
    phase 2, nothing. *)
Definition fb_both s (reqId remote : Z) d (t : Transaction) (m : P1MetaData) (p2 : P2Part) : outcome server :=
  '(s, p1) ← (if bool_decide (pm_result m ≠ WAIT)
              then p1 ← SetP1 s (pm_result m) (pm_conflict m) None; Done (s, Some p1)
              else Done (wait_fallback s d t remote m, None));
  Done (SendPhase1FBReply s reqId d p1 (Some p2) {[0 := remote]}).
Definition fb_only_p1 s (reqId remote : Z) d (t : Transaction) (m : P1MetaData) : outcome server :=
  if bool_decide (pm_result m ≠ WAIT)
  then p1 ← SetP1 s (pm_result m) (pm_conflict m) None; Done (SendPhase1FBReply s reqId d (Some p1) None {[0 := remote]})
  else Done (wait_fallback s d t remote m).
Definition fb_only_p2 r (sc : sched) (reqId remote : Z) d (t : Transaction) (p2 : P2Part) : outcome replica :=
  ok ← VerifyDependencies t;
  if negb ok then Done r
  else
    '(r, p) ← AddOngoing_txn d t r;
    '(s, res) ← ExecP1 (rp_server r) (sc_now sc) remote reqId d p;
    p1 ← (match res with
          | Some (result, conflict, abstain) => p1 ← SetP1 s result conflict abstain; Done (Some p1)
          | None => Done None
          end);
    Done (mkReplica (SendPhase1FBReply s reqId d p1 (Some p2) {[0 := remote]}) (ts_to_tx r)).

Definition HandlePhase1FB r (sc : sched) (remote : Z) (msg : Phase1FB) : outcome (replica * list task) :=
  let t := if signClientProposals then parse_txn (sm_data (pf_signed_txn msg)) else pf_txn msg in
  let d := TransactionDigest hashEndorsements t in
  let reqId := pf_req_id msg in
  '(s, forwarded) ← ForwardWriteback (rp_server r) remote reqId d;
  if forwarded : bool then Done (mkReplica s (ts_to_tx r), [])
  else
    let s := upd_interestedClients (λ m, <[d := <[pf_client_id msg := remote]> (default ∅ (m !! d))]> m) s in
    let m := default P1MetaData_init (p1MetaData s !! d) in
    let s := touch_p2 s d in
    let p2 := mkP2Part (p2m_p2Decision (p2_meta s d)) (p2m_decision_view (p2_meta s d)) in
    match pm_hasP1 m, p2m_hasP2 (p2_meta s d) with
    | true, true => s ← fb_both s reqId remote d t m p2; Done (mkReplica s (ts_to_tx r), [])
    | true, false => s ← fb_only_p1 s reqId remote d t m; Done (mkReplica s (ts_to_tx r), [])
    | false, true => r ← fb_only_p2 (mkReplica s (ts_to_tx r)) sc reqId remote d t p2; Done (r, [])
    | false, false => ProcessProposalFB (mkReplica s (ts_to_tx r)) sc msg remote d t
    end.

(** ** Tasks *)

Definition run_task s (sc : sched) (tk : task) (valid : bool) : outcome (server * list task) :=
  match tk with
  | CheckProposal sm reqId remote p d old isGossip =>
      t ← deref s p;
      '(s, ok) ← CheckProposalValidity s d t sm;
      if negb ok then s ← RemoveOngoing s d; Done (s, [])
      else Done (s, [StartPrepare reqId remote p d old isGossip])
  | StartPrepare reqId remote p d old isGossip => TryPrepare_main s sc reqId remote p d old false isGossip
  | RunPrepare reqId remote p d old isGossip =>
      s ← TryPrepare iter true s (sc_now sc) reqId remote d old p isGossip false (sc_before sc) (sc_during sc) (sc_after sc);
      Done (s, [])
  | CheckProposalFB sm reqId remote d p =>
      t ← deref s p;
      '(s, ok) ← CheckProposalValidity s d t sm;
      if negb ok then s ← RemoveOngoing s d; Done (s, [])
      else Done (s, [RunExec reqId remote d p])
  | RunExec reqId remote d p => s ← TryExec s (sc_now sc) remote reqId d p; Done (s, [])
  | FinishP2 c _ => s ← run_p2call s c valid; Done (s, [])
  end.
End phase1.
