(* ===== verification/Phase1Votes.v ===== *)
(** * One vote per transaction

    A replica sends its phase-1 vote in many places: after its own check, when
    a dependency finishes, to fallback clients, from worker threads.  While a
    transaction is unfinished all of them send the stored result, which does
    not change once it is one. *)
From S2P Require Import Prelude OrderedSeq CppString Timestamp VersionStore Policy PolicyParse ServerState DemoEnv ServerTxn MVTSO Endorse AsyncPrepare Quorum AsyncVerify Phase2 Fallback Snapshot Digest Phase1.

Section votes.
Context `{E : Env}.
Implicit Types (s : server) (d : digest) (p : ptr).

(** The vote in a message. *)
Definition p1_vote (e : event) : option (digest * Result) :=
  match e with
  | Phase1Reply _ r _ d _ _ _ _ => Some (d, r)
  | Phase1FBReply _ d (Some p1) _ _ _ => Some (d, p1p_result p1)
  | _ => None
  end.

(** The vote stands: it is the stored one, or the transaction is finished. *)
Definition stands s d (r : Result) : Prop := LookupP1Decision s d = Some r ∨ finished s d = true.
Definition underway s d : Prop := is_Some (ongoing s !! d) ∨ finished s d = true.

(** What a step may do. *)
Record vkeeps s s' : Prop := {
  vk_finished : ∀ d, finished s d = true → finished s' d = true;
  vk_underway : ∀ d, underway s d → underway s' d;
  vk_stands : ∀ d r, LookupP1Decision s d = Some r → stands s' d r;
  vk_out : ∀ e, e ∈ out s' → e ∈ out s ∨ ∀ d r, p1_vote e = Some (d, r) → stands s' d r
}.
Lemma stands_keeps s s' d r : vkeeps s s' → stands s d r → stands s' d r.
Proof. intros K [H|H]; [by eapply vk_stands|right; by eapply vk_finished]. Qed.
#[global] Instance vkeeps_preorder : PreOrder vkeeps.
Proof.
  split.
  - intros s. split; try done; [by left|by left].
  - intros s1 s2 s3 K1 K2. split.
    + intros d H. by apply K2, K1.
    + intros d H. by apply K2, K1.
    + intros d r H. eapply stands_keeps; [done|]. by eapply vk_stands.
    + intros e He. destruct (vk_out _ _ K2 e He) as [He'|]; [|by right].
      destruct (vk_out _ _ K1 e He') as [|Hv]; [by left|]. right. intros d r Hd. apply (stands_keeps s2 s3); auto.
Qed.

(** Steps that leave all of it alone. *)
Definition vpart s := (p1MetaData s, ongoing s, committed s, aborted s).
Definition vsame s s' : Prop := vpart s' = vpart s ∧ ∀ e, e ∈ out s' → e ∈ out s ∨ p1_vote e = None.
#[global] Instance vsame_preorder : PreOrder vsame.
Proof.
  split; [intros s; split; auto|]. intros s1 s2 s3 [A1 B1] [A2 B2]. split; [congruence|].
  intros e He. destruct (B2 e He) as [He'|]; [by apply B1|by right].
Qed.
Lemma vsame_keeps s s' : vsame s s' → vkeeps s s'.
Proof.
  intros [[= Hm Ho Hc Ha] Hout]. unfold underway, stands.
  assert (∀ d, finished s' d = finished s d) as Hf by (intros d; unfold finished, is_committed, is_aborted; by rewrite Hc, Ha).
  split.
  - intros d. by rewrite Hf.
  - intros d. unfold underway. by rewrite Hf, Ho.
  - intros d r H. left. unfold LookupP1Decision. by rewrite Hm.
  - intros e He. destruct (Hout e He) as [|Hv]; [by left|]. right. intros d r Hd. by rewrite Hv in Hd.
Qed.
(** A step that changes other fields only. *)
Lemma vsame_upd s s' : vpart s' = vpart s → out s' = out s → vsame s s'.
Proof. intros Hv Ho. split; [done|]. intros e. rewrite Ho. auto. Qed.
Lemma vsame_emit e s : p1_vote e = None → vsame s (emit e s).
Proof.
  intros He. split; [done|]. intros e'. cbn. rewrite elem_of_app, list_elem_of_singleton. intros [?| ->]; auto.
Qed.
Lemma vsame_foldl {A} (f : server → A → server) l s : (∀ s a, vsame s (f s a)) → vsame s (foldl f s l).
Proof. intros Hf. revert s. induction l as [|a l IH]; intros s; [done|]. cbn. etrans; [apply Hf|apply IH]. Qed.
Ltac vs := first [reflexivity | by apply vsame_upd | by apply vsame_emit | by apply vsame_keeps, vsame_upd | by apply vsame_keeps, vsame_emit].
(** A transaction that is finished. *)
Lemma stands_emit e s d r : p1_vote e = Some (d, r) → stands s d r → vkeeps s (emit e s).
Proof.
  intros He Hst. split; try done; [by left|].
  intros e'. cbn. rewrite elem_of_app, list_elem_of_singleton. intros [?| ->]; [by left|].
  right. intros d' r' Hd. rewrite He in Hd. by simplify_eq.
Qed.

(** ** Concurrency control *)

Lemma mergeTxReadSets_vsame s d p s' r x : mergeTxReadSets s d p = Done (s', r, x) → vsame s s'.
Proof. unfold mergeTxReadSets. intros (txn & _ & H)%bind_Done. repeat case_match; simplify_eq; vs. Qed.
Lemma Prepare_vsame s d p rs irs s' : Prepare s d p rs irs = Done s' → vsame s s'.
Proof.
  unfold Prepare. intros (txn & _ & H)%bind_Done. destruct (drop_prepare d txn s) as [dropped s1] eqn:Hd.
  assert (vsame s s1) as H1 by (unfold drop_prepare in Hd; repeat case_match; simplify_eq; vs).
  destruct dropped; [by simplify_eq|]. destruct (ongoing s1 !! d) as [q|]; [|by simplify_eq].
  apply bind_Done in H as (t & _ & H). apply bind_Done in H as (_ & _ & H).
  destruct (prepared s1 !! d); [by simplify_eq|]. apply bind_Done in H as (s2 & H2 & H). simplify_eq.
  etrans; [exact H1|]. clear H1. etrans; [|by destruct disable_prepare_visibility; vs].
  set (s3 := foldl (prepare_write _ _ _) _ _) in H2.
  assert (vsame s1 s3) as H3.
  { etrans; [|apply vsame_foldl; intros s0 w; unfold prepare_write; repeat case_match; vs].
    etrans; [|apply vsame_foldl; intros s0 w; vs].
    etrans; [|apply vsame_foldl; intros s0 w; unfold prepare_read; repeat case_match; vs]. vs. }
  etrans; [exact H3|]. destruct useSemanticCC; [|by simplify_eq]. apply bind_Done in H2 as (? & _ & H2). simplify_eq. vs.
Qed.
Lemma manage_loop_vsame s ds d rem rq fb g nw al ms b s' ms' :
  manage_loop s ds d rem rq fb g nw al ms = (b, s', ms') → vsame s s'.
Proof.
  revert s al ms. induction ds as [|dep ds IH]; intros s al ms H; cbn in H; [by simplify_eq|].
  destruct (negb _); [by eapply IH|].
  destruct (RegisterWaitingTxn _ _ _ _ _ _ _ _ _) as [[fin s1] ms1] eqn:Hr. etrans; [|by eapply IH].
  unfold RegisterWaitingTxn in Hr. destruct (_ && _) in Hr; simplify_eq; [|done].
  set (s0 := if nw then _ else s). trans s0; [subst s0; destruct nw; vs|]. destruct (negb no_fallback && negb g); vs.
Qed.
Lemma ManageDependencies_vsame s d t rem rq fb g : vsame s (ManageDependencies s d t rem rq fb g).2.
Proof.
  unfold ManageDependencies, ManageDependencies_set. destruct (maxDepDepth >? -2); [|done].
  destruct (manage_loop _ _ _ _ _ _ _ _ _ _) as [[al s1] ms] eqn:Hm. apply manage_loop_vsame in Hm.
  destruct (negb al); [|done]. etrans; [exact Hm|]. vs.
Qed.
Lemma dependency_stage_vsame s d p rem rq fb g s' r : dependency_stage s d p rem rq fb g = Done (s', r) → vsame s s'.
Proof.
  unfold dependency_stage. intros (t & _ & H)%bind_Done. pose proof (ManageDependencies_vsame s d t rem rq fb g) as Hm.
  destruct (ManageDependencies _ _ _ _ _ _ _) as [al s1]. destruct al; by simplify_eq.
Qed.
Lemma check_policy_vsame w id ts w' ov : check_policy w id ts = Done (w', ov) → vsame (wl_s w) (wl_s w').
Proof.
  unfold check_policy. case_bool_decide as Hb; [by intros [= <- <-]|]. intros ([[s impl] o] & Hp & H)%bind_Done.
  assert (vsame (wl_s w) s) as Hs.
  { unfold policyCheckHelper in Hp. apply bind_Done in Hp as (q & _ & Hp). destruct q; [by simplify_eq|].
    destruct (getUpperBound _ _ _). repeat case_match; simplify_eq; vs. }
  destruct o; by simplify_eq.
Qed.
Lemma check_write_conflicts_vsame s ts w s' ov : check_write_conflicts s ts w = Done (s', ov) → vsame s s'.
Proof.
  unfold check_write_conflicts. intros (o & _ & H)%bind_Done. destruct o; [by simplify_eq|].
  apply bind_Done in H as (o & _ & H). destruct o; [by simplify_eq|]. injection H as H.
  unfold check_rts in H. repeat case_match; simplify_eq; vs.
Qed.
Lemma check_write_vsame pt ts w x w' ov : check_write pt ts w x = Done (w', ov) → vsame (wl_s w) (wl_s w').
Proof.
  unfold check_write. destruct (w_is_table_col_version x); [by intros [= <- <-]|].
  destruct (_ && _); [by intros [= <- <-]|]. intros ([w1 o] & Hp & H)%bind_Done.
  assert (vsame (wl_s w) (wl_s w1)) as H1.
  { destruct pt; [destruct policyCCC; [|by simplify_eq]|]; by eapply check_policy_vsame. }
  etrans; [exact H1|]. destruct o; [by simplify_eq|]. apply bind_Done in H as ([s2 o2] & Hc & H). simplify_eq.
  by eapply check_write_conflicts_vsame.
Qed.
Lemma check_writes_vsame pt ts ws w w' ov : check_writes pt ts w ws = Done (w', ov) → vsame (wl_s w) (wl_s w').
Proof.
  revert w. induction ws as [|x ws IH]; intros w H; cbn in H; [by simplify_eq|].
  apply bind_Done in H as ([w1 o] & Hc & H). etrans; [by eapply check_write_vsame|]. destruct o; [by simplify_eq|by eapply IH].
Qed.
Lemma occ_checks_vsame s now d p rs ds ps s' r : occ_checks s now d p rs ds ps = Done (s', r) → vsame s s'.
Proof.
  unfold occ_checks. intros (t & _ & H)%bind_Done. destruct (CheckHighWatermark _ _); [by simplify_eq|].
  destruct (_ && _ && _); [by simplify_eq|]. apply bind_Done in H as (_ & _ & H). apply bind_Done in H as (ov & _ & H).
  destruct ov; [by simplify_eq|]. apply bind_Done in H as ([w o] & Hw & H). apply check_writes_vsame in Hw. cbn in Hw.
  destruct o; [by simplify_eq|]. case_bool_decide; [by simplify_eq|]. destruct useSemanticCC; [|by simplify_eq].
  destruct (CheckPredicates _ _ _ _ _) as [res dyn]. case_bool_decide; [by simplify_eq|].
  apply bind_Done in H as (s1 & Ha & H). simplify_eq. etrans; [exact Hw|].
  unfold add_dynamic_deps in Ha. destruct (filter _ dyn); [by simplify_eq|]. apply bind_Done in Ha as (t1 & _ & Ha). simplify_eq. vs.
Qed.
Lemma DoMVTSOOCCCheck_vsame s now d p rs ds ps rem rq fb g cb s' v dl :
  DoMVTSOOCCCheck s now d p rs ds ps rem rq fb g cb = Done (s', v, dl) → vsame s s'.
Proof.
  unfold DoMVTSOOCCCheck. intros ([[s1 early] cp] & H1 & H)%bind_Done.
  assert (vsame s s1) as Hs1.
  { case_bool_decide; [by simplify_eq|]. apply bind_Done in H1 as ([s2 r] & Ho & H1). apply occ_checks_vsame in Ho.
    etrans; [exact Ho|]. destruct r; [by simplify_eq|]. destruct sync_prepare; [|by simplify_eq].
    apply bind_Done in H1 as (s3 & Hp & H1). simplify_eq. by eapply Prepare_vsame. }
  etrans; [exact Hs1|]. destruct early; [by simplify_eq|]. destruct (_ || _).
  - apply bind_Done in H as ([s2 r] & Hd & H). simplify_eq. by eapply dependency_stage_vsame.
  - apply bind_Done in H as (_ & _ & H). by simplify_eq.
Qed.
Lemma run_delayed_vsame s d p rem rq g dl s' r : run_delayed s d p rem rq g dl = Done (s', r) → vsame s s'.
Proof.
  unfold run_delayed. intros (s1 & H1 & H)%bind_Done. etrans; [|by eapply dependency_stage_vsame].
  destruct (dl_prepare dl) as [[rs irs]|]; [by eapply Prepare_vsame|by simplify_eq].
Qed.

(** ** Finishing a transaction *)

Lemma clean_prepared_vpart s d a h s' : clean_prepared s d a h = Done s' → vpart s' = vpart s ∧ out s' = out s.
Proof.
  unfold clean_prepared. destruct (prepared s !! d) as [[ts p]|]; [|by intros [= ->]].
  intros (txn & _ & H)%bind_Done. simplify_eq.
  assert (∀ {A} (f : server → A → server) l s0, (∀ s0 x, (vpart (f s0 x), out (f s0 x)) = (vpart s0, out s0)) →
            (vpart (foldl f s0 l), out (foldl f s0 l)) = (vpart s0, out s0)) as Hfold.
  { intros A f l s0 Hf. revert s0. induction l as [|x l IH]; intros s0; [done|]. cbn. by rewrite IH, Hf. }
  set (s1 := foldl (clean_read p) s _). set (s2 := foldl _ s1 _). set (s3 := foldl _ s2 _).
  assert ((vpart s3, out s3) = (vpart s, out s)) as [= Hp1 Hp2 Hp3 Hp4 Ho].
  { etrans; [apply Hfold|etrans; [apply Hfold|apply Hfold]].
    - intros s0 x. unfold clean_write. by case_match.
    - done.
    - intros s0 x. unfold clean_read. repeat case_match; done. }
  unfold vpart. destruct (a || h); cbn; by rewrite Hp1, Hp2, Hp3, Hp4.
Qed.
Lemma Clean_parts s d a h s' :
  Clean s d a h = Done s' →
  (∀ x r, LookupP1Decision s x = Some r → LookupP1Decision s' x = Some r ∨ (h = true ∧ x = d)) ∧
  (∀ x, x ≠ d → ongoing s' !! x = ongoing s !! x) ∧ committed s' = committed s ∧
  aborted s' = (if bool_decide (is_Some (ongoing s !! d)) && h then {[d]} ∪ aborted s else aborted s) ∧ out s' = out s.
Proof.
  unfold Clean. intros (s2 & Hc & H)%bind_Done. apply clean_prepared_vpart in Hc as [[= Hp Hg Hcm Ha] Ho].
  assert (p1MetaData s2 = p1MetaData s ∧ committed s2 = committed s ∧ out s2 = out s ∧
    (∀ x, x ≠ d → ongoing s2 !! x = ongoing s !! x) ∧
    aborted s2 = (if bool_decide (is_Some (ongoing s !! d)) && h then {[d]} ∪ aborted s else aborted s)) as (Hp' & Hc' & Ho' & Hg' & Ha').
  { rewrite Hp, Hcm, Ho, Hg, Ha. destruct (bool_decide _), h; cbn; split_and!; try done; intros x Hx; by rewrite lookup_delete_ne. }
  clear Hp Hg Hcm Ha Ho. injection H as <-. split_and!.
  - intros x r Hl. destruct (decide (x = d)) as [->|Hne]; [destruct h; [by right|]|]; left; revert Hl; unfold LookupP1Decision; cbn.
    + rewrite lookup_alter_eq, Hp'. by destruct (p1MetaData s !! d).
    + destruct h; cbn; rewrite ?lookup_delete_ne, lookup_alter_ne, Hp' by done; done.
  - intros x Hx. destruct h; by apply Hg'.
  - by destruct h.
  - by destruct h.
  - by destruct h.
Qed.
Lemma Clean_keeps s d a (h : bool) s' :
  (if h then underway s d else finished s d = true) → Clean s d a h = Done s' → vkeeps s s'.
Proof.
  intros Hd H. apply Clean_parts in H as (Hl & Hg & Hc & Ha & Ho).
  assert (∀ x, finished s x = true → finished s' x = true) as Hf.
  { intros x. unfold finished, is_committed, is_aborted. rewrite Hc, Ha, !orb_true_iff, !bool_decide_eq_true.
    case_match; set_solver. }
  assert (finished s' d = true) as Hfd.
  { destruct h; [|by apply Hf]. destruct Hd as [Hon|]; [|by apply Hf].
    rewrite bool_decide_eq_true_2 in Ha by done. unfold finished, is_aborted. rewrite Ha, orb_true_iff, !bool_decide_eq_true.
    right. set_solver. }
  split.
  - done.
  - intros x [Hx|Hx]; [|right; by apply Hf]. destruct (decide (x = d)) as [->|Hne]; [by right|]. left. by rewrite Hg.
  - intros x r Hx. destruct (Hl x r Hx) as [|[_ ->]]; [by left|by right].
  - intros e. rewrite Ho. by left.
Qed.

Lemma set_meta_keeps s d m :
  (∀ r, LookupP1Decision s d = Some r → LookupP1Decision (upd_p1MetaData (insert d m) s) d = Some r) →
  vkeeps s (upd_p1MetaData (insert d m) s).
Proof.
  intros Hm. split; try done; [|by left]. intros x r Hx. left. destruct (decide (x = d)) as [->|Hne]; [auto|].
  revert Hx. unfold LookupP1Decision. cbn. by rewrite lookup_insert_ne by done.
Qed.

(** The buffered result: stored, unless it is WAIT. *)
Lemma buffer_entry_spec m r c q rem w f g fb m' b :
  buffer_entry m r c q rem w f g fb = (m', b) →
  (pm_hasP1 m = true → pm_result m ≠ WAIT → pm_hasP1 m' = true ∧ pm_result m' = pm_result m) ∧
  (b_result b ≠ WAIT → pm_hasP1 m' = true ∧ pm_result m' = b_result b) ∧
  (b_original_sub b = true → b_result b ≠ WAIT) ∧ (b_wake_fallbacks b = true → w = true ∨ b_result b ≠ WAIT).
Proof.
  unfold buffer_entry. intros H. destruct m as [? res ? has ? ? ? ? ? ?].
  destruct has; cbn in H; repeat (case_bool_decide; cbn in H); repeat case_match; simplify_eq; cbn; split_and!; intros; try done;
    try (destruct w; naive_solver); cbn in *; try (by repeat case_match; simplify_eq; naive_solver).
Qed.
Lemma BufferP1Result_keeps s r c d q rem w f g fb s' b :
  (r = IGNORE → underway s d) → BufferP1Result s r c d q rem w f g fb = Done (s', b) →
  vkeeps s s' ∧ (r ≠ IGNORE → b_result b ≠ WAIT → LookupP1Decision s' d = Some (b_result b)) ∧
  (b_original_sub b = true → r ≠ IGNORE ∧ b_result b ≠ WAIT) ∧
  (r ≠ IGNORE → b_wake_fallbacks b = true → w = true ∨ b_result b ≠ WAIT).
Proof.
  intros Hu. unfold BufferP1Result. case_bool_decide as Hr.
  { intros (s1 & Hc & H)%bind_Done. simplify_eq. split_and!; try done. eapply Clean_keeps; [|done]. cbn. auto. }
  destruct (buffer_entry _ _ _ _ _ _ _ _ _) as [m b'] eqn:Hb. apply buffer_entry_spec in Hb as (B1 & B2 & B3 & B4).
  intros [= <- <-]. split_and!.
  - apply set_meta_keeps. intros x. unfold LookupP1Decision. cbn. rewrite lookup_insert_eq.
    destruct (p1MetaData s !! d) as [m0|]; [|done]. cbn in B1.
    destruct (pm_hasP1 m0), (decide (pm_result m0 = WAIT)) as [Hw|Hw]; cbn;
      rewrite ?bool_decide_eq_false_2, ?bool_decide_eq_true_2 by (intros ?; done); try done.
    destruct B1 as [-> ->]; [done..|]. by rewrite bool_decide_eq_true_2.
  - intros _ Hw. destruct (B2 Hw) as [Hh Hs]. unfold LookupP1Decision. cbn. rewrite lookup_insert_eq, Hh, Hs.
    by rewrite bool_decide_eq_true_2.
  - auto.
  - auto.
Qed.

Lemma ForwardWritebackMulti_vsame s d cl s' b : ForwardWritebackMulti s d cl = Done (s', b) → vsame s s'.
Proof.
  unfold ForwardWritebackMulti. intros (ow & _ & H)%bind_Done. destruct ow; simplify_eq; [|done].
  etrans; [|by apply vsame_upd]. apply vsame_foldl. intros. vs.
Qed.
Lemma ForwardWriteback_vsame s rem q d s' b : ForwardWriteback s rem q d = Done (s', b) → vsame s s'.
Proof. unfold ForwardWriteback. intros (ow & _ & H)%bind_Done. destruct ow; simplify_eq; vs. Qed.
Lemma SetP1_result s r c ac x : SetP1 s r c ac = Done x → p1p_result x = r.
Proof. unfold SetP1. intros (_ & _ & H)%bind_Done. apply bind_Done in H as (a & _ & H). by simplify_eq. Qed.
(** A reply to fallback clients, with a vote that stands or without one. *)
Lemma SendPhase1FBReply_keeps s q d o1 o2 rem :
  (∀ x, o1 = Some x → stands s d (p1p_result x)) → vkeeps s (SendPhase1FBReply s q d o1 o2 rem).
Proof.
  intros Hp. unfold SendPhase1FBReply. destruct o1 as [x|]; [|vs]. eapply stands_emit; [done|]. by apply Hp.
Qed.
Lemma WakeAll_keeps s d r c s' : stands s d r → WakeAllInterestedFallbacks s d r c = Done s' → vkeeps s s'.
Proof.
  intros Hst. unfold WakeAllInterestedFallbacks. destruct (interestedClients s !! d) as [cl|]; [|by intros [= ->]].
  intros ([s1 fw] & Hf & H)%bind_Done. apply ForwardWritebackMulti_vsame, vsame_keeps in Hf.
  etrans; [exact Hf|]. destruct fw; [by simplify_eq|]. apply bind_Done in H as (p1 & Hp & H). simplify_eq.
  trans (touch_p2 s1 d); [vs|]. apply SendPhase1FBReply_keeps. intros x [= <-].
  rewrite (SetP1_result _ _ _ _ _ Hp). apply (stands_keeps s); [|done]. etrans; [exact Hf|vs].
Qed.
Lemma CheckDependencies_vote s d r : CheckDependencies s d = Done r → r = COMMIT ∨ r = ABSTAIN.
Proof.
  unfold CheckDependencies. destruct (ongoing s !! d); [|repeat case_match; naive_solver].
  intros (t & _ & H)%bind_Done. simplify_eq. unfold CheckDependencies_txn. induction (dep_set t) as [|x l IH]; cbn; [auto|].
  repeat case_match; auto.
Qed.
(** A result that is recorded and sent. *)
Lemma reply_keeps s d r (b : bool) e : p1_vote e = Some (d, r) → (b = true → stands s d r) → vkeeps s (if b then emit e s else s).
Proof. intros He Hst. destruct b; [|done]. apply (stands_emit _ _ d r); auto. Qed.

Lemma wake_dependent_keeps d s x s' : wake_dependent d s x = Done s' → vkeeps s s'.
Proof.
  unfold wake_dependent. destruct (waitingDependencies s !! x) as [w|]; [|by intros [= ->]].
  set (s0 := upd_waitingDependencies _ s). case_bool_decide; [|intros [= <-]; subst s0; vs].
  intros (r & Hr & H1)%bind_Done. apply CheckDependencies_vote in Hr.
  apply bind_Done in H1 as (_ & _ & H1). apply bind_Done in H1 as ([s2 b] & Hb & H1).
  apply bind_Done in H1 as (s3 & Hw & H1). simplify_eq.
  assert (r ≠ IGNORE) as Hi by naive_solver. assert (b_result b ≠ WAIT) as Hnw.
  { unfold BufferP1Result in Hb. rewrite bool_decide_eq_false_2 in Hb by done.
    destruct (buffer_entry _ _ _ _ _ _ _ _ _) as [m b'] eqn:He. simplify_eq. unfold buffer_entry in He.
    destruct Hr as [-> | ->]; cbn in He; repeat case_match; simplify_eq; cbn; try done;
      repeat (case_bool_decide; simplify_eq; cbn in *); try done. }
  apply BufferP1Result_keeps in Hb as (K1 & K2 & K3 & _); [|done].
  assert (stands s2 x (b_result b)) as Hst by (left; auto).
  trans s0; [subst s0; vs|]. etrans; [exact K1|].
  assert (∀ e, p1_vote e = Some (x, b_result b) → vkeeps s2 (if b_original_sub b then emit e s2 else s2)) as Ke by (intros; by eapply reply_keeps).
  eapply WakeAll_keeps in Hw; [|by eapply stands_keeps; [apply Ke|]].
  etrans; [|etrans; [exact Hw|vs]]. by apply Ke.
Qed.
Lemma CheckDependents_keeps s d s' : CheckDependents s d = Done s' → vkeeps s s'.
Proof.
  unfold CheckDependents. destruct (dependents s !! d); [|by intros [= ->]].
  intros (s1 & Hf & H)%bind_Done. simplify_eq. trans s1; [|vs].
  eapply (foldO_inv (λ y, vkeeps s y)); [|reflexivity|exact Hf].
  intros y x z _ Hy Hz. etrans; [exact Hy|]. by eapply wake_dependent_keeps.
Qed.

Lemma UpdateCommittedReads_vsame s p d ts pr s' : UpdateCommittedReads s p d ts pr = Done s' → vsame s s'.
Proof.
  unfold UpdateCommittedReads. intros ([[s1 r] [[rs ds] ps]] & Hm & H)%bind_Done.
  apply bind_Done in H as (txn & _ & H). simplify_eq. etrans; [by eapply mergeTxReadSets_vsame|].
  etrans; [|apply vsame_foldl; intros; vs]. apply vsame_foldl. intros s2 a. case_match; vs.
Qed.
Lemma commit_writes_vsame txn d ts pr s v ws s' ov : commit_writes txn d ts pr s v ws = Done (s', ov) → vsame s s'.
Proof.
  revert s v. induction ws as [|w ws IH]; intros s v H; cbn in H; [by simplify_eq|].
  destruct (w_is_table_col_version w); [by eapply IH|]. destruct (policy_type txn); [|simplify_eq; vs].
  destruct (negb _); [by eapply IH|]. apply bind_Done in H as (v1 & _ & H).
  apply bind_Done in H as (_ & _ & H). apply bind_Done in H as (_ & _ & H).
  etrans; [|by eapply IH]. unfold drop_rts_from. repeat case_match; vs.
Qed.
Lemma CommitToStore_vsame s pr p d ts v s' : CommitToStore s pr p d ts v = Done s' → vsame s s'.
Proof.
  unfold CommitToStore. intros (s1 & Hu & H)%bind_Done. apply bind_Done in H as (txn & _ & H).
  apply bind_Done in H as ([s2 ov] & Hw & H). etrans; [by eapply UpdateCommittedReads_vsame|].
  etrans; [by eapply commit_writes_vsame|]. destruct ov; simplify_eq; [|done]. destruct useSemanticCC; vs.
Qed.
(** More finished transactions, the rest alone. *)
Lemma more_finished s s' :
  p1MetaData s' = p1MetaData s → ongoing s' = ongoing s → out s' = out s →
  (∀ d, finished s d = true → finished s' d = true) → vkeeps s s'.
Proof.
  intros Hm Hg Ho Hf. split; [done| | |].
  - intros d [H|H]; [left; by rewrite Hg|right; auto].
  - intros d r H. left. unfold LookupP1Decision. by rewrite Hm.
  - intros e. rewrite Ho. by left.
Qed.
Lemma finish_commit_keeps s pr p d ts v s' :
  finished s d = true → finish_commit s pr p d ts v = Done s' → vkeeps s s'.
Proof.
  intros Hf. unfold finish_commit. intros (s1 & H1 & H)%bind_Done. apply bind_Done in H as (s2 & H2 & H).
  apply bind_Done in H as (s3 & H3 & H). simplify_eq. apply CommitToStore_vsame, vsame_keeps in H1.
  apply Clean_keeps in H2; [|by apply H1]. apply CheckDependents_keeps in H3.
  etrans; [exact H1|]. etrans; [exact H2|]. etrans; [exact H3|].
  trans (CleanDependencies s3 d); vs.
Qed.
Lemma Commit_keeps s d p g b v s' : Commit s d p g b v = Done s' → vkeeps s s'.
Proof.
  unfold Commit. intros (txn & _ & H)%bind_Done. unfold insert_committed in H.
  destruct (committed s !! d) eqn:Hc; apply bind_Done in H as (_ & _ & H); cbn [andb] in H; [by simplify_eq|].
  match type of H with finish_commit ?s1 _ _ _ _ _ = _ => assert (vkeeps s s1 ∧ finished s1 d = true) as [K Hf] end;
    [|etrans; [exact K|by eapply finish_commit_keeps]].
  set (pr := if validateProofs then _ else _).
  assert (vkeeps s (upd_committed (insert d pr) s) ∧ finished (upd_committed (insert d pr) s) d = true) as [K1 F1].
  { split.
    - apply more_finished; try done. intros x. unfold finished, is_committed, is_aborted. cbn.
      rewrite !orb_true_iff, !bool_decide_eq_true. destruct (decide (x = d)) as [->|]; [|by rewrite lookup_insert_ne].
      rewrite lookup_insert_eq. intros _. left. by eexists.
    - unfold finished, is_committed. cbn. rewrite lookup_insert_eq. done. }
  destruct (validateProofs && signedMessages); [|done]. split; [|done]. etrans; [exact K1|]. vs.
Qed.
Lemma Abort_keeps s d p s' : Abort s d p = Done s' → vkeeps s s'.
Proof.
  unfold Abort. intros (s2 & H2 & H)%bind_Done. apply bind_Done in H as (s3 & H3 & H).
  apply bind_Done in H as (txn & _ & H). simplify_eq.
  set (s1 := upd_aborted _ s) in H2.
  assert (vkeeps s s1) as K1.
  { apply more_finished; try done. intros x. unfold finished, is_committed, is_aborted. cbn.
    rewrite !orb_true_iff, !bool_decide_eq_true. set_solver. }
  apply Clean_keeps in H2; [|cbn; unfold finished, is_aborted; cbn; rewrite orb_true_iff, !bool_decide_eq_true; set_solver].
  apply CheckDependents_keeps in H3. etrans; [exact K1|]. etrans; [exact H2|]. etrans; [exact H3|].
  apply vsame_keeps. set (s4 := ClearRTS _ _ _). assert (vsame s3 s4) as H4.
  { trans (CleanDependencies s3 d); [vs|]. subst s4. unfold ClearRTS. repeat case_match; try done. apply vsame_foldl. intros. vs. }
  etrans; [exact H4|]. trans (emit (CleanQueriesCall d false) s4); [vs|]. etrans; [|by apply vsame_emit].
  destruct useSemanticCC; vs.
Qed.
Lemma DoOCCCheck_keeps s now d p rem rq fb g cb s' v dl :
  DoOCCCheck s now d p rem rq fb g cb = Done (s', v, dl) → vkeeps s s'.
Proof.
  unfold DoOCCCheck. intros (_ & _ & H)%bind_Done. apply bind_Done in H as (t & _ & H).
  apply bind_Done in H as (_ & _ & H). apply bind_Done in H as ([[s1 r] [[rs ds] ps]] & Hm & H).
  apply mergeTxReadSets_vsame, vsame_keeps in Hm. etrans; [exact Hm|]. case_bool_decide; [by simplify_eq|].
  apply bind_Done in H as ([[s2 v2] dl2] & Hd & H). apply DoMVTSOOCCCheck_vsame, vsame_keeps in Hd.
  etrans; [exact Hd|]. case_bool_decide; [|by simplify_eq]. apply bind_Done in H as (_ & _ & H).
  apply bind_Done in H as (cp & _ & H). apply bind_Done in H as (s3 & Ha & H). simplify_eq.
  etrans; [|by eapply Abort_keeps]. vs.
Qed.

(** ** Phase 1 *)

Lemma HandlePhase1CB_keeps q d p rem g f r pr ac fl tm s s' :
  HandlePhase1CB q d p rem g f r pr ac fl tm s = Done s' → vkeeps s s'.
Proof.
  unfold HandlePhase1CB. case_bool_decide as Hr; [by intros [= ->]|]. intros ([s1 b] & Hb & H)%bind_Done.
  apply BufferP1Result_keeps in Hb as (K1 & K2 & K3 & K4); [|done].
  apply bind_Done in H as (s2 & Hw & H). simplify_eq. etrans; [exact K1|].
  assert (b_result b ≠ WAIT → stands s1 d (b_result b)) as Hst by (intros; left; auto).
  set (send := _ || _) in Hw.
  assert (send = true → stands s1 d (b_result b)) as Hsend.
  { subst send. rewrite orb_true_iff, andb_true_iff, bool_decide_eq_true. intros [[? _]|?]; apply Hst; [done|by apply K3]. }
  set (s3 := if send then _ else s1) in Hw. assert (vkeeps s1 s3) as K5 by (by eapply reply_keeps).
  assert (vkeeps s3 s2) as K6.
  { destruct (b_wake_fallbacks b) eqn:Hwk; [|by simplify_eq]. eapply WakeAll_keeps; [|done].
    apply (stands_keeps s1); [done|]. apply Hst. destruct K4 as [|?]; done. }
  etrans; [exact K5|]. etrans; [exact K6|]. destruct (b_forceMaterialize b); vs.
Qed.
Lemma still_ongoing_keeps q d rem s s' b : still_ongoing q d rem s = Done (s', b) → vkeeps s s'.
Proof.
  unfold still_ongoing. destruct (ongoing s !! d); [by intros [= -> _]|].
  destruct (is_committed s d) eqn:Hc; [|destruct (is_aborted s d) eqn:Ha; [|done]]; intros [= <- _];
    (eapply stands_emit; [done|]); right; unfold finished; by rewrite ?Hc, ?Ha, ?orb_true_r.
Qed.

(** A callback or a delayed prepare that keeps votes. *)
Definition cb_keeps (cb : Result → proof → option ptr → bool → bool → server → outcome server) : Prop :=
  ∀ r pr ac fl tm s s', cb r pr ac fl tm s = Done s' → vkeeps s s'.
Definition dl_keeps (o : option (server → outcome (server * Result))) : Prop :=
  ∀ f s s' r, o = Some f → f s = Done (s', r) → vkeeps s s'.

Lemma answer_keeps cb a s s' a' :
  cb_keeps cb → dl_keeps (av_delay_prepare_cb a) → answer cb a s = Done (s', a') →
  vkeeps s s' ∧ av_delay_prepare_cb a' = av_delay_prepare_cb a.
Proof.
  intros Hcb Hdl. unfold answer. destruct (_ >=? 0).
  - intros ([s1 r] & H1 & H)%bind_Done. apply bind_Done in H as (s2 & H2 & H). simplify_eq. split; [|done].
    etrans; [|by eapply Hcb]. destruct (av_delay_prepare_cb a) eqn:Hd; [by eapply Hdl|by simplify_eq].
  - intros (s2 & H2 & H)%bind_Done. simplify_eq. split; [|done]. by eapply Hcb.
Qed.
Lemma do_call_keeps cb c a s s' a' b :
  cb_keeps cb → dl_keeps (av_delay_prepare_cb a) → (∀ cc, c = CallCC cc → dl_keeps (cc_cb cc)) →
  do_call cb c a s = Done (s', a', b) → vkeeps s s' ∧ dl_keeps (av_delay_prepare_cb a').
Proof.
  intros Hcb Hdl Hcc. destruct c as [[valid id]|cc]; cbn.
  - unfold AddCompletedValidation. intros (_ & _ & H)%bind_Done. apply bind_Done in H as ([s1 a1] & H1 & H). simplify_eq.
    set (a0 := set_endorsed _ _ a) in H1. assert (dl_keeps (av_delay_prepare_cb a0)) as Hdl0 by done.
    destruct (_ && _); [destruct (negb _); [|by simplify_eq]|destruct (_ =? _); [destruct (_ <? 0); [|by simplify_eq]|by simplify_eq]].
    + eapply answer_keeps in H1 as [? He]; [|done|done]. split; [done|]. by rewrite He.
    + apply bind_Done in H1 as (s2 & H2 & H1). simplify_eq. split; [by eapply Hcb|done].
  - unfold SetCCResult. intros ([s1 a1] & H1 & H)%bind_Done. simplify_eq. specialize (Hcc cc eq_refl).
    set (a0 := set_cc _ _ _ _ a) in H1. assert (dl_keeps (av_delay_prepare_cb a0)) as Hdl0 by done.
    destruct (av_policyLeak a); [apply bind_Done in H1 as (_ & _ & H1); by simplify_eq|].
    destruct (_ =? _); [destruct (negb _); [|by simplify_eq]|destruct (_ || _); [|by simplify_eq]].
    + eapply answer_keeps in H1 as [? He]; [|done|done]. split; [done|]. by rewrite He.
    + apply bind_Done in H1 as (s2 & H2 & H1). simplify_eq. split; [by eapply Hcb|done].
Qed.
Lemma run_calls_keeps cb cs a s s' a' bs :
  cb_keeps cb → dl_keeps (av_delay_prepare_cb a) → (∀ cc, CallCC cc ∈ cs → dl_keeps (cc_cb cc)) →
  run_calls cb a s cs = Done (s', a', bs) → vkeeps s s' ∧ dl_keeps (av_delay_prepare_cb a').
Proof.
  intros Hcb. revert a s bs. induction cs as [|c cs IH]; intros a s bs Hdl Hcc H; cbn in H; [by simplify_eq|].
  apply bind_Done in H as ([[s1 a1] b] & H1 & H). apply bind_Done in H as ([[s2 a2] bs2] & H2 & H). simplify_eq.
  eapply do_call_keeps in H1 as [K1 D1]; [|done|done|intros cc ->; apply Hcc; left].
  eapply IH in H2 as [K2 D2]; [|done|intros cc Hin; apply Hcc; by right].
  split; [by etrans|done].
Qed.
End votes.
