(* ===== verification/Phase1Safety.v ===== *)
(** * Votes of a replica, over all its runs

    The handlers of phase 1, phase 2, writebacks and of the fallback's
    [Phase1FB], and the tasks they leave behind, run in any order; while a
    transaction is unfinished, all votes a replica has sent for it are the
    same. *)
From S2P Require Import Prelude OrderedSeq CppString Timestamp VersionStore Policy PolicyParse ServerState DemoEnv ServerTxn MVTSO Endorse AsyncPrepare Quorum AsyncVerify Phase2 Fallback Snapshot Digest Phase1 Phase1Votes.

Ltac vs := first [reflexivity | by apply vsame_upd | by apply vsame_emit | by apply vsame_keeps, vsame_upd | by apply vsame_keeps, vsame_emit].

Section votes.
Context `{E : Env}.
Implicit Types (s : server) (d : digest) (p : ptr).
Variable iter : list Policy → list Policy.

(** ** TryPrepare and ExecP1 *)

Lemma extract_reads_vsame ts pc lk a rs a' ok :
  extract_reads ts pc lk a rs = Done (a', ok) → vsame (ra_s a) (ra_s a').
Proof.
  revert a. induction rs as [|x rs IH]; intros a H; cbn in H; [by simplify_eq|].
  destruct (negb _); [by eapply IH|]. apply bind_Done in H as (a1 & H1 & H). apply bind_Done in H as ([a2 ok2] & H2 & H).
  assert (ra_s a1 = ra_s a) as Ha1.
  { unfold include_read in H1. destruct (_ && _); [|by simplify_eq]. apply bind_Done in H1 as ([? ?] & _ & H1). by simplify_eq. }
  assert (vsame (ra_s a) (ra_s a2)) as Ha2.
  { rewrite <- Ha1. unfold leak_check in H2. destruct checkPolicyLeak; [|by simplify_eq].
    apply bind_Done in H2 as ([? ?] & _ & H2). case_bool_decide; [by simplify_eq|].
    destruct (getUpperBound _ _ _) as [ps u]. set (b := match u with Some _ => _ | None => _ end) in H2.
    destruct b; [simplify_eq; vs|]. apply bind_Done in H2 as (? & _ & H2). simplify_eq. vs. }
  etrans; [exact Ha2|]. destruct ok2; [by eapply IH|by simplify_eq].
Qed.
Lemma ExtractPolicy_vsame s txn pc s' pc' ok : ExtractPolicy iter s txn pc = Done (s', pc', ok) → vsame s s'.
Proof.
  unfold ExtractPolicy. intros ([pc1 ck] & _ & H)%bind_Done. apply bind_Done in H as (ok1 & _ & H).
  destruct (negb ok1); [by simplify_eq|]. apply bind_Done in H as ([a ok2] & Ha & H). apply extract_reads_vsame in Ha. cbn in Ha.
  destruct (negb ok2); [by simplify_eq|]. apply bind_Done in H as (pc2 & _ & H). by simplify_eq.
Qed.
Lemma EndorsementCheck_vsame s d txn s' n : EndorsementCheck iter s d txn = Done (s', n) → vsame s s'.
Proof.
  unfold EndorsementCheck. intros ([[s1 pc] ok] & Hx & H)%bind_Done. apply ExtractPolicy_vsame in Hx.
  destruct (negb ok); by simplify_eq.
Qed.
Lemma go_keeps (par : bool) q d rem s s' b :
  (if par then still_ongoing q d rem s else Done (s, true)) = Done (s', b) → vkeeps s s'.
Proof. destruct par; [apply still_ongoing_keeps|by intros [= -> _]]. Qed.
Lemma phase1_callback_keeps par q d p rem g f : cb_keeps (phase1_callback par q d p rem g f).
Proof. intros r pr ac fl tm s s'. unfold phase1_callback. intros (_ & _ & H)%bind_Done. by eapply HandlePhase1CB_keeps. Qed.

Lemma TryPrepare_sync_keeps par s now q rem d old p g f s' :
  TryPrepare_sync iter par s now q rem d old p g f = Done s' → vkeeps s s'.
Proof.
  unfold TryPrepare_sync. intros ([s1 go] & Hg & H)%bind_Done. apply go_keeps in Hg. etrans; [exact Hg|].
  destruct (negb go); [by simplify_eq|]. apply bind_Done in H as (t & _ & H). apply bind_Done in H as ([s2 st] & He & H).
  assert (vkeeps s1 s2) as K.
  { destruct (negb serverSkipEndorsementCheck); [by eapply vsame_keeps, EndorsementCheck_vsame|by simplify_eq]. }
  etrans; [exact K|]. destruct (st <? 0); [by eapply HandlePhase1CB_keeps|].
  apply bind_Done in H as ([[s3 v] dl] & Hd & H). apply DoOCCCheck_keeps in Hd. etrans; [exact Hd|].
  by eapply HandlePhase1CB_keeps.
Qed.
Lemma launch_keeps cb txn s s' a js :
  cb_keeps cb → launch iter cb txn s = Done (s', a, js) → vkeeps s s' ∧ av_delay_prepare_cb a = None.
Proof.
  intros Hcb. unfold launch. intros ([[s1 pc] ok] & Hx & H)%bind_Done. apply ExtractPolicy_vsame, vsame_keeps in Hx.
  destruct (negb ok); [|by simplify_eq]. apply bind_Done in H as ([[s2 a2] b] & Hl & H). simplify_eq.
  unfold SetPolicyLeak in Hl. cbn in Hl. apply bind_Done in Hl as ([s3 a3] & H3 & Hl). simplify_eq.
  apply bind_Done in H3 as (s4 & H4 & H3). simplify_eq. split; [|done]. etrans; [exact Hx|]. by eapply Hcb.
Qed.
Lemma TryPrepare_async_keeps par s now q rem d old p g f e1 e2 e3 s' :
  TryPrepare_async iter par s now q rem d old p g f e1 e2 e3 = Done s' → vkeeps s s'.
Proof.
  unfold TryPrepare_async. intros ([s1 go] & Hg & H)%bind_Done. apply go_keeps in Hg. etrans; [exact Hg|].
  destruct (negb go); [by simplify_eq|]. apply bind_Done in H as (t & _ & H).
  set (cb := phase1_callback par q d p rem g f) in H. assert (cb_keeps cb) as Hcb by apply phase1_callback_keeps.
  apply bind_Done in H as ([[s2 a] js] & Hl & H). apply launch_keeps in Hl as [K2 Ha]; [|done].
  etrans; [exact K2|]. apply bind_Done in H as ([[s3 a3] bs] & Hr & H).
  apply run_calls_keeps in Hr as [K3 D3]; [|done|rewrite Ha; by intros ?|].
  2: { intros cc Hin. destruct (av_policyLeak a); [by apply elem_of_nil in Hin|].
       apply list_elem_of_fmap in Hin as (e & ? & _). done. }
  etrans; [exact K3|]. apply bind_Done in H as ([s4 cc] & Hcc & H). apply bind_Done in H as ([[s5 a5] bs5] & Hr5 & H). simplify_eq.
  unfold run_cc in Hcc. apply bind_Done in Hcc as ([[s6 v] dl] & Hd & Hcc). simplify_eq.
  apply DoOCCCheck_keeps in Hd. etrans; [exact Hd|]. eapply run_calls_keeps in Hr5 as [K5 _]; [done|done|done|].
  intros cc Hin. assert (cc = mkCC (v_result v) (v_conflict v) (v_abstain_conflict v)
    (match dl with Some dl => Some (λ s, run_delayed s d p rem q g dl) | None => None end)) as ->.
  { destruct (av_policyLeak a3); [apply list_elem_of_singleton in Hin; by simplify_eq|].
    apply elem_of_app in Hin as [Hin|Hin]; [by apply list_elem_of_fmap in Hin as (e & ? & _)|].
    apply elem_of_cons in Hin as [Hin|Hin]; [by simplify_eq|]. by apply list_elem_of_fmap in Hin as (e & ? & _). }
  cbn. intros h s7 s8 r Hh H7. destruct dl as [dl|]; [|done]. simplify_eq. by eapply vsame_keeps, run_delayed_vsame.
Qed.
Lemma TryPrepare_keeps par s now q rem d old p g f e1 e2 e3 s' :
  TryPrepare iter par s now q rem d old p g f e1 e2 e3 = Done s' → vkeeps s s'.
Proof. unfold TryPrepare. destruct sync_prepare; [apply TryPrepare_sync_keeps|apply TryPrepare_async_keeps]. Qed.

Lemma BufferP1Result_ignore s c d q rem w f g fb s' b :
  BufferP1Result s IGNORE c d q rem w f g fb = Done (s', b) → b_result b = IGNORE.
Proof. unfold BufferP1Result. cbn. intros (s1 & _ & H)%bind_Done. by simplify_eq. Qed.
Lemma ExecP1_keeps s now rem q d p s' o :
  underway s d → ExecP1 s now rem q d p = Done (s', o) →
  vkeeps s s' ∧ ∀ r c ac, o = Some (r, c, ac) → stands s' d r.
Proof.
  intros Hu. unfold ExecP1. intros ([[s1 v] dl] & Hd & H)%bind_Done. apply DoOCCCheck_keeps in Hd.
  apply bind_Done in H as ([s2 b] & Hb & H).
  assert (v_result v = IGNORE → b_result b = IGNORE) as Hig by (intros Hv; rewrite Hv in Hb; by eapply BufferP1Result_ignore).
  apply BufferP1Result_keeps in Hb as (K2 & L2 & O2 & _); [|intros _; by apply Hd].
  set (s3 := if b_original_sub b then _ else s2) in H. set (s4 := if b_forceMaterialize b then _ else s3) in H.
  assert (vkeeps s2 s3) as K3.
  { eapply reply_keeps; [done|]. intros Ho. destruct (O2 Ho). left. auto. }
  assert (vkeeps s3 s4) as K4 by (subst s4; destruct (b_forceMaterialize b); vs).
  assert (vkeeps s s4) as K by (etrans; [exact Hd|etrans; [exact K2|by etrans]]).
  destruct (_ || _) eqn:Hr; simplify_eq; (split; [exact K|]); [done|]. intros r c ac [= <- _ _].
  apply orb_false_iff in Hr as [Hi%bool_decide_eq_false Hw%bool_decide_eq_false].
  apply (stands_keeps s2); [by etrans|]. left. apply L2; [|done]. intros Hv. auto.
Qed.
Lemma TryExec_keeps s now rem q d p s' : underway s d → TryExec s now rem q d p = Done s' → vkeeps s s'.
Proof.
  intros Hu. unfold TryExec. intros ([s1 o] & He & H)%bind_Done. apply ExecP1_keeps in He as [K Hst]; [|done].
  etrans; [exact K|]. destruct o as [[[r c] ac]|]; [|by simplify_eq]. apply bind_Done in H as (x & Hx & H). simplify_eq.
  apply SendPhase1FBReply_keeps. intros y [= <-]. rewrite (SetP1_result _ _ _ _ _ Hx). by eapply Hst.
Qed.

(** ** Phase 2 and writebacks *)

Section phase2.
Variable config : Configuration.
Variable ser_cc : CCMsg → string.
Variable ser_p2 : P2Msg → string.
Variable Verify : Z → string → string → bool.
Variable TransactionDigest : Transaction → digest.

Lemma HandlePhase2CB_vsame s rem msg d valid s' : HandlePhase2CB s rem msg d valid = Done s' → vsame s s'.
Proof.
  unfold HandlePhase2CB. intros (_ & _ & H)%bind_Done. simplify_eq.
  etrans; [|by apply vsame_emit]. trans (touch_p2 s d); vs.
Qed.
Lemma phase2_txn_vsame s rem msg d s' : phase2_txn TransactionDigest s rem msg d = Done (inr s') → vsame s s'.
Proof.
  unfold phase2_txn. destruct (p2_digest msg); [|by destruct (p2_txn msg)]. destruct (ongoing s !! d); [done|].
  destruct (p2_txn msg).
  - intros (t & _ & H)%bind_Done. case_bool_decide; by simplify_eq.
  - intros [= <-]. case_match; vs.
Qed.
Lemma HandlePhase2_vsame s rem msg s' Q :
  HandlePhase2 config ser_cc Verify TransactionDigest s rem msg = Done (s', Q) → vsame s s'.
Proof.
  unfold HandlePhase2. intros (od & _ & H)%bind_Done. destruct od as [d|]; [|by simplify_eq].
  assert (vsame s (touch_p2 s d)) as Ht by vs. etrans; [exact Ht|]. set (s1 := touch_p2 s d) in *. clearbody s1.
  destruct (p2m_hasP2 _). { simplify_eq. etrans; [|by apply vsame_emit]. vs. }
  destruct (is_committed s1 d); [simplify_eq; vs|]. destruct (is_aborted s1 d); [simplify_eq; vs|].
  destruct (if p2_simulated_equiv msg then _ else _) as [my res]. destruct (negb _); [simplify_eq; vs|].
  apply bind_Done in H as (r & Hr & H). destruct r as [p|s2].
  - apply bind_Done in H as (txn & _ & H). unfold ManagePhase2Validation in H. destruct multiThreading.
    + apply bind_Done in H as (l & _ & H). by simplify_eq.
    + destruct (negb _); [|by simplify_eq]. apply bind_Done in H as (s3 & H3 & H). simplify_eq. by eapply HandlePhase2CB_vsame.
  - simplify_eq. by eapply phase2_txn_vsame.
Qed.
Lemma WritebackCallback_keeps s msg d p valid s' : WritebackCallback s msg d p valid = Done s' → vkeeps s s'.
Proof.
  unfold WritebackCallback. intros (_ & _ & H)%bind_Done. destruct (_ || _); [by simplify_eq|].
  destruct (wb_decision msg).
  - destruct (commit_args msg) as [[g b] v]. by eapply Commit_keeps.
  - etrans; [|by eapply Abort_keeps]. vs.
Qed.
Lemma clean_again_keeps s d s' Q : finished s d = true → clean_again s d = Done (s', Q) → vkeeps s s'.
Proof.
  intros Hf. unfold clean_again. intros (s1 & H & He)%bind_Done. simplify_eq.
  destruct owns_message; [by eapply (Clean_keeps s d _ false)|by simplify_eq].
Qed.
Lemma ManageWritebackValidation_keeps s msg d p s' Q :
  ManageWritebackValidation config ser_cc ser_p2 Verify TransactionDigest s msg d p = Done (s', Q) → vkeeps s s'.
Proof.
  unfold ManageWritebackValidation. intros (txn & _ & H)%bind_Done.
  assert (∀ valid, (s ← WritebackCallback s msg d p valid; Done (s, [])) = Done (s', Q) → vkeeps s s') as Hf.
  { intros valid (s1 & Hw & He)%bind_Done. simplify_eq. by eapply WritebackCallback_keeps. }
  destruct (negb validateProofs); [by eapply Hf|].
  destruct (my_p1 s d) as [my1 r1], (my_p2 s d) as [my2 d2], signedMessages, (wb_reply msg), multiThreading; try done;
    repeat case_match; try done; try (by eapply Hf); try (by simplify_eq);
    apply bind_Done in H as (l & _ & H); (by simplify_eq) || (by eapply Hf).
Qed.
Lemma HandleWriteback_keeps s rem msg s' Q :
  HandleWriteback config ser_cc ser_p2 Verify TransactionDigest s rem msg = Done (s', Q) → vkeeps s s'.
Proof.
  unfold HandleWriteback.
  assert (∀ s d p, (txn ← deref s p; let '(dropped, s) := drops_commit s msg d txn in
    if dropped : bool then Done (s, [])
    else ManageWritebackValidation config ser_cc ser_p2 Verify TransactionDigest s msg d p) = Done (s', Q) →
    vkeeps s s') as Hval.
  { intros s1 d p (txn & _ & H)%bind_Done. destruct (drops_commit s1 msg d txn) as [dropped s2] eqn:Hd.
    assert (vkeeps s1 s2) as Hs by (unfold drops_commit in Hd; repeat case_match; simplify_eq; vs).
    etrans; [exact Hs|]. destruct dropped; [by simplify_eq|by eapply ManageWritebackValidation_keeps]. }
  destruct (wb_txn_digest msg) as [d|].
  - destruct (finished s d) eqn:Hf; [by apply clean_again_keeps|]. intros (r & Hr & H)%bind_Done.
    destruct r as [p|s1]; [by eapply Hval|]. simplify_eq. unfold writeback_txn in Hr.
    destruct (ongoing s !! d); [done|]. destruct (wb_txn msg) as [p|].
    + apply bind_Done in Hr as (t & _ & Hr). case_bool_decide; by simplify_eq.
    + apply bind_Done in Hr as (_ & _ & Hr). simplify_eq. repeat case_match; vs.
  - destruct (wb_txn msg) as [p|]; [|done]. intros (t & _ & H)%bind_Done.
    destruct (finished s _) eqn:Hf; [by eapply clean_again_keeps|by eapply Hval].
Qed.
Lemma run_p2call_keeps s c valid s' : run_p2call s c valid = Done s' → vkeeps s s'.
Proof. destruct c; cbn; [intros; by eapply vsame_keeps, HandlePhase2CB_vsame|apply WritebackCallback_keeps]. Qed.
End phase2.

(** ** The later phases of the fallback leave votes alone *)

Section fallback.
Variable config : Configuration.
Variable ser_cc : CCMsg → string.
Variable ser_elect : ElectMsg → string.
Variable parse_p2 : string → P2Msg.
Variable parse_view : string → ViewMsg.
Variable parse_elect : string → ElectMsg.
Variable parse_move : string → MoveViewMessage.
Variable Verify : Z → string → string → bool.
Variable sign : string → string.
Variable hmac_ok : SignedMessage → bool.

Lemma finished_multi_vsame s d s' b : finished_multi s d = Done (s', b) → vsame s s'.
Proof. unfold finished_multi. destruct (interestedClients s !! d); [apply ForwardWritebackMulti_vsame|by intros [= ->]]. Qed.
Lemma AdoptDecision_vsame s d v x : vsame s (AdoptDecision s d v x).
Proof.
  unfold AdoptDecision. trans (touch_p2 s d); [vs|]. destruct (_ >? _); [done|].
  etrans; [|by apply vsame_emit]. vs.
Qed.
Lemma ProcessElectFB_vsame s d v x sig pid : vsame s (ProcessElectFB config s d v x sig pid).
Proof.
  unfold ProcessElectFB. destruct (ElectQuorums s !! d) as [e|]; [|done]. case_bool_decide; [done|].
  destruct (_ =? _); [|vs]. etrans; [|apply AdoptDecision_vsame]. etrans; [|by apply vsame_emit]. vs.
Qed.
Lemma PreProcessElectFB_vsame s d v x pid : vsame s (PreProcessElectFB s d v x pid).1.
Proof. unfold PreProcessElectFB. case_bool_decide; vs. Qed.
Lemma SendElectFB_vsame s d v x g : vsame s (SendElectFB config ser_elect sign s d v x g).
Proof.
  unfold SendElectFB. destruct (negb _); [vs|]. set (s1 := emit _ s). trans s1; [vs|].
  pose proof (PreProcessElectFB_vsame s1 d v x replica_id) as H. destruct (PreProcessElectFB _ _ _ _ _) as [s2 [|]]; [|done].
  etrans; [exact H|]. apply ProcessElectFB_vsame.
Qed.
Lemma broadcast_vsame s d v : vsame s (broadcast_and_count s d v).1.
Proof. unfold broadcast_and_count. cbn. trans (BroadcastMoveView s d v); vs. Qed.
Lemma ProcessMoveView_vsame s d v self : vsame s (ProcessMoveView config s d v self).
Proof.
  unfold ProcessMoveView. set (s1 := set_org s d _). trans s1; [vs|].
  set (x := if self then _ else _). assert (vsame s1 x.1) as Hx.
  { subst x. destruct self; [|vs]. destruct (move_count _ _).2; [apply broadcast_vsame|done]. }
  destruct x as [s2 n]. cbn in Hx. etrans; [exact Hx|]. trans (touch_p2 s2 d); [vs|].
  destruct (_ >? _); [|done]. set (y := if _ && _ then _ else _). assert (vsame (touch_p2 s2 d) y.1) as Hy.
  { subst y. destruct (_ && _); [apply broadcast_vsame|done]. }
  destruct y as [s3 k]. etrans; [exact Hy|]. cbn. destruct (_ =? _); vs.
Qed.
Lemma InvokeFBcallback_vsame s d v g rem valid s' :
  InvokeFBcallback config ser_elect sign s d v g rem valid = Done s' → vsame s s'.
Proof.
  unfold InvokeFBcallback. destruct (negb valid); [by intros [= ->]|]. intros ([s1 fw] & Hf & H)%bind_Done.
  apply ForwardWriteback_vsame in Hf. etrans; [exact Hf|]. destruct fw; [by simplify_eq|].
  trans (touch_p2 s1 d); [vs|]. destruct (negb _); [by simplify_eq|]. destruct (_ && _); simplify_eq; [vs|].
  etrans; [|apply SendElectFB_vsame]. vs.
Qed.
Lemma invoke_view_vsame s msg d cv x g rem s' P :
  invoke_view config ser_elect parse_view Verify sign s msg d cv x g rem = Done (s', P) → vsame s s'.
Proof.
  unfold invoke_view. destruct all_to_all_fb.
  { intros [= <- _]. etrans; [apply ProcessMoveView_vsame|apply SendElectFB_vsame]. }
  unfold VerifyViews. destruct (iv_view_signed msg); [|by intros [= -> _]]. destruct multiThreading.
  - intros (l0 & _ & H)%bind_Done. by simplify_eq.
  - intros (s1 & H1 & H)%bind_Done. simplify_eq. by eapply InvokeFBcallback_vsame.
Qed.
Lemma store_p2_vsame s d x b : vsame s (store_p2 s d x b).1.
Proof. unfold store_p2. trans (touch_p2 s d); [vs|]. destruct (p2m_hasP2 _); cbn; vs. Qed.
Lemma InvokeFBProcessP2FBCallback_vsame s msg p2fb d rem valid s' P :
  InvokeFBProcessP2FBCallback config ser_elect parse_view Verify sign s msg p2fb d rem valid = Done (s', P) → vsame s s'.
Proof.
  unfold InvokeFBProcessP2FBCallback. destruct (negb valid); [by intros [= -> _]|]. intros ([s1 fw] & Hf & H)%bind_Done.
  apply ForwardWriteback_vsame in Hf. etrans; [exact Hf|]. destruct fw; [by simplify_eq|].
  pose proof (store_p2_vsame s1 d (f2_decision p2fb) false) as Hs. destruct (store_p2 _ _ _ _) as [s2 m].
  etrans; [exact Hs|]. by eapply invoke_view_vsame.
Qed.
Lemma ProcessP2FBCallback_vsame s p2fb d rem valid s' : ProcessP2FBCallback s p2fb d rem valid = Done s' → vsame s s'.
Proof.
  unfold ProcessP2FBCallback. destruct (negb valid); [by intros [= ->]|]. intros ([s1 fw] & Hf & H)%bind_Done.
  apply ForwardWriteback_vsame in Hf. etrans; [exact Hf|]. destruct fw; [by simplify_eq|].
  pose proof (store_p2_vsame s1 d (f2_decision p2fb) true) as Hs. destruct (store_p2 _ _ _ _) as [s2 m].
  etrans; [exact Hs|]. simplify_eq. vs.
Qed.

(** A message of the fallback, or a validation of it that completes. *)
Inductive fb_moves s s' : Prop :=
| fm_phase2fb remote msg P : HandlePhase2FB config ser_cc parse_p2 Verify s remote msg = Done (s', P) → fb_moves s s'
| fm_invoke remote msg P :
    HandleInvokeFB config ser_cc ser_elect parse_p2 parse_view Verify sign s remote msg = Done (s', P) → fb_moves s s'
| fm_elect msg P : HandleElectFB config parse_elect Verify s msg = Done (s', P) → fb_moves s s'
| fm_decision msg P : HandleDecisionFB config ser_elect Verify s msg = Done (s', P) → fb_moves s s'
| fm_move msg : HandleMoveView config parse_move hmac_ok s msg = Done s' → fb_moves s s'
| fm_call c valid P : run_call config ser_elect parse_view Verify sign s c valid = Done (s', P) → fb_moves s s'.

Lemma HandlePhase2FB_vsame s rem msg s' P : HandlePhase2FB config ser_cc parse_p2 Verify s rem msg = Done (s', P) → vsame s s'.
Proof.
  unfold HandlePhase2FB. set (d := f2_txn_digest msg). intros ([s1 fw] & Hf & H)%bind_Done. apply ForwardWriteback_vsame in Hf.
  etrans; [exact Hf|]. destruct fw; [by simplify_eq|]. trans (touch_p2 s1 d); [vs|]. set (s2 := touch_p2 s1 d) in *. clearbody s2.
  destruct (p2m_hasP2 _); [simplify_eq; vs|]. unfold ProcessP2FB in H. apply bind_Done in H as ([s3 fw] & Hf3 & H).
  apply ForwardWriteback_vsame in Hf3. etrans; [exact Hf3|]. destruct fw; [by simplify_eq|].
  trans (touch_p2 s3 d); [vs|]. set (s4 := touch_p2 s3 d) in *. clearbody s4.
  destruct (p2m_hasP2 _); [simplify_eq; vs|]. apply bind_Done in H as (ot & _ & H). destruct ot as [t|]; [|by simplify_eq].
  apply bind_Done in H as (r & _ & H). destruct r as [[v|valid]|]; [by simplify_eq| |by simplify_eq].
  apply bind_Done in H as (s5 & H5 & H). apply bind_Done in H as (s6 & H6 & H). simplify_eq.
  apply ProcessP2FBCallback_vsame in H5. etrans; [exact H5|].
  destruct (_ && _); [by eapply ProcessP2FBCallback_vsame|by simplify_eq].
Qed.
Lemma HandleInvokeFB_vsame s rem msg s' P :
  HandleInvokeFB config ser_cc ser_elect parse_p2 parse_view Verify sign s rem msg = Done (s', P) → vsame s s'.
Proof.
  unfold HandleInvokeFB. set (d := iv_txn_digest msg). intros ([s1 fw] & Hf & H)%bind_Done. apply ForwardWriteback_vsame in Hf.
  etrans; [exact Hf|]. destruct fw; [by simplify_eq|]. trans (touch_p2 s1 d); [vs|]. set (s2 := touch_p2 s1 d) in *. clearbody s2.
  destruct (_ && _); [simplify_eq; vs|]. destruct (negb _).
  - destruct (iv_p2fb msg) as [p2fb|]; [|by simplify_eq]. unfold InvokeFBProcessP2FB in H.
    apply bind_Done in H as (ot & _ & H). destruct ot as [t|]; [|by simplify_eq]. apply bind_Done in H as (lg & _ & H).
    destruct (negb _); [by simplify_eq|]. apply bind_Done in H as (r & _ & H).
    destruct r as [[v|valid]|]; [by simplify_eq| |by simplify_eq]. by eapply InvokeFBProcessP2FBCallback_vsame.
  - apply bind_Done in H as (ot & _ & H). destruct ot as [t|]; [|by simplify_eq]. apply bind_Done in H as (lg & _ & H).
    destruct (negb _); [by simplify_eq|]. by eapply invoke_view_vsame.
Qed.
Lemma ElectFBcallback_vsame s d v x sig pid valid s' : ElectFBcallback config s d v x sig pid valid = Done s' → vsame s s'.
Proof.
  unfold ElectFBcallback. destruct (negb valid); [by intros [= ->]|]. intros ([s1 fin] & Hf & H)%bind_Done.
  apply finished_multi_vsame in Hf. destruct fin; simplify_eq; [done|]. etrans; [exact Hf|apply ProcessElectFB_vsame].
Qed.
Lemma FBDecisionCallback_vsame s d v x valid s' : FBDecisionCallback s d v x valid = Done s' → vsame s s'.
Proof.
  unfold FBDecisionCallback. destruct (negb valid); [by intros [= ->]|]. intros ([s1 fin] & Hf & H)%bind_Done.
  apply finished_multi_vsame in Hf. destruct fin; simplify_eq; [done|]. etrans; [exact Hf|apply AdoptDecision_vsame].
Qed.
Lemma HandleElectFB_vsame s msg s' P : HandleElectFB config parse_elect Verify s msg = Done (s', P) → vsame s s'.
Proof.
  unfold HandleElectFB. intros (_ & _ & H)%bind_Done. destruct msg as [m|]; [|by simplify_eq].
  destruct (negb _); [by simplify_eq|]. destruct (negb _); [by simplify_eq|]. apply bind_Done in H as ([s1 fin] & Hf & H).
  apply finished_multi_vsame in Hf. etrans; [exact Hf|]. destruct fin; [by simplify_eq|].
  set (em := parse_elect _) in H. pose proof (PreProcessElectFB_vsame s1 (el_txn_digest em) (el_view em) (el_decision em) (sm_process_id m)) as Hp.
  destruct (PreProcessElectFB _ _ _ _ _) as [s2 first]. etrans; [exact Hp|]. destruct (negb first); [by simplify_eq|].
  destruct multiThreading; [by simplify_eq|]. destruct (negb _); [by simplify_eq|]. simplify_eq. apply ProcessElectFB_vsame.
Qed.
Lemma HandleDecisionFB_vsame s msg s' P : HandleDecisionFB config ser_elect Verify s msg = Done (s', P) → vsame s s'.
Proof.
  unfold HandleDecisionFB. intros ([s1 fin] & Hf & H)%bind_Done. apply finished_multi_vsame in Hf. etrans; [exact Hf|].
  destruct fin; [by simplify_eq|]. set (s2 := touch_p2 s1 _) in H. trans s2; [subst s2; vs|]. clearbody s2.
  destruct (_ || _); [by simplify_eq|]. destruct (ongoing s2 !! _); [|by simplify_eq]. apply bind_Done in H as (t & _ & H).
  destruct (my_p2 s2 _) as [my x]. destruct multiThreading; apply bind_Done in H as (l0 & _ & H); [by simplify_eq|].
  apply bind_Done in H as (s3 & H3 & H). simplify_eq. by eapply FBDecisionCallback_vsame.
Qed.
Lemma fb_moves_vsame s s' : fb_moves s s' → vsame s s'.
Proof.
  intros [rem msg P H|rem msg P H|msg P H|msg P H|msg H|c valid P H].
  - by eapply HandlePhase2FB_vsame.
  - by eapply HandleInvokeFB_vsame.
  - by eapply HandleElectFB_vsame.
  - by eapply HandleDecisionFB_vsame.
  - unfold HandleMoveView in H. destruct (move_view_message _ _ _); [|by simplify_eq].
    apply bind_Done in H as ([s1 fin] & Hf & H). apply finished_multi_vsame in Hf.
    destruct fin; simplify_eq; [done|]. etrans; [exact Hf|apply ProcessMoveView_vsame].
  - destruct c; cbn in H; try (apply bind_Done in H as (s1 & H1 & H); simplify_eq).
    + by eapply ProcessP2FBCallback_vsame.
    + by eapply InvokeFBProcessP2FBCallback_vsame.
    + by eapply InvokeFBcallback_vsame.
    + by eapply FBDecisionCallback_vsame.
    + by eapply ElectFBcallback_vsame.
Qed.
End fallback.

(** ** Reception *)

Section reception.
Variable config : Configuration.
Variable ser_cc : CCMsg → string.
Variable ser_p2 : P2Msg → string.
Variable Verify : Z → string → string → bool.
Variable TransactionDigest : bool → Transaction → digest.
Variable blake3 : string → string.
Variable parse_txn : string → Transaction.
Variable parse_write : string → PreparedWrite.
Variable dep_evidence : Dependency → option (PreparedWrite * list SignedMessage).
Variables hashEndorsements optimisticTxID parallel_CCC : bool.
Variable readDepSize : Z.
Notation HandlePhase1 := (HandlePhase1 config ser_cc ser_p2 Verify TransactionDigest blake3 parse_txn parse_write dep_evidence
  hashEndorsements optimisticTxID parallel_CCC readDepSize iter).
Notation HandlePhase1FB := (HandlePhase1FB Verify TransactionDigest parse_txn parse_write dep_evidence hashEndorsements
  optimisticTxID readDepSize).
Notation run_task := (run_task Verify TransactionDigest blake3 parse_write dep_evidence parallel_CCC readDepSize iter).
Notation CheckProposalValidity := (CheckProposalValidity Verify parse_write dep_evidence readDepSize).
Notation TryPrepare_main := (TryPrepare_main TransactionDigest blake3 parallel_CCC iter).
Notation AddOngoing_txn := (AddOngoing_txn optimisticTxID).

(** Tasks that execute a relayed transaction work on one that was taken up. *)
Definition task_ok s (tk : task) : Prop :=
  match tk with
  | CheckProposalFB _ _ _ d _ | RunExec _ _ d _ => underway s d
  | _ => True
  end.
Definition tasks_ok s (ts : list task) : Prop := Forall (task_ok s) ts.
Lemma tasks_keeps s s' ts : vkeeps s s' → tasks_ok s ts → tasks_ok s' ts.
Proof. intros K Hts. eapply Forall_impl; [exact Hts|]. intros [] H; try done; by apply K. Qed.

Lemma AddOngoing_keeps s d p : vkeeps s (AddOngoing s d p) ∧ underway (AddOngoing s d p) d.
Proof.
  split; [|left; cbn; rewrite lookup_insert_eq; by eexists].
  split; try done; [|by left|by left]. intros x [H|H]; [left|by right]. cbn.
  destruct (decide (x = d)) as [->|]; [rewrite lookup_insert_eq; by eexists|by rewrite lookup_insert_ne].
Qed.
Lemma AddOngoing_txn_keeps d t r r' p :
  AddOngoing_txn d t r = Done (r', p) → vkeeps (rp_server r) (rp_server r') ∧ underway (rp_server r') d.
Proof.
  unfold Phase1.AddOngoing_txn. intros (m & _ & H)%bind_Done. cbn in H. simplify_eq. cbn.
  destruct (AddOngoing_keeps (alloc_txn d t (rp_server r)).2 d (alloc_txn d t (rp_server r)).1) as [K U].
  split; [|exact U]. etrans; [|exact K]. vs.
Qed.
Lemma CheckProposalValidity_keeps s d t sm s' ok : CheckProposalValidity s d t sm = Done (s', ok) → vkeeps s s'.
Proof.
  unfold Phase1.CheckProposalValidity. intros (ok1 & _ & H)%bind_Done. destruct (negb ok1); [by simplify_eq|].
  destruct signClientProposals; [|by simplify_eq]. injection H as H. unfold VerifyClientProposal in H.
  destruct (negb _); [by simplify_eq|]. destruct (negb _); [by simplify_eq|]. simplify_eq.
  apply (set_meta_keeps s d (set_signed (default P1MetaData_init (p1MetaData s !! d)))).
  intros x. unfold LookupP1Decision. cbn. rewrite lookup_insert_eq. by destruct (p1MetaData s !! d).
Qed.
Lemma RemoveOngoing_same s d s' : RemoveOngoing s d = Done s' → s' = s.
Proof. unfold RemoveOngoing. destruct (ongoing s !! d); by intros [= ->]. Qed.
Lemma TryPrepare_main_keeps s sc q rem p d old al g s' ts :
  TryPrepare_main s sc q rem p d old al g = Done (s', ts) → vkeeps s s' ∧ tasks_ok s' ts.
Proof.
  unfold Phase1.TryPrepare_main. intros (t & _ & H)%bind_Done. assert (vkeeps s (touch_p2 s d)) as K by vs.
  destruct (parallel_CCC && mainThreadDispatching); [simplify_eq; split; [exact K|by repeat constructor]|].
  apply bind_Done in H as (s1 & Ht & H). simplify_eq. split; [|constructor]. etrans; [exact K|]. by eapply TryPrepare_keeps.
Qed.
Lemma ManageDependencies_keeps s d t rem q fb g : vkeeps s (ManageDependencies s d t rem q fb g).2.
Proof. apply vsame_keeps, ManageDependencies_vsame. Qed.

(** A subscription leaves the stored result alone. *)
Lemma subscribe_keeps s d m m' :
  p1MetaData s !! d = Some m → pm_hasP1 m' = pm_hasP1 m → pm_result m' = pm_result m →
  vkeeps s (upd_p1MetaData (insert d m') s).
Proof.
  intros Hm Hh Hr. apply set_meta_keeps. intros x. unfold LookupP1Decision. cbn. by rewrite lookup_insert_eq, Hm, Hh, Hr.
Qed.
Lemma stored_stands s d m :
  p1MetaData s !! d = Some m → pm_hasP1 m = true → pm_result m ≠ WAIT → stands s d (pm_result m).
Proof. intros Hm Hh Hr. left. unfold LookupP1Decision. by rewrite Hm, Hh, bool_decide_eq_true_2. Qed.
Lemma has_p1_entry s d : pm_hasP1 (default P1MetaData_init (p1MetaData s !! d)) = true →
  p1MetaData s !! d = Some (default P1MetaData_init (p1MetaData s !! d)).
Proof. by destruct (p1MetaData s !! d). Qed.

Lemma known_result_keeps s q rem t d m s' :
  p1MetaData s !! d = Some m → pm_hasP1 m = true → known_result s q rem t d m = Done s' → vkeeps s s'.
Proof.
  intros Hm Hh. pose proof (stored_stands s d m Hm Hh) as Hst. unfold known_result.
  destruct (pm_result m) eqn:Hr; try (intros [= <-]); try (by eapply stands_emit; [done|apply Hst]); [| |done].
  - intros (_ & _ & H)%bind_Done. simplify_eq. by eapply stands_emit; [done|apply Hst].
  - etrans; [|apply ManageDependencies_keeps]. by eapply subscribe_keeps.
Qed.
Lemma handle_oo_keeps s o s' ts :
  handle_oo config ser_cc ser_p2 Verify TransactionDigest hashEndorsements s o = Done (s', ts) → vkeeps s s' ∧ tasks_ok s' ts.
Proof.
  intros H. unfold handle_oo in H. destruct o; apply bind_Done in H as ([s1 Q] & H1 & H); simplify_eq; cbn.
  - split; [by eapply vsame_keeps, HandlePhase2_vsame|]. apply Forall_fmap, Forall_true. by intros [].
  - split; [by eapply HandleWriteback_keeps|]. apply Forall_fmap, Forall_true. by intros [].
Qed.
Lemma HandlePhase1_keeps r sc rem msg r' ts :
  HandlePhase1 r sc rem msg = Done (r', ts) → vkeeps (rp_server r) (rp_server r') ∧ tasks_ok (rp_server r') ts.
Proof.
  unfold Phase1.HandlePhase1. set (t := if signClientProposals then _ else _). set (d := if _ && _ then _ else _).
  set (old := if hashEndorsements then _ else _). set (s := rp_server r).
  destruct (ooMessages s !! d) as [o|].
  { intros ([r1 p] & Ha & H)%bind_Done. apply AddOngoing_txn_keeps in Ha as [K1 _]. apply bind_Done in H as ([s2 ts2] & Ho & H).
    apply handle_oo_keeps in Ho as [K2 T2]. simplify_eq. cbn. split; [|eapply tasks_keeps; [|exact T2]; vs].
    etrans; [exact K1|]. etrans; [exact K2|vs]. }
  destruct (pm_hasP1 _) eqn:Hh.
  { pose proof (has_p1_entry s d Hh) as Hm. destruct (p1_replica_gossip msg); [intros [= <- <-]; by split; [|constructor]|].
    intros (s1 & Hk & H)%bind_Done. simplify_eq. split; [|constructor]. by eapply known_result_keeps. }
  destruct (is_committed s d) eqn:Hc.
  { intros [= <- <-]. split; [|constructor]. cbn. eapply stands_emit; [done|]. right. unfold finished. fold s. by rewrite Hc. }
  destruct (is_aborted s d) eqn:Hab.
  { intros [= <- <-]. split; [|constructor]. cbn. eapply stands_emit; [done|]. right. unfold finished. fold s. by rewrite Hab, orb_true_r. }
  unfold ProcessProposal. intros ([r1 p] & Ha & H)%bind_Done. apply AddOngoing_txn_keeps in Ha as [K1 _].
  destruct (negb (multiThreading && signClientProposals)); [|injection H as <- <-; split; [exact K1|by repeat constructor]].
  apply bind_Done in H as ([s2 ok] & Hv & H). apply CheckProposalValidity_keeps in Hv. destruct (negb ok).
  - apply bind_Done in H as (s3 & ->%RemoveOngoing_same & H). simplify_eq. split; [by etrans|constructor].
  - apply bind_Done in H as ([s3 ts3] & Ht & H). apply TryPrepare_main_keeps in Ht as [K3 T3]. simplify_eq. cbn.
    split; [|done]. etrans; [exact K1|]. by etrans.
Qed.

Lemma wait_fallback_keeps s d t rem m : p1MetaData s !! d = Some m → vkeeps s (wait_fallback s d t rem m).
Proof. intros Hm. etrans; [|apply ManageDependencies_keeps]. by eapply subscribe_keeps. Qed.
Lemma fb_stored_keeps s q rem d t m o s' :
  p1MetaData s !! d = Some m → pm_hasP1 m = true →
  (match o with Some x => fb_both s q rem d t m x | None => fb_only_p1 s q rem d t m end) = Done s' → vkeeps s s'.
Proof.
  intros Hm Hh. pose proof (stored_stands s d m Hm Hh) as Hst. destruct o as [x|].
  - unfold fb_both. intros ([s1 p1] & H1 & H)%bind_Done. simplify_eq. case_bool_decide as Hw.
    + apply bind_Done in H1 as (y & Hy & H1). simplify_eq. apply SendPhase1FBReply_keeps. intros z [= <-].
      rewrite (SetP1_result _ _ _ _ _ Hy). auto.
    + simplify_eq. etrans; [by apply wait_fallback_keeps|]. by apply SendPhase1FBReply_keeps.
  - unfold fb_only_p1. case_bool_decide as Hw.
    + intros (y & Hy & H1)%bind_Done. simplify_eq. apply SendPhase1FBReply_keeps. intros z [= <-].
      rewrite (SetP1_result _ _ _ _ _ Hy). auto.
    + intros [= <-]. by apply wait_fallback_keeps.
Qed.
Lemma fb_only_p2_keeps r sc q rem d t x r' :
  fb_only_p2 Verify parse_write dep_evidence optimisticTxID readDepSize r sc q rem d t x = Done r' → vkeeps (rp_server r) (rp_server r').
Proof.
  unfold fb_only_p2. intros (ok & _ & H)%bind_Done. destruct (negb ok); [by simplify_eq|].
  apply bind_Done in H as ([r1 p] & Ha & H). apply AddOngoing_txn_keeps in Ha as [K1 U1].
  apply bind_Done in H as ([s2 res] & He & H). apply ExecP1_keeps in He as [K2 Hst]; [|done].
  apply bind_Done in H as (o & Ho & H). simplify_eq. cbn. etrans; [exact K1|]. etrans; [exact K2|].
  apply SendPhase1FBReply_keeps. intros y ->. destruct res as [[[rs c] ac]|]; [|done].
  apply bind_Done in Ho as (z & Hz & Ho). simplify_eq. rewrite (SetP1_result _ _ _ _ _ Hz). by eapply Hst.
Qed.
Lemma HandlePhase1FB_keeps r sc rem msg r' ts :
  HandlePhase1FB r sc rem msg = Done (r', ts) → vkeeps (rp_server r) (rp_server r') ∧ tasks_ok (rp_server r') ts.
Proof.
  unfold Phase1.HandlePhase1FB. set (t := if signClientProposals then _ else _). set (d := TransactionDigest _ t).
  intros ([s1 fw] & Hf & H)%bind_Done. apply ForwardWriteback_vsame, vsame_keeps in Hf.
  destruct fw; [simplify_eq; split; [done|constructor]|].
  set (s2 := upd_interestedClients _ s1) in *. set (s3 := touch_p2 s2 d) in *.
  assert (vkeeps (rp_server r) s3) as K3 by (etrans; [exact Hf|]; trans s2; vs).
  set (m := default P1MetaData_init _) in *. change (p1MetaData s2) with (p1MetaData s3) in m.
  destruct (pm_hasP1 m) eqn:Hh, (p2m_hasP2 _).
  - apply bind_Done in H as (s4 & H4 & H). simplify_eq. split; [|constructor]. etrans; [exact K3|].
    eapply (fb_stored_keeps _ _ _ _ _ _ (Some _)); [|done|exact H4]. by apply has_p1_entry.
  - apply bind_Done in H as (s4 & H4 & H). simplify_eq. split; [|constructor]. etrans; [exact K3|].
    eapply (fb_stored_keeps _ _ _ _ _ _ None); [|done|exact H4]. by apply has_p1_entry.
  - apply bind_Done in H as (r4 & H4 & H). simplify_eq. apply fb_only_p2_keeps in H4. split; [|constructor]. by etrans.
  - unfold ProcessProposalFB in H. apply bind_Done in H as ([r4 p] & Ha & H). apply AddOngoing_txn_keeps in Ha as [K4 U4].
    assert (vkeeps (rp_server r) (rp_server r4)) as K by (by etrans; [exact K3|exact K4]).
    destruct (negb _); [|simplify_eq; split; [done|constructor; [exact U4|constructor]]].
    apply bind_Done in H as ([s5 ok] & Hv & H). apply CheckProposalValidity_keeps in Hv. destruct (negb ok).
    + apply bind_Done in H as (s6 & ->%RemoveOngoing_same & H). simplify_eq. split; [by etrans|constructor].
    + apply bind_Done in H as (_ & _ & H). apply bind_Done in H as ([s6 ok6] & Hv6 & H). apply CheckProposalValidity_keeps in Hv6.
      assert (vkeeps (rp_server r4) s6) as K6 by (by etrans; [exact Hv|exact Hv6]).
      destruct (negb ok6); [simplify_eq; split; [by etrans|constructor]|].
      apply bind_Done in H as (s7 & Hx & H). simplify_eq. split; [|constructor]. cbn. etrans; [exact K|]. etrans; [exact K6|].
      eapply TryExec_keeps; [|exact Hx]. by apply K6.
Qed.
Lemma run_task_keeps s sc tk valid s' ts :
  task_ok s tk → run_task s sc tk valid = Done (s', ts) → vkeeps s s' ∧ tasks_ok s' ts.
Proof.
  intros Hok. destruct tk as [sm q rem p d old g|q rem p d old g|q rem p d old g|sm q rem d p|q rem d p|c v]; cbn [Phase1.run_task].
  - intros (t & _ & H)%bind_Done. apply bind_Done in H as ([s1 ok] & Hv & H). apply CheckProposalValidity_keeps in Hv.
    destruct (negb ok); [|simplify_eq; split; [done|by repeat constructor]].
    apply bind_Done in H as (s3 & ->%RemoveOngoing_same & H). simplify_eq. split; [done|constructor].
  - apply TryPrepare_main_keeps.
  - intros (s1 & H1 & H)%bind_Done. simplify_eq. split; [by eapply TryPrepare_keeps|constructor].
  - intros (t & _ & H)%bind_Done. apply bind_Done in H as ([s1 ok] & Hv & H). apply CheckProposalValidity_keeps in Hv.
    destruct (negb ok); [|simplify_eq; split; [done|]; constructor; [by apply Hv|constructor]].
    apply bind_Done in H as (s3 & ->%RemoveOngoing_same & H). simplify_eq. split; [done|constructor].
  - intros (s1 & H1 & H)%bind_Done. simplify_eq. split; [by eapply TryExec_keeps|constructor].
  - intros (s1 & H1 & H)%bind_Done. simplify_eq. split; [by eapply run_p2call_keeps|constructor].
Qed.

(** ** Runs *)

Variable ser_elect : ElectMsg → string.
Variable parse_p2 : string → P2Msg.
Variable parse_view : string → ViewMsg.
Variable parse_elect : string → ElectMsg.
Variable parse_move : string → MoveViewMessage.
Variable sign : string → string.
Variable hmac_ok : SignedMessage → bool.
Notation fb_moves := (fb_moves config ser_cc ser_elect parse_p2 parse_view parse_elect parse_move Verify sign hmac_ok).
Notation HandlePhase2 := (HandlePhase2 config ser_cc Verify (TransactionDigest hashEndorsements)).
Notation HandleWriteback := (HandleWriteback config ser_cc ser_p2 Verify (TransactionDigest hashEndorsements)).

(** A task that waits for a validation runs with its result. *)
Definition task_reports (tk : task) (valid : bool) : Prop :=
  match tk with FinishP2 _ v => reports v valid | _ => True end.
Definition upd_rep (s : server) (r : replica) : replica := mkReplica s (ts_to_tx r).

(** A message arrives, or a task runs.  The endorsement checks that are left
    when [TryPrepare] has returned may prepare and answer at any later time
    ([ps_late]); they may report any result.  The later
    phases of the fallback are [ps_fallback]; the other steps of the server,
    such as reads, leave votes alone ([ps_other]). *)
Inductive p1_step : replica * list task → replica * list task → Prop :=
| ps_phase1 r T sc remote msg r' ts :
    HandlePhase1 r sc remote msg = Done (r', ts) → p1_step (r, T) (r', ts ++ T)
| ps_phase1fb r T sc remote msg r' ts :
    HandlePhase1FB r sc remote msg = Done (r', ts) → p1_step (r, T) (r', ts ++ T)
| ps_task r T1 tk T2 sc valid s' ts :
    task_reports tk valid → run_task (rp_server r) sc tk valid = Done (s', ts) →
    p1_step (r, T1 ++ tk :: T2) (upd_rep s' r, ts ++ T1 ++ T2)
| ps_phase2 r T remote msg s' Q :
    HandlePhase2 (rp_server r) remote msg = Done (s', Q) →
    p1_step (r, T) (upd_rep s' r, ((λ c, FinishP2 c.1 c.2) <$> Q) ++ T)
| ps_writeback r T remote msg s' Q :
    HandleWriteback (rp_server r) remote msg = Done (s', Q) →
    p1_step (r, T) (upd_rep s' r, ((λ c, FinishP2 c.1 c.2) <$> Q) ++ T)
| ps_late_prepare r T d p remote reqId gossip dl s' res :
    run_delayed (rp_server r) d p remote reqId gossip dl = Done (s', res) → p1_step (r, T) (upd_rep s' r, T)
| ps_late r T par reqId d p remote gossip force res pr ac fail too_many s' :
    phase1_callback par reqId d p remote gossip force res pr ac fail too_many (rp_server r) = Done s' →
    p1_step (r, T) (upd_rep s' r, T)
| ps_job r T j s' : run_job (rp_server r) j = Done s' → p1_step (r, T) (upd_rep s' r, T)
| ps_fallback r T s' : fb_moves (rp_server r) s' → p1_step (r, T) (upd_rep s' r, T)
| ps_other r T s' : vsame (rp_server r) s' → p1_step (r, T) (upd_rep s' r, T).

Record p1_inv (c : replica * list task) : Prop := {
  pi_votes : ∀ e d r, e ∈ out (rp_server c.1) → p1_vote e = Some (d, r) → stands (rp_server c.1) d r;
  pi_tasks : tasks_ok (rp_server c.1) c.2
}.
Lemma p1_inv_keeps r T r' T' ts :
  vkeeps (rp_server r) (rp_server r') → tasks_ok (rp_server r') ts → T' ≡ₚ T ∨ (∃ tk, T ≡ₚ tk :: T') →
  p1_inv (r, T) → p1_inv (r', ts ++ T').
Proof.
  intros K Hts HT [I1 I2]. cbn in *. split; cbn.
  - intros e d x He Hv. destruct (vk_out _ _ K e He) as [He'|Hn]; [|auto]. eapply stands_keeps; eauto.
  - apply Forall_app. split; [done|]. apply (tasks_keeps (rp_server r)); [done|]. unfold tasks_ok in *.
    destruct HT as [HT|[tk HT]]; [by rewrite HT|]. rewrite HT in I2. by inversion I2.
Qed.
Lemma finish_tasks_ok s (Q : p2pending) : tasks_ok s ((λ c, FinishP2 c.1 c.2) <$> Q).
Proof. apply Forall_fmap, Forall_true. by intros []. Qed.
Lemma run_job_vsame s j s' : run_job s j = Done s' → vsame s s'.
Proof.
  destruct j; cbn; [| |by intros [= ->]]; intros (t & _ & H)%bind_Done; simplify_eq; apply vsame_foldl; intros; vs.
Qed.
Lemma p1_step_inv c c' : p1_step c c' → p1_inv c → p1_inv c'.
Proof.
  intros Hs I.
  assert (∀ r T s', vkeeps (rp_server r) s' → p1_inv (r, T) → p1_inv (upd_rep s' r, T)) as Hk.
  { intros r T s' K I'. apply (p1_inv_keeps r T _ T []); [done|constructor|by left|done]. }
  inv Hs as [r T sc rem msg r' ts H|r T sc rem msg r' ts H|r T1 tk T2 sc v s' ts Hr H|r T rem msg s' Q H|r T rem msg s' Q H
    |r T d p rem q g dl s' x H|r T par q d p rem g f x pr ac fl tm s' H|r T j s' H|r T s' H|r T s' H].
  - apply HandlePhase1_keeps in H as [K Ht]. eapply p1_inv_keeps; [done|done|by left|done].
  - apply HandlePhase1FB_keeps in H as [K Ht]. eapply p1_inv_keeps; [done|done|by left|done].
  - apply run_task_keeps in H as [K Ht].
    + eapply p1_inv_keeps; [exact K|exact Ht| |exact I]. right. exists tk. by rewrite Permutation_middle.
    + destruct I as [_ I2]. cbn in I2. unfold tasks_ok in I2. rewrite Forall_app, Forall_cons in I2. naive_solver.
  - apply HandlePhase2_vsame, vsame_keeps in H. eapply p1_inv_keeps; [done|apply finish_tasks_ok|by left|done].
  - apply HandleWriteback_keeps in H. eapply p1_inv_keeps; [done|apply finish_tasks_ok|by left|done].
  - apply Hk; [|done]. by eapply vsame_keeps, run_delayed_vsame.
  - apply Hk; [|done]. by eapply phase1_callback_keeps.
  - apply Hk; [|done]. by eapply vsame_keeps, run_job_vsame.
  - apply Hk; [|done]. by eapply vsame_keeps, fb_moves_vsame.
  - apply Hk; [|done]. by apply vsame_keeps.
Qed.
Lemma p1_reachable_inv sem0 c : rtc p1_step (mkReplica (server_init sem0) ∅, []) c → p1_inv c.
Proof.
  intros H. assert (p1_inv (mkReplica (server_init sem0) ∅, [])) as I0.
  { split; [|constructor]. intros e d r He%elem_of_nil. done. }
  revert I0. induction H as [|x y z Hs _ IH]; [done|]. intros I. apply IH. by eapply p1_step_inv.
Qed.

(** C8: A replica votes once.  Whatever the order of phase-1 messages of the
    client and of fallback clients, phase-2 messages, writebacks, messages of
    the fallback, finished
    dependencies, and of the threads that check endorsements, proposals and
    conflicts: all votes it has sent for a transaction that is not finished
    are the same, and equal to the vote it has stored, which is what the
    certificates of Quorum.v assume of a correct replica. *)
Theorem one_vote_while_unfinished sem0 r T e1 e2 d r1 r2 :
  rtc p1_step (mkReplica (server_init sem0) ∅, []) (r, T) →
  e1 ∈ out (rp_server r) → p1_vote e1 = Some (d, r1) → e2 ∈ out (rp_server r) → p1_vote e2 = Some (d, r2) →
  finished (rp_server r) d = false →
  r1 = r2 ∧ r1 ≠ WAIT ∧ LookupP1Decision (rp_server r) d = Some r1.
Proof.
  intros Hr He1 Hv1 He2 Hv2 Hf. apply p1_reachable_inv in Hr as [I _]. cbn in I.
  destruct (I _ _ _ He1 Hv1) as [H1|H1]; [|congruence]. destruct (I _ _ _ He2 Hv2) as [H2|H2]; [|congruence].
  rewrite H1 in H2. simplify_eq. split_and!; [done| |done].
  unfold LookupP1Decision in H1. destruct (p1MetaData _ !! d); [|done]. destruct (pm_hasP1 _ && bool_decide _) eqn:Hb; [|done].
  simplify_eq. by apply andb_true_iff in Hb as [_ Hw%bool_decide_eq_true].
Qed.

(** ** A proposal that is not valid *)

(** A proposal whose signature does not verify stops the replica: it has
    been added to the ongoing transactions before the check, and removing it
    ends in a panic.  Anyone can send one. *)
Theorem invalid_proposal_stops_replica r sc remote msg :
  let t := parse_txn (sm_data (p1_signed_txn msg)) in
  let d := if hashEndorsements && negb (bool_decide (endorsements t = [])) then TransactionDigest true t else TransactionDigest false t in
  signClientProposals = true → multiThreading = false → verifyDeps = false → optimisticTxID = false →
  ooMessages (rp_server r) !! d = None → p1MetaData (rp_server r) !! d = None → finished (rp_server r) d = false →
  verify_client (sm_process_id (p1_signed_txn msg)) (sm_data (p1_signed_txn msg)) (sm_signature (p1_signed_txn msg)) = false →
  HandlePhase1 r sc remote msg = Panic.
Proof.
  intros t d Hsg Hmt Hvd Hopt Hoo Hp1 Hf Hv. unfold Phase1.HandlePhase1. rewrite Hsg. fold t. fold d.
  rewrite Hoo, Hp1. cbn. apply orb_false_iff in Hf as [-> ->].
  unfold ProcessProposal, Phase1.AddOngoing_txn, RegisterTxTS. rewrite Hopt. cbn. rewrite Hsg, Hmt. cbn.
  unfold Phase1.CheckProposalValidity. rewrite Hvd, andb_false_r, Hsg. cbn. unfold VerifyClientProposal. rewrite Hv.
  destruct (negb (ts_id _ =? _)); cbn; unfold RemoveOngoing; cbn; by rewrite lookup_insert_eq.
Qed.
End reception.
End votes.

Module Phase1Example.
Import QuorumExample.
#[local] Instance env : Env := demo_env false.
(** A transaction that reads one key, proposed by its client and then by a
    fallback client. *)
Definition t : Transaction :=
  mkTxn 3 1 [mkRead "k" ts_zero false ""] [] [] (mkTs 20000 3) [] [] [] None None NONE [] [] "" [] [] [0].
Definition dig (_ : bool) (_ : Transaction) : digest := "d".
Definition no_sig : SignedMessage := mkSigned 3 "" "".
Definition now : sched := mkSched (2^62) [] [] [].
Notation P1 := (HandlePhase1 config ser_cc ser_p2 Verify dig (λ x, x) (λ _, t) (λ _, mkPW "" ts_zero "") (λ _, None) false false false 1 (λ x, x)).
Notation P1FB := (HandlePhase1FB Verify dig (λ _, t) (λ _, mkPW "" ts_zero "") (λ _, None) false false 1).
Definition rep0 : replica := mkReplica (server_init (E := env) ()) ∅.
Definition from (x : outcome (replica * list task)) : replica * list task := match x with Done x => x | Panic => (rep0, []) end.
Definition c1 : replica * list task := from (P1 rep0 now 70 (mkP1Msg 5 t no_sig false)).
Definition c2 : replica * list task := from (P1FB c1.1 now 80 (mkP1FBMsg 6 9 t no_sig)).
Definition reply1 : event := Phase1Reply 5 COMMIT null "d" (Some 70) None false false.
Definition reply2 : event := Phase1FBReply 6 "d" (Some (mkP1Part COMMIT null None)) None (Some 0) {[0 := 80]}.

Lemma one_vote_while_unfinished_witness :
  out (rp_server c2.1) = [reply1; reply2] ∧
  COMMIT = COMMIT ∧ COMMIT ≠ WAIT ∧ LookupP1Decision (rp_server c2.1) "d" = Some COMMIT.
Proof.
  assert (out (rp_server c2.1) = [reply1; reply2]) as Ho by (vm_compute; reflexivity). split; [exact Ho|].
  apply (one_vote_while_unfinished (E := env) (λ x, x) config ser_cc ser_p2 Verify dig (λ x, x) (λ _, t) (λ _, mkPW "" ts_zero "") (λ _, None)
    false false false 1 (λ _, "") (λ _, mkP2Msg DCOMMIT 0 0 "d") (λ _, mkView 0 "d") (λ _, mkElect 0 DCOMMIT 0 "d") (λ _, mkMoveView "d" 0) (λ x, x) (λ _, true) () c2.1 [] reply1 reply2).
  - eapply rtc_l; [|apply rtc_once].
    + apply (ps_phase1 _ _ _ _ _ _ _ _ _ _ _ _ _ _ _ _ _ _ _ _ _ rep0 [] now 70 (mkP1Msg 5 t no_sig false) c1.1 []). vm_compute. reflexivity.
    + apply (ps_phase1fb _ _ _ _ _ _ _ _ _ _ _ _ _ _ _ _ _ _ _ _ _ c1.1 [] now 80 (mkP1FBMsg 6 9 t no_sig) c2.1 []). vm_compute. reflexivity.
  - rewrite Ho. left.
  - reflexivity.
  - rewrite Ho. right. left.
  - reflexivity.
  - vm_compute. reflexivity.
Defined.

(** Without [hashEndorsements] the digest of the transaction and the digest
    the endorsers signed are one string on the main thread: a transaction
    with policy versions is voted for under the second, while it is ongoing
    under the first.  It is not prepared, and the first gets no result. *)
Definition tv : Transaction :=
  mkTxn 3 1 [mkRead "k" ts_zero false ""] [] [] (mkTs 20000 3) [] [] [] None None NONE [] [] "" [] [mkPolicyVersion "p" ts_zero] [0].
Definition cv : replica * list task :=
  from (HandlePhase1 config ser_cc ser_p2 Verify dig (λ _, "h") (λ _, tv) (λ _, mkPW "" ts_zero "") (λ _, None) false false false 1
          (λ x, x) rep0 now 70 (mkP1Msg 5 tv no_sig false)).
Example policy_versions_lose_digest :
  out (rp_server cv.1) = [Phase1Reply 5 COMMIT null "h" (Some 70) None false false] ∧
  dom (ongoing (rp_server cv.1)) = {["d"]} ∧ prepared (rp_server cv.1) = ∅ ∧
  LookupP1Decision (rp_server cv.1) "d" = None.
Proof. vm_compute. repeat split; reflexivity. Qed.
End Phase1Example.
