(* ===== verification/ClientFallback.v ===== *)
(** * The fallback at a client

    A client whose transaction waits for, or conflicts with, a stalled one
    finishes the stalled one.  Per transaction, [Client]
    (src/src/store/sintrstore/client.cc) keeps an instance like one of its own
    requests, and the [ShardClient] of each involved group (shardclient.cc) a
    [PendingFB]: the votes, the logged decisions by view, and the views the
    replicas of the log group report, from which it derives the view it asks
    them to move to.

    The two classes call each other in the middle of their functions, so that
    their fallback state is one record.  Injected failures are left out. *)
From S2P Require Import Prelude OrderedSeq CppString Timestamp VersionStore Policy PolicyParse ServerState ServerTxn MVTSO Endorse AsyncPrepare Quorum AsyncVerify Phase2 Fallback Snapshot Digest Phase1 ShardClient ClientCommit.

(** ** Messages *)

Record CurrentView := mkCurrentView { cv_current_view : Z; cv_replica_id : Z }.
Inductive AttachedView := NoView | PlainView (v : CurrentView) | SignedView (sm : SignedMessage).
Record Phase1FBReply := mkP1FBR {
  pfr_txn_digest : digest;
  pfr_wb : option Writeback;
  pfr_p1r : option Phase1Reply;
  pfr_p2r : option Phase2Reply;
  pfr_attached_view : AttachedView
}.
Record Phase2FBReply := mkP2FBR { sfr_txn_digest : digest; sfr_p2r : Phase2Reply; sfr_attached_view : AttachedView }.
Record RelayP1 := mkRelay { rl_dependent_id : Z; rl_p1 : Phase1; rl_dependent_txn : digest }.

(** ** State *)

(** [PendingPhase2] of a view and a decision. *)
Record PendingP2 := mkPP2FB { pp_reqId : Z; pp_replicasVerified : list Z; pp_sigs : list Signature; pp_matchingReplies : Z }.
Definition PendingP2_new : PendingP2 := mkPP2FB 0 [] [] 0.

(** The decisions logged so far, and the views, of a [PendingFB].  [catchup]
    is not initialised. *)
Record P2Log := mkP2Log {
  lg_max_decision_view : Z;
  lg_pendingP2s : gmap Z (gmap CommitDecision PendingP2);
  lg_p2Replies : gmap CommitDecision (list Phase2Reply);
  lg_process_ids : gset Z
}.
Record Views := mkViews {
  vs_current_views : gmap Z (Z * SignedMessage);
  vs_view_levels : gmap Z (gset Z);
  vs_last_view : Z;
  vs_max_view : Z;
  vs_conflict_view : Z;
  vs_catchup : option bool;
  vs_call_invokeFB : bool;
  vs_view_invoker : option (Z * Transaction * CommitDecision)
}.
Record PendingFB := mkPFB {
  fb_pendingP1 : PendingPhase1;
  fb_logGrp : Z;
  fb_p1 : bool;
  fb_log : P2Log;
  fb_views : Views
}.
Definition PendingFB_new (p : PendingPhase1) (logGrp : Z) : PendingFB :=
  mkPFB p logGrp true (mkP2Log 0 ∅ ∅ ∅) (mkViews ∅ ∅ 0 0 0 None false None).

(** An instance: a [PendingRequest] with the members the fallback uses.
    [fr_conflict_id] is bound to its callbacks. *)
Record FBRequest := mkFR {
  fr_id : Z;
  fr_req : PendingRequest;
  fr_signed_txn : SignedMessage;
  fr_p2Replies : list Phase2Reply;
  fr_startedWriteback : bool;
  fr_logGrp : Z;
  fr_conflict_id : Z;
  fr_dependent : option digest
}.
(** What relays look at in a request of the client itself. *)
Record RelayState := mkRS { rs_txn : Transaction; rs_startFB : bool; rs_RelayP1s : gmap digest Phase1 }.

Inductive FBOut :=
| OutPhase1FB (group : Z) (msg : Phase1FB)
| OutPhase2FB (group : Z) (msg : Phase2FB)
| OutInvokeFB (group : Z) (msg : InvokeFB)
| OutWriteback (group : Z) (wb : Writeback)
| OutForwarded (group : Z) (wb : Writeback) (txn : Transaction).

(** [fc_phase1s]: the pending phase-1 requests by group and number, and the
    request of the client each belongs to. *)
Record FBClient := mkFC {
  fc_shards : gmap Z (gmap digest PendingFB);
  fc_instances : gmap digest FBRequest;
  fc_completed : gset digest;
  fc_phase1s : gmap (Z * Z) Z;
  fc_requests : gmap Z RelayState;
  fc_sent : list FBOut
}.
Definition FBClient_new (groups : gset Z) : FBClient := mkFC (set_to_map (λ g, (g, ∅)) groups) ∅ ∅ ∅ ∅ [].
Definition upd_fshards (f : gmap Z (gmap digest PendingFB) → gmap Z (gmap digest PendingFB)) (st : FBClient) : FBClient :=
  mkFC (f (fc_shards st)) (fc_instances st) (fc_completed st) (fc_phase1s st) (fc_requests st) (fc_sent st).
Definition upd_instances (f : gmap digest FBRequest → gmap digest FBRequest) (st : FBClient) : FBClient :=
  mkFC (fc_shards st) (f (fc_instances st)) (fc_completed st) (fc_phase1s st) (fc_requests st) (fc_sent st).
Definition add_completed (d : digest) (st : FBClient) : FBClient :=
  mkFC (fc_shards st) (fc_instances st) ({[d]} ∪ fc_completed st) (fc_phase1s st) (fc_requests st) (fc_sent st).
Definition upd_requests (f : gmap Z RelayState → gmap Z RelayState) (st : FBClient) : FBClient :=
  mkFC (fc_shards st) (fc_instances st) (fc_completed st) (fc_phase1s st) (f (fc_requests st)) (fc_sent st).
Definition fsend (o : FBOut) (st : FBClient) : FBClient :=
  mkFC (fc_shards st) (fc_instances st) (fc_completed st) (fc_phase1s st) (fc_requests st) (fc_sent st ++ [o]).

Definition get_pf (g : Z) (d : digest) (st : FBClient) : option PendingFB := fc_shards st !! g ≫= (!!) d.
Definition set_pf (g : Z) (d : digest) (pf : PendingFB) : FBClient → FBClient := upd_fshards (alter (<[d := pf]>) g).
Definition clean_pf (d : digest) (g : Z) : FBClient → FBClient := upd_fshards (alter (delete d) g).

Definition with_p1 (p : PendingPhase1) (pf : PendingFB) : PendingFB :=
  mkPFB p (fb_logGrp pf) (fb_p1 pf) (fb_log pf) (fb_views pf).
Definition stop_p1 (pf : PendingFB) : PendingFB := mkPFB (fb_pendingP1 pf) (fb_logGrp pf) false (fb_log pf) (fb_views pf).
Definition with_log (l : P2Log) (pf : PendingFB) : PendingFB :=
  mkPFB (fb_pendingP1 pf) (fb_logGrp pf) (fb_p1 pf) l (fb_views pf).
Definition with_views (w : Views) (pf : PendingFB) : PendingFB :=
  mkPFB (fb_pendingP1 pf) (fb_logGrp pf) (fb_p1 pf) (fb_log pf) w.
Definition with_req (r : PendingRequest) (fr : FBRequest) : FBRequest :=
  mkFR (fr_id fr) r (fr_signed_txn fr) (fr_p2Replies fr) (fr_startedWriteback fr) (fr_logGrp fr) (fr_conflict_id fr)
    (fr_dependent fr).

Section fallback.
Variable config : Configuration.
Variable ser_cc : CCMsg → string.
Variable ser_p2 : P2Msg → string.
Variable Verify : Z → string → string → bool.
Variable policyFn : string → string → string.
Variable TransactionDigest : Transaction → digest.
Variable parse_cc : string → option ConcurrencyControl.
Variable parse_p2 : string → option P2Msg.
Variable parse_cview : string → CurrentView.
Variable parse_txn : string → Transaction.
Variables validateProofs signedMessages signClientProposals all_to_all_fb sql_mode : bool.
Variables (client_id phase1DecisionTimeout : Z).
(** Variables and members the code reads without having set them. *)
Variable junk : Z.
(** The part of [isDep] on the queries of a transaction. *)
Variable query_dep : digest → Transaction → Transaction → outcome bool.
Notation f := (cf_f config).
Implicit Types (g : Z) (d : digest) (st : FBClient) (pf : PendingFB) (w : Views) (fr : FBRequest).

(** ** Views *)

(** A replica moves from one level to another; a level that gets empty is
    erased. *)
Definition move_level (id stored_view set_view : Z) (m : gmap Z (gset Z)) : gmap Z (gset Z) :=
  let old := default ∅ (m !! stored_view) ∖ {[id]} in
  let m := if decide (old = ∅) then delete stored_view m else <[stored_view := old]> m in
  <[set_view := {[id]} ∪ default ∅ (m !! set_view)]> m.
Definition with_moved (views : gmap Z (Z * SignedMessage)) (levels : gmap Z (gset Z)) w : Views :=
  mkViews views levels (vs_last_view w) (vs_max_view w) (vs_conflict_view w) (vs_catchup w) (vs_call_invokeFB w) (vs_view_invoker w).

(** The view a replica reports, stored under the id in the report; the level
    is that of the replica that signed it.  [None]: nothing changes.  Without
    signatures the new level is a variable that was not set. *)
Definition update_views g (ac : AttachedView) w : option Views :=
  if validateProofs && signedMessages then
    match ac with
    | SignedView sm =>
        let id := sm_process_id sm in
        let v := parse_cview (sm_data sm) in
        let stored := fst <$> vs_current_views w !! id in
        if match stored with Some sv => cv_current_view v <=? sv | None => false end then None
        else if negb (IsReplicaInGroup config id g) then None
        else if negb (Verify id (sm_data sm) (sm_signature sm)) then None
        else Some (with_moved (<[cv_replica_id v := (cv_current_view v, sm)]> (vs_current_views w))
                     (move_level id (default junk stored) (cv_current_view v) (vs_view_levels w)) w)
    | _ => None
    end
  else
    match ac with
    | PlainView v =>
        let id := cv_replica_id v in
        let stored := fst <$> vs_current_views w !! id in
        if match stored with Some sv => cv_current_view v <=? sv | None => false end then None
        else if negb (IsReplicaInGroup config id g) then None
        else Some (with_moved (<[id := (cv_current_view v, mkSigned 0 "" "")]> (vs_current_views w))
                     (move_level id (default junk stored) junk (vs_view_levels w)) w)
    | _ => None
    end.

(** Levels from the highest view down. *)
Definition higher (a b : Z * gset Z) : Prop := b.1 ≤ a.1.
#[export] Instance higher_dec : RelDecision higher := λ a b, decide (b.1 ≤ a.1).
Definition levels_desc (m : gmap Z (gset Z)) : list (Z * gset Z) := merge_sort higher (map_to_list m).
Definition ids_asc (ids : gset Z) : list Z := merge_sort Z.le (elements ids).

Fixpoint max_level (count : Z) (levels : list (Z * gset Z)) (cur : Z * option bool) : Z * option bool :=
  match levels with
  | [] => cur
  | (v, ids) :: rest =>
      let n := u64 (count + Z.of_nat (size ids)) in
      if v <? cur.1 then cur
      else if n >=? u64 (3 * f + 1) then (u64 (v + 1), Some false)
      else if n >=? u64 (f + 1) then (v, Some true)
      else max_level n rest cur
  end.
Definition ComputeMaxLevel w : Views :=
  let '(max_view, catchup) := max_level 0 (levels_desc (vs_view_levels w)) (vs_max_view w, vs_catchup w) in
  mkViews (vs_current_views w) (vs_view_levels w) (vs_last_view w) max_view (vs_conflict_view w) catchup
    (vs_call_invokeFB w) (vs_view_invoker w).

Definition reply_msg (r : Phase2Reply) : P2ReplyMsg :=
  match p2r_vote r with NoDecision => P2Unset | PlainDecision m => P2Plain m | SignedDecision sm => P2Signed sm end.

(** [sv = current_views[id]] creates the entry when it is missing. *)
Definition signed_view (views : gmap Z (Z * SignedMessage)) (id : Z) : SignedMessage :=
  default (mkSigned 0 "" "") (snd <$> views !! id).
Definition touch_views (views : gmap Z (Z * SignedMessage)) (ids : list Z) : gmap Z (Z * SignedMessage) :=
  foldl (λ m id, match m !! id with Some _ => m | None => <[id := (junk, mkSigned 0 "" "")]> m end) views ids.

(** [proposed_view] is a reference to [max_view].  [catchup] of the message is
    never set. *)
Definition ShardClient_InvokeFB g (conflict_id : Z) d (txn : Transaction) (decision : CommitDecision)
    (p2Replies : list Phase2Reply) st : outcome FBClient :=
  match get_pf g d st with
  | None => Done st
  | Some pf =>
      let p2fb := mkP2FB conflict_id decision (Some txn) d None (Some (reply_msg <$> p2Replies)) in
      if all_to_all_fb then Done (fsend (OutInvokeFB g (mkInvoke conflict_id d (Some p2fb) 0 false None)) st)
      else
        let w := ComputeMaxLevel (fb_views pf) in
        let proposed := if vs_max_view w >? u64 (vs_conflict_view w + 1) then u64 (vs_conflict_view w + 1) else vs_max_view w in
        if proposed <=? vs_last_view w then
          let w := mkViews (vs_current_views w) (vs_view_levels w) (vs_last_view w) proposed (vs_conflict_view w)
                     (vs_catchup w) true (Some (conflict_id, txn, decision)) in
          Done (set_pf g d (with_views w pf) st)
        else
          match vs_catchup w with
          | None => Panic
          | Some catchup =>
              let ids := take (Z.to_nat (if catchup then f + 1 else 3 * f + 1))
                           (levels_desc (vs_view_levels w) ≫= λ l, ids_asc l.2) in
              let msgs := signed_view (vs_current_views w) <$> ids in
              let w := mkViews (touch_views (vs_current_views w) ids) (vs_view_levels w) proposed proposed
                         (vs_conflict_view w) (vs_catchup w) false (vs_view_invoker w) in
              Done (fsend (OutInvokeFB g (mkInvoke conflict_id d (Some p2fb) proposed false (Some msgs)))
                      (set_pf g d (with_views w pf) st))
          end
  end.

(** The replies handed to a postponed invocation are those of the instance. *)
Definition UpdateViewStructure g d (ac : AttachedView) st : outcome FBClient :=
  match get_pf g d st with
  | None => Done st
  | Some pf =>
      match update_views g ac (fb_views pf) with
      | None => Done st
      | Some w =>
          let st := set_pf g d (with_views w pf) st in
          if vs_call_invokeFB w then
            match vs_view_invoker w, fc_instances st !! d with
            | Some (conflict_id, txn, decision), Some fr => ShardClient_InvokeFB g conflict_id d txn decision (fr_p2Replies fr) st
            | _, _ => Panic
            end
          else Done st
      end
  end.
Definition attach_view g d (ac : AttachedView) st : outcome FBClient :=
  match get_pf g d st with
  | None => Done st
  | Some pf => if negb all_to_all_fb && (fb_logGrp pf =? g) then UpdateViewStructure g d ac st else Done st
  end.

(** ** The instance *)

(** [ShardClient::CleanFB] at the involved groups, and the instance is
    erased. *)
Definition Client_CleanFB d fr st : FBClient :=
  upd_instances (delete d) (foldl (λ st g, clean_pf d g st) st (involved_groups (rq_txn (fr_req fr)))).

Definition Client_WritebackFB d fr st : outcome FBClient :=
  wb ← WritebackProcessing config validateProofs signedMessages (fr_req fr);
  let st := foldl (λ st g, fsend (OutWriteback g wb) st) st (involved_groups (rq_txn (fr_req fr))) in
  Done (Client_CleanFB d fr (add_completed d st)).

Definition StopP1FB d g st : FBClient :=
  match get_pf g d st with Some pf => set_pf g d (stop_p1 pf) st | None => st end.

(** With [f + 1] logged decisions they are the proof, else the votes. *)
Definition Client_Phase2FB d fr st : outcome FBClient :=
  let r := fr_req fr in
  let proofs := validateProofs && signedMessages in
  '(r, p1_sigs, p2_replies) ←
    (if Z.of_nat (length (fr_p2Replies fr)) >=? f + 1 then
       Done (mkReq (rq_outstandingPhase1s r) (rq_decision r) (rq_decision_view r) (rq_fast r) (rq_conflict_flag r)
               (rq_conflict r) true (rq_p1ReplySigsGrouped r) (rq_p2ReplySigsGrouped r) (rq_txn r) (rq_txnDigest r)
               (rq_slowAbortGroup r) (rq_fastAbortGroup r), None,
             if proofs then Some (reply_msg <$> fr_p2Replies fr) else None)
     else
       r ← Phase2Processing config validateProofs signedMessages r;
       Done (r, if proofs then Some (map_to_list (rq_p1ReplySigsGrouped r)) else None, None));
  let st := fsend (OutPhase2FB (fr_logGrp fr) (mkP2FB (fr_id fr) (rq_decision r) None d p1_sigs p2_replies))
              (upd_instances (<[d := with_req r fr]>) st) in
  Done (foldl (λ st g, StopP1FB d g st) st (involved_groups (rq_txn r))).

Definition FBHandleAllPhase1Received d fr st : outcome FBClient :=
  if rq_fast (fr_req fr) then Client_WritebackFB d fr st else Client_Phase2FB d fr st.

(** The votes of a group are complete. *)
Definition Phase1FBcallbackA g d (cb : P1Callback) st : outcome FBClient :=
  match fc_instances st !! d with
  | None => Done st
  | Some fr =>
      if rq_startedPhase2 (fr_req fr) || fr_startedWriteback fr then Done st
      else
        r ← Phase1CallbackProcessing validateProofs signedMessages g cb (fr_req fr);
        let fr := with_req r fr in
        let st := upd_instances (<[d := fr]>) st in
        if rq_outstandingPhase1s r =? 0 then FBHandleAllPhase1Received d fr st else Done st
  end.

(** A group reports [f + 1] logged decisions; they are kept for [Phase2FB] and
    [InvokeFB].  [false]: there is no instance. *)
Definition set_decision_of (decision : CommitDecision) (r : PendingRequest) : PendingRequest :=
  mkReq (rq_outstandingPhase1s r) decision (rq_decision_view r) (rq_fast r) (rq_conflict_flag r) (rq_conflict r)
    (rq_startedPhase2 r) (rq_p1ReplySigsGrouped r) (rq_p2ReplySigsGrouped r) (rq_txn r) (rq_txnDigest r)
    (rq_slowAbortGroup r) (rq_fastAbortGroup r).
Definition Phase1FBcallbackB d (decision : CommitDecision) (p2replies : list Phase2Reply) st : FBClient * bool :=
  match fc_instances st !! d with
  | None => (st, false)
  | Some fr =>
      if rq_startedPhase2 (fr_req fr) || fr_startedWriteback fr then (st, true)
      else (upd_instances (<[d := mkFR (fr_id fr) (set_decision_of decision (fr_req fr)) (fr_signed_txn fr) p2replies
                                   (fr_startedWriteback fr) (fr_logGrp fr) (fr_conflict_id fr) (fr_dependent fr)]>) st, true)
  end.

Definition Phase2FBcallback g d (decision : CommitDecision) (sigs : list Signature) (view : Z) st : outcome FBClient :=
  match fc_instances st !! d with
  | None => Done st
  | Some fr =>
      if fr_startedWriteback fr then Done st
      else
        let r := fr_req fr in
        Client_WritebackFB d
          (with_req
             (mkReq (rq_outstandingPhase1s r) decision view false (rq_conflict_flag r) (rq_conflict r) (rq_startedPhase2 r)
                (rq_p1ReplySigsGrouped r)
                (if validateProofs && signedMessages then <[g := sigs]> (rq_p2ReplySigsGrouped r)
                 else rq_p2ReplySigsGrouped r)
                (rq_txn r) (rq_txnDigest r) (rq_slowAbortGroup r) (rq_fastAbortGroup r)) fr) st
  end.

(** A replica sent a finished writeback: it is forwarded as it is, with the
    transaction. *)
Definition WritebackFBcallback d (wb : Writeback) st : FBClient :=
  match fc_instances st !! d with
  | None => st
  | Some fr =>
      if fr_startedWriteback fr then st
      else
        let txn := rq_txn (fr_req fr) in
        let st := foldl (λ st g, clean_pf d g (fsend (OutForwarded g wb txn) st)) st (involved_groups txn) in
        upd_instances (delete d) (add_completed d st)
  end.

Definition Client_InvokeFBcallback g d st : outcome (FBClient * bool) :=
  match fc_instances st !! d with
  | None => Done (st, false)
  | Some fr =>
      if fr_startedWriteback fr then Done (st, true)
      else if Z.of_nat (length (fr_p2Replies fr)) <? f + 1 then Done (st, true)
      else
        st ← ShardClient_InvokeFB g (fr_conflict_id fr) d (rq_txn (fr_req fr)) (rq_decision (fr_req fr)) (fr_p2Replies fr) st;
        Done (st, true)
  end.

(** ** Logged decisions *)

(** The decision a reply reports, its view, its signature and its signer;
    without signatures the signer reads as 0. *)
Definition p2_of g (reply : Phase2Reply) : option (CommitDecision * Z * Z * list Signature) :=
  if validateProofs && signedMessages then
    match p2r_vote reply with
    | SignedDecision sm =>
        let pid := sm_process_id sm in
        if negb (IsReplicaInGroup config pid g) then None
        else if negb (Verify pid (sm_data sm) (sm_signature sm)) then None
        else (λ m, (p2_decision m, p2_view m, pid, [mkSig pid (sm_signature sm)])) <$> parse_p2 (sm_data sm)
    | _ => None
    end
  else
    let '(decision, view) := plain_decision (p2r_vote reply) in
    Some (decision, default 0 view, 0, []).

Definition p2_entry (l : P2Log) (view : Z) (decision : CommitDecision) : PendingP2 :=
  default PendingP2_new (default ∅ (lg_pendingP2s l !! view) !! decision).
Definition set_entry (view : Z) (decision : CommitDecision) (e : PendingP2) (l : P2Log) : P2Log :=
  mkP2Log (lg_max_decision_view l) (<[view := <[decision := e]> (default ∅ (lg_pendingP2s l !! view))]> (lg_pendingP2s l))
    (lg_p2Replies l) (lg_process_ids l).
Definition set_max (view : Z) (l : P2Log) : P2Log :=
  mkP2Log view (lg_pendingP2s l) (lg_p2Replies l) (lg_process_ids l).
Definition add_reply (decision : CommitDecision) (pid : Z) (reply : Phase2Reply) (l : P2Log) : P2Log :=
  if bool_decide (pid ∈ lg_process_ids l) then l
  else mkP2Log (lg_max_decision_view l) (lg_pendingP2s l)
         (<[decision := default [] (lg_p2Replies l !! decision) ++ [reply]]> (lg_p2Replies l)) ({[pid]} ∪ lg_process_ids l).

(** While votes are collected, replies are kept until [f + 1] agree. *)
Definition collect_replies g d (decision : CommitDecision) (pid : Z) (reply : Phase2Reply) st : FBClient * bool :=
  match get_pf g d st with
  | Some pf =>
      if fb_p1 pf then
        let pf := with_log (add_reply decision pid reply (fb_log pf)) pf in
        let replies := default [] (lg_p2Replies (fb_log pf) !! decision) in
        if Z.of_nat (length replies) =? f + 1
        then Phase1FBcallbackB d decision replies (set_pf g d (stop_p1 pf) st)
        else (set_pf g d pf st, true)
      else (st, true)
  | None => (st, true)
  end.

(** [f + 1] replicas each for both decisions, in the newest view: the
    replicas have to elect a leader. *)
Definition set_conflict (view : Z) w : Views :=
  mkViews (vs_current_views w) (vs_view_levels w) (vs_last_view w) (vs_max_view w) view (vs_catchup w) (vs_call_invokeFB w)
    (vs_view_invoker w).
Definition invoke_on_divergence g d (view : Z) st : outcome (FBClient * bool) :=
  match get_pf g d st with
  | Some pf =>
      let l := fb_log pf in
      let enough decision := pp_matchingReplies (p2_entry l view decision) >=? u64 (f + 1) in
      if (lg_max_decision_view l =? view) && enough DCOMMIT && enough DABORT then
        let pf := with_views (set_conflict view (fb_views pf)) (stop_p1 pf) in
        let st := set_pf g d pf st in
        if u64 (view + 1) >? vs_last_view (fb_views pf) then Client_InvokeFBcallback g d st else Done (st, true)
      else Done (st, true)
  | None => Done (st, true)
  end.

(** The loop erases the element its iterator points to and then advances it,
    which is undefined. *)
Definition first_view (l : P2Log) : option Z :=
  map_fold (λ v _ o, Some (match o with Some w => Z.min v w | None => v end)) None (lg_pendingP2s l).
Definition delete_old_views (l : P2Log) : outcome unit :=
  match first_view l with
  | Some v => uw_assert (u64 (v + 1) >=? lg_max_decision_view l)
  | None => Done tt
  end.

Definition ProcessP2FBR g d (reply : Phase2Reply) st : outcome (FBClient * bool) :=
  match get_pf g d st, p2_of g reply with
  | Some pf, Some (decision, view, pid, sig) =>
      let l := fb_log pf in
      if lg_max_decision_view l >? u64 (view + 1) then Done (st, false)
      else
        let e := p2_entry l view decision in
        if bool_decide (pid ∈ pp_replicasVerified e) then
          Done (set_pf g d (with_log (set_entry view decision
            (mkPP2FB (p2r_req_id reply) (pp_replicasVerified e) (pp_sigs e) (pp_matchingReplies e)) l) pf) st, false)
        else
          let k := u64 (pp_matchingReplies e + 1) in
          let e := mkPP2FB (p2r_req_id reply) (pid :: pp_replicasVerified e) (pp_sigs e ++ sig) k in
          let newer := (k >? u64 f) && (view >? lg_max_decision_view l) in
          let l := set_entry view decision e (if newer then set_max view l else l) in
          let st := set_pf g d (with_log l pf) st in
          if k =? QuorumSize config then
            st ← Phase2FBcallback g d decision (pp_sigs e) view st; Done (st, true)
          else
            let '(st, active) := collect_replies g d decision pid reply st in
            if negb active then Done (st, true)
            else
              '(st, active) ← invoke_on_divergence g d view st;
              if negb active then Done (st, true)
              else
                _ ← (if newer then delete_old_views l else Done tt);
                Done (st, false)
  | _, _ => Done (st, false)
  end.

(** ** Votes *)

Definition Phase1FBDecision g d pf st : outcome FBClient :=
  let p := fb_pendingP1 pf in
  let st := set_pf g d (stop_p1 pf) st in
  _ ← uw_assert (p1_conflict_flag p || negb (bool_decide (p1_p1ReplySigs p = ∅)));
  Phase1FBcallbackA g d (mkCb1 (p1_txnId p) (p1_decision p) (p1_fast p) (p1_conflict_flag p) (p1_conflict p) (p1_p1ReplySigs p)) st.

Definition fb_tentative g d (decision : CommitDecision) (p : PendingPhase1) pf st : outcome FBClient :=
  if (phase1DecisionTimeout =? 0) && p1_first_decision p
  then Phase1FBDecision g d (with_p1 (p1_decide decision false (p1_spend_first p)) pf) st
  else Done (set_pf g d (with_p1 (match p1_timer p with Some _ => p | None => p1_start_timer decision p end) pf) st).

Definition fb_act g d (reply : Phase1Reply) (cc : ConcurrencyControl) (p : PendingPhase1) pf st : outcome FBClient :=
  let decide_now decision fast p := Phase1FBDecision g d (with_p1 (p1_decide decision fast p) pf) st in
  match v1_state (p1_validator p) with
  | FAST_COMMIT =>
      _ ← uw_assert (bool_decide (p1r_insufficient_endorsements reply = None)); decide_now DCOMMIT true p
  | FAST_ABORT =>
      decide_now DABORT true
        (p1_with_conflict (if validateProofs then Some (cc_committed_conflict cc) else p1_conflict p) p)
  | FAST_ABSTAIN => decide_now DABORT true p
  | SLOW_COMMIT_FINAL => decide_now DCOMMIT false p
  | SLOW_ABORT_FINAL => decide_now DABORT false p
  | SLOW_COMMIT_TENTATIVE => fb_tentative g d DCOMMIT p pf st
  | SLOW_ABORT_TENTATIVE | SLOW_ABORT_TENTATIVE2 => fb_tentative g d DABORT p pf st
  | EQUIVOCATE => Panic
  | NOT_ENOUGH => Done (set_pf g d (with_p1 p pf) st)
  end.

(** [ProcessP1R] on the fallback's path. *)
Definition ProcessP1FBR g d (reply : Phase1Reply) st : outcome FBClient :=
  match get_pf g d st with
  | None => Done st
  | Some pf =>
      if negb (fb_p1 pf) then Done st
      else
        r ← p1_vote_of config Verify parse_cc validateProofs signedMessages g reply (fb_pendingP1 pf);
        match r with
        | inl p => Done (set_pf g d (with_p1 p pf) st)
        | inr (p, cc, signed) =>
            '(v, counted) ← ProcessMessage config ser_cc ser_p2 Verify policyFn TransactionDigest validateProofs signedMessages
                              (p1_txn p) (p1_txnDigest p) (p1_validator p) cc;
            _ ← uw_assert counted;
            let p := p1_set_validator v p in
            let p := match signed with Some sm => p1_add_sig (cc_ccr (cc_vote cc)) reply sm p | None => p end in
            fb_act g d reply cc (p1_add_conflict (p1r_abstain_conflict reply) p) pf st
        end
  end.
Definition P1FBTimer g d st : outcome FBClient :=
  match get_pf g d st with
  | Some pf =>
      match fb_p1 pf, p1_timer (fb_pendingP1 pf) with
      | true, Some decision => Phase1FBDecision g d (with_p1 (p1_decide decision false (fb_pendingP1 pf)) pf) st
      | _, _ => Done st
      end
  | None => Done st
  end.

(** ** Handlers *)

Definition HandlePhase1FBReply g (reply : Phase1FBReply) st : outcome FBClient :=
  let d := pfr_txn_digest reply in
  match get_pf g d st with
  | None => Done st
  | Some _ =>
      match pfr_wb reply with
      | Some wb => Done (WritebackFBcallback d wb st)
      | None =>
          st ← attach_view g d (pfr_attached_view reply) st;
          '(st, finished) ← (match pfr_p2r reply with Some p2r => ProcessP2FBR g d p2r st | None => Done (st, false) end);
          match finished : bool, pfr_p1r reply with
          | false, Some p1r => ProcessP1FBR g d p1r st
          | _, _ => Done st
          end
      end
  end.
Definition HandlePhase2FBReply g (reply : Phase2FBReply) st : outcome FBClient :=
  let d := sfr_txn_digest reply in
  match get_pf g d st with
  | None => Done st
  | Some _ =>
      st ← attach_view g d (sfr_attached_view reply) st;
      '(st, _) ← ProcessP2FBR g d (sfr_p2r reply) st;
      Done st
  end.
Definition HandleSendViewMessage g d (ac : AttachedView) st : outcome FBClient := attach_view g d ac st.

(** ** Starting a fallback *)

Definition ShardClient_Phase1FB g d fr st : outcome FBClient :=
  match fc_shards st !! g with
  | None => Panic
  | Some _ =>
      let txn := rq_txn (fr_req fr) in
      Done (fsend (OutPhase1FB g (mkP1FBMsg client_id client_id txn (fr_signed_txn fr)))
              (set_pf g d (PendingFB_new (PendingPhase1_new client_id txn d) (fr_logGrp fr)) st))
  end.
Definition with_outstanding (k : Z) (r : PendingRequest) : PendingRequest :=
  mkReq k (rq_decision r) (rq_decision_view r) (rq_fast r) (rq_conflict_flag r) (rq_conflict r) (rq_startedPhase2 r)
    (rq_p1ReplySigsGrouped r) (rq_p2ReplySigsGrouped r) (rq_txn r) (rq_txnDigest r) (rq_slowAbortGroup r) (rq_fastAbortGroup r).

(** [Phase1FB], [Phase1FB_deeper] and [FinishConflict] create the instance;
    [SendPhase1FB] sends the proposal to the involved groups. *)
Definition new_instance (id conflict_id : Z) d (p1 : Phase1) (dependent : option digest) (logGrp : Z) : FBRequest :=
  let txn := Phase1.p1_txn p1 in
  mkFR id (with_outstanding (Z.of_nat (length (involved_groups txn))) (PendingRequest_new txn d))
    (p1_signed_txn p1) [] false logGrp conflict_id dependent.
Definition SendPhase1FB (id conflict_id : Z) d (p1 : Phase1) (dependent : option digest) st : outcome FBClient :=
  if bool_decide (is_Some (fc_instances st !! d)) then Done st
  else
    logGrp ← GetLogGroup (involved_groups (Phase1.p1_txn p1)) d;
    let fr := new_instance id conflict_id d p1 dependent logGrp in
    foldO (λ st g, ShardClient_Phase1FB g d fr st) (upd_instances (<[d := fr]>) st) (involved_groups (Phase1.p1_txn p1)).

Definition FinishConflict (reqId : Z) d (p1 : Phase1) st : outcome FBClient := SendPhase1FB 0 reqId d p1 None st.
Definition Client_Phase1FB d (conflict_id : Z) (p1 : Phase1) st : outcome FBClient :=
  SendPhase1FB (p1_req_id p1) conflict_id d p1 None st.
Definition Phase1FB_deeper (conflict_id : Z) d (dependent : digest) (p1 : Phase1) st : outcome FBClient :=
  SendPhase1FB (p1_req_id p1) conflict_id d p1 (Some dependent) st.

(** A transaction is finished only when the stalled one is a dependency. *)
Definition isDep d (req_txn txn : Transaction) : outcome bool :=
  if existsb (λ dep, bool_decide (d_prepared_txn_digest dep = d)) (deps req_txn) then Done true
  else if negb sql_mode then Done false
  else query_dep d req_txn txn.

Definition RelayP1callback (reqId : Z) (p1 : Phase1) d st : outcome FBClient :=
  match fc_requests st !! reqId with
  | None => Done st
  | Some rs =>
      if bool_decide (d ∈ fc_completed st) || bool_decide (is_Some (fc_instances st !! d)) then Done st
      else
        dep ← isDep d (rs_txn rs) (Phase1.p1_txn p1);
        if negb dep then Done st
        else if rs_startFB rs then Client_Phase1FB d reqId p1 st
        else Done (upd_requests (<[reqId := mkRS (rs_txn rs) (rs_startFB rs) (<[d := p1]> (rs_RelayP1s rs))]>) st)
  end.
(** The order of the buffered transactions is that of a hash map. *)
Definition RelayP1TimeoutCallback (reqId : Z) st : outcome FBClient :=
  match fc_requests st !! reqId with
  | None => Done st
  | Some rs =>
      foldO (λ st (x : digest * Phase1), Client_Phase1FB x.1 reqId x.2 st)
        (upd_requests (<[reqId := mkRS (rs_txn rs) true (rs_RelayP1s rs)]>) st) (map_to_list (rs_RelayP1s rs))
  end.
Definition RelayP1callbackFB (reqId : Z) (dependent : digest) (p1 : Phase1) d st : outcome FBClient :=
  match fc_requests st !! reqId, fc_instances st !! dependent with
  | Some _, Some fr =>
      if bool_decide (d ∈ fc_completed st) || bool_decide (is_Some (fc_instances st !! d)) then Done st
      else
        dep ← isDep d (rq_txn (fr_req fr)) (Phase1.p1_txn p1);
        if negb dep then Done st else Phase1FB_deeper reqId d dependent p1 st
  | _, _ => Done st
  end.

(** With signed proposals the transaction is in the signed bytes.
    [dependent_id] is -1 for a dependency of a transaction that is itself
    being finished. *)
Definition relayed_p1 (p1 : Phase1) : Phase1 :=
  if signClientProposals
  then mkP1Msg (p1_req_id p1) (parse_txn (sm_data (p1_signed_txn p1))) (p1_signed_txn p1) (p1_replica_gossip p1) else p1.
Definition HandlePhase1Relay g (relay : RelayP1) st : outcome FBClient :=
  let p1 := relayed_p1 (rl_p1 relay) in
  let d := TransactionDigest (Phase1.p1_txn p1) in
  match get_pf g d st with
  | Some _ => Done st
  | None =>
      if negb (rl_dependent_id relay =? u64 (-1)) then
        match fc_phase1s st !! (g, rl_dependent_id relay) with
        | Some reqId => RelayP1callback reqId p1 d st
        | None => Done st
        end
      else
        match get_pf g (rl_dependent_txn relay) st, fc_instances st !! rl_dependent_txn relay with
        | Some _, Some fr => RelayP1callbackFB (fr_conflict_id fr) (rl_dependent_txn relay) p1 d st
        | _, _ => Done st
        end
  end.

(** ** Steps *)

(** [EvNormal]: the client's own requests moved on. *)
Inductive FBEvent :=
| EvFinish (reqId : Z) (d : digest) (p1 : Phase1)
| EvRelay (g : Z) (relay : RelayP1)
| EvRelayTimer (reqId : Z)
| EvPhase1FBReply (g : Z) (reply : Phase1FBReply)
| EvPhase2FBReply (g : Z) (reply : Phase2FBReply)
| EvSendView (g : Z) (d : digest) (ac : AttachedView)
| EvTimer (g : Z) (d : digest)
| EvNormal (phase1s : gmap (Z * Z) Z) (requests : gmap Z RelayState).
Definition fb_step (ev : FBEvent) st : outcome FBClient :=
  match ev with
  | EvFinish reqId d p1 => FinishConflict reqId d p1 st
  | EvRelay g relay => HandlePhase1Relay g relay st
  | EvRelayTimer reqId => RelayP1TimeoutCallback reqId st
  | EvPhase1FBReply g reply => HandlePhase1FBReply g reply st
  | EvPhase2FBReply g reply => HandlePhase2FBReply g reply st
  | EvSendView g d ac => HandleSendViewMessage g d ac st
  | EvTimer g d => P1FBTimer g d st
  | EvNormal phase1s requests =>
      Done (mkFC (fc_shards st) (fc_instances st) (fc_completed st) phase1s requests (fc_sent st))
  end.
End fallback.
