(* ===== verification/ClientFallbackSafety.v ===== *)
(** * What the fallback of a client sends

    An invariant of the fallback's state, preserved by every step, and what it
    gives: the certificates a client sends to finish the transaction of another
    are ones the replicas accept, and its invitations to move to a view are
    accepted exactly when they carry [3 f + 1] views.  Signed messages and
    proofs are on. *)
From S2P Require Import Prelude OrderedSeq CppString Timestamp VersionStore Policy PolicyParse ServerState ServerTxn MVTSO Endorse AsyncPrepare Quorum AsyncVerify Phase2 Fallback Snapshot Digest Phase1 ShardClient ClientCommit ClientCerts ClientFallback.

(** ** Levels *)

Section levels.
Implicit Types (m : gmap Z (gset Z)) (v id : Z).

Definition level m v : gset Z := default ∅ (m !! v).
(** The replicas at [v] and above, from the highest view down. *)
Definition ids_above v m : list Z := filter (λ l, v ≤ l.1) (levels_desc m) ≫= λ l, ids_asc l.2.
Definition all_ids m : list Z := levels_desc m ≫= λ l, ids_asc l.2.

#[local] Instance higher_total : Total higher.
Proof. intros a b. unfold higher. lia. Qed.
#[local] Instance higher_trans : Transitive higher.
Proof. intros a b c. unfold higher. lia. Qed.
Lemma elem_of_ids id (X : gset Z) : id ∈ ids_asc X ↔ id ∈ X.
Proof. unfold ids_asc. by rewrite merge_sort_Permutation, elem_of_elements. Qed.
Lemma length_ids (X : gset Z) : length (ids_asc X) = size X.
Proof. unfold ids_asc. by rewrite merge_sort_Permutation. Qed.
Lemma elem_of_levels v X m : (v, X) ∈ levels_desc m ↔ m !! v = Some X.
Proof. unfold levels_desc. by rewrite merge_sort_Permutation, elem_of_map_to_list. Qed.
Lemma levels_sorted m : StronglySorted higher (levels_desc m).
Proof. apply Sorted_StronglySorted, Sorted_merge_sort; apply _. Qed.

Lemma elem_of_ids_above id v m : id ∈ ids_above v m ↔ ∃ v', v ≤ v' ∧ id ∈ level m v'.
Proof.
  unfold ids_above, level. rewrite list_elem_of_bind. split.
  - intros ([v' X] & Hid & [Hv Hin]%list_elem_of_filter). apply elem_of_levels in Hin. exists v'. rewrite Hin. split; [done|].
    by apply elem_of_ids.
  - intros (v' & Hv & Hid). destruct (m !! v') as [X|] eqn:HX; [|by apply elem_of_empty in Hid]. exists (v', X). split; [by apply elem_of_ids|].
    apply list_elem_of_filter. split; [done|]. by apply elem_of_levels.
Qed.

(** Each replica is at one level. *)
Definition one_level m : Prop := ∀ id v v', id ∈ level m v → id ∈ level m v' → v = v'.
Lemma ids_above_NoDup v m : one_level m → NoDup (ids_above v m).
Proof.
  intros Hone. apply NoDup_bind.
  - intros [v1 X1] [v2 X2] id [_ H1]%list_elem_of_filter [_ H2]%list_elem_of_filter. cbn. rewrite !elem_of_ids.
    apply elem_of_levels in H1, H2. intros Hi1 Hi2. assert (v1 = v2) as ->; [|congruence].
    apply (Hone id); unfold level; [by rewrite H1|by rewrite H2].
  - intros [v1 X1] _. cbn. unfold ids_asc. rewrite merge_sort_Permutation. apply NoDup_elements.
  - apply NoDup_filter. unfold levels_desc. rewrite merge_sort_Permutation. apply NoDup_map_to_list.
Qed.

Lemma filter_all (P : Z * gset Z → Prop) `{!∀ x, Decision (P x)} (l : list (Z * gset Z)) : (∀ x, x ∈ l → P x) → filter P l = l.
Proof.
  induction l as [|x l IH]; intros HP; [done|]. rewrite filter_cons_True by (apply HP; left). f_equal. apply IH. intros y Hy. apply HP. by right.
Qed.
(** The highest come first. *)
Lemma filter_prefix v (l : list (Z * gset Z)) :
  StronglySorted higher l → ∃ l', l = filter (λ l, v ≤ l.1) l ++ l'.
Proof.
  induction 1 as [|x l Hs [l' IH] Hx]; [by exists []|]. destruct (decide (v ≤ x.1)) as [Hv|Hv].
  - exists l'. rewrite filter_cons_True by done. cbn. by f_equal.
  - exists (x :: l). rewrite filter_cons_False by done. assert (filter (λ l, v ≤ l.1) l = []) as ->; [|done].
    clear IH Hs. induction Hx as [|y l Hy Hx IH']; [done|]. rewrite filter_cons_False; [done|]. unfold higher in Hy. lia.
Qed.
Lemma take_above k v m : (k ≤ length (ids_above v m))%nat → take k (all_ids m) = take k (ids_above v m).
Proof.
  intros Hk. unfold all_ids, ids_above in *. destruct (filter_prefix v (levels_desc m) (levels_sorted m)) as [l' Hl].
  rewrite Hl at 1. rewrite bind_app. by rewrite take_app_le.
Qed.
Lemma ids_above_mono v m m' :
  one_level m → (∀ id, id ∈ ids_above v m → id ∈ ids_above v m') → (length (ids_above v m) ≤ length (ids_above v m'))%nat.
Proof. intros H1 Hs. apply submseteq_length, NoDup_submseteq; [by apply ids_above_NoDup|done]. Qed.
Lemma ids_above_lower v v' m : one_level m → v' ≤ v → (length (ids_above v m) ≤ length (ids_above v' m))%nat.
Proof. intros H1 Hv. apply submseteq_length, NoDup_submseteq; [by apply ids_above_NoDup|]. intros id. rewrite !elem_of_ids_above. intros (x & ? & ?). exists x. split; [lia|done]. Qed.

(** A replica moves up. *)
Lemma level_move id s t m v x : x ∈ level (move_level id s t m) v ↔ (v = t ∧ x = id) ∨ (x ∈ level m v ∧ ~ (x = id ∧ v = s)).
Proof.
  unfold move_level. set (old := default ∅ (m !! s) ∖ {[id]}).
  assert (∀ v, default ∅ ((if decide (old = ∅) then delete s m else <[s := old]> m) !! v) = if decide (v = s) then old else level m v) as H1.
  { intros u. destruct (decide (u = s)) as [->|Hne].
    - destruct (decide (old = ∅)) as [->|]; [by rewrite lookup_delete_eq|by rewrite lookup_insert_eq].
    - destruct (decide (old = ∅)); [by rewrite lookup_delete_ne|by rewrite lookup_insert_ne]. }
  unfold level at 1. destruct (decide (v = t)) as [->|Ht].
  - rewrite lookup_insert_eq. cbn. rewrite H1. destruct (decide (t = s)) as [->|]; unfold old, level; set_solver.
  - rewrite lookup_insert_ne by done. rewrite H1. destruct (decide (v = s)) as [->|]; unfold old, level; set_solver.
Qed.
End levels.

(** ** Views *)

Section safety.
Variable config : Configuration.
Variable ser_cc : CCMsg → string.
Variable ser_p2 : P2Msg → string.
Variable Verify : Z → string → string → bool.
Variable policyFn : string → string → string.
Variable TransactionDigest : Transaction → digest.
Variable parse_cc : string → option ConcurrencyControl.
Variable parse_p2 : string → option P2Msg.
Variable parse_cview : string → CurrentView.
(** The replicas' reading of a view. *)
Variable parse_view : string → ViewMsg.
Variable parse_txn : string → Transaction.
Variables signClientProposals all_to_all_fb sql_mode : bool.
Variables (client_id phase1DecisionTimeout junk : Z).
Variable query_dep : digest → Transaction → Transaction → outcome bool.
(** The transactions, by their digests. *)
Variable world : digest → Transaction.
Notation f := (cf_f config).
Notation groups d := (involved_groups (world d)).
Hypothesis f_range : 0 ≤ f < 2^28.
Hypothesis n_value : cf_n config = 5 * f + 1.
Hypothesis groups_range : ∀ d g, g ∈ groups d → 0 ≤ g < 2^32.
Notation world_of d := (λ _ : Z, world d).
Notation dig_of d := (λ _ : Z, d).
Implicit Types (g : Z) (d : digest) (st : FBClient) (pf : PendingFB) (w : Views) (fr : FBRequest) (r : PendingRequest).

Definition good_view g d (id v : Z) (sm : SignedMessage) : Prop :=
  sm_process_id sm = id ∧ IsReplicaInGroup config id g = true ∧ Verify id (sm_data sm) (sm_signature sm) = true ∧
  parse_view (sm_data sm) = mkView v d ∧ 0 ≤ v < 2^64.
(** Enough replicas for the view the client would propose. *)
Definition justified w : Prop :=
  vs_max_view w = 0 ∨
  0 < vs_max_view w < 2^64 ∧ ∃ c, vs_catchup w = Some c ∧
    (Z.to_nat (if c then f + 1 else 3 * f + 1) ≤
       length (ids_above (if c then vs_max_view w else vs_max_view w - 1)%Z (vs_view_levels w)))%nat.
Record views_ok g d w : Prop := {
  vo_views id v sm : vs_current_views w !! id = Some (v, sm) → id ∈ level (vs_view_levels w) v ∧ good_view g d id v sm;
  vo_levels id v : id ∈ level (vs_view_levels w) v → ∃ sm, vs_current_views w !! id = Some (v, sm);
  vo_last : 0 ≤ vs_last_view w;
  vo_max : justified w
}.
Lemma vo_one g d w : views_ok g d w → one_level (vs_view_levels w).
Proof. intros Hw id v v' [sm H1]%(vo_levels _ _ _ Hw) [sm' H2]%(vo_levels _ _ _ Hw). congruence. Qed.

Lemma max_level_spec m pre l count cur res :
  levels_desc m = pre ++ l → 0 ≤ count ≤ Z.of_nat (length (pre ≫= λ x, ids_asc x.2)) → max_level config count l cur = res →
  res = cur ∨ ∃ v : Z, cur.1 ≤ v ∧
    (res = (u64 (v + 1), Some false) ∧ 3 * f + 1 ≤ Z.of_nat (length (ids_above v m)) ∨
     res = (v, Some true) ∧ f + 1 ≤ Z.of_nat (length (ids_above v m))).
Proof.
  revert pre count. induction l as [|[v X] l IH]; intros pre count Hl Hc Hr; cbn [max_level] in Hr; [by left|].
  rewrite (u64_small (3 * f + 1)), (u64_small (f + 1)) in Hr by lia. set (n := u64 (count + Z.of_nat (size X))) in Hr.
  assert (0 ≤ n ≤ Z.of_nat (length ((pre ++ [(v, X)]) ≫= λ x, ids_asc x.2))) as Hn.
  { rewrite bind_app, length_app. change ([(v, X)] ≫= λ x, ids_asc x.2) with (ids_asc X ++ []). rewrite app_nil_r, length_ids.
    unfold n, u64. split; [apply Z.mod_pos_bound; lia|].
    etrans; [apply Z.mod_le; lia|lia]. }
  assert (length ((pre ++ [(v, X)]) ≫= λ x, ids_asc x.2) ≤ length (ids_above v m))%nat as Hle.
  { unfold ids_above. rewrite Hl. change (pre ++ (v, X) :: l) with (pre ++ [(v, X)] ++ l). rewrite app_assoc, filter_app.
    assert (filter (λ x, v ≤ x.1) (pre ++ [(v, X)]) = pre ++ [(v, X)]) as ->; [|rewrite (bind_app _ (pre ++ [(v, X)]) (filter _ l)), length_app; lia].
    apply filter_all. intros x Hx. pose proof (levels_sorted m) as Hs. rewrite Hl in Hs.
    apply elem_of_app in Hx as [Hx|Hx%list_elem_of_singleton]; [|subst; cbn; lia].
    apply (StronglySorted_app_1_elem_of _ _ _ x (v, X) Hs); [done|by left]. }
  destruct (v <? cur.1) eqn:Hv; [by left|]. destruct (n >=? 3 * f + 1) eqn:H1.
  { right. exists v. split; [lia|]. left. split; [done|lia]. }
  destruct (n >=? f + 1) eqn:H2.
  { right. exists v. split; [lia|]. right. split; [done|lia]. }
  apply (IH (pre ++ [(v, X)]) n); [by rewrite Hl, <- app_assoc|done|done].
Qed.
Lemma ComputeMaxLevel_ok g d w : views_ok g d w → views_ok g d (ComputeMaxLevel config w).
Proof.
  intros [H1 H2 H3 H4]. unfold ComputeMaxLevel. destruct (max_level _ _ _ _) as [mv c] eqn:Hm.
  eapply (max_level_spec _ []) in Hm; [|done|cbn; lia]. split; try done. unfold justified. cbn [vs_max_view vs_catchup vs_view_levels].
  destruct Hm as [[= -> ->]|(v & Hv & [[[= -> ->] Hq]|[[= -> ->] Hq]])]; [exact H4| |]; cbn in Hv.
  - destruct (decide (u64 (v + 1) = 0)) as [He|Hne]; [by left|right]. unfold u64 in *.
    assert (0 ≤ (v + 1) `mod` 2 ^ 64 < 2 ^ 64) by (apply Z.mod_pos_bound; lia). split; [lia|]. exists false. split; [done|].
    assert ((v + 1) `mod` 2 ^ 64 - 1 ≤ v).
    { destruct H4 as [H0|[? _]]; [rewrite H0 in Hv|]; (assert ((v + 1) `mod` 2 ^ 64 ≤ v + 1) by (apply Z.mod_le; lia); lia). }
    etrans; [|apply ids_above_lower; [by eapply (vo_one g d); split|done]]. lia.
  - destruct (decide (v = 0)) as [->|Hne]; [by left|right]. split; [|exists true; split; [done|lia]].
    assert (v < 2^64); [|destruct H4 as [?|[? _]]; lia]. destruct (ids_above v (vs_view_levels w)) as [|id l] eqn:Hl; [cbn in Hq; lia|].
    assert (id ∈ ids_above v (vs_view_levels w)) as (u & Hu & [sm Hsm]%H2)%elem_of_ids_above by (rewrite Hl; left).
    destruct (H1 _ _ _ Hsm) as [_ (_ & _ & _ & _ & Hr)]. lia.
Qed.

(** A report that verifies is of the replica that signed it, on this
    transaction. *)
Definition proper_view d (ac : AttachedView) : Prop :=
  ∀ sm, ac = SignedView sm → Verify (sm_process_id sm) (sm_data sm) (sm_signature sm) = true →
    cv_replica_id (parse_cview (sm_data sm)) = sm_process_id sm ∧
    parse_view (sm_data sm) = mkView (cv_current_view (parse_cview (sm_data sm))) d ∧
    0 ≤ cv_current_view (parse_cview (sm_data sm)) < 2^64.
Lemma justified_mono w levels :
  one_level (vs_view_levels w) → (∀ v id, id ∈ ids_above v (vs_view_levels w) → id ∈ ids_above v levels) → justified w →
  ∀ cv lv cf b i, justified (mkViews cv levels lv (vs_max_view w) cf (vs_catchup w) b i).
Proof.
  intros H1 Hm [H0|(Hp & c & Hc & Hq)] cv lv cf b i; [by left|right]. cbn. split; [done|]. exists c. split; [done|].
  etrans; [exact Hq|]. apply ids_above_mono; [done|apply Hm].
Qed.
Lemma update_views_ok g d ac w w' :
  views_ok g d w → proper_view d ac → update_views config Verify parse_cview true true junk g ac w = Some w' → views_ok g d w'.
Proof.
  intros Hw Hp. pose proof (vo_one _ _ _ Hw) as H1. unfold update_views. cbn. destruct ac as [| |sm]; [done..|].
  set (id := sm_process_id sm). set (v := parse_cview (sm_data sm)).
  destruct (match _ with Some _ => _ | None => _ end) eqn:Hst; [done|]. destruct (IsReplicaInGroup config id g) eqn:Hg; [|done].
  destruct (Verify _ _ _) eqn:Hv; [|done]. cbn. intros [= <-]. destruct (Hp sm eq_refl Hv) as (Hr & Hview & Hrange). fold v id in Hr, Hview, Hrange.
  set (stored := fst <$> vs_current_views w !! id) in *. rewrite Hr.
  (* the level it leaves, if it was at one *)
  assert (∀ u, id ∈ level (vs_view_levels w) u → u = default junk stored ∧ u < cv_current_view v) as Hold.
  { intros u [sm' Hu]%(vo_levels _ _ _ Hw). unfold stored in *. rewrite Hu in *. cbn in *. lia. }
  assert (∀ u x, x ∈ level (move_level id (default junk stored) (cv_current_view v) (vs_view_levels w)) u ↔
     (u = cv_current_view v ∧ x = id) ∨ (x ≠ id ∧ x ∈ level (vs_view_levels w) u)) as Hlev.
  { intros u x. rewrite level_move. destruct (decide (x = id)) as [->|]; [|naive_solver]. split; [|naive_solver].
    intros [?|[Hu Hn]]; [naive_solver|]. destruct (Hold u Hu) as [-> _]. by destruct Hn. }
  unfold with_moved. split; cbn [vs_current_views vs_view_levels vs_last_view].
  - intros x u sm' [[<- [= <- <-]]|[Hne Hx]]%lookup_insert_Some.
    + split; [apply Hlev; by left|]. unfold good_view. split_and!; try done; apply Hrange.
    + destruct (vo_views _ _ _ Hw _ _ _ Hx) as [Hl Hgood]. split; [apply Hlev; right; naive_solver|done].
  - intros x u. rewrite Hlev. intros [[-> ->]|[Hne Hx]]; [exists sm; by rewrite lookup_insert_eq|].
    rewrite lookup_insert_ne by done. by apply (vo_levels _ _ _ Hw).
  - apply Hw.
  - apply justified_mono; [done| |apply Hw]. intros u x. rewrite !elem_of_ids_above. intros (u' & Hu & Hx).
    destruct (decide (x = id)) as [->|Hne].
    + destruct (Hold _ Hx) as [_ Hlt]. exists (cv_current_view v). split; [lia|]. apply Hlev. by left.
    + exists u'. split; [done|]. apply Hlev. by right.
Qed.

(** ** Invitations *)

Lemma view_sigs_exact g d proposed my myv (l : list SignedMessage) R k :
  0 ≤ g < 2^32 → 0 < proposed < 2^64 → NoDup (sm_process_id <$> l) → (∀ m, m ∈ l → sm_process_id m ∉ R) →
  (∀ m, m ∈ l → ∃ v, good_view g d (sm_process_id m) v m ∧ proposed - 1 ≤ v) →
  0 ≤ k → k + Z.of_nat (length l) ≤ 3 * f + 1 →
  view_sigs config Verify parse_view proposed false g d my myv (u64 (3 * f + 1)) R k l =
    bool_decide (l ≠ [] ∧ k + Z.of_nat (length l) = 3 * f + 1).
Proof.
  intros Hg Hpr. revert R k. induction l as [|m l IH]; intros R k Hnd Hfresh Hgood Hk Hlen; cbn [view_sigs].
  { by rewrite bool_decide_eq_false_2 by naive_solver. }
  cbn [length fmap list_fmap] in *. apply NoDup_cons in Hnd as [Hm Hnd].
  destruct (Hgood m) as (v & (_ & Hin & Hver & Hparse & Hv) & Hge); [by left|].
  rewrite (u32_small g), Hin by lia. cbn [negb]. rewrite bool_decide_eq_false_2 by (apply Hfresh; by left).
  rewrite Hparse. cbn [vw_txn_digest vw_current_view]. rewrite bool_decide_eq_true_2 by done. cbn [negb orb].
  unfold needed_view. rewrite (u64_small (proposed - 1)) by lia. destruct (v <? proposed - 1) eqn:Hlt; [lia|].
  rewrite Hver, andb_false_r. rewrite (u64_small (3 * f + 1)), (u64_small (k + 1)) by lia.
  destruct (k + 1 =? 3 * f + 1) eqn:Hq.
  { rewrite bool_decide_eq_true_2; [done|]. split; [done|lia]. }
  rewrite <- (u64_small (3 * f + 1)) at 1 by lia. rewrite IH; [| done | | |lia|lia].
  - apply bool_decide_ext. split; intros [? ?]; (split; [done|lia]) || (split; [|lia]). intros ->. cbn in *. lia.
  - intros x Hx. apply not_elem_of_cons. split; [|apply Hfresh; by right]. intros He. apply Hm. rewrite <- He. by apply list_elem_of_fmap_2.
  - intros x Hx. apply Hgood. by right.
Qed.

Lemma touch_views_same views ids : (∀ id, id ∈ ids → is_Some (views !! id)) → touch_views junk views ids = views.
Proof.
  unfold touch_views. induction ids as [|id ids IH]; intros Hin; [done|]. cbn.
  destruct (Hin id) as [x Hx]; [by left|]. rewrite Hx. apply IH. intros y Hy. apply Hin. by right.
Qed.
(** The views sent along with a proposal. *)
Definition invite w (c : bool) : list Z := take (Z.to_nat (if c then f + 1 else 3 * f + 1)) (all_ids (vs_view_levels w)).
Lemma invite_spec g d w c proposed :
  views_ok g d w → vs_catchup w = Some c → 0 < proposed ≤ vs_max_view w →
  Z.of_nat (length (invite w c)) = (if c then f + 1 else 3 * f + 1) ∧ proposed < 2^64 ∧ NoDup (invite w c) ∧
  ∀ id, id ∈ invite w c → ∃ v sm, vs_current_views w !! id = Some (v, sm) ∧ good_view g d id v sm ∧ proposed - 1 ≤ v.
Proof.
  intros Hw Hc Hp. pose proof (vo_one _ _ _ Hw) as H1. destruct (vo_max _ _ _ Hw) as [?|(Hr & c' & Hc' & Hq)]; [lia|].
  rewrite Hc in Hc'. injection Hc' as <-. unfold invite. rewrite (take_above _ _ _ Hq). set (t := if c then vs_max_view w else vs_max_view w - 1) in *.
  assert (proposed - 1 ≤ t) as Ht by (unfold t; destruct c; lia). split_and!.
  - rewrite length_take. destruct c; lia.
  - lia.
  - eapply sublist_NoDup; [by apply (ids_above_NoDup t)|apply sublist_take].
  - intros id Hid. apply (subseteq_take (Z.to_nat (if c then f + 1 else 3 * f + 1))) in Hid.
    apply elem_of_ids_above in Hid as (v & Hv & [sm Hsm]%(vo_levels _ _ _ Hw)). exists v, sm. split; [done|].
    split; [by apply (vo_views _ _ _ Hw)|lia].
Qed.
(** What every replica answers to an invitation. *)
Definition invite_ok g (msg : InvokeFB) : Prop :=
  ∀ msgs my myv, iv_view_signed msg = Some msgs →
    VerifyFBViews config Verify parse_view (iv_proposed_view msg) (iv_catchup msg) g (iv_txn_digest msg) msgs my myv =
      bool_decide (Z.of_nat (length msgs) = 3 * f + 1).
Lemma invite_answer g d w c proposed q p2fb :
  0 ≤ g < 2^32 → views_ok g d w → vs_catchup w = Some c → 0 < proposed ≤ vs_max_view w →
  invite_ok g (mkInvoke q d p2fb proposed false (Some (signed_view (vs_current_views w) <$> invite w c))).
Proof.
  intros Hg Hw Hc Hp msgs my myv [= <-]. cbn [iv_proposed_view iv_catchup iv_txn_digest].
  destruct (invite_spec g d w c proposed Hw Hc Hp) as (Hlen & Hlt & Hnd & Hids).
  assert (∀ id, id ∈ invite w c → ∃ v, good_view g d id v (signed_view (vs_current_views w) id) ∧ proposed - 1 ≤ v) as Hgood.
  { intros id (v & sm & Hsm & ? & ?)%Hids. exists v. unfold signed_view. by rewrite Hsm. }
  assert (sm_process_id <$> (signed_view (vs_current_views w) <$> invite w c) = invite w c) as Hpids.
  { rewrite <- list_fmap_compose. transitivity (id <$> invite w c); [|apply list_fmap_id]. apply list_fmap_ext. intros i x Hx.
    cbn. apply list_elem_of_lookup_2, Hgood in Hx as (v & (Hpid & _) & _). done. }
  unfold VerifyFBViews. rewrite (view_sigs_exact g d); [|done|lia|by rewrite Hpids|set_solver| |lia|].
  - apply bool_decide_ext. rewrite length_fmap, Z.add_0_l. split; [by intros [_ ?]|]. intros He. split; [|done].
    intros Hn%fmap_nil_inv. rewrite Hn in He. cbn in He. lia.
  - intros m (id & -> & (v & Hg' & Hge)%Hgood)%list_elem_of_fmap. exists v. split; [|done].
    by rewrite (proj1 Hg').
  - rewrite length_fmap. destruct c; lia.
Qed.

(** ** The invariant *)

Notation p1_inv := (p1_inv config ser_cc Verify).
Notation p1_base := (p1_base config ser_cc Verify).
Notation p2_cert := (p2_cert ser_p2 Verify).
Notation collecting := (collecting config ser_cc Verify).
Notation cb_ok := (cb_ok config ser_cc ser_p2 Verify policyFn TransactionDigest).
Notation log_group d := (GetLogGroup (groups d) d).

(** The signatures kept for a decision are those counted, and fewer than a
    quorum. *)
Definition entry_ok g d (view : Z) (dec : CommitDecision) (e : PendingP2) : Prop :=
  p2_cert (dig_of d) g 0 dec view (pp_sigs e) ∧ pids (pp_sigs e) ⊆ pp_replicasVerified e ∧
  pp_matchingReplies e = Z.of_nat (length (pp_sigs e)) ∧ pp_matchingReplies e < 4 * f + 1.
Definition log_ok g d (l : P2Log) : Prop := ∀ view dec, entry_ok g d view dec (p2_entry l view dec).
Record pf_ok g d pf : Prop := {
  po_group : g ∈ groups d;
  po_p1 : fb_p1 pf = true → p1_inv (world_of d) (dig_of d) g (fb_pendingP1 pf);
  po_log : log_ok g d (fb_log pf);
  po_views : views_ok g d (fb_views pf)
}.
(** An instance that collects votes; logged decisions may have changed its
    decision. *)
Record fr_collects st d fr : Prop := {
  fc_votes : collecting (world_of d) (dig_of d) ∅ 0 (set_decision_of DCOMMIT (fr_req fr));
  fc_dec : rq_decision (fr_req fr) = DCOMMIT ∨ f + 1 ≤ Z.of_nat (length (fr_p2Replies fr));
  fc_fast : rq_fastAbortGroup (fr_req fr) = -1;
  fc_open g pf : get_pf g d st = Some pf → fb_p1 pf = true → rq_p1ReplySigsGrouped (fr_req fr) !! g = None
}.
Record fr_ok st d fr : Prop := {
  fo_world : rq_txn (fr_req fr) = world d ∧ rq_txnDigest (fr_req fr) = d;
  fo_wb : fr_startedWriteback fr = false;
  fo_flag : rq_conflict_flag (fr_req fr) = false;
  fo_p2 : rq_p2ReplySigsGrouped (fr_req fr) = ∅;
  fo_log : log_group d = Done (fr_logGrp fr);
  fo_collects : rq_startedPhase2 (fr_req fr) = false → fr_collects st d fr
}.
Definition wb_ok d (wb : Writeback) : Prop :=
  out_ok config ser_cc ser_p2 Verify policyFn TransactionDigest (world_of d) (dig_of d) (SendWriteback 0 wb).
Definition fb_out_ok (o : FBOut) : Prop :=
  match o with
  | OutPhase2FB g msg =>
      let d := f2_txn_digest msg in
      ∀ sigs, f2_p1_sigs msg = Some sigs → log_group d = Done g ∧
        ∀ my myResult, own_vote (f2_decision msg) my myResult sigs →
          ValidateP1Replies config ser_cc Verify (f2_decision msg) false (groups d) d sigs my myResult = true
  | OutInvokeFB g msg => invite_ok g msg
  | OutWriteback g wb => ∃ d, g ∈ groups d ∧ wb_ok d wb
  | _ => True
  end.
Definition proper_p1 d (p1 : Phase1) : Prop := Phase1.p1_txn p1 = world d ∧ NoDup (groups d).
Definition proper_requests (m : gmap Z RelayState) : Prop :=
  ∀ q rs d p1, m !! q = Some rs → rs_RelayP1s rs !! d = Some p1 → proper_p1 d p1.
(** All instances but [sk], which a callback is changing. *)
Record st_ok (sk : option digest) st : Prop := {
  so_pf g d pf : get_pf g d st = Some pf → pf_ok g d pf ∧ is_Some (fc_instances st !! d);
  so_fr d fr : sk ≠ Some d → fc_instances st !! d = Some fr → fr_ok st d fr;
  so_req : proper_requests (fc_requests st);
  so_sent o : o ∈ fc_sent st → fb_out_ok o
}.

(** *** The state as a map *)

Lemma get_set_pf g d pf pf0 st g' d' :
  get_pf g d st = Some pf0 → get_pf g' d' (set_pf g d pf st) = if decide (g' = g ∧ d' = d) then Some pf else get_pf g' d' st.
Proof.
  unfold get_pf, set_pf. cbn. destruct (fc_shards st !! g) as [m|] eqn:Hg; [|done]. cbn. intros _.
  destruct (decide (g' = g)) as [->|Hne].
  - rewrite lookup_alter_eq, Hg. cbn. destruct (decide (g = g ∧ d' = d)) as [[_ ->]|Hn]; [by rewrite lookup_insert_eq|].
    rewrite lookup_insert_ne by naive_solver. done.
  - rewrite lookup_alter_ne by done. destruct (decide (g' = g ∧ d' = d)); [naive_solver|done].
Qed.
Lemma get_clean_pf g d st g' d' :
  get_pf g' d' (clean_pf d g st) = if decide (g' = g ∧ d' = d) then None else get_pf g' d' st.
Proof.
  unfold get_pf, clean_pf. cbn. destruct (decide (g' = g)) as [->|Hne].
  - rewrite lookup_alter_eq. destruct (fc_shards st !! g) as [m|]; cbn; [|by destruct (decide _)].
    destruct (decide (g = g ∧ d' = d)) as [[_ ->]|Hn]; [by rewrite lookup_delete_eq|]. rewrite lookup_delete_ne by naive_solver. done.
  - rewrite lookup_alter_ne by done. destruct (decide (g' = g ∧ d' = d)); [naive_solver|done].
Qed.
Lemma get_clean_all d gs st g' d' :
  get_pf g' d' (foldl (λ st g, clean_pf d g st) st gs) = if decide (g' ∈ gs ∧ d' = d) then None else get_pf g' d' st.
Proof.
  revert st. induction gs as [|g gs IH]; intros st; cbn [foldl]; [destruct (decide _) as [[?%elem_of_nil _]|]; done|].
  rewrite IH, get_clean_pf. repeat case_decide; set_solver.
Qed.
(** An instance looks at the pending fallbacks only. *)
Lemma fr_ok_shards st st' d fr :
  (∀ g pf, get_pf g d st' = Some pf → fb_p1 pf = true → ∃ pf0, get_pf g d st = Some pf0 ∧ fb_p1 pf0 = true) →
  fr_ok st d fr → fr_ok st' d fr.
Proof.
  intros Hs [? ? ? ? ? Hc]. split; try done. intros Hst. destruct (Hc Hst) as [? ? ? Ho]. split; try done.
  intros g pf Hpf Hp. destruct (Hs g pf Hpf Hp) as (pf0 & H0 & Hp0). by eapply Ho.
Qed.
Lemma fr_ok_same st st' d fr : fc_shards st = fc_shards st' → fr_ok st d fr → fr_ok st' d fr.
Proof. intros Hs. apply fr_ok_shards. intros g pf. unfold get_pf. rewrite <- Hs. eauto. Qed.
(** A step of one pending fallback. *)
Lemma so_set_pf sk st g d pf pf' :
  st_ok sk st → get_pf g d st = Some pf → pf_ok g d pf' → (fb_p1 pf' = true → fb_p1 pf = true) → st_ok sk (set_pf g d pf' st).
Proof.
  intros [H1 H2 H3 H4] Hg Hok Hp. split; [| |done|done].
  - intros g' d' x. rewrite (get_set_pf g d pf' pf) by done. case_decide as Hd; [|apply H1]. destruct Hd as [-> ->].
    intros [= <-]. split; [done|]. by eapply H1.
  - intros d' fr Hsk Hfr. apply (fr_ok_shards st); [|by apply H2].
    intros g' x. rewrite (get_set_pf g d pf' pf) by done. case_decide as Hd; [|eauto]. destruct Hd as [-> ->].
    intros [= <-] Hx. eauto.
Qed.
Lemma so_send sk st o : st_ok sk st → fb_out_ok o → st_ok sk (fsend o st).
Proof.
  intros [H1 H2 H3 H4] Ho. split; [done| |done|].
  - intros d fr Hsk Hfr. by apply (fr_ok_same st), H2.
  - cbn. intros x [Hx|Hx%list_elem_of_singleton]%elem_of_app; [by apply H4|by subst].
Qed.
Lemma so_fsends sk st gs (o : Z → FBOut) :
  st_ok sk st → (∀ g, g ∈ gs → fb_out_ok (o g)) → st_ok sk (foldl (λ st g, fsend (o g) st) st gs).
Proof.
  revert st. induction gs as [|g gs IH]; intros st Hst Ho; [done|]. cbn. apply IH; [|intros; apply Ho; by right].
  apply so_send; [done|]. apply Ho. by left.
Qed.
Lemma so_set_fr st d fr fr' :
  st_ok (Some d) st → fc_instances st !! d = Some fr → fr_ok st d fr' → st_ok None (upd_instances (<[d := fr']>) st).
Proof.
  intros [H1 H2 H3 H4] Hd Hok. split; [| |done|done].
  - intros g d' pf Hpf. destruct (H1 g d' pf Hpf) as [? [x Hx]]. split; [done|]. cbn. apply lookup_insert_is_Some.
    destruct (decide (d = d')); [by left|right]. by split; [|exists x].
  - cbn. intros d' x _ [[<- <-]|[Hne Hx]]%lookup_insert_Some; [by apply (fr_ok_same st)|].
    apply (fr_ok_same st); [done|]. apply H2; [congruence|done].
Qed.
(** An instance ends once its pending fallbacks are gone. *)
Lemma so_clean sk st g d : st_ok sk st → st_ok sk (clean_pf d g st).
Proof.
  intros [H1 H2 H3 H4]. split; [| |done|done].
  - intros g' d' pf. rewrite get_clean_pf. case_decide; [done|]. apply H1.
  - intros d' fr Hsk Hfr. apply (fr_ok_shards st); [|by apply H2]. intros g' pf. rewrite get_clean_pf. case_decide; [done|eauto].
Qed.
Lemma so_drop st d : st_ok (Some d) st → (∀ g, get_pf g d st = None) → st_ok None (upd_instances (delete d) st).
Proof.
  intros [H1 H2 H3 H4] Hn. split; [| |done|done].
  - intros g d' pf Hpf. destruct (H1 g d' pf Hpf) as [Hok His]. split; [done|]. cbn. rewrite lookup_delete_ne; [done|].
    intros <-. change (get_pf g d st = Some pf) in Hpf. by rewrite Hn in Hpf.
  - cbn. intros d' fr _ [Hne Hfr]%lookup_delete_Some. apply (fr_ok_same st); [done|]. apply H2; [congruence|done].
Qed.
Lemma so_clean_all sk st d gs : st_ok sk st → st_ok sk (foldl (λ st g, clean_pf d g st) st gs).
Proof. revert st. induction gs as [|g gs IH]; intros st Hst; [done|]. cbn. by apply IH, so_clean. Qed.
Lemma no_pf sk st d g : st_ok sk st → get_pf g d st = None ∨ g ∈ groups d.
Proof. intros Hst. destruct (get_pf g d st) as [pf|] eqn:Hpf; [right|by left]. by apply (so_pf _ _ Hst) in Hpf as [[] _]. Qed.
Lemma so_remove st d : st_ok (Some d) st → st_ok None (upd_instances (delete d) (foldl (λ st g, clean_pf d g st) st (groups d))).
Proof.
  intros Hst. apply so_drop; [by apply so_clean_all|]. intros g. rewrite get_clean_all.
  destruct (no_pf _ st d g Hst) as [->|Hg]; [by destruct (decide _)|]. by rewrite decide_True.
Qed.
Lemma so_completed sk st d : st_ok sk st → st_ok sk (add_completed d st).
Proof. intros [H1 H2 H3 H4]. split; try done. intros d' fr Hsk Hfr. by apply (fr_ok_same st), H2. Qed.
Lemma so_skip st d : st_ok None st → st_ok (Some d) st.
Proof. intros [H1 H2 H3 H4]. split; try done. intros d' fr _. by apply H2. Qed.
(** An instance that is about to be replaced may be anything. *)
Lemma so_any st d fr : st_ok (Some d) st → st_ok (Some d) (upd_instances (<[d := fr]>) st).
Proof.
  intros [H1 H2 H3 H4]. split; [| |done|done].
  - intros g d' pf Hpf. destruct (H1 g d' pf Hpf) as [? [x Hx]]. split; [done|]. cbn. apply lookup_insert_is_Some.
    destruct (decide (d = d')); [by left|right]. by split; [|exists x].
  - cbn. intros d' x Hsk Hx. rewrite lookup_insert_ne in Hx by congruence. apply (fr_ok_same st); [done|]. by apply H2.
Qed.

(** ** The instance *)

Notation Client_WritebackFB := (Client_WritebackFB config true true).
Notation Client_Phase2FB := (Client_Phase2FB config true true).
Lemma WritebackFB_ok st d fr st' :
  st_ok (Some d) st → rq_txn (fr_req fr) = world d →
  (∀ wb, WritebackProcessing config true true (fr_req fr) = Done wb → wb_ok d wb) →
  Client_WritebackFB d fr st = Done st' → st_ok None st'.
Proof.
  intros Hst Hw Hwb. unfold ClientFallback.Client_WritebackFB. intros (wb & Hp & [= <-])%bind_Done. apply Hwb in Hp.
  unfold Client_CleanFB. rewrite Hw. apply so_remove, so_completed, so_fsends; [done|]. intros g Hg. by exists d.
Qed.
Lemma stop_ok g d pf : pf_ok g d pf → pf_ok g d (stop_p1 pf).
Proof. intros []. by split. Qed.
Lemma StopP1FB_ok sk st d g : st_ok sk st → st_ok sk (StopP1FB d g st).
Proof.
  intros Hst. unfold StopP1FB. destruct (get_pf g d st) as [pf|] eqn:Hpf; [|done].
  eapply so_set_pf; [done|exact Hpf| |done]. apply stop_ok. by apply (so_pf _ _ Hst).
Qed.
Lemma Phase2FB_ok st d fr fr0 st' :
  st_ok (Some d) st → fc_instances st !! d = Some fr0 → rq_txn (fr_req fr) = world d → rq_txnDigest (fr_req fr) = d →
  fr_startedWriteback fr = false → rq_conflict_flag (fr_req fr) = false → rq_p2ReplySigsGrouped (fr_req fr) = ∅ →
  log_group d = Done (fr_logGrp fr) →
  (Z.of_nat (length (fr_p2Replies fr)) < f + 1 → ∀ r', Phase2Processing config true true (fr_req fr) = Done r' →
     logs config ser_cc Verify (world_of d) (dig_of d) 0 r') →
  Client_Phase2FB d fr st = Done st' → st_ok None st'.
Proof.
  intros Hst Hfr Ht Hd Hwb Hf Hp2 Hlog Hsigs. unfold ClientFallback.Client_Phase2FB. intros ([[r s1] s2] & Hr & [= <-])%bind_Done.
  assert (rq_txn r = world d ∧ rq_txnDigest r = d ∧ rq_conflict_flag r = false ∧ rq_p2ReplySigsGrouped r = ∅ ∧ rq_startedPhase2 r = true ∧
    ∀ sigs, s1 = Some sigs → sigs = map_to_list (rq_p1ReplySigsGrouped r) ∧ logs config ser_cc Verify (world_of d) (dig_of d) 0 r)
    as (Et & Ed & Ef & Ep & Es & Esig).
  { rewrite Z.geb_leb in Hr. destruct (_ <=? _) eqn:Hl; [injection Hr as <- <- <-; by split_and!|].
    apply bind_Done in Hr as (r' & Hp & [= <- <- <-]). specialize (Hsigs ltac:(lia) r' Hp).
    apply Phase2Processing_again in Hp as [_ [= ET ED EDc EC EF EP ES]]. split_and!; try congruence. by intros ? [= <-]. }
  rewrite Et.
  assert (∀ gs st, st_ok None st → st_ok None (foldl (λ st g, StopP1FB d g st) st gs)) as Hstop.
  { intros gs. induction gs as [|g gs IH]; intros s Hs; [done|]. cbn. by apply IH, StopP1FB_ok. }
  apply Hstop, so_send.
  - eapply so_set_fr; [done|exact Hfr|]. split; try done. cbn. congruence.
  - cbn. intros sigs Hs. apply Esig in Hs as [-> Hl]. split; [done|]. exact Hl.
Qed.

(** A collecting instance all of whose groups voted COMMIT. *)
Lemma all_commit_ok st d fr st' :
  st_ok (Some d) st → is_Some (fc_instances st !! d) → fr_ok st d fr → fr_collects st d fr →
  rq_outstandingPhase1s (fr_req fr) = 0 →
  FBHandleAllPhase1Received config true true d fr st = Done st' → st_ok None st'.
Proof.
  intros Hst [fr0 Hfr0] [[Ht Hd] Hwb Hflag Hp2 Hlog _] [Hv Hdec Hfab _] H0. unfold FBHandleAllPhase1Received.
  destruct (rq_fast (fr_req fr)) eqn:Hfast.
  - apply WritebackFB_ok; [done|done|]. intros wb. unfold WritebackProcessing. rewrite Hfast, Hflag.
    destruct (rq_decision (fr_req fr)) eqn:Hd'; cbn.
    + intros [= <-]. split; cbn; [by rewrite Hd|]. intros my res Hown.
      by eapply (commit_fast config ser_cc Verify f_range n_value (world_of d) (dig_of d) ∅ 0 (set_decision_of DCOMMIT (fr_req fr))).
    + intros (m & (u & Hu & _)%bind_Done & _)%bind_Done. apply uw_assert_Done in Hu. lia.
  - eapply Phase2FB_ok; try done. intros Hlen r'. destruct Hdec as [Hdec|?]; [|lia]. unfold Phase2Processing. rewrite Hdec. cbn.
    intros [= <-] my res. cbn [rq_p1ReplySigsGrouped rq_decision].
    replace (SlowCommitQuorumSize config) with (p1_quorum config DCOMMIT false) by (by rewrite p1_quorum_size, slow_commit_size).
    by apply (commit_votes_accepted config ser_cc Verify f_range n_value (world_of d) (dig_of d) ∅ 0 (set_decision_of DCOMMIT (fr_req fr))).
Qed.
(** One group decides for an abort. *)
Lemma abort_fast_ok st d fr g l st' :
  st_ok (Some d) st → rq_txn (fr_req fr) = world d → rq_txnDigest (fr_req fr) = d → rq_decision (fr_req fr) = DABORT →
  rq_fast (fr_req fr) = true → rq_conflict_flag (fr_req fr) = false → rq_fastAbortGroup (fr_req fr) = g →
  rq_p1ReplySigsGrouped (fr_req fr) !! g = Some l → cert config ser_cc Verify g d ABSTAIN l → 3 * f + 1 ≤ Z.of_nat (length l) →
  FBHandleAllPhase1Received config true true d fr st = Done st' → st_ok None st'.
Proof.
  intros Hst Ht Hd Hdec Hfast Hflag Hg Hl Hc Hlen. unfold FBHandleAllPhase1Received. rewrite Hfast. apply WritebackFB_ok; [done|done|].
  intros wb. unfold WritebackProcessing. rewrite Hfast, Hflag, Hdec, Hg. cbn. intros (m & Hm & [= <-])%bind_Done.
  apply bind_Done in Hm as (u & _ & Hm). apply bind_Done in Hm as (u' & _ & [= <-]). split; cbn; [by rewrite Hd|]. intros my res.
  replace (FastAbortQuorumSize config) with (p1_quorum config DABORT true) by (by rewrite p1_quorum_size, fast_abort_size).
  eapply (abort_accepted config ser_cc Verify f_range n_value (world_of d) (dig_of d) true 0); [done|done|by rewrite p1_quorum_size].
Qed.
Lemma abort_slow_ok st d fr fr0 g l st' :
  st_ok (Some d) st → fc_instances st !! d = Some fr0 → rq_txn (fr_req fr) = world d → rq_txnDigest (fr_req fr) = d →
  fr_startedWriteback fr = false → rq_conflict_flag (fr_req fr) = false → rq_p2ReplySigsGrouped (fr_req fr) = ∅ →
  log_group d = Done (fr_logGrp fr) → rq_decision (fr_req fr) = DABORT → rq_fast (fr_req fr) = false → rq_slowAbortGroup (fr_req fr) = g →
  rq_p1ReplySigsGrouped (fr_req fr) !! g = Some l → cert config ser_cc Verify g d ABSTAIN l → f + 1 ≤ Z.of_nat (length l) →
  FBHandleAllPhase1Received config true true d fr st = Done st' → st_ok None st'.
Proof.
  intros Hst Hfr Ht Hd Hwb Hflag Hp2 Hlog Hdec Hfast Hg Hl Hc Hlen. unfold FBHandleAllPhase1Received. rewrite Hfast.
  eapply Phase2FB_ok; try done. intros _ r'. unfold Phase2Processing. rewrite Hdec, Hg. cbn.
  intros (m & Hm & [= <-])%bind_Done. apply bind_Done in Hm as (m' & Hm & [= <-]).
  apply bind_Done in Hm as (u & _ & Hm). apply bind_Done in Hm as (u' & _ & [= <-]).
  intros my res. cbn [rq_p1ReplySigsGrouped rq_decision].
  replace (SlowAbortQuorumSize config) with (p1_quorum config DABORT false) by (by rewrite p1_quorum_size, slow_abort_size).
  eapply (abort_accepted config ser_cc Verify f_range n_value (world_of d) (dig_of d) false 0); [done|done|by rewrite p1_quorum_size].
Qed.

(** One more group voted COMMIT. *)
Lemma one_more st d fr g l (fast : bool) x y c :
  fr_ok st d fr → fr_collects st d fr → rq_startedPhase2 (fr_req fr) = false → g ∈ groups d →
  (∀ pf, get_pf g d st = Some pf → fb_p1 pf = false) → rq_p1ReplySigsGrouped (fr_req fr) !! g = None → y = rq_fastAbortGroup (fr_req fr) →
  cert config ser_cc Verify g d COMMIT l → 3 * f + 1 ≤ Z.of_nat (length l) → (fast = true → Z.of_nat (length l) = 5 * f + 1) →
  let r := fr_req fr in
  let fr' := with_req (mkReq (rq_outstandingPhase1s r - 1) (rq_decision r) (rq_decision_view r) (rq_fast r && fast) false
       c (rq_startedPhase2 r) (<[g := l]> (rq_p1ReplySigsGrouped r)) (rq_p2ReplySigsGrouped r)
       (rq_txn r) (rq_txnDigest r) x y) fr in
  fr_ok st d fr' ∧ fr_collects st d fr'.
Proof.
  intros [Hw Hwb Hflag Hp2 Hlog _] [Hv Hdec Hfab Hop] Hs Hg Hnp Hnone -> Hc Hlen Hf r fr'.
  assert (fr_collects st d fr') as Hcol; [|split; [|done]; split; done].
  pose proof (collecting_answer config ser_cc Verify f_range n_value (world_of d) (dig_of d) ∅ 0 _ g l fast x
    (rq_fastAbortGroup r) Hv Hg Hnone) as Ha. split; try done.
  - destruct Ha as [? Hcert Hout ? ?]; try done.
    { intros (sh & Hsh & _). by rewrite lookup_empty in Hsh. }
  - intros g' pf Hpf Hp. cbn. rewrite lookup_insert_ne; [by eapply Hop|]. intros <-. by rewrite (Hnp pf Hpf) in Hp.
Qed.
Lemma callbackA_ok st d g cb st' :
  st_ok None st → g ∈ groups d → cb_ok (world_of d) (dig_of d) g cb →
  (∀ pf, get_pf g d st = Some pf → fb_p1 pf = false) →
  (∀ fr, fc_instances st !! d = Some fr → rq_startedPhase2 (fr_req fr) = false → rq_p1ReplySigsGrouped (fr_req fr) !! g = None) →
  Phase1FBcallbackA config true true g d cb st = Done st' → st_ok None st'.
Proof.
  intros Hst Hg Hcb Hnp Hnone. unfold Phase1FBcallbackA. destruct (fc_instances st !! d) as [fr|] eqn:Hfr; [|by intros [= ->]].
  destruct (rq_startedPhase2 (fr_req fr)) eqn:Hs; cbn [orb]; [by intros [= ->]|]. destruct (fr_startedWriteback fr) eqn:Hw; [by intros [= ->]|].
  pose proof (so_fr _ _ Hst d fr ltac:(done) Hfr) as Hok. pose proof (fo_collects _ _ _ Hok Hs) as Hcol. specialize (Hnone fr eq_refl Hs).
  apply (so_skip _ d) in Hst. intros (r' & Hp & H)%bind_Done.
  assert (∀ fr', fc_instances (upd_instances (<[d := fr']>) st) !! d = Some fr') as Hlk by (intros; apply lookup_insert_eq).
  assert (∀ fr', st_ok (Some d) (upd_instances (<[d := fr']>) st)) as Hany by (intros; by apply so_any).
  assert (fr_ok st d (with_req r' fr) ∧ fr_collects st d (with_req r' fr) → st_ok None st') as Hcommit.
  { intros [Hok' Hcol']. destruct (_ =? _) eqn:H0; [|injection H as <-; by eapply so_set_fr].
    revert H. apply all_commit_ok; [done|by eexists| | |cbn; lia].
    - by apply (fr_ok_same st).
    - by destruct Hcol'. }
  unfold Phase1CallbackProcessing, keep_sigs in Hp. cbn [andb negb] in Hp. unfold ClientCerts.cb_ok in Hcb.
  destruct Hok as [[Ht Hd] Hwb Hflag Hp2 Hlog Hco].
  assert (fr_ok st d fr) as Hok by (by split).
  destruct (cb1_decision cb), (cb1_fast cb); [| |destruct (cb1_conflict_flag cb)|].
  - destruct Hcb as (l & Hl & Hcert & Hlen). rewrite Hl in Hp. injection Hp as <-. apply Hcommit.
    cbn. rewrite Hflag. apply (one_more st d fr g l true); try done. lia.
  - destruct Hcb as (l & Hl & Hcert & Hlen). rewrite Hl in Hp. injection Hp as <-. apply Hcommit.
    cbn. rewrite Hflag. by apply (one_more st d fr g l false).
  - destruct Hcb as (x & Hx & Hv). rewrite Hx in Hp. injection Hp as <-. revert H. apply WritebackFB_ok; [done|done|].
    intros wb [= <-]. split; cbn; [by rewrite Hd|done].
  - destruct Hcb as (l & Hl & Hcert & Hlen). rewrite Hl in Hp. cbn in Hp. rewrite Hflag in Hp. injection Hp as <-. revert H.
    apply (abort_fast_ok _ _ _ g l); try done. cbn. apply lookup_insert_eq.
  - destruct Hcb as (l & Hl & Hcert & Hlen). rewrite Hl in Hp. cbn in Hp. rewrite Hflag, andb_false_r in Hp. injection Hp as <-. revert H.
    eapply (abort_slow_ok _ _ _ _ g l); try done. cbn. apply lookup_insert_eq.
Qed.
Lemma callbackB_ok st d dec l :
  st_ok None st → f + 1 ≤ Z.of_nat (length l) → st_ok None (Phase1FBcallbackB d dec l st).1.
Proof.
  intros Hst Hl. unfold Phase1FBcallbackB. destruct (fc_instances st !! d) as [fr|] eqn:Hfr; [|done].
  destruct (_ || _) eqn:Hs; [done|]. destruct (so_fr _ _ Hst d fr ltac:(done) Hfr) as [? ? ? ? ? Hc].
  eapply so_set_fr; [by apply so_skip|exact Hfr|]. split; try done. cbn. intros Hs'. destruct (Hc Hs') as [? ? ? ?].
  split; try done. by right.
Qed.
Lemma Phase2FBcallback_ok st d g dec l view st' :
  st_ok None st → log_group d = Done g → p2_cert (dig_of d) g 0 dec view l → Z.of_nat (length l) = 4 * f + 1 →
  Phase2FBcallback config true true g d dec l view st = Done st' → st_ok None st'.
Proof.
  intros Hst Hlog Hc Hlen. unfold Phase2FBcallback. destruct (fc_instances st !! d) as [fr|] eqn:Hfr; [|by intros [= ->]].
  destruct (fr_startedWriteback fr); [by intros [= ->]|]. destruct (so_fr _ _ Hst d fr ltac:(done) Hfr) as [[Ht Hd] _ Hflag Hp2 _ _].
  apply WritebackFB_ok; [by apply so_skip|done|]. intros wb. unfold WritebackProcessing. cbn. rewrite andb_false_r. cbn.
  rewrite Hp2, insert_empty, map_to_list_singleton. intros [= <-]. split; cbn; [by rewrite Hd|]. eexists. split; [done|].
  intros my dec' Hown. apply (p2_accepted config ser_p2 Verify f_range n_value (world_of d) (dig_of d) g 0); try done.
  apply (Hown g). by left.
Qed.
Lemma WritebackFBcallback_ok st d wb : st_ok None st → st_ok None (WritebackFBcallback d wb st).
Proof.
  intros Hst. unfold WritebackFBcallback. destruct (fc_instances st !! d) as [fr|] eqn:Hfr; [|done].
  destruct (fr_startedWriteback fr); [done|]. destruct (so_fr _ _ Hst d fr ltac:(done) Hfr) as [[-> _] _ _ _ _ _].
  set (step := λ st g, clean_pf d g (fsend (OutForwarded g wb (world d)) st)).
  assert (∀ gs s, st_ok (Some d) s → st_ok (Some d) (foldl step s gs)) as Hf.
  { intros gs. induction gs as [|g gs IH]; intros s Hs; [done|]. cbn. apply IH, so_clean, so_send; done. }
  assert (∀ gs s g, get_pf g d (foldl step s gs) = if decide (g ∈ gs) then None else get_pf g d s) as Hget.
  { intros gs. induction gs as [|g gs IH]; intros s g'; [cbn; case_decide as Hg; [by apply elem_of_nil in Hg|done]|]. cbn. rewrite IH. unfold step.
    rewrite get_clean_pf. change (get_pf g' d (fsend _ s)) with (get_pf g' d s). repeat case_decide; set_solver. }
  apply so_drop; [by apply so_completed, Hf, so_skip|]. intros g. change (get_pf g d (foldl step st (groups d)) = None). rewrite Hget.
  case_decide as Hg; [done|]. by destruct (no_pf _ st d g Hst).
Qed.

(** ** The pending fallbacks *)

Lemma views_pf_ok g d pf w : pf_ok g d pf → views_ok g d w → pf_ok g d (with_views w pf).
Proof. intros []. by split. Qed.
Lemma so_set_views st g d pf w :
  st_ok None st → get_pf g d st = Some pf → views_ok g d w → st_ok None (set_pf g d (with_views w pf) st).
Proof. intros Hst Hpf Hw. eapply so_set_pf; [done|exact Hpf| |done]. apply views_pf_ok; [by apply (so_pf _ _ Hst)|done]. Qed.
Notation InvokeFB_ := (ShardClient_InvokeFB config all_to_all_fb junk).
Lemma InvokeFB_ok st g d q txn dec l st' : st_ok None st → InvokeFB_ g q d txn dec l st = Done st' → st_ok None st'.
Proof.
  intros Hst. unfold ShardClient_InvokeFB. destruct (get_pf g d st) as [pf|] eqn:Hpf; [|by intros [= ->]].
  destruct all_to_all_fb. { intros [= <-]. apply so_send; [done|]. by intros msgs my myv [=]. }
  destruct (so_pf _ _ Hst g d pf Hpf) as [[Hg _ _ Hv] _]. apply ComputeMaxLevel_ok in Hv. set (w := ComputeMaxLevel config (fb_views pf)) in *.
  clearbody w. set (proposed := if _ >? _ then _ else _).
  assert (proposed ≤ vs_max_view w) as Hp by (unfold proposed; destruct (_ >? _) eqn:?; lia).
  assert (0 ≤ proposed) as H0.
  { unfold proposed. destruct (_ >? _); [unfold u64; apply Z.mod_pos_bound; lia|]. destruct (vo_max _ _ _ Hv) as [?|[? _]]; lia. }
  pose proof (vo_one _ _ _ Hv) as H1. pose proof Hv as [V1 V2 V3 V4].
  assert (∀ cv lv b i, cv = vs_current_views w → 0 ≤ lv →
    views_ok g d (mkViews cv (vs_view_levels w) lv proposed (vs_conflict_view w) (vs_catchup w) b i)) as Hw.
  { intros cv lv b i -> Hlv. split; try done. unfold justified. cbn. destruct V4 as [Hz|(Hr & c & Hc & Hq)]; [left; lia|].
    destruct (decide (proposed = 0)); [by left|right]. split; [lia|]. exists c. split; [done|]. etrans; [exact Hq|].
    apply ids_above_lower; [done|]. destruct c; lia. }
  destruct (_ <=? _) eqn:Hle; [intros [= <-]; apply so_set_views; [done|done|by apply Hw]|].
  destruct (vs_catchup w) as [c|] eqn:Hc; [|done]. cbv zeta. fold (all_ids (vs_view_levels w)). fold (invite w c). intros [= <-].
  assert (0 < proposed ≤ vs_max_view w) as Hpp by lia.
  destruct (invite_spec g d w c proposed Hv Hc Hpp) as (_ & _ & _ & Hids). apply so_send.
  - apply so_set_views; [done|done|]. apply Hw; [|lia]. apply touch_views_same. intros id (v & sm & ? & _)%Hids. by eexists.
  - apply invite_answer; try done. by eapply groups_range.
Qed.
Lemma UpdateViewStructure_ok st g d ac st' :
  st_ok None st → proper_view d ac →
  UpdateViewStructure config Verify parse_cview true true all_to_all_fb junk g d ac st = Done st' → st_ok None st'.
Proof.
  intros Hst Hp. unfold UpdateViewStructure. destruct (get_pf g d st) as [pf|] eqn:Hpf; [|by intros [= ->]].
  destruct (update_views _ _ _ _ _ _ _ _ _) as [w|] eqn:Hu; [|by intros [= ->]].
  apply (update_views_ok g d) in Hu; [|by apply (so_pf _ _ Hst g d pf Hpf)|done].
  pose proof (so_set_views st g d pf w Hst Hpf Hu) as Hst'. destruct (vs_call_invokeFB w); [|by intros [= <-]].
  repeat case_match; try done. by apply InvokeFB_ok.
Qed.
Lemma attach_view_ok st g d ac st' :
  st_ok None st → proper_view d ac →
  attach_view config Verify parse_cview true true all_to_all_fb junk g d ac st = Done st' → st_ok None st'.
Proof.
  intros Hst Hp. unfold attach_view. destruct (get_pf g d st); [|by intros [= ->]].
  destruct (_ && _); [by apply UpdateViewStructure_ok|by intros [= ->]].
Qed.

(** *** Logged decisions *)

(** A decision that verifies is one the log group serialized for the
    transaction. *)
Definition proper_p2 g d (reply : Phase2Reply) : Prop :=
  ∀ sm m, p2r_vote reply = SignedDecision sm → parse_p2 (sm_data sm) = Some m →
    Verify (sm_process_id sm) (sm_data sm) (sm_signature sm) = true →
    sm_data sm = ser_p2 m ∧ p2_involved_group m = g ∧ p2_txn_digest m = d ∧ log_group d = Done g.
Lemma p2_of_spec g d reply dec view pid sig :
  proper_p2 g d reply → p2_of config Verify parse_p2 true true g reply = Some (dec, view, pid, sig) →
  ∃ s, sig = [mkSig pid s] ∧ Verify pid (ser_p2 (mkP2Msg dec view g d)) s = true ∧ log_group d = Done g.
Proof.
  intros Hp. unfold p2_of. cbn. destruct (p2r_vote reply) as [| |sm] eqn:Hv; [done..|].
  destruct (IsReplicaInGroup _ _ _); [|done]. destruct (Verify _ _ _) eqn:Hver; [|done]. cbn.
  destruct (parse_p2 (sm_data sm)) as [m|] eqn:Hm; [|done]. cbn. intros [= <- <- <- <-].
  destruct (Hp sm m Hv Hm Hver) as (Hser & Hg & Hd & Hlog). exists (sm_signature sm). split; [done|]. split; [|done].
  rewrite Hser in Hver. destruct m as [a b c e]. cbn in *. by subst.
Qed.

Lemma p2_entry_set l view dec e view' dec' :
  p2_entry (set_entry view dec e l) view' dec' = if decide (view' = view ∧ dec' = dec) then e else p2_entry l view' dec'.
Proof.
  unfold p2_entry, set_entry. cbn. destruct (decide (view' = view)) as [->|Hne].
  - rewrite lookup_insert_eq. cbn. destruct (decide (view = view ∧ dec' = dec)) as [[_ ->]|Hn]; [by rewrite lookup_insert_eq|].
    rewrite lookup_insert_ne by naive_solver. done.
  - rewrite lookup_insert_ne by done. destruct (decide (view' = view ∧ dec' = dec)); [naive_solver|done].
Qed.
Lemma log_set_ok g d l view dec e : log_ok g d l → entry_ok g d view dec e → log_ok g d (set_entry view dec e l).
Proof. intros Hl He v' dec'. rewrite p2_entry_set. case_decide as Hd; [by destruct Hd as [-> ->]|apply Hl]. Qed.
Lemma log_pf_ok g d pf l : pf_ok g d pf → log_ok g d l → pf_ok g d (with_log l pf).
Proof. intros []. by split. Qed.
Lemma add_reply_ok g d l dec pid reply : log_ok g d l → log_ok g d (add_reply dec pid reply l).
Proof. intros Hl. unfold add_reply. case_bool_decide; [done|exact Hl]. Qed.

Lemma collect_replies_ok st g d dec pid reply :
  st_ok None st → st_ok None (collect_replies config g d dec pid reply st).1.
Proof.
  intros Hst. unfold collect_replies. destruct (get_pf g d st) as [pf|] eqn:Hpf; [|done]. destruct (fb_p1 pf) eqn:Hp; [|done].
  pose proof (proj1 (so_pf _ _ Hst g d pf Hpf)) as Hok.
  assert (pf_ok g d (with_log (add_reply dec pid reply (fb_log pf)) pf)) as Hok' by (apply log_pf_ok; [done|by apply add_reply_ok, Hok]).
  destruct (_ =? _) eqn:Hl.
  - apply callbackB_ok; [|lia]. eapply so_set_pf; [done|exact Hpf|by apply stop_ok|done].
  - eapply so_set_pf; [done|exact Hpf|exact Hok'|done].
Qed.
Lemma InvokeFBcallback_ok st g d st' b :
  st_ok None st → Client_InvokeFBcallback config all_to_all_fb junk g d st = Done (st', b) → st_ok None st'.
Proof.
  intros Hst. unfold Client_InvokeFBcallback. destruct (fc_instances st !! d); [|by intros [= <- _]].
  destruct (fr_startedWriteback _); [by intros [= <- _]|]. destruct (_ <? _); [by intros [= <- _]|].
  intros (st1 & H & [= <- _])%bind_Done. by eapply InvokeFB_ok.
Qed.
Lemma divergence_ok st g d view st' b :
  st_ok None st → invoke_on_divergence config all_to_all_fb junk g d view st = Done (st', b) → st_ok None st'.
Proof.
  intros Hst. unfold invoke_on_divergence. destruct (get_pf g d st) as [pf|] eqn:Hpf; [|by intros [= <- _]].
  destruct (_ && _); [|by intros [= <- _]]. pose proof (proj1 (so_pf _ _ Hst g d pf Hpf)) as Hok.
  assert (st_ok None (set_pf g d (with_views (set_conflict view (fb_views pf)) (stop_p1 pf)) st)) as Hst'.
  { eapply so_set_pf; [done|exact Hpf| |done]. apply views_pf_ok; [by apply stop_ok|]. by destruct (po_views _ _ _ Hok). }
  destruct (_ >? _); [by apply InvokeFBcallback_ok|by intros [= <- _]].
Qed.

(** A pending fallback that is about to be erased does not matter. *)
Lemma clean_after_set d g pf gs (m : gmap Z (gmap digest PendingFB)) :
  g ∈ gs → foldl (λ m g, alter (delete d) g m) (alter (<[d := pf]>) g m) gs = foldl (λ m g, alter (delete d) g m) m gs.
Proof.
  revert m. induction gs as [|g' gs IH]; intros m Hin; [by apply elem_of_nil in Hin|]. cbn. destruct (decide (g' = g)) as [->|Hne].
  - f_equal. apply map_eq. intros k. destruct (decide (k = g)) as [->|Hk]; [|by rewrite !lookup_alter_ne].
    rewrite !lookup_alter_eq. destruct (m !! g); [|done]. cbn. by rewrite delete_insert_eq.
  - apply elem_of_cons in Hin as [?|Hin]; [done|]. rewrite <- (IH (alter (delete d) g' m)) by done. f_equal. apply map_eq. intros k.
    destruct (decide (k = g)) as [->|Hk]; [by rewrite lookup_alter_ne, !lookup_alter_eq, lookup_alter_ne|].
    rewrite (lookup_alter_ne _ (alter _ g' m)) by done. destruct (decide (k = g')) as [->|]; [by rewrite !lookup_alter_eq, lookup_alter_ne|].
    by rewrite !lookup_alter_ne.
Qed.
Lemma WritebackFB_set st d g pf fr :
  rq_txn (fr_req fr) = world d → g ∈ groups d → Client_WritebackFB d fr (set_pf g d pf st) = Client_WritebackFB d fr st.
Proof.
  intros Hw Hg. unfold ClientFallback.Client_WritebackFB, Client_CleanFB. destruct (WritebackProcessing _ _ _ _) as [wb|]; [|done]. cbn.
  f_equal. rewrite Hw.
  assert (∀ gs s, foldl (λ s g, fsend (OutWriteback g wb) s) s gs =
    mkFC (fc_shards s) (fc_instances s) (fc_completed s) (fc_phase1s s) (fc_requests s) (fc_sent s ++ ((λ g, OutWriteback g wb) <$> gs))) as Hs.
  { intros gs. induction gs as [|g' gs IH]; intros s; cbn; [by rewrite app_nil_r; destruct s|]. rewrite IH. cbn. by rewrite <- app_assoc. }
  assert (∀ gs s, foldl (λ s g, clean_pf d g s) s gs =
    mkFC (foldl (λ m g, alter (delete d) g m) (fc_shards s) gs) (fc_instances s) (fc_completed s) (fc_phase1s s) (fc_requests s) (fc_sent s)) as Hc.
  { intros gs. induction gs as [|g' gs IH]; intros s; cbn; [by destruct s|]. by rewrite IH. }
  rewrite !Hs, !Hc. unfold upd_instances, set_pf. cbn. by rewrite clean_after_set.
Qed.
Lemma quorum_ok st g d pf dec l view st' :
  st_ok None st → g ∈ groups d → is_Some (fc_instances st !! d) → log_group d = Done g →
  p2_cert (dig_of d) g 0 dec view l → Z.of_nat (length l) = 4 * f + 1 →
  Phase2FBcallback config true true g d dec l view (set_pf g d pf st) = Done st' → st_ok None st'.
Proof.
  intros Hst Hg [fr Hfr] Hlog Hc Hlen H. eapply (Phase2FBcallback_ok st d g dec l view); try done. revert H.
  unfold Phase2FBcallback. cbn. rewrite Hfr. destruct (so_fr _ _ Hst d fr ltac:(done) Hfr) as [[Ht _] Hw _ _ _ _].
  rewrite Hw. by rewrite WritebackFB_set.
Qed.
Lemma ProcessP2FBR_ok st g d reply st' b :
  st_ok None st → proper_p2 g d reply →
  ProcessP2FBR config Verify parse_p2 true true all_to_all_fb junk g d reply st = Done (st', b) → st_ok None st'.
Proof.
  intros Hst Hp. unfold ProcessP2FBR. destruct (get_pf g d st) as [pf|] eqn:Hpf; [|by intros [= <- _]].
  destruct (p2_of _ _ _ _ _ _ _) as [[[[dec view] pid] sig]|] eqn:H2; [|by intros [= <- _]].
  destruct (p2_of_spec _ _ _ _ _ _ _ Hp H2) as (s & -> & Hver & Hlog). destruct (so_pf _ _ Hst g d pf Hpf) as [Hok Hinst].
  destruct (_ >? _); [by intros [= <- _]|]. pose proof (po_log _ _ _ Hok view dec) as He. set (e := p2_entry (fb_log pf) view dec) in *.
  destruct e as [eq er es ek]. unfold entry_ok in He. cbn [pp_replicasVerified pp_sigs pp_matchingReplies] in *.
  destruct He as (Hcert & Hsub & Hk & Hlt). case_bool_decide as Hseen.
  { intros [= <- _]. eapply so_set_pf; [done|exact Hpf| |done]. apply log_pf_ok; [done|]. apply log_set_ok; [apply Hok|]. by split_and!. }
  assert (p2_cert (dig_of d) g 0 dec view (es ++ [mkSig pid s])) as Hcert' by (apply p2_cert_snoc; [done|by intros ?%Hsub|done]).
  assert (Z.of_nat (length (es ++ [mkSig pid s])) = ek + 1) as Hlen by (rewrite length_app; cbn; lia).
  rewrite (u64_small (ek + 1)), p2_quorum_value by (done || lia). cbv zeta. cbn [pp_sigs].
  set (l := set_entry _ _ _ _). destruct (ek + 1 =? 4 * f + 1) eqn:Hq.
  { intros (st1 & H & [= <- _])%bind_Done. eapply quorum_ok; [done|apply Hok|done|done|done| |exact H]. lia. }
  assert (log_ok g d l) as Hl.
  { apply log_set_ok.
    - destruct (_ && _); apply Hok.
    - unfold entry_ok. cbn. split_and!; [done| |lia|lia]. unfold pids. rewrite fmap_app. cbn. set_solver. }
  assert (st_ok None (set_pf g d (with_log l pf) st)) as Hst1 by (eapply so_set_pf; [done|exact Hpf|by apply log_pf_ok|done]).
  pose proof (collect_replies_ok _ g d dec pid reply Hst1) as Hst2. destruct (collect_replies _ _ _ _ _ _ _) as [st2 [|]]; cbn in Hst2 |- *; [|by intros [= <- _]].
  intros ([st3 act] & Hd & H)%bind_Done. apply divergence_ok in Hd; [|done]. destruct (negb act); [by injection H as <- _|].
  apply bind_Done in H as (u & _ & H). by injection H as <- _.
Qed.

(** *** Votes *)

Lemma p1_pf_ok g d pf p : pf_ok g d pf → (fb_p1 pf = true → p1_inv (world_of d) (dig_of d) g p) → pf_ok g d (with_p1 p pf).
Proof. intros []. by split. Qed.
Notation Phase1FBDecision := (Phase1FBDecision config true true).
Lemma Phase1FBDecision_ok st g d pf p st' :
  st_ok None st → get_pf g d st = Some pf → fb_p1 pf = true → cb_ok (world_of d) (dig_of d) g (callback_of p) →
  Phase1FBDecision g d (with_p1 p pf) st = Done st' → st_ok None st'.
Proof.
  intros Hst Hpf Hp1 Hcb. unfold ClientFallback.Phase1FBDecision. intros (u & _ & H)%bind_Done.
  pose proof (proj1 (so_pf _ _ Hst g d pf Hpf)) as Hok. revert H. apply callbackA_ok; [|apply Hok|exact Hcb| |].
  - eapply so_set_pf; [done|exact Hpf| |done]. destruct Hok. by split.
  - intros x. rewrite (get_set_pf g d _ pf) by done. rewrite decide_True by done. by intros [= <-].
  - cbn. intros fr Hfr Hs. pose proof (fo_collects _ _ _ (so_fr _ _ Hst d fr ltac:(done) Hfr) Hs) as [_ _ _ Ho]. by eapply Ho.
Qed.
Lemma store_p1_ok st g d pf p :
  st_ok None st → get_pf g d st = Some pf → p1_inv (world_of d) (dig_of d) g p → st_ok None (set_pf g d (with_p1 p pf) st).
Proof. intros Hst Hpf Hp. eapply so_set_pf; [done|exact Hpf| |done]. apply p1_pf_ok; [by apply (so_pf _ _ Hst)|done]. Qed.
Lemma fb_tentative_ok st g d dec p pf st' :
  st_ok None st → get_pf g d st = Some pf → fb_p1 pf = true → p1_inv (world_of d) (dig_of d) g p → supports config (p1_validator p) dec →
  fb_tentative config true true phase1DecisionTimeout g d dec p pf st = Done st' → st_ok None st'.
Proof.
  intros Hst Hpf Hp1 Hi Hs. unfold fb_tentative. destruct (_ && _).
  - apply Phase1FBDecision_ok; try done. apply slow_callback_ok; [done|by apply spend_first_base, Hi|exact Hs].
  - intros [= <-]. apply store_p1_ok; [done..|]. destruct (p1_timer p) eqn:Ht; [done|]. destruct Hi as [[] ? ? ?]. split; try done.
    by intros ? [= <-].
Qed.
Lemma fb_act_ok st g d reply cc p pf st' :
  st_ok None st → get_pf g d st = Some pf → fb_p1 pf = true → p1_base (world_of d) (dig_of d) g p →
  counted_state config (p1_validator p) → (∀ dec, p1_timer p = Some dec → supports config (p1_validator p) dec) →
  fb_act config true true phase1DecisionTimeout g d reply cc p pf st = Done st' → st_ok None st'.
Proof.
  intros Hst Hpf Hp1 Hb Hs Ht. unfold fb_act.
  assert (counted_in config (p1_validator p) ∧ open_state config (p1_validator p) → p1_inv (world_of d) (dig_of d) g p) as Hi.
  { intros [[[_ ?] [_ ?]] Ho]. by split. }
  unfold counted_state in Hs. destruct (v1_state (p1_validator p)) eqn:HS; try done;
    try (apply Phase1FBDecision_ok; [done..|]; by (apply fast_callback_ok || apply slow_callback_ok));
    try (apply fb_tentative_ok; [done..|by apply Hi|]; destruct Hs as [_ Hs]; unfold open_state in Hs; by rewrite HS in Hs).
  - intros (u & _ & H)%bind_Done. revert H. apply Phase1FBDecision_ok; [done..|]. by apply fast_callback_ok.
  - intros [= <-]. apply store_p1_ok; [done..|]. by apply Hi.
Qed.
Lemma ProcessP1FBR_ok st g d reply st' :
  st_ok None st → proper_vote ser_cc parse_cc g (p1r_vote reply) →
  ProcessP1FBR config ser_cc ser_p2 Verify policyFn TransactionDigest parse_cc true true phase1DecisionTimeout g d reply st = Done st' →
  st_ok None st'.
Proof.
  intros Hst Hv. unfold ProcessP1FBR. destruct (get_pf g d st) as [pf|] eqn:Hpf; [|by intros [= ->]].
  destruct (fb_p1 pf) eqn:Hp1; cbn [negb]; [|by intros [= ->]]. pose proof (po_p1 _ _ _ (proj1 (so_pf _ _ Hst g d pf Hpf)) Hp1) as Hi.
  intros (r & Hr & H)%bind_Done. pose proof (vote_of_spec config ser_cc Verify parse_cc (world_of d) (dig_of d) g reply _ r Hi Hv Hr) as Hr'. clear Hr. rename Hr' into Hr.
  destruct r as [p1|[[p1 cc] signed]]; [injection H as <-; by apply store_p1_ok; [..|apply Hr]|].
  destruct Hr as ([Hb Hrange Hst1 Htimer] & Ht & Hc). apply bind_Done in H as ([v b] & Hm & H). apply bind_Done in H as (u & ->%uw_assert_Done & H).
  assert (counted_in config (p1_validator p1)) as Hin.
  { pose proof (pb_commits _ _ _ _ _ _ _ Hb). pose proof (pb_abstains _ _ _ _ _ _ _ Hb). unfold counted_in. lia. }
  apply ProcessMessage_spec in Hm as (Hd & Hvc & Hva & Hm); [|done..]. cbn zeta in Hm.
  pose proof (with_vote_base config ser_cc Verify f_range n_value (world_of d) (dig_of d) g reply cc signed v p1 Hb Hc Hd Hvc Hva) as Hb'. cbn zeta in H.
  change (p1_add_conflict _ _) with (with_vote reply cc signed v p1) in H.
  assert (p1_validator (with_vote reply cc signed v p1) = v) as HV by (by destruct signed).
  assert (p1_timer (with_vote reply cc signed v p1) = p1_timer p1) as HTm by (by destruct signed).
  assert (p1_txn p1 = world d) as HW by apply (pb_world _ _ _ _ _ _ _ Hb).
  set (pv := with_vote reply cc signed v p1) in *. clearbody pv. subst v.
  destruct (bool_decide (cc_ccr (cc_vote cc) = ABORT)) eqn:Hab.
  - apply bool_decide_eq_true in Hab. rewrite Hab in Hm. destruct Hm as [Hs Hconf]. unfold fb_act in H. rewrite Hs in H. revert H.
    apply Phase1FBDecision_ok; [done..|]. eexists. split; [done|]. unfold valid_conflict. by rewrite <- HW.
  - apply bool_decide_eq_false in Hab. revert H. apply fb_act_ok; [done..| |].
    + destruct (cc_ccr (cc_vote cc)); done || congruence.
    + rewrite HTm. intros dec Hdec. specialize (Htimer dec Hdec). unfold supports, counts in *.
      destruct dec; repeat case_bool_decide; lia.
Qed.
Lemma P1FBTimer_ok st g d st' : st_ok None st → P1FBTimer config true true g d st = Done st' → st_ok None st'.
Proof.
  intros Hst. unfold P1FBTimer. destruct (get_pf g d st) as [pf|] eqn:Hpf; [|by intros [= ->]].
  destruct (fb_p1 pf) eqn:Hp1; [|by intros [= ->]]. destruct (p1_timer _) as [dec|] eqn:Ht; [|by intros [= ->]].
  pose proof (po_p1 _ _ _ (proj1 (so_pf _ _ Hst g d pf Hpf)) Hp1) as Hi. apply Phase1FBDecision_ok; [done..|].
  apply slow_callback_ok; [done|apply Hi|by apply (pi_timer _ _ _ _ _ _ _ Hi)].
Qed.

(** ** Starting *)

Lemma new_pf_ok g d fr : g ∈ groups d → rq_txn (fr_req fr) = world d →
  pf_ok g d (PendingFB_new (PendingPhase1_new client_id (rq_txn (fr_req fr)) d) (fr_logGrp fr)).
Proof.
  intros Hg ->. split; [done|intros _; by apply (p1_inv_new config ser_cc Verify f_range n_value (world_of d) (dig_of d))| |].
  - intros view dec. unfold p2_entry, entry_ok. cbn. rewrite !lookup_empty. cbn. rewrite lookup_empty. cbn.
    split_and!; [split; [constructor|set_solver]|set_solver|done|lia].
  - split; cbn; [set_solver| |done|by left]. intros id v. unfold level. rewrite lookup_empty. set_solver.
Qed.
Lemma get_new_pf st g d pf m g' d' :
  fc_shards st !! g = Some m → get_pf g' d' (set_pf g d pf st) = if decide (g' = g ∧ d' = d) then Some pf else get_pf g' d' st.
Proof.
  intros Hg. unfold get_pf, set_pf. cbn. destruct (decide (g' = g)) as [->|Hne].
  - rewrite lookup_alter_eq, Hg. cbn. destruct (decide (g = g ∧ d' = d)) as [[_ ->]|Hn]; [by rewrite lookup_insert_eq|].
    rewrite lookup_insert_ne by naive_solver. done.
  - rewrite lookup_alter_ne by done. destruct (decide (g' = g ∧ d' = d)); [naive_solver|done].
Qed.
(** An instance that has heard nothing yet. *)
Definition fresh_fr d fr : Prop :=
  fr_ok (FBClient_new ∅) d fr ∧ rq_p1ReplySigsGrouped (fr_req fr) = ∅.
Lemma fresh_ok st d fr : fresh_fr d fr → fr_ok st d fr.
Proof.
  intros [[? ? ? ? ? Hc] He]. split; try done. intros Hs. destruct (Hc Hs) as [? ? ? _]. split; try done.
  intros. by rewrite He, lookup_empty.
Qed.
Lemma Phase1FB_ok st g d fr st' :
  st_ok None st → fresh_fr d fr → fc_instances st !! d = Some fr → g ∈ groups d →
  ShardClient_Phase1FB client_id g d fr st = Done st' → st_ok None st' ∧ fc_instances st' !! d = Some fr.
Proof.
  intros Hst Hfresh Hfr Hg. unfold ShardClient_Phase1FB. destruct (fc_shards st !! g) as [m|] eqn:Hm; [|done]. intros [= <-].
  split; [|done]. apply so_send; [|done]. set (pf := PendingFB_new _ _). assert (pf_ok g d pf) as Hpf by (apply new_pf_ok; [done|apply Hfresh]).
  destruct Hst as [H1 H2 H3 H4]. split; [| |done|done].
  - intros g' d' x. rewrite (get_new_pf st g d pf m) by done. case_decide as Hd; [|apply H1]. destruct Hd as [-> ->]. intros [= <-].
    split; [done|by eexists].
  - intros d' fr' Hsk Hfr'. destruct (decide (d' = d)) as [->|Hne].
    + assert (fr' = fr) as -> by (cbn in Hfr'; congruence). by apply fresh_ok.
    + apply (fr_ok_shards st); [|by apply H2]. intros g' x. rewrite (get_new_pf st g d pf m) by done.
      rewrite decide_False by naive_solver. eauto.
Qed.
Lemma new_instance_fresh id q d p1 dep lg :
  proper_p1 d p1 → log_group d = Done lg → fresh_fr d (new_instance id q d p1 dep lg).
Proof.
  intros [Hw Hnd] Hlg. unfold new_instance. rewrite Hw. split; [|done]. split; try done. intros _. split; [|by left|done|done]. split; try done.
  - cbn. rewrite dom_empty_L, difference_empty_L. by rewrite size_list_to_set.
  - intros (g & sh & Hsh & _). by rewrite lookup_empty in Hsh.
Qed.
Lemma SendPhase1FB_ok st id q d p1 dep st' :
  st_ok None st → proper_p1 d p1 → SendPhase1FB client_id id q d p1 dep st = Done st' → st_ok None st'.
Proof.
  intros Hst Hp. unfold SendPhase1FB. case_bool_decide as Hn; [by intros [= ->]|]. destruct Hp as [Hw Hnd]. rewrite Hw.
  intros (lg & Hlg & H)%bind_Done. set (fr := new_instance id q d p1 dep lg) in *.
  assert (fresh_fr d fr) as Hfresh by (by apply new_instance_fresh). clearbody fr.
  assert (st_ok None (upd_instances (<[d := fr]>) st) ∧ fc_instances (upd_instances (<[d := fr]>) st) !! d = Some fr) as Hst1.
  { split; [|apply lookup_insert_eq]. destruct Hst as [H1 H2 H3 H4]. split; [| |done|done].
    - intros g d' pf Hpf. destruct (H1 g d' pf Hpf) as [? [x Hx]]. split; [done|]. cbn. apply lookup_insert_is_Some.
      destruct (decide (d = d')); [by left|right]. by split; [|exists x].
    - cbn. intros d' x Hsk [[<- <-]|[Hne Hx]]%lookup_insert_Some; [by apply fresh_ok|]. by apply (fr_ok_same st), H2. }
  apply (foldO_inv (λ s, st_ok None s ∧ fc_instances s !! d = Some fr)) in H; [by destruct H| |done].
  intros s g s' Hg [Hs Hf] Hstep. by eapply Phase1FB_ok.
Qed.

Lemma so_requests st h : st_ok None st → proper_requests (h (fc_requests st)) → st_ok None (upd_requests h st).
Proof. intros [H1 H2 H3 H4] Hm. split; try done. intros d fr Hsk Hfr. by apply (fr_ok_same st), H2. Qed.
Lemma RelayP1callback_ok st q p1 d st' :
  st_ok None st → proper_p1 d p1 → RelayP1callback sql_mode client_id query_dep q p1 d st = Done st' → st_ok None st'.
Proof.
  intros Hst Hp. unfold RelayP1callback. destruct (fc_requests st !! q) as [rs|] eqn:Hq; [|by intros [= ->]].
  destruct (_ || _); [by intros [= ->]|]. intros (dep & _ & H)%bind_Done. destruct (negb dep); [by injection H as <-|].
  destruct (rs_startFB rs); [by eapply SendPhase1FB_ok|]. injection H as <-. apply so_requests; [done|].
  intros q' rs' d' p' [[<- <-]|[_ Hq']]%lookup_insert_Some; [|by apply (so_req _ _ Hst q')]. cbn.
  intros [[<- <-]|[_ Hd']]%lookup_insert_Some; [done|]. by eapply (so_req _ _ Hst).
Qed.
Lemma RelayP1Timeout_ok st q st' : st_ok None st → RelayP1TimeoutCallback client_id q st = Done st' → st_ok None st'.
Proof.
  intros Hst. unfold RelayP1TimeoutCallback. destruct (fc_requests st !! q) as [rs|] eqn:Hq; [|by intros [= ->]].
  apply foldO_inv.
  - intros s [d p1] s' Hin%elem_of_map_to_list Hs Hstep. eapply SendPhase1FB_ok; [done| |exact Hstep]. by eapply (so_req _ _ Hst).
  - apply so_requests; [done|]. intros q' rs' d' p' [[<- <-]|[_ Hq']]%lookup_insert_Some Hd; by eapply (so_req _ _ Hst).
Qed.
Notation relayed_p1 := (relayed_p1 parse_txn signClientProposals).
Lemma HandlePhase1Relay_ok st g relay st' :
  let p1 := relayed_p1 (rl_p1 relay) in
  st_ok None st → proper_p1 (TransactionDigest (Phase1.p1_txn p1)) p1 →
  HandlePhase1Relay TransactionDigest parse_txn signClientProposals sql_mode client_id query_dep g relay st = Done st' → st_ok None st'.
Proof.
  intros p1 Hst Hp. unfold HandlePhase1Relay. fold p1. destruct (get_pf _ _ st); [by intros [= ->]|]. destruct (negb _).
  - destruct (fc_phase1s st !! _); [by apply RelayP1callback_ok|by intros [= ->]].
  - destruct (get_pf _ _ st); [|by intros [= ->]]. destruct (fc_instances st !! _); [|by intros [= ->]]. unfold RelayP1callbackFB.
    destruct (fc_requests st !! _); [|by intros [= ->]]. destruct (fc_instances st !! _); [|by intros [= ->]].
    destruct (_ || _); [by intros [= ->]|]. intros (dep & _ & H)%bind_Done. destruct (negb dep); [by injection H as <-|].
    by eapply SendPhase1FB_ok.
Qed.

(** ** Runs *)

(** The transactions proposed have the digests they are known by, and the
    messages that verify are those the replicas send: each names its group
    and its transaction. *)
Definition proper_fb_event (ev : FBEvent) : Prop :=
  match ev with
  | EvFinish _ d p1 => proper_p1 d p1
  | EvRelay g relay => let p1 := relayed_p1 (rl_p1 relay) in proper_p1 (TransactionDigest (Phase1.p1_txn p1)) p1
  | EvPhase1FBReply g reply =>
      (∀ x, pfr_p1r reply = Some x → proper_vote ser_cc parse_cc g (p1r_vote x)) ∧
      (∀ x, pfr_p2r reply = Some x → proper_p2 g (pfr_txn_digest reply) x) ∧
      proper_view (pfr_txn_digest reply) (pfr_attached_view reply)
  | EvPhase2FBReply g reply =>
      proper_p2 g (sfr_txn_digest reply) (sfr_p2r reply) ∧ proper_view (sfr_txn_digest reply) (sfr_attached_view reply)
  | EvSendView g d ac => proper_view d ac
  | EvRelayTimer _ | EvTimer _ _ => True
  | EvNormal _ requests => proper_requests requests
  end.
Notation fb_step := (fb_step config ser_cc ser_p2 Verify policyFn TransactionDigest parse_cc parse_p2 parse_cview parse_txn true true
  signClientProposals all_to_all_fb sql_mode client_id phase1DecisionTimeout junk query_dep).
Lemma fb_step_ok st ev st' : st_ok None st → proper_fb_event ev → fb_step ev st = Done st' → st_ok None st'.
Proof.
  intros Hst Hp. destruct ev as [q d p1|g relay|q|g reply|g reply|g d ac|g d|p1s reqs]; cbn [ClientFallback.fb_step].
  - by apply SendPhase1FB_ok.
  - by apply HandlePhase1Relay_ok.
  - by apply RelayP1Timeout_ok.
  - destruct Hp as (P1 & P2 & PV). unfold HandlePhase1FBReply. destruct (get_pf _ _ st); [|by intros [= ->]].
    destruct (pfr_wb reply); [intros [= <-]; by apply WritebackFBcallback_ok|]. intros (st1 & Ha & H)%bind_Done.
    apply attach_view_ok in Ha; [|done..]. apply bind_Done in H as ([st2 fin] & H2 & H).
    assert (st_ok None st2) as Hst2.
    { destruct (pfr_p2r reply) as [x|]; [|by injection H2 as <- _]. eapply ProcessP2FBR_ok; [exact Ha| |exact H2]. by apply P2. }
    destruct fin; [by injection H as <-|]. destruct (pfr_p1r reply) as [x|]; [|by injection H as <-].
    eapply ProcessP1FBR_ok; [exact Hst2| |exact H]. by apply P1.
  - destruct Hp as (P2 & PV). unfold HandlePhase2FBReply. destruct (get_pf _ _ st); [|by intros [= ->]].
    intros (st1 & Ha & H)%bind_Done. apply attach_view_ok in Ha; [|done..]. apply bind_Done in H as ([st2 fin] & H2 & H).
    injection H as <-. by eapply ProcessP2FBR_ok.
  - by apply attach_view_ok.
  - by apply P1FBTimer_ok.
  - intros [= <-]. destruct Hst as [H1 H2 H3 H4]. split; try done. intros d fr Hsk Hfr. by apply (fr_ok_same st), H2.
Qed.
Definition fb_run (evs : list FBEvent) st : outcome FBClient := foldO (λ st ev, fb_step ev st) st evs.
Lemma fb_run_ok gs evs st : Forall proper_fb_event evs → fb_run evs (FBClient_new gs) = Done st → st_ok None st.
Proof.
  intros Hp. apply foldO_inv; [intros s ev s' Hin Hs Hstep; eapply fb_step_ok; [done| |exact Hstep]; by eapply Forall_forall|].
  assert (∀ g d, get_pf g d (FBClient_new gs) = None) as Hn.
  { intros g d. unfold get_pf. cbn. destruct (set_to_map _ gs !! g) as [m|] eqn:Hm; [|done]. cbn.
    apply lookup_set_to_map in Hm as (g' & _ & [= _ <-]); [apply lookup_empty|done]. }
  split.
  - intros g d pf. by rewrite Hn.
  - intros d fr _. cbn. by rewrite lookup_empty.
  - intros q rs d p1. cbn. by rewrite lookup_empty.
  - intros o Ho. by apply elem_of_nil in Ho.
Qed.


End safety.
