(* ===== verification/ClientFallbackExamples.v ===== *)
(** * Concrete fallbacks at a client

    Instances of the theorems of ClientFallbackSafety.v, and runs that show
    what the client's checks do not cover. *)
From S2P Require Import Prelude OrderedSeq CppString Timestamp VersionStore Policy PolicyParse ServerState ServerTxn MVTSO Endorse AsyncPrepare Quorum AsyncVerify Phase2 Fallback Snapshot Digest Phase1 ShardClient ClientCommit ClientCerts ClientFallback ClientFallbackSafety.

Module FallbackClient.
Import QuorumExample.
(** Two groups of six replicas, [f = 1].  A signature is the message it is
    of. *)
Definition t1 : Transaction := mkTxn 3 1 [] [] [] (mkTs 20000 3) [] [] [] None None NONE [] [] "" [] [] [0].
Definition t2 : Transaction := mkTxn 3 2 [] [] [] (mkTs 20000 3) [] [] [] None None NONE [] [] "" [] [] [0; 1].
Definition world (d : digest) : Transaction := if bool_decide (d = "d") then t1 else t2.
Definition Verify (_ : Z) (msg sig : string) : bool := bool_decide (msg = sig).
Definition ser_cc (m : CCMsg) : string :=
  (match cc_ccr m with COMMIT => "c" | ABSTAIN => "a" | _ => "x" end) +:+ cc_txn_digest m +:+ if cc_involved_group m =? 0 then "0" else "1".
Definition ser_p2 (m : P2Msg) : string :=
  (match p2_decision m with DCOMMIT => "c" | DABORT => "a" end) +:+ p2_txn_digest m.
Definition no_proof : CommittedProof := mkProof t1 None.
Definition digit (c : Ascii.ascii) : Z := Z.of_N (Ascii.N_of_ascii c) - 48.
(** Votes and decisions, by transaction. *)
Definition parse_cc (s : string) : option ConcurrencyControl :=
  if bool_decide (s = "ae1") then Some (mkCC (mkCCMsg ABSTAIN "e" 1) no_proof) else None.
Definition parse_p2 (s : string) : option P2Msg :=
  match s with
  | String c d => Some (mkP2Msg (if bool_decide (digit c = 51) then DCOMMIT else DABORT) 0 0 d)
  | EmptyString => None
  end.
(** A view: the replica and its view, as digits. *)
Definition parse_cview (s : string) : CurrentView :=
  match s with String a (String b _) => mkCurrentView (digit b) (digit a) | _ => mkCurrentView 0 0 end.
Definition parse_view (s : string) : ViewMsg := mkView (cv_current_view (parse_cview s)) "d".
Definition signed (pid : Z) (s : string) : SignedMessage := mkSigned pid s s.
Definition p1 (t : Transaction) : Phase1 := mkP1Msg 0 t (signed 3 "") false.
Definition logged (pid : Z) (s : string) : Phase2Reply := mkP2R 0 (SignedDecision (signed pid s)).
(** A replica of the log group reports a decision and its view. *)
Definition reports (d : digest) (pid : Z) (dec view : string) : FBEvent :=
  EvPhase1FBReply 0 (mkP1FBR d None None (Some (logged pid dec)) (if bool_decide (view = "") then NoView else SignedView (signed pid view))).
Notation step := (fb_step config ser_cc ser_p2 Verify (λ _ _, "") (λ _, "d") parse_cc parse_p2 parse_cview (λ _, t1) true true
  false false false 7 0 0 (λ _ _ _, Done false)).
Notation run := (fb_run config ser_cc ser_p2 Verify (λ _ _, "") (λ _, "d") parse_cc parse_p2 parse_cview (λ _, t1)
  false false false 7 0 0 (λ _ _ _, Done false)).
Definition sent (evs : list FBEvent) : list FBOut := match run evs (FBClient_new {[0; 1]}) with Done st => fc_sent st | Panic => [] end.

(** Two replicas logged COMMIT, two ABORT; four report view 0. *)
Definition diverged : list FBEvent :=
  [EvFinish 5 "d" (p1 t1); reports "d" 0 "cd" "00"; reports "d" 1 "cd" "10"; reports "d" 2 "ad" "20"; reports "d" 3 "ad" "30"].
(** The first two are already in view 3. *)
Definition behind : list FBEvent :=
  [EvFinish 5 "d" (p1 t1); reports "d" 0 "cd" "03"; reports "d" 1 "cd" "13"; reports "d" 2 "ad" "20"; reports "d" 3 "ad" "30"].
(** Five logged COMMIT. *)
Definition agreed : list FBEvent :=
  [EvFinish 5 "d" (p1 t1); reports "d" 0 "cd" ""; reports "d" 1 "cd" ""; reports "d" 2 "cd" ""; reports "d" 3 "cd" ""; reports "d" 4 "cd" ""].

Definition P (ev : FBEvent) : Prop :=
  proper_fb_event ser_cc ser_p2 Verify (λ _, "d") parse_cc parse_p2 parse_cview parse_view (λ _, t1) false world ev.
Lemma finish_proper : P (EvFinish 5 "d" (p1 t1)).
Proof. split; [done|]. cbn. repeat constructor; set_solver. Qed.
Lemma reports_proper pid dec view :
  (dec = "cd" ∨ dec = "ad") → (view ≠ "" → cv_replica_id (parse_cview view) = pid ∧ 0 ≤ cv_current_view (parse_cview view) < 2^64) →
  P (reports "d" pid dec view).
Proof.
  intros Hd Hv. split_and!; cbn.
  - done.
  - intros x [= <-] sm m [= <-] Hm _. cbn in Hm |- *. destruct Hd as [-> | ->]; injection Hm as <-; done.
  - intros sm. case_bool_decide as He; [done|]. intros [= <-] _. cbn. destruct (Hv He) as [-> ?]. done.
Qed.
Lemma diverged_proper : Forall P diverged.
Proof.
  apply Forall_cons_2; [exact finish_proper|].
  repeat (apply Forall_cons_2; [apply reports_proper; [by auto|intros _; vm_compute; split; [reflexivity|split; [discriminate|reflexivity]]]|]).
  apply Forall_nil_2.
Qed.
Lemma agreed_proper : Forall P agreed.
Proof.
  apply Forall_cons_2; [exact finish_proper|].
  repeat (apply Forall_cons_2; [apply reports_proper; [by left|by intros []]|]). apply Forall_nil_2.
Qed.
Lemma groups_small d g : g ∈ involved_groups (world d) → 0 ≤ g < 2^32.
Proof. unfold world. case_bool_decide; cbn; rewrite ?elem_of_cons, elem_of_nil; lia. Qed.

(** The invitation sent when decisions diverge, and the answer to it. *)
Definition views_of (o : option FBOut) : list SignedMessage :=
  match o with Some (OutInvokeFB _ msg) => default [] (iv_view_signed msg) | _ => [] end.
Definition invitation : InvokeFB :=
  match sent diverged !! 1%nat with Some (OutInvokeFB _ msg) => msg | _ => mkInvoke 0 "" None 0 false None end.

(** Two replicas are ahead: the client invites the others to catch up with
    two views, which no replica accepts, although four replicas would have
    justified the proposal; it does not propose that view again. *)
Example catchup_invitation_rejected :
  sm_process_id <$> views_of (sent behind !! 1%nat) = [0; 1] ∧
  VerifyFBViews config Verify parse_view 1 false 0 "d" (views_of (sent behind !! 1%nat)) (-1) 0 = false ∧
  sent (behind ++ [reports "d" 4 "ad" "40"; reports "d" 5 "ad" "50"]) = sent behind.
Proof. vm_compute. repeat split; reflexivity. Qed.

(** The writeback sent when five replicas logged COMMIT. *)
Definition certificate : list Signature := (λ pid, mkSig pid "cd") <$> [0; 1; 2; 3; 4].
Definition the_wb : Writeback := mkWb DCOMMIT (Some "d") None (WbP2 [(0, certificate)]) (Some 0).

(** ** What is not checked *)

(** A replica answers with the decision it logged for another transaction:
    the client counts it, and the writeback it sends does not validate. *)
Definition misled : list FBEvent :=
  [EvFinish 5 "d" (p1 t1); reports "d" 0 "cd" ""; reports "d" 1 "cd" ""; reports "d" 2 "cd" ""; reports "d" 3 "cd" ""; reports "d" 4 "cz" ""].
Definition p2_of_wb (o : option FBOut) : GroupedSignatures :=
  match o with Some (OutWriteback _ wb) => match wb_reply wb with WbP2 s => s | _ => [] end | _ => [] end.
Example foreign_decision_spoils_writeback :
  p2_of_wb (sent misled !! 1%nat) = [(0, [mkSig 0 "cd"; mkSig 1 "cd"; mkSig 2 "cd"; mkSig 3 "cd"; mkSig 4 "cz"])] ∧
  ValidateP2Replies config ser_p2 Verify DCOMMIT 0 [0] "d" (p2_of_wb (sent misled !! 1%nat)) (-1) DCOMMIT = Done false.
Proof. vm_compute. split; reflexivity. Qed.

(** Two replicas of the log group logged COMMIT, then the votes of the other
    group decide for an abort: the client asks to log ABORT, with the two
    COMMIT decisions as its proof, which the replicas reject. *)
Definition abstains (pid : Z) : FBEvent :=
  EvPhase1FBReply 1 (mkP1FBR "e" None (Some (mkP1R 0 (SignedVote (signed pid "ae1")) None None None)) None NoView).
Definition mixed : list FBEvent :=
  [EvFinish 5 "e" (p1 t2); reports "e" 0 "ce" ""; reports "e" 1 "ce" ""; abstains 6; abstains 7].
Definition phase2_of (o : option FBOut) : CommitDecision * list P2ReplyMsg :=
  match o with Some (OutPhase2FB _ msg) => (f2_decision msg, default [] (f2_p2_replies msg)) | _ => (DCOMMIT, []) end.
Example proof_of_other_decision :
  phase2_of (sent mixed !! 2%nat) = (DABORT, [P2Signed (signed 0 "ce"); P2Signed (signed 1 "ce")]) ∧
  asyncValidateFBP2Replies config (λ s, default (mkP2Msg DCOMMIT 0 0 "") (parse_p2 s)) Verify DABORT [0; 1] "e"
    (phase2_of (sent mixed !! 2%nat)).2 (-1) DABORT = Done (Immediate false).
Proof. vm_compute. split; reflexivity. Qed.
End FallbackClient.
