(* ===== verification/QuerySync.v ===== *)
(** * Queries at a replica

    The state of a query at a replica and its synchronization
    (src/src/store/sintrstore/querysync-server.cc, querysync-servertools.cc,
    server.h): a replica answers a query with a snapshot or executes it at
    once; it executes it on the snapshot a client merged as soon as every
    transaction of the snapshot is materialized, and asks other replicas for
    those it does not have.

    The tables are the SQL engine's, [TableStore].  What
    [CheckWaitingQueries] starts is a list of tasks that run later in any
    order, as with [parallel_queries]; a task is the part of
    [UpdateWaitingQueries] or [UpdateWaitingQueriesTS] that runs under one
    lock.  A look-up in [queryMetaData] and the insertion that follows are one
    step.  Test switches and [simulate_inconsistency] are off; point queries and
    the transactions subscribed to queries are calls. *)
From S2P Require Import Prelude OrderedSeq CppString Timestamp VersionStore Policy PolicyParse ServerState ServerTxn MVTSO Endorse Quorum AsyncVerify Phase2 Reads Snapshot Digest Phase1 QueryClient.

(** ** Messages *)

(** [merged_txns_utf] is beside the map. *)
Record ProposedSnapshot := mkPS { ps_merged : MergedSnapshot; ps_utf : list (digest * ReplicaList) }.
(** With signed queries, query and version are in the signed bytes. *)
Record QueryRequest := mkQReq {
  qrq_req_id : Z;
  qrq_query : QueryMsg;
  qrq_retry_version : Z;
  qrq_signed_query : SignedMessage;
  qrq_optimistic_txid : option bool;
  qrq_designated_for_reply : bool;
  qrq_eager_exec : bool;
  qrq_is_point : bool;
  qrq_include_policy : bool
}.
Record SyncClientProposal := mkSyncProp {
  scp_req_id : Z;
  scp_merged_ss : ProposedSnapshot;
  scp_signed_merged_ss : SignedMessage;
  scp_designated_for_reply : bool
}.
Record RequestMissingTxns := mkRMT { rmt_replica_idx : Z; rmt_txn : list digest; rmt_txn_ts : list Z }.
Inductive SupplyContent :=
| SupplyNothing
| SupplyP1 (p1 : Phase1)
| SupplyCommit (pr : CommittedProof)
| SupplyAbort (abort : bool)
| SupplyInvalid (invalid : bool).
Record TxnInfo := mkTI { ti_txn_id : option digest; ti_content : SupplyContent; ti_abort_proof : option Writeback }.
Record SupplyMissingTxnsMessage := mkSMT { smt_replica_idx : Z; smt_txns : list TxnInfo; smt_txns_ts : list (Z * TxnInfo) }.
Record SupplyMissingTxns := mkSupply { sup_plain : SupplyMissingTxnsMessage; sup_signed : SignedMessage }.

(** ** State *)

(** [missing_txns], [local_ss] and [merged_ss] of the class are not used. *)
Record QueryMetaData := mkQMD {
  md_original_client : option Z;
  md_req_id : Z;
  md_query_seq_num : Z;
  md_client_id : Z;
  md_ts : Timestamp;
  md_has_query : bool;
  md_get_policy : bool;
  md_query_cmd : string;
  md_retry_version : Z;
  md_designated : bool;
  md_executed_query : bool;
  md_merged_ss_msg : option ProposedSnapshot;
  md_started_sync : bool;
  md_waiting_sync : bool;
  md_useOptimisticTxId : bool;
  md_is_waiting : bool;
  md_has_result : bool;
  md_result : QueryResult;
  md_policies : list QueryPolicy
}.
Definition no_result : QueryResult := mkQR 0 "" "" (mkQRS [] [] []) None.

(** The two constructors: by a query, and by a synchronization that came
    before it. *)
Definition QMD_query (cmd : string) ts (remote req_id seq client retry : Z) : QueryMetaData :=
  mkQMD (Some remote) req_id seq client ts (negb (bool_decide (cmd = ""))) false cmd retry false false None
    false false false false false no_result [].
Definition QMD_sync (seq client : Z) : QueryMetaData :=
  mkQMD None 0 seq client ts_zero false false "" 0 false false None false false false false false no_result [].

Implicit Types (md : QueryMetaData).
Definition ClearMetaData md : QueryMetaData :=
  mkQMD (md_original_client md) (md_req_id md) (md_query_seq_num md) (md_client_id md) (md_ts md) (md_has_query md)
    (md_get_policy md) (md_query_cmd md) (md_retry_version md) (md_designated md) false None false false
    (md_useOptimisticTxId md) false false no_result [].
Definition SetQuery (cmd : string) ts (remote req_id : Z) md : QueryMetaData :=
  mkQMD (Some (default remote (md_original_client md))) (Z.max (md_req_id md) req_id) (md_query_seq_num md)
    (md_client_id md) ts true (md_get_policy md) cmd (md_retry_version md) (md_designated md) (md_executed_query md)
    (md_merged_ss_msg md) (md_started_sync md) (md_waiting_sync md) (md_useOptimisticTxId md) (md_is_waiting md)
    (md_has_result md) (md_result md) (md_policies md).
Definition RegisterWaitingSync (ss : ProposedSnapshot) (remote : Z) md : QueryMetaData :=
  mkQMD (Some (default remote (md_original_client md))) (md_req_id md) (md_query_seq_num md) (md_client_id md)
    (md_ts md) (md_has_query md) (md_get_policy md) (md_query_cmd md) (md_retry_version md) (md_designated md)
    (md_executed_query md) (Some ss) (md_started_sync md) true (md_useOptimisticTxId md) (md_is_waiting md)
    (md_has_result md) (md_result md) (md_policies md).

(** Assignments to the members. *)
Definition md_set_version (version req_id : Z) md : QueryMetaData :=
  mkQMD (md_original_client md) req_id (md_query_seq_num md) (md_client_id md) (md_ts md) (md_has_query md)
    (md_get_policy md) (md_query_cmd md) version (md_designated md) (md_executed_query md) (md_merged_ss_msg md)
    (md_started_sync md) (md_waiting_sync md) (md_useOptimisticTxId md) (md_is_waiting md) (md_has_result md)
    (md_result md) (md_policies md).
Definition md_set_sync (designated : bool) md : QueryMetaData :=
  mkQMD (md_original_client md) (md_req_id md) (md_query_seq_num md) (md_client_id md) (md_ts md) (md_has_query md)
    (md_get_policy md) (md_query_cmd md) (md_retry_version md) designated (md_executed_query md)
    (md_merged_ss_msg md) true (md_waiting_sync md) (md_useOptimisticTxId md) (md_is_waiting md) (md_has_result md)
    (md_result md) (md_policies md).
Definition md_set_exec (optimistic : option bool) (designated : bool) md : QueryMetaData :=
  mkQMD (md_original_client md) (md_req_id md) (md_query_seq_num md) (md_client_id md) (md_ts md) (md_has_query md)
    (md_get_policy md) (md_query_cmd md) (md_retry_version md) designated (md_executed_query md)
    (md_merged_ss_msg md) (md_started_sync md) (md_waiting_sync md) (default (md_useOptimisticTxId md) optimistic)
    (md_is_waiting md) (md_has_result md) (md_result md) (md_policies md).
Definition md_set_policy (get_policy : bool) md : QueryMetaData :=
  mkQMD (md_original_client md) (md_req_id md) (md_query_seq_num md) (md_client_id md) (md_ts md) (md_has_query md)
    get_policy (md_query_cmd md) (md_retry_version md) (md_designated md) (md_executed_query md)
    (md_merged_ss_msg md) (md_started_sync md) (md_waiting_sync md) (md_useOptimisticTxId md) (md_is_waiting md)
    (md_has_result md) (md_result md) (md_policies md).
Definition md_set_executed md : QueryMetaData :=
  mkQMD (md_original_client md) (md_req_id md) (md_query_seq_num md) (md_client_id md) (md_ts md) (md_has_query md)
    (md_get_policy md) (md_query_cmd md) (md_retry_version md) (md_designated md) true (md_merged_ss_msg md)
    (md_started_sync md) (md_waiting_sync md) (md_useOptimisticTxId md) (md_is_waiting md) (md_has_result md)
    (md_result md) (md_policies md).
Definition md_set_merged (ss : ProposedSnapshot) md : QueryMetaData :=
  mkQMD (md_original_client md) (md_req_id md) (md_query_seq_num md) (md_client_id md) (md_ts md) (md_has_query md)
    (md_get_policy md) (md_query_cmd md) (md_retry_version md) (md_designated md) (md_executed_query md) (Some ss)
    (md_started_sync md) (md_waiting_sync md) (md_useOptimisticTxId md) (md_is_waiting md) (md_has_result md)
    (md_result md) (md_policies md).
Definition md_set_waiting (w : bool) md : QueryMetaData :=
  mkQMD (md_original_client md) (md_req_id md) (md_query_seq_num md) (md_client_id md) (md_ts md) (md_has_query md)
    (md_get_policy md) (md_query_cmd md) (md_retry_version md) (md_designated md) (md_executed_query md)
    (md_merged_ss_msg md) (md_started_sync md) (md_waiting_sync md) (md_useOptimisticTxId md) w (md_has_result md)
    (md_result md) (md_policies md).
Definition md_set_result (r : QueryResult) (ps : list QueryPolicy) md : QueryMetaData :=
  mkQMD (md_original_client md) (md_req_id md) (md_query_seq_num md) (md_client_id md) (md_ts md) (md_has_query md)
    (md_get_policy md) (md_query_cmd md) (md_retry_version md) (md_designated md) (md_executed_query md)
    (md_merged_ss_msg md) (md_started_sync md) (md_waiting_sync md) (md_useOptimisticTxId md) (md_is_waiting md)
    true r ps.

Record MissingTxns := mkMissing { mt_txns : gset digest; mt_ts : gset Z; mt_query_id : digest; mt_retry_version : Z }.

(** Work for another thread: the two updates, and what they do with one
    query; the validation of a supplied proof. *)
Inductive qtask :=
| UpdateQueries (d : digest) (is_abort : bool)
| UpdateQueriesTS (ts : Z) (d : digest) (is_abort : bool)
| RemoveTxn (queryId : digest) (version : Z) (d : digest)
| WakeQuery (queryId : digest) (version : Z) (d : digest) (is_abort : bool)
| ResolveTS (queryId : digest) (retry_id : string) (version : Z) (d : digest) (is_abort : bool)
| CheckProof (d : digest) (pr : CommittedProof).

(** Messages sent and calls of other parts.  [ExecOnSnapshot] is the call of
    the SQL engine with the materialized snapshot; [UncheckedTxns] and
    [AcceptedGenesis] record what the code took on trust, [MaterializedTx] that
    a transaction was applied or aborted, and its timestamp. *)
Inductive qevent :=
| SendSyncReply (remote : Z) (rep : SyncReply) (optimistic : bool)
| SendQueryResult (remote : Z) (gen_id : string) (rep : QueryResultReply)
| SendRequestMissing (replica_idx : Z) (m : RequestMissingTxns)
| SendSupply (replica_idx : Z) (m : SupplyMissingTxnsMessage)
| PointQueryCall (reqId : Z) (q : QueryMsg) (remote : Z) (include_policy : bool)
| ExecOnSnapshot (queryId : digest) (version : Z) (cmd : string) (ts : Timestamp) (txns : gset digest)
| WakeSubscribedTx (queryId : digest) (version : Z)
| HandleWritebackCall (wb : Writeback)
| CommitWithProofCall (d : digest) (pr : CommittedProof)
| ProcessProposalCall (p1 : Phase1) (t : Transaction) (d : digest)
| UncheckedTxns (queryId : digest) (version : Z) (txns : gset digest)
| AcceptedGenesis (d : digest)
| MaterializedTx (d : digest) (ts : Timestamp) (is_abort : bool).

(** What the SQL engine answers: a snapshot of the tables a query reads; its
    result on the current state, with or without a snapshot; its result on
    given transactions. *)
Record TableStore := mkTableStore {
  tb_FindSnapshot : string → Timestamp → LocalSnapshot → LocalSnapshot;
  tb_ExecReadQuery : string → Timestamp → string * QueryReadSet;
  tb_EagerExecAndSnapshot : string → Timestamp → LocalSnapshot → string * QueryReadSet * LocalSnapshot;
  tb_ExecOnMaterializedSnapshot : string → Timestamp → gset digest → string * QueryReadSet
}.

Section sync.
Context `{E : Env}.
Variable config : Configuration.
Variable ser_cc : CCMsg → string.
Variable ser_p2 : P2Msg → string.
Variable Verify : Z → string → string → bool.
Variable blake3 : string → string.
(** [TransactionDigest] with the flags of the replica. *)
Variable txn_digest : Transaction → digest.
Variable parse_txn : string → Transaction.
Variable parse_query : string → QueryMsg * Z.
Variable parse_merged_ss : string → ProposedSnapshot.
Variable parse_supply : string → SupplyMissingTxnsMessage.
(** [crypto::verifyHMAC] with the session key of a replica. *)
Variable verifyHMAC : Z → string → string → bool.
Variable sign_local_ss : LocalSnapshot → SignedMessage.
Variable sign_result : string → QueryResult → SignedMessage.
(** The unset [policy_proof] of a reply. *)
Variable no_proof : CommittedProof.
Variables optimisticTxID signClientQueries hashDigest compressOptimisticTxIDs : bool.
Variables eagerPlusSnapshot signReplicaToReplicaSync hashQueryGenId mvtso : bool.

(** [rq_signed_txn] is the signed proposal kept in [p1MetaData]. *)
Record rserver := mkRS {
  rq_replica : replica;
  rq_signed_txn : gmap digest SignedMessage;
  queryMetaData : gmap digest QueryMetaData;
  queryMissingTxns : gmap string MissingTxns;
  waitingQueries : gmap digest (gset string);
  waitingQueriesTS : gmap Z (gset string);
  clientQueryWatermark : gmap Z Z;
  alreadyDeleted : gset digest;
  rq_tasks : list qtask;
  rq_out : list qevent
}.
Implicit Types (s : rserver) (d : digest) (k : digest) (ts : Timestamp).
Definition rq_core s : server := rp_server (rq_replica s).
Definition rq_ts_to_tx s : gmap Z digest := ts_to_tx (rq_replica s).

Definition upd_replica (f : replica → replica) s : rserver :=
  mkRS (f (rq_replica s)) (rq_signed_txn s) (queryMetaData s) (queryMissingTxns s) (waitingQueries s)
    (waitingQueriesTS s) (clientQueryWatermark s) (alreadyDeleted s) (rq_tasks s) (rq_out s).
Definition upd_core (f : server → server) : rserver → rserver := upd_replica (upd_server f).
Definition upd_mds (f : gmap digest QueryMetaData → gmap digest QueryMetaData) s : rserver :=
  mkRS (rq_replica s) (rq_signed_txn s) (f (queryMetaData s)) (queryMissingTxns s) (waitingQueries s)
    (waitingQueriesTS s) (clientQueryWatermark s) (alreadyDeleted s) (rq_tasks s) (rq_out s).
Definition upd_missing (f : gmap string MissingTxns → gmap string MissingTxns) s : rserver :=
  mkRS (rq_replica s) (rq_signed_txn s) (queryMetaData s) (f (queryMissingTxns s)) (waitingQueries s)
    (waitingQueriesTS s) (clientQueryWatermark s) (alreadyDeleted s) (rq_tasks s) (rq_out s).
Definition upd_waiting (f : gmap digest (gset string) → gmap digest (gset string)) s : rserver :=
  mkRS (rq_replica s) (rq_signed_txn s) (queryMetaData s) (queryMissingTxns s) (f (waitingQueries s))
    (waitingQueriesTS s) (clientQueryWatermark s) (alreadyDeleted s) (rq_tasks s) (rq_out s).
Definition upd_waiting_ts (f : gmap Z (gset string) → gmap Z (gset string)) s : rserver :=
  mkRS (rq_replica s) (rq_signed_txn s) (queryMetaData s) (queryMissingTxns s) (waitingQueries s)
    (f (waitingQueriesTS s)) (clientQueryWatermark s) (alreadyDeleted s) (rq_tasks s) (rq_out s).
Definition upd_watermark (f : gmap Z Z → gmap Z Z) s : rserver :=
  mkRS (rq_replica s) (rq_signed_txn s) (queryMetaData s) (queryMissingTxns s) (waitingQueries s)
    (waitingQueriesTS s) (f (clientQueryWatermark s)) (alreadyDeleted s) (rq_tasks s) (rq_out s).
Definition upd_deleted (f : gset digest → gset digest) s : rserver :=
  mkRS (rq_replica s) (rq_signed_txn s) (queryMetaData s) (queryMissingTxns s) (waitingQueries s)
    (waitingQueriesTS s) (clientQueryWatermark s) (f (alreadyDeleted s)) (rq_tasks s) (rq_out s).
Definition upd_tasks (f : list qtask → list qtask) s : rserver :=
  mkRS (rq_replica s) (rq_signed_txn s) (queryMetaData s) (queryMissingTxns s) (waitingQueries s)
    (waitingQueriesTS s) (clientQueryWatermark s) (alreadyDeleted s) (f (rq_tasks s)) (rq_out s).
Definition add_tasks (l : list qtask) : rserver → rserver := upd_tasks (λ t, t ++ l).
Definition add_out (l : list qevent) s : rserver :=
  mkRS (rq_replica s) (rq_signed_txn s) (queryMetaData s) (queryMissingTxns s) (waitingQueries s)
    (waitingQueriesTS s) (clientQueryWatermark s) (alreadyDeleted s) (rq_tasks s) (rq_out s ++ l).

(** The object behind [query_md]; a null pointer is a [Panic]. *)
Definition get_md s k : outcome QueryMetaData :=
  match queryMetaData s !! k with Some md => Done md | None => Panic end.
Definition upd_md k (f : QueryMetaData → QueryMetaData) : rserver → rserver := upd_mds (alter f k).
Definition md_merged_msg md : outcome ProposedSnapshot :=
  match md_merged_ss_msg md with Some m => Done m | None => Panic end.

(** [mutable_merged_txns()] of the merged snapshot a query keeps. *)
Definition ps_upd (f : gmap digest ReplicaList → gmap digest ReplicaList) (ps : ProposedSnapshot) : ProposedSnapshot :=
  let m := ps_merged ps in
  mkPS (mkMergedSS (ms_query_seq_num m) (ms_client_id m) (ms_retry_version m) (ms_query_digest m) (f (ms_txns m)) (ms_ts m))
    (ps_utf ps).
Definition upd_merged_txns k (f : gmap digest ReplicaList → gmap digest ReplicaList) s : outcome rserver :=
  md ← get_md s k;
  ps ← md_merged_msg md;
  Done (upd_md k (md_set_merged (ps_upd f ps)) s).
(** [(mutable_merged_txns())[d]] adds an empty list where there is none. *)
Definition touch d (m : gmap digest ReplicaList) : gmap digest ReplicaList :=
  <[d := default ReplicaList_empty (m !! d)]> m.

(** ** Materialization *)

Definition CheckWaitingQueries d ts (is_abort : bool) (tx_ts_mode : Z) s : outcome rserver :=
  if optimisticTxID && (tx_ts_mode <? 2) then
    txnTS ← MergeTimestampId (timestamp ts) (ts_id ts);
    Done (add_tasks ((if tx_ts_mode =? 1 then [] else [UpdateQueries d is_abort]) ++ [UpdateQueriesTS txnTS d is_abort]) s)
  else Done (add_tasks [UpdateQueries d is_abort] s).

(** [ApplyTableWrites] around the call of the table store. *)
Definition ApplyWrites (t : Transaction) ts d s : outcome (rserver * list string) :=
  m ← RegisterTxTS optimisticTxID d ts (rq_ts_to_tx s);
  let s := upd_replica (λ r, mkReplica (upd_materialized (λ x, {[d]} ∪ x) (rp_server r)) m) s in
  s ← CheckWaitingQueries d ts false 0 (add_out [MaterializedTx d ts false] s);
  Done (s, ApplyTableWrites t ts d).

(** The end of [Abort]: the argument that says whether the transaction was
    materialized before is in the place of another. *)
Definition AbortWaiting d ts s : outcome rserver :=
  CheckWaitingQueries d ts true 0 (add_out [MaterializedTx d ts true] (upd_core (upd_materialized (λ x, {[d]} ∪ x)) s)).

Definition ForceMaterialization (result : Result) d (t : Transaction) s : outcome rserver :=
  if bool_decide (result = COMMIT) || bool_decide (result = WAIT) then Done s
  else if bool_decide (result = ABORT) || bool_decide (result = IGNORE) then Done s
  else '(s, _) ← ApplyWrites t (t_timestamp t) d s; Done s.

Definition pm_force (already : bool) (m : P1MetaData) : P1MetaData :=
  mkP1Meta (pm_reqId m) (pm_result m) (pm_conflict m) (pm_hasP1 m) (pm_hasSignedP1 m) (pm_sub_original m)
    (pm_original m) (pm_fallbacks_interested m) (pm_forceMaterialize m || negb already)
    (pm_alreadyForceMaterialized m || already).
Definition RegisterForceMaterialization d (t : Transaction) s : outcome rserver :=
  let m := default P1MetaData_init (p1MetaData (rq_core s) !! d) in
  let now := pm_hasP1 m && negb (pm_alreadyForceMaterialized m) in
  let s := upd_core (upd_p1MetaData (insert d (pm_force now m))) s in
  if now then ForceMaterialization (pm_result m) d t s else Done s.

(** ** Registration of waiting queries *)

Definition add_waiting `{Countable K} (x : K) (retry_id : string) (m : gmap K (gset string)) : gmap K (gset string) :=
  <[x := {[retry_id]} ∪ default ∅ (m !! x)]> m.
Definition add_missing_txn d (m : MissingTxns) : MissingTxns :=
  mkMissing ({[d]} ∪ mt_txns m) (mt_ts m) (mt_query_id m) (mt_retry_version m).
Definition add_missing_ts (x : Z) (m : MissingTxns) : MissingTxns :=
  mkMissing (mt_txns m) ({[x]} ∪ mt_ts m) (mt_query_id m) (mt_retry_version m).

(** The look-up inserts and takes back; true if there is nothing to wait for. *)
Definition WaitForMaterialization d (retry_id : string) s : rserver * bool :=
  if bool_decide (d ∈ materialized (rq_core s)) then (s, true)
  else (upd_missing (alter (add_missing_txn d) retry_id) (upd_waiting (add_waiting d retry_id) s), false).
Definition WaitForTX (x : Z) (retry_id : string) s : rserver :=
  upd_missing (alter (add_missing_ts x) retry_id) (upd_waiting_ts (add_waiting x retry_id) s).

(** ** Requests for missing transactions *)

Notation requests := (gmap Z RequestMissingTxns).
Definition no_request : RequestMissingTxns := mkRMT 0 [] [].
Definition add_request (i : Z) (f : RequestMissingTxns → RequestMissingTxns) (m : requests) : requests :=
  <[i := f (default no_request (m !! i))]> m.
Fixpoint RequestMissing (count : Z) (replicas : list Z) d (m : requests) : outcome requests :=
  match replicas with
  | [] => Done m
  | r :: l =>
      if count >? cf_f config + 1 then Done m
      else let i := r `mod` config_n in
           if i =? idx then Panic
           else RequestMissing (count + 1) l d
                  (add_request i (λ q, mkRMT idx (rmt_txn q ++ [d]) (rmt_txn_ts q)) m)
  end.
Fixpoint RequestMissingTS (count : Z) (replicas : list Z) (x : Z) (m : requests) : outcome requests :=
  match replicas with
  | [] => Done m
  | r :: l =>
      if count >? cf_f config + 1 then Panic
      else let i := r `mod` config_n in
           if i =? idx then Panic
           else RequestMissingTS (count + 1) l x
                  (add_request i (λ q, mkRMT idx (rmt_txn q) (rmt_txn_ts q ++ [x])) m)
  end.

(** ** The snapshot of a query

    Whether a transaction of the snapshot is materialized; else the query
    waits for it.  One that is aborted leaves the snapshot. *)
Definition CheckPresence k d (retry_id : string) (rl : ReplicaList) s (m : requests) :
    outcome (rserver * requests * bool) :=
  let c := rq_core s in
  let is_committed := bool_decide (is_Some (committed c !! d)) in
  let is_aborted := negb is_committed && bool_decide (d ∈ aborted c) in
  s ← (if is_aborted then upd_merged_txns k (delete d) s else Done s);
  let is_final := is_committed || is_aborted in
  m ← (if bool_decide (is_Some (ongoing c !! d)) || is_final then Done m else RequestMissing 0 (rl_replicas rl) d m);
  let '(s, ready) := WaitForMaterialization d retry_id s in
  s ← (match ongoing c !! d with
       | Some p => if negb ready && negb is_final
                   then t ← deref (rq_core s) p; RegisterForceMaterialization d t s
                   else Done s
       | None => Done s
       end);
  Done (s, m, ready).

(** A timestamp stands for the transaction known under it. *)
Definition CheckPresenceTS k (x : Z) (retry_id : string) (rl : ReplicaList) s (m : requests) :
    outcome (rserver * requests * bool) :=
  match rq_ts_to_tx s !! x with
  | Some d =>
      s ← (if bool_decide (d ∈ aborted (rq_core s)) then Done s else upd_merged_txns k (touch d) s);
      CheckPresence k d retry_id rl s m
  | None =>
      m ← RequestMissingTS 0 (rl_replicas rl) x m;
      Done (WaitForTX x retry_id s, m, false)
  end.

(** ** Execution *)

Definition fill_readtime (r : ReadMessage) : ReadMessage :=
  if decide (r_hashed_readtime r = "")
  then mkRead (r_key r) (r_readtime r) (r_is_table_col_version r) (ServerState.TimestampDigest (r_readtime r)) else r.
Definition fill_version (p : Predicate) : Predicate :=
  mkPred (pr_table_name p) (pr_table_version p) (pr_instantiations p) (pr_pred_instances p)
    (Some (ServerState.TimestampDigest (pr_table_version p))).
Definition hide_times (rs : QueryReadSet) : QueryReadSet :=
  if hideTimestamps then mkQRS (fill_readtime <$> qr_read_set rs) (qr_deps rs) (fill_version <$> qr_read_predicates rs)
  else rs.

(** [SetRTS] of every key read, in both modes of execution. *)
Definition set_rts_all ts (rs : QueryReadSet) s : rserver :=
  if mvtso && (rtsMode >? 0)
  then upd_core (λ c, foldl (λ c r, SetRTS c ts (r_key r)) c (qr_read_set rs)) s else s.

(** One policy for every policy id of the keys read, in their order. *)
Fixpoint query_policies_of c ts (reads : list ReadMessage) (seen : list string) : outcome (list QueryPolicy) :=
  match reads with
  | [] => Done []
  | r :: l =>
      let policyId := policyIdFunction (r_key r) "" in
      if bool_decide (policyId ∈ seen) then query_policies_of c ts l seen
      else
        '((pts, pv), _) ← GetPolicy c policyId ts false;
        pr ← (if validateProofs then read_proof c (psv_proof pv) else Done no_proof);
        rest ← query_policies_of c ts l (policyId :: seen);
        Done (mkQP (mkEPM policyId (SerializeToProtoMessage (psv_policy pv))) pts pr :: rest)
  end.
Definition GetQueryPolicies k s : outcome rserver :=
  md ← get_md s k;
  ps ← query_policies_of (rq_core s) (md_ts md) (qr_read_set (q_query_read_set (md_result md))) [];
  Done (upd_md k (md_set_result (md_result md) (md_policies md ++ ps)) s).

(** [CacheReadSet] sorts the reads and sets their hash; what it takes out of
    the reply is put back after the reply is sent. *)
Definition CacheReadSet (r : QueryResult) : QueryResult :=
  let rs := q_query_read_set r in
  let rs := mkQRS (foldr insert_read [] (qr_read_set rs)) (qr_deps rs) (qr_read_predicates rs) in
  mkQR (q_replica_id r) (q_query_result r) (generateReadSetSingleHash blake3 rs hideTimestamps) rs (q_local_ss r).
Definition SendQueryReply k s : outcome rserver :=
  md ← get_md s k;
  let r := md_result md in
  let r := mkQR (q_replica_id r) (q_query_result r) (q_query_result_hash r) (hide_times (q_query_read_set r)) (q_local_ss r) in
  let r := if cacheReadSet then CacheReadSet r else r in
  let s := upd_md k (md_set_result r (md_policies md)) s in
  if negb (md_designated md) then Done s
  else
    let r := mkQR replica_id (q_query_result r) (q_query_result_hash r) (q_query_read_set r) (q_local_ss r) in
    let gen := QueryGenId blake3 (md_query_cmd md) (md_ts md) (if hideTimestamps then ServerState.TimestampDigest (md_ts md) else "") hashQueryGenId in
    let sent := if cacheReadSet
                then mkQR (q_replica_id r) (q_query_result r) (q_query_result_hash r) (mkQRS [] [] []) (q_local_ss r) else r in
    let signed := if validateProofs && signedMessages then Some (sign_result gen sent) else None in
    match md_original_client md with
    | None => Panic
    | Some remote =>
        Done (add_out [SendQueryResult remote gen (mkQRR (md_req_id md) sent signed (md_policies md))]
               (upd_md k (md_set_result r (md_policies md)) s))
    end.

(** Execution on the merged snapshot. *)
Definition HandleSyncCallback (tb : TableStore) k (include_policy : bool) s : outcome rserver :=
  md ← get_md s k;
  ps ← md_merged_msg md;
  let txns := dom (ms_txns (ps_merged ps)) in
  let '(res, rs) := tb_ExecOnMaterializedSnapshot tb (md_query_cmd md) (md_ts md) txns in
  let s := set_rts_all (md_ts md) rs (add_out [ExecOnSnapshot k (md_retry_version md) (md_query_cmd md) (md_ts md) txns] s) in
  let old := md_result md in
  let s := upd_md k (λ md, md_set_result (mkQR (q_replica_id old) res (q_query_result_hash old) rs None) (md_policies md)
                             (md_set_waiting false md)) s in
  s ← (if include_policy then GetQueryPolicies k s else Done s);
  s ← SendQueryReply k s;
  Done (if cacheReadSet then add_out [WakeSubscribedTx k (md_retry_version md)] s else s).

(** Execution on the state of the replica. *)
Definition ExecQueryEagerly (tb : TableStore) k (include_policy : bool) s : outcome rserver :=
  md ← get_md s k;
  '(res, rs, ls) ←
    (if eagerPlusSnapshot then
       let '(res, rs, ls) := tb_EagerExecAndSnapshot tb (md_query_cmd md) (md_ts md)
                               (InitLocalSnapshot (md_query_seq_num md) (md_client_id md) replica_id) in
       ls ← SealLocalSnapshot (md_useOptimisticTxId md) compressOptimisticTxIDs ls;
       Done (res, rs, Some ls)
     else let '(res, rs) := tb_ExecReadQuery tb (md_query_cmd md) (md_ts md) in
          Done (res, rs, q_local_ss (md_result md)));
  let s := set_rts_all (md_ts md) rs s in
  let old := md_result md in
  let s := upd_md k (λ md, md_set_executed
             (md_set_result (mkQR (q_replica_id old) res (q_query_result_hash old) rs ls) (md_policies md) md)) s in
  s ← (if include_policy then GetQueryPolicies k s else Done s);
  s ← SendQueryReply k s;
  Done (if cacheReadSet then add_out [WakeSubscribedTx k (md_retry_version md)] s else s).

(** ** Synchronization *)

Definition query_id_hashed : bool := signClientQueries && cacheReadSet && hashDigest.
Definition retry_id k (version : Z) : string := QueryRetryId blake3 k version query_id_hashed.

(** The loops over the snapshot.  A transaction that is aborted is erased from
    the map the first loop iterates over, which is undefined. *)
Definition check_txn k rid (acc : rserver * requests * bool) (e : digest * ReplicaList) :
    outcome (rserver * requests * bool) :=
  let '(s, m, full) := acc in
  '(s, m, ready) ← CheckPresence k e.1 rid e.2 s m;
  Done (s, m, full && ready).
Definition check_map_txn k rid (acc : rserver * requests * bool) (e : digest * ReplicaList) :
    outcome (rserver * requests * bool) :=
  let c := rq_core acc.1.1 in
  if negb (bool_decide (is_Some (committed c !! e.1))) && bool_decide (e.1 ∈ aborted c) then Panic
  else check_txn k rid acc e.
Definition check_utf_txn k rid (acc : rserver * requests * bool) (e : digest * ReplicaList) :
    outcome (rserver * requests * bool) :=
  let '(s, m, full) := acc in
  s ← upd_merged_txns k (touch e.1) s;
  check_txn k rid (s, m, full) e.
Definition check_ts k rid (acc : rserver * requests * bool) (e : Z * ReplicaList) :
    outcome (rserver * requests * bool) :=
  let '(s, m, full) := acc in
  '(s, m, ready) ← CheckPresenceTS k e.1 rid e.2 s m;
  Done (s, m, full && ready).
Definition CheckSnapshot k rid (optimistic : bool) (ss : ProposedSnapshot) s : outcome (rserver * requests * bool) :=
  let m := ps_merged ss in
  if optimistic
  then foldO (check_ts k rid) (s, ∅, true) (map_to_list (ms_ts m))
  else
    acc ← foldO (check_map_txn k rid) (s, ∅, true) (map_to_list (ms_txns m));
    '(s, m, full) ← foldO (check_utf_txn k rid) acc (ps_utf ss);
    Done (upd_md k (λ md, match md_merged_ss_msg md with
                          | Some ps => md_set_merged (mkPS (ps_merged ps) []) md
                          | None => md
                          end) s, m, full).

Definition nothing_missing (m : MissingTxns) : bool := bool_decide (mt_txns m = ∅) && bool_decide (mt_ts m = ∅).
(** The entry of the retry version stays only if something is missing.  The
    code names its query last; nobody sees the entry before. *)
Definition seal_missing rid s : rserver :=
  upd_missing (λ qm, if from_option nothing_missing true (qm !! rid) then delete rid qm else qm) s.
Definition ProcessSync (tb : TableStore) k (ss : ProposedSnapshot) s : outcome rserver :=
  md ← get_md s k;
  let version := md_retry_version md in
  let rid := retry_id k version in
  _ ← uw_assert (bool_decide (queryMissingTxns s !! rid = None));
  let s := upd_missing (insert rid (mkMissing ∅ ∅ k version)) (upd_md k (λ md, md_set_waiting true (md_set_merged ss md)) s) in
  let s := if md_useOptimisticTxId md then add_out [UncheckedTxns k version (dom (ms_txns (ps_merged ss)))] s else s in
  '((s, m, full) : rserver * requests * bool) ← CheckSnapshot k rid (md_useOptimisticTxId md) ss s;
  let s := seal_missing rid s in
  _ ← uw_assert (bool_decide (m !! idx = None));
  let s := add_out ((λ e, SendRequestMissing e.1 e.2) <$> map_to_list m) s in
  if full then HandleSyncCallback tb k (md_get_policy md) (upd_md k (md_set_waiting false) s) else Done s.

(** A higher retry version starts over. *)
Definition next_version k (version req_id : Z) s : outcome rserver :=
  md ← get_md s k;
  Done (if version >? md_retry_version md
        then upd_md k (λ md, md_set_version version req_id (ClearMetaData md))
               (upd_missing (delete (retry_id k (md_retry_version md))) s)
        else s).

Definition below_watermark s (client seq : Z) : bool :=
  match clientQueryWatermark s !! client with Some w => seq <=? w | None => false end.

Definition sync_outdated (version : Z) md : bool :=
  (version <? md_retry_version md) || (version =? md_retry_version md) && md_started_sync md.
Definition open_sync (msg : SyncClientProposal) : ProposedSnapshot :=
  if signClientQueries && cacheReadSet then parse_merged_ss (sm_data (scp_signed_merged_ss msg)) else scp_merged_ss msg.
Definition HandleSync (tb : TableStore) (remote : Z) (msg : SyncClientProposal) s : outcome rserver :=
  let sm := scp_signed_merged_ss msg in
  let ss := open_sync msg in
  let m := ps_merged ss in
  let k := default "" (ms_query_digest m) in
  if below_watermark s (ms_client_id m) (ms_query_seq_num m) then Done s
  else if from_option (sync_outdated (ms_retry_version m)) false (queryMetaData s !! k) then Done s
  else if signClientQueries && cacheReadSet && negb (verify_client (sm_process_id sm) (sm_data sm) (sm_signature sm))
  then Panic
  else
    let s := match queryMetaData s !! k with
             | Some _ => s
             | None => upd_mds (insert k (QMD_sync (ms_query_seq_num m) (ms_client_id m))) s
             end in
    s ← next_version k (ms_retry_version m) (scp_req_id msg) s;
    let s := upd_md k (md_set_sync (scp_designated_for_reply msg)) s in
    md ← get_md s k;
    if md_has_query md then ProcessSync tb k ss s
    else Done (upd_md k (RegisterWaitingSync ss remote) s).

(** ** Queries *)

Definition ProcessQuery (tb : TableStore) k (remote : Z) (q : QueryMsg) s : outcome rserver :=
  md ← get_md s k;
  let ls := tb_FindSnapshot tb (md_query_cmd md) (md_ts md)
              (InitLocalSnapshot (qq_query_seq_num q) (qq_client_id q) replica_id) in
  ls ← SealLocalSnapshot (md_useOptimisticTxId md) compressOptimisticTxIDs ls;
  let signed := if validateProofs && signedMessages then Some (sign_local_ss ls) else None in
  Done (add_out [SendSyncReply remote (mkSyncReply (md_req_id md) ls signed) (md_useOptimisticTxId md)]
         (upd_md k md_set_executed s)).

(** The client's id of a query is not compared with the signer. *)
Definition VerifyClientQuery (q : QueryMsg) (sm : SignedMessage) : bool :=
  (ts_id (qq_timestamp q) =? sm_process_id sm) && verify_client (sm_process_id sm) (sm_data sm) (sm_signature sm).

Definition query_valid (version : Z) md : bool :=
  if (version =? 0) && negb (md_has_query md) then true
  else if version <? md_retry_version md then false
  else if version =? md_retry_version md
  then negb (md_executed_query md || md_started_sync md && negb (md_waiting_sync md))
  else true.

(** What happens once the command of the query is there. *)
Definition start_query (tb : TableStore) k (remote : Z) (msg : QueryRequest) (q : QueryMsg) s : outcome rserver :=
  let s := upd_md k (md_set_exec (qrq_optimistic_txid msg) (qrq_designated_for_reply msg)) s in
  md ← get_md s k;
  if (md_designated md || cacheReadSet) && qrq_eager_exec msg && negb (md_waiting_sync md)
  then ExecQueryEagerly tb k (qrq_include_policy msg) s
  else if md_designated md && negb (md_waiting_sync md) then ProcessQuery tb k remote q s
  else if md_waiting_sync md then
    match md_merged_ss_msg md with None => Panic | Some ss => ProcessSync tb k ss s end
  else Done s.

Definition open_query (msg : QueryRequest) : QueryMsg * Z :=
  if signClientQueries then parse_query (sm_data (qrq_signed_query msg)) else (qrq_query msg, qrq_retry_version msg).
Definition HandleQuery (tb : TableStore) (now : Z) (remote : Z) (msg : QueryRequest) s : outcome rserver :=
  let sm := qrq_signed_query msg in
  let '(q, version) := open_query msg in
  if (rtsMode >? 0) && CheckHighWatermark now (qq_timestamp q) then Done s
  else if below_watermark s (qq_client_id q) (qq_query_seq_num q) then Done s
  else
    let k := QueryDigest blake3 q query_id_hashed in
    if negb (from_option (query_valid version) true (queryMetaData s !! k)) then Done s
    else if signClientQueries && negb (VerifyClientQuery q sm) then Done s
    else if qrq_is_point msg && negb (qrq_eager_exec msg)
    then Done (add_out [PointQueryCall (qrq_req_id msg) q remote (qrq_include_policy msg)] s)
    else
      let s := match queryMetaData s !! k with
               | Some _ => s
               | None => upd_mds (insert k (QMD_query (qq_query_cmd q) (qq_timestamp q) remote (qrq_req_id msg)
                                              (qq_query_seq_num q) (qq_client_id q) version)) s
               end in
      let s := upd_md k (md_set_policy (qrq_include_policy msg)) s in
      let s := if decide (qq_query_cmd q = "") then s
               else upd_md k (SetQuery (qq_query_cmd q) (qq_timestamp q) remote (qrq_req_id msg)) s in
      s ← next_version k version (qrq_req_id msg) s;
      md ← get_md s k;
      if negb (md_has_query md) then Done s else start_query tb k remote msg q s.

(** ** Transactions between replicas *)

Definition default_writeback : Writeback := mkWb DCOMMIT None None WbNone None.
(** [writebackMessages[txn_id]] adds an empty message where there is none. *)
Definition CheckLocalAvailability d s : outcome (rserver * TxnInfo) :=
  let c := rq_core s in
  match committed c !! d with
  | Some pr => cp ← read_proof c pr; Done (s, mkTI (Some d) (SupplyCommit cp) None)
  | None =>
      if bool_decide (d ∈ aborted c) then
        let wb := default default_writeback (writebackMessages c !! d) in
        Done (upd_core (upd_writebackMessages (insert d wb)) s, mkTI (Some d) (SupplyAbort true) (Some wb))
      else match prepared c !! d with
      | Some (_, p) =>
          t ← deref c p;
          sm ← (if signClientProposals then
                  match p1MetaData c !! d with
                  | Some m => if pm_hasSignedP1 m
                              then match rq_signed_txn s !! d with Some sm => Done sm | None => Panic end else Panic
                  | None => Panic
                  end
                else Done (mkSigned 0 "" ""));
          Done (s, mkTI (Some d) (SupplyP1 (mkP1Msg 0 t sm true)) None)
      | None => Panic
      end
  end.

Definition supply_txn (acc : rserver * list TxnInfo) d : outcome (rserver * list TxnInfo) :=
  '(s, info) ← CheckLocalAvailability d acc.1; Done (s, acc.2 ++ [info]).
Definition supply_ts (acc : rserver * list (Z * TxnInfo)) (x : Z) : outcome (rserver * list (Z * TxnInfo)) :=
  match rq_ts_to_tx acc.1 !! x with
  | None => Panic
  | Some d => '(s, info) ← CheckLocalAvailability d acc.1; Done (s, acc.2 ++ [(x, info)])
  end.
Definition HandleRequestTx (req : RequestMissingTxns) s : outcome rserver :=
  if idx =? rmt_replica_idx req then Panic
  else
    '(s, txns) ← foldO supply_txn (s, []) (rmt_txn req);
    '(s, tss) ← foldO supply_ts (s, []) (rmt_txn_ts req);
    Done (add_out [SendSupply (rmt_replica_idx req) (mkSMT idx txns tss)] s).

(** A transaction is taken up once, whatever the first supply of it held. *)
Definition ProcessSuppliedTxn d (info : TxnInfo) s : outcome rserver :=
  if bool_decide (d ∈ supplied_sync (rq_core s)) then Done s
  else
    let s := upd_core (upd_supplied_sync (λ x, {[d]} ∪ x)) s in
    let c := rq_core s in
    if bool_decide (is_Some (committed c !! d)) then Done s
    else if bool_decide (d ∈ aborted c) then Done s
    else match ti_content info with
    | SupplyAbort true =>
        match ti_abort_proof info with
        | Some wb => Done (add_out [HandleWritebackCall wb] s)
        | None => Panic
        end
    | SupplyCommit pr =>
        let t := cp_txn pr in
        if (client_id t =? 0) && (client_seq_num t =? 0) then
          x ← MergeTimestampId (timestamp (t_timestamp t)) (ts_id (t_timestamp t));
          Done (add_out [AcceptedGenesis d] (add_tasks [UpdateQueries d false; UpdateQueriesTS x d false] s))
        else if negb (bool_decide (d = txn_digest t)) then Panic
        else Done (add_tasks [CheckProof d pr] s)
    | content =>
        match content, p1MetaData c !! d with
        | SupplyP1 p1, Some _ =>
            if signClientProposals then
              match ongoing c !! d with
              | None => Panic
              | Some p => t ← deref c p; RegisterForceMaterialization d t s
              end
            else RegisterForceMaterialization d (p1_txn p1) s
        | SupplyP1 p1, None =>
            let t := if signClientProposals then parse_txn (sm_data (p1_signed_txn p1)) else p1_txn p1 in
            if bool_decide (d = txn_digest t)
            then Done (add_out [ProcessProposalCall p1 (set_txndigest d t) d] s)
            else Panic
        | _, _ => Panic
        end
    end.

Definition supplied (s : rserver) (info : TxnInfo) : outcome rserver :=
  match ti_txn_id info with Some d => ProcessSuppliedTxn d info s | None => Panic end.
Definition HandleSupplyTx (msg : SupplyMissingTxns) s : outcome rserver :=
  let sm := sup_signed msg in
  if signReplicaToReplicaSync && negb (verifyHMAC (sm_process_id sm `mod` config_n) (sm_data sm) (sm_signature sm))
  then Done s
  else
    let m := if signReplicaToReplicaSync then parse_supply (sm_data sm) else sup_plain msg in
    s ← foldO supplied s (smt_txns m);
    foldO (λ s e, supplied s e.2) s (smt_txns_ts m).

(** ** Waking queries

    The first part, under the lock of the transaction: which queries lose
    their last missing transaction. *)
Definition del_missing_txn d (m : MissingTxns) : MissingTxns :=
  mkMissing (mt_txns m ∖ {[d]}) (mt_ts m) (mt_query_id m) (mt_retry_version m).
Definition del_missing_ts (x : Z) (m : MissingTxns) : MissingTxns :=
  mkMissing (mt_txns m) (mt_ts m ∖ {[x]}) (mt_query_id m) (mt_retry_version m).

Notation to_wake := (gmap digest Z).
Definition update_query d (is_abort : bool) (acc : rserver * to_wake * to_wake) (rid : string) :
    rserver * to_wake * to_wake :=
  let '(s, wake, rm) := acc in
  match queryMissingTxns s !! rid with
  | None => acc
  | Some m =>
      let was_present := bool_decide (d ∈ mt_txns m) in
      let m := del_missing_txn d m in
      let s := upd_missing (insert rid m) s in
      if was_present && nothing_missing m then (s, <[mt_query_id m := mt_retry_version m]> wake, rm)
      else if is_abort then (s, wake, <[mt_query_id m := mt_retry_version m]> rm)
      else (s, wake, rm)
  end.
Definition UpdateWaitingQueries d (is_abort : bool) s : rserver :=
  match waitingQueries s !! d with
  | None => s
  | Some w =>
      let '(s, wake, rm) := foldl (update_query d is_abort) (s, ∅, ∅) (elements w) in
      add_tasks (((λ e, RemoveTxn e.1 e.2 d) <$> map_to_list rm) ++
                 ((λ e, WakeQuery e.1 e.2 d is_abort) <$> map_to_list wake))
        (upd_waiting (delete d) s)
  end.

Definition update_query_ts (x : Z) (acc : rserver * gmap (digest * string) Z) (rid : string) :
    rserver * gmap (digest * string) Z :=
  let '(s, upd) := acc in
  match queryMissingTxns s !! rid with
  | None => acc
  | Some m =>
      (upd_missing (insert rid (del_missing_ts x m)) s,
       if bool_decide (x ∈ mt_ts m) then <[(mt_query_id m, rid) := mt_retry_version m]> upd else upd)
  end.
Definition UpdateWaitingQueriesTS (x : Z) d (is_abort : bool) s : rserver :=
  match waitingQueriesTS s !! x with
  | None => s
  | Some w =>
      let '(s, upd) := foldl (update_query_ts x) (s, ∅) (elements w) in
      add_tasks ((λ e, ResolveTS e.1.1 e.1.2 e.2 d is_abort) <$> map_to_list upd) (upd_waiting_ts (delete x) s)
  end.

(** The second part, for one query under its lock. *)
Definition still_waits s k (version : Z) : bool :=
  match queryMetaData s !! k with
  | Some md => md_is_waiting md && (md_retry_version md =? version)
  | None => false
  end.
Definition run_remove k version d s : outcome rserver :=
  if still_waits s k version then upd_merged_txns k (delete d) s else Done s.
Definition run_wake (tb : TableStore) k version d (is_abort : bool) s : outcome rserver :=
  if still_waits s k version then
    s ← (if is_abort then upd_merged_txns k (delete d) s else Done s);
    md ← get_md s k;
    HandleSyncCallback tb k (md_get_policy md) s
  else Done s.
Definition run_resolve (tb : TableStore) k rid version d (is_abort : bool) s : outcome rserver :=
  if still_waits s k version then
    s ← upd_merged_txns k (if is_abort then delete d else touch d) s;
    match queryMissingTxns s !! rid with
    | None => Done s
    | Some _ =>
        '(s, m, finished) ← CheckPresence k d rid ReplicaList_empty s ∅;
        _ ← uw_assert (bool_decide (m = ∅));
        let ready := from_option nothing_missing false (queryMissingTxns s !! rid) in
        md ← get_md s k;
        if ready && finished then HandleSyncCallback tb k (md_get_policy md) s else Done s
    end
  else Done s.
Definition run_proof d (pr : CommittedProof) s : outcome rserver :=
  ok ← ValidateCommittedProof config ser_cc ser_p2 Verify pr d;
  if ok : bool then Done (add_out [CommitWithProofCall d pr] s) else Panic.

Definition run_task (tb : TableStore) (t : qtask) s : outcome rserver :=
  match t with
  | UpdateQueries d ab => Done (UpdateWaitingQueries d ab s)
  | UpdateQueriesTS x d ab => Done (UpdateWaitingQueriesTS x d ab s)
  | RemoveTxn k v d => run_remove k v d s
  | WakeQuery k v d ab => run_wake tb k v d ab s
  | ResolveTS k rid v d ab => run_resolve tb k rid v d ab s
  | CheckProof d pr => run_proof d pr s
  end.

(** ** Cleaning up

    When a transaction commits or aborts; [alreadyDeleted] is a check of the
    authors. *)
Definition clean_query (s : rserver) (q : QueryResultMetaData) : outcome rserver :=
  let k := qm_query_id q in
  match queryMetaData s !! k with
  | None => Done s
  | Some md =>
      if bool_decide (k ∈ alreadyDeleted s) then Panic
      else
        let s := upd_deleted (λ x, {[k]} ∪ x) s in
        let s := if cacheReadSet
                 then upd_core (λ c, ClearRTS c (qr_read_set (q_query_read_set (md_result md))) (md_ts md)) s
                 else match List.find (λ g, g.1 =? groupIdx) (qm_group_meta q) with
                      | Some g => upd_core (λ c, ClearRTS c (qr_read_set (gm_query_read_set g.2)) (md_ts md)) s
                      | None => s
                      end in
        Done (upd_mds (delete k) (upd_missing (delete (retry_id k (md_retry_version md))) s))
  end.
Definition CleanQueries (client : Z) (last_query_seq : option Z) (qs : list QueryResultMetaData) s : outcome rserver :=
  match last_query_seq with
  | None => Done s
  | Some last =>
      let s := upd_watermark (λ w, <[client := Z.max (default 0 (w !! client)) last]> w) s in
      foldO clean_query s qs
  end.

(** ** Runs

    Any handler, any pending task, what other handlers call
    ([ApplyTableWrites] by prepare and commit, the end of [Abort],
    [ForceMaterialization] after phase 1, [CleanQueries]), and steps of other
    handlers that materialize nothing.  Versions are 64-bit fields.  With
    [optimisticTxID] every handler registers a transaction under its timestamp
    before it can abort it (server.cc:1800, 1929, 2135, 2186, servertools.cc:1171),
    and a registered timestamp stays registered. *)
Definition is_u64 (x : Z) : Prop := 0 ≤ x < 2^64.
Definition ts_registered d ts s : Prop :=
  optimisticTxID = true → ∀ x, MergeTimestampId (timestamp ts) (ts_id ts) = Done x → rq_ts_to_tx s !! x = Some d.
Inductive rq_step (s : rserver) : rserver → Prop :=
| rq_query tb now remote msg s' :
    is_u64 (open_query msg).2 → HandleQuery tb now remote msg s = Done s' → rq_step s s'
| rq_sync tb remote msg s' :
    is_u64 (ms_retry_version (ps_merged (open_sync msg))) → HandleSync tb remote msg s = Done s' → rq_step s s'
| rq_request req s' : HandleRequestTx req s = Done s' → rq_step s s'
| rq_supply msg s' : HandleSupplyTx msg s = Done s' → rq_step s s'
| rq_apply t ts d s' tables : ApplyWrites t ts d s = Done (s', tables) → rq_step s s'
| rq_abort d ts s' : ts_registered d ts s → AbortWaiting d ts s = Done s' → rq_step s s'
| rq_force r d t s' : ForceMaterialization r d t s = Done s' → rq_step s s'
| rq_clean client last qs s' : CleanQueries client last qs s = Done s' → rq_step s s'
| rq_task tb i t s' : rq_tasks s !! i = Some t → run_task tb t (upd_tasks (base.delete i) s) = Done s' → rq_step s s'
| rq_env r signed : materialized (rp_server r) = materialized (rq_core s) → rq_ts_to_tx s ⊆ ts_to_tx r →
    rq_step s (mkRS r signed (queryMetaData s) (queryMissingTxns s) (waitingQueries s) (waitingQueriesTS s)
                 (clientQueryWatermark s) (alreadyDeleted s) (rq_tasks s) (rq_out s)).

(** A replica that has started: only genesis is materialized. *)
Definition rq_init (r : replica) : rserver := mkRS r ∅ ∅ ∅ ∅ ∅ ∅ ∅ [] [].
Definition rq_reachable s : Prop := ∃ r, rtc rq_step (rq_init r) s.
End sync.
