(* ===== verification/QuerySyncSafety.v ===== *)
(** * What the synchronization of queries guarantees

    In every run of QuerySync.v: a query that is executed on a snapshot finds
    every transaction of it materialized, up to what the code takes on trust,
    and no wake-up is lost: while a query waits, something it waits for has
    not happened, or its wake-up is under way. *)
From S2P Require Import Prelude OrderedSeq CppString Timestamp VersionStore Policy PolicyParse ServerState ServerTxn MVTSO Endorse Quorum AsyncVerify Phase2 Reads Snapshot Digest Phase1 QueryClient QuerySync.

(** The version is the tail of the identifier of a retry. *)
Lemma retry_bytes_inj k v k' v' :
  bytes [k; u64_bytes v] = bytes [k'; u64_bytes v'] → is_u64 v → is_u64 v' → k = k' ∧ v = v'.
Proof.
  intros Heq Hv Hv'. assert (∀ a b, String.length (String.append a b) = (String.length a + String.length b)%nat) as Hl.
  { induction a as [|x a IH]; intros b; [done|].
    change (S (String.length (String.append a b)) = S (String.length a + String.length b)). by rewrite IH. }
  change (String.append k (String.append (u64_bytes v) "") = String.append k' (String.append (u64_bytes v') "")) in Heq. pose proof (f_equal String.length Heq) as Hn. rewrite !Hl, !u64_bytes_length in Hn. cbn in Hn.
  destruct (append_inj k k' (String.append (u64_bytes v) "") (String.append (u64_bytes v') "")) as [-> Heq']; [lia|done|].
  destruct (append_inj (u64_bytes v) (u64_bytes v') "" "") as [Hb _]; [by rewrite !u64_bytes_length|done|].
  split; [done|]. by apply u64_bytes_inj.
Qed.

Section safety.
Context `{E : Env}.
Variable config : Configuration.
Variable ser_cc : CCMsg → string.
Variable ser_p2 : P2Msg → string.
Variable Verify : Z → string → string → bool.
Variable blake3 : string → string.
Variable txn_digest : Transaction → digest.
Variable parse_txn : string → Transaction.
Variable parse_query : string → QueryMsg * Z.
Variable parse_merged_ss : string → ProposedSnapshot.
Variable parse_supply : string → SupplyMissingTxnsMessage.
Variable verifyHMAC : Z → string → string → bool.
Variable sign_local_ss : LocalSnapshot → SignedMessage.
Variable sign_result : string → QueryResult → SignedMessage.
Variable no_proof : CommittedProof.
Variables optimisticTxID signClientQueries hashDigest compressOptimisticTxIDs : bool.
Variables eagerPlusSnapshot signReplicaToReplicaSync hashQueryGenId mvtso : bool.
Implicit Types (s : rserver) (d k : digest) (rid : string) (v : Z) (md : QueryMetaData) (m : MissingTxns).

Local Notation R := (retry_id blake3 signClientQueries hashDigest).

(** Where identifiers are hashed, hashes are taken to be distinct. *)
Hypothesis blake3_inj : query_id_hashed signClientQueries hashDigest = true → ∀ a b, blake3 a = blake3 b → a = b.

Lemma R_inj k v k' v' : R k v = R k' v' → is_u64 v → is_u64 v' → k = k' ∧ v = v'.
Proof.
  unfold retry_id, QueryRetryId. destruct (query_id_hashed _ _) eqn:H.
  - intros ?%(blake3_inj eq_refl). by apply retry_bytes_inj.
  - by apply retry_bytes_inj.
Qed.

(** ** The invariant *)

(** What the code counts as there, and what it takes on trust. *)
Definition okm s d : Prop := d ∈ materialized (rq_core s) ∨ AcceptedGenesis d ∈ rq_out s.
Definition ok s k v d : Prop := okm s d ∨ ∃ ds, UncheckedTxns k v ds ∈ rq_out s ∧ d ∈ ds.
Definition merged md : gmap digest ReplicaList :=
  match md_merged_ss_msg md with Some ps => ms_txns (ps_merged ps) | None => ∅ end.

(** A query whose snapshot is being checked, and what is still unchecked. *)
Definition focus : Type := option (digest * gset digest).
Definition relaxed (f : focus) k d : Prop := match f with Some (k0, U) => k = k0 ∧ d ∈ U | None => False end.
Definition focused (f : focus) k : Prop := match f with Some (k0, _) => k = k0 | None => False end.

(** A transaction of merged timestamp [x] came: applied or aborted. *)
Definition came s (x : Z) : Prop :=
  optimisticTxID = true ∧ ∃ d ts ab, MaterializedTx d ts ab ∈ rq_out s ∧ MergeTimestampId (timestamp ts) (ts_id ts) = Done x.
Definition registered s rid m : Prop :=
  (∀ d, d ∈ mt_txns m → rid ∈ default ∅ (waitingQueries s !! d) ∧
     (d ∈ materialized (rq_core s) → ∃ ab, UpdateQueries d ab ∈ rq_tasks s)) ∧
  (∀ x, x ∈ mt_ts m → rid ∈ default ∅ (waitingQueriesTS s !! x) ∧
     (came s x → ∃ d ab, UpdateQueriesTS x d ab ∈ rq_tasks s)).
Definition pending s k v : Prop :=
  ∃ d ab, WakeQuery k v d ab ∈ rq_tasks s ∨ ResolveTS k (R k v) v d ab ∈ rq_tasks s.
Definition waiting_ok (f : focus) s k md m : Prop :=
  mt_query_id m = k ∧ mt_retry_version m = md_retry_version md ∧ is_Some (md_merged_ss_msg md) ∧
  (∀ d, d ∈ dom (merged md) → relaxed f k d ∨ ok s k (md_retry_version md) d ∨ d ∈ mt_txns m) ∧
  (focused f k ∨ nothing_missing m = false ∨ pending s k (md_retry_version md)).
Definition task_ok s (t : qtask) : Prop :=
  match t with
  | UpdateQueries d _ | UpdateQueriesTS _ d _ => okm s d
  | WakeQuery k v d _ => is_u64 v ∧ (k ∉ alreadyDeleted s → ∃ md, queryMetaData s !! k = Some md ∧ v ≤ md_retry_version md ∧
      (v = md_retry_version md → ∃ m, queryMissingTxns s !! R k v = Some m ∧ ∀ d', d' ∈ mt_txns m → okm s d'))
  | ResolveTS k rid v d _ => okm s d ∧ (k ∉ alreadyDeleted s → rid = R k v)
  | RemoveTxn _ _ _ | CheckProof _ _ => True
  end.
Record inv (f : focus) s : Prop := {
  inv_entry : ∀ rid m, queryMissingTxns s !! rid = Some m → mt_query_id m ∉ alreadyDeleted s →
    ∃ md, queryMetaData s !! mt_query_id m = Some md ∧ md_retry_version md = mt_retry_version m ∧
          rid = R (mt_query_id m) (mt_retry_version m);
  inv_reg : ∀ rid m, queryMissingTxns s !! rid = Some m → registered s rid m;
  inv_version : ∀ k md, queryMetaData s !! k = Some md → is_u64 (md_retry_version md);
  inv_waiting : ∀ k md, queryMetaData s !! k = Some md → k ∉ alreadyDeleted s → md_is_waiting md = true →
    ∃ m, queryMissingTxns s !! R k (md_retry_version md) = Some m ∧ waiting_ok f s k md m;
  inv_tasks : ∀ t, t ∈ rq_tasks s → task_ok s t;
  inv_has : ∀ k md, queryMetaData s !! k = Some md → md_is_waiting md = true → md_has_query md = true;
  inv_u64 : ∀ rid m, queryMissingTxns s !! rid = Some m → is_u64 (mt_retry_version m);
  inv_came : ∀ x, came s x → is_Some (rq_ts_to_tx s !! x)
}.

(** ** Steps that leave the queries alone *)

(** More is materialized, each with its update on the way. *)
Definition update_of s (t : qtask) : Prop :=
  match t with
  | UpdateQueries d _ | UpdateQueriesTS _ d _ => okm s d
  | CheckProof _ _ => True
  | _ => False
  end.
Record extends s s' : Prop := {
  ext_mds : queryMetaData s' = queryMetaData s;
  ext_missing : queryMissingTxns s' = queryMissingTxns s;
  ext_waiting : waitingQueries s' = waitingQueries s;
  ext_waiting_ts : waitingQueriesTS s' = waitingQueriesTS s;
  ext_deleted : alreadyDeleted s' = alreadyDeleted s;
  ext_tasks : ∃ l, rq_tasks s' = rq_tasks s ++ l ∧ ∀ t, t ∈ l → update_of s' t;
  ext_out : ∃ l, rq_out s' = rq_out s ++ l ∧ ∀ k v c ts txns, ExecOnSnapshot k v c ts txns ∉ l;
  ext_mat : materialized (rq_core s) ⊆ materialized (rq_core s');
  ext_new : ∀ d, d ∈ materialized (rq_core s') → d ∉ materialized (rq_core s) → ∃ ab, UpdateQueries d ab ∈ rq_tasks s';
  ext_ts : rq_ts_to_tx s ⊆ rq_ts_to_tx s';
  ext_came : ∀ x, came s' x → came s x ∨ is_Some (rq_ts_to_tx s' !! x) ∧ ∃ d ab, UpdateQueriesTS x d ab ∈ rq_tasks s'
}.

Lemma okm_mono s s' d :
  materialized (rq_core s) ⊆ materialized (rq_core s') → (∃ l, rq_out s' = rq_out s ++ l) → okm s d → okm s' d.
Proof. intros Hm [l Ho] [H|H]; [left; set_solver|right]. rewrite Ho. apply elem_of_app. by left. Qed.
Lemma ok_mono s s' k v d :
  materialized (rq_core s) ⊆ materialized (rq_core s') → (∃ l, rq_out s' = rq_out s ++ l) → ok s k v d → ok s' k v d.
Proof.
  intros Hm Ho [H|(ds & H & Hd)]; [left; by eapply okm_mono|right].
  destruct Ho as [l ->]. exists ds. rewrite elem_of_app. tauto.
Qed.

Lemma task_ok_ext s s' t :
  queryMetaData s' = queryMetaData s → queryMissingTxns s' = queryMissingTxns s → alreadyDeleted s' = alreadyDeleted s →
  (∀ d, okm s d → okm s' d) → task_ok s t → task_ok s' t.
Proof.
  intros H1 H2 H3 Hok. unfold task_ok. destruct t as [d ab|x d ab|k v d|k v d ab|k rid v d ab|d pr]; rewrite ?H1, ?H2, ?H3; eauto.
  - intros [Hv H]. split; [done|]. intros Hk. destruct (H Hk) as (md & ? & ? & Hm). exists md. split_and!; [done..|].
    intros Hq. destruct (Hm Hq) as (m & ? & ?). eauto.
  - intros [? ?]. eauto.
Qed.
Lemma update_of_task_ok s t : update_of s t → task_ok s t.
Proof. by destruct t. Qed.

Lemma inv_extends f s s' : inv f s → extends s s' → inv f s'.
Proof.
  intros [Ie Ir Iv Iw It Ih Iu Ic] [E1 E2 E3 E4 E5 (lt & Et & Ht) (lo & Eo & Ho) Em En Es Ec].
  assert (∀ d, okm s d → okm s' d) as Hok by (intros; eapply okm_mono; eauto).
  assert (∀ t, t ∈ rq_tasks s → t ∈ rq_tasks s') as Hin by (intros; rewrite Et; apply elem_of_app; by left).
  constructor; rewrite ?E1, ?E2, ?E5; try done.
  - intros rid m Hm. destruct (Ir rid m Hm) as [Ha Hb]. split; rewrite ?E3, ?E4; cycle 1.
    { intros x Hx. destruct (Hb x Hx) as [? Hc]. split; [done|]. intros [Hold|[_ ?]]%Ec; [|done].
      destruct (Hc Hold) as (d & ab & ?). eauto. }
    intros d Hd. destruct (Ha d Hd) as [? Hc]. split; [done|]. intros Hmat.
    destruct (decide (d ∈ materialized (rq_core s))) as [Hold|Hnew]; [|by apply En].
    destruct (Hc Hold) as [ab ?]. eauto.
  - intros k md Hk Hdel Hw. destruct (Iw k md Hk Hdel Hw) as (m & Hm & Hq & Hv & Hs & Hc & Hp).
    exists m. split; [done|]. split_and!; [done..| |].
    + intros d Hd. destruct (Hc d Hd) as [?|[?|?]]; [by left|right; left|by auto]. eapply ok_mono; eauto.
    + destruct Hp as [?|[?|(d & ab & Hp)]]; [by auto..|]. right; right. exists d, ab. destruct Hp; eauto.
  - intros t. rewrite Et. intros [Hin'|Hin']%elem_of_app; [|by apply update_of_task_ok, Ht].
    eapply task_ok_ext; [..|by apply It]; done.
  - intros x [Hold|[? _]]%Ec; [|done]. destruct (Ic x Hold) as [d Hd]. exists d. by eapply lookup_weaken.
Qed.

Lemma extends_refl s : extends s s.
Proof.
  constructor; try done; [..|by left].
  - exists []. rewrite app_nil_r. split; [done|]. by intros t ?%elem_of_nil.
  - exists []. rewrite app_nil_r. split; [done|]. by intros ????? ?%elem_of_nil.
Qed.
Lemma extends_trans s1 s2 s3 : extends s1 s2 → extends s2 s3 → extends s1 s3.
Proof.
  intros [A1 A2 A3 A4 A5 (lt & At & Ht) (lo & Ao & Ho) Am An As Ac] [B1 B2 B3 B4 B5 (lt' & Bt & Ht') (lo' & Bo & Ho') Bm Bn Bs Bc].
  constructor; try (by etrans).
  - exists (lt ++ lt'). rewrite Bt, At, app_assoc. split; [done|]. intros t [Hin|Hin]%elem_of_app; [|by apply Ht'].
    specialize (Ht t Hin). destruct t; try done; eapply okm_mono; eauto.
  - exists (lo ++ lo'). rewrite Bo, Ao, app_assoc. split; [done|]. intros ?????. rewrite elem_of_app. intros [?|?]; naive_solver.
  - intros d Hd Hn. destruct (decide (d ∈ materialized (rq_core s2))) as [Hd2|Hd2]; [|by apply Bn].
    destruct (An d Hd2 Hn) as [ab ?]. exists ab. rewrite Bt. apply elem_of_app. by left.
  - intros x [[?|[[d Hd] (d' & ab & Ht2)]]%Ac|?]%Bc; [by left|right|by right]. split; [exists d; by eapply lookup_weaken|].
    exists d', ab. rewrite Bt. apply elem_of_app. by left.
Qed.
#[local] Instance extends_preorder : PreOrder extends.
Proof. split; [exact extends_refl|exact extends_trans]. Qed.

(** Changes of the core that materialize nothing. *)
Lemma extends_replica f s :
  materialized (rp_server (f (rq_replica s))) = materialized (rq_core s) → rq_ts_to_tx s ⊆ ts_to_tx (f (rq_replica s)) →
  extends s (upd_replica f s).
Proof.
  intros Hm Hts. constructor; try done; [..|by left].
  - exists []. rewrite app_nil_r. split; [done|]. by intros t ?%elem_of_nil.
  - exists []. rewrite app_nil_r. split; [done|]. by intros ????? ?%elem_of_nil.
  - unfold rq_core in *. cbn. by rewrite Hm.
  - unfold rq_core in *. cbn. rewrite Hm. done.
Qed.
Definition quiet (e : qevent) : Prop :=
  match e with ExecOnSnapshot _ _ _ _ _ | MaterializedTx _ _ _ => False | _ => True end.
Lemma extends_out s l : (∀ e, e ∈ l → quiet e) → extends s (add_out l s).
Proof.
  intros Hl. constructor; try done.
  - exists []. rewrite app_nil_r. split; [done|]. by intros t ?%elem_of_nil.
  - exists l. split; [done|]. intros k v c ts txns Hin. by apply Hl in Hin.
  - intros x [Ho (d & ts & ab & [Hin|Hin]%elem_of_app & Hx)]; [left; split; eauto|]. by apply Hl in Hin.
Qed.
Lemma extends_out1 s e : quiet e → extends s (add_out [e] s).
Proof. intros He. apply extends_out. intros e'. by rewrite list_elem_of_singleton; intros ->. Qed.
Lemma extends_tasks s l : (∀ t, t ∈ l → update_of s t) → extends s (add_tasks l s).
Proof.
  intros Hl. constructor; try done; [..|by left].
  - exists l. split; [done|]. intros t Ht. specialize (Hl t Ht). by destruct t.
  - exists []. rewrite app_nil_r. split; [done|]. by intros ????? ?%elem_of_nil.
Qed.

(** Materializing a transaction and starting its updates. *)
Lemma CheckWaitingQueries_form d ts ab s s' :
  CheckWaitingQueries optimisticTxID d ts ab 0 s = Done s' →
  ∃ l, s' = add_tasks l s ∧ UpdateQueries d ab ∈ l ∧
    (optimisticTxID = true → ∃ x, MergeTimestampId (timestamp ts) (ts_id ts) = Done x ∧ UpdateQueriesTS x d ab ∈ l) ∧
    ∀ t, t ∈ l → t = UpdateQueries d ab ∨ ∃ x, t = UpdateQueriesTS x d ab.
Proof.
  unfold CheckWaitingQueries. destruct optimisticTxID; cbn; intros H; inv_outcome.
  - eexists. split; [done|]. split; [by left|]. split; [intros _; eexists; split; [done|by right; left]|].
    intros t. rewrite !elem_of_cons, elem_of_nil. naive_solver.
  - eexists. split; [done|]. split; [by left|]. split; [done|]. intros t. rewrite !elem_of_cons, elem_of_nil. naive_solver.
Qed.
Lemma materialize_extends d ts ab g s s' :
  CheckWaitingQueries optimisticTxID d ts ab 0 (add_out [MaterializedTx d ts ab]
    (upd_replica (λ r, mkReplica (upd_materialized (λ x, {[d]} ∪ x) (rp_server r)) (g r)) s)) = Done s' →
  rq_ts_to_tx s ⊆ g (rq_replica s) →
  (optimisticTxID = true → ∀ x, MergeTimestampId (timestamp ts) (ts_id ts) = Done x → is_Some (g (rq_replica s) !! x)) →
  extends s s'.
Proof.
  intros (l & -> & Hd & Hts & Hl)%CheckWaitingQueries_form Hsub Hreg. set (s1 := add_out _ _).
  assert (okm (add_tasks l s1) d) as Hok by (left; unfold rq_core; cbn; set_solver).
  constructor; try done.
  - exists l. split; [done|]. intros t Ht. destruct (Hl t Ht) as [->|[x ->]]; done.
  - exists [MaterializedTx d ts ab]. split; [done|]. intros ?????. by rewrite list_elem_of_singleton.
  - unfold rq_core. cbn. set_solver.
  - unfold rq_core. cbn. intros d'. rewrite elem_of_union, elem_of_singleton. intros [->|?] Hn; [|done].
    exists ab. apply elem_of_app. by right.
  - intros x [Ho (d' & ts' & ab' & Hin & Hx)]. cbn in Hin. apply elem_of_app in Hin as [Hin|Hin]; [left; split; eauto|right].
    apply list_elem_of_singleton in Hin. injection Hin as -> -> ->. split; [by apply Hreg|].
    destruct (Hts Ho) as (x' & Hx' & Hin'). exists d, ab. assert (x' = x) as <- by congruence. apply elem_of_app. by right.
Qed.

Lemma RegisterTxTS_spec d ts (reg reg' : gmap Z digest) :
  RegisterTxTS optimisticTxID d ts reg = Done reg' →
  reg ⊆ reg' ∧ (optimisticTxID = true → ∀ x, MergeTimestampId (timestamp ts) (ts_id ts) = Done x → is_Some (reg' !! x)).
Proof.
  unfold RegisterTxTS. destruct optimisticTxID; cbn; [|by intros [= <-]]. intros (x & -> & H)%bind_Done.
  destruct (reg !! x) as [d'|] eqn:Hx.
  - case_bool_decide; [|done]. injection H as <-. split; [done|]. intros _ ? [= <-]. by eexists.
  - injection H as <-. split; [by apply insert_subseteq|]. intros _ ? [= <-]. rewrite lookup_insert_eq. by eexists.
Qed.
Lemma ApplyWrites_extends t ts d s s' tables : ApplyWrites optimisticTxID t ts d s = Done (s', tables) → extends s s'.
Proof.
  unfold ApplyWrites. intros (m & [Hm Hr]%RegisterTxTS_spec & H)%bind_Done. apply bind_Done in H as (s1 & H & [= <- _]).
  by apply (materialize_extends d ts false (λ _, m) s s1 H).
Qed.
Lemma AbortWaiting_extends d ts s s' :
  ts_registered optimisticTxID d ts s → AbortWaiting optimisticTxID d ts s = Done s' → extends s s'.
Proof.
  intros Hr H. apply (materialize_extends d ts true ts_to_tx s s' H); [done|]. intros Ho x Hx. exists d. by apply Hr.
Qed.
Lemma ForceMaterialization_extends r d t s s' : ForceMaterialization optimisticTxID r d t s = Done s' → extends s s'.
Proof.
  unfold ForceMaterialization. repeat case_match; [by intros [= <-]..|].
  intros ([s1 tables] & Hw & [= <-])%bind_Done. by eapply ApplyWrites_extends.
Qed.
Lemma RegisterForce_extends d t s s' : RegisterForceMaterialization optimisticTxID d t s = Done s' → extends s s'.
Proof.
  unfold RegisterForceMaterialization. intros H. set (s1 := upd_core _ s) in H.
  assert (extends s s1) as H1 by by apply extends_replica.
  case_match; [|by simplify_eq]. etrans; [exact H1|]. by eapply ForceMaterialization_extends.
Qed.

(** ** Registering a query that waits *)

Definition no_wake s rid : Prop :=
  ∀ k v d ab, WakeQuery k v d ab ∈ rq_tasks s → k ∉ alreadyDeleted s → R k v = rid → False.

Lemma add_waiting_mono `{Countable K} (x y : K) rid rid' (w : gmap K (gset string)) :
  rid ∈ default ∅ (w !! y) → rid ∈ default ∅ (add_waiting x rid' w !! y).
Proof.
  unfold add_waiting. destruct (decide (x = y)) as [->|Hne].
  - rewrite lookup_insert_eq. cbn. set_solver.
  - by rewrite lookup_insert_ne.
Qed.
Lemma add_waiting_in `{Countable K} (x : K) rid (w : gmap K (gset string)) :
  rid ∈ default ∅ (add_waiting x rid w !! x).
Proof. unfold add_waiting. rewrite lookup_insert_eq. cbn. set_solver. Qed.

(** An entry that grows, and is registered for what it got. *)
Lemma inv_grow f s s' rid (g : MissingTxns → MissingTxns) :
  inv f s → rq_replica s' = rq_replica s → queryMetaData s' = queryMetaData s →
  alreadyDeleted s' = alreadyDeleted s → rq_tasks s' = rq_tasks s → rq_out s' = rq_out s →
  queryMissingTxns s' = alter g rid (queryMissingTxns s) →
  (∀ m, mt_query_id (g m) = mt_query_id m ∧ mt_retry_version (g m) = mt_retry_version m ∧ mt_txns m ⊆ mt_txns (g m) ∧ mt_ts m ⊆ mt_ts (g m)) →
  (∀ rid' d, rid' ∈ default ∅ (waitingQueries s !! d) → rid' ∈ default ∅ (waitingQueries s' !! d)) →
  (∀ rid' x, rid' ∈ default ∅ (waitingQueriesTS s !! x) → rid' ∈ default ∅ (waitingQueriesTS s' !! x)) →
  (∀ m, registered s rid m → registered s' rid (g m)) →
  (no_wake s rid ∨ ∀ m d, d ∈ mt_txns (g m) → d ∈ mt_txns m ∨ okm s d) →
  inv f s'.
Proof.
  intros [Ie Ir Iv Iw It Ih Iu Ic] E1 E2 E3 E4 E5 E6 Hg Hw1 Hw2 Hreg Hwake.
  assert (∀ d, okm s d ↔ okm s' d) as Hok by (intros d; unfold okm, rq_core; by rewrite E1, E5).
  assert (∀ k v d, ok s k v d → ok s' k v d) as Hok' by (intros k v d; unfold ok; rewrite E5, Hok; done).
  constructor; rewrite ?E2, ?E3; try done.
  - intros rid' m. rewrite E6, lookup_alter_Some. intros [(<- & m0 & Hm & ->)|[_ Hm]].
    + destruct (Hg m0) as (-> & -> & _). by apply Ie.
    + by apply Ie.
  - intros rid' m. rewrite E6, lookup_alter_Some. intros [(<- & m0 & Hm & ->)|[_ Hm]]; [by eapply Hreg, Ir|].
    destruct (Ir rid' m Hm) as [Ha Hb]. split.
    2:{ intros x Hx. destruct (Hb x Hx) as [? ?]. unfold came. rewrite E4, E5. eauto. }
    intros d Hd. destruct (Ha d Hd) as [? ?]. unfold rq_core. rewrite E1, E4. eauto.
  - intros k md Hk Hdel Hw. destruct (Iw k md Hk Hdel Hw) as (m & Hm & Hq & Hv & Hs & Hc & Hp).
    destruct (decide (rid = R k (md_retry_version md))) as [->|Hne].
    + exists (g m). rewrite E6, lookup_alter_eq, Hm. split; [done|]. destruct (Hg m) as (G1 & G2 & G3 & G4).
      split_and!; [congruence|congruence|done| |].
      * intros d Hd. destruct (Hc d Hd) as [?|[?|?]]; [by left|right; left; eauto|right; right; set_solver].
      * destruct Hp as [?|[Hp|Hp]]; [by left| |].
        -- right; left. unfold nothing_missing in *. apply andb_false_iff. apply andb_false_iff in Hp as [Hp|Hp].
           ++ left. apply bool_decide_eq_false_2. apply bool_decide_eq_false_1 in Hp. set_solver.
           ++ right. apply bool_decide_eq_false_2. apply bool_decide_eq_false_1 in Hp. set_solver.
        -- right; right. unfold pending in *. by rewrite E4.
    + exists m. rewrite E6, lookup_alter_ne by done. split; [done|]. split_and!; [done..| |].
      * intros d Hd. destruct (Hc d Hd) as [?|[?|?]]; [by left|right; left; eauto|by right; right].
      * unfold pending in *. by rewrite E4.
  - intros t. rewrite E4. intros Ht. specialize (It t Ht). unfold task_ok in *.
    destruct t as [d ab|x d ab|k v d|k v d ab|k rid' v d ab|d pr]; rewrite ?E2, ?E3, <- ?Hok; try done.
    destruct It as [Hv H]. split; [done|]. intros Hk. destruct (H Hk) as (md & Hmd & Hle & Hm). exists md. split_and!; [done..|].
    intros Hq. destruct (Hm Hq) as (m & Hm' & Hall). destruct (decide (rid = R k v)) as [->|Hne].
    + exists (g m). rewrite E6, lookup_alter_eq, Hm'. split; [done|]. intros d' Hd'. rewrite <- Hok.
      destruct Hwake as [Hwake|Hwake]; [by destruct (Hwake k v d ab Ht Hk)|].
      destruct (Hwake m d' Hd'); eauto.
    + exists m. rewrite E6, lookup_alter_ne by done. split; [done|]. intros. rewrite <- Hok. eauto.
  - intros rid' m. rewrite E6, lookup_alter_Some. intros [(<- & m0 & Hm & ->)|[_ Hm]]; [|by eapply Iu].
    destruct (Hg m0) as (_ & -> & _). by eapply Iu.
  - intros x. unfold came, rq_ts_to_tx. rewrite E1, E5. apply Ic.
Qed.

Lemma WaitForMaterialization_inv f s d rid s' ready :
  inv f s → (no_wake s rid ∨ okm s d) → WaitForMaterialization d rid s = (s', ready) → inv f s'.
Proof.
  intros Hi Hw. unfold WaitForMaterialization. case_bool_decide as Hd; intros [= <- _]; [done|].
  eapply (inv_grow f s _ rid (add_missing_txn d)); try done.
  - intros m. cbn. set_solver.
  - intros rid' d'. apply add_waiting_mono.
  - intros m [Ha Hb]. split; [|done]. cbn. intros d'. rewrite elem_of_union, elem_of_singleton. intros [->|Hd'].
    + split; [apply add_waiting_in|done].
    + destruct (Ha d' Hd'). split; [by apply add_waiting_mono|done].
  - destruct Hw as [?|Hw]; [by left|]. right. intros m d'. cbn. rewrite elem_of_union, elem_of_singleton. intros [->|?]; eauto.
Qed.
Lemma WaitForTX_inv f s x rid : inv f s → rq_ts_to_tx s !! x = None → inv f (WaitForTX x rid s).
Proof.
  intros Hi Hx. eapply (inv_grow f s _ rid (add_missing_ts x)); try done.
  - intros m. cbn. set_solver.
  - intros rid' d'. apply add_waiting_mono.
  - intros m [Ha Hb]. split; [done|]. cbn. intros x'. rewrite elem_of_union, elem_of_singleton. intros [->|Hx'].
    + split; [apply add_waiting_in|]. intros [d Hd]%(inv_came _ _ Hi). congruence.
    + destruct (Hb x' Hx'). split; [by apply add_waiting_mono|done].
  - right. intros m d. by left.
Qed.

(** ** Changes of one query *)

Definition focus_le (k : digest) (f f' : focus) : Prop :=
  ∀ k', k' ≠ k → (focused f k' → focused f' k') ∧ ∀ d, relaxed f k' d → relaxed f' k' d.
Lemma focus_le_refl k f : focus_le k f f.
Proof. by intros k' _. Qed.

Lemma waiting_ok_focus f f' s k md m :
  (focused f k → focused f' k) → (∀ d, relaxed f k d → relaxed f' k d) → waiting_ok f s k md m → waiting_ok f' s k md m.
Proof. intros Hf Hr (? & ? & ? & Hc & Hp). split_and!; [done..| |naive_solver]. intros d Hd. destruct (Hc d Hd); auto. Qed.

Lemma inv_upd_md f f' s k (g : QueryMetaData → QueryMetaData) :
  inv f s → focus_le k f f' → (∀ md, md_retry_version (g md) = md_retry_version md) →
  (∀ md, queryMetaData s !! k = Some md → md_is_waiting (g md) = true → md_has_query (g md) = true) →
  (∀ md, queryMetaData s !! k = Some md → k ∉ alreadyDeleted s → md_is_waiting (g md) = true →
     ∃ m, queryMissingTxns s !! R k (md_retry_version md) = Some m ∧ waiting_ok f' s k (g md) m) →
  inv f' (upd_md k g s).
Proof.
  intros [Ie Ir Iv Iw It Ih Iu Ic] Hle Hv Hh Hg. constructor; try done.
  - intros rid m Hm Hdel. destruct (Ie rid m Hm Hdel) as (md & Hmd & Hver & Hrid). cbn.
    destruct (decide (k = mt_query_id m)) as [->|Hne].
    + exists (g md). rewrite lookup_alter_eq, Hmd, Hv. done.
    + exists md. by rewrite lookup_alter_ne.
  - intros k' md. cbn. rewrite lookup_alter_Some. intros [(<- & md0 & Hmd & ->)|[_ Hmd]]; [rewrite Hv|]; eauto.
  - intros k' md. cbn. rewrite lookup_alter_Some. intros [(<- & md0 & Hmd & ->)|[Hne Hmd]] Hdel Hw.
    + rewrite Hv. by apply Hg.
    + destruct (Iw k' md Hmd Hdel Hw) as (m & Hm & Hok). exists m. split; [done|].
      destruct (Hle k') as [Hf Hr]; [done|]. by eapply (waiting_ok_focus f f' s).
  - intros t Ht. specialize (It t Ht). destruct t as [d ab|x d ab|k' v d|k' v d ab|k' rid' v d ab|d pr]; try done.
    destruct It as [Hu H]. split; [done|]. intros Hk. destruct (H Hk) as (md & Hmd & Hle' & Hm). cbn.
    destruct (decide (k = k')) as [->|Hne].
    + exists (g md). rewrite lookup_alter_eq, Hmd, Hv. done.
    + exists md. by rewrite lookup_alter_ne.
  - intros k' md. cbn. rewrite lookup_alter_Some. intros [(<- & md0 & Hmd & ->)|[_ Hmd]]; eauto.
Qed.

(** A query that stops waiting, and one that is not known yet. *)
Lemma inv_unwait f s k g :
  inv f s → (∀ md, md_retry_version (g md) = md_retry_version md ∧ md_is_waiting (g md) = false) →
  focus_le k f None → inv None (upd_md k g s).
Proof.
  intros Hi Hg Hf. eapply inv_upd_md; [done|done|intros; apply Hg|..].
  - intros md _ Hw. by rewrite (proj2 (Hg md)) in Hw.
  - intros md _ _ Hw. by rewrite (proj2 (Hg md)) in Hw.
Qed.
Lemma inv_insert_md s k md :
  inv None s → queryMetaData s !! k = None → md_is_waiting md = false → is_u64 (md_retry_version md) →
  inv None (upd_mds (insert k md) s).
Proof.
  intros [Ie Ir Iv Iw It Ih Iu Ic] Hk Hw Hu. constructor; try done.
  - intros rid m Hm Hdel. destruct (Ie rid m Hm Hdel) as (md' & Hmd & ?). exists md'. cbn.
    rewrite lookup_insert_ne; [done|]. intros ->. congruence.
  - intros k' md'. cbn. rewrite lookup_insert_Some. intros [[<- <-]|[_ ?]]; eauto.
  - intros k' md'. cbn. rewrite lookup_insert_Some. intros [[<- <-]|[_ ?]] ? Hw'; [congruence|]. by eapply Iw.
  - intros t Ht. specialize (It t Ht). destruct t as [d ab|x d ab|k' v d|k' v d ab|k' rid' v d ab|d pr]; try done.
    destruct It as [Hv H]. split; [done|]. intros Hk'. destruct (H Hk') as (md' & Hmd & ?). exists md'. cbn.
    rewrite lookup_insert_ne; [done|]. intros ->. congruence.
  - intros k' md'. cbn. rewrite lookup_insert_Some. intros [[<- <-]|[_ ?]] ?; [congruence|by eapply Ih].
Qed.
(** Members that do not matter here. *)
Lemma inv_upd_other f s k g :
  inv f s → (∀ md, md_retry_version (g md) = md_retry_version md ∧ md_is_waiting (g md) = md_is_waiting md ∧
               md_merged_ss_msg (g md) = md_merged_ss_msg md ∧ (md_has_query md = true → md_has_query (g md) = true)) →
  inv f (upd_md k g s).
Proof.
  intros Hi Hg. eapply (inv_upd_md f); [done|apply focus_le_refl|intros; apply Hg| |].
  { intros md Hmd. destruct (Hg md) as (_ & -> & _ & H4). intros Hw. by apply H4, (inv_has _ _ Hi k). }
  intros md Hmd Hdel. destruct (Hg md) as (H1 & H2 & H3 & _). rewrite H2. intros Hw.
  destruct (inv_waiting _ _ Hi k md Hmd Hdel Hw) as (m & Hm & Hok). exists m. split; [done|].
  unfold waiting_ok, merged in *. by rewrite H1, H3.
Qed.

(** The snapshot of a query loses or gets a transaction. *)
Lemma upd_merged_form k g s s' :
  upd_merged_txns k g s = Done s' →
  ∃ md ps, queryMetaData s !! k = Some md ∧ md_merged_ss_msg md = Some ps ∧ s' = upd_md k (md_set_merged (ps_upd g ps)) s.
Proof.
  unfold upd_merged_txns, get_md, md_merged_msg. destruct (queryMetaData s !! k) as [md|]; [|done].
  cbn. destruct (md_merged_ss_msg md) as [ps|] eqn:Hps; [|done]. intros [= <-]. eauto.
Qed.
Lemma upd_merged_inv f f' s s' k g :
  upd_merged_txns k g s = Done s' → inv f s → focus_le k f f' → (focused f k → focused f' k) →
  (∀ x d, d ∈ dom (g x) → d ∈ dom x ∨ (∀ v, ok s k v d) ∨ relaxed f' k d) → (∀ d, relaxed f k d → relaxed f' k d) →
  inv f' s'.
Proof.
  intros (md & ps & Hmd & Hps & ->)%upd_merged_form Hi Hle Hfoc Hg Hrel.
  eapply inv_upd_md; [done|done|done|exact (λ md', inv_has _ _ Hi k md')|].
  intros md' Hmd' Hdel Hw. assert (md' = md) as -> by congruence.
  destruct (inv_waiting _ _ Hi k md Hmd Hdel Hw) as (m & Hm & Hq & Hv & Hs & Hc & Hp). exists m. split; [done|].
  split_and!; [done|done|by eexists| |naive_solver].
  unfold merged. cbn. intros d Hd. destruct (Hg _ _ Hd) as [Hd'|[Hd'|Hd']]; [|by auto..].
  destruct (Hc d) as [?|?]; [unfold merged; by rewrite Hps|by auto..].
Qed.
Lemma dom_touch d x d' : d' ∈ dom (touch d x) ↔ d' = d ∨ d' ∈ dom x.
Proof. unfold touch. rewrite dom_insert. set_solver. Qed.

(** ** Checking a snapshot *)

Record evolves k rid s s' : Prop := {
  ev_deleted : alreadyDeleted s' = alreadyDeleted s;
  ev_mat : materialized (rq_core s) ⊆ materialized (rq_core s');
  ev_out : ∃ l, rq_out s' = rq_out s ++ l ∧ ∀ k v c ts txns, ExecOnSnapshot k v c ts txns ∉ l;
  ev_tasks : ∃ l, rq_tasks s' = rq_tasks s ++ l ∧ ∀ t, t ∈ l → update_of s' t;
  ev_md : ∀ md, queryMetaData s !! k = Some md → ∃ md', queryMetaData s' !! k = Some md' ∧
    md_retry_version md' = md_retry_version md ∧ md_is_waiting md' = md_is_waiting md;
  ev_missing : ∀ m, queryMissingTxns s !! rid = Some m →
    ∃ m', queryMissingTxns s' !! rid = Some m' ∧ mt_txns m ⊆ mt_txns m' ∧ mt_ts m ⊆ mt_ts m'
}.
Lemma update_of_mono s s' t :
  materialized (rq_core s) ⊆ materialized (rq_core s') → (∃ l, rq_out s' = rq_out s ++ l) → update_of s t → update_of s' t.
Proof. intros Hm Ho. destruct t; try done; cbn; by eapply okm_mono. Qed.

Lemma extends_evolves k rid s s' : extends s s' → evolves k rid s s'.
Proof. intros []. constructor; [done..| |]; rewrite ?ext_mds0, ?ext_missing0; eauto. Qed.
Lemma evolves_trans k rid s1 s2 s3 : evolves k rid s1 s2 → evolves k rid s2 s3 → evolves k rid s1 s3.
Proof.
  intros [A1 A2 (lo & Ao & Ho) (lt & At & Ht) A5 A6] [B1 B2 (lo' & Bo & Ho') (lt' & Bt & Ht') B5 B6].
  constructor; try (by etrans).
  - exists (lo ++ lo'). rewrite Bo, Ao, app_assoc. split; [done|]. intros ?????. rewrite elem_of_app. intros [?|?]; naive_solver.
  - exists (lt ++ lt'). rewrite Bt, At, app_assoc. split; [done|]. intros t [Hin|Hin]%elem_of_app; [|by apply Ht'].
    eapply update_of_mono; [done|by exists lo'|]. by apply Ht.
  - intros md Hmd. destruct (A5 md Hmd) as (md2 & Hmd2 & ? & ?). destruct (B5 md2 Hmd2) as (md3 & ? & ? & ?).
    exists md3. split_and!; [done|congruence..].
  - intros m Hm. destruct (A6 m Hm) as (m2 & Hm2 & ? & ?). destruct (B6 m2 Hm2) as (m3 & ? & ? & ?).
    exists m3. split_and!; [done|set_solver..].
Qed.
#[local] Instance evolves_preorder k rid : PreOrder (evolves k rid).
Proof. split; [intros s; by apply extends_evolves|intros ???; apply evolves_trans]. Qed.

Lemma upd_md_evolves k rid s g :
  (∀ md, md_retry_version (g md) = md_retry_version md ∧ md_is_waiting (g md) = md_is_waiting md) → evolves k rid s (upd_md k g s).
Proof.
  intros Hg. constructor; try done.
  - exists []. rewrite app_nil_r. split; [done|]. by intros ????? ?%elem_of_nil.
  - exists []. rewrite app_nil_r. split; [done|]. by intros t ?%elem_of_nil.
  - intros md Hmd. exists (g md). cbn. rewrite lookup_alter_eq, Hmd. destruct (Hg md). done.
  - intros m Hm. exists m. done.
Qed.
Lemma upd_merged_evolves k rid g s s' : upd_merged_txns k g s = Done s' → evolves k rid s s'.
Proof. intros (md & ps & _ & _ & ->)%upd_merged_form. by apply upd_md_evolves. Qed.
Lemma upd_missing_evolves k rid s s' g :
  rq_replica s' = rq_replica s → queryMetaData s' = queryMetaData s → alreadyDeleted s' = alreadyDeleted s →
  rq_tasks s' = rq_tasks s → rq_out s' = rq_out s → queryMissingTxns s' = alter g rid (queryMissingTxns s) →
  (∀ m, mt_txns m ⊆ mt_txns (g m) ∧ mt_ts m ⊆ mt_ts (g m)) → evolves k rid s s'.
Proof.
  intros E1 E2 E3 E4 E5 E6 Hg. constructor; rewrite ?E2; try done.
  - unfold rq_core. by rewrite E1.
  - exists []. rewrite app_nil_r. split; [done|]. by intros ????? ?%elem_of_nil.
  - exists []. rewrite app_nil_r. split; [done|]. by intros t ?%elem_of_nil.
  - eauto.
  - intros m Hm. exists (g m). rewrite E6, lookup_alter_eq, Hm. split; [done|apply Hg].
Qed.

Lemma WaitForMaterialization_evolves k d rid s s' ready :
  WaitForMaterialization d rid s = (s', ready) →
  evolves k rid s s' ∧
  if ready then s' = s ∧ d ∈ materialized (rq_core s)
  else d ∉ materialized (rq_core s) ∧
       queryMissingTxns s' = alter (add_missing_txn d) rid (queryMissingTxns s).
Proof.
  unfold WaitForMaterialization. case_bool_decide as Hd; intros [= <- <-]; [done|]. split; [|done].
  apply (upd_missing_evolves _ _ _ _ (add_missing_txn d)); try done. intros m. cbn. set_solver.
Qed.

Lemma no_wake_tasks s s' rid l :
  no_wake s rid → alreadyDeleted s' = alreadyDeleted s → rq_tasks s' = rq_tasks s ++ l → (∀ t, t ∈ l → update_of s' t) → no_wake s' rid.
Proof.
  intros Hw Hdel Ht Hl k v d ab. rewrite Ht, Hdel. intros [Hin|Hin]%elem_of_app; [by eapply Hw|]. by specialize (Hl _ Hin).
Qed.

Lemma CheckPresence_spec f k d rid rl s q s' q' ready :
  CheckPresence config optimisticTxID k d rid rl s q = Done (s', q', ready) →
  inv f s → no_wake s rid ∨ okm s d →
  inv f s' ∧ evolves k rid s s' ∧
  if ready then d ∈ materialized (rq_core s') ∧ queryMissingTxns s' = queryMissingTxns s
  else ∀ m, queryMissingTxns s !! rid = Some m → ∃ m', queryMissingTxns s' !! rid = Some m' ∧ d ∈ mt_txns m'.
Proof.
  unfold CheckPresence. intros H Hi Hw. apply bind_Done in H as (s1 & H1 & H). apply bind_Done in H as (q1 & _ & H).
  destruct (WaitForMaterialization d rid s1) as [s2 r2] eqn:H2. apply bind_Done in H as (s3 & H3 & [= <- <- <-]).
  assert (inv f s1 ∧ evolves k rid s s1 ∧ queryMissingTxns s1 = queryMissingTxns s) as (I1 & E1 & M1).
  { destruct (_ && _) in H1; [|by injection H1 as <-]. split_and!; [|by eapply upd_merged_evolves|].
    - eapply upd_merged_inv; [exact H1|done|apply focus_le_refl|done| |done]. intros x d'. rewrite dom_delete. set_solver.
    - apply upd_merged_form in H1 as (? & ? & _ & _ & ->). done. }
  assert (no_wake s1 rid ∨ okm s1 d) as Hw1.
  { destruct Hw as [Hw|Hw]; [left|right]; destruct E1 as [? ? (lo & ? & _) (l & ? & ?)].
    - by eapply no_wake_tasks.
    - eapply okm_mono; eauto. }
  pose proof (WaitForMaterialization_inv f s1 d rid s2 r2 I1 Hw1 H2) as I2.
  destruct (WaitForMaterialization_evolves k d rid s1 s2 r2 H2) as [E2 Hr].
  assert (extends s2 s3) as X3.
  { destruct (ongoing (rq_core s) !! d) as [p|]; [|by injection H3 as <-].
    destruct (_ && _) in H3; [|by injection H3 as <-].
    apply bind_Done in H3 as (t & _ & H3). by eapply RegisterForce_extends. }
  split_and!.
  - by eapply inv_extends.
  - etrans; [exact E1|]. etrans; [exact E2|]. by apply extends_evolves.
  - destruct X3 as [_ X _ _ _ _ _ Xm _]. rewrite X. destruct r2.
    + destruct Hr as [-> Hd]. rewrite M1. split; [set_solver|done].
    + destruct Hr as [_ ->]. intros m. rewrite M1. intros Hm. exists (add_missing_txn d m).
      rewrite lookup_alter_eq, Hm. split; [done|]. cbn. set_solver.
Qed.

(** What is unchecked shrinks. *)
Lemma inv_narrow k U U' s :
  inv (Some (k, U)) s →
  (∀ md m d, queryMetaData s !! k = Some md → queryMissingTxns s !! R k (md_retry_version md) = Some m → d ∈ U →
     d ∈ U' ∨ ok s k (md_retry_version md) d ∨ d ∈ mt_txns m) →
  inv (Some (k, U')) s.
Proof.
  intros [A B C D F HH HU64 HC] HU. constructor; try done.
  intros k' md Hk Hdel Hw. destruct (D k' md Hk Hdel Hw) as (m & Hm & Hq & Hv & Hs & Hc & Hp).
  exists m. split; [done|]. split_and!; [done..| |done]. intros d Hd.
  destruct (Hc d Hd) as [[-> Hu]|?]; [|by auto]. destruct (HU md m d Hk Hm Hu) as [?|?]; [by left|by right].
Qed.

(** What holds of the query under its lock. *)
Definition locked k rid s : Prop :=
  no_wake s rid ∧ (∃ md m, queryMetaData s !! k = Some md ∧ rid = R k (md_retry_version md) ∧ queryMissingTxns s !! rid = Some m).
Lemma locked_evolves k rid s s' : evolves k rid s s' → locked k rid s → locked k rid s'.
Proof.
  intros [Hdel Hmat Ho (l & Ht & Hl) Hm Hq] [Hw (md & m & Hmd & -> & Hm')]. split; [by eapply no_wake_tasks|].
  destruct (Hm md Hmd) as (md' & ? & Hv & _). destruct (Hq m Hm') as (m' & ? & _). exists md', m'.
  by rewrite Hv.
Qed.

Lemma CheckPresenceTS_spec k U x rid rl s q s' q' ready :
  CheckPresenceTS config optimisticTxID k x rid rl s q = Done (s', q', ready) →
  locked k rid s → inv (Some (k, U)) s →
  inv (Some (k, U)) s' ∧ evolves k rid s s' ∧
  if ready then queryMissingTxns s' = queryMissingTxns s
  else ∃ m', queryMissingTxns s' !! rid = Some m' ∧ nothing_missing m' = false.
Proof.
  unfold CheckPresenceTS. intros H [Hw (md & m & Hmd & Hrid & Hm)] Hi. destruct (rq_ts_to_tx s !! x) as [d|] eqn:Hreg.
  2:{ apply bind_Done in H as (q1 & _ & [= <- <- <-]). split_and!.
      - by apply WaitForTX_inv.
      - apply (upd_missing_evolves _ _ _ _ (add_missing_ts x)); try done. intros m'. cbn. set_solver.
      - exists (add_missing_ts x m). cbn. rewrite lookup_alter_eq, Hm. split; [done|].
        apply andb_false_iff. right. apply bool_decide_eq_false_2. cbn. set_solver. }
  apply bind_Done in H as (s1 & H1 & H).
  assert (inv (Some (k, U ∪ {[d]})) s1 ∧ evolves k rid s s1 ∧ queryMissingTxns s1 = queryMissingTxns s) as (I1 & E1 & M1).
  { assert (∀ d', relaxed (Some (k, U)) k d' → relaxed (Some (k, U ∪ {[d]})) k d') as Hr by (cbn; set_solver).
    assert (focus_le k (Some (k, U)) (Some (k, U ∪ {[d]}))) as Hf by (intros k' ?; cbn; naive_solver).
    case_bool_decide.
    - injection H1 as <-. split_and!; [|done|done]. destruct Hi as [A B C D F HH HU64 HC]. constructor; try done.
      intros k' md' Hk' Hdel Hwt. destruct (D k' md' Hk' Hdel Hwt) as (m' & Hm' & Hok). exists m'. split; [done|].
      eapply waiting_ok_focus; [..|exact Hok]; [done|]. intros d'. cbn. set_solver.
    - split_and!; [|by eapply upd_merged_evolves|by apply upd_merged_form in H1 as (? & ? & _ & _ & ->)].
      eapply upd_merged_inv; [exact H1|done|done|done| |done]. intros y d'. rewrite dom_touch. cbn. set_solver. }
  destruct (CheckPresence_spec _ _ _ _ _ _ _ _ _ _ H I1) as (I2 & E2 & Hr).
  { left. destruct E1 as [Hdel _ _ (l & Ht & Hl)]. by eapply no_wake_tasks. }
  assert (ready = true → d ∈ materialized (rq_core s')) as Hready by (intros ->; apply Hr).
  split_and!; [|by etrans|].
  - eapply inv_narrow; [exact I2|]. intros md' m' d' Hmd' Hm' [Hu| ->%elem_of_singleton]%elem_of_union; [by left|right].
    destruct ready; [left; left; left; by apply Hready|].
    destruct (ev_md _ _ _ _ E1 md Hmd) as (md1 & Hmd1 & Hv1 & _).
    destruct (ev_md _ _ _ _ E2 md1 Hmd1) as (md2 & Hmd2 & Hv2 & _). assert (md2 = md') as -> by congruence.
    destruct (Hr m) as (m2 & Hm2 & Hd2); [by rewrite M1|]. right. congruence.
  - destruct ready; [destruct Hr as [_ ->]; done|]. destruct (Hr m) as (m2 & Hm2 & Hd2); [by rewrite M1|].
    exists m2. split; [done|]. apply andb_false_iff. left. apply bool_decide_eq_false_2. set_solver.
Qed.

(** A transaction of the snapshot that is dealt with. *)
Definition dealt k rid s d : Prop := okm s d ∨ ∃ m, queryMissingTxns s !! rid = Some m ∧ d ∈ mt_txns m.
Lemma dealt_evolves k rid s s' d : evolves k rid s s' → dealt k rid s d → dealt k rid s' d.
Proof.
  intros [_ Hm (l & Ho & _) _ _ Hq] [H|(m & H & Hd)]; [left; eapply okm_mono; eauto|right].
  destruct (Hq m H) as (m' & ? & ? & _). exists m'. split; [done|set_solver].
Qed.

(** The loops over the snapshot keep the invariant, and deal with each of
    their elements. *)
Definition loop_ok k rid U s0 (acc : rserver * gmap Z RequestMissingTxns * bool) : Prop :=
  let s := acc.1.1 in
  inv (Some (k, U)) s ∧ evolves k rid s0 s ∧
  if acc.2 : bool then queryMissingTxns s !! rid = queryMissingTxns s0 !! rid
  else ∃ m, queryMissingTxns s !! rid = Some m ∧ nothing_missing m = false.
Lemma missing_grows m m' : mt_txns m ⊆ mt_txns m' → mt_ts m ⊆ mt_ts m' → nothing_missing m = false → nothing_missing m' = false.
Proof.
  unfold nothing_missing. rewrite !andb_false_iff, !bool_decide_eq_false. intros H1 H2 [?|?]; [left|right]; set_solver.
Qed.
Lemma loop_step k rid U s0 s q full s' q' (ready : bool) :
  loop_ok k rid U s0 (s, q, full) → evolves k rid s s' → inv (Some (k, U)) s' →
  (if ready then queryMissingTxns s' !! rid = queryMissingTxns s !! rid
   else ∃ m, queryMissingTxns s' !! rid = Some m ∧ nothing_missing m = false) →
  loop_ok k rid U s0 (s', q', full && ready).
Proof.
  intros (Hi & He & Hf) He' Hi' Hr. cbn in Hi, He, Hf. split_and!; [done|by etrans|]. cbn.
  destruct full, ready; cbn; [congruence|done| |done].
  destruct Hf as (m & Hm & Hn). destruct (ev_missing _ _ _ _ He' m Hm) as (m' & Hm' & H1 & H2). exists m'.
  split; [done|by eapply missing_grows].
Qed.
Lemma check_txn_ok k rid U s0 acc acc' e :
  check_txn config optimisticTxID k rid acc e = Done acc' → locked k rid s0 → loop_ok k rid U s0 acc →
  loop_ok k rid U s0 acc' ∧ evolves k rid acc.1.1 acc'.1.1 ∧ dealt k rid acc'.1.1 e.1.
Proof.
  destruct acc as [[s q] full]. unfold check_txn. intros H Hl HP. pose proof HP as (Hi & He & Hf).
  apply bind_Done in H as ([[s' q'] ready] & H & [= <-]).
  destruct (locked_evolves _ _ _ _ He Hl) as [Hw (md & m & Hmd & -> & Hm)].
  destruct (CheckPresence_spec _ _ _ _ _ _ _ _ _ _ H Hi (or_introl Hw)) as (Hi' & He' & Hr).
  split_and!; [|done|]; cbn.
  - eapply loop_step; [done..|]. destruct ready; [by destruct Hr as [_ ->]|].
    destruct (Hr m Hm) as (m' & Hm' & Hd). exists m'. split; [done|].
    apply andb_false_iff. left. apply bool_decide_eq_false_2. set_solver.
  - destruct ready; [left; left; apply Hr|right]. by apply Hr in Hm.
Qed.
Lemma check_map_txn_ok k rid U s0 acc acc' e :
  check_map_txn config optimisticTxID k rid acc e = Done acc' → locked k rid s0 → loop_ok k rid U s0 acc →
  loop_ok k rid U s0 acc' ∧ evolves k rid acc.1.1 acc'.1.1 ∧ dealt k rid acc'.1.1 e.1.
Proof. unfold check_map_txn. case_match; [done|]. apply check_txn_ok. Qed.
Lemma check_utf_txn_ok k rid U s0 acc acc' e :
  e.1 ∈ U → check_utf_txn config optimisticTxID k rid acc e = Done acc' → locked k rid s0 → loop_ok k rid U s0 acc →
  loop_ok k rid U s0 acc' ∧ evolves k rid acc.1.1 acc'.1.1 ∧ dealt k rid acc'.1.1 e.1.
Proof.
  destruct acc as [[s q] full]. unfold check_utf_txn. intros HU H Hl HP. pose proof HP as (Hi & He & Hf).
  apply bind_Done in H as (s1 & H1 & H). pose proof (upd_merged_evolves k rid _ _ _ H1) as E1.
  assert (loop_ok k rid U s0 (s1, q, full && true)) as HP1.
  { eapply loop_step; [done..| |by apply upd_merged_form in H1 as (? & ? & _ & _ & ->)].
    eapply upd_merged_inv; [exact H1|done|apply focus_le_refl|done| |done]. intros x d. rewrite dom_touch. cbn.
    intros [->|?]; auto. }
  rewrite andb_true_r in HP1. destruct (check_txn_ok _ _ _ _ _ _ _ H Hl HP1) as (? & ? & ?).
  split_and!; [done| |done]. cbn in *. by etrans.
Qed.
Lemma check_ts_ok k rid U s0 acc acc' e :
  check_ts config optimisticTxID k rid acc e = Done acc' → locked k rid s0 → loop_ok k rid U s0 acc →
  loop_ok k rid U s0 acc' ∧ evolves k rid acc.1.1 acc'.1.1 ∧ True.
Proof.
  destruct acc as [[s q] full]. unfold check_ts. intros H Hl HP. pose proof HP as (Hi & He & Hf).
  apply bind_Done in H as ([[s' q'] ready] & H & [= <-]).
  destruct (CheckPresenceTS_spec _ _ _ _ _ _ _ _ _ _ H (locked_evolves _ _ _ _ He Hl) Hi) as (Hi' & He' & Hr).
  split_and!; [|done|done]. eapply loop_step; [done..|]. destruct ready; [by rewrite Hr|done].
Qed.

Lemma fold_loop {A} (step : rserver * gmap Z RequestMissingTxns * bool → A → outcome (rserver * gmap Z RequestMissingTxns * bool))
    (C : rserver → A → Prop) k rid U s0 l acc acc' :
  (∀ acc e acc', e ∈ l → step acc e = Done acc' → loop_ok k rid U s0 acc →
     loop_ok k rid U s0 acc' ∧ evolves k rid acc.1.1 acc'.1.1 ∧ C acc'.1.1 e) →
  (∀ s s' e, evolves k rid s s' → C s e → C s' e) →
  foldO step acc l = Done acc' → loop_ok k rid U s0 acc →
  loop_ok k rid U s0 acc' ∧ evolves k rid acc.1.1 acc'.1.1 ∧ ∀ e, e ∈ l → C acc'.1.1 e.
Proof.
  intros Hs HC. revert acc. induction l as [|e l IH]; intros acc H HP; cbn in H.
  { injection H as <-. split_and!; [done|done|]. by intros e ?%elem_of_nil. }
  apply bind_Done in H as (acc1 & H1 & H). destruct (Hs acc e acc1) as (P1 & E1 & C1); [by left|done..|].
  destruct (IH (λ acc e acc' He, Hs acc e acc' (list_elem_of_further _ _ _ He)) acc1 H P1) as (P2 & E2 & C2).
  split_and!; [done|by etrans|]. intros e' [->|?]%elem_of_cons; [by eapply HC|by apply C2].
Qed.

Lemma CheckSnapshot_spec k rid opt ss s s' q full :
  CheckSnapshot config optimisticTxID k rid opt ss s = Done (s', q, full) → locked k rid s →
  inv (Some (k, dom (ms_txns (ps_merged ss)))) s →
  (opt = true → ∀ md d, queryMetaData s !! k = Some md → d ∈ dom (ms_txns (ps_merged ss)) → ok s k (md_retry_version md) d) →
  inv (Some (k, ∅)) s' ∧ evolves k rid s s' ∧
  if full then queryMissingTxns s' !! rid = queryMissingTxns s !! rid
  else ∃ m, queryMissingTxns s' !! rid = Some m ∧ nothing_missing m = false.
Proof.
  unfold CheckSnapshot. intros H Hl Hi Hopt. destruct opt.
  - assert (loop_ok k rid ∅ s (s, ∅, true)) as P0.
    { split_and!; [|done|done]. cbn. eapply inv_narrow; [exact Hi|]. intros md m d Hmd _ Hd. right; left. by apply Hopt. }
    destruct (fold_loop (check_ts config optimisticTxID k rid) (λ _ _, True) k rid ∅ s _ _ _
      (λ acc e acc' _ Hst HP, check_ts_ok _ _ _ _ _ _ _ Hst Hl HP) (λ _ _ _ _ _, I) H P0) as (H1 & _). exact H1.
  - set (U := dom (ms_txns (ps_merged ss)) ∪ list_to_set (ps_utf ss).*1).
    apply bind_Done in H as (acc & H1 & H). apply bind_Done in H as ([[s2 q2] full2] & H2 & [= <- <- <-]).
    assert (loop_ok k rid U s (s, ∅, true)) as P0.
    { split_and!; [|done|done]. cbn. eapply inv_narrow; [exact Hi|]. intros md m d _ _ Hd. left. set_solver. }
    assert (∀ s1 s2 (e : digest * ReplicaList), evolves k rid s1 s2 → dealt k rid s1 e.1 → dealt k rid s2 e.1) as Hd
      by (intros ???; apply dealt_evolves).
    destruct (fold_loop _ _ k rid U s _ _ _ (λ acc e acc' _ Hst HP, check_map_txn_ok _ _ _ _ _ _ _ Hst Hl HP) Hd H1 P0)
      as (P1 & E1 & C1).
    assert (∀ e, e ∈ ps_utf ss → e.1 ∈ U) as HU.
    { intros e He. apply elem_of_union_r, elem_of_list_to_set, list_elem_of_fmap. eauto. }
    destruct (fold_loop _ _ k rid U s _ _ _ (λ acc e acc' He Hst HP, check_utf_txn_ok _ _ _ _ _ _ _ (HU e He) Hst Hl HP) Hd H2 P1)
      as (P2 & E2 & C2).
    clear Hd.
    destruct P2 as (Hi2 & Hev & Hf). cbn in *. set (g := λ md, _).
    assert (∀ md, md_retry_version (g md) = md_retry_version md ∧ md_is_waiting (g md) = md_is_waiting md ∧
      merged (g md) = merged md ∧ (is_Some (md_merged_ss_msg md) → is_Some (md_merged_ss_msg (g md))) ∧
      md_has_query (g md) = md_has_query md) as Hg.
    { intros md. unfold g, merged. destruct (md_merged_ss_msg md) eqn:Heq; cbn; rewrite ?Heq; split_and!; eauto. }
    assert (inv (Some (k, ∅)) s2) as Hi3.
    { eapply inv_narrow; [exact Hi2|]. intros md m d Hmd Hm Hd. right.
      destruct (locked_evolves _ _ _ _ Hev Hl) as [_ (md' & m' & Hmd' & -> & Hm')]. assert (md' = md) as -> by congruence.
      assert (dealt k (R k (md_retry_version md)) s2 d) as [?|(m2 & ? & ?)].
      { unfold U in Hd. apply elem_of_union in Hd as [Hd|Hd].
        - apply elem_of_dom in Hd as [rl Hrl]. eapply dealt_evolves; [exact E2|]. apply (C1 (d, rl)).
          by apply elem_of_map_to_list.
        - apply elem_of_list_to_set, list_elem_of_fmap in Hd as (e & -> & He). by apply C2. }
      - by left; left.
      - right. congruence. }
    split_and!; [|etrans; [exact Hev|]; apply upd_md_evolves; intros; split; apply Hg|done].
    eapply inv_upd_md; [exact Hi3|apply focus_le_refl|apply Hg| |].
    { intros md. destruct (Hg md) as (_ & -> & _ & _ & ->). apply (inv_has _ _ Hi3 k). }
    intros md Hmd Hdel. destruct (Hg md) as (G1 & G2 & G3 & G4 & _). rewrite G2. intros Hw.
    destruct (inv_waiting _ _ Hi3 k md Hmd Hdel Hw) as (m & Hm & A & B & C & D). exists m. split; [done|].
    unfold waiting_ok. rewrite G1, G3. destruct D as [D1 D2]. split_and!; [done..|by apply G4|done|done].
Qed.

(** ** Execution *)

Definition keeps_md (g : QueryMetaData → QueryMetaData) : Prop :=
  ∀ md, md_retry_version (g md) = md_retry_version md ∧ md_is_waiting (g md) = md_is_waiting md ∧
        md_merged_ss_msg (g md) = md_merged_ss_msg md ∧ (md_has_query md = true → md_has_query (g md) = true).
Definition touches k s s' : Prop := ∃ g, keeps_md g ∧ extends (upd_md k g s) s'.

Lemma extends_upd_md k g s s' : extends s s' → extends (upd_md k g s) (upd_md k g s').
Proof. intros []. constructor; try done. cbn. by rewrite ext_mds0. Qed.
Lemma extends_touches k s s' : extends s s' → touches k s s'.
Proof.
  intros H. exists id. split; [done|]. destruct H. constructor; try done. cbn. rewrite ext_mds0.
  apply map_eq. intros i. rewrite lookup_alter. case_decide as Hki; [rewrite Hki|done]. by destruct (queryMetaData s !! i).
Qed.
Lemma upd_md_touches k g s : keeps_md g → touches k s (upd_md k g s).
Proof. intros Hg. by exists g. Qed.
Lemma touches_trans k s1 s2 s3 : touches k s1 s2 → touches k s2 s3 → touches k s1 s3.
Proof.
  intros (g1 & K1 & E1) (g2 & K2 & E2). exists (λ md, g2 (g1 md)). split.
  { intros md. destruct (K1 md) as (A1 & A2 & A3 & A4), (K2 (g1 md)) as (B1 & B2 & B3 & B4). split_and!; [congruence..|auto]. }
  etrans; [|exact E2]. etrans; [|by apply extends_upd_md]. constructor; try done; [..|by left].
  - cbn. by rewrite alter_alter_eq.
  - exists []. rewrite app_nil_r. split; [done|]. by intros t ?%elem_of_nil.
  - exists []. rewrite app_nil_r. split; [done|]. by intros ????? ?%elem_of_nil.
Qed.
Lemma inv_touches f k s s' : inv f s → touches k s s' → inv f s'.
Proof. intros Hi (g & Hg & He). eapply inv_extends; [|exact He]. by apply inv_upd_other. Qed.

Lemma get_md_Done s k md : get_md s k = Done md ↔ queryMetaData s !! k = Some md.
Proof. unfold get_md. destruct (queryMetaData s !! k); naive_solver. Qed.
Lemma set_rts_all_extends ts rs s : extends s (set_rts_all mvtso ts rs s).
Proof.
  unfold set_rts_all. case_match; [|done]. apply extends_replica; [|done]. cbn. fold (rq_core s).
  apply (foldl_inv (λ c, materialized c = materialized (rq_core s))); [|done].
  intros c r _ <-. unfold SetRTS. by repeat case_match.
Qed.
Lemma GetQueryPolicies_touches k s s' : GetQueryPolicies no_proof k s = Done s' → touches k s s'.
Proof.
  unfold GetQueryPolicies. intros (md & _ & (ps & _ & [= <-])%bind_Done)%bind_Done. by apply upd_md_touches.
Qed.
Lemma SendQueryReply_touches k s s' : SendQueryReply blake3 sign_result hashQueryGenId k s = Done s' → touches k s s'.
Proof.
  unfold SendQueryReply. intros (md & _ & H)%bind_Done. case_match; [injection H as <-; by apply upd_md_touches|].
  case_match; [|done]. injection H as <-.
  eapply touches_trans; [|by apply extends_touches, extends_out1].
  eapply touches_trans; [|apply upd_md_touches; done]. apply upd_md_touches. done.
Qed.
Lemma finish_touches k (ip : bool) version s s' :
  (s ← (if ip then GetQueryPolicies no_proof k s else Done s);
   s ← SendQueryReply blake3 sign_result hashQueryGenId k s;
   Done (if cacheReadSet then add_out [WakeSubscribedTx k version] s else s)) = Done s' → touches k s s'.
Proof.
  intros (s1 & H1 & (s2 & H2 & [= <-])%bind_Done)%bind_Done.
  assert (touches k s s1) as T1.
  { destruct ip; [by apply GetQueryPolicies_touches|injection H1 as <-; by apply extends_touches]. }
  eapply touches_trans; [exact T1|]. eapply touches_trans; [by eapply SendQueryReply_touches|]. apply extends_touches.
  destruct cacheReadSet; [|done]. by apply extends_out1.
Qed.

(** What an execution records and how it leaves the query. *)
Definition callback k s s' : Prop :=
  ∃ md g, queryMetaData s !! k = Some md ∧
    (∀ md, md_retry_version (g md) = md_retry_version md ∧ md_is_waiting (g md) = false) ∧
    extends (upd_md k g (add_out [ExecOnSnapshot k (md_retry_version md) (md_query_cmd md) (md_ts md) (dom (merged md))] s)) s'.
Lemma HandleSyncCallback_spec tb k ip s s' :
  HandleSyncCallback blake3 sign_result no_proof hashQueryGenId mvtso tb k ip s = Done s' → callback k s s'.
Proof.
  unfold HandleSyncCallback. intros (md & Hmd%get_md_Done & H)%bind_Done. apply bind_Done in H as (ps & Hps & H).
  unfold md_merged_msg in Hps. destruct (md_merged_ss_msg md) as [ps'|] eqn:Heq; [|done]. injection Hps as ->.
  destruct (tb_ExecOnMaterializedSnapshot _ _ _ _) as [res rs]. apply finish_touches in H as (g2 & G2 & He).
  exists md. set (g1 := λ md, _) in He. exists (λ md, g2 (g1 md)). split; [done|]. split.
  { intros md'. destruct (G2 (g1 md')) as (-> & -> & _). done. }
  etrans; [|exact He]. set (s0 := add_out _ s) in *. unfold merged. rewrite Heq. fold s0.
  pose proof (set_rts_all_extends (md_ts md) rs s0) as Hr. apply (extends_upd_md k g1), (extends_upd_md k g2) in Hr.
  etrans; [|exact Hr]. constructor; try done; [..|by left].
  - cbn. by rewrite alter_alter_eq.
  - exists []. rewrite app_nil_r. split; [done|]. by intros t ?%elem_of_nil.
  - exists []. rewrite app_nil_r. split; [done|]. by intros ????? ?%elem_of_nil.
Qed.
Lemma ExecQueryEagerly_touches tb k ip s s' :
  ExecQueryEagerly blake3 sign_result no_proof compressOptimisticTxIDs eagerPlusSnapshot hashQueryGenId mvtso tb k ip s = Done s' →
  touches k s s'.
Proof.
  unfold ExecQueryEagerly. intros (md & _ & H)%bind_Done. apply bind_Done in H as ([[res rs] ls] & _ & H).
  eapply touches_trans; [apply extends_touches, set_rts_all_extends|]. eapply touches_trans; [|by eapply finish_touches].
  by apply upd_md_touches.
Qed.

(** ** Steps *)

(** A step keeps the invariant, and what it executes is covered. *)
Definition covered_exec s s' : Prop :=
  ∃ l, rq_out s' = rq_out s ++ l ∧ ∀ k v c ts txns, ExecOnSnapshot k v c ts txns ∈ l → k ∉ alreadyDeleted s →
    ∀ d, d ∈ txns → ok s' k v d.
Definition good s s' : Prop := inv None s' ∧ covered_exec s s'.
Lemma no_exec_covered s s' :
  (∃ l, rq_out s' = rq_out s ++ l ∧ ∀ k v c ts txns, ExecOnSnapshot k v c ts txns ∉ l) → covered_exec s s'.
Proof. intros (l & Ho & Hl). exists l. split; [done|]. intros k v c ts txns Hin. by destruct (Hl k v c ts txns). Qed.
Lemma extends_good s s' : inv None s → extends s s' → good s s'.
Proof. intros Hi He. split; [by eapply inv_extends|]. apply no_exec_covered. apply He. Qed.
Lemma touches_good k s s' : inv None s → touches k s s' → good s s'.
Proof. intros Hi He. split; [by eapply inv_touches|]. apply no_exec_covered. destruct He as (g & _ & He). apply (ext_out _ _ He). Qed.
Lemma good_refl s : inv None s → good s s.
Proof. intros. by apply extends_good. Qed.
(** Steps in front that execute nothing. *)
Lemma good_after s s1 s' :
  alreadyDeleted s1 = alreadyDeleted s → (∃ l, rq_out s1 = rq_out s ++ l ∧ ∀ k v c ts txns, ExecOnSnapshot k v c ts txns ∉ l) →
  good s1 s' → good s s'.
Proof.
  intros Hdel (l & Ho & Hl) [Hi (l' & Ho' & Hl')]. split; [done|]. exists (l ++ l'). rewrite Ho', Ho, app_assoc. split; [done|].
  intros k v c ts txns [Hin|Hin]%elem_of_app Hk; [by destruct (Hl k v c ts txns)|]. eapply Hl'; [done|by rewrite Hdel].
Qed.

Lemma came_out1 s e x : (∀ d ts ab, e ≠ MaterializedTx d ts ab) → came (add_out [e] s) x → came s x.
Proof.
  intros He [Ho (d & ts & ab & [Hin|Hin%list_elem_of_singleton]%elem_of_app & Hx)]; [split; eauto|]. by destruct (He d ts ab).
Qed.
(** The execution of a query whose snapshot is covered. *)
Lemma callback_good f k s s' :
  callback k s s' → inv f s → focus_le k f None →
  (∀ md d, queryMetaData s !! k = Some md → k ∉ alreadyDeleted s → d ∈ dom (merged md) → ok s k (md_retry_version md) d) →
  good s s'.
Proof.
  intros (md & g & Hmd & Hg & He) Hi Hf Hc. set (s1 := upd_md k g _) in He.
  assert (inv None s1) as Hi1.
  { apply (inv_unwait f); [|done|done]. destruct Hi as [A B C D F HH HU64 HC]. constructor; try done; cycle 3.
    { intros x Hx%came_out1; [by apply HC|done]. }
    { intros rid m Hm. destruct (B rid m Hm) as [Ha Hb]. split; [done|]. intros x Hx. destruct (Hb x Hx) as [? Hcame].
      split; [done|]. intros Hx'%came_out1; [by apply Hcame|done]. }
    - intros k' md' Hk' Hdel Hw. destruct (D k' md' Hk' Hdel Hw) as (m & Hm & Hq & Hv & Hs & Hcov & Hp).
      exists m. split; [done|]. split_and!; [done..| |done]. intros d Hd. destruct (Hcov d Hd) as [?|[?|?]]; [by left|right; left|by auto].
      apply (ok_mono s); [done| |done]. by eexists.
    - intros t Ht. apply (task_ok_ext s); [done..| |by apply F]. intros d. apply okm_mono; [done|]. by eexists. }
  split; [by eapply inv_extends|]. destruct (ext_out _ _ He) as (l & Ho & Hl).
  exists (ExecOnSnapshot k (md_retry_version md) (md_query_cmd md) (md_ts md) (dom (merged md)) :: l).
  rewrite Ho. cbn. rewrite <- app_assoc. split; [done|]. intros k' v c ts txns [Heq|Hin]%elem_of_cons Hk'; [|by destruct (Hl k' v c ts txns)].
  injection Heq as -> -> -> -> ->. intros d Hd. apply (ok_mono s); [apply (ext_mat _ _ He)| |by apply (Hc md)].
  rewrite Ho. cbn. rewrite <- app_assoc. by eexists.
Qed.

(** ** Synchronization *)

Lemma inv_unfocus k s :
  inv (Some (k, ∅)) s →
  (∀ md m, queryMetaData s !! k = Some md → k ∉ alreadyDeleted s → md_is_waiting md = true →
     queryMissingTxns s !! R k (md_retry_version md) = Some m →
     nothing_missing m = false ∨ pending s k (md_retry_version md)) →
  inv None s.
Proof.
  intros [A B C D F HH HU64 HC] H. constructor; try done.
  intros k' md Hk Hdel Hw. destruct (D k' md Hk Hdel Hw) as (m & Hm & Hq & Hv & Hs & Hc & Hp).
  exists m. split; [done|]. split_and!; [done..| |].
  - intros d Hd. destruct (Hc d Hd) as [[_ []%elem_of_empty]|?]. by right.
  - destruct Hp as [Heq|?]; [|by right]. cbn in Heq. rewrite Heq in *. right. by apply (H md m).
Qed.

(** The entry of the current version is made, and taken back. *)
Lemma inv_open s k md ss :
  inv None s → queryMetaData s !! k = Some md → md_has_query md = true → queryMissingTxns s !! R k (md_retry_version md) = None →
  let s' := upd_missing (insert (R k (md_retry_version md)) (mkMissing ∅ ∅ k (md_retry_version md)))
              (upd_md k (λ md, md_set_waiting true (md_set_merged ss md)) s) in
  inv (Some (k, dom (ms_txns (ps_merged ss)))) s' ∧ locked k (R k (md_retry_version md)) s'.
Proof.
  intros Hi Hmd Hq0 Hno s'. set (g := λ md, md_set_waiting true (md_set_merged ss md)) in *.
  set (rid := R k (md_retry_version md)) in *. set (e := mkMissing ∅ ∅ k (md_retry_version md)) in *.
  pose proof (inv_version _ _ Hi k md Hmd) as Hu.
  assert (no_wake s rid) as Hnw.
  { intros k' v d ab Hin Hdel Heq. destruct (inv_tasks _ _ Hi _ Hin) as [Hv H]. destruct (H Hdel) as (md' & Hmd' & _ & Hm).
    destruct (R_inj _ _ _ _ Heq Hv Hu) as [-> ->]. assert (md' = md) as -> by congruence.
    destruct (Hm eq_refl) as (m & ? & _). unfold rid in Hno. congruence. }
  split.
  - destruct Hi as [A B C D F HH HU64 HC]. constructor; try done.
    + intros rid' m. cbn. rewrite lookup_insert_Some. intros [[<- <-]|[Hne Hm]] Hdel.
      * exists (g md). rewrite lookup_alter_eq, Hmd. done.
      * destruct (A rid' m Hm Hdel) as (md' & Hmd' & Hv & Hr). destruct (decide (k = mt_query_id m)) as [->|?].
        -- assert (md' = md) as -> by congruence. destruct Hne. rewrite Hr. unfold rid. by rewrite Hv.
        -- exists md'. by rewrite lookup_alter_ne.
    + intros rid' m. cbn. rewrite lookup_insert_Some. intros [[<- <-]|[Hne Hm]]; [|by apply B].
      split; cbn; set_solver.
    + intros k' md'. cbn. rewrite lookup_alter_Some. intros [(<- & md0 & Hmd0 & ->)|[_ ?]]; [|by eapply C].
      by apply (C k md0).
    + intros k' md'. cbn. rewrite lookup_alter_Some. intros [(<- & md0 & Hmd0 & ->)|[Hne Hmd']] Hdel Hw.
      * assert (md0 = md) as -> by congruence. exists e. cbn. fold rid. rewrite lookup_insert_eq. split; [done|].
        split_and!; [done..|by eexists| |by left]. intros d Hd. by left.
      * destruct (D k' md' Hmd' Hdel Hw) as (m & Hm & Hq & Hv & Hs & Hc & Hp). exists m.
        rewrite lookup_insert_ne by congruence. split; [done|]. split_and!; [done..| |destruct Hp as [[]|?]; by right].
        intros d Hd. destruct (Hc d Hd) as [[]|?]. by right.
    + intros t Ht. specialize (F t Ht). destruct t as [d ab|x d ab|k' v d|k' v d ab|k' rid' v d ab|d pr]; try done.
      destruct F as [Hv H]. split; [done|]. cbn. intros Hdel. destruct (H Hdel) as (md' & Hmd' & Hle & Hm).
      assert (R k' v ≠ rid) as Hne by (intros Heq; by eapply (Hnw k')).
      destruct (decide (k = k')) as [->|?].
      * exists (g md'). rewrite lookup_alter_eq, Hmd'. split_and!; [done..|]. by rewrite lookup_insert_ne.
      * exists md'. rewrite lookup_alter_ne by done. split_and!; [done..|]. by rewrite lookup_insert_ne.
    + intros k' md'. cbn. rewrite lookup_alter_Some. intros [(<- & md0 & Hmd0 & ->)|[_ ?]]; [|by eapply HH].
      intros _. assert (md0 = md) as -> by congruence. done.
    + intros rid' m. cbn. rewrite lookup_insert_Some. intros [[<- <-]|[_ ?]]; [done|by eapply HU64].
  - split; [exact Hnw|]. exists (g md), e. cbn. rewrite lookup_alter_eq, lookup_insert_eq, Hmd. done.
Qed.
Lemma inv_close U s k md :
  inv (Some (k, U)) s → queryMetaData s !! k = Some md → no_wake s (R k (md_retry_version md)) →
  inv None (upd_md k (md_set_waiting false) (upd_missing (delete (R k (md_retry_version md))) s)).
Proof.
  intros [A B C D F HH HU64 HC] Hmd Hnw. pose proof (C k md Hmd) as Hu. set (rid := R k _) in *. constructor; try done.
  - intros rid' m. cbn. rewrite lookup_delete_Some. intros [Hne Hm] Hdel.
    destruct (A rid' m Hm Hdel) as (md' & Hmd' & Hv & Hr). destruct (decide (k = mt_query_id m)) as [->|?].
    + exists (md_set_waiting false md'). rewrite lookup_alter_eq, Hmd'. done.
    + exists md'. by rewrite lookup_alter_ne.
  - intros rid' m. cbn. rewrite lookup_delete_Some. intros [_ ?]. by apply B.
  - intros k' md'. cbn. rewrite lookup_alter_Some. intros [(<- & md0 & Hmd0 & ->)|[_ ?]]; [|by eapply C]. by apply (C k md0).
  - intros k' md'. cbn. rewrite lookup_alter_Some. intros [(<- & md0 & Hmd0 & ->)|[Hne Hmd']] Hdel Hw; [done|].
    destruct (D k' md' Hmd' Hdel Hw) as (m & Hm & Hq & Hv & Hs & Hc & Hp). exists m.
    rewrite lookup_delete_ne. 2:{ intros Heq. destruct (R_inj _ _ _ _ Heq Hu (C k' md' Hmd')). congruence. }
    split; [done|]. split_and!; [done..| |destruct Hp as [Heq|?]; [cbn in Heq; congruence|by right]].
    intros d Hd. destruct (Hc d Hd) as [[? _]|?]; [congruence|by right].
  - intros t Ht. specialize (F t Ht). destruct t as [d ab|x d ab|k' v d|k' v d ab|k' rid' v d ab|d pr]; try done.
    destruct F as [Hv H]. split; [done|]. cbn. intros Hdel. destruct (H Hdel) as (md' & Hmd' & Hle & Hm).
    assert (rid ≠ R k' v) as Hne by (intros Heq; by eapply (Hnw k')).
    destruct (decide (k = k')) as [->|?].
    + exists (md_set_waiting false md'). rewrite lookup_alter_eq, Hmd'. split_and!; [done..|]. by rewrite lookup_delete_ne.
    + exists md'. rewrite lookup_alter_ne by done. split_and!; [done..|]. by rewrite lookup_delete_ne.
  - intros k' md'. cbn. rewrite lookup_alter_Some. intros [(<- & md0 & Hmd0 & ->)|[_ ?]]; [done|by eapply HH].
  - intros rid' m. cbn. rewrite lookup_delete_Some. intros [_ ?]. by eapply HU64.
Qed.

(** The end of [ProcessSync], with and without missing transactions. *)
Local Notation requests_of q := ((λ e, SendRequestMissing e.1 e.2) <$> map_to_list q).
Lemma requests_quiet (q : gmap Z RequestMissingTxns) e : e ∈ requests_of q → quiet e.
Proof. rewrite list_elem_of_fmap. by intros ([? ?] & -> & _). Qed.
Lemma full_snapshot_good tb k ip q s s' md :
  HandleSyncCallback blake3 sign_result no_proof hashQueryGenId mvtso tb k ip
    (upd_md k (md_set_waiting false) (add_out (requests_of q) (seal_missing (R k (md_retry_version md)) s))) = Done s' →
  inv (Some (k, ∅)) s → queryMetaData s !! k = Some md → md_is_waiting md = true → no_wake s (R k (md_retry_version md)) →
  queryMissingTxns s !! R k (md_retry_version md) = Some (mkMissing ∅ ∅ k (md_retry_version md)) → good s s'.
Proof.
  set (rid := R k (md_retry_version md)). intros H Hi Hmd Hw Hnw Hent.
  set (s1 := upd_md k (md_set_waiting false) (add_out _ _)) in H.
  assert (extends (upd_md k (md_set_waiting false) (upd_missing (delete rid) s)) s1) as X.
  { assert (seal_missing rid s = upd_missing (delete rid) s) as Hs.
    { unfold seal_missing, upd_missing. rewrite Hent. cbn. unfold nothing_missing. cbn. by rewrite !bool_decide_eq_true_2. }
    unfold s1. rewrite Hs. apply (extends_out (upd_md k _ (upd_missing _ s))), requests_quiet. }
  pose proof (inv_extends _ _ _ (inv_close _ _ _ _ Hi Hmd Hnw) X) as Hi1. apply HandleSyncCallback_spec in H.
  eapply (good_after _ s1); [done|exists (requests_of q); split; [done|by intros ????? ?%requests_quiet]|].
  eapply (callback_good None); [exact H|done|apply focus_le_refl|].
  assert (queryMetaData s1 !! k = Some (md_set_waiting false md)) as -> by (cbn; by rewrite lookup_alter_eq, Hmd).
  intros md' d [= <-] Hk Hd. change (alreadyDeleted s1) with (alreadyDeleted s) in Hk.
  destruct (inv_waiting _ _ Hi k md Hmd Hk Hw) as (m & Hm & _ & _ & _ & Hcov & _). fold rid in Hm. rewrite Hent in Hm.
  injection Hm as <-. destruct (Hcov d Hd) as [[_ []%elem_of_empty]|[Hok|[]%elem_of_empty]].
  apply (ok_mono s); [done| |done]. by exists (requests_of q).
Qed.
Lemma partial_snapshot_good k q s md m :
  inv (Some (k, ∅)) s → queryMetaData s !! k = Some md → queryMissingTxns s !! R k (md_retry_version md) = Some m →
  nothing_missing m = false → good s (add_out (requests_of q) (seal_missing (R k (md_retry_version md)) s)).
Proof.
  intros Hi Hmd Hm Hn. assert (seal_missing (R k (md_retry_version md)) s = s) as ->.
  { unfold seal_missing, upd_missing. rewrite Hm. cbn. rewrite Hn. by destruct s. }
  apply extends_good; [|apply extends_out, requests_quiet]. eapply inv_unfocus; [done|].
  intros md' m' Hmd' _ _ Hm'. left. congruence.
Qed.

Lemma ProcessSync_good tb k ss s s' :
  ProcessSync config blake3 sign_result no_proof optimisticTxID signClientQueries hashDigest hashQueryGenId mvtso tb k ss s = Done s' →
  inv None s → (∀ md, queryMetaData s !! k = Some md → md_has_query md = true) → good s s'.
Proof.
  unfold ProcessSync. intros (md & Hmd%get_md_Done & H)%bind_Done Hi Hq0. set (rid := R k (md_retry_version md)) in *.
  apply bind_Done in H as (_ & Hno%uw_assert_Done%bool_decide_eq_true_1 & H).
  destruct (inv_open s k md ss Hi Hmd (Hq0 md Hmd) Hno) as [Hi1 Hl1]. fold rid in Hi1, Hl1. set (s1 := upd_missing _ _) in *.
  set (s2 := if md_useOptimisticTxId md then _ else s1) in H.
  assert (extends s1 s2) as X2.
  { unfold s2. case_match; [|done]. by apply extends_out1. }
  apply bind_Done in H as ([[s3 q] full] & H3 & H).
  assert (queryMetaData s1 !! k = Some (md_set_waiting true (md_set_merged ss md))) as Hmd1.
  { cbn. by rewrite lookup_alter_eq, Hmd. }
  assert (queryMissingTxns s2 !! rid = Some (mkMissing ∅ ∅ k (md_retry_version md))) as Hent.
  { rewrite (ext_missing _ _ X2). cbn. by rewrite lookup_insert_eq. }
  pose proof (inv_extends _ _ _ Hi1 X2) as Hi2.
  pose proof (locked_evolves _ _ _ _ (extends_evolves k rid _ _ X2) Hl1) as Hl2.
  destruct (CheckSnapshot_spec _ _ _ _ _ _ _ _ H3 Hl2 Hi2) as (Hi3 & He & Hfull).
  { intros Hopt md' d. rewrite (ext_mds _ _ X2), Hmd1. intros [= <-] Hd. right. unfold s2. rewrite Hopt.
    eexists. split; [cbn; apply elem_of_app; right; by left|done]. }
  destruct (locked_evolves _ _ _ _ He Hl2) as [Hnw (md3 & m3 & Hmd3 & Hrid & Hm3)].
  destruct (ev_md _ _ _ _ He (md_set_waiting true (md_set_merged ss md))) as (md3' & Hmd3' & Hv3 & Hw3).
  { by rewrite (ext_mds _ _ X2). }
  assert (md3' = md3) as -> by congruence. cbn in Hv3, Hw3. apply bind_Done in H as (_ & _ & H).
  eapply (good_after _ s3); [rewrite (ev_deleted _ _ _ _ He); apply (ext_deleted _ _ X2)| |].
  { destruct (ext_out _ _ X2) as (l1 & O1 & N1), (ev_out _ _ _ _ He) as (l2 & O2 & N2).
    exists (l1 ++ l2). rewrite O2, O1, app_assoc. split; [done|]. intros ?????. rewrite elem_of_app. naive_solver. }
  rewrite Hrid in H. destruct full.
  - eapply full_snapshot_good; [exact H|done..|by rewrite <- Hrid|]. rewrite <- Hrid, Hfull, Hv3. exact Hent.
  - injection H as <-. destruct Hfull as (m & Hm & Hn). eapply partial_snapshot_good; [done..| |done]. by rewrite <- Hrid.
Qed.

Lemma next_version_inv k v req_id s s' :
  next_version blake3 signClientQueries hashDigest k v req_id s = Done s' → inv None s → is_u64 v →
  inv None s' ∧ rq_out s' = rq_out s ∧ alreadyDeleted s' = alreadyDeleted s.
Proof.
  unfold next_version. intros (md & Hmd%get_md_Done & [= <-])%bind_Done Hi Hv.
  destruct (Z.gtb_spec v (md_retry_version md)) as [Hgt|_]; [|done]. split; [|done].
  set (rid := R k _). set (g := λ md, _). pose proof (inv_version _ _ Hi k md Hmd) as Hu.
  destruct Hi as [A B C D F HH HU64 HC]. constructor; try done.
  - intros rid' m. cbn. rewrite lookup_delete_Some. intros [Hne Hm] Hdel.
    destruct (A rid' m Hm Hdel) as (md' & Hmd' & Hver & Hr). destruct (decide (k = mt_query_id m)) as [->|?].
    + assert (md' = md) as -> by congruence. destruct Hne. rewrite Hr. unfold rid. by rewrite Hver.
    + exists md'. by rewrite lookup_alter_ne.
  - intros rid' m. cbn. rewrite lookup_delete_Some. intros [_ ?]. by apply B.
  - intros k' md'. cbn. rewrite lookup_alter_Some. intros [(<- & md0 & Hmd0 & ->)|[_ ?]]; [done|by eapply C].
  - intros k' md'. cbn. rewrite lookup_alter_Some. intros [(<- & md0 & Hmd0 & ->)|[Hne Hmd']] Hdel Hw; [done|].
    destruct (D k' md' Hmd' Hdel Hw) as (m & Hm & Hok). exists m.
    rewrite lookup_delete_ne; [done|]. intros Heq. destruct (R_inj _ _ _ _ Heq Hu (C k' md' Hmd')). congruence.
  - intros t Ht. specialize (F t Ht). destruct t as [d ab|x d ab|k' v' d|k' v' d ab|k' rid' v' d ab|d pr]; try done.
    destruct F as [Hv' H]. split; [done|]. cbn. intros Hdel. destruct (H Hdel) as (md' & Hmd' & Hle & Hm).
    destruct (decide (k = k')) as [->|?].
    + assert (md' = md) as -> by congruence. exists (g md). rewrite lookup_alter_eq, Hmd'. cbn. split_and!; [done|lia|].
      intros ->. lia.
    + exists md'. rewrite lookup_alter_ne by done. split_and!; [done..|]. intros Hq. destruct (Hm Hq) as (m & Hm' & ?).
      exists m. rewrite lookup_delete_ne; [done|]. intros Heq. destruct (R_inj _ _ _ _ Heq Hu Hv'). congruence.
  - intros k' md'. cbn. rewrite lookup_alter_Some. intros [(<- & md0 & Hmd0 & ->)|[_ ?]]; [done|by eapply HH].
  - intros rid' m. cbn. rewrite lookup_delete_Some. intros [_ ?]. by eapply HU64.
Qed.

Lemma ensure_md_inv s k md :
  inv None s → md_is_waiting md = false → is_u64 (md_retry_version md) →
  let s' := match queryMetaData s !! k with Some _ => s | None => upd_mds (insert k md) s end in
  inv None s' ∧ rq_out s' = rq_out s ∧ alreadyDeleted s' = alreadyDeleted s.
Proof.
  intros Hi Hw Hu. destruct (queryMetaData s !! k) eqn:Hk; [done|]. split; [|done]. by apply inv_insert_md.
Qed.
Lemma good_plain s s1 s' :
  rq_out s1 = rq_out s ∧ alreadyDeleted s1 = alreadyDeleted s → good s1 s' → good s s'.
Proof.
  intros [Ho Hd]. apply good_after; [done|]. exists []. rewrite app_nil_r. split; [done|]. by intros ????? ?%elem_of_nil.
Qed.

(** A query without its command does not wait, and keeps the snapshot. *)
Lemma inv_register s k md ss remote :
  inv None s → queryMetaData s !! k = Some md → md_has_query md = false → inv None (upd_md k (RegisterWaitingSync ss remote) s).
Proof.
  intros Hi Hmd Hq. assert (∀ md', queryMetaData s !! k = Some md' → md_is_waiting md' = true → False) as Hno.
  { intros md' Hmd' Hw. pose proof (inv_has _ _ Hi k md' Hmd' Hw). congruence. }
  eapply inv_upd_md; [done|apply focus_le_refl|done|..].
  - intros md' Hmd' Hw. by destruct (Hno md').
  - intros md' Hmd' _ Hw. by destruct (Hno md').
Qed.

Lemma HandleSync_good tb remote msg s s' :
  HandleSync config blake3 parse_merged_ss sign_result no_proof optimisticTxID signClientQueries hashDigest hashQueryGenId mvtso
    tb remote msg s = Done s' →
  is_u64 (ms_retry_version (ps_merged (open_sync parse_merged_ss signClientQueries msg))) → inv None s → good s s'.
Proof.
  unfold HandleSync. intros H Hu Hi. set (ss := open_sync _ _ msg) in *. set (k := default "" _) in H.
  destruct (below_watermark _ _ _); [injection H as <-; by apply good_refl|].
  destruct (from_option (sync_outdated _) _ _); [injection H as <-; by apply good_refl|].
  destruct (_ && negb (verify_client _ _ _)); [done|].
  set (s1 := match queryMetaData s !! k with Some _ => s | None => _ end) in H.
  destruct (ensure_md_inv s k (QMD_sync (ms_query_seq_num (ps_merged ss)) (ms_client_id (ps_merged ss))) Hi eq_refl)
    as (Hi1 & P1); [by cbn|]. fold s1 in Hi1, P1.
  apply bind_Done in H as (s2 & H2 & H). destruct (next_version_inv _ _ _ _ _ H2 Hi1 Hu) as (Hi2 & P2 & P2').
  set (s3 := upd_md k _ s2) in H. assert (inv None s3) as Hi3 by by apply inv_upd_other.
  apply bind_Done in H as (md & Hmd%get_md_Done & H).
  apply (good_plain _ s3); [split; cbn; destruct P1; congruence|].
  destruct (md_has_query md) eqn:Hq.
  - eapply ProcessSync_good; [done|done|]. intros md' ?. congruence.
  - injection H as <-. split; [by eapply inv_register|]. apply no_exec_covered. exists []. rewrite app_nil_r.
    split; [done|by intros ????? ?%elem_of_nil].
Qed.

(** ** Queries *)

Lemma start_query_good tb k remote msg q s s' :
  start_query config blake3 sign_local_ss sign_result no_proof optimisticTxID signClientQueries hashDigest compressOptimisticTxIDs
    eagerPlusSnapshot hashQueryGenId mvtso tb k remote msg q s = Done s' →
  inv None s → (∀ md, queryMetaData s !! k = Some md → md_has_query md = true) → good s s'.
Proof.
  unfold start_query. intros H Hi Hq. set (s1 := upd_md k _ s) in H.
  assert (inv None s1) as Hi1 by by apply inv_upd_other. apply (good_plain _ s1); [done|].
  apply bind_Done in H as (md & Hmd%get_md_Done & H).
  destruct (_ && negb (md_waiting_sync md)) in H; [eapply touches_good; [done|]; by eapply ExecQueryEagerly_touches|].
  destruct (_ && negb (md_waiting_sync md)) in H.
  - unfold ProcessQuery in H. apply bind_Done in H as (md' & _ & H). apply bind_Done in H as (ls & _ & [= <-]).
    apply (touches_good k); [done|]. eapply touches_trans; [by apply (upd_md_touches k md_set_executed)|].
    by apply extends_touches, extends_out1.
  - destruct (md_waiting_sync md); [|injection H as <-; by apply good_refl].
    destruct (md_merged_ss_msg md) as [ss|]; [|done]. eapply ProcessSync_good; [exact H|done|].
    intros md0. cbn. rewrite lookup_alter_Some. intros [(_ & md1 & Hmd1 & ->)|[? _]]; [by apply (Hq md1)|done].
Qed.

Lemma HandleQuery_good tb now remote msg s s' :
  HandleQuery config blake3 parse_query sign_local_ss sign_result no_proof optimisticTxID signClientQueries hashDigest
    compressOptimisticTxIDs eagerPlusSnapshot hashQueryGenId mvtso tb now remote msg s = Done s' →
  is_u64 (open_query parse_query signClientQueries msg).2 → inv None s → good s s'.
Proof.
  unfold HandleQuery. destruct (open_query _ _ msg) as [q v]. cbn [snd]. intros H Hu Hi.
  set (k := QueryDigest _ _ _) in H.
  destruct ((rtsMode >? 0) && _); [injection H as <-; by apply good_refl|].
  destruct (below_watermark _ _ _); [injection H as <-; by apply good_refl|].
  destruct (negb (from_option _ _ _)); [injection H as <-; by apply good_refl|].
  destruct (signClientQueries && _); [injection H as <-; by apply good_refl|].
  destruct (qrq_is_point msg && _).
  { injection H as <-. apply extends_good; [done|]. by apply extends_out1. }
  set (s1 := match queryMetaData s !! k with Some _ => s | None => _ end) in H.
  destruct (ensure_md_inv s k (QMD_query (qq_query_cmd q) (qq_timestamp q) remote (qrq_req_id msg)
    (qq_query_seq_num q) (qq_client_id q) v) Hi eq_refl) as (Hi1 & P1); [done|]. fold s1 in Hi1, P1.
  set (s2 := upd_md k (md_set_policy _) s1) in H. assert (inv None s2) as Hi2 by by apply inv_upd_other.
  set (s3 := if decide _ then s2 else _) in H.
  assert (inv None s3 ∧ rq_out s3 = rq_out s2 ∧ alreadyDeleted s3 = alreadyDeleted s2) as (Hi3 & P3 & P3').
  { unfold s3. case_decide; [done|]. split; [|done]. by apply inv_upd_other. }
  apply bind_Done in H as (s4 & H4 & H). destruct (next_version_inv _ _ _ _ _ H4 Hi3 Hu) as (Hi4 & P4 & P4').
  apply bind_Done in H as (md & Hmd%get_md_Done & H).
  apply (good_plain _ s4); [destruct P1; split; cbn in *; congruence|].
  destruct (md_has_query md) eqn:Hq; cbn [negb] in H; [|injection H as <-; by apply good_refl].
  eapply start_query_good; [exact H|done|]. intros md' ?. congruence.
Qed.

(** ** Transactions between replicas *)

Lemma foldO_extends {A B} (π : B → rserver) (f : B → A → outcome B) l a a' :
  (∀ x b y, f x b = Done y → extends (π x) (π y)) → foldO f a l = Done a' → extends (π a) (π a').
Proof.
  intros Hf. apply (foldO_inv (λ y, extends (π a) (π y))); [|done].
  intros x b y _ Hx Hy. etrans; [exact Hx|by eapply Hf].
Qed.
Lemma CheckLocalAvailability_extends d s s' info : CheckLocalAvailability d s = Done (s', info) → extends s s'.
Proof.
  unfold CheckLocalAvailability. destruct (committed _ !! d).
  { intros (cp & _ & [= <- _])%bind_Done. done. }
  case_bool_decide.
  { intros [= <- _]. by apply extends_replica. }
  destruct (prepared _ !! d) as [[ts p]|]; [|done].
  intros (t & _ & (sm & _ & [= <- _])%bind_Done)%bind_Done. done.
Qed.
Lemma HandleRequestTx_extends req s s' : HandleRequestTx req s = Done s' → extends s s'.
Proof.
  unfold HandleRequestTx. case_match; [done|]. intros ([s1 l1] & H1 & ([s2 l2] & H2 & [= <-])%bind_Done)%bind_Done.
  apply (foldO_extends fst) in H1; [apply (foldO_extends fst) in H2|].
  - cbn in *. etrans; [exact H1|]. etrans; [exact H2|]. by apply extends_out1.
  - intros [x l] b [y l']. unfold supply_ts. cbn. case_match; [|done].
    intros ([s3 info] & H3 & [= <- _])%bind_Done. by eapply CheckLocalAvailability_extends.
  - intros [x l] b [y l']. unfold supply_txn. intros ([s3 info] & H3 & [= <- _])%bind_Done.
    by eapply CheckLocalAvailability_extends.
Qed.

Lemma ProcessSuppliedTxn_extends d info s s' :
  ProcessSuppliedTxn txn_digest parse_txn optimisticTxID d info s = Done s' → extends s s'.
Proof.
  unfold ProcessSuppliedTxn. case_bool_decide; [by intros [= <-]|]. set (s1 := upd_core _ s).
  assert (extends s s1) as X1 by by apply extends_replica. intros Hp. etrans; [exact X1|]. revert Hp. clearbody s1. clear X1.
  assert (∀ e, quiet e → extends s1 (add_out [e] s1)) as Hout by (intros; by apply extends_out1).
  destruct (bool_decide (is_Some _)); [by intros [= <-]|]. destruct (bool_decide (d ∈ aborted _)); [by intros [= <-]|].
  destruct (ti_content info) as [|p1|pr|[]|inv]; cbn; try done.
  - destruct (p1MetaData _ !! d).
    + destruct signClientProposals; [|apply RegisterForce_extends]. destruct (ongoing _ !! d); [|done].
      intros (t & _ & Hrf)%bind_Done. by eapply RegisterForce_extends.
    + case_bool_decide; [|done]. intros [= <-]. by apply Hout.
  - destruct (_ && _).
    + intros (x & _ & [= <-])%bind_Done.
      assert (okm (add_out [AcceptedGenesis d] s1) d) as Hok by (right; cbn; apply elem_of_app; right; by left).
      assert (extends s1 (add_out [AcceptedGenesis d] s1)) as X by by apply Hout.
      etrans; [exact X|]. apply (extends_tasks (add_out [AcceptedGenesis d] s1)).
      intros t. rewrite !elem_of_cons, elem_of_nil. by intros [->|[->|[]]].
    + destruct (negb _); [done|]. intros [= <-]. apply extends_tasks. intros t. by rewrite list_elem_of_singleton; intros ->.
  - case_match; [|done]. intros [= <-]. by apply Hout.
Qed.
Lemma HandleSupplyTx_extends msg s s' :
  HandleSupplyTx txn_digest parse_txn parse_supply verifyHMAC optimisticTxID signReplicaToReplicaSync msg s = Done s' → extends s s'.
Proof.
  unfold HandleSupplyTx. case_match; [by intros [= <-]|]. intros (s1 & H1 & H2)%bind_Done.
  apply (foldO_extends id) in H1; [apply (foldO_extends id) in H2; [etrans; [exact H1|exact H2]|]|].
  - intros x [b info] y. unfold supplied. cbn [snd]. destruct (ti_txn_id info); [|by intros [=]]. apply ProcessSuppliedTxn_extends.
  - intros x info y. unfold supplied. destruct (ti_txn_id info); [|by intros [=]]. apply ProcessSuppliedTxn_extends.
Qed.

(** ** Waking *)

(** Entries that lose what happened, with the wake-ups on their way. *)
Lemma inv_shrink s s' :
  inv None s → rq_replica s' = rq_replica s → queryMetaData s' = queryMetaData s → alreadyDeleted s' = alreadyDeleted s →
  rq_out s' = rq_out s →
  (∀ rid m', queryMissingTxns s' !! rid = Some m' → ∃ m, queryMissingTxns s !! rid = Some m ∧
     mt_query_id m' = mt_query_id m ∧ mt_retry_version m' = mt_retry_version m ∧ mt_txns m' ⊆ mt_txns m ∧
     ∀ d, d ∈ mt_txns m → d ∈ mt_txns m' ∨ okm s d) →
  (∀ rid m, queryMissingTxns s !! rid = Some m → is_Some (queryMissingTxns s' !! rid)) →
  (∀ rid m', queryMissingTxns s' !! rid = Some m' → registered s' rid m') →
  (∀ t, t ∈ rq_tasks s' → t ∈ rq_tasks s ∨ task_ok s' t) →
  (∀ k md m', queryMetaData s !! k = Some md → k ∉ alreadyDeleted s → md_is_waiting md = true →
     queryMissingTxns s' !! R k (md_retry_version md) = Some m' → nothing_missing m' = false ∨ pending s' k (md_retry_version md)) →
  inv None s'.
Proof.
  intros [A B C D F HH HU64 HC] E1 E2 E3 E4 Hsub Hkeep Hreg Htask Hpend.
  assert (∀ d, okm s d ↔ okm s' d) as Hok by (intros d; unfold okm, rq_core; by rewrite E1, E4).
  assert (∀ k v d, ok s k v d → ok s' k v d) as Hok' by (intros k v d; unfold ok; rewrite E4, Hok; done).
  constructor; rewrite ?E2, ?E3; try done.
  - intros rid m' Hm'. destruct (Hsub rid m' Hm') as (m & Hm & -> & -> & _). by apply A.
  - intros k md Hk Hdel Hw. destruct (D k md Hk Hdel Hw) as (m & Hm & Hq & Hv & Hs & Hc & _).
    destruct (Hkeep _ _ Hm) as [m' Hm']. exists m'. split; [done|].
    destruct (Hsub _ m' Hm') as (m0 & Hm0 & Q & V & _ & Hcov). assert (m0 = m) as -> by congruence.
    split_and!; [congruence..|done| |right; by eapply Hpend].
    intros d Hd. destruct (Hc d Hd) as [[]|[?|Hin]]; right; [left; eauto|]. destruct (Hcov d Hin) as [?|?]; [by right|].
    left. left. by apply Hok.
  - intros t Ht. destruct (Htask t Ht) as [Hin|?]; [|done]. specialize (F t Hin). unfold task_ok in *.
    destruct t as [d ab|x d ab|k v d|k v d ab|k rid v d ab|d pr]; rewrite ?E2, ?E3, <- ?Hok; try done.
    destruct F as [Hv H]. split; [done|]. intros Hk. destruct (H Hk) as (md & Hmd & Hle & Hm). exists md.
    split_and!; [done..|]. intros Hq. destruct (Hm Hq) as (m & Hm1 & Hall). destruct (Hkeep _ _ Hm1) as [m' Hm'].
    exists m'. split; [done|]. destruct (Hsub _ m' Hm') as (m0 & Hm0 & _ & _ & Hin' & _).
    assert (m0 = m) as -> by congruence. intros d' Hd'. rewrite <- Hok. apply Hall. set_solver.
  - intros rid m' Hm'. destruct (Hsub rid m' Hm') as (m & Hm & _ & -> & _). by eapply HU64.
  - intros x. unfold came, rq_ts_to_tx. rewrite E1, E4. apply HC.
Qed.

Lemma in_delete_or {A} (l : list A) i x y : l !! i = Some x → y ∈ l → y = x ∨ y ∈ delete i l.
Proof.
  intros Hx Hy. rewrite <- (take_drop_middle l i x Hx) in Hy. rewrite delete_take_drop.
  apply elem_of_app in Hy as [?|[?|?]%elem_of_cons]; [right; apply elem_of_app; by left|by left|right; apply elem_of_app; by right].
Qed.
Lemma in_delete {A} (l : list A) i x y : l !! i = Some x → y ∈ l → y ≠ x → y ∈ delete i l.
Proof. intros Hx Hy Hne. by destruct (in_delete_or l i x y Hx Hy). Qed.

(** What the loop over the queries of a transaction does. *)
Definition dropped d (l : list string) s s' : Prop :=
  s' = upd_missing (λ _, queryMissingTxns s') s ∧
  ∀ rid, queryMissingTxns s' !! rid = if decide (rid ∈ l) then del_missing_txn d <$> queryMissingTxns s !! rid
                                      else queryMissingTxns s !! rid.
Definition wakes d (l : list string) s (wake : gmap digest Z) : Prop :=
  (∀ k v, wake !! k = Some v → ∃ rid m, rid ∈ l ∧ queryMissingTxns s !! rid = Some m ∧ mt_query_id m = k ∧
     mt_retry_version m = v ∧ nothing_missing (del_missing_txn d m) = true) ∧
  (∀ rid m, rid ∈ l → queryMissingTxns s !! rid = Some m → d ∈ mt_txns m → nothing_missing (del_missing_txn d m) = true →
     is_Some (wake !! mt_query_id m)).
Lemma update_queries_spec d ab l s :
  NoDup l →
  let r := foldl (update_query d ab) (s, ∅, ∅) l in dropped d l s r.1.1 ∧ wakes d l s r.1.2.
Proof.
  induction l as [|rid l IH] using rev_ind; intros Hnd.
  { cbn. split; [|split; intros; set_solver]. split; [by destruct s|]. intros rid. by rewrite decide_False by set_solver. }
  apply NoDup_app in Hnd as (Hnd & Hni & _). specialize (IH Hnd). assert (rid ∉ l) as Hrid by (intros ?; by eapply Hni, list_elem_of_singleton).
  cbn zeta in *. rewrite foldl_snoc. destruct (foldl _ _ l) as [[s1 wake] rm]. destruct IH as [[Hs1 Hm1] [W1 W2]]. cbn [fst snd] in *.
  pose proof (Hm1 rid) as Hrid1. rewrite decide_False in Hrid1 by done. unfold update_query. rewrite Hrid1.
  assert (∀ rid', rid' ∈ l ++ [rid] ↔ rid' ∈ l ∨ rid' = rid) as Hin by (intros; rewrite elem_of_app, list_elem_of_singleton; done).
  destruct (queryMissingTxns s !! rid) as [m|] eqn:Hm; cycle 1.
  { cbn [fst snd]. split.
    - split; [done|]. intros rid'. rewrite Hm1. repeat case_decide; try done; [rewrite Hin in *; tauto|].
      assert (rid' = rid) as -> by (rewrite Hin in *; tauto). by rewrite Hm.
    - split; [intros k v Hk; destruct (W1 k v Hk) as (? & ? & ? & ?); setoid_rewrite Hin; eauto 10|].
      intros rid' m'. rewrite Hin. intros [?| ->] Hm'; [by eapply W2|congruence]. }
  set (s2 := upd_missing (insert rid (del_missing_txn d m)) s1).
  assert (dropped d (l ++ [rid]) s s2) as Hd.
  { split; [unfold s2; rewrite Hs1; done|]. intros rid'. unfold s2. cbn. destruct (decide (rid' = rid)) as [->|Hne].
    - rewrite lookup_insert_eq, Hm. rewrite decide_True by (rewrite Hin; auto). done.
    - rewrite lookup_insert_ne by done. rewrite Hm1. repeat case_decide; rewrite ?Hin in *; tauto. }
  assert (∀ wake', (wake' = wake ∧ (d ∈ mt_txns m → nothing_missing (del_missing_txn d m) = false)) ∨
    (wake' = <[mt_query_id m := mt_retry_version m]> wake ∧ nothing_missing (del_missing_txn d m) = true) →
    wakes d (l ++ [rid]) s wake') as Hw.
  { intros wake' Hcase. split.
    - intros k v Hk. assert (wake !! k = Some v ∨ (mt_query_id m = k ∧ mt_retry_version m = v ∧ nothing_missing (del_missing_txn d m) = true)) as [Hk'|(? & ? & ?)].
      { destruct Hcase as [[-> _]|[-> ?]]; [by left|]. apply lookup_insert_Some in Hk as [[<- <-]|[_ ?]]; auto. }
      + destruct (W1 k v Hk') as (rid' & m' & ? & ?). exists rid', m'. rewrite Hin. tauto.
      + exists rid, m. rewrite Hin. tauto.
    - intros rid' m'. rewrite Hin. intros Hr Hm' Hd' Hn.
      assert (is_Some (wake !! mt_query_id m') ∨ m' = m) as [Hs| ->].
      { destruct Hr as [?| ->]; [left; by eapply W2|right; congruence]. }
      + destruct Hcase as [[-> _]|[-> _]]; [done|]. rewrite lookup_insert. case_decide; [by eexists|done].
      + destruct Hcase as [[_ Hf]|[-> _]]; [rewrite Hf in Hn; done|]. rewrite lookup_insert_eq. by eexists. }
  cbn zeta. destruct (bool_decide (d ∈ mt_txns m) && nothing_missing (del_missing_txn d m)) eqn:Hb; cbn [fst snd].
  - apply andb_true_iff in Hb as [_ ?]. split; [done|]. apply Hw. by right.
  - assert (wakes d (l ++ [rid]) s wake) as ?.
    { apply Hw. left. split; [done|]. intros Hd'. rewrite bool_decide_eq_true_2 in Hb by done. done. }
    destruct ab; done.
Qed.

(** The update in one form, whether or not queries wait. *)
Lemma UpdateWaitingQueries_form d ab s :
  let l := elements (default ∅ (waitingQueries s !! d)) in
  ∃ s' wake rm, dropped d l s s' ∧ wakes d l s wake ∧
    UpdateWaitingQueries d ab s =
      add_tasks (((λ e, RemoveTxn e.1 e.2 d) <$> map_to_list rm) ++ ((λ e, WakeQuery e.1 e.2 d ab) <$> map_to_list wake))
        (upd_waiting (delete d) s').
Proof.
  unfold UpdateWaitingQueries. destruct (waitingQueries s !! d) as [w|] eqn:Hw; cbn [default].
  - pose proof (update_queries_spec d ab (elements w) s (NoDup_elements w)) as [H1 H2].
    destruct (foldl _ _ _) as [[s1 wake] rm]. exists s1, wake, rm. done.
  - exists s, ∅, ∅. split_and!.
    + split; [by destruct s|]. intros rid. rewrite elements_empty. by rewrite decide_False by set_solver.
    + rewrite elements_empty. split; intros; set_solver.
    + rewrite !map_to_list_empty. destruct s. unfold add_tasks, upd_tasks, upd_waiting. cbn in *.
      by rewrite delete_id, app_nil_r.
Qed.
(** What is left of an entry. *)
Definition dropped_entry d (w : gset string) rid m m' : Prop :=
  (rid ∈ w ∧ m' = del_missing_txn d m) ∨ (rid ∉ w ∧ m' = m ∧ d ∉ mt_txns m).
Lemma dropped_entries s s0 s' d rid m' :
  inv None s → queryMissingTxns s0 = queryMissingTxns s → dropped d (elements (default ∅ (waitingQueries s !! d))) s0 s' →
  queryMissingTxns s' !! rid = Some m' →
  ∃ m, queryMissingTxns s !! rid = Some m ∧ dropped_entry d (default ∅ (waitingQueries s !! d)) rid m m'.
Proof.
  intros Hi H0 [_ Hd]. rewrite Hd, H0. case_decide as Hin; rewrite elem_of_elements in Hin.
  - intros (m & -> & Hm)%fmap_Some. exists m. split; [done|by left].
  - intros Hm. exists m'. split; [done|right]. split_and!; [done..|]. intros Hx.
    destruct (inv_reg _ _ Hi rid m' Hm) as [Ha _]. by destruct (Ha d Hx).
Qed.
(** The last transaction an entry lost wakes its query. *)
Lemma last_txn_wakes s d w wake k md m m' :
  inv None s → queryMetaData s !! k = Some md → k ∉ alreadyDeleted s → mt_query_id m = k →
  queryMissingTxns s !! R k (md_retry_version md) = Some m → dropped_entry d w (R k (md_retry_version md)) m m' →
  wakes d (elements w) s wake → nothing_missing m = false → nothing_missing m' = true → wake !! k = Some (md_retry_version md).
Proof.
  intros Hi Hmd Hdel Hq Hm Hcase [W1 W2] Hf Hn. destruct Hcase as [[Hw ->]|(_ & -> & _)]; [|congruence].
  destruct (decide (d ∈ mt_txns m)) as [Hd|Hd]; cycle 1.
  { exfalso. unfold nothing_missing in *. cbn in Hn. rewrite difference_disjoint_L in Hn by set_solver. congruence. }
  destruct (W2 _ m (proj2 (elem_of_elements _ _) Hw) Hm Hd Hn) as [v Hwake]. rewrite Hq in Hwake.
  destruct (W1 _ v Hwake) as (rid' & m1 & _ & Hm1 & Hid & <- & _). rewrite Hwake. f_equal.
  destruct (inv_entry _ _ Hi rid' m1 Hm1) as (md1 & Hmd1 & Hv1 & _); congruence.
Qed.

Lemma woken_entry s d l wake k v :
  inv None s → wakes d l s wake → wake !! k = Some v →
  is_u64 v ∧ (k ∉ alreadyDeleted s → ∃ md m, queryMetaData s !! k = Some md ∧ md_retry_version md = v ∧ R k v ∈ l ∧
    queryMissingTxns s !! R k v = Some m ∧ mt_txns (del_missing_txn d m) = ∅).
Proof.
  intros Hi [W _] Hw. destruct (W k v Hw) as (rid & m & Hin & Hm & <- & <- & Hn). split; [by eapply (inv_u64 _ _ Hi rid)|].
  intros Hdel. destruct (inv_entry _ _ Hi rid m Hm Hdel) as (md & Hmd & Hv & <-). exists md, m. split_and!; [done..|].
  by apply andb_true_iff in Hn as [Hn%bool_decide_eq_true_1 _].
Qed.

Lemma UpdateWaitingQueries_inv s i d ab :
  inv None s → rq_tasks s !! i = Some (UpdateQueries d ab) → inv None (UpdateWaitingQueries d ab (upd_tasks (delete i) s)).
Proof.
  intros Hi Ht. set (s0 := upd_tasks (delete i) s).
  assert (okm s d) as Hokd by (apply (inv_tasks _ _ Hi (UpdateQueries d ab)); by eapply list_elem_of_lookup_2).
  destruct (UpdateWaitingQueries_form d ab s0) as (s' & wake & rm & Hdr & Hwakes & ->).
  pose proof (dropped_entries s s0 s' d) as Hsub. change (waitingQueries s0) with (waitingQueries s) in *.
  set (w := default ∅ (waitingQueries s !! d)) in *. set (s2 := add_tasks _ _). destruct (Hdr) as [Hs' Hm'].
  assert (rq_tasks s' = delete i (rq_tasks s)) as Et by by rewrite Hs'.
  assert (waitingQueries s' = waitingQueries s ∧ waitingQueriesTS s' = waitingQueriesTS s) as [Ew Ex] by by rewrite Hs'.
  assert (rq_replica s2 = rq_replica s ∧ alreadyDeleted s2 = alreadyDeleted s ∧ queryMetaData s2 = queryMetaData s)
    as (E0 & E1 & E2) by (cbn; by rewrite Hs').
  assert (∀ t, t ∈ rq_tasks s → t ≠ UpdateQueries d ab → t ∈ rq_tasks s2) as Hold.
  { intros t Hin Hne. cbn. rewrite Et. apply elem_of_app. left. by eapply in_delete. }
  apply (inv_shrink s); [done..|cbn; by rewrite Hs'| | | | |].
  - intros rid m' Hrm. destruct (Hsub rid m' Hi eq_refl Hdr Hrm) as (m & Hm & [[_ ->]|(_ & -> & _)]); exists m; split_and!; try done.
    + cbn. set_solver.
    + intros d' Hd'. cbn. destruct (decide (d' = d)) as [->|]; [by right|left; set_solver].
    + intros d' ?. by left.
  - intros rid m Hm. cbn. rewrite Hm'. cbn. case_decide; rewrite Hm; by eexists.
  - intros rid m' Hrm. destruct (Hsub rid m' Hi eq_refl Hdr Hrm) as (m & Hm & Hcase). destruct (inv_reg _ _ Hi rid m Hm) as [Ha Hb].
    split; cycle 1.
    { intros x Hx. destruct (Hb x) as [Hwx Hcame]; [by destruct Hcase as [[_ ->]|(_ & -> & _)]|]. cbn. rewrite Ex. split; [done|].
      unfold came. cbn. rewrite Hs'. intros Hx'. destruct (Hcame Hx') as (d' & ab' & Hin). exists d', ab'. cbn. apply elem_of_app.
      left. by eapply in_delete. }
    intros d' Hin.
    assert (d' ≠ d ∧ d' ∈ mt_txns m) as [Hne Hin'] by (destruct Hcase as [[_ ->]|(_ & -> & ?)]; [cbn in Hin|]; set_solver).
    destruct (Ha d' Hin') as [Hw Hmat]. split; [cbn; by rewrite Ew, lookup_delete_ne|]. unfold rq_core. rewrite E0.
    intros Hmat'. destruct (Hmat Hmat') as [ab' Hin2]. exists ab'. apply Hold; [done|congruence].
  - intros t. unfold s2 at 1. cbn. rewrite !elem_of_app, !list_elem_of_fmap. intros [Hin|[(e & -> & _)|([k v] & -> & Hw)]].
    + left. rewrite Et in Hin. by eapply list_elem_of_delete_inv.
    + by right.
    + right. apply elem_of_map_to_list in Hw. cbn [fst snd task_ok]. rewrite E1, E2.
      destruct (woken_entry s d _ wake k v Hi Hwakes Hw) as [Hv Hent]. split; [done|]. intros Hdel.
      destruct (Hent Hdel) as (md & m & Hmd & <- & Hin & Hm & Hn). exists md. split_and!; [done|lia|]. intros _.
      exists (del_missing_txn d m). change (queryMissingTxns s2) with (queryMissingTxns s').
      rewrite Hm', decide_True by done. change (queryMissingTxns s0) with (queryMissingTxns s).
      rewrite Hm, Hn. split; [done|set_solver].
  - intros k md m' Hmd Hdel Hwt Hrm. destruct (nothing_missing m') eqn:Hn; [|by left]. right.
    destruct (inv_waiting _ _ Hi k md Hmd Hdel Hwt) as (m & Hm & Hq & Hv & _ & _ & Hp).
    destruct (Hsub _ m' Hi eq_refl Hdr Hrm) as (m0 & Hm0 & Hcase). assert (m0 = m) as -> by congruence.
    destruct Hp as [[]|[Hf|(d' & ab' & Hp)]]; [|exists d', ab'; destruct Hp as [Hp|Hp]; [left|right]; by apply Hold].
    pose proof (last_txn_wakes s d w wake k md m m' Hi Hmd Hdel Hq Hm Hcase Hwakes Hf Hn) as Hwake.
    exists d, ab. left. cbn. rewrite !elem_of_app, !list_elem_of_fmap. right. right.
    exists (k, md_retry_version md). split; [done|]. by apply elem_of_map_to_list.
Qed.

(** The same for a timestamp. *)
Definition dropped_ts (x : Z) (l : list string) s s' : Prop :=
  s' = upd_missing (λ _, queryMissingTxns s') s ∧
  ∀ rid, queryMissingTxns s' !! rid = if decide (rid ∈ l) then del_missing_ts x <$> queryMissingTxns s !! rid
                                      else queryMissingTxns s !! rid.
Definition resolves (x : Z) (l : list string) s (upd : gmap (digest * string) Z) : Prop :=
  (∀ k rid v, upd !! (k, rid) = Some v → ∃ m, queryMissingTxns s !! rid = Some m ∧ mt_query_id m = k ∧ mt_retry_version m = v) ∧
  (∀ rid m, rid ∈ l → queryMissingTxns s !! rid = Some m → x ∈ mt_ts m →
     upd !! (mt_query_id m, rid) = Some (mt_retry_version m)).
Lemma update_queries_ts_spec (x : Z) l s :
  NoDup l →
  let r := foldl (update_query_ts x) (s, ∅) l in dropped_ts x l s r.1 ∧ resolves x l s r.2.
Proof.
  induction l as [|rid l IH] using rev_ind; intros Hnd.
  { cbn. split; [|split; intros; set_solver]. split; [by destruct s|]. intros rid. by rewrite decide_False by set_solver. }
  apply NoDup_app in Hnd as (Hnd & Hni & _). specialize (IH Hnd). assert (rid ∉ l) as Hrid by (intros ?; by eapply Hni, list_elem_of_singleton).
  cbn zeta in *. rewrite foldl_snoc. destruct (foldl _ _ l) as [s1 upd]. destruct IH as [[Hs1 Hm1] [W1 W2]]. cbn [fst snd] in *.
  pose proof (Hm1 rid) as Hrid1. rewrite decide_False in Hrid1 by done. unfold update_query_ts. rewrite Hrid1.
  assert (∀ rid', rid' ∈ l ++ [rid] ↔ rid' ∈ l ∨ rid' = rid) as Hin by (intros; rewrite elem_of_app, list_elem_of_singleton; done).
  destruct (queryMissingTxns s !! rid) as [m|] eqn:Hm; cbn [fst snd]; cycle 1.
  { split.
    - split; [done|]. intros rid'. rewrite Hm1. repeat case_decide; try done; [rewrite Hin in *; tauto|].
      assert (rid' = rid) as -> by (rewrite Hin in *; tauto). by rewrite Hm.
    - split; [done|]. intros rid' m'. rewrite Hin. intros [?| ->] Hm'; [by eapply W2|congruence]. }
  split.
  - split; [rewrite Hs1; done|]. intros rid'. cbn. destruct (decide (rid' = rid)) as [->|Hne].
    + rewrite lookup_insert_eq, Hm. rewrite decide_True by (rewrite Hin; auto). done.
    + rewrite lookup_insert_ne by done. rewrite Hm1. repeat case_decide; rewrite ?Hin in *; tauto.
  - split.
    + intros k rid' v. case_bool_decide; [|by apply W1]. rewrite lookup_insert_Some. intros [[[= <- <-] <-]|[_ ?]]; eauto.
    + intros rid' m'. rewrite Hin. intros Hr Hm' Hx. destruct (decide (rid' = rid)) as [->|Hne].
      * assert (m' = m) as -> by congruence. rewrite bool_decide_eq_true_2 by done. by rewrite lookup_insert_eq.
      * destruct Hr as [Hr|]; [|done]. specialize (W2 rid' m' Hr Hm' Hx). case_bool_decide; [|done].
        by rewrite lookup_insert_ne by congruence.
Qed.

Lemma UpdateWaitingQueriesTS_form x d ab s :
  let l := elements (default ∅ (waitingQueriesTS s !! x)) in
  ∃ s' upd, dropped_ts x l s s' ∧ resolves x l s upd ∧
    UpdateWaitingQueriesTS x d ab s =
      add_tasks ((λ e, ResolveTS e.1.1 e.1.2 e.2 d ab) <$> map_to_list upd) (upd_waiting_ts (delete x) s').
Proof.
  unfold UpdateWaitingQueriesTS. destruct (waitingQueriesTS s !! x) as [w|] eqn:Hw; cbn [default].
  - pose proof (update_queries_ts_spec x (elements w) s (NoDup_elements w)) as [H1 H2].
    destruct (foldl _ _ _) as [s1 upd]. by exists s1, upd.
  - exists s, ∅. split_and!.
    + split; [by destruct s|]. intros rid. rewrite elements_empty. by rewrite decide_False by set_solver.
    + rewrite elements_empty. split; intros; set_solver.
    + rewrite map_to_list_empty. destruct s. unfold add_tasks, upd_tasks, upd_waiting_ts. cbn in *.
      by rewrite delete_id, app_nil_r.
Qed.
Definition dropped_ts_entry x (w : gset string) rid m m' : Prop :=
  (rid ∈ w ∧ m' = del_missing_ts x m) ∨ (rid ∉ w ∧ m' = m).
Lemma last_ts_resolves s x w upd k md m m' :
  mt_query_id m = k → mt_retry_version m = md_retry_version md →
  queryMissingTxns s !! R k (md_retry_version md) = Some m → dropped_ts_entry x w (R k (md_retry_version md)) m m' →
  resolves x (elements w) s upd → nothing_missing m = false → nothing_missing m' = true →
  upd !! (k, R k (md_retry_version md)) = Some (md_retry_version md).
Proof.
  intros <- <- Hm Hcase [_ W] Hf Hn. destruct Hcase as [[Hw ->]|(_ & ->)]; [|congruence].
  destruct (decide (x ∈ mt_ts m)) as [Hx|Hx]; [by apply (W _ m); [apply elem_of_elements| |]|].
  exfalso. unfold nothing_missing in *. cbn in Hn. rewrite (difference_disjoint_L (mt_ts m)) in Hn by set_solver. congruence.
Qed.

Lemma UpdateWaitingQueriesTS_inv s i x d ab :
  inv None s → rq_tasks s !! i = Some (UpdateQueriesTS x d ab) → inv None (UpdateWaitingQueriesTS x d ab (upd_tasks (delete i) s)).
Proof.
  intros Hi Ht. set (s0 := upd_tasks (delete i) s).
  assert (okm s d) as Hokd by (apply (inv_tasks _ _ Hi (UpdateQueriesTS x d ab)); by eapply list_elem_of_lookup_2).
  destruct (UpdateWaitingQueriesTS_form x d ab s0) as (s' & upd & [Hs' Hm'] & Hres & ->).
  change (waitingQueriesTS s0) with (waitingQueriesTS s) in *. set (w := default ∅ (waitingQueriesTS s !! x)) in *.
  set (s2 := add_tasks _ _). assert (rq_tasks s' = delete i (rq_tasks s)) as Et by by rewrite Hs'.
  assert (waitingQueries s2 = waitingQueries s ∧ waitingQueriesTS s' = waitingQueriesTS s) as [Ew Ex] by (cbn; by rewrite Hs').
  assert (rq_replica s2 = rq_replica s ∧ alreadyDeleted s2 = alreadyDeleted s ∧ queryMetaData s2 = queryMetaData s ∧
    rq_out s2 = rq_out s) as (E0 & E1 & E2 & E3) by (cbn; by rewrite Hs').
  assert (∀ t, t ∈ rq_tasks s → t ≠ UpdateQueriesTS x d ab → t ∈ rq_tasks s2) as Hold.
  { intros t Hin Hne. cbn. rewrite Et. apply elem_of_app. left. by eapply in_delete. }
  assert (∀ rid m', queryMissingTxns s2 !! rid = Some m' → ∃ m, queryMissingTxns s !! rid = Some m ∧
    dropped_ts_entry x w rid m m') as Hsub.
  { intros rid m'. cbn. rewrite Hm'. cbn. case_decide as Hin; rewrite elem_of_elements in Hin; [|intros ?; eexists; split; [done|by right]].
    intros (m & -> & Hm)%fmap_Some. eexists. split; [done|by left]. }
  apply (inv_shrink s); [done..| | | | |].
  - intros rid m' Hrm. destruct (Hsub rid m' Hrm) as (m & Hm & [[_ ->]|(_ & ->)]); exists m; split_and!; try done; intros; by left.
  - intros rid m Hm. cbn. rewrite Hm'. cbn. case_decide; rewrite Hm; by eexists.
  - intros rid m' Hrm. destruct (Hsub rid m' Hrm) as (m & Hm & Hcase). destruct (inv_reg _ _ Hi rid m Hm) as [Ha Hb]. split.
    + intros d' Hin. destruct (Ha d') as [Hw Hmat]; [by destruct Hcase as [[_ ->]|(_ & ->)]|].
      split; [by rewrite Ew|]. unfold rq_core. rewrite E0. intros Hmat'. destruct (Hmat Hmat') as [ab' Hin2].
      exists ab'. by apply Hold.
    + intros x' Hx'. assert (x' ≠ x ∧ x' ∈ mt_ts m) as [Hne Hin].
      { destruct Hcase as [[_ ->]|(Hnw & ->)]; [cbn in Hx'; set_solver|]. split; [|done]. intros ->. by apply Hnw, Hb. }
      cbn. rewrite Ex, lookup_delete_ne by done. destruct (Hb x' Hin) as [? Hcame]. split; [done|]. unfold came. cbn.
      rewrite Hs'. intros Hc'. destruct (Hcame Hc') as (d' & ab' & Hin'). exists d', ab'. cbn. apply elem_of_app. left.
      eapply in_delete; [done..|]. congruence.
  - intros t. unfold s2 at 1. cbn. rewrite elem_of_app, list_elem_of_fmap. intros [Hin|([[k rid] v] & -> & Hw)].
    + left. rewrite Et in Hin. by eapply list_elem_of_delete_inv.
    + right. apply elem_of_map_to_list in Hw. destruct (proj1 Hres k rid v Hw) as (m & Hm & <- & <-). cbn [fst snd task_ok].
      rewrite E1. split; [unfold okm, rq_core; by rewrite E0, E3|]. intros Hdel.
      by destruct (inv_entry _ _ Hi rid m Hm Hdel) as (md & _ & _ & ->).
  - intros k md m' Hmd Hdel Hwt Hrm. destruct (nothing_missing m') eqn:Hn; [|by left]. right.
    destruct (inv_waiting _ _ Hi k md Hmd Hdel Hwt) as (m & Hm & Hq & Hv & _ & _ & Hp).
    destruct (Hsub _ m' Hrm) as (m0 & Hm0 & Hcase). assert (m0 = m) as -> by congruence.
    destruct Hp as [[]|[Hf|(d' & ab' & Hp)]]; [|exists d', ab'; destruct Hp as [Hp|Hp]; [left|right]; by apply Hold].
    pose proof (last_ts_resolves s x w upd k md m m' Hq Hv Hm Hcase Hres Hf Hn) as Hu.
    exists d, ab. right. cbn. rewrite elem_of_app, list_elem_of_fmap. right.
    exists (k, R k (md_retry_version md), md_retry_version md). split; [done|]. by apply elem_of_map_to_list.
Qed.

(** ** Tasks for one query *)

Definition is_update (t : qtask) : Prop := match t with UpdateQueries _ _ | UpdateQueriesTS _ _ _ => True | _ => False end.
Definition pends (t : qtask) k v : Prop := (∃ d ab, t = WakeQuery k v d ab) ∨ (∃ d ab, t = ResolveTS k (R k v) v d ab).
Lemma inv_drop_task f s i t :
  inv None s → rq_tasks s !! i = Some t → ¬ is_update t →
  (∀ k v, pends t k v → focused f k ∨ ∀ md, queryMetaData s !! k = Some md → md_is_waiting md = true → md_retry_version md ≠ v) →
  inv f (upd_tasks (delete i) s).
Proof.
  intros [A B C D F HH HU64 HC] Ht Hu Hp. constructor; try done.
  - intros rid m Hm. destruct (B rid m Hm) as [Ha Hb]. split; cycle 1.
    { intros x Hx. destruct (Hb x Hx) as [? Hcame]. split; [done|]. intros Hc'. destruct (Hcame Hc') as (d & ab & ?).
      exists d, ab. eapply in_delete; [done..|]. by intros <-. }
    intros d Hd. destruct (Ha d Hd) as [? Hmat].
    split; [done|]. intros Hx. destruct (Hmat Hx) as [ab ?]. exists ab. eapply in_delete; [done..|]. by intros <-.
  - intros k md Hmd Hdel Hw. destruct (D k md Hmd Hdel Hw) as (m & Hm & Hq & Hv & Hs & Hc & Hpend). exists m. split; [done|].
    split_and!; [done..| |].
    + intros d Hd. destruct (Hc d Hd) as [[]|?]. by right.
    + destruct Hpend as [[]|[?|(d & ab & Hpend)]]; [by right; left|].
      assert ((WakeQuery k (md_retry_version md) d ab = t ∨ ResolveTS k (R k (md_retry_version md)) (md_retry_version md) d ab = t) ∨
        pending (upd_tasks (delete i) s) k (md_retry_version md)) as [Heq|?]; [|destruct (Hp k (md_retry_version md)) as [?|Hne]|by right; right].
      { destruct Hpend as [Hpend|Hpend]; destruct (in_delete_or _ _ _ _ Ht Hpend); [by left; left|right|by left; right|right];
          exists d, ab; [by left|by right]. }
      * destruct Heq as [<-|<-]; [left|right]; eauto.
      * by left.
      * by destruct (Hne md Hmd Hw).
  - intros t' Ht'. cbn in Ht'. apply (task_ok_ext s); [done..|]. apply F. by eapply list_elem_of_delete_inv.
Qed.
Lemma still_waits_true s k v : still_waits s k v = true → ∃ md, queryMetaData s !! k = Some md ∧ md_is_waiting md = true ∧ md_retry_version md = v.
Proof.
  unfold still_waits. destruct (queryMetaData s !! k) as [md|]; [|done]. intros [? ?%Z.eqb_eq]%andb_true_iff. eauto.
Qed.
Lemma still_waits_false s k v : still_waits s k v = false → ∀ md, queryMetaData s !! k = Some md → md_is_waiting md = true → md_retry_version md ≠ v.
Proof. unfold still_waits. intros H md Hmd Hw Hv. rewrite Hmd, Hw, Hv, Z.eqb_refl in H. done. Qed.

Lemma run_remove_good s i k v d s' :
  inv None s → rq_tasks s !! i = Some (RemoveTxn k v d) → run_remove k v d (upd_tasks (delete i) s) = Done s' → good s s'.
Proof.
  intros Hi Ht H. set (s0 := upd_tasks _ s) in *. assert (inv None s0) as Hi0.
  { eapply inv_drop_task; [done..|by intros []|]. intros k' v' [(? & ? & ?)|(? & ? & ?)]; done. }
  apply (good_plain _ s0); [done|]. unfold run_remove in H. destruct (still_waits _ _ _); [|injection H as <-; by apply good_refl].
  apply (good_plain _ s'); [by apply upd_merged_form in H as (md & ps & _ & _ & ->)|]. apply good_refl.
  eapply upd_merged_inv; [exact H|done|apply focus_le_refl|done| |done]. intros y d'. rewrite dom_delete. set_solver.
Qed.

Lemma run_wake_good tb s i k v d ab s' :
  inv None s → rq_tasks s !! i = Some (WakeQuery k v d ab) →
  run_wake blake3 sign_result no_proof hashQueryGenId mvtso tb k v d ab (upd_tasks (delete i) s) = Done s' → good s s'.
Proof.
  intros Hi Ht H. set (s0 := upd_tasks _ s) in *. apply (good_plain _ s0); [done|]. unfold run_wake in H.
  assert (∀ k' v', pends (WakeQuery k v d ab) k' v' → k' = k ∧ v' = v) as Hpe by (intros ? ? [(? & ? & ?)|(? & ? & ?)]; naive_solver).
  destruct (still_waits s0 k v) eqn:Hsw; cycle 1.
  { injection H as <-. apply good_refl. eapply inv_drop_task; [done..|by intros []|].
    intros k' v' [-> ->]%Hpe. right. exact (still_waits_false _ _ _ Hsw). }
  assert (inv (Some (k, ∅)) s0) as Hi0.
  { eapply inv_drop_task; [done..|by intros []|]. intros k' v' [-> _]%Hpe. by left. }
  apply still_waits_true in Hsw as (md & Hmd & Hw & Hv). apply bind_Done in H as (s1 & H1 & H).
  assert (inv (Some (k, ∅)) s1 ∧ rq_out s1 = rq_out s0 ∧ alreadyDeleted s1 = alreadyDeleted s0 ∧ rq_replica s1 = rq_replica s0 ∧
    queryMissingTxns s1 = queryMissingTxns s0 ∧
    ∃ md1, queryMetaData s1 !! k = Some md1 ∧ md_is_waiting md1 = true ∧ md_retry_version md1 = v)
    as (Hi1 & Ho1 & Hd1 & Hr1 & Hm1 & md1 & Hmd1 & Hw1 & Hv1).
  { destruct ab; [|injection H1 as <-; split_and!; eauto]. split.
    - eapply upd_merged_inv; [exact H1|done|apply focus_le_refl|done| |done]. intros y d'. rewrite dom_delete. set_solver.
    - apply upd_merged_form in H1 as (md' & ps & _ & _ & ->). split_and!; try done. cbn. rewrite lookup_alter_eq.
      change (queryMetaData s) with (queryMetaData s0). rewrite Hmd. by eexists. }
  apply (good_plain _ s1); [done|]. apply bind_Done in H as (md1' & Hmd1'%get_md_Done & H). apply HandleSyncCallback_spec in H.
  eapply (callback_good (Some (k, ∅))); [exact H|done|intros k' ?; cbn; naive_solver|].
  intros md2 d' Hmd2 Hdel Hd'. assert (md2 = md1) as -> by congruence. rewrite Hd1 in Hdel.
  destruct (inv_waiting _ _ Hi1 k md1 Hmd1) as (m & Hm & _ & _ & _ & Hc & _); [by rewrite Hd1|done|].
  destruct (inv_tasks _ _ Hi (WakeQuery k v d ab)) as [_ Htk]; [by eapply list_elem_of_lookup_2|].
  destruct (Htk Hdel) as (md' & Hmd' & _ & Hmm). assert (md' = md) as -> by (cbn in Hmd; congruence).
  destruct (Hmm (eq_sym Hv)) as (m' & Hm' & Hall).
  destruct (Hc d' Hd') as [[_ []%elem_of_empty]|[?|Hin]]; [done|]. left.
  assert (m' = m) as -> by (rewrite Hv1, Hm1 in Hm; cbn in Hm; congruence).
  destruct (Hall d' Hin) as [?|?]; [left; unfold rq_core; by rewrite Hr1|right; by rewrite Ho1].
Qed.

(** A query with something missing stays. *)
Lemma resolve_stays s s' k rid md :
  evolves k rid s s' → inv (Some (k, ∅)) s' → queryMetaData s !! k = Some md →
  (k ∉ alreadyDeleted s → rid = R k (md_retry_version md)) →
  (∀ m, queryMissingTxns s' !! rid = Some m → nothing_missing m = false) → good s s'.
Proof.
  intros He Hi Hmd Hrid Hm. split; [|apply no_exec_covered, (ev_out _ _ _ _ He)].
  eapply inv_unfocus; [done|]. intros md' m Hmd' Hdel _ Hm'. left.
  destruct (ev_md _ _ _ _ He md Hmd) as (md2 & Hmd2 & Hv & _). assert (md2 = md') as -> by congruence.
  rewrite (ev_deleted _ _ _ _ He) in Hdel. specialize (Hrid Hdel). apply Hm. rewrite Hrid. congruence.
Qed.
Lemma run_resolve_good tb s i k rid v d ab s' :
  inv None s → rq_tasks s !! i = Some (ResolveTS k rid v d ab) →
  run_resolve config blake3 sign_result no_proof optimisticTxID hashQueryGenId mvtso tb k rid v d ab (upd_tasks (delete i) s) = Done s' →
  good s s'.
Proof.
  intros Hi Ht H. set (s0 := upd_tasks _ s) in *. apply (good_plain _ s0); [done|]. unfold run_resolve in H.
  destruct (inv_tasks _ _ Hi (ResolveTS k rid v d ab)) as [Hokd Hrid]; [by eapply list_elem_of_lookup_2|].
  assert (∀ k' v', pends (ResolveTS k rid v d ab) k' v' → k' = k ∧ v' = v) as Hpe by (intros ? ? [(? & ? & ?)|(? & ? & ?)]; naive_solver).
  destruct (still_waits s0 k v) eqn:Hsw; cycle 1.
  { injection H as <-. apply good_refl. eapply inv_drop_task; [done..|by intros []|].
    intros k' v' [-> ->]%Hpe. right. exact (still_waits_false _ _ _ Hsw). }
  assert (inv (Some (k, ∅)) s0) as Hi0.
  { eapply inv_drop_task; [done..|by intros []|]. intros k' v' [-> _]%Hpe. by left. }
  apply still_waits_true in Hsw as (md & Hmd & Hw & Hv). apply bind_Done in H as (s1 & H1 & H).
  pose proof (upd_merged_evolves k rid _ _ _ H1) as E1.
  assert (inv (Some (k, ∅)) s1) as Hi1.
  { eapply upd_merged_inv; [exact H1|done|apply focus_le_refl|done| |done]. intros y d'. destruct ab.
    - rewrite dom_delete. set_solver.
    - rewrite dom_touch. intros [->|?]; [right; left; intros ?; by left|by left]. }
  destruct (ev_md _ _ _ _ E1 md Hmd) as (md1 & Hmd1 & Hv1 & Hw1).
  subst v. destruct (queryMissingTxns s1 !! rid) as [m1|] eqn:Hm1; cycle 1.
  { injection H as <-. eapply resolve_stays; [done..|]. intros m. by rewrite Hm1. }
  apply bind_Done in H as ([[s2 q] finished] & H2 & H). apply bind_Done in H as (_ & _ & H).
  apply bind_Done in H as (md2 & Hmd2%get_md_Done & H).
  destruct (CheckPresence_spec _ _ _ _ _ _ _ _ _ _ H2 Hi1) as (Hi2 & E2 & Hf).
  { right. eapply okm_mono; [apply (ev_mat _ _ _ _ E1)| |exact Hokd]. destruct (ev_out _ _ _ _ E1) as (l & ? & _). by exists l. }
  destruct (from_option nothing_missing false _ && finished) eqn:Hr; cycle 1.
  { injection H as <-. eapply resolve_stays; [by etrans|done..|]. intros m Hm. rewrite Hm in Hr. cbn in Hr.
    destruct finished; [by rewrite andb_true_r in Hr|]. destruct (Hf m1 Hm1) as (m' & Hm' & Hin).
    assert (m' = m) as -> by congruence. apply andb_false_iff. left. apply bool_decide_eq_false_2. set_solver. }
  apply HandleSyncCallback_spec in H. apply andb_true_iff in Hr as [Hr ->].
  pose proof (evolves_trans _ _ _ _ _ E1 E2) as E02.
  eapply (good_after _ s2); [apply (ev_deleted _ _ _ _ E02)|apply (ev_out _ _ _ _ E02)|].
  eapply (callback_good (Some (k, ∅))); [exact H|done|intros k' ?; cbn; naive_solver|].
  intros md2' d' Hmd2' Hdel Hd'. assert (md2' = md2) as -> by congruence.
  destruct (ev_md _ _ _ _ E2 md1 Hmd1) as (md2'' & Hmd2'' & Hv2 & Hw2). assert (md2'' = md2) as -> by congruence.
  destruct (inv_waiting _ _ Hi2 k md2 Hmd2 Hdel) as (m & Hm & _ & _ & _ & Hc & _); [congruence|].
  rewrite (ev_deleted _ _ _ _ E02) in Hdel. specialize (Hrid Hdel).
  assert (R k (md_retry_version md2) = rid) as Hrid2 by (rewrite Hrid; congruence). rewrite Hrid2 in Hm. rewrite Hm in Hr. cbn in Hr.
  apply andb_true_iff in Hr as [Hemp%bool_decide_eq_true_1 _].
  destruct (Hc d' Hd') as [[_ []%elem_of_empty]|[?|Hin]]; [done|]. rewrite Hemp in Hin. by apply elem_of_empty in Hin.
Qed.

Lemma run_proof_good s i d pr s' :
  inv None s → rq_tasks s !! i = Some (CheckProof d pr) →
  run_proof config ser_cc ser_p2 Verify d pr (upd_tasks (delete i) s) = Done s' → good s s'.
Proof.
  intros Hi Ht (ok & _ & H)%bind_Done. destruct ok; [|done]. injection H as <-.
  apply (good_plain _ (upd_tasks (delete i) s)); [done|]. apply extends_good.
  - eapply inv_drop_task; [done..|by intros []|]. intros k' v' [(? & ? & ?)|(? & ? & ?)]; done.
  - by apply extends_out1.
Qed.

Lemma UpdateWaitingQueries_out d ab s : rq_out (UpdateWaitingQueries d ab s) = rq_out s.
Proof.
  unfold UpdateWaitingQueries. destruct (waitingQueries s !! d) as [w|]; [|done].
  assert (rq_out (foldl (update_query d ab) (s, ∅, ∅) (elements w)).1.1 = rq_out s) as H.
  { apply (foldl_inv (λ acc, rq_out acc.1.1 = rq_out s)); [|done]. intros [[s1 wake] rm] rid _ <-. cbn.
    repeat case_match; done. }
  destruct (foldl _ _ _) as [[s1 wake] rm]. exact H.
Qed.
Lemma UpdateWaitingQueriesTS_out x d ab s : rq_out (UpdateWaitingQueriesTS x d ab s) = rq_out s.
Proof.
  unfold UpdateWaitingQueriesTS. destruct (waitingQueriesTS s !! x) as [w|]; [|done].
  assert (rq_out (foldl (update_query_ts x) (s, ∅) (elements w)).1 = rq_out s) as H.
  { apply (foldl_inv (λ acc, rq_out acc.1 = rq_out s)); [|done]. intros [s1 upd] rid _ <-. cbn.
    repeat case_match; done. }
  destruct (foldl _ _ _) as [s1 upd]. exact H.
Qed.
Lemma same_out_covered s s' : rq_out s' = rq_out s → covered_exec s s'.
Proof. intros Ho. apply no_exec_covered. exists []. rewrite Ho, app_nil_r. split; [done|]. by intros ????? ?%elem_of_nil. Qed.

Lemma run_task_good tb s i t s' :
  inv None s → rq_tasks s !! i = Some t →
  run_task config ser_cc ser_p2 Verify blake3 sign_result no_proof optimisticTxID hashQueryGenId mvtso tb t (upd_tasks (delete i) s) = Done s' →
  good s s'.
Proof.
  intros Hi Ht H. destruct t as [d ab|x d ab|k v d|k v d ab|k rid v d ab|d pr]; cbn [run_task] in H.
  - injection H as <-. split; [by apply UpdateWaitingQueries_inv|]. apply same_out_covered. by rewrite UpdateWaitingQueries_out.
  - injection H as <-. split; [by apply UpdateWaitingQueriesTS_inv|]. apply same_out_covered. by rewrite UpdateWaitingQueriesTS_out.
  - by eapply run_remove_good.
  - by eapply run_wake_good.
  - by eapply run_resolve_good.
  - by eapply run_proof_good.
Qed.

(** ** Cleaning up *)

(** A query leaves with the entry of its version. *)
Lemma inv_forget s k md :
  inv None s → queryMetaData s !! k = Some md →
  inv None (upd_mds (delete k) (upd_missing (delete (R k (md_retry_version md))) (upd_deleted (λ x, {[k]} ∪ x) s))).
Proof.
  intros [A B C D F HH HU64 HC] Hmd. pose proof (C k md Hmd) as Hu. constructor; try done; cbn.
  - intros rid m [_ Hm]%lookup_delete_Some Hdel. destruct (A rid m Hm) as (md' & ? & ?); [set_solver|].
    exists md'. rewrite lookup_delete_ne; [done|]. set_solver.
  - intros rid m [_ Hm]%lookup_delete_Some. by apply B.
  - intros k' md' [_ Hmd']%lookup_delete_Some. by eapply C.
  - intros k' md' [Hne Hmd']%lookup_delete_Some Hdel Hw. destruct (D k' md' Hmd') as (m & Hm & Hok); [set_solver|done|].
    exists m. rewrite lookup_delete_ne; [done|]. intros Heq.
    by destruct (R_inj _ _ _ _ Heq Hu (C k' md' Hmd')) as [-> _].
  - intros t Ht. specialize (F t Ht). destruct t as [d ab|x d ab|k' v d|k' v d ab|k' rid v d ab|d pr]; try done.
    + destruct F as [Hv H]. split; [done|]. cbn. intros Hdel. destruct H as (md' & Hmd' & Hle & Hm); [set_solver|].
      assert (k ≠ k') as Hne by set_solver. exists md'. rewrite lookup_delete_ne by done. split_and!; [done..|].
      intros Hq. destruct (Hm Hq) as (m & Hm' & ?). exists m. rewrite lookup_delete_ne; [done|]. intros Heq.
      by destruct (R_inj _ _ _ _ Heq Hu Hv).
    + destruct F as [Hokd Hrid]. split; [done|]. cbn. intros Hdel. apply Hrid. set_solver.
  - intros k' md' [_ ?]%lookup_delete_Some. by eapply HH.
  - intros rid m [_ ?]%lookup_delete_Some. by eapply HU64.
Qed.
Lemma ClearRTS_materialized c reads ts : materialized (ClearRTS c reads ts) = materialized c.
Proof.
  unfold ClearRTS. repeat case_match; [done| |done].
  by apply (foldl_inv (λ x, materialized x = materialized c)).
Qed.
Lemma clean_query_inv s q s' :
  clean_query blake3 signClientQueries hashDigest s q = Done s' → inv None s → inv None s' ∧ rq_out s' = rq_out s.
Proof.
  unfold clean_query. destruct (queryMetaData s !! qm_query_id q) as [md|] eqn:Hmd; [|by intros [= <-]].
  case_bool_decide; [done|]. intros [= <-] Hi. set (k := qm_query_id q) in *.
  set (s1 := if cacheReadSet then _ else _).
  assert (∃ f, s1 = upd_core f (upd_deleted (λ x, {[k]} ∪ x) s) ∧ ∀ c, materialized (f c) = materialized c) as (f & -> & Hf).
  { unfold s1. destruct cacheReadSet.
    - eexists. split; [done|]. intros c. apply ClearRTS_materialized.
    - destruct (List.find _ _); [eexists; split; [done|]; intros c; apply ClearRTS_materialized|].
      exists id. by destruct s as [[] ? ? ? ? ? ? ? ? ?]. }
  split; [|done]. eapply inv_extends; [by apply (inv_forget s k md)|].
  apply (extends_replica (upd_server f)); [apply Hf|done].
Qed.
Lemma CleanQueries_good client last qs s s' :
  CleanQueries blake3 signClientQueries hashDigest client last qs s = Done s' → inv None s → good s s'.
Proof.
  unfold CleanQueries. destruct last as [l|]; [|intros [= <-]; by apply good_refl].
  set (s1 := upd_watermark _ s). intros H Hi.
  assert (inv None s1) as Hi1 by (destruct Hi; by constructor).
  assert (inv None s' ∧ rq_out s' = rq_out s1) as [Hi' Ho].
  { revert H. apply (foldO_inv (λ y, inv None y ∧ rq_out y = rq_out s1)); [|done].
    intros q x y _ [Hx Hox] Hy. destruct (clean_query_inv _ _ _ Hy Hx) as [? ->]. done. }
  split; [done|by apply same_out_covered].
Qed.

(** ** Runs *)

Local Notation step := (rq_step config ser_cc ser_p2 Verify blake3 txn_digest parse_txn parse_query parse_merged_ss parse_supply
  verifyHMAC sign_local_ss sign_result no_proof optimisticTxID signClientQueries hashDigest compressOptimisticTxIDs
  eagerPlusSnapshot signReplicaToReplicaSync hashQueryGenId mvtso).
Local Notation reachable := (rq_reachable config ser_cc ser_p2 Verify blake3 txn_digest parse_txn parse_query parse_merged_ss
  parse_supply verifyHMAC sign_local_ss sign_result no_proof optimisticTxID signClientQueries hashDigest
  compressOptimisticTxIDs eagerPlusSnapshot signReplicaToReplicaSync hashQueryGenId mvtso).

Lemma sync_inv_init r : inv None (rq_init r).
Proof.
  constructor; cycle -1; [|cbn; intros *; rewrite ?lookup_empty, ?elem_of_nil; done..].
  by intros x (_ & d & ts & ab & ?%elem_of_nil & _).
Qed.
Lemma step_good s s' : inv None s → step s s' → good s s'.
Proof.
  intros Hi Hs. destruct Hs as [tb now remote msg s' Hu H|tb remote msg s' Hu H|req s' H|msg s' H|t ts d s' tables H|d ts s' Hr H|
    r d t s' H|client last qs s' H|tb i t s' Ht H|r signed Hm Hts].
  - by eapply HandleQuery_good.
  - by eapply HandleSync_good.
  - by eapply extends_good, HandleRequestTx_extends.
  - by eapply extends_good, HandleSupplyTx_extends.
  - by eapply extends_good, ApplyWrites_extends.
  - by eapply extends_good, AbortWaiting_extends.
  - by eapply extends_good, ForceMaterialization_extends.
  - by eapply CleanQueries_good.
  - by eapply run_task_good.
  - eapply extends_good; [done|]. destruct (extends_replica (λ _, r) s Hm Hts). by constructor.
Qed.
Lemma sync_reachable_inv s : reachable s → inv None s.
Proof.
  intros [r Hr]. pose proof (sync_inv_init r) as Hi. induction Hr as [|x y z Hs _ IH]; [done|]. by apply IH, (step_good x).
Qed.

(** C27: in every run, a step that executes a query on a snapshot, for a query
    that was never cleaned up before the step ([k ∉ alreadyDeleted s]), finds each
    transaction of the snapshot materialized, or taken on trust by
    [ProcessSuppliedTxn] (a supplied transaction that says it is of genesis), or
    taken on trust by [ProcessSync] (a transaction that a message with optimistic
    identifiers names itself).  The hypotheses: hashes of query identifiers, where
    they are used, are distinct, and retry versions are 64-bit.  A query that was
    cleaned up and comes again has no such promise: see
    [QuerySyncExample.stale_wake_executes]. *)
Theorem executed_snapshot_materialized s s' :
  rq_reachable config ser_cc ser_p2 Verify blake3 txn_digest parse_txn parse_query parse_merged_ss parse_supply verifyHMAC sign_local_ss
    sign_result no_proof optimisticTxID signClientQueries hashDigest compressOptimisticTxIDs eagerPlusSnapshot
    signReplicaToReplicaSync hashQueryGenId mvtso s →
  rq_step config ser_cc ser_p2 Verify blake3 txn_digest parse_txn parse_query parse_merged_ss parse_supply verifyHMAC sign_local_ss
    sign_result no_proof optimisticTxID signClientQueries hashDigest compressOptimisticTxIDs eagerPlusSnapshot
    signReplicaToReplicaSync hashQueryGenId mvtso s s' →
  ∃ l, rq_out s' = rq_out s ++ l ∧
    ∀ k v cmd ts txns, ExecOnSnapshot k v cmd ts txns ∈ l → k ∉ alreadyDeleted s → ∀ d, d ∈ txns →
      d ∈ materialized (rq_core s') ∨ AcceptedGenesis d ∈ rq_out s' ∨ ∃ ds, UncheckedTxns k v ds ∈ rq_out s' ∧ d ∈ ds.
Proof.
  intros Hi%sync_reachable_inv Hs. destruct (step_good s s' Hi Hs) as [_ (l & Ho & Hl)]. exists l. split; [done|].
  intros k v cmd ts txns Hin Hk d Hd. destruct (Hl k v cmd ts txns Hin Hk d Hd) as [[?|?]|?]; auto.
Qed.

(** C28: no wake-up is lost.  In every run, when no work is pending
    ([rq_tasks s = []]), a query that waits and was never cleaned up has its
    entry of missing transactions, and one of these holds: the entry names a
    transaction that is not materialized, and the query is registered with it
    in [waitingQueries]; or the entry names a timestamp, the query is registered
    with it in [waitingQueriesTS], and, with [optimisticTxID], no transaction of
    this merged timestamp was ever applied or aborted at this replica.  The
    hypotheses: hashes of query identifiers, where they are used, are distinct,
    retry versions are 64-bit, with [optimisticTxID] a transaction is registered
    under its timestamp before it is aborted, and registrations stay. *)
Theorem waiting_query_registered s k md :
  rq_reachable config ser_cc ser_p2 Verify blake3 txn_digest parse_txn parse_query parse_merged_ss parse_supply verifyHMAC sign_local_ss
    sign_result no_proof optimisticTxID signClientQueries hashDigest compressOptimisticTxIDs eagerPlusSnapshot
    signReplicaToReplicaSync hashQueryGenId mvtso s →
  rq_tasks s = [] → queryMetaData s !! k = Some md → k ∉ alreadyDeleted s → md_is_waiting md = true →
  ∃ m, queryMissingTxns s !! R k (md_retry_version md) = Some m ∧ mt_query_id m = k ∧
    ((∃ d, d ∈ mt_txns m ∧ d ∉ materialized (rq_core s) ∧ R k (md_retry_version md) ∈ default ∅ (waitingQueries s !! d)) ∨
     (∃ x, x ∈ mt_ts m ∧ R k (md_retry_version md) ∈ default ∅ (waitingQueriesTS s !! x) ∧
        (optimisticTxID = true → ∀ d ts ab, MaterializedTx d ts ab ∈ rq_out s →
           MergeTimestampId (timestamp ts) (ts_id ts) ≠ Done x))).
Proof.
  intros Hi%sync_reachable_inv Ht Hmd Hdel Hw.
  destruct (inv_waiting _ _ Hi k md Hmd Hdel Hw) as (m & Hm & Hq & _ & _ & _ & Hp). exists m. split_and!; [done..|].
  destruct (inv_reg _ _ Hi _ m Hm) as [Ha Hb].
  destruct Hp as [[]|[Hn|(d & ab & Hp)]]; [|rewrite Ht, !elem_of_nil in Hp; by destruct Hp].
  unfold nothing_missing in Hn. apply andb_false_iff in Hn as [Hn%bool_decide_eq_false|Hn%bool_decide_eq_false];
    apply set_choose_L in Hn as [d Hd]; [left|right]; exists d.
  - destruct (Ha d Hd) as [Hr Hmat]. split_and!; [done| |done]. intros Hin. destruct (Hmat Hin) as [ab Htask].
    rewrite Ht in Htask. by apply elem_of_nil in Htask.
  - destruct (Hb d Hd) as [Hr Hcame]. split_and!; [done..|]. intros Ho d' ts ab Hin Hx.
    destruct Hcame as (d2 & ab2 & Htask); [split; eauto|]. rewrite Ht in Htask. by apply elem_of_nil in Htask.
Qed.
End safety.
