(* ===== verification/QuerySyncExamples.v ===== *)
(** * Concrete queries at a replica

    Instances of the theorems of QuerySyncSafety.v, and runs that show what
    the code does not check. *)
From S2P Require Import Prelude OrderedSeq CppString Timestamp VersionStore Policy PolicyParse ServerState ServerTxn MVTSO Endorse Quorum AsyncVerify Phase2 Reads Snapshot Digest Phase1 QueryClient QuerySync QuerySyncSafety DemoEnv.

Module QuerySyncExample.
Import QuorumExample.
#[local] Instance env : Env := demo_env false.
Definition t : Transaction := mkTxn 3 1 [] [] [] (mkTs 20000 3) [] [] [] None None NONE [] [] "" [] [] [0].
Definition genesis : Transaction := mkTxn 0 0 [] [] [] (mkTs 0 0) [] [] [] None None NONE [] [] "" [] [] [0].
Definition no_proof : CommittedProof := mkProof t None.
Definition no_sig : SignedMessage := mkSigned 3 "" "".
Definition qts : Timestamp := mkTs 30000 3.
Definition query : QueryMsg := mkQueryMsg 3 1 "select" qts 0.
Definition k : digest := QueryDigest id query false.
(** The engine: every read finds nothing. *)
Definition empty_rs : QueryReadSet := mkQRS [] [] [].
Definition tb : TableStore :=
  mkTableStore (λ _ _ ls, ls) (λ _ _, ("r", empty_rs)) (λ _ _ ls, ("r", empty_rs, ls)) (λ _ _ _, ("r", empty_rs)).
Definition query_msg : QueryRequest := mkQReq 7 query 0 no_sig (Some false) true false false false.
(** Replicas 1 and 2 reported [d]. *)
Definition snapshot : ProposedSnapshot :=
  mkPS (mkMergedSS 1 3 0 (Some k) {["d" := mkRL [1; 2] false 0]} ∅) [].
Definition sync_msg : SyncClientProposal := mkSyncProp 7 snapshot no_sig true.

Notation step := (rq_step config ser_cc ser_p2 Verify (λ x, x) (λ _, "d") (λ _, t) (λ _, (query, 0)) (λ _, snapshot)
  (λ _, mkSMT 1 [] []) (λ _ _ _, true) (λ _, no_sig) (λ _ _, no_sig) no_proof false false false false false false false false).
Notation reachable := (rq_reachable config ser_cc ser_p2 Verify (λ x, x) (λ _, "d") (λ _, t) (λ _, (query, 0)) (λ _, snapshot)
  (λ _, mkSMT 1 [] []) (λ _ _ _, true) (λ _, no_sig) (λ _ _, no_sig) no_proof false false false false false false false false).
Notation on_query := (HandleQuery config (λ x, x) (λ _, (query, 0)) (λ _, no_sig) (λ _ _, no_sig) no_proof
  false false false false false false false tb 0 9).
Notation on_sync := (HandleSync config (λ x, x) (λ _, snapshot) (λ _ _, no_sig) no_proof false false false false false tb 9).
Notation on_supply := (HandleSupplyTx (λ _, "d") (λ _, t) (λ _, mkSMT 1 [] []) (λ _ _ _, true) false false).
Notation task := (run_task config ser_cc ser_p2 Verify (λ x, x) (λ _ _, no_sig) no_proof false false false tb).

Definition s0 : rserver := rq_init (mkReplica (server_init (E := env) ()) ∅).
Definition after (x : outcome rserver) : rserver := match x with Done s => s | Panic => s0 end.
Definition task_at (i : nat) (s : rserver) : outcome rserver :=
  match rq_tasks s !! i with Some t => task t (upd_tasks (base.delete i) s) | None => Panic end.

(** The query, the snapshot its client merged, the transaction of the
    snapshot, and the work it starts. *)
Definition s1 : rserver := after (on_query query_msg s0).
Definition s2 : rserver := after (on_sync sync_msg s1).
Definition s3 : rserver := match ApplyWrites false t (t_timestamp t) "d" s2 with Done (s, _) => s | Panic => s0 end.
Definition s4 : rserver := after (task_at 0 s3).
Definition s5 : rserver := after (task_at 0 s4).

Lemma task_at_step i s s' : task_at i s = Done s' → step s s'.
Proof. unfold task_at. destruct (rq_tasks s !! i) as [t'|] eqn:Ht; [|done]. intros H. by eapply (rq_task _ _ _ _ _ _ _ _ _ _ _ _ _ _ _ _ _ _ _ _ _ _ s tb i t'). Qed.
Lemma reach1 : rtc step s0 s1.
Proof. apply rtc_once. apply (rq_query _ _ _ _ _ _ _ _ _ _ _ _ _ _ _ _ _ _ _ _ _ _ s0 tb 0 9 query_msg); [by cbn|vm_compute; reflexivity]. Qed.
Lemma reach2 : rtc step s0 s2.
Proof.
  eapply rtc_r; [exact reach1|]. apply (rq_sync _ _ _ _ _ _ _ _ _ _ _ _ _ _ _ _ _ _ _ _ _ _ s1 tb 9 sync_msg); [by cbn|vm_compute; reflexivity].
Qed.
Lemma reach4 : rtc step s0 s4.
Proof.
  eapply rtc_r; [eapply rtc_r; [exact reach2|]|].
  - apply (rq_apply _ _ _ _ _ _ _ _ _ _ _ _ _ _ _ _ _ _ _ _ _ _ s2 t (t_timestamp t) "d" s3 []). vm_compute. reflexivity.
  - apply (task_at_step 0). vm_compute. reflexivity.
Qed.

Lemma executed_snapshot_materialized_witness :
  (ExecOnSnapshot k 0 "select" qts {["d"]} ∈ rq_out s5 ∧ ExecOnSnapshot k 0 "select" qts {["d"]} ∉ rq_out s4) ∧
  ∃ l, rq_out s5 = rq_out s4 ++ l ∧
    ∀ k v cmd ts txns, ExecOnSnapshot k v cmd ts txns ∈ l → k ∉ alreadyDeleted s4 → ∀ d, d ∈ txns →
      d ∈ materialized (rq_core s5) ∨ AcceptedGenesis d ∈ rq_out s5 ∨ ∃ ds, UncheckedTxns k v ds ∈ rq_out s5 ∧ d ∈ ds.
Proof.
  split; [vm_compute; set_solver|].
  apply (executed_snapshot_materialized (E := env) config ser_cc ser_p2 Verify (λ x, x) (λ _, "d") (λ _, t) (λ _, (query, 0)) (λ _, snapshot)
    (λ _, mkSMT 1 [] []) (λ _ _ _, true) (λ _, no_sig) (λ _ _, no_sig) no_proof false false false false false false false false
    (λ _ _ _ H, H)).
  - eexists. exact reach4.
  - apply (task_at_step 0). vm_compute. reflexivity.
Defined.

(** The same query on a snapshot of optimistic identifiers: [t] under its
    merged timestamp. *)
Definition tid : Z := match MergeTimestampId 20480 3 with Done x => x | Panic => 0 end.
Definition opt_txn : Transaction := mkTxn 3 1 [] [] [] (mkTs 20480 3) [] [] [] None None NONE [] [] "" [] [] [0].
Definition opt_snapshot : ProposedSnapshot := mkPS (mkMergedSS 1 3 0 (Some k) ∅ {[tid := mkRL [1; 2] false 0]}) [].
Notation opt_step := (rq_step config ser_cc ser_p2 Verify (λ x, x) (λ _, "d") (λ _, t) (λ _, (query, 0)) (λ _, snapshot)
  (λ _, mkSMT 1 [] []) (λ _ _ _, true) (λ _, no_sig) (λ _ _, no_sig) no_proof true false false false false false false false).
Definition o1 : rserver := after (HandleQuery config (λ x, x) (λ _, (query, 0)) (λ _, no_sig) (λ _ _, no_sig) no_proof
  true false false false false false false tb 0 9 (mkQReq 7 query 0 no_sig (Some true) true false false false) s0).
Definition o2 : rserver := after (HandleSync config (λ x, x) (λ _, snapshot) (λ _ _, no_sig) no_proof true false false false false
  tb 9 (mkSyncProp 7 opt_snapshot no_sig true) o1).
Lemma opt_reach2 : rtc opt_step s0 o2.
Proof.
  eapply rtc_r; [apply rtc_once|].
  - eapply (rq_query _ _ _ _ _ _ _ _ _ _ _ _ _ _ _ _ _ _ _ _ _ _ s0 tb 0 9 (mkQReq 7 query 0 no_sig (Some true) true false false false) o1);
      [by cbn|vm_compute; reflexivity].
  - apply (rq_sync _ _ _ _ _ _ _ _ _ _ _ _ _ _ _ _ _ _ _ _ _ _ o1 tb 9 (mkSyncProp 7 opt_snapshot no_sig true));
      [by cbn|vm_compute; reflexivity].
Qed.
Definition md2 : QueryMetaData := default (QMD_sync 0 0) (queryMetaData o2 !! k).
Lemma waiting_query_registered_witness :
  queryMetaData o2 !! k = Some md2 ∧ md_is_waiting md2 = true ∧
  ∃ m, queryMissingTxns o2 !! retry_id (λ x, x) false false k (md_retry_version md2) = Some m ∧ mt_query_id m = k ∧
    ((∃ d, d ∈ mt_txns m ∧ d ∉ materialized (rq_core o2) ∧
        retry_id (λ x, x) false false k (md_retry_version md2) ∈ default ∅ (waitingQueries o2 !! d)) ∨
     (∃ x, x ∈ mt_ts m ∧ retry_id (λ x, x) false false k (md_retry_version md2) ∈ default ∅ (waitingQueriesTS o2 !! x) ∧
        (true = true → ∀ d ts ab, MaterializedTx d ts ab ∈ rq_out o2 → MergeTimestampId (timestamp ts) (ts_id ts) ≠ Done x))).
Proof.
  assert (queryMetaData o2 !! k = Some md2) as Hmd by (vm_compute; reflexivity).
  assert (md_is_waiting md2 = true) as Hw by (vm_compute; reflexivity). split; [exact Hmd|]. split; [exact Hw|].
  apply (waiting_query_registered (E := env) config ser_cc ser_p2 Verify (λ x, x) (λ _, "d") (λ _, t) (λ _, (query, 0)) (λ _, snapshot)
    (λ _, mkSMT 1 [] []) (λ _ _ _, true) (λ _, no_sig) (λ _ _, no_sig) no_proof true false false false false false false false
    (λ _ _ _ H, H) o2 k md2); [|vm_compute; reflexivity|exact Hmd|vm_compute; set_solver|exact Hw].
  eexists. exact opt_reach2.
Defined.

(** The transaction of the timestamp comes, and the query runs. *)
Definition o3 : rserver :=
  match ApplyWrites true opt_txn (t_timestamp opt_txn) "d" o2 with Done (s, _) => s | Panic => s0 end.
Definition opt_task_at (i : nat) (s : rserver) : outcome rserver :=
  match rq_tasks s !! i with
  | Some t => run_task config ser_cc ser_p2 Verify (λ x, x) (λ _ _, no_sig) no_proof true false false tb t (upd_tasks (base.delete i) s)
  | None => Panic
  end.
Definition o5 : rserver := after (opt_task_at 1 (after (opt_task_at 1 o3))).
Example optimistic_query_woken :
  mt_ts <$> queryMissingTxns o2 !! retry_id (λ x, x) false false k 0 = Some {[tid]} ∧
  rq_tasks o3 = [UpdateQueries "d" false; UpdateQueriesTS tid "d" false] ∧
  ExecOnSnapshot k 0 "select" qts {["d"]} ∈ rq_out o5.
Proof. split; [vm_compute; reflexivity|]. split; [vm_compute; reflexivity|]. vm_compute. set_solver. Qed.

(** The client hears the result of the execution. *)
Example query_runs_to_result :
  rq_out s2 = [SendSyncReply 9 (mkSyncReply 7 (InitLocalSnapshot 1 3 0) None) false;
               SendRequestMissing 2 (mkRMT 0 ["d"] []); SendRequestMissing 1 (mkRMT 0 ["d"] [])] ∧
  rq_tasks s3 = [UpdateQueries "d" false] ∧ rq_tasks s4 = [WakeQuery k 0 "d" false] ∧ rq_tasks s5 = [] ∧
  rq_out s5 = rq_out s2 ++ [MaterializedTx "d" (t_timestamp t) false; ExecOnSnapshot k 0 "select" qts {["d"]};
    SendQueryResult 9 (QueryGenId (λ x, x) "select" qts "" false) (mkQRR 7 (mkQR 0 "r" "" empty_rs None) None [])].
Proof. vm_compute. repeat split; reflexivity. Qed.

(** Where the snapshot comes first and waits for the command of its query, a
    second copy of the query synchronizes once more: the assertion that this
    is the first time fails. *)
Definition c1 : rserver := after (on_sync sync_msg s0).
Definition c2 : rserver := after (on_query query_msg c1).
Example repeated_query_crashes :
  md_waiting_sync <$> queryMetaData c2 !! k = Some true ∧ on_query query_msg c2 = Panic.
Proof. vm_compute. split; reflexivity. Qed.

(** A transaction of the snapshot that the replica knows to be aborted is
    erased from the map the loop is in. *)
Definition a1 : rserver := upd_core (upd_aborted (λ x, {["d"]} ∪ x)) s1.
Example aborted_in_snapshot_undefined : on_sync sync_msg a1 = Panic.
Proof. vm_compute. reflexivity. Qed.

(** A replica that supplies a transaction of genesis under the digest wakes
    the query before its transaction is there. *)
Definition forged : SupplyMissingTxns := mkSupply (mkSMT 1 [mkTI (Some "d") (SupplyCommit (mkProof genesis None)) None] []) no_sig.
Definition g1 : rserver := after (on_supply forged s2).
Definition g2 : rserver := after (task_at 0 g1).
Definition g3 : rserver := after (task_at 1 g2).
Example forged_genesis_executes :
  ExecOnSnapshot k 0 "select" qts {["d"]} ∈ rq_out g3 ∧ "d" ∉ materialized (rq_core g3).
Proof. split; [vm_compute; set_solver|]. apply (bool_decide_unpack _). vm_compute. exact I. Qed.

(** A wake-up that outlives its query: the query waits for ["d"], which is
    applied; before its wake-up runs, a transaction that lists the query cleans
    it up; the client sends the query and another snapshot again, and the old
    wake-up executes it on a transaction the replica does not have. *)
Definition snapshot_e : ProposedSnapshot := mkPS (mkMergedSS 1 3 0 (Some k) {["e" := mkRL [1; 2] false 0]} ∅) [].
Definition w5 : rserver := after (CleanQueries (λ x, x) false false 4 (Some 0) [mkQM k 0 []] s4).
Definition w6 : rserver := after (on_query query_msg w5).
Definition w7 : rserver := after (on_sync (mkSyncProp 7 snapshot_e no_sig true) w6).
Definition w8 : rserver := after (task_at 0 w7).
Example stale_wake_executes :
  rq_tasks w7 = [WakeQuery k 0 "d" false] ∧
  ExecOnSnapshot k 0 "select" qts {["e"]} ∈ rq_out w8 ∧ "e" ∉ materialized (rq_core w8).
Proof.
  split; [vm_compute; reflexivity|]. split; [vm_compute; set_solver|]. apply (bool_decide_unpack _). vm_compute. exact I.
Qed.

(** A supply of another transaction, or a request for one the replica does
    not have, stops the replica. *)
Example wrong_supply_crashes :
  HandleSupplyTx (λ _, "e") (λ _, t) (λ _, mkSMT 1 [] []) (λ _ _ _, true) false false
    (mkSupply (mkSMT 1 [mkTI (Some "d") (SupplyCommit (mkProof t None)) None] []) no_sig) s2 = Panic ∧
  HandleRequestTx (mkRMT 1 ["x"] []) s2 = Panic.
Proof. vm_compute. split; reflexivity. Qed.
End QuerySyncExample.
